(* ===== verification/_CoqProject ===== *)
-Q . S2P
Prelude.v
GoStr.v
Money.v
Rational.v
PriceTable.v
Pricing.v
UnitPricing.v
Surfaces.v
Usage.v
Stream.v
Catalog.v
BreakerStore.v
Breaker.v
RateLimit.v
Errors.v
Classify.v
Guard.v
Billing.v
Routing.v
Rotation.v
Ledger.v
Settlement.v
Replay.v
KeyFormat.v
Cache.v
Settings.v
Auth.v
Credentials.v
Attempt.v
Admission.v
Serve.v
Envelope.v
VideoJobs.v
VideoWorker.v
VideoLife.v
VideoRounds.v
VideoSubmit.v
Http.v
Transport.v
Upstream.v
Outbound.v
Rewrite.v
Forward.v
Reframe.v
Probe.v
Idempotency.v
Base64.v
Cursor.v
Vendors.v
Json.v
Natives.v
NativeServe.v
ProbeRun.v
