(* ===== verification/Prelude.v ===== *)
(** * FairLB: a verification library

    FairLB is a gateway in front of LLM vendors.  A request is authenticated and
    admitted, its model is resolved to candidate routes, the most it may cost is
    held, the candidates are tried in turn until one serves it, and the measured
    usage is priced and settled.  This library models the decision-making core of
    that path, translated from the Go sources, and proves what makes it correct.

    ** The files

    - [Prelude.v] (this file): machine integers ([wrap64]), [result] for Go's
      (value, error) pairs, the tactics and hints shared by the library, and
      [SortFunc] for [slices.SortFunc].
    - [GoStr.v]: byte strings and the parts of [strconv], [strings] and [bytes]
      the code uses ([Atoi], [Itoa], [Cut], [TrimRight], [TrimSpace]).
    - [Money.v]: [foundation/money] (nano amounts and their decimal form).
    - [Rational.v]: [big.Rat] as used by pricing, and [ceilToInt64] of
      [internal/gateway/catalog/pricing.go].
    - [PriceTable.v], [Pricing.v], [UnitPricing.v]: [price_table.go],
      [pricing.go], [unit_price.go] of [internal/gateway/catalog]: the rate
      cards, the quote of a request billed by tokens or by units, the hold
      estimate and the itemised contributions.
    - [Surfaces.v], [Catalog.v]: [internal/gateway/catalog/catalog.go] (the
      surface table; the resolution of a model with its price cache and
      transport fallback; the hold's output bound) and the published price of
      [models_handler.go].
    - [BreakerStore.v], [Breaker.v]: [foundation/drivers/breaker] (interface and
      in-process store) and [internal/gateway/proxy/breaker.go].
    - [RateLimit.v]: [foundation/drivers/ratelimit] (interface, and the
      token-bucket script with its client of [redis.go]).
    - [Errors.v], [Classify.v], [Guard.v]: [errors.go], [classify.go], [guard.go]
      of [internal/gateway/proxy], with the gateway segment of the error registry.
    - [Routing.v], [Rotation.v]: [router.go] and [rotation.go] of the same
      package, with the functions of [pipeline.go] the rotation calls.
    - [Usage.v], [Stream.v]: the usage every vendor spelling reports
      ([protocols.go], [usage_wire.go], [images.go]), the token estimate
      ([estimate.go]), and the event stream: framing and pump ([stream.go]),
      incremental usage ([stream_usage.go]).
    - [KeyFormat.v], [Cache.v], [Auth.v]: the virtual key format with its checksum
      ([access/keyfmt]), the cache interface with its in-process driver
      ([foundation/drivers/cache]), and authentication behind the key cache
      ([internal/gateway/proxy/auth.go]).
    - [Settings.v]: the [settings] package (registry, typed validation, section
      rules, batches, cached reads, built clients) and the gateway's readers of it
      ([internal/gateway/catalog/settings.go]).
    - [Admission.v]: [Admission.Prepare] and [PricingSnapshot.LockInputs] of
      [internal/gateway/proxy/pipeline.go].
    - [Serve.v]: [Run] and [RunStream], a whole request composed of admission,
      pinning, reservation, execution and settlement.
    - [Envelope.v]: what a video request may ask ([internal/gateway/video],
      [envelope.go] and [video.go]).
    - [VideoJobs.v], [VideoWorker.v], [VideoLife.v], [VideoRounds.v],
      [VideoSubmit.v]: the video job plane.  The rows and their queries
      ([db/videojobs.sql.go] with the checks of [migrations/0002_gateway.sql]);
      the poller, fetcher and sweeper of [video_worker.go] with cancellation and
      deletion, each transaction a function on the plane; the step relation
      [vstep] of those transactions in any interleaving, with its invariant; the
      handlers and worker rounds as runs of it; submission ([video_submit.go]).
    - [Credentials.v], [Attempt.v]: whose credential serves a request ([byok.go],
      [affinity.go]), and one attempt at one candidate with the executor, buffered
      ([attemptOnce], [Execute] of [pipeline.go]) and streamed
      ([pipeline_stream.go]).
    - [Billing.v]: what one request is charged ([byok.go], [images.go],
      [pricing_snapshot.go], the pricing half of [pipeline.go]).
    - [Ledger.v]: the interface the gateway settles through
      ([internal/gateway/settle]), its self-hosted implementation
      ([internal/community/settle], the counters of [access/apikeys]), the
      recording fake, the tables settlement writes and the replay payload
      ([internal/gateway/usage/replay_payload.go]).
    - [Settlement.v]: from an admitted request and the outcome of its execution to
      the accounting decision, on the buffered, streamed, utility and image paths
      ([pipeline.go], [buffered_settlement.go], [pipeline_stream.go],
      [utility.go], [images.go]), and the replay worker
      ([internal/gateway/usage/unsettled.go]), whose rounds are studied in
      [Replay.v].

    - [Http.v]: the parts of [net/http], [net/url] and [strings] that addressing
      uses (header names and maps, path escaping, substitution).
    - [Transport.v]: the transport profile of a provider and its validation
      ([catalog/transport.go]).
    - [Upstream.v]: credentials derived per request ([internal/gateway/upstream]),
      behind the interface [PresentLaws].
    - [Outbound.v], [Rewrite.v]: building the outbound request ([outbound.go]) and
      editing bodies ([RewriteRequest], [AnnotateUsage] of [protocols.go]).
    - [Forward.v]: the attempts of [Attempt.v] with the requests they really build,
      and the target of a video call.
    - [Reframe.v]: binary event frames as server-sent events
      ([upstream/eventstream.go]).
    - [Vendors.v]: the five video vendors behind the mapper interface the job plane
      is written against ([video/mapper.go], [video/vendor_*.go]).
    - [Json.v], [Natives.v], [NativeServe.v]: how a document fills a Go struct; the
      gateway answering in each vendor's own shape ([video/native*.go]); and the
      handlers behind those paths ([proxy/videos_native.go]), composed with the
      submission of [VideoSubmit.v] and the rows of [VideoJobs.v].
    - [Probe.v], [ProbeRun.v]: the table of what each route was found to serve, with
      every statement on it, its service, worker, sweeper and operator actions
      ([internal/gateway/routeprobe], [catalogadmin/route_probes.go]); and the
      request one probe sends ([internal/gateway/upstreamprobe]).
    - [Idempotency.v]: the management plane's Idempotency-Key middleware, its table
      and its reaper ([foundation/httpx]).
    - [Base64.v], [Cursor.v]: decoding base64, and cursor pagination
      ([foundation/cursorpage]).

    ** How state and effects are modelled

    Go integers are [Z]; unguarded int64 arithmetic goes through [wrap64], and
    figures the code keeps in [big.Int] or [big.Rat] stay exact.  Maps are
    [gmap]s; where the code's result depends on an iteration order the operation
    takes the order as a list.  A fallible function returns [result] or [option];
    a stateful one takes and returns its state.  Time is an argument (nanoseconds),
    randomness a list of draws or an argument in [0, 1), so theorems quantify over
    every clock reading and every draw.

    The breaker is proved against the class [StoreLaws], which [Memory_laws]
    discharges for the in-process store; the admission gates against
    [LimiterLaws], discharged by [Redis_laws].  The rotation threads one
    [Pipeline] record (breakers, retry budget, semaphores as a heap with
    pointers, limiter, key cursors) and takes the attempt as a function of the
    whole record, so that an attempt may do to it anything concurrent requests
    could.  The retry budget's three atomic operations are a step relation of
    their own ([budget_step]).  [Attempt.v] supplies both attempts; their own state
    is the [Ext] carried in the record, which [rotate_ended] follows to the end of
    a rotation.  A cache is a class of its own ([CacheLaws], discharged by
    [Memory_cache_laws]) behind which both the key snapshots and the settings are
    proved; overlapping requests are the step relation
    [auth_step].

    Settlement threads one [World] - the settler's state and the three tables - and
    is told which database writes fail ([Faults]).  It is proved against the
    classes [Settler] and [SettlerLaws], discharged by [Recorder_laws] (the
    self-hosted counters) and [Fake_laws].  A response, a stream event or a stored
    payload is what its JSON decodes to; the decoders are parameters
    ([Decoders]).  [gateway_step] relates the worlds before and after any request,
    reservation or worker round.

    The video plane takes a mapper as a record of functions; [mapper_of] is that record
    for each vendor.  The probe table is one map, and its worker takes one probe as a
    function of the world outside, which [ProbeRun.v] supplies; the relation [touches]
    is every way the table changes.  An idempotent request is a small machine that
    does one statement per move, so that [step] interleaves any number of them with
    crashes, failing statements and the reaper.  A paginated endpoint is an instance
    of [CursorLaws].  The vendors' surfaces are read twice over: [Vendors.v] is this
    gateway as a client, [Natives.v] the gateway as that vendor, and the theorems put
    one in front of the other, the router between them being a parameter with its laws.

    ** What the theorems show

    - Money: the parser accepts exactly the decimals it documents with their
      exact value, and the wire form round-trips for all but one int64.
    - Pricing: a quote is the exact cost and charge, rounded up once; tokens are
      billed once; the charge does not depend on the route; a free model costs
      but does not charge; a missing price refuses; the hold covers the
      settlement of any usage within its figures whose buckets are priced within
      the held rates; the contributions add up to the quote.
    - Catalog: a resolution passes every gate; the price cache is transparent;
      published prices are exact.
    - Breaker: a circuit opens at the fifth failure in the window, climbs the
      ladder, closes on success and survives a restart.
    - Rate limiting: what a bucket admits over any stretch is bounded by the limit
      plus the refill, and a refusal's hint is exact.
    - Failures: the decision table, and that a failure moves one circuit at most.
    - Routing: order respects priority; retries are bounded under concurrency; a
      rotation makes at most three attempts, stops for the stated reasons and
      records exactly what failed; no concurrency slot leaks; a usable
      credential is found when there is one.
    - Keys: every issued key is well-formed and one wrong character is refused; the
      key cache changes no answer, and a revoked key dies within one cache
      lifetime however requests overlap.
    - Credentials: a secret is only ever presented where it belongs, a fallback
      from an organization's credential to a shared one only as allowed; what is
      recorded names the credential that served; a refusal on an organization's
      credential moves no circuit.
    - Settings: an accepted batch keeps every section rule true of the stored state;
      what is written is what is read, through the cache and the seal; whatever is
      stored, the gateway's readers answer within their bounds.
    - Admission: no gate can be walked around, the rate limiter is asked last and
      once, and a request refused before it spends nothing of the rate limit.
    - Whole requests: an answered request was admitted, reserved first, and is
      charged at most what was reserved; a refused one reaches no upstream and
      moves nothing.
    - Usage: every prompt token of a report is billed once, whatever the
      spelling; a stream is billed like the whole response carrying its last
      report; the client gets the upstream's bytes, and settlement reads the very
      frames the client got.
    - Settlement: the books balance (what keys were settled for is what the usage
      log says they were charged, in every reachable world); delivery decides
      between release and charge; a per-image hold covers the bill; what is
      settled is what the next budget check reads.
    - Replay: the payload round-trips but for one field (the image output tokens,
      which a replayed row therefore loses); a queued charge is
      collected by one healthy round and no other; a charge that keeps failing is
      given up after eight rounds and not before.
    - Addressing: a validated profile is honoured as typed; the outbound header set
      is exactly the allowlist; a secret reaches no header but the ones it is told
      to, in whatever order two requests apply the mapping; a rewritten body, each
      child of a batch included, differs in its envelope only; an annotated answer
      states the very charge; a re-framed stream is the one the direct endpoint would
      send, frame by frame where the labels and payloads are single lines.
    - Video envelope: a request one candidate serves passes the union of the
      candidates' envelopes when those leave the same axes open, and may not otherwise.
    - Video jobs: in every reachable plane a clip is charged at most once and no
      ended job holds money; rows keep the schema's checks; a deletion strands
      nothing.  The handlers and rounds refine those steps: a sweep leaves nothing
      overdue, another organization's job looks absent, a presigned link is sent
      no secret.  A used key costs nothing, a failed submission holds nothing, an
      accepted job holds what it will be charged.
    - Vendors: a completed poll names something to fetch, a vendor's link is fetched
      without our credential, a submitted job can be polled, and a caller's own
      parameters complete a request without changing what is billed.
    - Vendor surfaces: a client written against a vendor follows its own job from the
      submission to the film, and another organization's job cannot be told from none;
      at the places a vendor documents, nothing that is billed is passed on beside
      what was priced; a retry within the minute is the same request and costs
      nothing, and nothing else shares its key; what one gateway sends another reads
      back, where the dialect has the words, so both price the same request.
    - Probing: verdict rows stay well-formed whatever touches them; a verified
      endpoint is withdrawn only by a recent second miss; a pass answers what it was
      asked and the sweeper asks only what a pass would answer; a probe is the
      request the data plane would send, and only an answer finds an endpoint missing.
    - Idempotency: one execution per key at a time, however attempts interleave, as
      long as none outlives its minute; an attempt alone answers the documented
      contract; a stored outcome stands; callers and requests do not collide.
    - Cursors: they read back as what they were minted from, and following them lists
      the table, every row once.

    Some theorems record where the code differs from its comments: a negative
    image-output count is not validated, the long-context ceiling folds every tier
    in, a success does not clear the failure count of a closed circuit, failures
    in flight climb the backoff ladder, a capacity skip spends a retry, a short
    Retry-After is written as zero, a mostly cached audio or image prompt cannot be
    quoted, a per-image request that can no longer be priced leaves no record, a
    settled row that could not be marked is charged again, a row never says a
    model was free, an unreachable address of an organization's own counts
    against our provider, a refused video candidate ends the rotation, a
    used key met by the insert is answered without a look at the body, a
    submission later than the sweep strands its clip, an orphaned clip is logged
    twice, a mistyped credential of an organization's own opens our circuit, the
    spelling of a header decides whose value is sent, a presigned address is
    sent the configured headers, a probe that reached nobody counts as a miss, a
    dropped probe leaves its row marked in flight, the derived endpoint is accepted
    and lost, a video probe is not the submission, Google's mapper completes a job
    without a clip, the number of clips is billed and not asked for, a replaced
    attempt frees its replacement's slot, a caller hanging up has the work done
    again, an expired job never ends on Google's surface, a flag in a prompt hides the
    command behind it, and a key in another case is priced and passed on as well.

    ** Fuel and bounds

    [digits] runs on the binary logarithm of its argument, which bounds the
    number of decimal digits ([digits_spec]).  [shuffle_loop] and [order_groups]
    run on the number of candidates; each turn removes at least one, and the
    permutation theorem shows nothing is left over.  [scan_keys] runs once per
    credential, as the code's loop does.  [climb] runs as often as the
    loop of [nextPollDelay].  [rune_count_loop] and [strip_any] run on the length of
    the string and consume at least one byte per turn.  [fill_until] runs once per
    frame still to come and once more ([fill_until_spec]).  An idempotent attempt has
    five moves at most ([serve]), and a walk one page more than rows.
    [replace_commands] and [fields_loop] run on the length of the prompt and consume
    at least one byte per turn.

    ** What is not modelled

    SQL other than the settlement, video job, probe and idempotency tables (the other
    queries are function parameters),
    HTTP and the JSON codec, the upstream call itself, the joining of URLs, the object
    store, the job queue, the administration APIs and the web console.  A
    late video debit joins the queue of [Replay.v]; its replay is outside
    [vstep].  Numbers of the Lua script and the jitter's float64 arithmetic are
    read as rationals.  A video submission is one instant of the video plane; what
    another does meanwhile is told by the reads and writes that fail ([early] and
    [late] are the two reads of its key).  The three queries behind a key lookup are
    read at one instant too.  The row of a job leaves out its stored
    parameters.  A failing breaker store is modelled only in the decision
    it leads to ([available_of]). *)
From Stdlib Require Export Ascii String ZArith Lia Permutation.
From Stdlib Require Export Sorted.
From stdpp Require Export base list option strings gmap sets numbers.
#[export] Set Default Goal Selector "!".

Open Scope Z_scope.

(** ** Machine integers

    Go's [int64] (and [int] on the 64-bit targets the program ships for) is a
    [Z] kept in the window below; every addition or product that the code
    performs without a guard goes through [wrap64]. *)
Definition min_int64 : Z := - 2 ^ 63.
Definition max_int64 : Z := 2 ^ 63 - 1.

(** Two's-complement wrap-around into the signed 64-bit window. *)
Definition wrap64 (z : Z) : Z := (z + 2 ^ 63) mod 2 ^ 64 - 2 ^ 63.

(** [big.Int.IsInt64], and the range of every [int64] variable. *)
Definition is_int64 (z : Z) : bool := (min_int64 <=? z) && (z <=? max_int64).

Abbreviation int64_range z := (min_int64 <= z <= max_int64).

Lemma wrap64_id z : int64_range z -> wrap64 z = z.
Proof.
  unfold min_int64, max_int64, wrap64. intros H.
  rewrite Z.mod_small by lia. lia.
Qed.

Lemma wrap64_range z : int64_range (wrap64 z).
Proof.
  unfold min_int64, max_int64, wrap64.
  pose proof (Z.mod_pos_bound (z + 2 ^ 63) (2 ^ 64)). lia.
Qed.

Lemma is_int64_spec z : is_int64 z = true <-> int64_range z.
Proof. unfold is_int64. rewrite andb_true_iff, !Z.leb_le. tauto. Qed.

Lemma is_int64_false z : is_int64 z = false <-> z < min_int64 \/ max_int64 < z.
Proof. unfold is_int64. rewrite andb_false_iff, !Z.leb_gt. tauto. Qed.

(** ** Errors as values *)

(** A Go function with an [error] result: the value, or the error. *)
Inductive result (E A : Type) : Type :=
  | Ok (a : A)
  | Err (e : E).
Arguments Ok {E A} a.
Arguments Err {E A} e.

Definition rbind {E A B} (m : result E A) (f : A -> result E B) : result E B :=
  match m with Ok a => f a | Err e => Err e end.

Declare Scope fairlb_scope.
Delimit Scope fairlb_scope with fairlb.
Notation "'try' x <- m ; k" := (rbind m (fun x => k))
  (at level 100, x pattern, m at next level, right associativity) : fairlb_scope.
Open Scope fairlb_scope.

Definition is_ok {E A} (m : result E A) : bool :=
  match m with Ok _ => true | Err _ => false end.

Lemma rbind_ok {E A B} (m : result E A) (f : A -> result E B) b :
  rbind m f = Ok b <-> exists a, m = Ok a /\ f a = Ok b.
Proof.
  destruct m; simpl; split.
  - eauto.
  - intros (? & [= ->] & ?). done.
  - done.
  - intros (? & ? & ?). done.
Qed.

Lemma rbind_err {E A B} (m : result E A) (f : A -> result E B) e :
  rbind m f = Err e <-> m = Err e \/ exists a, m = Ok a /\ f a = Err e.
Proof.
  destruct m; simpl; split.
  - eauto.
  - intros [?|(? & [= ->] & ?)]; done.
  - intros [= ->]. by left.
  - intros [[= ->]|(? & ? & ?)]; done.
Qed.

(** ** Tactics *)

(** Boolean guards of the code turned into propositions. *)
Ltac bool_prop :=
  repeat match goal with
  | H : (_ && _) = true |- _ => apply andb_true_iff in H; destruct H
  | H : (_ || _) = false |- _ => apply orb_false_iff in H; destruct H
  | H : negb _ = true |- _ => apply negb_true_iff in H
  | H : negb _ = false |- _ => apply negb_false_iff in H
  | H : (_ <? _) = true |- _ => apply Z.ltb_lt in H
  | H : (_ <? _) = false |- _ => apply Z.ltb_ge in H
  | H : (_ <=? _) = true |- _ => apply Z.leb_le in H
  | H : (_ <=? _) = false |- _ => apply Z.leb_gt in H
  | H : (_ =? _) = true |- _ => apply Z.eqb_eq in H
  | H : (_ =? _) = false |- _ => apply Z.eqb_neq in H
  | H : bool_decide _ = true |- _ => apply bool_decide_eq_true in H
  | H : bool_decide _ = false |- _ => apply bool_decide_eq_false in H
  end.

(** Case analysis on the next [if] or [match] of the goal. *)
Ltac step_case :=
  match goal with
  | |- context [if ?b then _ else _] => destruct b eqn:?
  | |- context [match ?x with _ => _ end] => destruct x eqn:?
  end.

(** Case analysis on the next [if] or [match] of a hypothesis. *)
Ltac step_case_in H :=
  match type of H with
  | context [if ?b then _ else _] => destruct b eqn:?
  | context [match ?x with _ => _ end] => destruct x eqn:?
  end.

Create HintDb fairlb discriminated.
Create Rewrite HintDb fairlb.
#[export] Hint Resolve wrap64_range : fairlb.
#[export] Hint Rewrite @length_app @length_map @length_replicate : fairlb.

(** ** Lists *)

Lemma forallb_Forall {A} (p : A -> bool) l :
  forallb p l = true <-> Forall (fun x => p x = true) l.
Proof.
  induction l as [|x l IH]; simpl; [by split|].
  rewrite andb_true_iff, Forall_cons_iff. tauto.
Qed.

Lemma Forall_removelast {A} (P : A -> Prop) l : Forall P l -> Forall P (removelast l).
Proof.
  induction 1 as [|x l Hx _ IH]; [constructor|]. destruct l; [constructor|].
  cbn [removelast] in *. by constructor.
Qed.

Lemma fold_left_permutation {A B} (f : A -> B -> A) l1 l2 a :
  (forall a x y, f (f a x) y = f (f a y) x) ->
  l1 ≡ₚ l2 -> fold_left f l1 a = fold_left f l2 a.
Proof.
  intros Hc Hp. revert a.
  induction Hp as [|x l1 l2 _ IH|x y l|l1 l2 l3 _ IH1 _ IH2]; intros a; simpl.
  - done.
  - apply IH.
  - by rewrite Hc.
  - by rewrite IH1.
Qed.

(** ** Sorting

    [slices.SortFunc] with a three-way comparison: a sorted permutation of its
    input.  Insertion sort is used as the executable definition; where the
    comparison leaves ties Go promises no order, and theorems about such lists
    say only what every sorted permutation satisfies. *)
Section isort.
Context {A : Type} (cmp : A -> A -> comparison).

Definition cmp_le (a b : A) : bool :=
  match cmp a b with Gt => false | _ => true end.

Fixpoint sort_insert (x : A) (l : list A) : list A :=
  match l with
  | [] => [x]
  | y :: l' => if cmp_le x y then x :: l else y :: sort_insert x l'
  end.

Definition SortFunc (l : list A) : list A := foldr sort_insert [] l.

Lemma sort_insert_perm x l : sort_insert x l ≡ₚ x :: l.
Proof using.
  induction l as [|y l IH]; simpl; [done|]. destruct (cmp_le x y); [done|].
  rewrite IH. apply Permutation_swap.
Qed.

Lemma SortFunc_perm l : SortFunc l ≡ₚ l.
Proof using.
  induction l as [|x l IH]; simpl; [done|]. by rewrite sort_insert_perm, IH.
Qed.

Hypothesis cmp_total : forall a b, cmp_le a b = true \/ cmp_le b a = true.
Hypothesis cmp_trans :
  forall a b c, cmp_le a b = true -> cmp_le b c = true -> cmp_le a c = true.

Lemma sort_insert_sorted x l :
  StronglySorted (fun a b => cmp_le a b = true) l ->
  StronglySorted (fun a b => cmp_le a b = true) (sort_insert x l).
Proof using cmp_total cmp_trans.
  induction 1 as [|y l Hs IH Hy]; simpl; [by repeat constructor|].
  destruct (cmp_le x y) eqn:E.
  - constructor; [by constructor|]. constructor; [done|].
    eapply Forall_impl; [|exact Hy]. intros z Hz. by eapply cmp_trans.
  - constructor; [done|]. rewrite sort_insert_perm. constructor; [|done].
    destruct (cmp_total x y); [congruence|done].
Qed.

Lemma SortFunc_sorted l :
  StronglySorted (fun a b => cmp_le a b = true) (SortFunc l).
Proof using cmp_total cmp_trans.
  induction l as [|x l IH]; simpl; [constructor|]. by apply sort_insert_sorted.
Qed.
End isort.

(** [cmp.Or] over three-way comparisons: the first that decides. *)
Fixpoint cmp_Or (cs : list comparison) : comparison :=
  match cs with
  | [] => Eq
  | Eq :: cs' => cmp_Or cs'
  | c :: _ => c
  end.

(** ** Filters *)

Lemma filter_is_filter {A} (p : A -> bool) l : List.filter p l = filter (fun x => p x = true) l.
Proof.
  induction l as [|x l IH]; [done|]. cbn [List.filter]. rewrite filter_cons, IH.
  destruct (p x) eqn:E; by destruct (decide _).
Qed.

Lemma filter_none {A} (p : A -> bool) l : (forall x, x ∈ l -> p x = false) -> List.filter p l = [].
Proof.
  intros Hp. induction l as [|x l IH]; [done|]. cbn [List.filter].
  rewrite Hp by left. apply IH. intros y Hy. apply Hp. by right.
Qed.
