(* ===== verification/GoStr.v ===== *)
(** * Byte strings

    Go's [string] and [[]byte] are byte sequences: here [list ascii].  The file
    holds the functions of Go's [strings], [strconv] and [fmt] packages the
    modelled code calls, with the lemmas the other files share. *)
From S2P Require Import Prelude.

Abbreviation bytes := (list ascii).

(** A byte-string literal. *)
Definition lit (s : string) : bytes := list_ascii_of_string s.

Definition byte_of (n : Z) : ascii := ascii_of_nat (Z.to_nat n).
Definition ord (c : ascii) : Z := Z.of_nat (nat_of_ascii c).

Definition is_digit (c : ascii) : bool := (48 <=? ord c) && (ord c <=? 57).
Definition digit_val (c : ascii) : Z := ord c - 48.
Definition digit_char (d : Z) : ascii := byte_of (48 + d).

Definition len (s : bytes) : Z := Z.of_nat (length s).

Definition beq (a b : bytes) : bool := bool_decide (a = b).

(** [strings.HasPrefix]. *)
Fixpoint has_prefix (s p : bytes) {struct p} : bool :=
  match p, s with
  | [], _ => true
  | c :: p', d :: s' => Ascii.eqb c d && has_prefix s' p'
  | _ :: _, [] => false
  end.

(** [strings.Cut] on a one-byte separator: before, after, found. *)
Fixpoint cut_byte (sep : ascii) (s : bytes) : bytes * bytes * bool :=
  match s with
  | [] => ([], [], false)
  | c :: s' =>
      if Ascii.eqb c sep then ([], s', true)
      else let '(b, a, f) := cut_byte sep s' in (c :: b, a, f)
  end.

(** [strings.IndexByte], [None] for -1. *)
Fixpoint index_byte (s : bytes) (c : ascii) : option nat :=
  match s with
  | [] => None
  | d :: s' => if Ascii.eqb d c then Some 0%nat else S <$> index_byte s' c
  end.

(** [strings.TrimRight] and [strings.TrimLeft] with a one-byte cutset. *)
Fixpoint trim_left (c : ascii) (s : bytes) : bytes :=
  match s with
  | d :: s' => if Ascii.eqb d c then trim_left c s' else s
  | [] => []
  end.
Definition trim_right (c : ascii) (s : bytes) : bytes := rev (trim_left c (rev s)).

(** ASCII lower case. *)
Definition lower (c : ascii) : ascii :=
  if (65 <=? ord c) && (ord c <=? 90) then byte_of (ord c + 32) else c.

(** The value of a string of decimal digits, most significant first. *)
Definition dec_value (s : bytes) : Z :=
  fold_left (fun acc c => acc * 10 + digit_val c) s 0.

(** Decimal rendering of a non-negative integer: [%d] and [big.Int.String]. *)
Fixpoint digits_aux (fuel : nat) (n : Z) (acc : bytes) : bytes :=
  match fuel with
  | O => acc
  | S fuel' =>
      if n <? 10 then digit_char n :: acc
      else digits_aux fuel' (n / 10) (digit_char (n mod 10) :: acc)
  end.
Definition digits (n : Z) : bytes := digits_aux (S (Z.to_nat (Z.log2 n))) n [].

(** [strconv.Itoa], [strconv.FormatInt] in base 10. *)
Definition itoa (n : Z) : bytes :=
  if n <? 0 then "-"%char :: digits (- n) else digits n.

(** [strconv.Atoi]: an optional sign, at least one digit, in the [int] range. *)
Definition atoi (s : bytes) : option Z :=
  let '(neg, ds) :=
    match s with
    | "-"%char :: r => (true, r)
    | "+"%char :: r => (false, r)
    | _ => (false, s)
    end in
  if bool_decide (ds = []) || negb (forallb is_digit ds) then None
  else
    let n := if neg : bool then - dec_value ds else dec_value ds in
    if is_int64 n then Some n else None.

(** ** Lemmas *)

Lemma ord_range c : 0 <= ord c < 256.
Proof.
  unfold ord. pose proof (nat_ascii_bounded c). lia.
Qed.

Lemma ord_byte_of n : 0 <= n < 256 -> ord (byte_of n) = n.
Proof.
  intros H. unfold ord, byte_of. rewrite nat_ascii_embedding; lia.
Qed.

Lemma byte_of_ord c : byte_of (ord c) = c.
Proof. unfold byte_of, ord. rewrite Nat2Z.id. apply ascii_nat_embedding. Qed.

Lemma ord_inj c d : ord c = ord d -> c = d.
Proof. intros H. rewrite <- (byte_of_ord c), <- (byte_of_ord d). by rewrite H. Qed.

Lemma digit_val_char d : 0 <= d < 10 -> digit_val (digit_char d) = d.
Proof. intros H. unfold digit_val, digit_char. rewrite ord_byte_of; lia. Qed.

Lemma is_digit_char d : 0 <= d < 10 -> is_digit (digit_char d) = true.
Proof.
  intros H. unfold is_digit, digit_char. rewrite ord_byte_of by lia.
  apply andb_true_iff. rewrite !Z.leb_le. lia.
Qed.

Lemma is_digit_val c : is_digit c = true -> 0 <= digit_val c < 10.
Proof. unfold is_digit, digit_val. intros H. bool_prop. lia. Qed.

Lemma beq_spec a b : beq a b = true <-> a = b.
Proof. unfold beq. apply bool_decide_eq_true. Qed.

Lemma dec_value_aux s a :
  fold_left (fun acc c => acc * 10 + digit_val c) s a =
  a * 10 ^ len s + dec_value s.
Proof.
  unfold dec_value, len. revert a.
  induction s as [|c s IH]; intros a; [simpl; lia|].
  cbn [fold_left length]. rewrite IH, (IH (0 * 10 + digit_val c)).
  rewrite Nat2Z.inj_succ, Z.pow_succ_r by lia. lia.
Qed.

Lemma dec_value_app s t : dec_value (s ++ t) = dec_value s * 10 ^ len t + dec_value t.
Proof. unfold dec_value at 1. rewrite fold_left_app. apply dec_value_aux. Qed.

Lemma dec_value_cons c s : dec_value (c :: s) = digit_val c * 10 ^ len s + dec_value s.
Proof. unfold dec_value at 1. cbn [fold_left]. rewrite dec_value_aux. lia. Qed.

Lemma dec_value_bounds s :
  forallb is_digit s = true -> 0 <= dec_value s < 10 ^ len s.
Proof.
  induction s as [|c s IH]; intros H; [done|].
  cbn [forallb] in H. bool_prop. specialize (IH ltac:(done)).
  rewrite dec_value_cons. pose proof (is_digit_val c ltac:(done)).
  unfold len in *. cbn [length]. rewrite Nat2Z.inj_succ, Z.pow_succ_r by lia. nia.
Qed.

Lemma dec_value_zeros n : dec_value (replicate n "0"%char) = 0.
Proof.
  induction n as [|n IH]; [done|].
  cbn [replicate]. rewrite dec_value_cons, IH.
  change (digit_val "0"%char) with 0. lia.
Qed.

Lemma digits_aux_spec fuel n acc :
  0 <= n -> n < 10 ^ Z.of_nat fuel -> (0 < fuel)%nat ->
  forallb is_digit acc = true ->
  forallb is_digit (digits_aux fuel n acc) = true /\
  dec_value (digits_aux fuel n acc) = n * 10 ^ len acc + dec_value acc /\
  (length acc < length (digits_aux fuel n acc))%nat.
Proof.
  revert n acc. induction fuel as [|fuel IH]; intros n acc Hn Hf H0 Hacc; [lia|].
  cbn [digits_aux]. destruct (n <? 10) eqn:E; bool_prop.
  - cbn [forallb length]. rewrite dec_value_cons, digit_val_char, is_digit_char by lia.
    split; [done|]. split; [done|simpl; lia].
  - assert (Hf' : n / 10 < 10 ^ Z.of_nat fuel).
    { apply Z.div_lt_upper_bound; [lia|].
      rewrite Nat2Z.inj_succ, Z.pow_succ_r in Hf by lia. lia. }
    assert (0 < fuel)%nat.
    { destruct fuel; [|lia]. simpl in Hf. lia. }
    pose proof (Z.mod_pos_bound n 10 ltac:(lia)) as Hm.
    destruct (IH (n / 10) (digit_char (n mod 10) :: acc)) as (Hd & Hv & Hl).
    + apply Z.div_pos; lia.
    + done.
    + done.
    + cbn [forallb]. by rewrite is_digit_char, Hacc.
    + split; [done|]. split.
      * rewrite Hv, dec_value_cons, digit_val_char by lia.
        unfold len. cbn [length]. rewrite Nat2Z.inj_succ, Z.pow_succ_r by lia.
        pose proof (Z.div_mod n 10 ltac:(lia)). nia.
      * cbn [length] in Hl. lia.
Qed.

Lemma digits_fuel n : 0 <= n -> n < 10 ^ Z.of_nat (S (Z.to_nat (Z.log2 n))).
Proof.
  intros H. destruct (Z.eq_dec n 0) as [->|]; [done|].
  pose proof (Z.log2_nonneg n).
  rewrite Nat2Z.inj_succ, Z2Nat.id by done.
  pose proof (Z.log2_spec n ltac:(lia)).
  apply Z.lt_le_trans with (2 ^ Z.succ (Z.log2 n)); [lia|].
  apply Z.pow_le_mono_l; lia.
Qed.

Lemma digits_spec n :
  0 <= n ->
  forallb is_digit (digits n) = true /\ dec_value (digits n) = n /\ digits n <> [].
Proof.
  intros H. unfold digits.
  destruct (digits_aux_spec (S (Z.to_nat (Z.log2 n))) n []) as (H1 & H2 & H3);
    [done|by apply digits_fuel|lia|done|].
  split; [done|]. split.
  - rewrite H2. change (len []) with 0. change (dec_value []) with 0. lia.
  - intros E. rewrite E in H3. simpl in H3. lia.
Qed.

Lemma trim_left_zeros s :
  exists k, s = replicate k "0"%char ++ trim_left "0"%char s.
Proof.
  induction s as [|c s [k IH]]; [by exists 0%nat|]. cbn [trim_left].
  destruct (Ascii.eqb_spec c "0"%char) as [->|].
  - exists (S k). cbn [replicate app]. by rewrite <- IH.
  - by exists 0%nat.
Qed.

Lemma trim_right_zeros s :
  exists k, s = trim_right "0"%char s ++ replicate k "0"%char.
Proof.
  destruct (trim_left_zeros (rev s)) as [k Hk]. exists k.
  unfold trim_right. rewrite <- (rev_involutive s) at 1. rewrite Hk at 1.
  rewrite rev_app_distr. f_equal.
  clear. induction k as [|k IH]; [done|]. cbn [replicate rev].
  rewrite IH, <- replicate_S_end. done.
Qed.

Lemma cut_byte_app sep s t :
  sep ∉ s -> cut_byte sep (s ++ sep :: t) = (s, t, true).
Proof.
  induction s as [|c s IH]; intros H; cbn [app cut_byte].
  - by rewrite Ascii.eqb_refl.
  - destruct (Ascii.eqb_spec c sep) as [->|]; [set_solver|].
    rewrite IH by set_solver. done.
Qed.

Lemma cut_byte_none sep s : sep ∉ s -> cut_byte sep s = (s, [], false).
Proof.
  induction s as [|c s IH]; intros H; cbn [cut_byte]; [done|].
  destruct (Ascii.eqb_spec c sep) as [->|]; [set_solver|].
  rewrite IH by set_solver. done.
Qed.

(** The three results of a cut determine the input. *)
Lemma cut_byte_inv sep s b a f :
  cut_byte sep s = (b, a, f) ->
  s = if f then b ++ sep :: a else b.
Proof.
  revert b a f. induction s as [|c s IH]; intros b a f; cbn [cut_byte].
  - by intros [= <- <- <-].
  - destruct (Ascii.eqb_spec c sep) as [->|].
    + by intros [= <- <- <-].
    + destruct (cut_byte sep s) as [[b' a'] f']. intros [= <- <- <-].
      rewrite (IH b' a' f') by done. by destruct f'.
Qed.

Lemma digit_not_in (c : ascii) s :
  is_digit c = false -> forallb is_digit s = true -> c ∉ s.
Proof.
  intros Hc Hs Hin. rewrite forallb_forall in Hs.
  apply list_elem_of_In in Hin. apply Hs in Hin. congruence.
Qed.

Lemma forallb_app_true (p : ascii -> bool) s t :
  forallb p (s ++ t) = true <-> forallb p s = true /\ forallb p t = true.
Proof. rewrite forallb_app. apply andb_true_iff. Qed.

Lemma len_app s t : len (s ++ t) = len s + len t.
Proof. unfold len. rewrite length_app. lia. Qed.

Lemma len_nonneg s : 0 <= len s.
Proof. unfold len. lia. Qed.

#[export] Hint Rewrite len_app dec_value_app : fairlb.
#[export] Hint Resolve len_nonneg : fairlb.

Lemma atoi_itoa n : int64_range n -> atoi (itoa n) = Some n.
Proof.
  intros H. unfold itoa, atoi.
  destruct (n <? 0) eqn:E; bool_prop.
  - destruct (digits_spec (- n)) as (Hd & Hv & Hne); [lia|].
    rewrite bool_decide_eq_false_2 by done. rewrite Hd, Hv. cbn [orb negb].
    replace (- - n) with n by lia. by rewrite (proj2 (is_int64_spec n)).
  - destruct (digits_spec n) as (Hd & Hv & Hne); [lia|].
    destruct (digits n) as [|c r] eqn:Ed; [done|].
    assert (Hc : is_digit c = true) by (cbn [forallb] in Hd; by bool_prop).
    assert (Hsign : c <> "-"%char /\ c <> "+"%char) by (split; intros ->; done).
    destruct Hsign as [Hm Hp].
    assert (Hs : (match c :: r with
            | "-"%char :: r0 => (true, r0)
            | "+"%char :: r0 => (false, r0)
            | _ => (false, c :: r) end) = (false, c :: r)).
    { destruct c as [[] [] [] [] [] [] [] []]; done. }
    rewrite Hs, Hd, Hv, bool_decide_eq_false_2 by done. cbn [orb negb].
    by rewrite (proj2 (is_int64_spec n)).
Qed.

(** ** [bytes.TrimSpace]

    The UTF-8 encodings of the white-space code points ([unicode.IsSpace]). *)
Definition spaces : list bytes :=
  map (fun n => [byte_of n]) [9; 10; 11; 12; 13; 32] ++
  map (map byte_of)
    ([[194; 133]; [194; 160]; [225; 154; 128]] ++
     map (fun k => [226; 128; 128 + k]) [0; 1; 2; 3; 4; 5; 6; 7; 8; 9; 10] ++
     [[226; 128; 168]; [226; 128; 169]; [226; 128; 175]; [226; 129; 159]; [227; 128; 128]]).

(** Strip encodings of [l] from the front, at most [fuel] times. *)
Fixpoint strip_any (l : list bytes) (fuel : nat) (s : bytes) : bytes :=
  match fuel with
  | O => s
  | S fuel' =>
      match List.find (fun p => has_prefix s p) l with
      | Some p => strip_any l fuel' (drop (length p) s)
      | None => s
      end
  end.

Definition trim_space (s : bytes) : bytes :=
  let s := strip_any spaces (length s) s in
  rev (strip_any (map (@rev ascii) spaces) (length s) (rev s)).

Lemma strip_any_length l fuel s : (length (strip_any l fuel s) <= length s)%nat.
Proof.
  revert s. induction fuel as [|fuel IH]; intros s; cbn [strip_any]; [lia|].
  destruct (List.find _ l) as [p|]; [|lia]. etransitivity; [apply IH|]. rewrite length_drop. lia.
Qed.

Lemma trim_space_length s : (length (trim_space s) <= length s)%nat.
Proof.
  unfold trim_space. rewrite length_rev.
  etransitivity; [apply strip_any_length|]. rewrite length_rev. apply strip_any_length.
Qed.

(** ** [utf8.RuneCountInString]

    The length of the first rune of a non-empty string: the well-formed encodings
    of RFC 3629, and one byte for anything else. *)
Definition between (lo hi : Z) (c : ascii) : bool := (lo <=? ord c) && (ord c <=? hi).

(** How many continuation bytes the first byte announces, and the range of the
    first of them; the others are in 128..191. *)
Definition rune_shape (c : ascii) : nat * Z * Z :=
  if between 194 223 c then (1%nat, 128, 191)
  else if between 224 224 c then (2%nat, 160, 191)
  else if between 237 237 c then (2%nat, 128, 159)
  else if between 225 239 c then (2%nat, 128, 191)
  else if between 240 240 c then (3%nat, 144, 191)
  else if between 241 243 c then (3%nat, 128, 191)
  else if between 244 244 c then (3%nat, 128, 143)
  else (0%nat, 0, 0).

Definition rune_len (c : ascii) (s : bytes) : nat :=
  let '(n, lo, hi) := rune_shape c in
  match n, s with
  | S n', d :: s' =>
      if between lo hi d && (n' <=? length s')%nat && forallb (between 128 191) (take n' s')
      then S n else 1
  | _, _ => 1
  end%nat.

Fixpoint rune_count_loop (fuel : nat) (s : bytes) : Z :=
  match fuel, s with
  | S fuel', c :: s' => 1 + rune_count_loop fuel' (drop (rune_len c s') s)
  | _, _ => 0
  end.

Definition RuneCount (s : bytes) : Z := rune_count_loop (length s) s.

Lemma rune_len_bounds c s : (1 <= rune_len c s <= 4)%nat.
Proof.
  unfold rune_len, rune_shape. repeat step_case; simplify_eq; lia.
Qed.

Lemma rune_len_fits c s : (rune_len c s <= S (length s))%nat.
Proof.
  unfold rune_len. destruct (rune_shape c) as [[n lo] hi]. destruct n as [|n'], s as [|d s'];
    cbn [length]; try lia.
  destruct (between lo hi d); cbn [andb]; [|lia].
  destruct (Nat.leb_spec n' (length s')); cbn [andb]; [|lia]. destruct (forallb _ _); lia.
Qed.

(** A string holds at most one rune per byte and at least one per four. *)
Lemma rune_count_bounds s : RuneCount s <= len s <= 4 * RuneCount s.
Proof.
  unfold RuneCount, len.
  enough (H : forall fuel s, (length s <= fuel)%nat ->
    rune_count_loop fuel s <= Z.of_nat (length s) <= 4 * rune_count_loop fuel s) by (apply H; lia).
  induction fuel as [|fuel IH]; intros t Ht.
  - destruct t; cbn in *; lia.
  - destruct t as [|c t]; cbn [rune_count_loop]; [cbn; lia|].
    pose proof (rune_len_bounds c t). pose proof (rune_len_fits c t).
    specialize (IH (drop (rune_len c t) (c :: t))).
    rewrite length_drop in IH. cbn [length] in *. lia.
Qed.

(** ASCII text is one rune per byte. *)
Lemma rune_count_ascii s : Forall (fun c => ord c < 128) s -> RuneCount s = len s.
Proof.
  unfold RuneCount, len. induction 1 as [|c s Hc Hs IH]; [done|].
  cbn [length rune_count_loop].
  assert (E : rune_len c s = 1%nat).
  { unfold rune_len, rune_shape, between.
    repeat (rewrite (proj2 (Z.leb_gt _ (ord c))) by lia; cbn [andb]). done. }
  rewrite E. change (drop 1 (c :: s)) with s. rewrite IH. lia.
Qed.

(** ** Prefixes *)

Lemma has_prefix_app p s : has_prefix (p ++ s) p = true.
Proof. induction p as [|c p IH]; cbn; [done|]. by rewrite Ascii.eqb_refl. Qed.

Lemma has_prefix_inv s p : has_prefix s p = true -> exists r, s = p ++ r.
Proof.
  revert s. induction p as [|c p IH]; intros s; [by exists s|]. destruct s as [|d s]; [done|].
  cbn. intros [->%Ascii.eqb_eq (r & ->)%IH]%andb_true_iff. by exists r.
Qed.
