(* ===== verification/Money.v ===== *)
(** * Amounts: [foundation/money]

    Amounts are [int64] nano units of a currency.  The file models the display
    form ([FormatNano]), the wire form ([FormatNanoExact], [FormatScaled]), the
    parser of the wire form ([ParseDecimalNano]) and the two literal
    recognisers, and proves the parser sound and complete for its grammar and
    the wire form a round trip. *)
From S2P Require Import Prelude GoStr.

Definition NanoPerUnit : Z := 1000000000.

(** [FormatNano]: two decimals, truncated.  The absolute value is taken in
    [uint64], so both additions wrap at their own width. *)
Definition FormatNano (nano : Z) : bytes :=
  let neg := nano <? 0 in
  let abs := if neg then (wrap64 (- wrap64 (nano + 1)) mod 2 ^ 64 + 1) mod 2 ^ 64
             else nano mod 2 ^ 64 in
  let major := abs / NanoPerUnit in
  let cents := (abs mod NanoPerUnit) / (NanoPerUnit / 100) in
  let two := if cents <? 10 then "0"%char :: digits cents else digits cents in
  (if neg then lit "-" else []) ++ digits major ++ lit "." ++ two.

(** [FormatScaled] over [big.Int]. *)
Definition FormatScaled (n : Z) (scale : nat) : bytes :=
  if n =? 0 then lit "0"
  else
    let negative := n <? 0 in
    let ds := digits (Z.abs n) in
    let ds := if (length ds <=? scale)%nat
              then replicate (scale - length ds + 1) "0"%char ++ ds else ds in
    let cut := (length ds - scale)%nat in
    let whole := take cut ds in
    let fraction := trim_right "0"%char (drop cut ds) in
    let out := if bool_decide (fraction = []) then whole
               else whole ++ lit "." ++ fraction in
    if negative then lit "-" ++ out else out.

Definition FormatNanoExact (nano : Z) : bytes := FormatScaled nano 9.

(** The regular expression [signedDecimalRE]. *)
Definition IsSignedDecimal (s : bytes) : bool :=
  let s := if has_prefix s (lit "-") then drop 1 s else s in
  let '(whole, frac, dot) := cut_byte "."%char s in
  negb (bool_decide (whole = [])) && forallb is_digit whole &&
  (negb dot || (negb (bool_decide (frac = [])) && forallb is_digit frac)).

(** The regular expression [plainDecimalRE]: no sign, no leading zero. *)
Definition plainDecimalRE (s : bytes) : bool :=
  let '(whole, frac, dot) := cut_byte "."%char s in
  (match whole with
   | [] => false
   | [c] => is_digit c
   | c :: r => is_digit c && negb (Ascii.eqb c "0"%char) && forallb is_digit r
   end) &&
  (negb dot || (negb (bool_decide (frac = [])) && forallb is_digit frac)).

Definition IsPlainDecimal (s : bytes) (places : Z) : bool :=
  if negb (plainDecimalRE s) then false
  else if places <=? 0 then true
  else match index_byte s "."%char with
       | None => true
       | Some dot => len s - Z.of_nat dot - 1 <=? places
       end.

(** The two messages of [ParseDecimalNano]; both wrap [ErrNotDecimal]. *)
Inductive parse_error :=
  | ErrNotDecimal (raw : bytes)
  | ErrOverflows (raw : bytes).

Definition allDigits (s : bytes) : bool := forallb is_digit s.

(** The loop over the whole part; [None] is the overflow return. *)
Fixpoint parse_whole (n : Z) (s : bytes) : option Z :=
  match s with
  | [] => Some n
  | c :: s' =>
      let d := digit_val c in
      if Z.quot (max_int64 - d) 10 <? n then None else parse_whole (n * 10 + d) s'
  end.

(** The loop over the fraction: each digit at the next lower power of ten. *)
Fixpoint parse_fraction (scale frac : Z) (s : bytes) : Z :=
  match s with
  | [] => frac
  | c :: s' =>
      let scale := Z.quot scale 10 in
      parse_fraction scale (wrap64 (frac + wrap64 (digit_val c * scale))) s'
  end.

Definition ParseDecimalNano (s : bytes) : result parse_error Z :=
  let raw := s in
  let negative := has_prefix s (lit "-") in
  let s := if negative then drop 1 s else s in
  let '(whole, fraction, hasDot) := cut_byte "."%char s in
  if bool_decide (whole = []) || negb (allDigits whole) then Err (ErrNotDecimal raw)
  else if hasDot && (bool_decide (fraction = []) || (9 <? len fraction)
                     || negb (allDigits fraction)) then Err (ErrNotDecimal raw)
  else
    match parse_whole 0 whole with
    | None => Err (ErrOverflows raw)
    | Some n =>
        if Z.quot max_int64 NanoPerUnit <? n then Err (ErrOverflows raw)
        else
          let n := n * NanoPerUnit in
          let frac := parse_fraction NanoPerUnit 0 fraction in
          if hasDot && (max_int64 - frac <? n) then Err (ErrOverflows raw)
          else
            let n := if hasDot then n + frac else n in
            Ok (if negative then - n else n)
    end.

(** ** What an amount literal denotes *)

Definition fraction_nano (f : bytes) : Z := dec_value f * 10 ^ (9 - len f).

(** [decimal_nano s n]: [s] is a literal of the documented grammar, and denotes
    [n] nano units without rounding. *)
Definition decimal_nano (s : bytes) (n : Z) : Prop :=
  exists (neg : bool) (whole : bytes) (frac : option bytes),
    s = (if neg then lit "-" else []) ++ whole
        ++ match frac with Some f => "."%char :: f | None => [] end /\
    whole <> [] /\ forallb is_digit whole = true /\
    match frac with
    | Some f => f <> [] /\ len f <= 9 /\ forallb is_digit f = true
    | None => True
    end /\
    let v := dec_value whole * NanoPerUnit
             + match frac with Some f => fraction_nano f | None => 0 end in
    v <= max_int64 /\ n = (if neg then - v else v).

(** ** The loops *)

Lemma parse_whole_spec s n :
  forallb is_digit s = true -> 0 <= n <= max_int64 ->
  parse_whole n s =
  (if n * 10 ^ len s + dec_value s <=? max_int64
   then Some (n * 10 ^ len s + dec_value s) else None).
Proof.
  revert n. induction s as [|c s IH]; intros n Hd Hn.
  - cbn [parse_whole]. change (len []) with 0. change (dec_value []) with 0.
    rewrite (proj2 (Z.leb_le _ _)) by lia. f_equal. lia.
  - cbn [forallb] in Hd. bool_prop. pose proof (is_digit_val c ltac:(done)) as Hc.
    cbn [parse_whole]. rewrite Z.quot_div_nonneg by (unfold max_int64; lia).
    rewrite dec_value_cons. unfold len in *. cbn [length].
    rewrite Nat2Z.inj_succ, Z.pow_succ_r by lia.
    assert (0 < 10 ^ Z.of_nat (length s)) by (apply Z.pow_pos_nonneg; lia).
    pose proof (dec_value_bounds s ltac:(done)) as Hb. unfold len in Hb.
    destruct (Z.ltb_spec ((max_int64 - digit_val c) / 10) n) as [Hlt|Hge].
    + rewrite (proj2 (Z.leb_gt _ _)); [done|].
      assert (max_int64 < n * 10 + digit_val c); [|nia].
      apply Z.div_lt_upper_bound in Hlt || idtac.
      pose proof (Z.mul_succ_div_gt (max_int64 - digit_val c) 10). lia.
    + assert (n * 10 + digit_val c <= max_int64).
      { pose proof (Z.mul_div_le (max_int64 - digit_val c) 10). lia. }
      rewrite IH by (try done; lia). replace
        ((n * 10 + digit_val c) * 10 ^ Z.of_nat (length s) + dec_value s)
        with (n * (10 * 10 ^ Z.of_nat (length s))
              + (digit_val c * 10 ^ Z.of_nat (length s) + dec_value s)) by lia.
      done.
Qed.

Lemma parse_fraction_spec s k frac :
  forallb is_digit s = true -> len s <= k <= 9 ->
  0 <= frac -> frac + 10 ^ k <= 10 ^ 9 ->
  parse_fraction (10 ^ k) frac s = frac + dec_value s * 10 ^ (k - len s).
Proof.
  revert k frac. induction s as [|c s IH]; intros k frac Hd Hk Hf Hb.
  - cbn [parse_fraction]. change (dec_value []) with 0. lia.
  - cbn [forallb] in Hd. bool_prop. pose proof (is_digit_val c ltac:(done)) as Hc.
    unfold len in *. cbn [length] in *. rewrite Nat2Z.inj_succ in *.
    cbn [parse_fraction].
    assert (Hp : 10 ^ k = 10 * 10 ^ (k - 1)).
    { rewrite <- Z.pow_succ_r by lia. f_equal. lia. }
    assert (0 < 10 ^ (k - 1)) by (apply Z.pow_pos_nonneg; lia).
    rewrite Z.quot_div_nonneg by lia.
    replace (10 ^ k / 10) with (10 ^ (k - 1))
      by (rewrite Hp, Z.mul_comm, Z.div_mul; lia).
    rewrite !wrap64_id by (unfold min_int64, max_int64; rewrite ?wrap64_id
      by (unfold min_int64, max_int64; nia); nia).
    rewrite IH by (try done; nia).
    rewrite dec_value_cons. unfold len.
    replace (k - Z.succ (Z.of_nat (length s))) with (k - 1 - Z.of_nat (length s)) by lia.
    assert (10 ^ (k - 1) = 10 ^ Z.of_nat (length s) * 10 ^ (k - 1 - Z.of_nat (length s))).
    { rewrite <- Z.pow_add_r by lia. f_equal. lia. }
    nia.
Qed.

Lemma fraction_nano_bounds f :
  forallb is_digit f = true -> len f <= 9 -> 0 <= fraction_nano f < NanoPerUnit.
Proof.
  intros Hd Hl. unfold fraction_nano, NanoPerUnit.
  pose proof (dec_value_bounds f Hd). pose proof (len_nonneg f).
  assert (0 < 10 ^ (9 - len f)) by (apply Z.pow_pos_nonneg; lia).
  assert (10 ^ len f * 10 ^ (9 - len f) = 1000000000); [|nia].
  rewrite <- Z.pow_add_r by lia. replace (len f + (9 - len f)) with 9 by lia. done.
Qed.

Lemma parse_fraction_nano f :
  forallb is_digit f = true -> len f <= 9 ->
  parse_fraction NanoPerUnit 0 f = fraction_nano f.
Proof.
  intros Hd Hl. change NanoPerUnit with (10 ^ 9).
  rewrite parse_fraction_spec by (try done; lia). done.
Qed.

(** The value computed on a literal that has been split already. *)
Lemma parse_body whole f :
  forallb is_digit whole = true ->
  match f with
  | Some f => f <> [] /\ len f <= 9 /\ forallb is_digit f = true
  | None => True
  end ->
  let v := dec_value whole * NanoPerUnit
           + match f with Some f => fraction_nano f | None => 0 end in
  let hasDot := bool_decide (is_Some f) in
  let frac := parse_fraction NanoPerUnit 0 (default [] f) in
  match parse_whole 0 whole with
  | None => max_int64 < v
  | Some n => n = dec_value whole /\
      if (Z.quot max_int64 NanoPerUnit <? n)
         || (hasDot && (max_int64 - frac <? n * NanoPerUnit))
      then max_int64 < v
      else v <= max_int64 /\ v = if hasDot then n * NanoPerUnit + frac else n * NanoPerUnit
  end.
Proof.
  intros Hw Hf v hasDot frac. rewrite parse_whole_spec by (done || unfold max_int64; lia).
  pose proof (dec_value_bounds whole Hw) as Hb.
  rewrite Z.mul_0_l, Z.add_0_l.
  assert (Hfrac : frac = match f with Some f => fraction_nano f | None => 0 end
                  /\ 0 <= frac < NanoPerUnit).
  { subst frac. destruct f as [f|]; cbn [default]; [|done].
    destruct Hf as (_ & Hl & Hd). pose proof (fraction_nano_bounds f Hd Hl).
    unfold id. by rewrite parse_fraction_nano. }
  destruct Hfrac as [Hfrac Hfb]. subst v. rewrite <- Hfrac.
  destruct (Z.leb_spec (dec_value whole) max_int64) as [Hle|Hgt].
  - split; [done|]. rewrite Z.quot_div_nonneg by (unfold max_int64, NanoPerUnit; lia).
    pose proof (Z.mul_div_le max_int64 NanoPerUnit ltac:(done)).
    pose proof (Z.mul_succ_div_gt max_int64 NanoPerUnit ltac:(done)).
    destruct (_ || _) eqn:E.
    + apply orb_true_iff in E as [E|E]; bool_prop; unfold NanoPerUnit in *; nia.
    + bool_prop. subst hasDot. destruct f as [f|].
      * rewrite bool_decide_eq_true_2 in * by done. cbn [andb] in *. bool_prop.
        unfold NanoPerUnit in *. nia.
      * rewrite bool_decide_eq_false_2 by (intros [? ?]; done).
        unfold NanoPerUnit in *. nia.
  - unfold NanoPerUnit in *. nia.
Qed.

(** ** Soundness, completeness, round trip *)

Lemma has_prefix_minus s : has_prefix s (lit "-") = true -> exists r, s = "-"%char :: r.
Proof.
  destruct s as [|c r]; [done|]. cbn [has_prefix lit list_ascii_of_string].
  destruct (Ascii.eqb_spec "-"%char c) as [<-|]; [eauto|done].
Qed.

Lemma has_prefix_minus_digit c r : is_digit c = true -> has_prefix (c :: r) (lit "-") = false.
Proof.
  intros H. cbn [has_prefix lit list_ascii_of_string].
  by destruct (Ascii.eqb_spec "-"%char c) as [<-|].
Qed.

(** The parser once the sign is off and the literal is cut. *)
Lemma parse_unsigned (neg : bool) s whole fraction hasDot :
  (neg = true -> has_prefix s (lit "-") = true) ->
  (neg = false -> has_prefix s (lit "-") = false) ->
  cut_byte "."%char (if neg then drop 1 s else s) = (whole, fraction, hasDot) ->
  ParseDecimalNano s =
  (if bool_decide (whole = []) || negb (allDigits whole) then Err (ErrNotDecimal s)
   else if hasDot && (bool_decide (fraction = []) || (9 <? len fraction)
                     || negb (allDigits fraction)) then Err (ErrNotDecimal s)
   else
    match parse_whole 0 whole with
    | None => Err (ErrOverflows s)
    | Some n =>
        if Z.quot max_int64 NanoPerUnit <? n then Err (ErrOverflows s)
        else
          let n := n * NanoPerUnit in
          let frac := parse_fraction NanoPerUnit 0 fraction in
          if hasDot && (max_int64 - frac <? n) then Err (ErrOverflows s)
          else
            let n := if hasDot then n + frac else n in
            Ok (if neg then - n else n)
    end).
Proof.
  intros Ht Hf Hc. unfold ParseDecimalNano.
  replace (has_prefix s (lit "-")) with neg by (destruct neg; symmetry; auto).
  by rewrite Hc.
Qed.

(** The parse of a well-formed literal, in one equation. *)
Lemma parse_wellformed (neg : bool) whole (frac : option bytes) s :
  s = (if neg then lit "-" else []) ++ whole
      ++ match frac with Some f => "."%char :: f | None => [] end ->
  whole <> [] -> forallb is_digit whole = true ->
  match frac with
  | Some f => f <> [] /\ len f <= 9 /\ forallb is_digit f = true
  | None => True
  end ->
  let v := dec_value whole * NanoPerUnit
           + match frac with Some f => fraction_nano f | None => 0 end in
  ParseDecimalNano s =
  if v <=? max_int64 then Ok (if neg then - v else v) else Err (ErrOverflows s).
Proof.
  intros Hs Hne Hw Hf v.
  pose proof (parse_body whole frac Hw Hf) as Hb. cbn zeta in Hb. fold v in Hb.
  assert (Hdot : "."%char ∉ whole) by (by apply digit_not_in).
  rewrite (parse_unsigned neg s whole (default [] frac) (bool_decide (is_Some frac))).
  - rewrite bool_decide_eq_false_2 by done. unfold allDigits. rewrite Hw. cbn [orb negb].
    replace (bool_decide (is_Some frac) && _) with false.
    2:{ destruct frac as [f|]; [|by rewrite bool_decide_eq_false_2 by (intros [? ?]; done)].
        destruct Hf as (? & ? & Hd). cbn [default]. unfold id. rewrite Hd.
        rewrite (bool_decide_eq_false_2 (f = [])) by done.
        rewrite (proj2 (Z.ltb_ge _ _)) by lia. by rewrite andb_false_r. }
    destruct (parse_whole 0 whole) as [n|].
    + destruct Hb as [-> Hb]. cbn zeta.
      destruct (Z.quot max_int64 NanoPerUnit <? dec_value whole); cbn [orb] in Hb.
      * by rewrite (proj2 (Z.leb_gt _ _)).
      * destruct (_ && _).
        -- by rewrite (proj2 (Z.leb_gt _ _)).
        -- destruct Hb as [Hle Hv]. by rewrite (proj2 (Z.leb_le _ _)), Hv.
    + by rewrite (proj2 (Z.leb_gt _ _)).
  - intros ->. by subst s.
  - intros ->. subst s. destruct whole as [|c r]; [done|].
    cbn [forallb] in Hw. bool_prop. by apply has_prefix_minus_digit.
  - replace (if neg then drop 1 s else s)
      with (whole ++ match frac with Some f => "."%char :: f | None => [] end)
      by (subst s; by destruct neg).
    destruct frac as [f|].
    + rewrite cut_byte_app by done. by rewrite bool_decide_eq_true_2 by done.
    + rewrite app_nil_r, cut_byte_none by done.
      by rewrite bool_decide_eq_false_2 by (intros [? ?]; done).
Qed.

Lemma parse_sound s n : ParseDecimalNano s = Ok n -> decimal_nano s n.
Proof.
  intros H. set (neg := has_prefix s (lit "-")).
  destruct (cut_byte "."%char (if neg then drop 1 s else s)) as [[whole fraction] dot] eqn:Hc.
  pose proof Hc as Hp. apply (parse_unsigned neg s) in Hp; [|done|done].
  pose proof H as H'. rewrite Hp in H'. destruct (_ || _) eqn:E1 in H'; [done|].
  destruct (_ && _) eqn:E2 in H'; [done|]. unfold allDigits in *. clear H' Hp. bool_prop.
  apply cut_byte_inv in Hc.
  set (frac := if dot then Some fraction else None).
  assert (Hs : s = (if neg then lit "-" else []) ++ whole
            ++ match frac with Some f => "."%char :: f | None => [] end).
  { subst frac. subst neg. destruct (has_prefix s (lit "-")) eqn:Hm.
    - apply has_prefix_minus in Hm as [r ->]. change (r = if dot then whole ++ "."%char :: fraction else whole) in Hc. subst r.
      destruct dot; [done|]. cbn. by rewrite app_nil_r.
    - subst s. destruct dot; [done|]. cbn. by rewrite app_nil_r. }
  assert (Hf : match frac with
          | Some f => f <> [] /\ len f <= 9 /\ forallb is_digit f = true
          | None => True end).
  { subst frac. destruct dot; [|done]. cbn [andb] in E2. bool_prop. done. }
  exists neg, whole, frac. split_and!; [done|done|done|done|].
  pose proof (parse_wellformed neg whole frac s Hs ltac:(done) ltac:(done) Hf) as Hw.
  cbn zeta in Hw.
  rewrite Hw in H. destruct (_ <=? max_int64) eqn:E in H; [|done].
  bool_prop. injection H as <-. done.
Qed.

Lemma parse_complete s n : decimal_nano s n -> ParseDecimalNano s = Ok n.
Proof.
  intros (neg & whole & frac & Hs & Hne & Hw & Hf & Hv).
  pose proof (parse_wellformed neg whole frac s Hs Hne Hw Hf) as Hp. cbn zeta in Hp, Hv.
  destruct Hv as [Hv ->]. rewrite Hp. by rewrite (proj2 (Z.leb_le _ _)).
Qed.

(** C34: the parser accepts exactly the literals of its documented grammar whose
    value fits, and returns their exact value: no digit is rounded away and no
    other string is accepted. *)
Theorem parse_decimal_nano_correct s n :
  ParseDecimalNano s = Ok n <-> decimal_nano s n.
Proof. split; [apply parse_sound|apply parse_complete]. Qed.

(** The digit string of [FormatScaled], padded past the scale. *)
Lemma scaled_digits n scale :
  0 <= n ->
  let ds := digits n in
  let ds := if (length ds <=? scale)%nat
            then replicate (scale - length ds + 1) "0"%char ++ ds else ds in
  forallb is_digit ds = true /\ dec_value ds = n /\ (scale < length ds)%nat.
Proof.
  intros Hn. destruct (digits_spec n Hn) as (Hd & Hv & Hne). cbn zeta.
  destruct (Nat.leb_spec (length (digits n)) scale).
  - split_and!.
    + apply forallb_app_true. split; [|done].
      generalize (scale - length (digits n) + 1)%nat. by induction n0.
    + rewrite dec_value_app, dec_value_zeros. lia.
    + rewrite length_app, length_replicate. lia.
  - done.
Qed.

Lemma forallb_take_drop (p : ascii -> bool) k s :
  forallb p s = true -> forallb p (take k s) = true /\ forallb p (drop k s) = true.
Proof.
  intros H. rewrite <- (take_drop k s), forallb_app_true in H. done.
Qed.

(** The wire form of a non-zero amount is a literal of the grammar. *)
Lemma format_exact_decimal n :
  min_int64 < n <= max_int64 -> decimal_nano (FormatNanoExact n) n.
Proof.
  intros Hn. unfold FormatNanoExact, FormatScaled.
  destruct (Z.eqb_spec n 0) as [->|Hn0].
  { exists false, (lit "0"), None. repeat split; try done. }
  pose proof (scaled_digits (Z.abs n) 9 ltac:(lia)) as Hs. cbn zeta in *.
  set (ds := if (length (digits (Z.abs n)) <=? 9)%nat
             then replicate (9 - length (digits (Z.abs n)) + 1) "0"%char ++ digits (Z.abs n)
             else digits (Z.abs n)) in *. destruct Hs as (Hd & Hv & Hl).
  set (cut := (length ds - 9)%nat).
  destruct (forallb_take_drop is_digit cut ds Hd) as [Hdw Hdf].
  destruct (trim_right_zeros (drop cut ds)) as [k Hk].
  set (f := trim_right "0"%char (drop cut ds)) in *.
  rewrite Hk in Hdf. apply forallb_app_true in Hdf as [Hdf _].
  assert (Hlen : (length f + k = 9)%nat).
  { apply (f_equal length) in Hk. rewrite length_app, length_replicate, length_drop in Hk.
    subst cut. lia. }
  assert (Hval : Z.abs n = dec_value (take cut ds) * NanoPerUnit + fraction_nano f).
  { rewrite <- Hv, <- (take_drop cut ds) at 1.
    rewrite dec_value_app, Hk, dec_value_app, dec_value_zeros, len_app.
    unfold fraction_nano, len. rewrite length_replicate.
    replace (9 - Z.of_nat (length f)) with (Z.of_nat k) by lia.
    replace (Z.of_nat (length f) + Z.of_nat k) with 9 by lia.
    change NanoPerUnit with (10 ^ 9). lia. }
  exists (n <? 0), (take cut ds), (if bool_decide (f = []) then None else Some f).
  assert (take cut ds <> []).
  { intros E. apply (f_equal length) in E. rewrite length_take in E.
    subst cut. simpl in E. lia. }
  split_and!.
  - case_bool_decide; destruct (n <? 0); rewrite ?app_nil_r; done.
  - done.
  - done.
  - case_bool_decide; [done|]. unfold len. split_and!; [done|lia|done].
  - replace (match (if bool_decide (f = []) then None else Some f) with
             | Some f => fraction_nano f | None => 0 end) with (fraction_nano f).
    + rewrite <- Hval. unfold min_int64, max_int64 in *. split; [lia|].
      destruct (Z.ltb_spec n 0); lia.
    + case_bool_decide as E; [|done]. by rewrite E.
Qed.

(** The wire form round-trips.  Every amount except the most negative
    [int64] comes back exactly from [FormatNanoExact] through
    [ParseDecimalNano]; that one value prints but is refused by the parser,
    whose overflow guard works on the magnitude. *)
Theorem money_wire_roundtrip n :
  int64_range n ->
  ParseDecimalNano (FormatNanoExact n) =
  if n =? min_int64 then Err (ErrOverflows (FormatNanoExact n)) else Ok n.
Proof.
  intros Hn. destruct (Z.eqb_spec n min_int64) as [->|Hne]; [by vm_compute|].
  apply parse_complete, format_exact_decimal. lia.
Qed.

Lemma money_wire_roundtrip_witness :
  int64_range (-500000000) /\
  FormatNanoExact (-500000000) = lit "-0.5" /\
  ParseDecimalNano (FormatNanoExact (-500000000)) = Ok (-500000000).
Proof.
  split; [unfold min_int64, max_int64; lia|]. split; [reflexivity|].
  exact (money_wire_roundtrip (-500000000)
    ltac:(unfold min_int64, max_int64; lia)).
Defined.

Lemma digits_two n :
  0 <= n < 100 ->
  let two := if n <? 10 then "0"%char :: digits n else digits n in
  length two = 2%nat /\ forallb is_digit two = true /\ dec_value two = n.
Proof.
  intros Hn two. destruct (digits_spec n ltac:(lia)) as (Hd & Hv & Hne).
  subst two. destruct (Z.ltb_spec n 10).
  - assert (digits n = [digit_char n]) as ->.
    { unfold digits. cbn [digits_aux]. by rewrite (proj2 (Z.ltb_lt _ _)). }
    cbn [length forallb]. rewrite is_digit_char by lia.
    split_and!; [done|done|]. rewrite !dec_value_cons, digit_val_char by lia.
    change (digit_val "0"%char) with 0. change (dec_value []) with 0.
    change (len []) with 0. lia.
  - split_and!; [|done|done]. pose proof (dec_value_bounds _ Hd).
    assert (Hl : digits n = [digit_char (n / 10); digit_char (n mod 10)]).
    { unfold digits.
      assert (3 <= Z.log2 n) by (apply Z.log2_le_pow2; lia).
      destruct (Z.to_nat (Z.log2 n)) as [|[|]] eqn:E; [lia|lia|].
      cbn [digits_aux]. rewrite (proj2 (Z.ltb_ge _ _)) by lia.
      rewrite (proj2 (Z.ltb_lt (n / 10) 10)) by (apply Z.div_lt_upper_bound; lia).
      done. }
    by rewrite Hl.
Qed.

(** The display form is the sign, the whole units and exactly two digits of
    cents, truncated towards zero, for every [int64] including the most
    negative one, whose magnitude does not fit an [int64]. *)
Theorem format_nano_truncates n :
  int64_range n ->
  exists whole cents,
    FormatNano n = (if n <? 0 then lit "-" else []) ++ whole ++ "."%char :: cents /\
    forallb is_digit whole = true /\ whole <> [] /\
    forallb is_digit cents = true /\ length cents = 2%nat /\
    dec_value whole * 100 + dec_value cents = Z.abs n / (NanoPerUnit / 100).
Proof.
  intros Hn. unfold FormatNano. cbn zeta.
  replace (if n <? 0 then (wrap64 (- wrap64 (n + 1)) mod 2 ^ 64 + 1) mod 2 ^ 64
           else n mod 2 ^ 64) with (Z.abs n).
  2:{ unfold min_int64, max_int64 in Hn. destruct (Z.ltb_spec n 0).
      - rewrite (wrap64_id (n + 1)) by (unfold min_int64, max_int64; lia).
        rewrite wrap64_id by (unfold min_int64, max_int64; lia).
        rewrite (Z.mod_small (- (n + 1))) by lia. rewrite Z.mod_small by lia. lia.
      - rewrite Z.mod_small by lia. lia. }
  set (c := (Z.abs n mod NanoPerUnit) / (NanoPerUnit / 100)).
  change (NanoPerUnit / 100) with 10000000 in *.
  assert (Hc : 0 <= c < 100).
  { subst c. pose proof (Z.mod_pos_bound (Z.abs n) NanoPerUnit ltac:(done)).
    unfold NanoPerUnit in *. split; [apply Z.div_pos; lia|].
    apply Z.div_lt_upper_bound; lia. }
  destruct (digits_two c Hc) as (Hl & Hd & Hv).
  destruct (digits_spec (Z.abs n / NanoPerUnit)) as (Hd' & Hv' & Hne).
  { apply Z.div_pos; [lia|done]. }
  eexists _, _. split; [reflexivity|]. split_and!; [done|done|done|done|].
  rewrite Hv, Hv'. subst c. unfold NanoPerUnit.
  pose proof (Z.div_mod (Z.abs n) 1000000000 ltac:(done)) as Hdm.
  rewrite Hdm at 3.
  replace (1000000000 * (Z.abs n / 1000000000) + Z.abs n mod 1000000000)
    with (Z.abs n mod 1000000000 + (100 * (Z.abs n / 1000000000)) * 10000000) by lia.
  rewrite Z.div_add by lia. lia.
Qed.

Lemma format_nano_truncates_witness :
  int64_range min_int64 /\ FormatNano min_int64 = lit "-9223372036.85" /\
  exists whole cents,
    FormatNano min_int64 = (if min_int64 <? 0 then lit "-" else []) ++ whole ++ "."%char :: cents /\
    forallb is_digit whole = true /\ whole <> [] /\
    forallb is_digit cents = true /\ length cents = 2%nat /\
    dec_value whole * 100 + dec_value cents = Z.abs min_int64 / (NanoPerUnit / 100).
Proof.
  split; [unfold min_int64, max_int64; lia|]. split; [vm_compute; reflexivity|].
  apply (format_nano_truncates min_int64). unfold min_int64, max_int64; lia.
Defined.
