(* ===== verification/Rational.v ===== *)
(** * Exact rationals: the uses of [math/big.Rat]

    A [*big.Rat] is a [Q]; the operations below are the ones pricing performs.
    Go keeps a [Rat] in lowest terms, the model reduces only where the code
    looks at numerator and denominator, so the natural equality here is [Qeq];
    every observation is a [Proper] morphism for it. *)
From S2P Require Import Prelude GoStr.
From Stdlib Require Export QArith Qround Qreduction.

Open Scope Z_scope.

Abbreviation rat := Q.

(** [new(big.Rat).SetFrac(a, b)] for a positive constant [b]. *)
Definition frac (a : Z) (b : positive) : rat := Qmake a b.

Definition rat_sign (r : rat) : Z := Z.sgn (Qnum r).

(** [ceilToInt64]: quotient and remainder of the reduced fraction, one up when
    a positive remainder is left, then the [int64] check. *)
Definition ceilToInt64 (r : rat) : result string Z :=
  let r := Qred r in
  let num := Qnum r in
  let denom := Z.pos (Qden r) in
  let q := Z.quot num denom in
  let rem := Z.rem num denom in
  let q := if 0 <? Z.sgn rem then q + 1 else q in
  if negb (is_int64 q) then Err "value is outside the int64 range"%string else Ok q.

(** [big.Rat.SetString] on an optionally signed decimal literal, the form the
    settings registry admits for an exchange rate (see [IsSignedDecimal]).
    Exponents, fractions and base prefixes are outside the modelled domain. *)
Definition rat_set_string (s : bytes) : option rat :=
  let neg := has_prefix s (lit "-") in
  let s := if neg || has_prefix s (lit "+") then drop 1 s else s in
  let '(whole, fraction, _) := cut_byte "."%char s in
  if bool_decide (whole ++ fraction = []) || negb (forallb is_digit (whole ++ fraction))
  then None
  else
    let num := dec_value (whole ++ fraction) in
    Some (Qmake (if neg then - num else num) (Z.to_pos (10 ^ len fraction))).

(** [RatString]: an integer as a number, anything else as [num/den]. *)
Definition RatString (r : rat) : bytes :=
  let r := Qred r in
  if Pos.eqb (Qden r) 1 then itoa (Qnum r)
  else itoa (Qnum r) ++ lit "/" ++ digits (Z.pos (Qden r)).

(** ** Lemmas *)

#[export] Instance ceilToInt64_proper : Proper (Qeq ==> eq) ceilToInt64.
Proof. intros a b H. unfold ceilToInt64. by rewrite (Qred_complete a b H). Qed.

#[export] Instance RatString_proper : Proper (Qeq ==> eq) RatString.
Proof. intros a b H. unfold RatString. by rewrite (Qred_complete a b H). Qed.

#[export] Instance rat_sign_proper : Proper (Qeq ==> eq) rat_sign.
Proof.
  intros [a p] [b q]. unfold Qeq, rat_sign. simpl. intros H.
  destruct (Z.compare_spec a 0), (Z.compare_spec b 0); subst; nia.
Qed.

Lemma div_eq n d q r : 0 <= r < d -> - n = d * - q + r -> q = - (- n / d).
Proof. intros Hr Hn. rewrite <- (Z.div_unique (- n) d (- q) r); lia. Qed.

Lemma quot_rem_ceiling n d :
  0 < d ->
  (if 0 <? Z.sgn (Z.rem n d) then Z.quot n d + 1 else Z.quot n d) = - ((- n) / d).
Proof.
  intros Hd. pose proof (Z.quot_rem' n d) as Hq.
  destruct (Z.le_gt_cases 0 n) as [Hn|Hn].
  - pose proof (Z.rem_bound_pos n d Hn Hd) as Hr.
    destruct (Z.ltb_spec 0 (Z.sgn (Z.rem n d))).
    + apply div_eq with (d - Z.rem n d); lia.
    + apply div_eq with 0; lia.
  - pose proof (Z.rem_bound_pos_neg n d Hd ltac:(lia)) as Hr.
    rewrite (proj2 (Z.ltb_ge _ _)) by lia. apply div_eq with (- Z.rem n d); lia.
Qed.

(** The rounding is the mathematical ceiling. *)
Lemma ceilToInt64_spec r :
  ceilToInt64 r =
  if is_int64 (Qceiling r) then Ok (Qceiling r)
  else Err "value is outside the int64 range"%string.
Proof.
  assert (Qceiling r = Qceiling (Qred r)) as -> by (by rewrite Qred_correct).
  unfold ceilToInt64.
  destruct (Qred r) as [n d]. cbn [Qnum Qden].
  rewrite quot_rem_ceiling by lia. unfold Qceiling, Qfloor, Qopp. cbn [Qnum Qden].
  by destruct (is_int64 _).
Qed.

Lemma ceilToInt64_ok r z :
  ceilToInt64 r = Ok z <-> z = Qceiling r /\ int64_range z.
Proof.
  rewrite ceilToInt64_spec. destruct (is_int64 (Qceiling r)) eqn:E.
  - apply is_int64_spec in E. split; [intros [= <-]; done|intros [-> _]; done].
  - apply is_int64_false in E. split; [done|]. intros [-> H]. lia.
Qed.

(** Rounding up never loses: the result covers the exact amount, by less than
    one unit. *)
Lemma ceilToInt64_bounds r z :
  ceilToInt64 r = Ok z -> (r <= inject_Z z)%Q /\ (inject_Z z < r + 1)%Q.
Proof.
  intros H. apply ceilToInt64_ok in H as [-> _]. split; [apply Qle_ceiling|].
  pose proof (Qceiling_lt r) as H. unfold Z.sub in H. rewrite inject_Z_plus in H.
  apply (Qplus_lt_l _ _ (inject_Z (-1))).
  assert (r + 1 + inject_Z (-1) == r)%Q as -> by (unfold inject_Z; ring). done.
Qed.

Lemma ceilToInt64_mono r1 r2 z1 z2 :
  (r1 <= r2)%Q -> ceilToInt64 r1 = Ok z1 -> ceilToInt64 r2 = Ok z2 -> z1 <= z2.
Proof.
  intros H [-> _]%ceilToInt64_ok [-> _]%ceilToInt64_ok. by apply Qceiling_resp_le.
Qed.

Lemma ceilToInt64_pos r z : (0 < r)%Q -> ceilToInt64 r = Ok z -> 0 < z.
Proof.
  intros H [-> _]%ceilToInt64_ok. assert (inject_Z 0 < inject_Z (Qceiling r))%Q as Hz.
  { eapply Qlt_le_trans; [exact H|apply Qle_ceiling]. }
  by rewrite <- Zlt_Qlt in Hz.
Qed.

Lemma ceilToInt64_nonneg r z : (0 <= r)%Q -> ceilToInt64 r = Ok z -> 0 <= z.
Proof.
  intros H [-> _]%ceilToInt64_ok.
  change 0 with (Qceiling 0). by apply Qceiling_resp_le.
Qed.

Lemma ceilToInt64_zero r z : (r == 0)%Q -> ceilToInt64 r = Ok z -> z = 0.
Proof. intros H. rewrite H. by intros [-> _]%ceilToInt64_ok. Qed.
