(* ===== verification/PriceTable.v ===== *)
(** * The token price table: [internal/gateway/catalog/price_table.go]

    A rate is addressed by (bucket, service tier, variant) and, within one such
    key, by context length.  The file models the constructors, the lookup with
    its three fallbacks, the long-context ceiling that pre-authorization holds
    against and the snapshot, and proves which rate a lookup may return. *)
From S2P Require Import Prelude GoStr.

Open Scope Z_scope.

(** Rates in nano USD per million tokens. *)
Record Price := mkPrice {
  InNanoPerMTok : Z;
  OutNanoPerMTok : Z;
  CacheReadNanoPerMTok : Z;
  CacheWriteNanoPerMTok : Z;
}.

Definition zero_price : Price := mkPrice 0 0 0 0.

Open Scope string_scope.
Definition BucketIn := "in".
Definition BucketOut := "out".
Definition BucketCacheRead := "cache_read".
Definition BucketCacheWrite := "cache_write".
Definition BucketAudioIn := "audio_in".
Definition BucketAudioOut := "audio_out".
Definition BucketImageIn := "image_in".
Definition BucketImageOut := "image_out".

Definition TierStandard := "standard".
Definition TierPriority := "priority".
Definition TierBatch := "batch".

Definition VariantNone := "".
Definition VariantCache5m := "5m".
Definition VariantCache1h := "1h".
Close Scope string_scope.

(** Go's [priceKey] struct: bucket, tier, variant. *)
Abbreviation priceKey := (string * string * string)%type.

Record contextBand := mkBand { minInputTokens : Z; nanoPerMTok : Z }.

(** The rows the generated queries return. *)
Record DimensionRow := mkDimensionRow {
  dr_bucket : string; dr_tier : string; dr_variant : string;
  dr_min : Z; dr_nano : Z;
}.
Record ToolRow := mkToolRow { tr_tool : string; tr_nano : Z }.

Record PriceTable := mkTable {
  base : Price;
  over : gmap priceKey (list contextBand);
  tools : gmap string Z;
  billingFree : bool;
}.

Definition row_key (r : DimensionRow) : priceKey := (dr_bucket r, dr_tier r, dr_variant r).
Definition row_band (r : DimensionRow) : contextBand := mkBand (dr_min r) (dr_nano r).

(** [cmp.Compare(b.minInputTokens, a.minInputTokens)]: descending. *)
Definition band_cmp (a b : contextBand) : comparison :=
  Z.compare (minInputTokens b) (minInputTokens a).

(** The grouping loop: [t.over[key] = append(t.over[key], band)]. *)
Definition append_band (m : gmap priceKey (list contextBand)) (r : DimensionRow) :
    gmap priceKey (list contextBand) :=
  <[row_key r := default [] (m !! row_key r) ++ [row_band r]]> m.

Definition NewPriceTable (b : Price) (rows : list DimensionRow) : PriceTable :=
  match rows with
  | [] => mkTable b ∅ ∅ false
  | _ => mkTable b (SortFunc band_cmp <$> fold_left append_band rows ∅) ∅ false
  end.

Definition WithToolPrices (t : PriceTable) (rows : list ToolRow) : PriceTable :=
  match rows with
  | [] => t
  | _ =>
      mkTable (base t) (over t)
        (fold_left (fun m r => <[tr_tool r := tr_nano r]> m) rows ∅) (billingFree t)
  end.

Definition ForBilling (t : PriceTable) (free : bool) : PriceTable :=
  if negb free then t else mkTable (base t) (over t) (tools t) true.

Definition Flat (p : Price) : PriceTable := mkTable p ∅ ∅ false.

Definition HasOverrides (t : PriceTable) : bool := negb (bool_decide (over t = ∅)).

Definition baseOf (t : PriceTable) (bucket : string) : Z :=
  if bool_decide (bucket = BucketIn) || bool_decide (bucket = BucketAudioIn)
     || bool_decide (bucket = BucketImageIn) then InNanoPerMTok (base t)
  else if bool_decide (bucket = BucketOut) || bool_decide (bucket = BucketAudioOut)
     || bool_decide (bucket = BucketImageOut) then OutNanoPerMTok (base t)
  else if bool_decide (bucket = BucketCacheRead) then CacheReadNanoPerMTok (base t)
  else if bool_decide (bucket = BucketCacheWrite) then CacheWriteNanoPerMTok (base t)
  else 0.

(** The closure [band]: the first band the length reaches. *)
Fixpoint first_band (bands : list contextBand) (contextTokens : Z) : option Z :=
  match bands with
  | [] => None
  | b :: bs =>
      if minInputTokens b <=? contextTokens then Some (nanoPerMTok b)
      else first_band bs contextTokens
  end.

Definition bands_of (rates : gmap priceKey (list contextBand)) (k : priceKey) :
    list contextBand := default [] (rates !! k).

Definition nonempty {A} (l : list A) : bool := match l with [] => false | _ => true end.

(** The closure [withinTier]: the rate when found, and whether the tier prices
    this bucket at any length. *)
Definition withinTier (rates : gmap priceKey (list contextBand))
    (bucket variant : string) (contextTokens : Z) (t : string) : option Z * bool :=
  let exact := (bucket, t, variant) in
  let priced := nonempty (bands_of rates exact) in
  match first_band (bands_of rates exact) contextTokens with
  | Some v => (Some v, true)
  | None =>
      if negb (bool_decide (variant = VariantNone)) then
        let plain := (bucket, t, VariantNone) in
        let priced := priced || nonempty (bands_of rates plain) in
        match first_band (bands_of rates plain) contextTokens with
        | Some v => (Some v, true)
        | None => (None, priced)
        end
      else (None, priced)
  end.

Definition lookupDimensionRate (rates : gmap priceKey (list contextBand))
    (bucket tier variant : string) (contextTokens : Z) : option Z :=
  let '(found, priced) := withinTier rates bucket variant contextTokens tier in
  match found with
  | Some rate => Some rate
  | None =>
      if bool_decide (tier = TierStandard) || priced then None
      else fst (withinTier rates bucket variant contextTokens TierStandard)
  end.

Definition lookup_rate (t : PriceTable) (bucket tier variant : string) (contextTokens : Z) : Z :=
  if billingFree t then 0
  else match lookupDimensionRate (over t) bucket tier variant contextTokens with
       | Some v => v
       | None => baseOf t bucket
       end.

Definition lookupToolPrice (t : PriceTable) (tool : string) : option Z :=
  if billingFree t then Some 0 else tools t !! tool.

(** The closure [raise] over one band of one key. *)
Definition raise_band (bucket : string) (out : Price) (b : contextBand) : Price :=
  let v := nanoPerMTok b in
  let raise dst := if dst <? v then v else dst in
  if minInputTokens b <=? 0 then out
  else if bool_decide (bucket = BucketIn) then
    mkPrice (raise (InNanoPerMTok out)) (OutNanoPerMTok out)
      (CacheReadNanoPerMTok out) (CacheWriteNanoPerMTok out)
  else if bool_decide (bucket = BucketOut) then
    mkPrice (InNanoPerMTok out) (raise (OutNanoPerMTok out))
      (CacheReadNanoPerMTok out) (CacheWriteNanoPerMTok out)
  else if bool_decide (bucket = BucketCacheRead) then
    mkPrice (InNanoPerMTok out) (OutNanoPerMTok out)
      (raise (CacheReadNanoPerMTok out)) (CacheWriteNanoPerMTok out)
  else if bool_decide (bucket = BucketCacheWrite) then
    mkPrice (InNanoPerMTok out) (OutNanoPerMTok out)
      (CacheReadNanoPerMTok out) (raise (CacheWriteNanoPerMTok out))
  else out.

Definition raise_key (out : Price) (e : priceKey * list contextBand) : Price :=
  fold_left (raise_band (fst (fst (fst e)))) (snd e) out.

Definition LongContextCeiling (t : PriceTable) : Price :=
  if billingFree t then zero_price
  else fold_left raise_key (map_to_list (over t)) zero_price.

(** ** The snapshot *)

Record DimensionRateSnapshot := mkDimSnap {
  ds_bucket : string; ds_tier : string; ds_variant : string; ds_min : Z; ds_nano : Z;
}.
Record PriceTableSnapshot := mkTableSnap {
  ps_base : Price; ps_dims : list DimensionRateSnapshot; ps_tools : gmap string Z;
}.

Definition dim_cmp (a b : DimensionRateSnapshot) : comparison :=
  cmp_Or [String.compare (ds_bucket a) (ds_bucket b);
          String.compare (ds_tier a) (ds_tier b);
          String.compare (ds_variant a) (ds_variant b);
          Z.compare (ds_min a) (ds_min b)].

Definition key_dims (e : priceKey * list contextBand) : list DimensionRateSnapshot :=
  let '((bucket, tier, variant), bands) := e in
  map (fun b => mkDimSnap bucket tier variant (minInputTokens b) (nanoPerMTok b)) bands.

Definition Snapshot (t : PriceTable) : PriceTableSnapshot :=
  mkTableSnap (base t)
    (SortFunc dim_cmp (flat_map key_dims (map_to_list (over t)))) (tools t).

(** ** Bands *)

Definition bands_sorted (bs : list contextBand) : Prop :=
  StronglySorted (fun a b => cmp_le band_cmp a b = true) bs.

Lemma band_le a b : cmp_le band_cmp a b = true <-> minInputTokens b <= minInputTokens a.
Proof.
  unfold cmp_le, band_cmp.
  destruct (Z.compare_spec (minInputTokens b) (minInputTokens a)); split; try done; lia.
Qed.

Lemma band_sort_sorted bs : bands_sorted (SortFunc band_cmp bs).
Proof.
  apply SortFunc_sorted; intros *; rewrite !band_le; lia.
Qed.

(** On sorted bands the walk returns the dearest applicable one: the reached
    band with the greatest lower bound. *)
Lemma first_band_some bs n v :
  bands_sorted bs -> first_band bs n = Some v ->
  exists b, b ∈ bs /\ minInputTokens b <= n /\ nanoPerMTok b = v /\
    forall b', b' ∈ bs -> minInputTokens b' <= n -> minInputTokens b' <= minInputTokens b.
Proof.
  induction 1 as [|b bs Hs IH Hb]; cbn [first_band]; [done|].
  destruct (Z.leb_spec (minInputTokens b) n) as [Hle|Hgt].
  - intros [= <-]. exists b. split_and!; [set_solver|done|done|].
    intros b' [->|Hin]%elem_of_cons _; [done|].
    rewrite Forall_forall in Hb. apply band_le, Hb. by apply list_elem_of_In.
  - intros Hf. destruct (IH Hf) as (b0 & Hin & Hle & Hv & Hmax).
    exists b0. split_and!; [set_solver|done|done|].
    intros b' [->|Hin']%elem_of_cons Hb'; [lia|auto].
Qed.

Lemma first_band_none bs n :
  first_band bs n = None <-> forall b, b ∈ bs -> n < minInputTokens b.
Proof.
  induction bs as [|b bs IH]; cbn [first_band].
  - split; [intros _ b; set_solver|done].
  - destruct (Z.leb_spec (minInputTokens b) n) as [Hle|Hgt]; split.
    + done.
    + intros H. specialize (H b ltac:(set_solver)). lia.
    + rewrite IH. intros H b' [->|?]%elem_of_cons; [done|auto].
    + intros H. apply IH. intros b' ?. apply H. set_solver.
Qed.

Lemma append_bands_lookup rows m k :
  default [] (fold_left append_band rows m !! k) =
  default [] (m !! k) ++ map row_band (filter (fun r => row_key r = k) rows).
Proof.
  revert m. induction rows as [|r rows IH]; intros m; cbn [fold_left].
  - cbn. by rewrite app_nil_r.
  - rewrite IH. unfold append_band. rewrite filter_cons.
    destruct (decide (row_key r = k)) as [<-|Hne].
    + rewrite lookup_insert_eq. cbn. unfold id. by rewrite <- app_assoc.
    + by rewrite lookup_insert_ne.
Qed.

(** The bands stored under a key are the rows of that key, sorted. *)
Lemma NewPriceTable_bands p rows k :
  bands_sorted (bands_of (over (NewPriceTable p rows)) k) /\
  bands_of (over (NewPriceTable p rows)) k
    ≡ₚ map row_band (filter (fun r => row_key r = k) rows).
Proof.
  unfold NewPriceTable, bands_of. destruct rows as [|r0 rows]; cbn [over].
  - rewrite lookup_empty. split; [constructor|done].
  - rewrite lookup_fmap.
    pose proof (append_bands_lookup (r0 :: rows) ∅ k) as H.
    rewrite lookup_empty in H. cbn [default app] in H. unfold id in H.
    destruct (fold_left append_band (r0 :: rows) ∅ !! k) as [bs|]; cbn in *; unfold id in *.
    + subst bs. split; [apply band_sort_sorted|apply SortFunc_perm].
    + rewrite <- H. split; [constructor|done].
Qed.

Lemma NewPriceTable_band_in p rows k b :
  b ∈ bands_of (over (NewPriceTable p rows)) k <->
  exists r, r ∈ rows /\ row_key r = k /\ b = row_band r.
Proof.
  rewrite (proj2 (NewPriceTable_bands p rows k)).
  rewrite list_elem_of_fmap. setoid_rewrite list_elem_of_filter. naive_solver.
Qed.

Lemma withinTier_exact rates bucket variant n t v :
  first_band (bands_of rates (bucket, t, variant)) n = Some v ->
  withinTier rates bucket variant n t = (Some v, true).
Proof. intros H. unfold withinTier. by rewrite H. Qed.

Lemma nonempty_false {A} (l : list A) : nonempty l = false <-> l = [].
Proof. by destruct l. Qed.

(** What one tier can answer with. *)
Lemma withinTier_inv rates bucket variant n t o pr :
  withinTier rates bucket variant n t = (o, pr) ->
  (forall v, o = Some v -> pr = true /\ exists vt, (vt = variant \/ vt = VariantNone) /\
     first_band (bands_of rates (bucket, t, vt)) n = Some v) /\
  (pr = false -> o = None /\ bands_of rates (bucket, t, variant) = [] /\
     bands_of rates (bucket, t, VariantNone) = []).
Proof.
  unfold withinTier. destruct (first_band (bands_of _ (bucket, t, variant)) n) eqn:E1.
  { intros [= <- <-]. split; [|done]. intros v [= <-]. split; [done|]. exists variant. auto. }
  case_bool_decide as Hv; cbn [negb].
  - intros [= <- <-]. split; [done|]. intros H%nonempty_false. subst. auto.
  - destruct (first_band (bands_of _ (bucket, t, VariantNone)) n) eqn:E2; intros [= <- <-].
    + split; [|done]. intros v [= <-]. split; [done|]. exists VariantNone. auto.
    + split; [done|]. intros H. bool_prop. rewrite !nonempty_false in *. auto.
Qed.

(** ** Properties *)

(** On a table built from rate rows, a key the request reaches is priced at
    the row of that key with the greatest lower bound not above the prompt
    length, whatever order the rows came in. *)
Theorem lookup_selects_greatest_band p rows bucket tier variant n r :
  r ∈ rows -> row_key r = (bucket, tier, variant) -> dr_min r <= n ->
  exists r', r' ∈ rows /\ row_key r' = (bucket, tier, variant) /\ dr_min r' <= n /\
    lookup_rate (NewPriceTable p rows) bucket tier variant n = dr_nano r' /\
    forall r'', r'' ∈ rows -> row_key r'' = (bucket, tier, variant) ->
      dr_min r'' <= n -> dr_min r'' <= dr_min r'.
Proof.
  intros Hin Hk Hn. set (k := (bucket, tier, variant)) in *.
  set (bs := bands_of (over (NewPriceTable p rows)) k).
  destruct (first_band bs n) as [v|] eqn:E.
  - pose proof E as E'. apply first_band_some in E' as (b & Hb & Hle & Hv & Hmax);
      [|apply NewPriceTable_bands].
    apply NewPriceTable_band_in in Hb as (r' & Hr' & Hk' & ->).
    exists r'. split_and!; [done|done|done| |].
    + unfold lookup_rate, lookupDimensionRate.
      replace (billingFree _) with false by (by destruct rows).
      erewrite withinTier_exact by exact E. by rewrite <- Hv.
    + intros r'' Hin'' Hk'' Hle''. apply (Hmax (row_band r'')); [|done].
      apply NewPriceTable_band_in. eauto.
  - rewrite first_band_none in E. specialize (E (row_band r)).
    assert (n < minInputTokens (row_band r)); [|simpl in *; lia].
    apply E, NewPriceTable_band_in. eauto.
Qed.

Definition sample_rows : list DimensionRow :=
  [mkDimensionRow "in" "standard" "" 0 10; mkDimensionRow "in" "standard" "" 200001 20;
   mkDimensionRow "in" "batch" "" 200001 7]%string.

Lemma lookup_selects_greatest_band_witness :
  exists r', r' ∈ sample_rows /\
    row_key r' = (BucketIn, TierStandard, VariantNone) /\ dr_min r' <= 300000 /\
    lookup_rate (NewPriceTable zero_price sample_rows) BucketIn TierStandard VariantNone 300000
      = dr_nano r' /\
    forall r'', r'' ∈ sample_rows -> row_key r'' = (BucketIn, TierStandard, VariantNone) ->
      dr_min r'' <= 300000 -> dr_min r'' <= dr_min r'.
Proof.
  apply (lookup_selects_greatest_band zero_price sample_rows BucketIn TierStandard VariantNone
    300000 (mkDimensionRow "in" "standard" "" 0 10)).
  - unfold sample_rows. constructor.
  - reflexivity.
  - simpl. lia.
Defined.

(** Tier isolation.  A service tier that prices a bucket at all never
    borrows the standard tier's rate: the answer is a band of that same tier
    which the prompt reaches, or the model's base rate. *)
Theorem tier_never_borrows_standard t bucket tier variant n vt b :
  billingFree t = false ->
  vt = variant \/ vt = VariantNone -> b ∈ bands_of (over t) (bucket, tier, vt) ->
  lookup_rate t bucket tier variant n = baseOf t bucket \/
  exists vt' b', (vt' = variant \/ vt' = VariantNone) /\
    b' ∈ bands_of (over t) (bucket, tier, vt') /\ minInputTokens b' <= n /\
    lookup_rate t bucket tier variant n = nanoPerMTok b'.
Proof.
  intros Hfree Hvt Hb. unfold lookup_rate, lookupDimensionRate. rewrite Hfree.
  destruct (withinTier _ _ _ _ tier) as [o pr] eqn:E.
  apply withinTier_inv in E as [Hsome Hnone].
  destruct o as [v|].
  - right. destruct (Hsome v eq_refl) as (_ & vt' & Hvt' & Hf).
    assert (Hex : exists b', b' ∈ bands_of (over t) (bucket, tier, vt') /\
              minInputTokens b' <= n /\ v = nanoPerMTok b').
    { clear -Hf. revert Hf. generalize (bands_of (over t) (bucket, tier, vt')).
      induction l as [|b l IH]; cbn [first_band]; [done|].
      destruct (Z.leb_spec (minInputTokens b) n).
      - intros [= <-]. exists b. set_solver.
      - intros Hf. destruct (IH Hf) as (b' & ? & ?). exists b'. set_solver. }
    destruct Hex as (b' & ? & ? & ?). exists vt', b'. auto.
  - destruct pr.
    + left. by rewrite orb_true_r.
    + destruct (Hnone eq_refl) as (_ & H1 & H2). exfalso.
      destruct Hvt as [->| ->]; [rewrite H1 in Hb|rewrite H2 in Hb]; set_solver.
Qed.

Lemma tier_never_borrows_standard_witness :
  lookup_rate (NewPriceTable (mkPrice 5 0 0 0) sample_rows) BucketIn TierBatch VariantNone 100
    = 5 /\
  (lookup_rate (NewPriceTable (mkPrice 5 0 0 0) sample_rows) BucketIn TierBatch VariantNone 100
     = baseOf (NewPriceTable (mkPrice 5 0 0 0) sample_rows) BucketIn \/
   exists vt' b', (vt' = VariantNone \/ vt' = VariantNone) /\
    b' ∈ bands_of (over (NewPriceTable (mkPrice 5 0 0 0) sample_rows))
           (BucketIn, TierBatch, vt') /\ minInputTokens b' <= 100 /\
    lookup_rate (NewPriceTable (mkPrice 5 0 0 0) sample_rows) BucketIn TierBatch VariantNone 100
      = nanoPerMTok b').
Proof.
  split; [vm_compute; reflexivity|].
  apply (tier_never_borrows_standard _ BucketIn TierBatch VariantNone 100 VariantNone
    (mkBand 200001 7)).
  - reflexivity.
  - left. reflexivity.
  - apply NewPriceTable_band_in.
    exists (mkDimensionRow "in" "batch" "" 200001 7).
    split; [unfold sample_rows; do 2 apply list_elem_of_further; constructor|].
    split; reflexivity.
Defined.

Lemma lookup_no_key t bucket tier variant n :
  (forall t' v', bands_of (over t) (bucket, t', v') = []) -> billingFree t = false ->
  lookup_rate t bucket tier variant n = baseOf t bucket.
Proof.
  intros H Hfree. unfold lookup_rate, lookupDimensionRate, withinTier.
  rewrite Hfree, !H. cbn [first_band nonempty orb].
  by destruct (bool_decide (variant = VariantNone)), (bool_decide (tier = TierStandard)).
Qed.

Lemma Flat_rate p bucket tier variant n :
  lookup_rate (Flat p) bucket tier variant n = baseOf (Flat p) bucket.
Proof. by apply lookup_no_key. Qed.

(** A bucket no rate row names is billed at the model's base rate for it,
    at every tier, variant and length: configuring one bucket cannot move
    another, and a model without dimension rows keeps its four base rates. *)
Theorem lookup_falls_back_to_base p rows bucket tier variant n :
  (forall r, r ∈ rows -> dr_bucket r <> bucket) ->
  lookup_rate (NewPriceTable p rows) bucket tier variant n = baseOf (Flat p) bucket.
Proof.
  intros H. rewrite lookup_no_key.
  - by destruct rows.
  - intros t' v'. destruct (bands_of _ (bucket, t', v')) as [|b bs] eqn:E; [done|].
    assert (Hb : b ∈ bands_of (over (NewPriceTable p rows)) (bucket, t', v'))
      by (rewrite E; set_solver).
    apply NewPriceTable_band_in in Hb as (r & Hr & Hk & _).
    destruct (H r Hr). by injection Hk.
  - by destruct rows.
Qed.

Lemma lookup_falls_back_to_base_witness :
  lookup_rate (NewPriceTable (mkPrice 5 6 0 0) sample_rows) BucketOut TierBatch VariantNone 100
    = baseOf (Flat (mkPrice 5 6 0 0)) BucketOut /\
  baseOf (Flat (mkPrice 5 6 0 0)) BucketOut = 6.
Proof.
  split; [|reflexivity]. apply lookup_falls_back_to_base.
  intros r Hr. unfold sample_rows in Hr.
  repeat (apply elem_of_cons in Hr as [->|Hr]; [intros E; discriminate E|]).
  apply elem_of_nil in Hr. contradiction.
Defined.

(** ** The long-context ceiling *)

Definition base_buckets : list string :=
  [BucketIn; BucketOut; BucketCacheRead; BucketCacheWrite].

(** The rate a price carries for one of its four buckets. *)
Definition bucket_rate (p : Price) (bucket : string) : Z := baseOf (Flat p) bucket.

(** Evaluates the comparisons of closed string constants. *)
Ltac decide_closed :=
  repeat match goal with
  | |- context [bool_decide (?a = ?b)] =>
      let r := eval vm_compute in (bool_decide (a = b)) in
      lazymatch r with
      | true => change (bool_decide (a = b)) with true
      | false => change (bool_decide (a = b)) with false
      end
  end; cbn [orb andb negb].

Lemma raise_band_rate bucket bk out b :
  bucket ∈ base_buckets ->
  bucket_rate (raise_band bk out b) bucket =
  if bool_decide (bk = bucket) && (0 <? minInputTokens b)
  then Z.max (bucket_rate out bucket) (nanoPerMTok b) else bucket_rate out bucket.
Proof.
  intros Hb. unfold raise_band.
  destruct (Z.leb_spec (minInputTokens b) 0).
  { rewrite (proj2 (Z.ltb_ge 0 (minInputTokens b))) by lia. by rewrite andb_false_r. }
  rewrite (proj2 (Z.ltb_lt 0 (minInputTokens b))) by lia. rewrite andb_true_r.
  unfold base_buckets in Hb.
  destruct (decide (bk ∈ base_buckets)) as [Hk|Hk].
  - unfold base_buckets in Hk.
    repeat (apply elem_of_cons in Hk as [->|Hk]; [|]);
      repeat (apply elem_of_cons in Hb as [->|Hb]; [|]);
      try (by apply elem_of_nil in Hb); try (by apply elem_of_nil in Hk);
      unfold bucket_rate, baseOf; decide_closed; cbn; first [done | step_case; bool_prop; lia].
  - unfold base_buckets in Hk. rewrite !not_elem_of_cons in Hk.
    destruct Hk as (? & ? & ? & ? & _).
    rewrite !bool_decide_eq_false_2 by done.
    by rewrite bool_decide_eq_false_2 by (intros ->; set_solver).
Qed.

Definition long_bands (bucket : string) (es : list (priceKey * list contextBand)) : list Z :=
  flat_map (fun e : priceKey * list contextBand =>
    if bool_decide (fst (fst (fst e)) = bucket)
    then map nanoPerMTok (List.filter (fun b => 0 <? minInputTokens b) (snd e)) else []) es.

Lemma raise_key_rate bucket out e :
  bucket ∈ base_buckets ->
  bucket_rate (raise_key out e) bucket =
  fold_left Z.max (long_bands bucket [e]) (bucket_rate out bucket).
Proof.
  intros Hb. unfold raise_key, long_bands. destruct e as [[[bk tier] variant] bs].
  cbn [fst snd flat_map]. rewrite app_nil_r. revert out.
  induction bs as [|b bs IH]; intros out; cbn [fold_left].
  - by case_bool_decide.
  - rewrite IH, raise_band_rate by done. case_bool_decide; cbn [andb List.filter]; [|done].
    by destruct (0 <? minInputTokens b).
Qed.

Lemma ceiling_fold bucket es out :
  bucket ∈ base_buckets ->
  bucket_rate (fold_left raise_key es out) bucket =
  fold_left Z.max (long_bands bucket es) (bucket_rate out bucket).
Proof.
  intros Hb. revert out. induction es as [|e es IH]; intros out; [done|].
  cbn [fold_left]. rewrite IH, raise_key_rate by done.
  unfold long_bands. cbn [flat_map]. by rewrite app_nil_r, fold_left_app.
Qed.

Lemma fold_max_spec l z :
  (z <= fold_left Z.max l z) /\ (forall x, x ∈ l -> x <= fold_left Z.max l z) /\
  (fold_left Z.max l z = z \/ fold_left Z.max l z ∈ l).
Proof.
  revert z. induction l as [|y l IH]; intros z; cbn [fold_left].
  - split_and!; [lia|set_solver|by left].
  - destruct (IH (Z.max z y)) as (H1 & H2 & H3). split_and!.
    + lia.
    + intros x [->|Hx]%elem_of_cons; [lia|auto].
    + destruct H3 as [H3|H3]; [|set_solver]. rewrite H3.
      destruct (Z.max_spec z y) as [[_ ->]|[_ ->]]; set_solver.
Qed.

Lemma elem_of_long_bands bucket t x :
  x ∈ long_bands bucket (map_to_list (over t)) <->
  exists tier variant b, b ∈ bands_of (over t) (bucket, tier, variant) /\
    0 < minInputTokens b /\ nanoPerMTok b = x.
Proof.
  unfold long_bands. rewrite list_elem_of_In, in_flat_map. split.
  - intros ([[[bk tier] variant] bs] & Hin & Hx). cbn [fst snd] in Hx.
    apply list_elem_of_In, elem_of_map_to_list in Hin.
    case_bool_decide as E; [subst|done].
    apply in_map_iff in Hx as (b & <- & Hb). apply filter_In in Hb as [Hb Hmin].
    exists tier, variant, b. unfold bands_of. rewrite Hin. bool_prop.
    split_and!; [by apply list_elem_of_In|done|done].
  - intros (tier & variant & b & Hb & Hmin & <-). unfold bands_of in Hb.
    destruct (over t !! (bucket, tier, variant)) as [bs|] eqn:E; cbn in Hb; [|set_solver].
    exists ((bucket, tier, variant), bs). split.
    + by apply list_elem_of_In, elem_of_map_to_list.
    + cbn [fst snd]. rewrite bool_decide_eq_true_2 by done.
      apply in_map, filter_In. split; [by apply list_elem_of_In|]. by apply Z.ltb_lt.
Qed.

Lemma long_context_ceiling t bucket :
  billingFree t = false -> bucket ∈ base_buckets ->
  (forall tier variant b, b ∈ bands_of (over t) (bucket, tier, variant) ->
     0 < minInputTokens b -> nanoPerMTok b <= bucket_rate (LongContextCeiling t) bucket) /\
  (bucket_rate (LongContextCeiling t) bucket = 0 \/
   exists tier variant b, b ∈ bands_of (over t) (bucket, tier, variant) /\
     0 < minInputTokens b /\ nanoPerMTok b = bucket_rate (LongContextCeiling t) bucket).
Proof.
  intros Hfree Hb. unfold LongContextCeiling. rewrite Hfree, ceiling_fold by done.
  replace (bucket_rate zero_price bucket) with 0.
  2:{ unfold base_buckets in Hb.
      repeat (apply elem_of_cons in Hb as [->|Hb]; [done|]). by apply elem_of_nil in Hb. }
  destruct (fold_max_spec (long_bands bucket (map_to_list (over t))) 0) as (_ & H2 & H3).
  split.
  - intros tier variant b Hin Hmin. apply H2, elem_of_long_bands. eauto 8.
  - rewrite <- elem_of_long_bands. done.
Qed.

(** The ceiling a hold is computed against is the least upper bound: for
    each of the four base buckets it is at least every long-context rate
    configured for that bucket, at any tier and variant, and it is zero or
    one of those rates. *)
Theorem long_context_ceiling_lub t bucket :
  billingFree t = false -> bucket ∈ base_buckets ->
  (forall tier variant b, b ∈ bands_of (over t) (bucket, tier, variant) ->
     0 < minInputTokens b -> nanoPerMTok b <= bucket_rate (LongContextCeiling t) bucket) /\
  (bucket_rate (LongContextCeiling t) bucket = 0 \/
   exists tier variant b, b ∈ bands_of (over t) (bucket, tier, variant) /\
     0 < minInputTokens b /\ nanoPerMTok b = bucket_rate (LongContextCeiling t) bucket).
Proof. apply long_context_ceiling. Qed.

Lemma long_context_ceiling_lub_witness :
  20 <= bucket_rate (LongContextCeiling (NewPriceTable zero_price sample_rows)) BucketIn /\
  ((forall tier variant b,
     b ∈ bands_of (over (NewPriceTable zero_price sample_rows)) (BucketIn, tier, variant) ->
     0 < minInputTokens b ->
     nanoPerMTok b <= bucket_rate (LongContextCeiling (NewPriceTable zero_price sample_rows)) BucketIn) /\
   (bucket_rate (LongContextCeiling (NewPriceTable zero_price sample_rows)) BucketIn = 0 \/
    exists tier variant b,
     b ∈ bands_of (over (NewPriceTable zero_price sample_rows)) (BucketIn, tier, variant) /\
     0 < minInputTokens b /\
     nanoPerMTok b = bucket_rate (LongContextCeiling (NewPriceTable zero_price sample_rows)) BucketIn)).
Proof.
  split; [vm_compute; discriminate|].
  apply (long_context_ceiling_lub (NewPriceTable zero_price sample_rows) BucketIn).
  - reflexivity.
  - unfold base_buckets. constructor.
Defined.

(** The ceiling folds every tier in, although the comment on
    [LongContextCeiling] says the tier axis is left out: a band only the
    priority tier configures raises it. *)
Example ceiling_folds_tier_in :
  LongContextCeiling (NewPriceTable (mkPrice 5 6 0 0)
    [mkDimensionRow BucketIn TierPriority VariantNone 200001 50])
  = mkPrice 50 0 0 0.
Proof. vm_compute. reflexivity. Qed.
