(* ===== verification/Pricing.v ===== *)
(** * Billing one request: [internal/gateway/catalog/pricing.go]

    Usage in disjoint token buckets, two price tables (the published list, the
    serving route's cost), three basis-point multipliers and an exchange rate
    make one [Quote].  Every intermediate amount is an exact rational; each of
    the two results is rounded up once. *)
From S2P Require Import Prelude GoStr Rational PriceTable.

Open Scope Z_scope.

Record Tokens := mkTokens {
  tk_In : Z; tk_Out : Z; tk_CachedRead : Z; tk_CacheWrite : Z;
  tk_AudioIn : Z; tk_AudioOut : Z; tk_ImageIn : Z; tk_ImageOut : Z;
  tk_CacheWrite5m : Z; tk_CacheWrite1h : Z;
  tk_ServiceTier : string;
  tk_ToolCalls : gmap string Z;
}.
#[export] Instance Tokens_eq_dec : EqDecision Tokens.
Proof. solve_decision. Defined.

(** [Tokens{In: i, Out: o}], every other field at its zero value. *)
Definition text_tokens (i o : Z) : Tokens :=
  mkTokens i o 0 0 0 0 0 0 0 0 "" ∅.

Definition ContextTokens (t : Tokens) : Z :=
  wrap64 (wrap64 (tk_In t + tk_CachedRead t) + tk_CacheWrite t).

Definition tier (t : Tokens) : string :=
  if bool_decide (tk_ServiceTier t = TierPriority) || bool_decide (tk_ServiceTier t = TierBatch)
  then tk_ServiceTier t else TierStandard.

Record Quote := mkQuote {
  UpstreamUSDNano : Z;
  ChargedNano : Z;
  q_ModelMultiplierBps : Z;
  q_PlanMultiplierBps : Z;
  q_ProcurementMultiplierBps : Z;
  q_FXRate : bytes;
}.

Record Rates := mkRates {
  ModelMultiplierBps : Z;
  PlanMultiplierBps : Z;
  ProcurementMultiplierBps : Z;
  FXRate : bytes;
}.

(** The error returns of the pricing path, one constructor per return. *)
Inductive price_error :=
  | ErrTokenCount (v : Z)
  | ErrAudioSubset
  | ErrImageSubset
  | ErrCacheWriteTTL
  | ErrToolCount (tool : string) (calls : Z)
  | ErrModelMultiplier (v : Z)
  | ErrPlanMultiplier (v : Z)
  | ErrProcurementMultiplier (v : Z)
  | ErrFXMissing
  | ErrFXInvalid (s : bytes)
  | ErrAdvancedPriceMissing (tool : string)
  | ErrUpstreamOverflow
  | ErrChargedOverflow
  | ErrNegativeFee
  | ErrFeeOverflow
  | ErrNegativeEstimate.

Definition noDiscountBps : Z := 10000.
Definition maxMultiplierBps : Z := 100000.
Definition tokensPerMTok : positive := 1000000.
Definition maxSaneTokens : Z := 2 ^ 31 - 1.

Definition default_bps (v : Z) : Z := if v =? 0 then noDiscountBps else v.
Definition bps_ok (v : Z) : bool := negb ((v <? 1) || (maxMultiplierBps <? v)).

Definition normalize (r : Rates) : result price_error Rates :=
  let r := mkRates (default_bps (ModelMultiplierBps r)) (default_bps (PlanMultiplierBps r))
             (default_bps (ProcurementMultiplierBps r)) (FXRate r) in
  if negb (bps_ok (ModelMultiplierBps r)) then Err (ErrModelMultiplier (ModelMultiplierBps r))
  else if negb (bps_ok (PlanMultiplierBps r)) then Err (ErrPlanMultiplier (PlanMultiplierBps r))
  else if negb (bps_ok (ProcurementMultiplierBps r))
  then Err (ErrProcurementMultiplier (ProcurementMultiplierBps r))
  else if bool_decide (FXRate r = []) then Err ErrFXMissing
  else Ok r.

(** ** Token validation *)

Fixpoint check_counts (vs : list Z) : result price_error unit :=
  match vs with
  | [] => Ok tt
  | v :: vs' => if (v <? 0) || (maxSaneTokens <? v) then Err (ErrTokenCount v)
                else check_counts vs'
  end.

Fixpoint check_tools (l : list (string * Z)) : result price_error unit :=
  match l with
  | [] => Ok tt
  | (tool, calls) :: l' =>
      if (calls <? 0) || (maxSaneTokens <? calls) then Err (ErrToolCount tool calls)
      else check_tools l'
  end.

Definition ValidateTokens (t : Tokens) : result price_error unit :=
  try _ <- check_counts [tk_In t; tk_Out t; tk_CachedRead t; tk_CacheWrite t;
             tk_AudioIn t; tk_AudioOut t; tk_ImageIn t; tk_CacheWrite5m t; tk_CacheWrite1h t];
  if (tk_In t <? tk_AudioIn t) || (tk_Out t <? tk_AudioOut t) then Err ErrAudioSubset
  else if tk_In t <? tk_ImageIn t then Err ErrImageSubset
  else if tk_CacheWrite t <? wrap64 (tk_CacheWrite5m t + tk_CacheWrite1h t)
  then Err ErrCacheWriteTTL
  else check_tools (map_to_list (tk_ToolCalls t)).

(** ** Contribution buckets *)

Record exactBuckets := mkBuckets {
  exactInput : rat; exactOutput : rat; exactCacheRead : rat; exactCacheWrite : rat;
  exactTools : rat;
}.

Inductive contribution := CInput | COutput | CCacheRead | CCacheWrite | CTools.

Definition newExactBuckets : exactBuckets := mkBuckets 0 0 0 0 0.

Definition add_part (b : exactBuckets) (i : contribution) (x : rat) : exactBuckets :=
  let '(mkBuckets a o r w t) := b in
  match i with
  | CInput => mkBuckets (a + x) o r w t
  | COutput => mkBuckets a (o + x) r w t
  | CCacheRead => mkBuckets a o (r + x) w t
  | CCacheWrite => mkBuckets a o r (w + x) t
  | CTools => mkBuckets a o r w (t + x)
  end%Q.

Definition buckets_list (b : exactBuckets) : list rat :=
  [exactInput b; exactOutput b; exactCacheRead b; exactCacheWrite b; exactTools b].

Definition total (b : exactBuckets) : rat := fold_left Qplus (buckets_list b) 0%Q.

Definition nonNeg (v : Z) : Z := if v <? 0 then 0 else v.

(** One call of the closure [add]. *)
Definition add_tokens (pt : PriceTable) (t : Tokens) (parts : exactBuckets)
    (c : Z * string * string * contribution) : exactBuckets :=
  let '(tokens, bucket, variant, i) := c in
  if tokens =? 0 then parts
  else add_part parts i
         (frac (tokens * lookup_rate pt bucket (tier t) variant (ContextTokens t)) tokensPerMTok).

(** The calls of [add] in the order the code makes them. *)
Definition token_adds (t : Tokens) : list (Z * string * string * contribution) :=
  [ (nonNeg (wrap64 (wrap64 (tk_In t - tk_AudioIn t) - tk_ImageIn t)), BucketIn, VariantNone, CInput);
    (nonNeg (wrap64 (wrap64 (tk_Out t - tk_AudioOut t) - tk_ImageOut t)), BucketOut, VariantNone, COutput);
    (tk_AudioIn t, BucketAudioIn, VariantNone, CInput);
    (tk_ImageIn t, BucketImageIn, VariantNone, CInput);
    (tk_AudioOut t, BucketAudioOut, VariantNone, COutput);
    (tk_ImageOut t, BucketImageOut, VariantNone, COutput);
    (tk_CachedRead t, BucketCacheRead, VariantNone, CCacheRead) ] ++
  (if (0 <? tk_CacheWrite5m t) || (0 <? tk_CacheWrite1h t) then
     [ (tk_CacheWrite5m t, BucketCacheWrite, VariantCache5m, CCacheWrite);
       (tk_CacheWrite1h t, BucketCacheWrite, VariantCache1h, CCacheWrite);
       (nonNeg (wrap64 (wrap64 (tk_CacheWrite t - tk_CacheWrite5m t) - tk_CacheWrite1h t)),
        BucketCacheWrite, VariantNone, CCacheWrite) ]
   else [ (tk_CacheWrite t, BucketCacheWrite, VariantNone, CCacheWrite) ]).

(** The loop over the tool calls, in a given iteration order. *)
Fixpoint add_tools (pt : PriceTable) (l : list (string * Z)) (parts : exactBuckets) :
    result price_error exactBuckets :=
  match l with
  | [] => Ok parts
  | (tool, calls) :: l' =>
      if calls <=? 0 then add_tools pt l' parts
      else match lookupToolPrice pt tool with
           | None => Err (ErrAdvancedPriceMissing tool)
           | Some per => add_tools pt l' (add_part parts CTools (inject_Z (calls * per)))
           end
  end.

Definition upstreamCostBuckets (pt : PriceTable) (t : Tokens) : result price_error exactBuckets :=
  let parts := fold_left (add_tokens pt t) (token_adds t) newExactBuckets in
  add_tools pt (map_to_list (tk_ToolCalls t)) parts.

Definition upstreamCost (pt : PriceTable) (t : Tokens) : result price_error rat :=
  try parts <- upstreamCostBuckets pt t; Ok (total parts).

Definition bps (v : Z) : rat := frac v 10000.

Definition procurementCost (pt : PriceTable) (t : Tokens) (multiplierBps : Z) :
    result price_error rat :=
  try total <- upstreamCost pt t; Ok (total * bps multiplierBps)%Q.

(** ** Quotes *)

Definition charged_rat (charged fx : rat) (r : Rates) : rat :=
  (charged * bps (ModelMultiplierBps r) * bps (PlanMultiplierBps r) * fx)%Q.

Definition quoteFrom (upstream charged fx : rat) (r : Rates) : result price_error Quote :=
  match ceilToInt64 upstream with
  | Err _ => Err ErrUpstreamOverflow
  | Ok upstreamNano =>
      match ceilToInt64 (charged_rat charged fx r) with
      | Err _ => Err ErrChargedOverflow
      | Ok chargedNano =>
          Ok (mkQuote upstreamNano chargedNano (ModelMultiplierBps r) (PlanMultiplierBps r)
                (ProcurementMultiplierBps r) (FXRate r))
      end
  end.

Definition parse_fx (s : bytes) : result price_error rat :=
  match rat_set_string s with
  | None => Err (ErrFXInvalid s)
  | Some fx => if rat_sign fx <=? 0 then Err (ErrFXInvalid s) else Ok fx
  end.

Definition Compute (list cost : PriceTable) (t : Tokens) (r : Rates) : result price_error Quote :=
  try _ <- ValidateTokens t;
  try r <- normalize r;
  try fx <- parse_fx (FXRate r);
  try upstream <- procurementCost cost t (ProcurementMultiplierBps r);
  try charged <- upstreamCost list t;
  quoteFrom upstream charged fx r.

(** [r.ModelMultiplierBps = noDiscountBps] on the BYOK paths. *)
Definition byok_rates (r : Rates) : Rates :=
  mkRates noDiscountBps (PlanMultiplierBps r) (ProcurementMultiplierBps r) (FXRate r).

Definition byok_quote (charged fx : rat) (feeBps : Z) (r : Rates) : result price_error Quote :=
  match ceilToInt64 (charged * bps feeBps * bps (PlanMultiplierBps r) * fx)%Q with
  | Err _ => Err ErrFeeOverflow
  | Ok chargedNano =>
      Ok (mkQuote 0 chargedNano noDiscountBps (PlanMultiplierBps r) noDiscountBps (FXRate r))
  end.

Definition ComputeBYOK (p : PriceTable) (t : Tokens) (feeBps : Z) (r : Rates) :
    result price_error Quote :=
  try _ <- ValidateTokens t;
  if feeBps <? 0 then Err ErrNegativeFee
  else
    try r <- normalize (byok_rates r);
    try fx <- parse_fx (FXRate r);
    try charged <- upstreamCost p t;
    byok_quote charged fx feeBps r.

(** ** The exact contributions *)

Record ExactBucketAmounts := mkAmounts {
  am_Input : bytes; am_Output : bytes; am_CacheRead : bytes; am_CacheWrite : bytes;
  am_Tools : bytes;
}.
Record ExactQuoteContributions := mkContributions {
  ec_UpstreamCost : ExactBucketAmounts; ec_Charged : ExactBucketAmounts;
}.

Definition scaleExactBuckets (b : exactBuckets) (ms : list rat) : exactBuckets :=
  let s x := fold_left Qmult ms x in
  mkBuckets (s (exactInput b)) (s (exactOutput b)) (s (exactCacheRead b))
    (s (exactCacheWrite b)) (s (exactTools b)).

Definition snapshotExactBuckets (b : exactBuckets) : ExactBucketAmounts :=
  mkAmounts (RatString (exactInput b)) (RatString (exactOutput b))
    (RatString (exactCacheRead b)) (RatString (exactCacheWrite b)) (RatString (exactTools b)).

Definition ComputeExactContributions (list cost : PriceTable) (t : Tokens) (r : Rates) :
    result price_error ExactQuoteContributions :=
  try _ <- ValidateTokens t;
  try r <- normalize r;
  try fx <- parse_fx (FXRate r);
  try costParts <- upstreamCostBuckets cost t;
  try listParts <- upstreamCostBuckets list t;
  let procurement := scaleExactBuckets costParts [bps (ProcurementMultiplierBps r)] in
  let charged := scaleExactBuckets listParts
                   [bps (ModelMultiplierBps r); bps (PlanMultiplierBps r); fx] in
  Ok (mkContributions (snapshotExactBuckets procurement) (snapshotExactBuckets charged)).

Definition ComputeBYOKExactContributions (list : PriceTable) (t : Tokens) (feeBps : Z)
    (r : Rates) : result price_error ExactQuoteContributions :=
  try _ <- ValidateTokens t;
  if feeBps <? 0 then Err ErrNegativeFee
  else
    try r <- normalize (byok_rates r);
    try fx <- parse_fx (FXRate r);
    try listParts <- upstreamCostBuckets list t;
    let charged := scaleExactBuckets listParts [bps feeBps; bps (PlanMultiplierBps r); fx] in
    Ok (mkContributions (snapshotExactBuckets newExactBuckets) (snapshotExactBuckets charged)).

(** ** The pre-authorization estimate *)

Record EstimateInput := mkEstimate {
  ei_Price : Price;
  ei_LongContext : Price;
  ei_InputTokens : Z;
  ei_MaxOutput : Z;
  ei_DefaultMaxCap : Z;
  ei_IgnoreRequestCap : bool;
  ei_Rates : Rates;
}.

Definition dearerOf (b ceiling : Price) : Price :=
  let larger x y := if x <? y then y else x in
  mkPrice (larger (InNanoPerMTok b) (InNanoPerMTok ceiling))
    (larger (OutNanoPerMTok b) (OutNanoPerMTok ceiling))
    (larger (CacheReadNanoPerMTok b) (CacheReadNanoPerMTok ceiling))
    (larger (CacheWriteNanoPerMTok b) (CacheWriteNanoPerMTok ceiling)).

(** The output figure the hold is computed on. *)
Definition estimate_out (i : EstimateInput) : Z :=
  let out := if ei_IgnoreRequestCap i then 0 else ei_MaxOutput i in
  let out := if out <=? 0 then ei_DefaultMaxCap i else out in
  if (0 <? ei_DefaultMaxCap i) && (ei_DefaultMaxCap i <? out) then ei_DefaultMaxCap i else out.

Definition Estimate (i : EstimateInput) : result price_error Z :=
  let out := estimate_out i in
  if (ei_InputTokens i <? 0) || (out <? 0) then Err ErrNegativeEstimate
  else
    let price := dearerOf (ei_Price i) (ei_LongContext i) in
    try q <- Compute (Flat price) (Flat price) (text_tokens (ei_InputTokens i) out) (ei_Rates i);
    if ChargedNano q <=? 0 then Ok 1 else Ok (ChargedNano q).

(** ** Inversion of a successful computation *)

Lemma normalize_ok r r' :
  normalize r = Ok r' ->
  1 <= ModelMultiplierBps r' <= maxMultiplierBps /\
  1 <= PlanMultiplierBps r' <= maxMultiplierBps /\
  1 <= ProcurementMultiplierBps r' <= maxMultiplierBps /\
  ModelMultiplierBps r' = default_bps (ModelMultiplierBps r) /\
  PlanMultiplierBps r' = default_bps (PlanMultiplierBps r) /\
  ProcurementMultiplierBps r' = default_bps (ProcurementMultiplierBps r) /\
  FXRate r' = FXRate r /\ FXRate r <> [].
Proof.
  unfold normalize, bps_ok. cbn zeta.
  cbn [ModelMultiplierBps PlanMultiplierBps ProcurementMultiplierBps FXRate].
  rewrite !negb_involutive.
  repeat step_case; try done. intros [= <-]. bool_prop. cbn. lia || split_and!; try lia; done.
Qed.

Lemma parse_fx_pos s fx : parse_fx s = Ok fx -> (0 < fx)%Q.
Proof.
  unfold parse_fx. destruct (rat_set_string s) as [x|]; [|done].
  destruct (Z.leb_spec (rat_sign x) 0); [done|]. intros [= <-].
  unfold rat_sign in *. destruct x as [n d]. unfold Qlt. cbn in *. lia.
Qed.

Lemma quoteFrom_ok u c fx r q :
  quoteFrom u c fx r = Ok q <->
  ceilToInt64 u = Ok (UpstreamUSDNano q) /\
  ceilToInt64 (charged_rat c fx r) = Ok (ChargedNano q) /\
  q_ModelMultiplierBps q = ModelMultiplierBps r /\
  q_PlanMultiplierBps q = PlanMultiplierBps r /\
  q_ProcurementMultiplierBps q = ProcurementMultiplierBps r /\ q_FXRate q = FXRate r.
Proof.
  unfold quoteFrom. destruct q as [u0 c0 m p pr f].
  destruct (ceilToInt64 u), (ceilToInt64 (charged_rat c fx r)); naive_solver.
Qed.

Lemma Compute_ok l c t r q :
  Compute l c t r = Ok q <->
  exists r' fx ub cb,
    ValidateTokens t = Ok tt /\ normalize r = Ok r' /\ parse_fx (FXRate r') = Ok fx /\
    upstreamCostBuckets c t = Ok ub /\ upstreamCostBuckets l t = Ok cb /\
    quoteFrom (total ub * bps (ProcurementMultiplierBps r'))%Q (total cb) fx r' = Ok q.
Proof.
  unfold Compute, procurementCost, upstreamCost. split.
  - intros ([] & Hv & (r' & Hr & (fx & Hfx & H)%rbind_ok)%rbind_ok)%rbind_ok.
    apply rbind_ok in H as (u & (u' & (ub & Hub & [= <-])%rbind_ok & [= <-])%rbind_ok & H).
    apply rbind_ok in H as (x & (cb & Hcb & [= <-])%rbind_ok & H). eauto 12.
  - intros (r' & fx & ub & cb & -> & -> & Hfx & Hub & Hcb & Hq). cbn [rbind].
    rewrite Hfx. cbn [rbind]. rewrite Hub. cbn [rbind]. rewrite Hcb. done.
Qed.

Lemma ComputeBYOK_ok p t fee r q :
  ComputeBYOK p t fee r = Ok q ->
  exists r' fx cb,
    ValidateTokens t = Ok tt /\ 0 <= fee /\ normalize (byok_rates r) = Ok r' /\
    parse_fx (FXRate r') = Ok fx /\ upstreamCostBuckets p t = Ok cb /\
    ceilToInt64 (total cb * bps fee * bps (PlanMultiplierBps r') * fx)%Q = Ok (ChargedNano q) /\
    UpstreamUSDNano q = 0 /\ q_ModelMultiplierBps q = noDiscountBps.
Proof.
  unfold ComputeBYOK, upstreamCost. intros ([] & Hv & H)%rbind_ok.
  destruct (Z.ltb_spec fee 0); [done|].
  apply rbind_ok in H as (r' & Hr & (fx & Hfx & (x & (cb & Hcb & [= <-])%rbind_ok & H)%rbind_ok)%rbind_ok).
  unfold byok_quote in H. destruct (ceilToInt64 _) as [z|] eqn:E; [|done].
  injection H as <-. exists r', fx, cb. cbn. auto 10.
Qed.

(** ** Rational bookkeeping *)

Lemma add_part_total b i x : (total (add_part b i x) == total b + x)%Q.
Proof. destruct b, i; unfold total; cbn; ring. Qed.

Definition add_amount (pt : PriceTable) (t : Tokens) (c : Z * string * string * contribution) : rat :=
  let '(tokens, bucket, variant, _) := c in
  frac (tokens * lookup_rate pt bucket (tier t) variant (ContextTokens t)) tokensPerMTok.

Lemma frac_zero d : (frac 0 d == 0)%Q.
Proof. done. Qed.

Lemma add_tokens_total pt t parts c :
  (total (add_tokens pt t parts c) == total parts + add_amount pt t c)%Q.
Proof.
  destruct c as [[[n bucket] variant] i]. unfold add_tokens, add_amount.
  destruct (Z.eqb_spec n 0) as [->|].
  - rewrite Z.mul_0_l, frac_zero. ring.
  - apply add_part_total.
Qed.

Definition rat_sum (l : list rat) : rat := fold_right Qplus 0%Q l.

Lemma token_total pt t cs parts :
  (total (fold_left (add_tokens pt t) cs parts) ==
   total parts + rat_sum (map (add_amount pt t) cs))%Q.
Proof.
  revert parts. induction cs as [|c cs IH]; intros parts; cbn [fold_left map rat_sum fold_right].
  - ring.
  - rewrite IH, add_tokens_total. unfold rat_sum. ring.
Qed.

(** The priced tool calls of an iteration order, or the tool with no price. *)
Fixpoint tool_amount (pt : PriceTable) (l : list (string * Z)) : result price_error rat :=
  match l with
  | [] => Ok 0%Q
  | (tool, calls) :: l' =>
      if calls <=? 0 then tool_amount pt l'
      else match lookupToolPrice pt tool with
           | None => Err (ErrAdvancedPriceMissing tool)
           | Some per => try x <- tool_amount pt l'; Ok (inject_Z (calls * per) + x)%Q
           end
  end.

Lemma add_tools_total pt l parts :
  match add_tools pt l parts, tool_amount pt l with
  | Ok b, Ok x => (total b == total parts + x)%Q
  | Err e, Err e' => e = e'
  | _, _ => False
  end.
Proof.
  revert parts. induction l as [|[tool calls] l IH]; intros parts; cbn [add_tools tool_amount].
  - ring.
  - destruct (calls <=? 0); [apply IH|].
    destruct (lookupToolPrice pt tool) as [per|]; [|done].
    specialize (IH (add_part parts CTools (inject_Z (calls * per)))).
    destruct (add_tools pt l _), (tool_amount pt l); cbn [rbind]; try done.
    rewrite IH, add_part_total. ring.
Qed.

Lemma upstreamCostBuckets_total pt t b :
  upstreamCostBuckets pt t = Ok b ->
  exists x, tool_amount pt (map_to_list (tk_ToolCalls t)) = Ok x /\
    (total b == rat_sum (map (add_amount pt t) (token_adds t)) + x)%Q.
Proof.
  unfold upstreamCostBuckets. intros H.
  pose proof (add_tools_total pt (map_to_list (tk_ToolCalls t))
    (fold_left (add_tokens pt t) (token_adds t) newExactBuckets)) as Ht.
  rewrite H in Ht. destruct (tool_amount _ _) as [x|]; [|done].
  exists x. split; [done|]. rewrite Ht, token_total.
  unfold total at 1. cbn. ring.
Qed.

(** ** Properties *)

Definition sample_rates : Rates := mkRates 12000 9000 0 (lit "7.2").
Definition sample_tokens : Tokens :=
  mkTokens 1200 340 100 50 0 0 0 0 20 30 "priority" {[ "web_search"%string := 2 ]}.
Definition sample_list : PriceTable :=
  WithToolPrices (NewPriceTable (mkPrice 2500000000 10000000000 250000000 3000000000)
    [mkDimensionRow BucketIn TierPriority VariantNone 0 4000000001])
    [mkToolRow "web_search" 10000000].
Definition sample_cost : PriceTable :=
  WithToolPrices (Flat (mkPrice 1 2 3 4)) [mkToolRow "web_search" 7].

(** C35: one rounding, upwards.  Both amounts of a quote cover the exact rational
    they stand for and exceed it by less than one nano: a charge is never
    rounded down, and no rounding happens before the sum is complete. *)
Theorem quote_rounds_up_once l c t r q :
  Compute l c t r = Ok q ->
  exists r' fx ub cb,
    normalize r = Ok r' /\ parse_fx (FXRate r') = Ok fx /\
    upstreamCostBuckets c t = Ok ub /\ upstreamCostBuckets l t = Ok cb /\
    (total ub * bps (ProcurementMultiplierBps r') <= inject_Z (UpstreamUSDNano q))%Q /\
    (inject_Z (UpstreamUSDNano q) < total ub * bps (ProcurementMultiplierBps r') + 1)%Q /\
    (charged_rat (total cb) fx r' <= inject_Z (ChargedNano q))%Q /\
    (inject_Z (ChargedNano q) < charged_rat (total cb) fx r' + 1)%Q /\
    int64_range (UpstreamUSDNano q) /\ int64_range (ChargedNano q).
Proof.
  intros (r' & fx & ub & cb & _ & Hr & Hfx & Hu & Hc & Hq)%Compute_ok.
  apply quoteFrom_ok in Hq as (H1 & H2 & _).
  exists r', fx, ub, cb.
  pose proof (ceilToInt64_bounds _ _ H1) as [? ?].
  pose proof (ceilToInt64_bounds _ _ H2) as [? ?].
  apply ceilToInt64_ok in H1 as [_ ?], H2 as [_ ?]. auto 12.
Qed.

Definition sample_quote : Quote := mkQuote 15 220644001 12000 9000 10000 (lit "7.2").

Lemma quote_rounds_up_once_witness :
  Compute sample_list sample_cost sample_tokens sample_rates = Ok sample_quote /\
  exists r' fx ub cb,
    normalize sample_rates = Ok r' /\ parse_fx (FXRate r') = Ok fx /\
    upstreamCostBuckets sample_cost sample_tokens = Ok ub /\
    upstreamCostBuckets sample_list sample_tokens = Ok cb /\
    (total ub * bps (ProcurementMultiplierBps r') <= inject_Z (UpstreamUSDNano sample_quote))%Q /\
    (inject_Z (UpstreamUSDNano sample_quote) < total ub * bps (ProcurementMultiplierBps r') + 1)%Q /\
    (charged_rat (total cb) fx r' <= inject_Z (ChargedNano sample_quote))%Q /\
    (inject_Z (ChargedNano sample_quote) < charged_rat (total cb) fx r' + 1)%Q /\
    int64_range (UpstreamUSDNano sample_quote) /\ int64_range (ChargedNano sample_quote).
Proof.
  assert (H : Compute sample_list sample_cost sample_tokens sample_rates = Ok sample_quote)
    by (vm_compute; reflexivity).
  split; [exact H|]. exact (quote_rounds_up_once _ _ _ _ _ H).
Defined.

(** Routing never moves the bill.  Two successful computations that differ
    only in the serving route's cost table and procurement multiplier charge
    the customer the same amount. *)
Theorem charge_independent_of_route l c1 c2 t r p1 p2 q1 q2 :
  Compute l c1 t (mkRates (ModelMultiplierBps r) (PlanMultiplierBps r) p1 (FXRate r)) = Ok q1 ->
  Compute l c2 t (mkRates (ModelMultiplierBps r) (PlanMultiplierBps r) p2 (FXRate r)) = Ok q2 ->
  ChargedNano q1 = ChargedNano q2 /\
  q_ModelMultiplierBps q1 = q_ModelMultiplierBps q2 /\
  q_PlanMultiplierBps q1 = q_PlanMultiplierBps q2 /\ q_FXRate q1 = q_FXRate q2.
Proof.
  intros (r1 & fx1 & u1 & b1 & _ & Hr1 & Hf1 & _ & Hb1 & Hq1)%Compute_ok
         (r2 & fx2 & u2 & b2 & _ & Hr2 & Hf2 & _ & Hb2 & Hq2)%Compute_ok.
  apply normalize_ok in Hr1 as (_ & _ & _ & Hm1 & Hp1 & _ & Hx1 & _).
  apply normalize_ok in Hr2 as (_ & _ & _ & Hm2 & Hp2 & _ & Hx2 & _).
  cbn in *. rewrite Hx1 in Hf1. rewrite Hx2 in Hf2.
  apply quoteFrom_ok in Hq1 as (_ & Hc1 & ? & ? & _ & ?).
  apply quoteFrom_ok in Hq2 as (_ & Hc2 & ? & ? & _ & ?).
  assert (fx1 = fx2) as -> by congruence. assert (b1 = b2) as -> by congruence.
  unfold charged_rat in *. rewrite Hm1, Hp1 in Hc1. rewrite Hm2, Hp2 in Hc2.
  split_and!; congruence.
Qed.

Lemma charge_independent_of_route_witness :
  exists q1 q2,
    Compute sample_list sample_cost sample_tokens (mkRates 12000 9000 5000 (lit "7.2")) = Ok q1 /\
    Compute sample_list sample_list sample_tokens (mkRates 12000 9000 0 (lit "7.2")) = Ok q2 /\
    UpstreamUSDNano q1 <> UpstreamUSDNano q2 /\ ChargedNano q1 = ChargedNano q2.
Proof.
  eexists _, _. split; [vm_compute; reflexivity|]. split; [vm_compute; reflexivity|].
  split; [vm_compute; discriminate|].
  apply (charge_independent_of_route sample_list sample_cost sample_list sample_tokens
    sample_rates 5000 0); vm_compute; reflexivity.
Defined.

(** *** Free models *)

Lemma free_add_amount pt t c :
  billingFree pt = true -> (add_amount pt t c == 0)%Q.
Proof.
  intros H. destruct c as [[[n b] v] i]. unfold add_amount, lookup_rate. rewrite H.
  by rewrite Z.mul_0_r.
Qed.

Lemma free_tool_amount pt l x :
  billingFree pt = true -> tool_amount pt l = Ok x -> (x == 0)%Q.
Proof.
  intros H. revert x. induction l as [|[tool calls] l IH]; intros x; cbn [tool_amount].
  - by intros [= <-].
  - destruct (calls <=? 0); [apply IH|]. unfold lookupToolPrice. rewrite H.
    destruct (tool_amount pt l) as [y|]; [|done]. cbn [rbind]. intros [= <-].
    rewrite (IH y eq_refl), Z.mul_0_r. done.
Qed.

Lemma rat_sum_zero l : Forall (fun x => x == 0)%Q l -> (rat_sum l == 0)%Q.
Proof. induction 1 as [|x l Hx _ IH]; [done|]. cbn. unfold rat_sum in IH. by rewrite Hx, IH. Qed.

(** A model declared free charges nothing and still records its real cost:
    billing through the free view gives a zero charge, and the upstream cost of
    the quote is the one the priced view would have recorded. *)
Theorem free_model_charges_zero_keeps_cost l c t r q :
  Compute (ForBilling l true) c t r = Ok q ->
  ChargedNano q = 0 /\
  forall q', Compute (ForBilling l false) c t r = Ok q' -> UpstreamUSDNano q' = UpstreamUSDNano q.
Proof.
  intros (r' & fx & ub & cb & _ & Hr & Hfx & Hu & Hc & Hq)%Compute_ok.
  apply quoteFrom_ok in Hq as (H1 & H2 & _). split.
  - revert H2. apply ceilToInt64_zero. unfold charged_rat.
    apply upstreamCostBuckets_total in Hc as (x & Hx & ->).
    rewrite (free_tool_amount (ForBilling l true) _ x eq_refl Hx).
    rewrite rat_sum_zero; [ring|].
    apply Forall_forall. intros y Hy. apply list_elem_of_In, list_elem_of_fmap in Hy as (z & -> & _).
    by apply free_add_amount.
  - intros q' (r2 & fx2 & ub2 & cb2 & _ & Hr2 & Hfx2 & Hu2 & Hc2 & Hq2)%Compute_ok.
    apply quoteFrom_ok in Hq2 as (H1' & _). congruence.
Qed.

Lemma free_model_charges_zero_keeps_cost_witness :
  exists q, Compute (ForBilling sample_list true) sample_cost sample_tokens sample_rates = Ok q /\
    UpstreamUSDNano q = 15 /\ ChargedNano q = 0 /\
    forall q', Compute (ForBilling sample_list false) sample_cost sample_tokens sample_rates = Ok q' ->
      UpstreamUSDNano q' = UpstreamUSDNano q.
Proof.
  eexists. split; [vm_compute; reflexivity|]. split; [reflexivity|].
  apply (free_model_charges_zero_keeps_cost sample_list sample_cost sample_tokens sample_rates).
  vm_compute. reflexivity.
Defined.

(** Usage on a tool the pinned price does not name is never billed as
    free: when any tool with a positive call count has no rate, the quote fails
    with the missing-price error, whatever the iteration order of the map. *)
Theorem missing_tool_price_refuses pt order t parts tool calls :
  order ≡ₚ map_to_list (tk_ToolCalls t) ->
  tk_ToolCalls t !! tool = Some calls -> 0 < calls -> lookupToolPrice pt tool = None ->
  exists tool', add_tools pt order parts = Err (ErrAdvancedPriceMissing tool') /\
    lookupToolPrice pt tool' = None.
Proof.
  intros Hp Ht Hc Hn. apply elem_of_map_to_list in Ht. rewrite <- Hp in Ht. clear Hp.
  revert parts. induction order as [|[tool0 calls0] order IH]; intros parts; [set_solver|].
  cbn [add_tools]. apply elem_of_cons in Ht as [[= <- <-]|Ht].
  - rewrite (proj2 (Z.leb_gt _ _)) by lia. rewrite Hn. eauto.
  - destruct (calls0 <=? 0); [by apply IH|].
    destruct (lookupToolPrice pt tool0) eqn:E; [by apply IH|eauto].
Qed.

Lemma missing_tool_price_refuses_witness :
  exists tool', add_tools (Flat zero_price) (map_to_list (tk_ToolCalls sample_tokens))
     newExactBuckets = Err (ErrAdvancedPriceMissing tool') /\
     lookupToolPrice (Flat zero_price) tool' = None.
Proof.
  apply (missing_tool_price_refuses (Flat zero_price) _ sample_tokens newExactBuckets
    "web_search" 2).
  - apply Permutation_refl.
  - reflexivity.
  - lia.
  - reflexivity.
Defined.

(** *** Pre-authorization *)

Lemma check_counts_ok vs :
  check_counts vs = Ok tt <-> Forall (fun v => 0 <= v <= maxSaneTokens) vs.
Proof.
  induction vs as [|v vs IH]; cbn [check_counts]; [by split|].
  rewrite Forall_cons_iff, <- IH.
  destruct (Z.ltb_spec v 0), (Z.ltb_spec maxSaneTokens v); cbn [orb];
    (split; [intros H2|intros [H2 H3]]); try done; try lia.
Qed.

Lemma ValidateTokens_counts t :
  ValidateTokens t = Ok tt ->
  Forall (fun v => 0 <= v <= maxSaneTokens)
    [tk_In t; tk_Out t; tk_CachedRead t; tk_CacheWrite t; tk_AudioIn t; tk_AudioOut t;
     tk_ImageIn t; tk_CacheWrite5m t; tk_CacheWrite1h t] /\
  tk_AudioIn t <= tk_In t /\ tk_AudioOut t <= tk_Out t /\ tk_ImageIn t <= tk_In t /\
  tk_CacheWrite5m t + tk_CacheWrite1h t <= tk_CacheWrite t.
Proof.
  unfold ValidateTokens. intros ([] & H & H')%rbind_ok. rewrite check_counts_ok in H.
  split; [done|]. rewrite !Forall_cons_iff in H.
  repeat step_case_in H'; try done. bool_prop.
  rewrite wrap64_id in * by (unfold min_int64, max_int64, maxSaneTokens in *; lia). lia.
Qed.

Lemma wrap64_sub_sane a b c :
  0 <= a <= maxSaneTokens -> 0 <= b <= maxSaneTokens -> 0 <= c <= maxSaneTokens ->
  wrap64 (wrap64 (a - b) - c) = a - b - c.
Proof.
  intros. unfold maxSaneTokens in *. rewrite !wrap64_id; [done|..];
    rewrite ?wrap64_id; unfold min_int64, max_int64; lia.
Qed.

Lemma nonNeg_max v : nonNeg v = Z.max 0 v.
Proof. unfold nonNeg. destruct (Z.ltb_spec v 0); lia. Qed.

Lemma frac_add a b d : (frac a d + frac b d == frac (a + b) d)%Q.
Proof. unfold frac, Qeq, Qplus. cbn. lia. Qed.

(** The cost of plain text usage. *)
Lemma text_total pt i o b :
  ValidateTokens (text_tokens i o) = Ok tt ->
  upstreamCostBuckets pt (text_tokens i o) = Ok b ->
  (total b == frac (i * lookup_rate pt BucketIn TierStandard VariantNone i
                    + o * lookup_rate pt BucketOut TierStandard VariantNone i) tokensPerMTok)%Q.
Proof.
  intros Hv Hb. apply ValidateTokens_counts in Hv as (Hv & _).
  rewrite !Forall_cons_iff in Hv. cbn in Hv.
  apply upstreamCostBuckets_total in Hb as (x & Hx & ->).
  assert (ContextTokens (text_tokens i o) = i) as Hctx.
  { unfold ContextTokens. cbn. rewrite !wrap64_id; [lia|..];
      rewrite ?wrap64_id; unfold min_int64, max_int64, maxSaneTokens in *; lia. }
  assert (x = 0%Q) as -> by (vm_compute in Hx; congruence).
  cbn [token_adds text_tokens tk_In tk_Out tk_CachedRead tk_CacheWrite tk_AudioIn tk_AudioOut
       tk_ImageIn tk_ImageOut tk_CacheWrite5m tk_CacheWrite1h Z.ltb Z.compare orb app map
       add_amount rat_sum fold_right].
  rewrite Hctx, !wrap64_sub_sane, !nonNeg_max by (unfold maxSaneTokens in *; lia).
  change (tier (text_tokens i o)) with TierStandard.
  rewrite !Z.sub_0_r, !Z.max_r by lia. rewrite !Z.mul_0_l, !frac_zero, <- frac_add. ring.
Qed.

Lemma bps_nonneg v : 0 <= v -> (0 <= bps v)%Q.
Proof. intros H. unfold bps, frac, Qle. cbn. lia. Qed.

Lemma charged_rat_mono a b fx r :
  1 <= ModelMultiplierBps r -> 1 <= PlanMultiplierBps r -> (0 < fx)%Q ->
  (a <= b)%Q -> (charged_rat a fx r <= charged_rat b fx r)%Q.
Proof.
  intros Hm Hp Hfx Hab. unfold charged_rat.
  repeat apply Qmult_le_compat_r; try (by apply Qlt_le_weak); try apply bps_nonneg; lia || done.
Qed.

(** What the in and out buckets of a plain request are priced at. *)
Lemma text_rate_below_ceiling p rows bucket n :
  bucket = BucketIn \/ bucket = BucketOut ->
  (forall r, r ∈ rows -> row_key r = (bucket, TierStandard, VariantNone) -> 0 < dr_min r) ->
  lookup_rate (NewPriceTable p rows) bucket TierStandard VariantNone n
  <= Z.max (bucket_rate p bucket) (bucket_rate (LongContextCeiling (NewPriceTable p rows)) bucket).
Proof.
  intros Hb Hrows. unfold lookup_rate, lookupDimensionRate, withinTier.
  replace (billingFree _) with false by (by destruct rows).
  rewrite (bool_decide_eq_true_2 (VariantNone = VariantNone)) by done. cbn [negb].
  destruct (first_band _ n) as [v|] eqn:E.
  - apply first_band_some in E as (b & Hin & _ & <- & _); [|apply NewPriceTable_bands].
    etrans; [|apply Z.le_max_r].
    assert (Hb' : bucket ∈ base_buckets)
      by (destruct Hb as [->| ->]; unfold base_buckets; set_solver).
    assert (Hfree : billingFree (NewPriceTable p rows) = false) by (by destruct rows).
    apply (proj1 (long_context_ceiling _ _ Hfree Hb') _ _ _ Hin).
    apply NewPriceTable_band_in in Hin as (r & Hr & Hk & ->). by apply Hrows.
  - rewrite (bool_decide_eq_true_2 (TierStandard = TierStandard)) by done. cbn [orb].
    replace (baseOf _ bucket) with (bucket_rate p bucket) by (by destruct rows). lia.
Qed.

Lemma dearer_rate b c bucket :
  bucket = BucketIn \/ bucket = BucketOut ->
  bucket_rate (dearerOf b c) bucket = Z.max (bucket_rate b bucket) (bucket_rate c bucket).
Proof.
  intros [->| ->]; unfold bucket_rate, baseOf, dearerOf; decide_closed; cbn;
    step_case; bool_prop; lia.
Qed.

Lemma Estimate_ok i h :
  Estimate i = Ok h ->
  exists q, Compute (Flat (dearerOf (ei_Price i) (ei_LongContext i)))
      (Flat (dearerOf (ei_Price i) (ei_LongContext i)))
      (text_tokens (ei_InputTokens i) (estimate_out i)) (ei_Rates i) = Ok q /\
    h = Z.max 1 (ChargedNano q).
Proof.
  unfold Estimate. destruct (_ || _); [done|]. cbn zeta.
  intros (q & Hq & H)%rbind_ok. exists q. split; [done|].
  destruct (Z.leb_spec (ChargedNano q) 0); injection H as <-; lia.
Qed.

(** The charge of a normalised quote reads the customer's multipliers only. *)
Lemma charged_rat_rates a fx r r' :
  ModelMultiplierBps r = ModelMultiplierBps r' -> PlanMultiplierBps r = PlanMultiplierBps r' ->
  charged_rat a fx r = charged_rat a fx r'.
Proof. unfold charged_rat. by intros -> ->. Qed.

(** The held rate of the side a contribution is on. *)
Definition side_rate (held : Price) (i : contribution) : Z :=
  match i with COutput => bucket_rate held BucketOut | _ => bucket_rate held BucketIn end.

(** No token of [t] is priced above the held rate of its side: fresh, cached, written,
    audio and image prompt tokens above the prompt's, nor any output token above the
    output's. *)
Definition priced_within (pt : PriceTable) (held : Price) (t : Tokens) : Prop :=
  Forall (fun '(n, bucket, variant, i) =>
    n = 0 \/ lookup_rate pt bucket (tier t) variant (ContextTokens t) <= side_rate held i) (token_adds t).

(** The measured figures stay within the estimated ones: the whole prompt, what was
    read from and written to the cache included, the whole output, and no tool. *)
Definition within_figures (t : Tokens) (input output : Z) : Prop :=
  tk_In t + tk_CachedRead t + tk_CacheWrite t <= input /\ tk_Out t <= output /\
  tk_AudioIn t + tk_ImageIn t <= tk_In t /\
  0 <= tk_ImageOut t /\ tk_AudioOut t + tk_ImageOut t <= tk_Out t /\
  map_Forall (fun _ calls => calls <= 0) (tk_ToolCalls t).

Lemma text_within_figures i o input output :
  i <= input -> o <= output -> 0 <= i -> 0 <= o -> within_figures (text_tokens i o) input output.
Proof. intros. unfold within_figures. cbn. split_and!; try lia. apply map_Forall_empty. Qed.

(** Plain text is, when the two standard rates are within. *)
Lemma text_priced list held i o :
  (forall bucket n, bucket = BucketIn \/ bucket = BucketOut ->
     lookup_rate list bucket TierStandard VariantNone n <= bucket_rate held bucket) ->
  0 <= i <= maxSaneTokens -> 0 <= o <= maxSaneTokens -> priced_within list held (text_tokens i o).
Proof.
  intros Hlist Hi Ho. unfold priced_within, token_adds.
  cbn [text_tokens tk_In tk_Out tk_CachedRead tk_CacheWrite tk_AudioIn tk_AudioOut
       tk_ImageIn tk_ImageOut tk_CacheWrite5m tk_CacheWrite1h Z.ltb Z.compare orb app].
  change (tier (text_tokens i o)) with TierStandard.
  repeat apply Forall_cons_2; try (by left); right; apply Hlist; auto.
Qed.

Definition side_amount (held : Price) (c : Z * string * string * contribution) : Z :=
  let '(n, _, _, i) := c in n * side_rate held i.

Lemma adds_within pt held t cs :
  Forall (fun '(n, bucket, variant, i) =>
    n = 0 \/ lookup_rate pt bucket (tier t) variant (ContextTokens t) <= side_rate held i) cs ->
  Forall (fun '(n, _, _, _) => 0 <= n) cs ->
  (rat_sum (map (add_amount pt t) cs) <= frac (fold_right Z.add 0%Z (map (side_amount held) cs)) tokensPerMTok)%Q.
Proof.
  induction 1 as [|[[[n b] v] i] cs Hc _ IH]; intros Hn; [done|].
  apply Forall_cons_iff in Hn as [Hn Hns]. cbn [map rat_sum fold_right add_amount side_amount].
  rewrite <- frac_add. apply Qplus_le_compat; [|by apply IH].
  unfold frac, Qle. cbn [Qnum Qden]. apply Z.mul_le_mono_nonneg_r; [lia|].
  destruct Hc as [->|Hc]; [lia|]. by apply Z.mul_le_mono_nonneg_l.
Qed.

Lemma no_tool_amount pt l :
  Forall (fun '(_, calls) => calls <= 0) l -> tool_amount pt l = Ok 0%Q.
Proof.
  induction 1 as [|[tool calls] l Hc _ IH]; cbn [tool_amount]; [done|].
  by rewrite (proj2 (Z.leb_le _ _) Hc).
Qed.

Lemma sides_add_up held t :
  ValidateTokens t = Ok tt ->
  tk_AudioIn t + tk_ImageIn t <= tk_In t -> 0 <= tk_ImageOut t -> tk_AudioOut t + tk_ImageOut t <= tk_Out t ->
  Forall (fun '(n, _, _, _) => 0 <= n) (token_adds t) /\
  fold_right Z.add 0 (map (side_amount held) (token_adds t)) =
    (tk_In t + tk_CachedRead t + tk_CacheWrite t) * bucket_rate held BucketIn
    + tk_Out t * bucket_rate held BucketOut.
Proof.
  intros (Hv & Ha & Hb & Hc & Hd)%ValidateTokens_counts Hin Hio Hout.
  rewrite !Forall_cons_iff in Hv. destruct Hv as (?&?&?&?&?&?&?&?&?&_).
  unfold token_adds.
  rewrite !wrap64_sub_sane, !nonNeg_max by (unfold maxSaneTokens in *; lia).
  destruct (_ || _) eqn:E; cbn [app map fold_right side_amount side_rate].
  - split; [repeat apply Forall_cons_2; try lia; constructor|].
    rewrite !Z.max_r by lia. ring.
  - apply orb_false_iff in E as [?%Z.ltb_ge ?%Z.ltb_ge].
    split; [repeat apply Forall_cons_2; try lia; constructor|].
    rewrite !Z.max_r by lia. ring.
Qed.

Lemma total_within pt held t b input output :
  0 <= bucket_rate held BucketIn -> 0 <= bucket_rate held BucketOut ->
  ValidateTokens t = Ok tt -> upstreamCostBuckets pt t = Ok b ->
  within_figures t input output -> priced_within pt held t ->
  (total b <= frac (input * bucket_rate held BucketIn + output * bucket_rate held BucketOut) tokensPerMTok)%Q.
Proof.
  intros HI HO Hv Hb (Hin & Hout & Hsub & Himg & Hsubo & Htools) Hpriced.
  destruct (sides_add_up held t Hv Hsub Himg Hsubo) as [Hpos Hsum].
  apply upstreamCostBuckets_total in Hb as (x & Hx & ->).
  rewrite no_tool_amount in Hx by (apply map_Forall_to_list in Htools; eapply Forall_impl; [|exact Htools];
    by intros [? ?]).
  injection Hx as <-. rewrite Qplus_0_r.
  eapply Qle_trans; [apply adds_within; [exact Hpriced|exact Hpos]|]. rewrite Hsum.
  unfold frac, Qle. cbn [Qnum Qden]. apply Z.mul_le_mono_nonneg_r; [lia|].
  apply Z.add_le_mono; by apply Z.mul_le_mono_nonneg_r.
Qed.

(** A hold covers what the list charges for tokens within its figures that the list
    prices within its rates, also when the rates differ in what the upstream costs. *)
Lemma hold_covers_list list p ceil it mo cap ig r r' c t h q :
  0 <= bucket_rate p BucketIn -> 0 <= bucket_rate p BucketOut ->
  ModelMultiplierBps r' = ModelMultiplierBps r -> PlanMultiplierBps r' = PlanMultiplierBps r ->
  FXRate r' = FXRate r ->
  Estimate (mkEstimate p ceil it mo cap ig r) = Ok h ->
  within_figures t it (estimate_out (mkEstimate p ceil it mo cap ig r)) ->
  priced_within list (dearerOf p ceil) t ->
  Compute list c t r' = Ok q ->
  ChargedNano q <= h.
Proof.
  intros HpI HpO Hmm Hpm Hfx (q' & Hq' & ->)%Estimate_ok Hfig Hpriced Hq.
  cbn [ei_Price ei_LongContext ei_InputTokens ei_Rates] in *. set (out := estimate_out _) in *.
  apply Compute_ok in Hq as (r1 & fx & u1 & b1 & Hv1 & Hr1 & Hf1 & _ & Hb1 & Hq).
  apply Compute_ok in Hq' as (r2 & fx2 & u2 & b2 & Hv2 & Hr2 & Hf2 & _ & Hb2 & Hq').
  apply normalize_ok in Hr1 as (Hm & Hp & _ & Hm1 & Hp1 & _ & Hx1 & _).
  apply normalize_ok in Hr2 as (_ & _ & _ & Hm2 & Hp2 & _ & Hx2 & _).
  assert (fx2 = fx) as -> by congruence.
  apply quoteFrom_ok in Hq as (_ & Hc1 & _), Hq' as (_ & Hc2 & _).
  rewrite (charged_rat_rates _ _ r2 r1) in Hc2 by congruence.
  transitivity (ChargedNano q'); [|lia].
  eapply ceilToInt64_mono; [|exact Hc1|exact Hc2].
  apply charged_rat_mono; [lia|lia|by eapply parse_fx_pos|].
  rewrite (text_total _ _ _ _ Hv2 Hb2), !Flat_rate.
  fold (bucket_rate (dearerOf p ceil) BucketIn). fold (bucket_rate (dearerOf p ceil) BucketOut).
  eapply total_within; try done; rewrite dearer_rate by auto; lia.
Qed.

(** What an accepted charge counts as plain text. *)
Lemma Compute_text_counts list c i o r q :
  Compute list c (text_tokens i o) r = Ok q -> 0 <= i <= maxSaneTokens /\ 0 <= o <= maxSaneTokens.
Proof.
  intros (r1 & fx & u & b & (Hv & _)%ValidateTokens_counts & _)%Compute_ok.
  rewrite !Forall_cons_iff in Hv. cbn in Hv. tauto.
Qed.

(** C12: the hold covers the bill.  A charge is at most what was held when the whole
    measured prompt (cached, written, audio and image tokens included) and output
    stay within the figures the hold was computed on, no tool was called, and no
    bucket of them is priced above the held rate of its side: the dearer of the
    model's list rate and its long-context ceiling.  Plain text is always priced
    so, at any prompt length, unless an override of the standard in or out rate
    starts at zero tokens. *)
Theorem hold_covers_settlement p rows it mo cap ig r c t h q :
  0 <= InNanoPerMTok p -> 0 <= OutNanoPerMTok p ->
  Estimate (mkEstimate p (LongContextCeiling (NewPriceTable p rows)) it mo cap ig r) = Ok h ->
  within_figures t it (estimate_out (mkEstimate p (LongContextCeiling (NewPriceTable p rows)) it mo cap ig r)) ->
  Compute (NewPriceTable p rows) c t r = Ok q ->
  priced_within (NewPriceTable p rows) (dearerOf p (LongContextCeiling (NewPriceTable p rows))) t \/
  (exists i o, t = text_tokens i o) /\
  (forall row, row ∈ rows ->
     row_key row = (BucketIn, TierStandard, VariantNone) \/
     row_key row = (BucketOut, TierStandard, VariantNone) -> 0 < dr_min row) ->
  ChargedNano q <= h.
Proof.
  intros Hin Hout He Hfig Hq Hpriced.
  eapply (hold_covers_list (NewPriceTable p rows) p); try done.
  destruct Hpriced as [Hp|[(i & o & ->) Hrows]]; [exact Hp|].
  apply Compute_text_counts in Hq as [Hi Ho]. apply text_priced; [|done..].
  intros bucket n Hb. rewrite dearer_rate by done. apply text_rate_below_ceiling; [done|].
  intros row Hr Hk. apply (Hrows row Hr). rewrite Hk. by destruct Hb as [->| ->]; [left|right].
Qed.

Definition long_rows : list DimensionRow :=
  [mkDimensionRow BucketIn TierStandard VariantNone 200001 6000000000].

(** A long prompt in plain text, and one partly read from and written to the cache. *)
Lemma hold_covers_settlement_witness :
  let p := mkPrice 3000000000 15000000000 300000000 3000000000 in
  let t := mkTokens 1000 100 200000 4000 0 0 0 0 0 0 "" ∅ in
  exists h q q',
    Estimate (mkEstimate p (LongContextCeiling (NewPriceTable p long_rows)) 250000 0 4096 false sample_rates)
      = Ok h /\
    Compute (NewPriceTable p long_rows) sample_cost (text_tokens 240000 100) sample_rates = Ok q /\
    Compute (NewPriceTable p long_rows) sample_cost t sample_rates = Ok q' /\
    0 < ChargedNano q <= h /\ 0 < ChargedNano q' <= h.
Proof.
  cbv zeta. eexists _, _, _. split; [vm_compute; reflexivity|]. split; [vm_compute; reflexivity|].
  split; [vm_compute; reflexivity|]. split; (split; [vm_compute; reflexivity|]).
  - eapply (hold_covers_settlement (mkPrice 3000000000 15000000000 300000000 3000000000) long_rows 250000 0 4096
      false sample_rates sample_cost (text_tokens 240000 100)).
    + simpl. lia.
    + simpl. lia.
    + vm_compute. reflexivity.
    + apply text_within_figures; vm_compute; discriminate.
    + vm_compute. reflexivity.
    + right. split; [by eexists _, _|]. intros row Hr _. unfold long_rows in Hr.
      apply list_elem_of_singleton in Hr as ->. simpl. lia.
  - eapply (hold_covers_settlement (mkPrice 3000000000 15000000000 300000000 3000000000) long_rows 250000 0 4096
      false sample_rates sample_cost (mkTokens 1000 100 200000 4000 0 0 0 0 0 0 "" ∅)).
    + simpl. lia.
    + simpl. lia.
    + vm_compute. reflexivity.
    + unfold within_figures. split_and!; try (vm_compute; discriminate).
    + vm_compute. reflexivity.
    + left. unfold priced_within. repeat apply Forall_cons_2; try (by left);
        right; vm_compute; discriminate.
Defined.

(** A hold is always positive, whatever the price: a free or zero-priced
    model still reserves the minimum amount the billing layer accepts. *)
Theorem estimate_positive i h : Estimate i = Ok h -> 1 <= h <= max_int64.
Proof.
  intros (q & (r' & fx & u & b & _ & _ & _ & _ & _ & Hq)%Compute_ok & ->)%Estimate_ok.
  apply quoteFrom_ok in Hq as (_ & [_ H]%ceilToInt64_ok & _).
  unfold max_int64 in *. lia.
Qed.

Lemma estimate_positive_witness :
  Estimate (mkEstimate zero_price zero_price 10 0 0 false sample_rates) = Ok 1 /\
  1 <= 1 <= max_int64.
Proof.
  split; [vm_compute; reflexivity|].
  apply (estimate_positive (mkEstimate zero_price zero_price 10 0 0 false sample_rates)).
  vm_compute. reflexivity.
Defined.

(** *** The exact contributions are the quote, bucket by bucket *)

Lemma scale_total b ms :
  (total (scaleExactBuckets b ms) == fold_left Qmult ms (total b))%Q.
Proof.
  assert (H : forall ms x y, (fold_left Qmult ms (x + y) == fold_left Qmult ms x + fold_left Qmult ms y)%Q).
  { intros l. induction l as [|m l IH]; intros x y; cbn [fold_left]; [done|].
    rewrite <- IH. assert (Hp : Proper (Qeq ==> Qeq) (fold_left Qmult l)).
    { clear. induction l as [|m l IH]; intros x y Hxy; cbn [fold_left]; [done|].
      apply IH. by rewrite Hxy. }
    apply Hp. ring. }
  assert (H0 : (fold_left Qmult ms 0 == 0)%Q).
  { specialize (H ms 0%Q 0%Q).
    assert (Hp : forall l, Proper (Qeq ==> Qeq) (fold_left Qmult l)).
    { clear. intros l. induction l as [|m l IH]; intros x y Hxy; cbn [fold_left]; [done|].
      apply IH. by rewrite Hxy. }
    rewrite (Hp ms (0 + 0)%Q 0%Q ltac:(ring)) in H.
    set (z := fold_left Qmult ms 0%Q) in *.
    rewrite <- (Qplus_inj_l _ _ z), <- H. ring. }
  unfold total, scaleExactBuckets, buckets_list. cbn [fold_left exactInput exactOutput
    exactCacheRead exactCacheWrite exactTools]. rewrite !H, H0. done.
Qed.

(** The per-bucket oracle and the production path agree: whenever the
    exact contributions exist and the quote does, the quote is each side's
    five unrounded contributions, summed and rounded up once. *)
Theorem exact_contributions_match_quote l c t r e q :
  ComputeExactContributions l c t r = Ok e -> Compute l c t r = Ok q ->
  exists procurement charged,
    ec_UpstreamCost e = snapshotExactBuckets procurement /\
    ec_Charged e = snapshotExactBuckets charged /\
    ceilToInt64 (total procurement) = Ok (UpstreamUSDNano q) /\
    ceilToInt64 (total charged) = Ok (ChargedNano q).
Proof.
  intros He (r' & fx & ub & cb & Hv & Hr & Hfx & Hu & Hc & Hq)%Compute_ok.
  unfold ComputeExactContributions in He.
  rewrite Hv, Hr in He. cbn [rbind] in He. rewrite Hfx in He. cbn [rbind] in He.
  rewrite Hu in He. cbn [rbind] in He. rewrite Hc in He. injection He as <-.
  apply quoteFrom_ok in Hq as (H1 & H2 & _).
  eexists _, _. split_and!; [reflexivity|reflexivity| |]; rewrite scale_total; cbn [fold_left].
  - exact H1.
  - exact H2.
Qed.

Lemma exact_contributions_match_quote_witness :
  exists e q, ComputeExactContributions sample_list sample_cost sample_tokens sample_rates = Ok e /\
    Compute sample_list sample_cost sample_tokens sample_rates = Ok q /\
    exists procurement charged,
      ec_UpstreamCost e = snapshotExactBuckets procurement /\
      ec_Charged e = snapshotExactBuckets charged /\
      ceilToInt64 (total procurement) = Ok (UpstreamUSDNano q) /\
      ceilToInt64 (total charged) = Ok (ChargedNano q).
Proof.
  eexists _, _. split; [vm_compute; reflexivity|]. split; [vm_compute; reflexivity|].
  eapply (exact_contributions_match_quote sample_list sample_cost sample_tokens sample_rates);
    vm_compute; reflexivity.
Defined.

(** A request on the organization's own credential is charged the service
    fee only: the upstream cost is zero, the model multiplier plays no part,
    and the charge is the list cost times fee, plan and exchange rate, rounded
    up once. *)
Theorem byok_charges_fee_only p t fee r q :
  ComputeBYOK p t fee r = Ok q ->
  UpstreamUSDNano q = 0 /\ q_ModelMultiplierBps q = noDiscountBps /\
  exists fx cb, parse_fx (FXRate r) = Ok fx /\ upstreamCostBuckets p t = Ok cb /\
    let exact := (total cb * bps fee * bps (default_bps (PlanMultiplierBps r)) * fx)%Q in
    (exact <= inject_Z (ChargedNano q))%Q /\ (inject_Z (ChargedNano q) < exact + 1)%Q.
Proof.
  intros (r' & fx & cb & _ & _ & Hr & Hfx & Hcb & Hc & Hu & Hm)%ComputeBYOK_ok.
  apply normalize_ok in Hr as (_ & _ & _ & _ & Hp & _ & Hx & _). cbn in Hp, Hx.
  rewrite Hx in Hfx. rewrite Hp in Hc.
  split; [done|]. split; [done|]. exists fx, cb. split; [done|]. split; [done|].
  by apply ceilToInt64_bounds.
Qed.

Lemma byok_charges_fee_only_witness :
  exists q, ComputeBYOK sample_list sample_tokens 500 sample_rates = Ok q /\
    UpstreamUSDNano q = 0 /\ q_ModelMultiplierBps q = noDiscountBps /\
    exists fx cb, parse_fx (FXRate sample_rates) = Ok fx /\
      upstreamCostBuckets sample_list sample_tokens = Ok cb /\
      let exact := (total cb * bps 500 * bps (default_bps (PlanMultiplierBps sample_rates)) * fx)%Q in
      (exact <= inject_Z (ChargedNano q))%Q /\ (inject_Z (ChargedNano q) < exact + 1)%Q.
Proof.
  eexists. split; [vm_compute; reflexivity|].
  apply (byok_charges_fee_only sample_list sample_tokens 500 sample_rates).
  vm_compute. reflexivity.
Defined.

(** The token counts that are priced, in order. *)
Definition billed_counts (t : Tokens) : list Z :=
  map (fun c => fst (fst (fst c))) (token_adds t).

(** Every token is billed exactly once.  For validated usage whose audio
    and image figures are subsets of their side, the counts handed to the rate
    lookup are non-negative and sum to input, output and both cache buckets,
    with no 64-bit wrap-around anywhere. *)
Theorem tokens_billed_once t :
  ValidateTokens t = Ok tt ->
  tk_AudioIn t + tk_ImageIn t <= tk_In t ->
  0 <= tk_ImageOut t -> tk_AudioOut t + tk_ImageOut t <= tk_Out t ->
  fold_right Z.add 0 (billed_counts t) =
    tk_In t + tk_Out t + tk_CachedRead t + tk_CacheWrite t /\
  Forall (fun n => 0 <= n) (billed_counts t) /\
  ContextTokens t = tk_In t + tk_CachedRead t + tk_CacheWrite t.
Proof.
  intros (Hv & Ha & Hao & Hi & Hc)%ValidateTokens_counts Hin Hio Hout.
  rewrite !Forall_cons_iff in Hv.
  assert (Hctx : ContextTokens t = tk_In t + tk_CachedRead t + tk_CacheWrite t).
  { unfold ContextTokens. rewrite !wrap64_id; [done|..];
      rewrite ?wrap64_id; unfold min_int64, max_int64, maxSaneTokens in *; lia. }
  split_and!; [| |done]; unfold billed_counts, token_adds;
    rewrite !wrap64_sub_sane, !nonNeg_max by lia;
    destruct (Z.ltb_spec 0 (tk_CacheWrite5m t)), (Z.ltb_spec 0 (tk_CacheWrite1h t));
    cbn [orb app map fst fold_right]; rewrite ?Forall_cons_iff; repeat split; try lia;
    constructor.
Qed.

Lemma tokens_billed_once_witness :
  ValidateTokens sample_tokens = Ok tt /\
  fold_right Z.add 0 (billed_counts sample_tokens) = 1200 + 340 + 100 + 50 /\
  Forall (fun n => 0 <= n) (billed_counts sample_tokens) /\
  ContextTokens sample_tokens = 1200 + 100 + 50.
Proof.
  split; [vm_compute; reflexivity|].
  apply (tokens_billed_once sample_tokens).
  - vm_compute. reflexivity.
  - simpl. lia.
  - simpl. lia.
  - simpl. lia.
Defined.

(** [ValidateTokens] never looks at the image-output count: it accepts a
    report whose image output is negative, and the quote computed from it is a
    negative charge. *)
Theorem image_output_not_validated :
  exists t l q,
    ValidateTokens t = Ok tt /\ tk_ImageOut t < 0 /\
    (forall n, 0 <= lookup_rate l BucketOut TierStandard VariantNone n /\
               0 <= lookup_rate l BucketImageOut TierStandard VariantNone n) /\
    Compute l l t (mkRates 0 0 0 (lit "1")) = Ok q /\ ChargedNano q < 0.
Proof.
  exists (mkTokens 0 0 0 0 0 0 0 (-1000000) 0 0 "" ∅),
    (NewPriceTable (mkPrice 0 10 0 0) [mkDimensionRow BucketImageOut TierStandard VariantNone 0 40]),
    (mkQuote (-30) (-30) 10000 10000 10000 (lit "1")).
  split_and!; [by vm_compute|done| |by vm_compute|done].
  intros n. by destruct n; vm_compute.
Qed.
