(* ===== verification/UnitPricing.v ===== *)
(** * Per-unit prices: [internal/gateway/catalog/unit_price.go]

    What a model costs when it is billed per second, per call or per image.
    The rate key, its widening lookup, the billing unit of a rate card and the
    two quote computations, which share [quoteFrom] with the token path. *)
From S2P Require Import Prelude GoStr Rational PriceTable Pricing.

Open Scope Z_scope.

Definition UnitSecond : string := "second".
Definition UnitCall : string := "call".
Definition UnitImage : string := "image".
Definition KnownUnits : list string := [UnitSecond; UnitCall; UnitImage].

Record UnitKey := mkUnitKey {
  uk_Unit : string; uk_Resolution : string; uk_Audio : string; uk_Variant : string;
  uk_ServiceTier : string;
}.

#[export] Instance UnitKey_eq_dec : EqDecision UnitKey.
Proof. solve_decision. Defined.

#[export] Instance UnitKey_countable : Countable UnitKey.
Proof.
  apply (inj_countable'
    (fun k => (uk_Unit k, uk_Resolution k, uk_Audio k, uk_Variant k, uk_ServiceTier k))
    (fun '(u, r, a, v, t) => mkUnitKey u r a v t)).
  by intros [].
Defined.

Definition normalize_key (k : UnitKey) : UnitKey :=
  if bool_decide (uk_ServiceTier k = ""%string)
  then mkUnitKey (uk_Unit k) (uk_Resolution k) (uk_Audio k) (uk_Variant k) TierStandard
  else k.

(** [Units.Quantities]. *)
Abbreviation Units := (gmap UnitKey Z).

Inductive unit_error :=
  | ErrNegativeQuantity (k : UnitKey) (q : Z)
  | ErrUnknownUnit (u : string)
  | ErrUnitPriceMissing (k : UnitKey)
  | ErrNegativeUnitFee
  | ErrUnitFeeOverflow
  | ErrPricing (e : price_error).

Fixpoint validate_units (l : list (UnitKey * Z)) : result unit_error unit :=
  match l with
  | [] => Ok tt
  | (k, q) :: l' =>
      if q <? 0 then Err (ErrNegativeQuantity k q)
      else if negb (bool_decide (uk_Unit k ∈ KnownUnits)) then Err (ErrUnknownUnit (uk_Unit k))
      else validate_units l'
  end.
Definition ValidateUnits (u : Units) : result unit_error unit := validate_units (map_to_list u).

Record UnitPriceTable := mkUnitTable {
  ut_rates : gmap UnitKey Z;
  ut_billingFree : bool;
}.

Record UnitRow := mkUnitRow {
  ur_Unit : string; ur_Resolution : string; ur_Audio : string; ur_Variant : string;
  ur_ServiceTier : string; ur_NanoPerUnit : Z;
}.

Definition unit_row_key (r : UnitRow) : UnitKey :=
  normalize_key (mkUnitKey (ur_Unit r) (ur_Resolution r) (ur_Audio r) (ur_Variant r)
                   (ur_ServiceTier r)).

Definition NewUnitPriceTable (rows : list UnitRow) : UnitPriceTable :=
  mkUnitTable (fold_left (fun m r => <[unit_row_key r := ur_NanoPerUnit r]> m) rows ∅) false.

Definition ut_ForBilling (t : UnitPriceTable) (free : bool) : UnitPriceTable :=
  mkUnitTable (ut_rates t) free.

Definition ut_Empty (t : UnitPriceTable) : bool := bool_decide (ut_rates t = ∅).

Inductive billing_unit_error := ErrUnitAmbiguous | ErrNoUnit.

(** The loop of [BillingUnit] over the keys, in some iteration order. *)
Fixpoint billing_unit_loop (found : string) (keys : list UnitKey) :
    result billing_unit_error string :=
  match keys with
  | [] => if bool_decide (found = ""%string) then Err ErrNoUnit else Ok found
  | k :: keys' =>
      if bool_decide (found = ""%string) then billing_unit_loop (uk_Unit k) keys'
      else if negb (bool_decide (uk_Unit k = found)) then Err ErrUnitAmbiguous
      else billing_unit_loop found keys'
  end.

Definition BillingUnit (t : UnitPriceTable) : result billing_unit_error string :=
  billing_unit_loop "" (map fst (map_to_list (ut_rates t))).

(** The candidates of [Lookup], most specific first. *)
Definition lookup_candidates (k : UnitKey) : list UnitKey :=
  [ k;
    mkUnitKey (uk_Unit k) (uk_Resolution k) (uk_Audio k) "" (uk_ServiceTier k);
    mkUnitKey (uk_Unit k) (uk_Resolution k) "" "" (uk_ServiceTier k);
    mkUnitKey (uk_Unit k) "" "" "" (uk_ServiceTier k) ].

Fixpoint first_rate (rates : gmap UnitKey Z) (cs : list UnitKey) : option Z :=
  match cs with
  | [] => None
  | c :: cs' => match rates !! c with Some rate => Some rate | None => first_rate rates cs' end
  end.

Definition unit_Lookup (t : UnitPriceTable) (k : UnitKey) : option Z :=
  if ut_billingFree t then Some 0
  else first_rate (ut_rates t) (lookup_candidates (normalize_key k)).

Record UnitRateSnapshot := mkUnitSnap {
  us_Unit : string; us_Resolution : string; us_Audio : string; us_Variant : string;
  us_ServiceTier : string; us_NanoPerUnit : Z;
}.

Definition unit_snap_cmp (a b : UnitRateSnapshot) : comparison :=
  cmp_Or [String.compare (us_Unit a) (us_Unit b);
          String.compare (us_Resolution a) (us_Resolution b);
          String.compare (us_Audio a) (us_Audio b);
          String.compare (us_ServiceTier a) (us_ServiceTier b);
          String.compare (us_Variant a) (us_Variant b)].

Definition ut_Snapshot (t : UnitPriceTable) : list UnitRateSnapshot :=
  SortFunc unit_snap_cmp
    (map (fun '(k, rate) => mkUnitSnap (uk_Unit k) (uk_Resolution k) (uk_Audio k)
            (uk_Variant k) (uk_ServiceTier k) rate) (map_to_list (ut_rates t))).

(** The summing loop of [unitCost], in some iteration order. *)
Fixpoint unit_cost_loop (t : UnitPriceTable) (l : list (UnitKey * Z)) (total : rat) :
    result unit_error rat :=
  match l with
  | [] => Ok total
  | (k, quantity) :: l' =>
      if quantity =? 0 then unit_cost_loop t l' total
      else match unit_Lookup t k with
           | None => Err (ErrUnitPriceMissing k)
           | Some rate => unit_cost_loop t l' (total + frac (quantity * rate) 1)%Q
           end
  end.

Definition unitCost (t : UnitPriceTable) (u : Units) : result unit_error rat :=
  unit_cost_loop t (map_to_list u) 0%Q.

(** An error of the shared pricing code, seen from the unit path. *)
Definition pricing {A} (m : result price_error A) : result unit_error A :=
  match m with Ok a => Ok a | Err e => Err (ErrPricing e) end.

Definition ComputeUnits (list cost : UnitPriceTable) (u : Units) (r : Rates) :
    result unit_error Quote :=
  try _ <- ValidateUnits u;
  try r <- pricing (normalize r);
  try fx <- pricing (parse_fx (FXRate r));
  try upstream <- unitCost cost u;
  try charged <- unitCost list u;
  pricing (quoteFrom (upstream * bps (ProcurementMultiplierBps r))%Q charged fx r).

Definition ComputeUnitsBYOK (list : UnitPriceTable) (u : Units) (feeBps : Z) (r : Rates) :
    result unit_error Quote :=
  try _ <- ValidateUnits u;
  if feeBps <? 0 then Err ErrNegativeUnitFee
  else
    try r <- pricing (normalize (byok_rates r));
    try fx <- pricing (parse_fx (FXRate r));
    try charged <- unitCost list u;
    pricing (byok_quote charged fx feeBps r).

(** ** Properties *)

(** A rate key covers a requested key when unit and tier agree and every other
    axis agrees or is left open. *)
Definition covers (c k : UnitKey) : Prop :=
  uk_Unit c = uk_Unit k /\ uk_ServiceTier c = uk_ServiceTier k /\
  (uk_Resolution c = uk_Resolution k \/ uk_Resolution c = ""%string) /\
  (uk_Audio c = uk_Audio k \/ uk_Audio c = ""%string) /\
  (uk_Variant c = uk_Variant k \/ uk_Variant c = ""%string).

Lemma lookup_candidates_cover k c : c ∈ lookup_candidates k -> covers c k.
Proof.
  unfold lookup_candidates, covers.
  rewrite !elem_of_cons, elem_of_nil. intros [->|[->|[->|[->|[]]]]]; cbn; auto 10.
Qed.

Lemma first_rate_some rates cs v :
  first_rate rates cs = Some v <->
  exists pre c post, cs = pre ++ c :: post /\ rates !! c = Some v /\
    Forall (fun x => rates !! x = None) pre.
Proof.
  induction cs as [|c cs IH]; cbn [first_rate].
  - split; [done|]. intros (pre & c & post & H & _). by destruct pre.
  - destruct (rates !! c) as [w|] eqn:E.
    + split.
      * intros [= ->]. exists [], c, cs. done.
      * intros (pre & c' & post & H & Hc & Hp). destruct pre as [|p pre].
        -- cbn in H. injection H as -> ->. congruence.
        -- injection H as -> ->. inversion Hp. congruence.
    + rewrite IH. split.
      * intros (pre & c' & post & -> & Hc & Hp). exists (c :: pre), c', post.
        split_and!; [done|done|by constructor].
      * intros (pre & c' & post & H & Hc & Hp). destruct pre as [|p pre].
        -- cbn in H. injection H as -> ->. congruence.
        -- injection H as -> ->. inversion Hp; subst. by exists pre, c', post.
Qed.

(** A per-unit lookup widens and never borrows.  A rate it returns belongs
    to a configured key of the same unit and the same service tier, which
    leaves open every axis it does not share with the request, and no more
    specific candidate is configured. *)
Theorem unit_lookup_never_borrows t k v :
  ut_billingFree t = false -> unit_Lookup t k = Some v ->
  exists pre c post, lookup_candidates (normalize_key k) = pre ++ c :: post /\
    ut_rates t !! c = Some v /\ covers c (normalize_key k) /\
    Forall (fun x => ut_rates t !! x = None) pre.
Proof.
  unfold unit_Lookup. intros -> (pre & c & post & Hc & Hv & Hp)%first_rate_some.
  exists pre, c, post. split_and!; try done.
  apply lookup_candidates_cover. rewrite Hc. set_solver.
Qed.

Definition sample_units : UnitPriceTable :=
  NewUnitPriceTable [mkUnitRow "second" "" "" "" "" 100; mkUnitRow "second" "1080p" "" "" "" 250].

Lemma unit_lookup_never_borrows_witness :
  unit_Lookup sample_units (mkUnitKey "second" "1080p" "on" "" "") = Some 250 /\
  exists pre c post,
    lookup_candidates (normalize_key (mkUnitKey "second" "1080p" "on" "" "")) = pre ++ c :: post /\
    ut_rates sample_units !! c = Some 250 /\
    covers c (normalize_key (mkUnitKey "second" "1080p" "on" "" "")) /\
    Forall (fun x => ut_rates sample_units !! x = None) pre.
Proof.
  split; [vm_compute; reflexivity|].
  apply unit_lookup_never_borrows; vm_compute; reflexivity.
Defined.

Lemma billing_loop_found u keys :
  u <> ""%string ->
  billing_unit_loop u keys = if bool_decide (Forall (fun k => uk_Unit k = u) keys)
                             then Ok u else Err ErrUnitAmbiguous.
Proof.
  intros Hu. induction keys as [|k keys IH]; cbn [billing_unit_loop];
    rewrite bool_decide_eq_false_2 by done; [done|].
  rewrite IH. destruct (decide (uk_Unit k = u)) as [E|E].
  - rewrite (bool_decide_eq_true_2 (uk_Unit k = u)) by done. cbn [negb].
    erewrite bool_decide_ext; [done|]. rewrite Forall_cons_iff. tauto.
  - rewrite (bool_decide_eq_false_2 (uk_Unit k = u)) by done. cbn [negb].
    by rewrite bool_decide_eq_false_2 by (rewrite Forall_cons_iff; tauto).
Qed.

(** A model has one billing unit.  For a rate card whose rows name their
    unit, the answer is the unit exactly when the card is non-empty and every
    row agrees on it, in whatever order the map is walked; a mixed card is
    refused instead of guessed. *)
Theorem billing_unit_unique (t : UnitPriceTable) order u :
  order ≡ₚ map fst (map_to_list (ut_rates t)) ->
  (forall k, k ∈ order -> uk_Unit k <> ""%string) ->
  billing_unit_loop "" order = Ok u <->
  order <> [] /\ forall k v, ut_rates t !! k = Some v -> uk_Unit k = u.
Proof.
  intros Hp Hne.
  assert (Hall : (forall k v, ut_rates t !! k = Some v -> uk_Unit k = u) <->
                 Forall (fun k => uk_Unit k = u) order).
  { rewrite Hp, Forall_forall. split.
    - intros H k Hk. apply in_map_iff in Hk as ([k' v] & <- & Hk).
      apply (H _ v). by apply elem_of_map_to_list, list_elem_of_In.
    - intros H k v Hk. apply H, in_map_iff. exists (k, v). split; [done|].
      by apply list_elem_of_In, elem_of_map_to_list. }
  rewrite Hall. clear Hp Hall.
  destruct order as [|k0 order]; cbn [billing_unit_loop].
  - rewrite bool_decide_eq_true_2 by done. naive_solver.
  - rewrite bool_decide_eq_true_2, billing_loop_found by (done || apply Hne; set_solver).
    rewrite Forall_cons_iff. case_bool_decide as E; split; try done.
    + intros [= <-]. done.
    + intros (_ & <- & _). done.
    + intros (_ & <- & H). by destruct E.
Qed.

Lemma billing_unit_unique_witness :
  billing_unit_loop "" (map fst (map_to_list (ut_rates sample_units))) = Ok "second"%string <->
  map fst (map_to_list (ut_rates sample_units)) <> [] /\
  forall k v, ut_rates sample_units !! k = Some v -> uk_Unit k = "second"%string.
Proof.
  apply billing_unit_unique; [apply Permutation_refl|].
  intros k Hk. vm_compute in Hk.
  repeat (apply elem_of_cons in Hk as [->|Hk]; [intros E; discriminate E|]).
  apply elem_of_nil in Hk. contradiction.
Defined.

(** The per-unit family fails closed.  A job counting a positive quantity of
    a unit no rate covers is refused with the missing-price error on either
    table, in any iteration order: never billed as zero, never at another
    unit's rate. *)
Theorem unit_missing_price_refuses t order (u : Units) k q total :
  order ≡ₚ map_to_list u -> u !! k = Some q -> q <> 0 -> unit_Lookup t k = None ->
  exists k', unit_cost_loop t order total = Err (ErrUnitPriceMissing k') /\
    unit_Lookup t k' = None.
Proof.
  intros Hp Hk Hq Hn. apply elem_of_map_to_list in Hk. rewrite <- Hp in Hk. clear Hp.
  revert total. induction order as [|[k0 q0] order IH]; intros total; [set_solver|].
  cbn [unit_cost_loop]. apply elem_of_cons in Hk as [[= <- <-]|Hk].
  - rewrite (proj2 (Z.eqb_neq _ _)) by done. rewrite Hn. eauto.
  - destruct (q0 =? 0); [by apply IH|].
    destruct (unit_Lookup t k0) eqn:E; [by apply IH|eauto].
Qed.

Lemma unit_missing_price_refuses_witness :
  exists k', unit_cost_loop sample_units
      (map_to_list ({[ mkUnitKey "call" "" "" "" "" := 1 ]} : Units)) 0%Q
    = Err (ErrUnitPriceMissing k') /\ unit_Lookup sample_units k' = None.
Proof.
  apply (unit_missing_price_refuses sample_units _ {[ mkUnitKey "call" "" "" "" "" := 1 ]}
    (mkUnitKey "call" "" "" "" "") 1).
  - apply Permutation_refl.
  - vm_compute. reflexivity.
  - lia.
  - vm_compute. reflexivity.
Defined.
