(* ===== verification/Surfaces.v ===== *)
(** * The surface table: [internal/gateway/catalog/catalog.go]

    One table decides, for every public API surface, the protocol it speaks, the
    stored endpoint name, the billing families it serves and how its capability
    is probed; every reverse lookup is derived from it.

    [Surface] is a string type in the code; a string that names no surface is
    [SurfaceOther]. *)
From S2P Require Import Prelude.

Inductive Surface :=
  | SurfaceChat | SurfaceMessages | SurfaceEmbeddings | SurfaceImages | SurfaceImagesEdit
  | SurfaceResponses | SurfaceResponsesCompact | SurfaceResponsesResources
  | SurfaceResponsesInputTokens | SurfaceMessagesCountTokens | SurfaceGenerateContent
  | SurfaceGeminiCountTokens | SurfaceGeminiEmbedContent | SurfaceGeminiBatchEmbedContents
  | SurfaceGeminiInteractions | SurfaceVideo
  | SurfaceOther (s : string).

#[export] Instance Surface_eq_dec : EqDecision Surface.
Proof. solve_decision. Defined.

Inductive Protocol := ProtocolOpenAI | ProtocolAnthropic | ProtocolGemini | ProtocolVideo.

#[export] Instance Protocol_eq_dec : EqDecision Protocol.
Proof. solve_decision. Defined.

Definition protocol (s : Surface) : option Protocol :=
  match s with
  | SurfaceChat | SurfaceResponses | SurfaceResponsesCompact | SurfaceResponsesResources
  | SurfaceResponsesInputTokens | SurfaceEmbeddings | SurfaceImages | SurfaceImagesEdit =>
      Some ProtocolOpenAI
  | SurfaceGenerateContent | SurfaceGeminiCountTokens | SurfaceGeminiEmbedContent
  | SurfaceGeminiBatchEmbedContents | SurfaceGeminiInteractions => Some ProtocolGemini
  | SurfaceMessages | SurfaceMessagesCountTokens => Some ProtocolAnthropic
  | SurfaceVideo => Some ProtocolVideo
  | SurfaceOther _ => None
  end.

Definition endpoint (s : Surface) : option string :=
  match s with
  | SurfaceChat => Some "chat"
  | SurfaceMessages => Some "messages"
  | SurfaceEmbeddings => Some "embeddings"
  | SurfaceImages => Some "images"
  | SurfaceImagesEdit => Some "images_edits"
  | SurfaceResponses => Some "responses"
  | SurfaceResponsesCompact => Some "responses_compact"
  | SurfaceResponsesResources => Some "responses_resources"
  | SurfaceResponsesInputTokens => Some "responses_input_tokens"
  | SurfaceGenerateContent => Some "generate_content"
  | SurfaceMessagesCountTokens => Some "messages_count_tokens"
  | SurfaceGeminiCountTokens => Some "gemini_count_tokens"
  | SurfaceGeminiEmbedContent => Some "gemini_embed_content"
  | SurfaceGeminiBatchEmbedContents => Some "gemini_batch_embed_contents"
  | SurfaceGeminiInteractions => Some "gemini_interactions"
  | SurfaceVideo => Some "video"
  | SurfaceOther _ => None
  end%string.

(** [BillingFamily]: what a price row is charged by; the stored string may also
    be anything else. *)
Inductive BillingFamily := FamilyTokens | FamilyUnits | FamilyOther (s : string).

#[export] Instance BillingFamily_eq_dec : EqDecision BillingFamily.
Proof. solve_decision. Defined.

Definition billingFamilies (s : Surface) : list BillingFamily :=
  match s with
  | SurfaceVideo => [FamilyUnits]
  | SurfaceImages | SurfaceImagesEdit => [FamilyTokens; FamilyUnits]
  | _ => [FamilyTokens]
  end.

Definition ServesFamily (s : Surface) (f : BillingFamily) : bool :=
  bool_decide (f ∈ billingFamilies s).

Inductive ProbeMode := ProbeAuto | ProbeManual | ProbeDerived.

#[export] Instance ProbeMode_eq_dec : EqDecision ProbeMode.
Proof. solve_decision. Defined.

Definition probeMode (s : Surface) : ProbeMode :=
  match s with
  | SurfaceImages | SurfaceImagesEdit | SurfaceVideo => ProbeManual
  | SurfaceResponsesResources => ProbeDerived
  | _ => ProbeAuto
  end.

Definition allSurfaces : list Surface :=
  [SurfaceChat; SurfaceMessages; SurfaceMessagesCountTokens;
   SurfaceResponses; SurfaceResponsesCompact; SurfaceResponsesResources;
   SurfaceResponsesInputTokens;
   SurfaceEmbeddings; SurfaceImages; SurfaceImagesEdit; SurfaceGenerateContent;
   SurfaceGeminiCountTokens;
   SurfaceGeminiEmbedContent; SurfaceGeminiBatchEmbedContents; SurfaceGeminiInteractions;
   SurfaceVideo].

(** ** Reverse lookups *)

(** The scan both reverse lookups perform. *)
Definition has_endpoint (ep : string) (s : Surface) : bool :=
  match endpoint s with Some e => bool_decide (e = ep) | None => false end.

Definition SurfaceForEndpoint (ep : string) : option Surface :=
  List.find (has_endpoint ep) allSurfaces.

Definition ProtocolForEndpoint (ep : string) : option Protocol :=
  match List.find (has_endpoint ep) allSurfaces with
  | Some s => protocol s
  | None => None
  end.

Definition ProbeModeForEndpoint (ep : string) : option ProbeMode :=
  probeMode <$> SurfaceForEndpoint ep.

(** The endpoints of the surfaces whose protocol passes a test, in table order. *)
Definition endpoints_where (p : Protocol -> bool) : list string :=
  omap (fun s => match protocol s with
                 | Some f => if p f then endpoint s else None
                 | None => None
                 end) allSurfaces.

Definition ProtocolEndpoints (p : Protocol) : list string * bool :=
  let out := endpoints_where (fun f => bool_decide (f = p)) in
  (out, Nat.ltb 0 (length out)).

Definition EndpointsForProtocols (ps : list Protocol) : list string :=
  endpoints_where (fun f => bool_decide (f ∈ ps)).

Definition KnownProtocols : list Protocol :=
  fold_left (fun out s => match protocol s with
                          | Some f => if bool_decide (f ∈ out) then out else out ++ [f]
                          | None => out
                          end) allSurfaces [].

Definition WireProtocols : list Protocol :=
  List.filter (fun p => negb (bool_decide (p = ProtocolVideo))) KnownProtocols.

Definition cmp_string (a b : string) : comparison := String.compare a b.

Definition PublishedEndpoints (verified : list string) : list string :=
  if bool_decide ("responses"%string ∈ verified)
     && negb (bool_decide ("responses_resources"%string ∈ verified))
  then SortFunc cmp_string (verified ++ ["responses_resources"%string])
  else verified.

(** ** Properties *)

Lemma allSurfaces_complete s : (exists o, s = SurfaceOther o) \/ s ∈ allSurfaces.
Proof. destruct s; [right; by apply (bool_decide_unpack _)..|left; eauto]. Qed.

Lemma endpoint_known s ep : endpoint s = Some ep -> s ∈ allSurfaces.
Proof. intros H. destruct (allSurfaces_complete s) as [[o ->]|]; done. Qed.

Lemma endpoint_inj s1 s2 ep : endpoint s1 = Some ep -> endpoint s2 = Some ep -> s1 = s2.
Proof. destruct s1; cbn; intros [= <-]; destruct s2; cbn; by intros [=]. Qed.

Lemma endpoint_scan ep s :
  List.find (has_endpoint ep) allSurfaces = Some s <-> endpoint s = Some ep.
Proof.
  split.
  - intros H. apply List.find_some in H as [_ H]. unfold has_endpoint in H.
    destruct (endpoint s) as [e|]; [|done]. bool_prop. by subst.
  - intros H. destruct (List.find (has_endpoint ep) allSurfaces) as [u|] eqn:E.
    + apply List.find_some in E as [_ E]. unfold has_endpoint in E.
      destruct (endpoint u) as [e|] eqn:Eu; [|done]. bool_prop. subst.
      f_equal. by apply (endpoint_inj _ _ ep).
    + assert (Hs : List.In s allSurfaces) by (apply list_elem_of_In; by apply (endpoint_known s ep)).
      pose proof (List.find_none _ _ E _ Hs) as Hn. unfold has_endpoint in Hn. rewrite H in Hn.
      by rewrite bool_decide_eq_true_2 in Hn.
Qed.

(** Configuration time and run time agree on who serves what.  Looking an
    endpoint name up by scanning the table gives back exactly the surface whose
    endpoint it is, so the protocol and the probe mode found from a stored name
    are those of that surface; a name no surface has finds nothing; and every
    listed surface has both an endpoint and a protocol. *)
Theorem endpoint_lookup_inverts_table ep s :
  (SurfaceForEndpoint ep = Some s <-> endpoint s = Some ep) /\
  (endpoint s = Some ep ->
     ProtocolForEndpoint ep = protocol s /\ is_Some (protocol s) /\
     ProbeModeForEndpoint ep = Some (probeMode s)).
Proof.
  split; [apply endpoint_scan|]. intros H.
  unfold ProtocolForEndpoint, ProbeModeForEndpoint, SurfaceForEndpoint.
  rewrite (proj2 (endpoint_scan ep s) H). split_and!; [done| |done].
  destruct s; cbn in *; eauto; done.
Qed.

Lemma endpoint_lookup_inverts_table_witness :
  ProtocolForEndpoint "images_edits" = Some ProtocolOpenAI /\
  ProbeModeForEndpoint "images_edits" = Some ProbeManual.
Proof.
  destruct (proj2 (endpoint_lookup_inverts_table "images_edits" SurfaceImagesEdit) eq_refl)
    as (H1 & _ & H2). split; [exact H1|exact H2].
Defined.

Lemma endpoints_where_spec p ep :
  ep ∈ endpoints_where p <->
  exists s f, endpoint s = Some ep /\ protocol s = Some f /\ p f = true.
Proof.
  unfold endpoints_where. rewrite list_elem_of_omap. split.
  - intros (s & _ & H). destruct (protocol s) as [f|] eqn:Ef; [|done].
    destruct (p f) eqn:Ep; [|done]. by exists s, f.
  - intros (s & f & He & Hf & Hp). exists s. split; [by apply (endpoint_known s ep)|].
    by rewrite Hf, Hp.
Qed.

(** What a provider may be probed on and what it can serve are the same set:
    the endpoints derived from a declared protocol set are exactly those whose
    own protocol is in the set, and the union over the set of the per-protocol
    lists. *)
Theorem endpoints_for_protocols_sound ps ep :
  (ep ∈ EndpointsForProtocols ps <->
     exists p, p ∈ ps /\ ProtocolForEndpoint ep = Some p) /\
  (ep ∈ EndpointsForProtocols ps <-> exists p, p ∈ ps /\ ep ∈ (ProtocolEndpoints p).1).
Proof.
  assert (Hp : forall p, (exists s, endpoint s = Some ep /\ protocol s = Some p) <->
    ProtocolForEndpoint ep = Some p).
  { intros p. split.
    - intros (s & He & Hs). unfold ProtocolForEndpoint. by rewrite (proj2 (endpoint_scan ep s) He).
    - unfold ProtocolForEndpoint. destruct (List.find _ _) as [s|] eqn:E; [|done]. intros H.
      exists s. split; [|done]. by apply endpoint_scan. }
  unfold EndpointsForProtocols, ProtocolEndpoints. cbn [fst].
  setoid_rewrite endpoints_where_spec. setoid_rewrite <- Hp.
  setoid_rewrite bool_decide_eq_true. naive_solver.
Qed.

(** Publishing adds nothing that was not observed, except the stored-resource
    operations, and those exactly when the surface that creates the resources was
    verified; no verified endpoint is lost. *)
Theorem published_only_when_observed verified ep :
  ep ∈ PublishedEndpoints verified <->
  ep ∈ verified \/ (ep = "responses_resources"%string /\ "responses"%string ∈ verified).
Proof.
  unfold PublishedEndpoints.
  destruct (bool_decide ("responses"%string ∈ verified)) eqn:E1; bool_prop; cbn [andb].
  - destruct (bool_decide ("responses_resources"%string ∈ verified)) eqn:E2; bool_prop; cbn [negb].
    + naive_solver.
    + rewrite SortFunc_perm, elem_of_app, list_elem_of_singleton. naive_solver.
  - naive_solver.
Qed.
