(* ===== verification/Usage.v ===== *)
(** * Usage: [internal/gateway/proxy/usage_wire.go], [protocols.go] and
    [stream_usage.go]

    Every vendor spells token usage differently; here each spelling is folded
    into the one [Usage] the pricing code bills, once for a whole response and
    once for a stream of events.

    JSON decoding is the standard library's: a response body is given by what it
    decodes to under each of the structs the code decodes it into, a failed
    decoding being [None]. *)
From S2P Require Import Prelude GoStr Rational PriceTable Pricing Surfaces.

Open Scope Z_scope.

(** ** Data *)

Record Usage := mkUsage {
  us_In : Z; us_Out : Z; us_CachedRead : Z; us_CacheWrite : Z; us_Reasoning : Z;
  us_AudioIn : Z; us_AudioOut : Z; us_ImageIn : Z; us_ImageOut : Z;
  us_CacheWrite5m : Z; us_CacheWrite1h : Z;
  us_ServiceTier : string;
  us_ToolCalls : gmap string Z;
  us_Present : bool;
}.

(** [Usage{}]; the nil map and the empty one read alike. *)
Definition no_usage : Usage := mkUsage 0 0 0 0 0 0 0 0 0 0 0 "" ∅ false.

Definition with_tools (u : Usage) (tools : gmap string Z) : Usage :=
  mkUsage (us_In u) (us_Out u) (us_CachedRead u) (us_CacheWrite u) (us_Reasoning u)
    (us_AudioIn u) (us_AudioOut u) (us_ImageIn u) (us_ImageOut u)
    (us_CacheWrite5m u) (us_CacheWrite1h u) (us_ServiceTier u) tools (us_Present u).

Definition BillingTokens (u : Usage) : Tokens :=
  mkTokens (us_In u) (us_Out u) (us_CachedRead u) (us_CacheWrite u) (us_AudioIn u) (us_AudioOut u)
    (us_ImageIn u) (us_ImageOut u) (us_CacheWrite5m u) (us_CacheWrite1h u)
    (us_ServiceTier u) (us_ToolCalls u).

Definition nonNegative (v : Z) : Z := if v <? 0 then 0 else v.

Definition subsetIn (parent cached cacheWrite : Z) : Z :=
  let sub := wrap64 (cached + cacheWrite) in
  if parent <? sub then parent else wrap64 (parent - sub).

(** ** Tool usage

    A decoded JSON value, as far as [toolCallCounts] looks: a number, an object
    with or without a numeric [num_requests], anything else.  A [float64] is the
    rational it denotes. *)
Inductive json_value :=
  | JNumber (x : Q)
  | JObject (num_requests : option Q)
  | JOther.

Definition float_count (x : Q) : option Z :=
  if 0 <? Qnum x then Some (Z.quot (Qnum x) (Zpos (Qden x))) else None.

Definition tool_count (v : json_value) : option Z :=
  match v with
  | JNumber x => float_count x
  | JObject (Some n) => float_count n
  | JObject None | JOther => None
  end.

Definition toolCallCounts (raw : gmap string json_value) : gmap string Z := omap tool_count raw.

Definition imageGenerationTool : string := "image_generation".

Definition tool_calls (m : gmap string Z) (tool : string) : Z := default 0 (m !! tool).

(** The [output] array, by the type of its items. *)
Definition countGeneratedImages (items : list string) : Z :=
  fold_left (fun n ty => if bool_decide (ty = (imageGenerationTool ++ "_call")%string)
                         then wrap64 (n + 1) else n) items 0.

Definition addGeneratedImages (u : Usage) (images : Z) : Usage :=
  if images <=? 0 then u
  else if tool_calls (us_ToolCalls u) imageGenerationTool <? images
  then with_tools u (<[imageGenerationTool := images]> (us_ToolCalls u))
  else u.

(** ** The wire objects *)

Record responsesUsage := mkResponsesUsage {
  ru_InputTokens : Z;
  ru_InputTokensDetails : option (Z * Z * Z);   (** cached, cache write, image *)
  ru_OutputTokens : Z;
  ru_OutputTokensDetails : option (Z * Z);      (** reasoning, image *)
}.

Definition responses_usage (w : responsesUsage) (serviceTier : string)
    (tools : gmap string json_value) : Usage :=
  let '(inp, cached, write, imageIn) :=
    match ru_InputTokensDetails w with
    | Some (cached, write, image) =>
        let inp := subsetIn (ru_InputTokens w) cached write in
        (inp, cached, write, Z.min (nonNegative image) inp)
    | None => (ru_InputTokens w, 0, 0, 0)
    end in
  let '(reasoning, imageOut) :=
    match ru_OutputTokensDetails w with
    | Some (reasoning, image) => (reasoning, Z.min (nonNegative image) (ru_OutputTokens w))
    | None => (0, 0)
    end in
  mkUsage inp (ru_OutputTokens w) cached write reasoning 0 0 imageIn imageOut 0 0
    serviceTier (toolCallCounts tools) true.

Record openAIUsage := mkOpenAIUsage {
  ou_PromptTokens : Z;
  ou_PromptTokensDetails : option (Z * Z * Z * Z);   (** cached, cache write, audio, image *)
  ou_CompletionTokens : Z;
  ou_CompletionTokensDetails : option (Z * Z * Z);   (** reasoning, audio, image *)
}.

Definition openAI_usage (w : openAIUsage) (serviceTier : string)
    (tools : gmap string json_value) : Usage :=
  let '(inp, cached, write, audioIn, imageIn) :=
    match ou_PromptTokensDetails w with
    | Some (cached, write, audio, image) =>
        let inp := subsetIn (ou_PromptTokens w) cached write in
        (inp, cached, write, audio, Z.min (nonNegative image) inp)
    | None => (ou_PromptTokens w, 0, 0, 0, 0)
    end in
  let '(reasoning, audioOut, imageOut) :=
    match ou_CompletionTokensDetails w with
    | Some (reasoning, audio, image) =>
        (reasoning, audio, Z.min (nonNegative image) (ou_CompletionTokens w))
    | None => (0, 0, 0)
    end in
  mkUsage inp (ou_CompletionTokens w) cached write reasoning audioIn audioOut imageIn imageOut 0 0
    serviceTier (toolCallCounts tools) true.

Record anthropicUsage := mkAnthropicUsage {
  au_InputTokens : Z;
  au_OutputTokens : Z;
  au_CacheReadInputTokens : Z;
  au_CacheCreationInputTokens : Z;
  au_CacheCreation : option (Z * Z);                 (** 5m, 1h *)
  au_ServiceTier : string;
  au_ServerToolUse : gmap string json_value;
}.

Definition anthropic_usage (w : anthropicUsage) : Usage :=
  let '(w5m, w1h) := default (0, 0) (au_CacheCreation w) in
  mkUsage (au_InputTokens w) (au_OutputTokens w) (au_CacheReadInputTokens w)
    (au_CacheCreationInputTokens w) 0 0 0 0 0 w5m w1h
    (au_ServiceTier w) (toolCallCounts (au_ServerToolUse w)) true.

(** [strings.EqualFold] on names none of whose letters folds outside ASCII. *)
Definition EqualFold (a b : string) : bool :=
  bool_decide (map lower (lit a) = map lower (lit b)).

(** [modalityTokens] and [interactionModalityTokens]. *)
Definition modalityTokens (details : list (string * Z)) (modality : string) : Z :=
  fold_left (fun n d => if EqualFold d.1 modality then wrap64 (n + d.2) else n) details 0.

Record geminiUsageMetadata := mkGeminiUsage {
  gu_PromptTokenCount : Z;
  gu_TotalTokenCount : Z;
  gu_CachedContentTokenCount : Z;
  gu_CandidatesTokenCount : Z;
  gu_ThoughtsTokenCount : Z;
  gu_ToolUsePromptTokenCount : Z;
  gu_PromptTokensDetails : list (string * Z);
  gu_CandidatesTokensDetails : list (string * Z);
}.

Definition gemini_usage (m : geminiUsageMetadata) : Usage :=
  let audioIn := modalityTokens (gu_PromptTokensDetails m) "AUDIO" in
  let imageIn := modalityTokens (gu_PromptTokensDetails m) "IMAGE" in
  let cached := gu_CachedContentTokenCount m in
  if (gu_PromptTokenCount m =? 0) && (gu_CandidatesTokenCount m =? 0)
     && (gu_ThoughtsTokenCount m =? 0) && (gu_ToolUsePromptTokenCount m =? 0)
     && (0 <? gu_TotalTokenCount m)
  then mkUsage (subsetIn (gu_TotalTokenCount m) cached 0) 0 cached 0 0 audioIn 0 imageIn 0 0 0
         "" ∅ true
  else
    mkUsage (wrap64 (subsetIn (gu_PromptTokenCount m) cached 0 + gu_ToolUsePromptTokenCount m))
      (wrap64 (gu_CandidatesTokenCount m + gu_ThoughtsTokenCount m)) cached 0
      (gu_ThoughtsTokenCount m) audioIn (modalityTokens (gu_CandidatesTokensDetails m) "AUDIO")
      imageIn (modalityTokens (gu_CandidatesTokensDetails m) "IMAGE") 0 0 "" ∅ true.

Record interactionUsage := mkInteractionUsage {
  iu_TotalInputTokens : Z;
  iu_TotalOutputTokens : Z;
  iu_TotalCachedTokens : Z;
  iu_TotalThoughtTokens : Z;
  iu_TotalToolUseTokens : Z;
  iu_InputByModality : list (string * Z);
  iu_OutputByModality : list (string * Z);
  iu_ToolUseByModality : list (string * Z);
  iu_GroundingToolCount : list (string * Z);
}.

Definition grounding_calls (tools : list (string * Z)) : gmap string Z :=
  fold_left (fun m t => if negb (bool_decide (t.1 = ""%string)) && (0 <? t.2)
                        then <[t.1 := wrap64 (tool_calls m t.1 + t.2)]> m else m) tools ∅.

Definition interaction_usage (u : interactionUsage) (serviceTier : string) : Usage :=
  mkUsage
    (wrap64 (subsetIn (iu_TotalInputTokens u) (iu_TotalCachedTokens u) 0
             + iu_TotalToolUseTokens u))
    (wrap64 (iu_TotalOutputTokens u + iu_TotalThoughtTokens u))
    (iu_TotalCachedTokens u) 0 (iu_TotalThoughtTokens u)
    (wrap64 (modalityTokens (iu_InputByModality u) "audio"
             + modalityTokens (iu_ToolUseByModality u) "audio"))
    (modalityTokens (iu_OutputByModality u) "audio")
    (wrap64 (modalityTokens (iu_InputByModality u) "image"
             + modalityTokens (iu_ToolUseByModality u) "image"))
    (modalityTokens (iu_OutputByModality u) "image") 0 0
    serviceTier (grounding_calls (iu_GroundingToolCount u)) true.

(** Image responses: input, output and the image share of each. *)
Record imageUsage := mkImageUsage {
  im_InputTokens : Z;
  im_OutputTokens : Z;
  im_InputImageTokens : option Z;
  im_OutputImageTokens : option Z;
}.

Definition image_usage (w : imageUsage) : Usage :=
  let share d parent :=
    match d with Some image => Z.min (nonNegative image) parent | None => 0 end in
  mkUsage (im_InputTokens w) (im_OutputTokens w) 0 0 0 0 0
    (share (im_InputImageTokens w) (im_InputTokens w))
    (share (im_OutputImageTokens w) (im_OutputTokens w)) 0 0 "" ∅ true.

Definition addUsage (a b : Usage) : Usage :=
  mkUsage (wrap64 (us_In a + us_In b)) (wrap64 (us_Out a + us_Out b))
    (wrap64 (us_CachedRead a + us_CachedRead b)) (wrap64 (us_CacheWrite a + us_CacheWrite b))
    (wrap64 (us_Reasoning a + us_Reasoning b))
    (wrap64 (us_AudioIn a + us_AudioIn b)) (wrap64 (us_AudioOut a + us_AudioOut b))
    (wrap64 (us_ImageIn a + us_ImageIn b)) (us_ImageOut a)
    (wrap64 (us_CacheWrite5m a + us_CacheWrite5m b))
    (wrap64 (us_CacheWrite1h a + us_CacheWrite1h b))
    (if bool_decide (us_ServiceTier a = ""%string) then us_ServiceTier b
     else if negb (bool_decide (us_ServiceTier b = ""%string))
             && negb (bool_decide (us_ServiceTier a = us_ServiceTier b))
     then ""%string else us_ServiceTier a)
    (union_with (fun x y => Some (wrap64 (x + y))) (us_ToolCalls a) (us_ToolCalls b))
    (us_Present a || us_Present b).

(** ** A whole response: [ParseUsage] *)

(** What a response body decodes to under each struct. *)
Record Body := mkBody {
  b_image : option (option imageUsage);
  b_responses : option (option responsesUsage * string * gmap string json_value * list string);
  b_gemini : option (option geminiUsageMetadata);
  b_geminiBatch : option (option geminiUsageMetadata * list (option geminiUsageMetadata)
                          * list (option geminiUsageMetadata));
  b_interaction : option (option interactionUsage * string);
  b_anthropic : option (option anthropicUsage);
  b_openAI : option (option openAIUsage * string * gmap string json_value);
}.

Definition ParseImageUsage (r : option (option imageUsage)) : Usage :=
  match r with Some (Some w) => image_usage w | _ => no_usage end.

Definition parseGeminiUsage (r : option (option geminiUsageMetadata)) : Usage :=
  match r with Some (Some m) => gemini_usage m | _ => no_usage end.

Definition add_items (total : Usage) (items : list (option geminiUsageMetadata)) : Usage :=
  fold_left (fun t item => match item with Some m => addUsage t (gemini_usage m) | None => t end)
    items total.

Definition parseGeminiBatchUsage
    (r : option (option geminiUsageMetadata * list (option geminiUsageMetadata)
                 * list (option geminiUsageMetadata))) : Usage :=
  match r with
  | None => no_usage
  | Some (Some m, _, _) => gemini_usage m
  | Some (None, embeddings, responses) => add_items (add_items no_usage embeddings) responses
  end.

Definition parseGeminiInteractionUsage (r : option (option interactionUsage * string)) : Usage :=
  match r with Some (Some u, tier) => interaction_usage u tier | _ => no_usage end.

Definition ParseUsage (surface : Surface) (body : Body) : Usage :=
  match surface with
  | SurfaceVideo => no_usage
  | SurfaceImages | SurfaceImagesEdit => ParseImageUsage (b_image body)
  | SurfaceResponses | SurfaceResponsesCompact =>
      match b_responses body with
      | None => no_usage
      | Some (usage, tier, tools, output) =>
          let images := countGeneratedImages output in
          match usage with
          | None => if images =? 0 then no_usage else addGeneratedImages no_usage images
          | Some w => addGeneratedImages (responses_usage w tier tools) images
          end
      end
  | SurfaceGenerateContent | SurfaceGeminiEmbedContent => parseGeminiUsage (b_gemini body)
  | SurfaceGeminiBatchEmbedContents => parseGeminiBatchUsage (b_geminiBatch body)
  | SurfaceGeminiInteractions => parseGeminiInteractionUsage (b_interaction body)
  | SurfaceMessages =>
      match b_anthropic body with Some (Some w) => anthropic_usage w | _ => no_usage end
  | _ =>
      match b_openAI body with
      | Some (Some w, tier, tools) => openAI_usage w tier tools
      | _ => no_usage
      end
  end.

(** ** Estimates: [estimate.go] *)

Definition bytesPerToken : Z := 4.
Definition runesPerToken : Z := 2.

Definition EstimateTokens (s : bytes) : Z :=
  if bool_decide (s = []) then 0
  else
    let n := Z.max (Z.quot (len s) bytesPerToken) (Z.quot (RuneCount s) runesPerToken) in
    if n <? 1 then 1 else n.

Definition EstimateRequestTokens (body : bytes) : Z := EstimateTokens body.

(** What a body's text decodes to under each struct [ResponseTextOf] reads. *)
Record TextBody := mkTextBody {
  t_messages : option (list bytes);             (** content[].text *)
  t_gemini : option (list (list bytes));        (** candidates[].content.parts[].text *)
  t_responses : option (list (list bytes));     (** output[].content[].text *)
  t_choices : option (list bytes);              (** choices[].message.content *)
}.

Definition ResponseTextOf (surface : Surface) (body : TextBody) : bytes :=
  match surface with
  | SurfaceMessages => concat (default [] (t_messages body))
  | SurfaceGenerateContent => concat (concat (default [] (t_gemini body)))
  | SurfaceResponses => concat (concat (default [] (t_responses body)))
  | _ => concat (default [] (t_choices body))
  end.

(** The usage assumed for an answer that reports none: the admitted input, the
    estimated output, and the tool calls that were observed all the same. *)
Definition estimated_usage (inputTokens : Z) (text : bytes) (observed : Usage) : Usage :=
  mkUsage inputTokens (EstimateTokens text) 0 0 0 0 0 0 0 0 0 "" (us_ToolCalls observed) false.

(** ** Properties: what is billed of a report *)

(** Counts as a vendor reports them: none negative, each within the validated
    range. *)
Definition sane (v : Z) : Prop := 0 <= v <= maxSaneTokens.
#[global] Hint Unfold sane : fairlb.

Ltac sane_counts :=
  unfold sane, maxSaneTokens in *;
  repeat match goal with
  | |- context [wrap64 ?z] => rewrite (wrap64_id z) by (unfold min_int64, max_int64; lia)
  end.

Lemma subsetIn_spec parent cached written :
  sane parent -> sane cached -> sane written ->
  subsetIn parent cached written
  = if parent <? cached + written then parent else parent - cached - written.
Proof.
  intros H1 H2 H3. unfold subsetIn. sane_counts.
  destruct (Z.ltb_spec parent (cached + written)); lia.
Qed.

Lemma nonNegative_id v : 0 <= v -> nonNegative v = v.
Proof. intros H. unfold nonNegative. destruct (Z.ltb_spec v 0); [lia|done]. Qed.

(** The prompt a report stands for: its own figure when the cached and written
    tokens are part of it, the sum when they are reported beside it. *)
Definition prompt_of (parent cached written : Z) : Z :=
  if parent <? cached + written then parent + cached + written else parent.

Lemma subsetIn_sum parent cached written :
  sane parent -> sane cached -> sane written ->
  sane (subsetIn parent cached written) /\
  subsetIn parent cached written + cached + written = prompt_of parent cached written.
Proof.
  intros H1 H2 H3. rewrite subsetIn_spec by done. unfold prompt_of, sane in *.
  destruct (Z.ltb_spec parent (cached + written)); lia.
Qed.

Lemma context_of u inp cached written :
  us_In u = inp -> us_CachedRead u = cached -> us_CacheWrite u = written ->
  0 <= inp <= 2 * maxSaneTokens -> sane cached -> sane written ->
  ContextTokens (BillingTokens u) = inp + cached + written.
Proof.
  intros <- <- <- H1 H2 H3. unfold ContextTokens. cbn [BillingTokens tk_In tk_CachedRead tk_CacheWrite].
  sane_counts. lia.
Qed.

Lemma openAI_buckets w tier tools :
  us_In (openAI_usage w tier tools)
  = match ou_PromptTokensDetails w with
    | Some (cached, written, _, _) => subsetIn (ou_PromptTokens w) cached written
    | None => ou_PromptTokens w
    end /\
  us_CachedRead (openAI_usage w tier tools)
  = match ou_PromptTokensDetails w with Some (cached, _, _, _) => cached | None => 0 end /\
  us_CacheWrite (openAI_usage w tier tools)
  = match ou_PromptTokensDetails w with Some (_, written, _, _) => written | None => 0 end.
Proof.
  unfold openAI_usage. destruct (ou_PromptTokensDetails w) as [[[[? ?] ?] ?]|],
    (ou_CompletionTokensDetails w) as [[[? ?] ?]|]; done.
Qed.

Lemma responses_buckets w tier tools :
  us_In (responses_usage w tier tools)
  = match ru_InputTokensDetails w with
    | Some (cached, written, _) => subsetIn (ru_InputTokens w) cached written
    | None => ru_InputTokens w
    end /\
  us_CachedRead (responses_usage w tier tools)
  = match ru_InputTokensDetails w with Some (cached, _, _) => cached | None => 0 end /\
  us_CacheWrite (responses_usage w tier tools)
  = match ru_InputTokensDetails w with Some (_, written, _) => written | None => 0 end.
Proof.
  unfold responses_usage. destruct (ru_InputTokensDetails w) as [[[? ?] ?]|],
    (ru_OutputTokensDetails w) as [[? ?]|]; done.
Qed.

(** The counts that tell a report of a generation from an embedding's, which gives only
    the total. *)
Definition total_only (m : geminiUsageMetadata) : Prop :=
  gu_PromptTokenCount m = 0 /\ gu_CandidatesTokenCount m = 0 /\ gu_ThoughtsTokenCount m = 0 /\
  gu_ToolUsePromptTokenCount m = 0 /\ 0 < gu_TotalTokenCount m.

Lemma gemini_buckets m :
  us_CachedRead (gemini_usage m) = gu_CachedContentTokenCount m /\ us_CacheWrite (gemini_usage m) = 0 /\
  (total_only m -> us_In (gemini_usage m) = subsetIn (gu_TotalTokenCount m) (gu_CachedContentTokenCount m) 0) /\
  (~ total_only m -> us_In (gemini_usage m) =
     wrap64 (subsetIn (gu_PromptTokenCount m) (gu_CachedContentTokenCount m) 0 + gu_ToolUsePromptTokenCount m)).
Proof.
  unfold gemini_usage, total_only. destruct (_ && _) eqn:E; cbn [us_CachedRead us_CacheWrite us_In]; split_and!; try done.
  - bool_prop. intros []. tauto.
  - intros (H1 & H2 & H3 & H4 & H5). rewrite H1, H2, H3, H4 in E. cbn in E. apply Z.ltb_ge in E. lia.
Qed.

(** C31: no prompt token is billed twice or dropped.  In every vendor's spelling the
    uncached, cached and written input that is billed adds up to the prompt that
    was reported: the figure itself when caching is part of it (OpenAI, Gemini, with or
    without details), the sum when it is counted beside it (Anthropic, and relays that
    say so by numbers that cannot be a part), plus the tool prompts Gemini counts apart;
    the total, where an embedding reports nothing else; the input of an image.  Counts
    are those of sane reports, not negative and below 2^31. *)
Theorem prompt_billed_once prompt cached written tools total tier raw_tools :
  sane prompt -> sane cached -> sane written -> sane tools -> sane total ->
  let context u := ContextTokens (BillingTokens u) in
  (forall audio image completion out,
     context (openAI_usage (mkOpenAIUsage prompt (Some (cached, written, audio, image)) completion out) tier raw_tools)
     = prompt_of prompt cached written /\
     context (openAI_usage (mkOpenAIUsage prompt None completion out) tier raw_tools) = prompt) /\
  (forall image completion out,
     context (responses_usage (mkResponsesUsage prompt (Some (cached, written, image)) completion out) tier raw_tools)
     = prompt_of prompt cached written /\
     context (responses_usage (mkResponsesUsage prompt None completion out) tier raw_tools) = prompt) /\
  (forall completion shares,
     context (anthropic_usage (mkAnthropicUsage prompt completion cached written shares tier raw_tools))
     = prompt + cached + written) /\
  (forall candidates thoughts parts out_parts,
     let m := mkGeminiUsage prompt total cached candidates thoughts tools parts out_parts in
     (total_only m -> context (gemini_usage m) = prompt_of total cached 0) /\
     (~ total_only m -> context (gemini_usage m) = prompt_of prompt cached 0 + tools)) /\
  (forall completion thoughts parts out_parts tool_parts grounding,
     context (interaction_usage (mkInteractionUsage prompt completion cached thoughts tools parts out_parts
       tool_parts grounding) tier) = prompt_of prompt cached 0 + tools) /\
  (forall completion share out_share, context (image_usage (mkImageUsage prompt completion share out_share)) = prompt).
Proof.
  intros H1 H2 H3 H4 H5 context. unfold context. clear context.
  assert (H0 : sane 0) by (unfold sane, maxSaneTokens; lia).
  destruct (subsetIn_sum prompt cached written H1 H2 H3) as [S1 <-].
  destruct (subsetIn_sum prompt cached 0 H1 H2 H0) as [S2 <-].
  destruct (subsetIn_sum total cached 0 H5 H2 H0) as [S3 <-].
  pose proof H1 as B1. unfold sane in B1, S1, S2, S3, H4. split_and!.
  - intros audio image completion out.
    destruct (openAI_buckets (mkOpenAIUsage prompt (Some (cached, written, audio, image)) completion out)
      tier raw_tools) as (E1 & E2 & E3).
    destruct (openAI_buckets (mkOpenAIUsage prompt None completion out) tier raw_tools) as (F1 & F2 & F3).
    cbn [ou_PromptTokens ou_PromptTokensDetails] in *.
    split; [apply (context_of _ _ _ _ E1 E2 E3); [lia|done..]|rewrite (context_of _ _ _ _ F1 F2 F3); [lia|lia|done..]].
  - intros image completion out.
    destruct (responses_buckets (mkResponsesUsage prompt (Some (cached, written, image)) completion out)
      tier raw_tools) as (E1 & E2 & E3).
    destruct (responses_buckets (mkResponsesUsage prompt None completion out) tier raw_tools) as (F1 & F2 & F3).
    cbn [ru_InputTokens ru_InputTokensDetails] in *.
    split; [apply (context_of _ _ _ _ E1 E2 E3); [lia|done..]|rewrite (context_of _ _ _ _ F1 F2 F3); [lia|lia|done..]].
  - intros completion shares. unfold anthropic_usage. destruct shares as [[w5m w1h]|]; (apply context_of; [done..| |done|done]; lia).
  - intros candidates thoughts parts out_parts.
    set (m := mkGeminiUsage prompt total cached candidates thoughts tools parts out_parts).
    destruct (gemini_buckets m) as (E1 & E2 & E3 & E4). split; intros Hm.
    + rewrite (context_of _ _ _ _ (E3 Hm) E1 E2); cbn [gu_TotalTokenCount gu_CachedContentTokenCount m]; (done || lia).
    + specialize (E4 Hm). cbn [gu_PromptTokenCount gu_CachedContentTokenCount gu_ToolUsePromptTokenCount m] in *.
      rewrite (context_of _ _ _ _ E4 E1 E2); sane_counts; (done || lia).
  - intros completion thoughts parts out_parts tool_parts grounding. unfold interaction_usage.
    rewrite (context_of _ _ _ _ eq_refl eq_refl eq_refl); cbn [us_In us_CachedRead us_CacheWrite
      iu_TotalInputTokens iu_TotalCachedTokens iu_TotalToolUseTokens]; sane_counts; lia.
  - intros completion share out_share.
    rewrite (context_of _ _ _ _ eq_refl eq_refl eq_refl); cbn [image_usage us_In us_CachedRead us_CacheWrite im_InputTokens];
      (done || lia).
Qed.

Lemma prompt_billed_once_witness :
  let context u := ContextTokens (BillingTokens u) in
  context (openAI_usage (mkOpenAIUsage 1000 (Some (600, 100, 0, 0)) 50 None) "" ∅) = 1000 /\
  context (anthropic_usage (mkAnthropicUsage 1000 50 600 100 (Some (100, 0)) "" ∅)) = 1700 /\
  context (gemini_usage (mkGeminiUsage 1000 1050 600 50 0 25 [] [])) = 1025 /\
  context (gemini_usage (mkGeminiUsage 0 1050 600 0 0 0 [] [])) = 1050.
Proof.
  intros context.
  destruct (prompt_billed_once 1000 600 100 25 1050 "" ∅) as (H1 & _ & H2 & H3 & _);
    try (unfold sane, maxSaneTokens; lia).
  destruct (prompt_billed_once 0 600 100 0 1050 "" ∅) as (_ & _ & _ & H4 & _);
    try (unfold sane, maxSaneTokens; lia).
  unfold context. split; [|split; [|split]].
  - rewrite (proj1 (H1 0 0 50 None)). by vm_compute.
  - rewrite H2. by vm_compute.
  - rewrite (proj2 (H3 50 0 [] [])); [by vm_compute|]. by intros [? _].
  - rewrite (proj1 (H4 0 0 [] [])); [by vm_compute|]. unfold total_only. cbn. lia.
Defined.

(** [ValidateTokens] once the nine counts are in range. *)
Lemma ValidateTokens_sane t :
  Forall sane [tk_In t; tk_Out t; tk_CachedRead t; tk_CacheWrite t; tk_AudioIn t; tk_AudioOut t;
               tk_ImageIn t; tk_CacheWrite5m t; tk_CacheWrite1h t] ->
  ValidateTokens t
  = if (tk_In t <? tk_AudioIn t) || (tk_Out t <? tk_AudioOut t) then Err ErrAudioSubset
    else if tk_In t <? tk_ImageIn t then Err ErrImageSubset
    else if tk_CacheWrite t <? wrap64 (tk_CacheWrite5m t + tk_CacheWrite1h t)
    then Err ErrCacheWriteTTL
    else check_tools (map_to_list (tk_ToolCalls t)).
Proof. intros H. unfold ValidateTokens. by rewrite (proj2 (check_counts_ok _) H). Qed.

(** A faithful report can be unbillable.  Vendors count audio and image tokens
    within the whole prompt, cached part included, but billing checks them against
    the uncached part alone, and only the image share of the OpenAI spellings is
    clamped to it.  So whenever more of a prompt's audio (OpenAI) or of its image
    (Gemini) is in it than is left uncached, the quote is refused, on every price
    table, although the report contradicts nothing. *)
Theorem cached_modality_refused list cost prompt cached share out tier rates :
  sane prompt -> sane out -> 0 <= cached <= prompt -> 0 <= share <= prompt -> 0 < prompt ->
  prompt - cached < share ->
  Compute list cost (BillingTokens (openAI_usage
    (mkOpenAIUsage prompt (Some (cached, 0, share, 0)) out None) tier ∅)) rates
    = Err ErrAudioSubset /\
  Compute list cost (BillingTokens (gemini_usage
    (mkGeminiUsage prompt (prompt + out) cached out 0 0 [("IMAGE"%string, share)] []))) rates
    = Err ErrImageSubset.
Proof.
  intros Hp Ho Hc Hs H0 Hlt. unfold sane in Hp, Ho.
  assert (E : subsetIn prompt cached 0 = prompt - cached).
  { rewrite subsetIn_spec by (unfold sane; lia). destruct (Z.ltb_spec prompt (cached + 0)); lia. }
  assert (Hm : modalityTokens [("IMAGE"%string, share)] "IMAGE" = share).
  { cbn. rewrite wrap64_id by (unfold min_int64, max_int64, maxSaneTokens in *; lia). done. }
  assert (Ha : modalityTokens [("IMAGE"%string, share)] "AUDIO" = 0) by done.
  split.
  - unfold Compute. unfold openAI_usage. cbn [ou_PromptTokensDetails ou_CompletionTokensDetails
      ou_PromptTokens ou_CompletionTokens]. rewrite E, ValidateTokens_sane.
    + cbn. destruct (Z.ltb_spec (prompt - cached) share); [done|lia].
    + cbn. unfold sane. repeat constructor; cbn; lia.
  - unfold Compute, gemini_usage. cbn [gu_PromptTokenCount gu_CandidatesTokenCount
      gu_ThoughtsTokenCount gu_ToolUsePromptTokenCount gu_TotalTokenCount
      gu_CachedContentTokenCount gu_PromptTokensDetails gu_CandidatesTokensDetails].
    rewrite Hm, Ha, E. destruct (Z.eqb_spec prompt 0); [lia|]. cbn [andb].
    rewrite !wrap64_id by (unfold min_int64, max_int64, maxSaneTokens in *; lia).
    rewrite ValidateTokens_sane.
    + cbn. destruct (Z.ltb_spec (prompt - cached + 0) 0); [lia|].
      destruct (Z.ltb_spec (out + 0) 0); [lia|]. cbn [orb].
      destruct (Z.ltb_spec (prompt - cached + 0) share); [done|lia].
    + cbn. unfold sane. repeat constructor; cbn; lia.
Qed.

Lemma cached_modality_refused_witness :
  Compute (Flat (mkPrice 1000 1000 1000 1000)) (Flat (mkPrice 1000 1000 1000 1000))
    (BillingTokens (openAI_usage (mkOpenAIUsage 1000 (Some (900, 0, 250, 0)) 40 None) "" ∅))
    (mkRates 10000 10000 10000 (lit "1")) = Err ErrAudioSubset.
Proof.
  refine (proj1 (cached_modality_refused _ _ 1000 900 250 40 "" _ _ _ _ _ _ _));
    unfold sane, maxSaneTokens; lia.
Defined.

(** Validate a usage object given by its fields, all in range. *)
Ltac validate_clamped :=
  cbn [BillingTokens]; rewrite ValidateTokens_sane;
  [ cbn; change (wrap64 (0 + 0)) with 0; unfold sane in *;
    repeat match goal with |- context [?a <? ?b] => destruct (Z.ltb_spec a b); try lia end; done
  | cbn; repeat constructor; unfold sane in *; cbn; lia ].

(** A clamped report is always billable: on the responses and the image surfaces
    the image share never exceeds the uncached input, whatever the upstream
    claims, so in-range totals validate up to the tool counts. *)
Theorem clamped_reports_validate w im tier tools :
  sane (ru_InputTokens w) -> sane (ru_OutputTokens w) ->
  (forall c r i, ru_InputTokensDetails w = Some (c, r, i) -> sane c /\ sane r) ->
  sane (im_InputTokens im) -> sane (im_OutputTokens im) ->
  ValidateTokens (BillingTokens (responses_usage w tier tools))
    = check_tools (map_to_list (toolCallCounts tools)) /\
  ValidateTokens (BillingTokens (image_usage im)) = Ok tt.
Proof.
  intros Hi Ho Hd Him Hom.
  assert (Hn : forall v p, 0 <= p -> 0 <= Z.min (nonNegative v) p <= p).
  { intros v p Hp. unfold nonNegative. destruct (Z.ltb_spec v 0); lia. }
  split.
  - destruct (ru_InputTokensDetails w) as [[[c r] i]|] eqn:E.
    + destruct (Hd c r i eq_refl) as [Hc Hr].
      destruct (subsetIn_sum _ c r Hi Hc Hr) as [Hs _]. specialize (Hn i _ (proj1 Hs)).
      unfold responses_usage. rewrite E. set (si := subsetIn _ c r) in *. clearbody si.
      destruct (ru_OutputTokensDetails w) as [[? ?]|]; validate_clamped.
    + unfold responses_usage. rewrite E.
      destruct (ru_OutputTokensDetails w) as [[? ?]|]; validate_clamped.
  - unfold image_usage. cbn [BillingTokens].
    rewrite ValidateTokens_sane.
    + cbn. unfold sane in *. rewrite map_to_list_empty.
      destruct (im_InputImageTokens im) as [v|]; [specialize (Hn v _ (proj1 Him))|];
      repeat match goal with |- context [?a <? ?b] => destruct (Z.ltb_spec a b); try lia end; done.
    + cbn. unfold sane in *. destruct (im_InputImageTokens im) as [v|];
        [specialize (Hn v _ (proj1 Him))|]; repeat constructor; cbn; lia.
Qed.

Lemma clamped_reports_validate_witness :
  ValidateTokens (BillingTokens (image_usage (mkImageUsage 50 4160 (Some 500) (Some 9000)))) = Ok tt.
Proof.
  refine (proj2 (clamped_reports_validate (mkResponsesUsage 10 None 20 None) _ "" ∅ _ _ _ _ _));
    try (unfold sane, maxSaneTokens; cbn; lia). intros; discriminate.
Defined.

(** The estimate is never zero for text that is there, is at most half a token
    per byte and at least a quarter, and on ASCII text is exactly half. *)
Theorem estimate_bounds s :
  s <> [] ->
  Z.max 1 (Z.quot (len s) 4) <= EstimateTokens s <= Z.max 1 (Z.quot (len s) 2) /\
  (Forall (fun c => ord c < 128) s -> EstimateTokens s = Z.max 1 (Z.quot (len s) 2)).
Proof.
  intros Hs. unfold EstimateTokens, bytesPerToken, runesPerToken.
  rewrite bool_decide_eq_false_2 by done.
  pose proof (rune_count_bounds s) as [Hr _]. pose proof (len_nonneg s).
  assert (Hq : Z.quot (len s) 4 <= Z.quot (len s) 2).
  { rewrite !Z.quot_div_nonneg by lia. apply Z.div_le_compat_l; lia. }
  assert (Hc : Z.quot (RuneCount s) 2 <= Z.quot (len s) 2) by (apply Z.quot_le_mono; lia).
  split.
  - destruct (Z.ltb_spec (Z.max (Z.quot (len s) 4) (Z.quot (RuneCount s) 2)) 1); lia.
  - intros Ha. rewrite (rune_count_ascii s Ha).
    destruct (Z.ltb_spec (Z.max (Z.quot (len s) 4) (Z.quot (len s) 2)) 1); lia.
Qed.

Lemma estimate_bounds_witness :
  EstimateTokens (lit "hello world") = 5 /\ 1 <= EstimateTokens (map ascii_of_nat [226; 130; 172]%nat) <= 1.
Proof.
  split.
  - rewrite (proj2 (estimate_bounds (lit "hello world") ltac:(done))); [reflexivity|].
    repeat constructor.
  - exact (proj1 (estimate_bounds (map ascii_of_nat [226; 130; 172]%nat) ltac:(done))).
Defined.
