(* ===== verification/Stream.v ===== *)
(** * Streaming: [internal/gateway/proxy/stream.go] and [stream_usage.go]

    The upstream's bytes are cut into event frames, written to the client as they
    are, and read on the side for usage.  The file models the cutting, the
    accumulator with one arm per surface, and the loop that pumps frames until the
    upstream ends, the client leaves or a deadline fires. *)
From S2P Require Import Prelude GoStr PriceTable Pricing Surfaces Usage.
From Stdlib Require Import QArith_base.

Open Scope Z_scope.

Definition newline : ascii := byte_of 10.

(** ** Frames: [readUpstream] *)

(** [ReadBytes('\n')] until the end: every line with its terminator, and what is
    left after the last one. *)
Fixpoint split_lines (s : bytes) : list bytes * bytes :=
  match s with
  | [] => ([], [])
  | c :: s' =>
      let '(ls, rest) := split_lines s' in
      if Ascii.eqb c newline then ([c] :: ls, rest)
      else match ls with
           | [] => ([], c :: rest)
           | l :: ls' => ((c :: l) :: ls', rest)
           end
  end.

(** [bytes.TrimRight] with a cutset. *)
Definition trim_right_set (cut : list ascii) (s : bytes) : bytes :=
  rev ((fix go (l : bytes) : bytes :=
          match l with
          | c :: l' => if bool_decide (c ∈ cut) then go l' else l
          | [] => []
          end) (rev s)).

Definition isBlankLine (line : bytes) : bool :=
  bool_decide (trim_right_set [byte_of 13; newline] line = []).

(** The loop over terminated lines: frames sent, and the frame being built. *)
Fixpoint group_lines (frame : bytes) (ls : list bytes) : list bytes * bytes :=
  match ls with
  | [] => ([], frame)
  | l :: ls' =>
      if isBlankLine l
      then let '(fs, rest) := group_lines [] ls' in ((frame ++ l) :: fs, rest)
      else group_lines (frame ++ l) ls'
  end.

(** [readUpstream] on a body that ends: the chunks sent, in order.  The last line
    may lack its terminator; it is read together with the error and, being part of
    the frame, goes out with it. *)
Definition readUpstream (body : bytes) : list bytes :=
  let '(ls, last) := split_lines body in
  let '(fs, frame) := group_lines [] ls in
  let '(fs', frame) :=
    if bool_decide (last = []) then ([], frame)
    else if isBlankLine last then ([frame ++ last], []) else ([], frame ++ last) in
  fs ++ fs' ++ (if bool_decide (frame = []) then [] else [frame]).

(** ** Payloads: [sseDataLines] *)

Definition data_prefix : bytes := lit "data:".

(** [bytes.Split] on the newline. *)
Fixpoint split_on (sep : ascii) (s : bytes) : list bytes :=
  match s with
  | [] => [[]]
  | c :: s' =>
      if Ascii.eqb c sep then [] :: split_on sep s'
      else match split_on sep s' with
           | [] => [[c]]
           | l :: ls => (c :: l) :: ls
           end
  end.

Definition data_payload (line : bytes) : option bytes :=
  let line := trim_right (byte_of 13) line in
  if has_prefix line data_prefix then
    let payload := trim_space (drop (length data_prefix) line) in
    if bool_decide (payload = []) then None else Some payload
  else None.

Definition sseDataLines (frame : bytes) : list bytes := omap data_payload (split_on newline frame).

(** ** The accumulator *)

Record usageAccumulator := mkAcc {
  a_in : Z; a_out : Z; a_cachedRead : Z; a_cacheWrite : Z; a_reasoning : Z;
  a_audioIn : Z; a_audioOut : Z; a_imageIn : Z; a_imageOut : Z;
  a_cacheWrite5m : Z; a_cacheWrite1h : Z;
  a_serviceTier : string;
  a_toolCalls : gmap string Z;
  a_seen : bool;
  a_resourceID : string;
}.

Definition newAccumulator : usageAccumulator := mkAcc 0 0 0 0 0 0 0 0 0 0 0 "" ∅ false "".

Definition setUsage (a : usageAccumulator) (u : Usage) : usageAccumulator :=
  mkAcc (us_In u) (us_Out u) (us_CachedRead u) (us_CacheWrite u) (us_Reasoning u)
    (us_AudioIn u) (us_AudioOut u) (us_ImageIn u) (us_ImageOut u)
    (us_CacheWrite5m u) (us_CacheWrite1h u) (us_ServiceTier u) (us_ToolCalls u)
    (us_Present u) (a_resourceID a).

Definition set_resource (a : usageAccumulator) (id : string) : usageAccumulator :=
  if bool_decide (id = ""%string) then a
  else mkAcc (a_in a) (a_out a) (a_cachedRead a) (a_cacheWrite a) (a_reasoning a)
         (a_audioIn a) (a_audioOut a) (a_imageIn a) (a_imageOut a)
         (a_cacheWrite5m a) (a_cacheWrite1h a) (a_serviceTier a) (a_toolCalls a) (a_seen a) id.

(** The larger of two running totals wins, tool by tool; a count of zero or less
    is never larger than an absent one. *)
Definition merge_tool (m : gmap string Z) (t : string * Z) : gmap string Z :=
  if tool_calls m t.1 <? t.2 then <[t.1 := t.2]> m else m.

Definition with_tool_calls (a : usageAccumulator) (m : gmap string Z) : usageAccumulator :=
  mkAcc (a_in a) (a_out a) (a_cachedRead a) (a_cacheWrite a) (a_reasoning a)
    (a_audioIn a) (a_audioOut a) (a_imageIn a) (a_imageOut a)
    (a_cacheWrite5m a) (a_cacheWrite1h a) (a_serviceTier a) m (a_seen a) (a_resourceID a).

Definition mergeToolCalls (a : usageAccumulator) (next : gmap string Z) : usageAccumulator :=
  with_tool_calls a (fold_left merge_tool (map_to_list next) (a_toolCalls a)).

Definition result_of (a : usageAccumulator) : Usage :=
  mkUsage (a_in a) (a_out a) (a_cachedRead a) (a_cacheWrite a) (a_reasoning a)
    (a_audioIn a) (a_audioOut a) (a_imageIn a) (a_imageOut a)
    (a_cacheWrite5m a) (a_cacheWrite1h a) (a_serviceTier a) (a_toolCalls a) (a_seen a).

(** *** Events, as decoded *)

Record responsesEvent := mkResponsesEvent {
  re_Type : string;
  re_Delta : bytes;
  (** id, service tier, tool usage, usage, output item types *)
  re_Response : option (string * string * gmap string json_value * option responsesUsage
                        * list string);
  re_ServiceTier : string;
  re_ToolUsage : gmap string json_value;
}.

Record openAIChunk := mkChunk {
  ch_Contents : list bytes;
  ch_Usage : option openAIUsage;
  ch_ServiceTier : string;
  ch_ToolUsage : gmap string json_value;
}.

Record anthropicEvent := mkAnthropicEvent {
  ae_Type : string;
  ae_Message : option (option anthropicUsage);
  ae_Delta : option bytes;
  ae_Usage : option anthropicUsage;
}.

Record geminiEvent := mkGeminiEvent {
  ge_Texts : list bytes;
  ge_UsageMetadata : option geminiUsageMetadata;
}.

(** A raw [usage] member: absent, or present and decoding to a usage object or
    not. *)
Abbreviation rawUsage := (option (option interactionUsage)).

Record interactionEvent := mkInteractionEvent {
  ie_ID : string;
  ie_Text : bytes;
  ie_Usage : rawUsage;
  ie_TotalUsage : rawUsage;
  ie_ServiceTier : string;
  ie_MetadataTotalUsage : rawUsage;
  (** id, usage, service tier *)
  ie_Interaction : option (string * rawUsage * string);
}.

(** One decoder per struct; [None] when the payload does not decode. *)
Record Decoders := mkDecoders {
  dec_responses : bytes -> option responsesEvent;
  dec_interaction : bytes -> option interactionEvent;
  dec_openAI : bytes -> option openAIChunk;
  dec_anthropic : bytes -> option anthropicEvent;
  dec_gemini : bytes -> option geminiEvent;
  dec_image : bytes -> option (option imageUsage);
}.

(** *** One arm per surface; the text goes to the buffer *)

Abbreviation state := (usageAccumulator * bytes)%type.

Definition consumeResponses (st : state) (ev : responsesEvent) : state :=
  let '(a, text) := st in
  let a := match re_Response ev with
           | Some (id, _, _, _, _) => set_resource a id
           | None => a
           end in
  if bool_decide (re_Type ev = "response.output_text.delta"%string) then (a, text ++ re_Delta ev)
  else if bool_decide (re_Type ev = "response.completed"%string)
          || bool_decide (re_Type ev = "response.incomplete"%string) then
    match re_Response ev with
    | Some (_, tier, tools, Some w, output) =>
        let tier := if bool_decide (tier = ""%string) then re_ServiceTier ev else tier in
        let u := addGeneratedImages (responses_usage w tier tools) (countGeneratedImages output) in
        (mergeToolCalls (setUsage a u) (toolCallCounts (re_ToolUsage ev)), text)
    | _ => (a, text)
    end
  else (a, text).

Definition override {A} (later earlier : option A) : option A :=
  match later with Some _ => later | None => earlier end.

Definition consumeInteraction (st : state) (ev : interactionEvent) : state :=
  let '(a, text) := st in
  let a := set_resource a (ie_ID ev) in
  let usage := override (ie_MetadataTotalUsage ev) (override (ie_TotalUsage ev) (ie_Usage ev)) in
  let '(a, usage, tier) :=
    match ie_Interaction ev with
    | Some (id, usage', tier') =>
        (set_resource a id, override usage' usage,
         if bool_decide (tier' = ""%string) then ie_ServiceTier ev else tier')
    | None => (a, usage, ie_ServiceTier ev)
    end in
  match usage with
  | None => (a, text ++ ie_Text ev)
  | Some raw => (setUsage a (parseGeminiInteractionUsage (Some (raw, tier))), text ++ ie_Text ev)
  end.

Definition consumeOpenAI (st : state) (ev : openAIChunk) : state :=
  let '(a, text) := st in
  (match ch_Usage ev with
   | Some w => setUsage a (openAI_usage w (ch_ServiceTier ev) (ch_ToolUsage ev))
   | None => a
   end, text ++ concat (ch_Contents ev)).

(** [message_delta]: the running output total, the tier and the tools. *)
Definition set_delta (a : usageAccumulator) (u : Usage) : usageAccumulator :=
  mergeToolCalls
    (mkAcc (a_in a) (us_Out u) (a_cachedRead a) (a_cacheWrite a) (a_reasoning a)
       (a_audioIn a) (a_audioOut a) (a_imageIn a) (a_imageOut a)
       (a_cacheWrite5m a) (a_cacheWrite1h a)
       (if bool_decide (us_ServiceTier u = ""%string) then a_serviceTier a else us_ServiceTier u)
       (a_toolCalls a) true (a_resourceID a))
    (us_ToolCalls u).

Definition consumeAnthropic (st : state) (ev : anthropicEvent) : state :=
  let '(a, text) := st in
  if bool_decide (ae_Type ev = "message_start"%string) then
    (match ae_Message ev with
     | Some (Some w) => setUsage a (anthropic_usage w)
     | _ => a
     end, text)
  else if bool_decide (ae_Type ev = "content_block_delta"%string) then
    (a, text ++ default [] (ae_Delta ev))
  else if bool_decide (ae_Type ev = "message_delta"%string) then
    (match ae_Usage ev with Some w => set_delta a (anthropic_usage w) | None => a end, text)
  else (a, text).

Definition consumeGemini (st : state) (ev : geminiEvent) : state :=
  let '(a, text) := st in
  (match ge_UsageMetadata ev with
   | None => a
   | Some m =>
       let u := gemini_usage m in
       mkAcc (us_In u) (us_Out u) (us_CachedRead u) (a_cacheWrite a) (us_Reasoning u)
         (us_AudioIn u) (us_AudioOut u) (us_ImageIn u) (us_ImageOut u)
         (a_cacheWrite5m a) (a_cacheWrite1h a) (a_serviceTier a) (a_toolCalls a) true
         (a_resourceID a)
   end, text ++ concat (ge_Texts ev)).

Definition consumeImage (st : state) (r : option (option imageUsage)) : state :=
  let '(a, text) := st in
  let u := ParseImageUsage r in
  (if us_Present u then setUsage a u else a, text).

Definition decoded {A} (f : state -> A -> state) (r : option A) (st : state) : state :=
  match r with Some ev => f st ev | None => st end.

Definition done_marker : bytes := lit "[DONE]".

Definition consume_payload (d : Decoders) (surface : Surface) (st : state) (data : bytes) : state :=
  if beq data done_marker then st
  else match surface with
  | SurfaceMessages => decoded consumeAnthropic (dec_anthropic d data) st
  | SurfaceResponses | SurfaceResponsesCompact =>
      decoded consumeResponses (dec_responses d data) st
  | SurfaceGeminiInteractions => decoded consumeInteraction (dec_interaction d data) st
  | SurfaceGenerateContent => decoded consumeGemini (dec_gemini d data) st
  | SurfaceImages | SurfaceImagesEdit => consumeImage st (dec_image d data)
  | _ => decoded consumeOpenAI (dec_openAI d data) st
  end.

Definition consume (d : Decoders) (surface : Surface) (st : state) (frame : bytes) : state :=
  fold_left (consume_payload d surface) (sseDataLines frame) st.

(** ** The pump: [Streamer.Pump]

    The loop selects between the next chunk, its closing, the client's leaving and
    a deadline; a run is the sequence of what it selected.  A chunk carries
    whether writing it to the client succeeded, a closing whether the read ended
    in an error other than [io.EOF]. *)
Inductive pump_event :=
  | EvChunk (frame : bytes) (write_ok : bool)
  | EvClosed (failed : bool)
  | EvClientGone
  | EvDeadline.

Record StreamOutcome := mkStreamOutcome {
  so_Usage : Usage;
  so_ResourceID : string;
  so_FirstByteSent : bool;
  so_Canceled : bool;
  so_Interrupted : bool;
  so_TimedOut : bool;
  so_Text : bytes;
}.

Inductive pump_error := ErrNotFlushable | ErrRead | ErrIdle | ErrFirstByte.

(** Everything the loop has read so far; the flags are set by the return paths. *)
Definition outcome_of (st : state) (sent canceled interrupted timedOut : bool) : StreamOutcome :=
  mkStreamOutcome (result_of st.1) (a_resourceID st.1) sent canceled interrupted timedOut st.2.

(** [StreamOutcome{}] but for [TimedOut]: nothing is read back on this path. *)
Definition outcome_first_byte : StreamOutcome :=
  mkStreamOutcome no_usage "" false false false true [].

Section pump.
Variable d : Decoders.
Variable surface : Surface.

(** The outcome, the error and the frames written; [None] while the run is not
    over. *)
Fixpoint pump_loop (evs : list pump_event) (st : state) (sent : bool) (written : list bytes) :
    option (StreamOutcome * option pump_error * list bytes) :=
  match evs with
  | [] => None
  | EvClientGone :: _ => Some (outcome_of st sent true false false, None, written)
  | EvClosed failed :: _ =>
      if failed then Some (outcome_of st sent false sent false, Some ErrRead, written)
      else Some (outcome_of st sent false false false, None, written)
  | EvChunk frame write_ok :: evs' =>
      if write_ok then pump_loop evs' (consume d surface st frame) true (written ++ [frame])
      else Some (outcome_of st true true false false, None, written)
  | EvDeadline :: _ =>
      if sent then Some (outcome_of st sent false true true, Some ErrIdle, written)
      else Some (outcome_first_byte, Some ErrFirstByte, written)
  end.

Definition Pump (flushable : bool) (evs : list pump_event) :
    option (StreamOutcome * option pump_error * list bytes) :=
  if flushable then pump_loop evs (newAccumulator, []) false []
  else Some (mkStreamOutcome no_usage "" false false false false [], Some ErrNotFlushable, []).
End pump.

(** ** Properties: framing *)

Lemma split_lines_concat s : concat (split_lines s).1 ++ (split_lines s).2 = s.
Proof.
  induction s as [|c s IH]; cbn [split_lines]; [done|].
  destruct (split_lines s) as [ls rest]. cbn [fst snd] in IH. subst s.
  destruct (Ascii.eqb c newline); [done|]. by destruct ls.
Qed.

Lemma group_lines_concat frame ls :
  concat (group_lines frame ls).1 ++ (group_lines frame ls).2 = frame ++ concat ls.
Proof.
  revert frame. induction ls as [|l ls IH]; intros frame; cbn [group_lines concat].
  - by rewrite app_nil_r.
  - destruct (isBlankLine l).
    + specialize (IH []). destruct (group_lines [] ls) as [fs rest]. cbn [fst snd] in *.
      cbn [concat]. rewrite <- !app_assoc. f_equal. f_equal. exact IH.
    + rewrite IH. by rewrite <- app_assoc.
Qed.

(** A frame is complete when it ends in a blank line. *)
Definition complete (frame : bytes) : Prop :=
  exists pre l, frame = pre ++ l /\ isBlankLine l = true.

Lemma group_lines_complete frame ls : Forall complete (group_lines frame ls).1.
Proof.
  revert frame. induction ls as [|l ls IH]; intros frame; cbn [group_lines]; [constructor|].
  destruct (isBlankLine l) eqn:E; [|apply IH].
  specialize (IH []). destruct (group_lines [] ls) as [fs rest]. cbn [fst].
  constructor; [|exact IH]. by exists frame, l.
Qed.

(** The client gets the upstream's bytes: the frames cut from a body are, put
    together again, that body, byte for byte, and every frame but the last ends
    at a blank line, so no client ever sees half an event while more is to come. *)
Theorem frames_are_the_body body :
  concat (readUpstream body) = body /\
  Forall complete (removelast (readUpstream body)).
Proof.
  unfold readUpstream.
  pose proof (split_lines_concat body) as Hs.
  destruct (split_lines body) as [ls last]. cbn [fst snd] in Hs.
  pose proof (group_lines_concat [] ls) as Hg. pose proof (group_lines_complete [] ls) as Hc.
  destruct (group_lines [] ls) as [fs frame]. cbn [fst snd] in Hg, Hc. cbn in Hg.
  rewrite <- Hg in Hs.
  assert (Hinit : forall x, Forall complete (removelast (fs ++ [x]))).
  { intros x. by rewrite removelast_last. }
  assert (Hfs : Forall complete (removelast fs)).
  { by apply Forall_removelast. }
  case_bool_decide as E1.
  - subst last. rewrite app_nil_r in Hs. cbn [app].
    case_bool_decide as E2.
    + subst frame. rewrite !app_nil_r in *. by split.
    + rewrite concat_app. cbn [concat]. rewrite app_nil_r. split; [exact Hs|apply Hinit].
  - destruct (isBlankLine last) eqn:E; cbn [app].
    + case_bool_decide; [|done]. rewrite concat_app. cbn [concat].
      rewrite app_nil_r, app_assoc. split; [exact Hs|apply Hinit].
    + rewrite bool_decide_eq_false_2 by (destruct frame, last; done).
      rewrite concat_app. cbn [concat]. rewrite app_nil_r, app_assoc.
      split; [exact Hs|apply Hinit].
Qed.

(** ** Properties: the pump *)

Definition stops (e : pump_event) : bool :=
  match e with EvChunk _ ok => negb ok | _ => true end.

Definition forwarded (evs : list pump_event) : list bytes :=
  omap (fun e => match e with EvChunk f true => Some f | _ => None end) evs.

(** What a finished run is: the frames it forwarded before the event that ended
    it, and an outcome that says so. *)
Record pumped (d : Decoders) (surface : Surface) (st : state) (sent : bool)
    (frames : list bytes) (stop : pump_event)
    (out : StreamOutcome) (err : option pump_error) : Prop := {
  pumped_sent : so_FirstByteSent out = true <->
    sent = true \/ frames <> [] \/ exists f, stop = EvChunk f false;
  pumped_usage :
    let st' := fold_left (consume d surface) frames st in
    if so_FirstByteSent out || negb (so_TimedOut out)
    then so_Usage out = result_of st'.1 /\ so_Text out = st'.2
    else so_Usage out = no_usage /\ so_Text out = [];
  pumped_interrupted : so_Interrupted out = true <->
    so_FirstByteSent out = true /\ (stop = EvClosed true \/ stop = EvDeadline);
  pumped_canceled : so_Canceled out = true <->
    stop = EvClientGone \/ exists f, stop = EvChunk f false;
  pumped_timedOut : so_TimedOut out = true <-> stop = EvDeadline;
  pumped_err : err = None <-> stop <> EvClosed true /\ stop <> EvDeadline;
}.

Lemma pump_loop_spec d surface evs st sent written :
  match pump_loop d surface evs st sent written with
  | None => Forall (fun e => stops e = false) evs
  | Some (out, err, w) =>
      exists pre stop post, evs = pre ++ stop :: post /\
        Forall (fun e => stops e = false) pre /\ stops stop = true /\
        w = written ++ forwarded pre /\
        pumped d surface st sent (forwarded pre) stop out err
  end.
Proof.
  revert st sent written. induction evs as [|e evs IH]; intros st sent written;
    cbn [pump_loop]; [constructor|].
  destruct e as [frame ok|failed| |]; cbv iota beta.
  - destruct ok.
    + specialize (IH (consume d surface st frame) true (written ++ [frame])).
      destruct (pump_loop _ _ _ _ _ _) as [[[out err] w]|].
      * destruct IH as (pre & stop & post & -> & Hpre & Hs & -> & Hp).
        exists (EvChunk frame true :: pre), stop, post.
        split_and!; [done|by constructor|done|cbn; by rewrite <- app_assoc|].
        destruct Hp as [H1 H2 H3 H4 H5 H6]. split; try done.
        rewrite H1. cbn. naive_solver.
      * by constructor.
    + exists [], (EvChunk frame false), evs. cbn. rewrite app_nil_r.
      split_and!; [done|constructor|done|done|]. split; cbn; naive_solver.
  - destruct failed; [exists [], (EvClosed true), evs|exists [], (EvClosed false), evs];
      (split_and!; [done|constructor|done|cbn; by rewrite app_nil_r|]);
      split; cbn; destruct sent; cbn; naive_solver.
  - exists [], EvClientGone, evs.
    split_and!; [done|constructor|done|cbn; by rewrite app_nil_r|].
    split; cbn; destruct sent; cbn; naive_solver.
  - destruct sent; exists [], EvDeadline, evs;
      (split_and!; [done|constructor|done|cbn; by rewrite app_nil_r|]);
      split; cbn; naive_solver.
Qed.

(** C36: settlement and the client see one run.  Pumping ends at the first event that
    ends it; the client has been written exactly the frames read before, in
    order; the outcome says a byte went out exactly when one did, cancellation and
    interruption exactly for their causes, and the usage and text it carries are
    those of the very frames that were forwarded.  Until then nothing is
    written, so an error before the first byte can still be a real status. *)
Theorem pump_contract d surface flushable evs :
  match Pump d surface flushable evs with
  | None => flushable = true /\ Forall (fun e => stops e = false) evs
  | Some (out, err, w) =>
      (so_FirstByteSent out = false -> w = []) /\
      if flushable then
        exists pre stop post, evs = pre ++ stop :: post /\
          Forall (fun e => stops e = false) pre /\ stops stop = true /\
          w = forwarded pre /\ pumped d surface (newAccumulator, []) false w stop out err
      else err = Some ErrNotFlushable /\ so_FirstByteSent out = false
  end.
Proof.
  unfold Pump. destruct flushable; [|done].
  pose proof (pump_loop_spec d surface evs (newAccumulator, []) false []) as H.
  destruct (pump_loop _ _ _ _ _ _) as [[[out err] w]|]; [|done].
  destruct H as (pre & stop & post & He & Hpre & Hs & -> & Hp). cbn [app] in *. split.
  - intros Hf. destruct Hp as [H1 _ _ _ _ _]. destruct (forwarded pre) as [|f fs]; [done|].
    destruct (so_FirstByteSent out); [done|]. naive_solver.
  - by exists pre, stop, post.
Qed.

(** ** Properties: usage in a stream *)

Lemma result_setUsage a u : result_of (setUsage a u) = u.
Proof. by destruct u. Qed.

Lemma result_resource a id : result_of (set_resource a id) = result_of a.
Proof. unfold set_resource. by case_bool_decide. Qed.

Lemma mergeToolCalls_empty a : mergeToolCalls a ∅ = a.
Proof. unfold mergeToolCalls. rewrite map_to_list_empty. by destruct a. Qed.

Definition empty_body : Body := mkBody None None None None None None None.

(** The whole response whose usage a payload reports, if it reports any. *)
Definition report (d : Decoders) (surface : Surface) (data : bytes) : option Body :=
  if beq data done_marker then None
  else match surface with
  | SurfaceResponses | SurfaceResponsesCompact =>
      match dec_responses d data with
      | Some ev =>
          if bool_decide (re_Type ev = "response.completed"%string)
             || bool_decide (re_Type ev = "response.incomplete"%string) then
            match re_Response ev with
            | Some (_, tier, tools, Some w, output) =>
                let tier := if bool_decide (tier = ""%string) then re_ServiceTier ev else tier in
                Some (mkBody None (Some (Some w, tier, tools, output)) None None None None None)
            | _ => None
            end
          else None
      | None => None
      end
  | SurfaceGeminiInteractions =>
      match dec_interaction d data with
      | Some ev =>
          let usage := override (ie_MetadataTotalUsage ev)
                         (override (ie_TotalUsage ev) (ie_Usage ev)) in
          let '(usage, tier) :=
            match ie_Interaction ev with
            | Some (_, usage', tier') =>
                (override usage' usage,
                 if bool_decide (tier' = ""%string) then ie_ServiceTier ev else tier')
            | None => (usage, ie_ServiceTier ev)
            end in
          match usage with
          | Some raw => Some (mkBody None None None None (Some (raw, tier)) None None)
          | None => None
          end
      | None => None
      end
  | SurfaceGenerateContent =>
      match dec_gemini d data with
      | Some ev => (fun m => mkBody None None (Some (Some m)) None None None None)
                     <$> ge_UsageMetadata ev
      | None => None
      end
  | SurfaceImages | SurfaceImagesEdit =>
      match dec_image d data with
      | Some (Some w) => Some (mkBody (Some (Some w)) None None None None None None)
      | _ => None
      end
  | _ =>
      match dec_openAI d data with
      | Some ev => (fun w => mkBody None None None None None None
                               (Some (Some w, ch_ServiceTier ev, ch_ToolUsage ev)))
                     <$> ch_Usage ev
      | None => None
      end
  end.

(** The surfaces whose stream reports usage as a whole, each report replacing
    the one before. *)
Definition whole_report (s : Surface) : bool :=
  match s with
  | SurfaceChat | SurfaceEmbeddings | SurfaceResponses | SurfaceResponsesCompact
  | SurfaceGenerateContent | SurfaceGeminiInteractions | SurfaceImages | SurfaceImagesEdit => true
  | _ => false
  end.

(** The tool counts beside the [response] object of an event: the larger of the two
    counts of a tool is the one that is billed. *)
Definition beside (d : Decoders) (surface : Surface) (data : bytes) : gmap string Z :=
  match surface with
  | SurfaceResponses | SurfaceResponsesCompact =>
      match dec_responses d data with Some ev => toolCallCounts (re_ToolUsage ev) | None => ∅ end
  | _ => ∅
  end.
Definition raise_tools (u : Usage) (m : gmap string Z) : Usage :=
  with_tools u (fold_left merge_tool (map_to_list m) (us_ToolCalls u)).

Lemma raise_none u : raise_tools u ∅ = u.
Proof. unfold raise_tools. rewrite map_to_list_empty. by destruct u. Qed.
Lemma result_raised a u m : result_of (mergeToolCalls (setUsage a u) m) = raise_tools u m.
Proof. by destruct u. Qed.

(** The last of the reports in a stream, with what is counted beside it. *)
Definition latest (d : Decoders) (surface : Surface) (datas : list bytes) : option (Body * gmap string Z) :=
  head (rev (omap (fun x => (fun b => (b, beside d surface x)) <$> report d surface x) datas)).

(** Fields a Gemini report leaves alone. *)
Definition gemini_untouched (a : usageAccumulator) : Prop :=
  a_cacheWrite a = 0 /\ a_cacheWrite5m a = 0 /\ a_cacheWrite1h a = 0 /\
  a_serviceTier a = ""%string /\ a_toolCalls a = ∅.

Lemma gemini_usage_untouched m :
  us_CacheWrite (gemini_usage m) = 0 /\ us_CacheWrite5m (gemini_usage m) = 0 /\
  us_CacheWrite1h (gemini_usage m) = 0 /\ us_ServiceTier (gemini_usage m) = ""%string /\
  us_ToolCalls (gemini_usage m) = ∅ /\ us_Present (gemini_usage m) = true.
Proof. unfold gemini_usage. by destruct (_ && _). Qed.

Lemma usage_eta u :
  mkUsage (us_In u) (us_Out u) (us_CachedRead u) (us_CacheWrite u) (us_Reasoning u)
    (us_AudioIn u) (us_AudioOut u) (us_ImageIn u) (us_ImageOut u) (us_CacheWrite5m u)
    (us_CacheWrite1h u) (us_ServiceTier u) (us_ToolCalls u) (us_Present u) = u.
Proof. by destruct u. Qed.

Lemma step_gemini st ev :
  gemini_untouched st.1 ->
  gemini_untouched (consumeGemini st ev).1 /\
  result_of (consumeGemini st ev).1
  = match ge_UsageMetadata ev with Some m => gemini_usage m | None => result_of st.1 end.
Proof.
  destruct st as [a text]. cbn [fst consumeGemini]. intros (H1 & H2 & H3 & H4 & H5).
  destruct (ge_UsageMetadata ev) as [m|]; [|done].
  destruct (gemini_usage_untouched m) as (G1 & G2 & G3 & G4 & G5 & G6). split; [done|].
  etransitivity; [|apply usage_eta]. unfold result_of.
  cbn [a_in a_out a_cachedRead a_cacheWrite a_reasoning a_audioIn a_audioOut a_imageIn
    a_imageOut a_cacheWrite5m a_cacheWrite1h a_serviceTier a_toolCalls a_seen].
  by rewrite H1, H2, H3, H4, H5, G1, G2, G3, G4, G5, G6.
Qed.

Lemma step_responses st ev :
  result_of (consumeResponses st ev).1
  = if bool_decide (re_Type ev = "response.completed"%string)
       || bool_decide (re_Type ev = "response.incomplete"%string) then
      match re_Response ev with
      | Some (_, tier, tools, Some w, output) =>
          let tier := if bool_decide (tier = ""%string) then re_ServiceTier ev else tier in
          raise_tools (addGeneratedImages (responses_usage w tier tools) (countGeneratedImages output))
            (toolCallCounts (re_ToolUsage ev))
      | _ => result_of st.1
      end
    else result_of st.1.
Proof.
  destruct st as [a text]. cbn [fst]. unfold consumeResponses.
  destruct (re_Response ev) as [[[[[id tier] tools] [w|]] output]|];
    (case_bool_decide as E1; [rewrite E1; cbn; try apply result_resource|]);
    destruct (_ || _); cbn [fst]; try apply result_resource;
    rewrite ?result_raised; done.
Qed.

Lemma step_interaction st ev :
  result_of (consumeInteraction st ev).1
  = let usage := override (ie_MetadataTotalUsage ev)
                   (override (ie_TotalUsage ev) (ie_Usage ev)) in
    let '(usage, tier) :=
      match ie_Interaction ev with
      | Some (_, usage', tier') =>
          (override usage' usage,
           if bool_decide (tier' = ""%string) then ie_ServiceTier ev else tier')
      | None => (usage, ie_ServiceTier ev)
      end in
    match usage with
    | Some raw => parseGeminiInteractionUsage (Some (raw, tier))
    | None => result_of st.1
    end.
Proof.
  destruct st as [a text]. unfold consumeInteraction.
  destruct (ie_Interaction ev) as [[[id usage'] tier']|]; cbn zeta; cbn [fst].
  - destruct (override usage' _) as [raw|]; cbn [fst]; [apply result_setUsage|].
    by rewrite !result_resource.
  - destruct (override _ _) as [raw|]; cbn [fst]; [apply result_setUsage|].
    by rewrite result_resource.
Qed.

Lemma report_step d surface st data :
  whole_report surface = true -> gemini_untouched st.1 \/ surface <> SurfaceGenerateContent ->
  (gemini_untouched (consume_payload d surface st data).1 \/ surface <> SurfaceGenerateContent) /\
  result_of (consume_payload d surface st data).1
  = match report d surface data with
    | Some b => raise_tools (ParseUsage surface b) (beside d surface data)
    | None => result_of st.1
    end.
Proof.
  intros Hs Hg. unfold consume_payload, report, beside. destruct (beq data done_marker); [done|].
  assert (HI : forall r : option (option imageUsage),
    result_of (consumeImage st r).1
    = match r with Some (Some w) => image_usage w | _ => result_of st.1 end).
  { destruct st as [a text]. intros [[w|]|]; done. }
  destruct surface; try discriminate Hs; unfold decoded.
  7: { destruct Hg as [Hg|]; [|done]. destruct (dec_gemini d data) as [ev|];
         [|split; [by left|done]].
       destruct (step_gemini st ev Hg) as [H1 ->]. split; [by left|].
       by destruct (ge_UsageMetadata ev); cbn [fmap option_fmap option_map]; rewrite ?raise_none. }
  all: split; [right; discriminate|].
  3,4: destruct (dec_image d data) as [[w|]|]; rewrite ?raise_none; apply HI.
  3,4: destruct (dec_responses d data) as [ev|]; [|done];
    rewrite (step_responses st ev);
    destruct (_ || _), (re_Response ev) as [[[[[id tier] tools] [w|]] output]|]; done.
  3: destruct (dec_interaction d data) as [ev|]; [|done]; rewrite step_interaction; cbv zeta;
    destruct (ie_Interaction ev) as [[[id usage'] tier']|];
    (destruct (override _ _); rewrite ?raise_none; done).
  all: destruct (dec_openAI d data) as [ev|]; [|done]; destruct st as [a text];
    unfold consumeOpenAI; destruct (ch_Usage ev); cbn [fst fmap option_fmap option_map];
    rewrite ?raise_none; [apply result_setUsage|done].
Qed.

(** C30: A streamed answer is billed like a whole one.  On chat, embeddings, Responses,
    images, [generateContent] and Interactions, whatever the payloads of a stream - text,
    undecodable ones, earlier totals - the usage it ends with is the one [ParseUsage] reads
    from a whole response carrying its last report, each tool at the larger of the count
    within the response and, on Responses, the count beside it; with no report it is
    absent, and an estimate is used. *)
Theorem stream_bills_last_report d surface datas :
  whole_report surface = true ->
  result_of (fold_left (consume_payload d surface) datas (newAccumulator, [])).1
  = match latest d surface datas with
    | Some (body, tools) => raise_tools (ParseUsage surface body) tools
    | None => no_usage
    end.
Proof.
  intros Hs. unfold latest.
  enough (H : (gemini_untouched
                 (fold_left (consume_payload d surface) datas (newAccumulator, [])).1
               \/ surface <> SurfaceGenerateContent) /\
              result_of (fold_left (consume_payload d surface) datas (newAccumulator, [])).1
              = match head (rev (omap (fun x => (fun b => (b, beside d surface x)) <$> report d surface x) datas)) with
                | Some (body, tools) => raise_tools (ParseUsage surface body) tools
                | None => no_usage
                end) by apply H.
  induction datas as [|data datas IH] using rev_ind; [split; [by left|done]|].
  destruct IH as [Hg Hr]. rewrite fold_left_app. cbn [fold_left].
  destruct (report_step d surface _ data Hs Hg) as [Hg' ->]. split; [exact Hg'|].
  rewrite Hr, omap_app, rev_app_distr. cbn [omap list_omap].
  by destruct (report d surface data).
Qed.

(** Payloads that are one decimal digit decode to a chunk reporting that many
    output tokens, any other to a chunk of text. *)
Definition demo_decoders : Decoders :=
  mkDecoders (fun _ => None) (fun _ => None)
    (fun data => match data with
                 | [c] => Some (mkChunk [] (Some (mkOpenAIUsage 1000 None (ord c - 48) None)) "" ∅)
                 | _ => Some (mkChunk [data] None "" ∅)
                 end)
    (fun _ => None) (fun _ => None) (fun _ => None).

Lemma stream_bills_last_report_witness :
  us_Out (result_of (fold_left (consume_payload demo_decoders SurfaceChat)
    [lit "so"; lit "3"; lit "far"; lit "7"; lit "so good"] (newAccumulator, [])).1) = 7.
Proof.
  rewrite (stream_bills_last_report demo_decoders SurfaceChat); [|reflexivity].
  by vm_compute.
Defined.

Lemma tool_calls_insert m tool n tool' :
  tool_calls (<[tool := n]> m) tool' = if bool_decide (tool = tool') then n else tool_calls m tool'.
Proof.
  unfold tool_calls. case_bool_decide as E; [subst; by rewrite lookup_insert_eq|].
  by rewrite lookup_insert_ne.
Qed.

Lemma merge_tool_max m t tool :
  tool_calls (merge_tool m t) tool
  = if bool_decide (t.1 = tool) then Z.max (tool_calls m tool) t.2 else tool_calls m tool.
Proof.
  unfold merge_tool. destruct (Z.ltb_spec (tool_calls m t.1) t.2).
  - rewrite tool_calls_insert. case_bool_decide; subst; [lia|done].
  - case_bool_decide; subst; [lia|done].
Qed.

Lemma merge_tools_max l m tool :
  NoDup l.*1 -> 0 <= tool_calls m tool ->
  tool_calls (fold_left merge_tool l m) tool
  = Z.max (tool_calls m tool) (tool_calls (list_to_map l) tool).
Proof.
  revert m. induction l as [|[k v] l IH]; intros m Hn Hm; cbn [fold_left].
  - unfold tool_calls at 3. cbn. rewrite lookup_empty. cbn. lia.
  - cbn in Hn. apply list.NoDup_cons in Hn as [Hk Hn].
    rewrite IH; [|done|rewrite merge_tool_max; case_bool_decide; lia].
    rewrite merge_tool_max. cbn [fst snd list_to_map foldr map_insert].
    change (list_to_map ((k, v) :: l)) with (<[k := v]> (list_to_map l : gmap string Z)).
    rewrite tool_calls_insert. case_bool_decide; [|done]. subst.
    assert (E : tool_calls (list_to_map l) tool = 0).
    { unfold tool_calls. by rewrite not_elem_of_list_to_map_1. }
    lia.
Qed.

Lemma mergeToolCalls_max a next tool :
  0 <= tool_calls (a_toolCalls a) tool ->
  tool_calls (a_toolCalls (mergeToolCalls a next)) tool
  = Z.max (tool_calls (a_toolCalls a) tool) (tool_calls next tool).
Proof.
  intros H. unfold mergeToolCalls. cbn [a_toolCalls with_tool_calls].
  rewrite merge_tools_max; [|apply stdpp.fin_maps.NoDup_fst_map_to_list|done].
  by rewrite list_to_map_to_list.
Qed.

Lemma toolCallCounts_nonneg raw tool : 0 <= tool_calls (toolCallCounts raw) tool.
Proof.
  unfold tool_calls, toolCallCounts. rewrite lookup_omap.
  destruct (raw !! tool) as [v|]; cbn; [|lia].
  assert (Hf : forall x, 0 <= default 0 (float_count x)).
  { intros x. unfold float_count. destruct (Z.ltb_spec 0 (Qnum x)); cbn; [|lia].
    apply Z.quot_pos; lia. }
  destruct v as [x|[x|]|]; cbn; try lia; apply Hf.
Qed.

(** The usage objects of the [message_delta] events. *)
Definition delta_usages (evs : list anthropicEvent) : list anthropicUsage :=
  omap (fun ev => if bool_decide (ae_Type ev = "message_delta"%string) then ae_Usage ev else None)
    evs.

Definition reported_calls (w : anthropicUsage) (tool : string) : Z :=
  tool_calls (toolCallCounts (au_ServerToolUse w)) tool.

(** What the accumulator holds after a [message_start] and these deltas. *)
Record messages_usage (w0 : anthropicUsage) (ds : list anthropicUsage) (u : Usage) : Prop := {
  mu_in : us_In u = au_InputTokens w0;
  mu_cached : us_CachedRead u = au_CacheReadInputTokens w0;
  mu_written : us_CacheWrite u = au_CacheCreationInputTokens w0;
  mu_ttl : (us_CacheWrite5m u, us_CacheWrite1h u) = default (0, 0) (au_CacheCreation w0);
  mu_out : us_Out u = fold_left (fun _ w => au_OutputTokens w) ds (au_OutputTokens w0);
  mu_calls tool : tool_calls (us_ToolCalls u) tool
    = fold_left (fun n w => Z.max n (reported_calls w tool)) ds (reported_calls w0 tool);
  mu_present : us_Present u = true;
}.

Lemma anthropic_fields w :
  us_In (anthropic_usage w) = au_InputTokens w /\
  us_Out (anthropic_usage w) = au_OutputTokens w /\
  us_CachedRead (anthropic_usage w) = au_CacheReadInputTokens w /\
  us_CacheWrite (anthropic_usage w) = au_CacheCreationInputTokens w /\
  (us_CacheWrite5m (anthropic_usage w), us_CacheWrite1h (anthropic_usage w))
    = default (0, 0) (au_CacheCreation w) /\
  us_ToolCalls (anthropic_usage w) = toolCallCounts (au_ServerToolUse w) /\
  us_Present (anthropic_usage w) = true.
Proof. unfold anthropic_usage. by destruct (au_CacheCreation w) as [[]|]. Qed.

Lemma fold_max_ge (f : anthropicUsage -> Z) ds n : n <= fold_left (fun n w => Z.max n (f w)) ds n.
Proof. revert n. induction ds as [|w ds IH]; intros n; cbn; [lia|]. specialize (IH (Z.max n (f w))). lia. Qed.

(** A streamed message is billed the input of its [message_start] and the last
    running output total of its [message_delta]s - never a sum of them - and each
    tool at the largest total reported for it.  Text that went out moves nothing:
    a stream broken before its first [message_delta] is billed the output count
    [message_start] opened with, and counts as reported, not as estimated. *)
Theorem messages_stream_usage start w0 evs st :
  ae_Type start = "message_start"%string -> ae_Message start = Some (Some w0) ->
  Forall (fun ev => ae_Type ev <> "message_start"%string) evs ->
  messages_usage w0 (delta_usages evs) (result_of (fold_left consumeAnthropic (start :: evs) st).1).
Proof.
  intros Ht Hm. induction evs as [|ev evs IH] using rev_ind; intros Hevs.
  - destruct st as [a text]. cbn [fold_left]. unfold consumeAnthropic.
    rewrite Ht, Hm, bool_decide_eq_true_2 by done. cbn [fst]. rewrite result_setUsage.
    destruct (anthropic_fields w0) as (H1 & H2 & H3 & H4 & H5 & H6 & H7).
    split; try done. intros tool. by rewrite H6.
  - apply Forall_app in Hevs as [Hevs He]. apply Forall_cons_iff in He as [He _].
    specialize (IH Hevs). change (start :: evs ++ [ev]) with ((start :: evs) ++ [ev]).
    rewrite fold_left_app. cbn [fold_left].
    change (fold_left consumeAnthropic evs (consumeAnthropic st start))
      with (fold_left consumeAnthropic (start :: evs) st).
    destruct (fold_left consumeAnthropic (start :: evs) st) as [a text]. cbn [fst] in IH.
    unfold delta_usages. rewrite omap_app. fold (delta_usages evs). cbn [omap list_omap].
    unfold consumeAnthropic. rewrite (bool_decide_eq_false_2 (ae_Type ev = "message_start"%string)) by done.
    destruct (decide (ae_Type ev = "message_delta"%string)) as [E|E].
    2: { rewrite !(bool_decide_eq_false_2 (ae_Type ev = "message_delta"%string)) by done.
         rewrite app_nil_r. by destruct (bool_decide _). }
    rewrite !(bool_decide_eq_true_2 (ae_Type ev = "message_delta"%string)) by done.
    rewrite (bool_decide_eq_false_2 (ae_Type ev = "content_block_delta"%string)) by congruence.
    destruct (ae_Usage ev) as [w|]; [|by rewrite app_nil_r]. cbn [fst].
    destruct (anthropic_fields w) as (_ & H2 & _ & _ & _ & H6 & _).
    destruct IH as [I1 I2 I3 I4 I5 I6 I7]. split; try done.
    + rewrite fold_left_app. cbn [fold_left]. exact H2.
    + intros tool. rewrite fold_left_app. cbn [fold_left]. specialize (I6 tool).
      unfold set_delta, result_of. cbn [us_ToolCalls]. rewrite mergeToolCalls_max.
      * cbn [a_toolCalls]. cbn [us_ToolCalls result_of] in I6. by rewrite I6, H6.
      * cbn [a_toolCalls]. cbn [us_ToolCalls result_of] in I6. rewrite I6.
        pose proof (toolCallCounts_nonneg (au_ServerToolUse w0) tool).
        pose proof (fold_max_ge (fun w => reported_calls w tool) (delta_usages evs)
                      (reported_calls w0 tool)). unfold reported_calls in *. lia.
Qed.

Lemma messages_stream_usage_witness :
  let usage out := mkAnthropicUsage 1000 out 200 0 None "" ∅ in
  let start := mkAnthropicEvent "message_start" (Some (Some (usage 1))) None None in
  let text := mkAnthropicEvent "content_block_delta" None (Some (lit "a long answer")) None in
  let delta := mkAnthropicEvent "message_delta" None None (Some (usage 40)) in
  us_Out (result_of (fold_left consumeAnthropic [start; text; delta] (newAccumulator, [])).1) = 40 /\
  us_Out (result_of (fold_left consumeAnthropic [start; text] (newAccumulator, [])).1) = 1.
Proof.
  intros usage start text delta.
  assert (H : forall evs, Forall (fun ev => ae_Type ev <> "message_start"%string) evs ->
    us_Out (result_of (fold_left consumeAnthropic (start :: evs) (newAccumulator, [])).1)
    = fold_left (fun _ w => au_OutputTokens w) (delta_usages evs) 1).
  { intros evs Hevs.
    exact (mu_out _ _ _ (messages_stream_usage start (usage 1) evs (newAccumulator, [])
                           eq_refl eq_refl Hevs)). }
  split; rewrite H; by repeat constructor.
Defined.
