(* ===== verification/Catalog.v ===== *)
(** * Resolving a model: [internal/gateway/catalog/catalog.go]

    The read path of the catalog: the price row and its cache, the admission
    checks in front of the candidates, the candidates themselves, and what the
    pre-authorization reads off them; and from [models_handler.go] the published
    price.

    The database is a record of query functions ([Queries]); [encoding/json] is
    read as the identity on what it stores, with a corrupt cache entry as
    [None]. *)
From S2P Require Import Prelude GoStr Rational PriceTable Pricing UnitPricing Surfaces.
From Stdlib Require Import QArith Lqa Qround.

Open Scope Z_scope.

(** A [pgtype.UUID]: [None] when not [Valid]. *)
Abbreviation uuid := (option string).

Definition visibilityPublic : string := "public".

(** The columns of [models] this code reads. *)
Record Model := mkModel {
  m_ID : uuid;
  m_Slug : string;
  m_Visibility : string;
  m_MaxOutputTokens : Z;
}.

Inductive catalog_error :=
  | ErrModelUnavailable
  | ErrModelUnpriced
  | ErrQuery (what : string).

(** ** The price row *)

(** A [model_pricing] row; [None] is NULL. *)
Record ModelPricingRow := mkPricingRow {
  pr_BillingMode : string;
  pr_Family : BillingFamily;
  pr_In : option Z;
  pr_Out : option Z;
  pr_CacheRead : option Z;
  pr_CacheWrite : option Z;
  pr_MultiplierBps : Z;
  pr_UpdatedAt : option Z;
}.

Record ModelPricingSnapshot := mkSnapshot {
  Priced : bool;
  BillingMode : string;
  Family : BillingFamily;
  Upstream : Price;
  MultiplierBps : Z;
  UpdatedAt : option Z;
}.

Definition unpriced_snapshot : ModelPricingSnapshot :=
  mkSnapshot false "" (FamilyOther "") zero_price 0 None.

Definition modelPricingSnapshot (v : ModelPricingRow) :
    result catalog_error ModelPricingSnapshot :=
  match pr_In v, pr_Out v, pr_CacheRead v, pr_CacheWrite v with
  | Some i, Some o, Some r, Some w =>
      Ok (mkSnapshot true (pr_BillingMode v) (pr_Family v) (mkPrice i o r w)
            (pr_MultiplierBps v) (pr_UpdatedAt v))
  | _, _, _, _ => Err ErrModelUnpriced
  end.

Definition IsFree (p : ModelPricingSnapshot) : bool := bool_decide (BillingMode p = "free"%string).
Definition PriceOf (p : ModelPricingSnapshot) : Price :=
  mkPrice (InNanoPerMTok (Upstream p)) (OutNanoPerMTok (Upstream p))
    (CacheReadNanoPerMTok (Upstream p)) (CacheWriteNanoPerMTok (Upstream p)).
Definition BillablePriceOf (p : ModelPricingSnapshot) : Price :=
  if IsFree p then zero_price else PriceOf p.

Definition checkPriced (p : ModelPricingSnapshot) (surface : Surface) : option catalog_error :=
  if negb (Priced p) then Some ErrModelUnpriced
  else if negb (ServesFamily surface (Family p)) then Some ErrModelUnavailable
  else if bool_decide (BillingMode p = "free"%string) then None
  else if bool_decide (Family p = FamilyUnits) then None
  else if (InNanoPerMTok (Upstream p) =? 0) && (OutNanoPerMTok (Upstream p) =? 0) &&
          (CacheReadNanoPerMTok (Upstream p) =? 0) && (CacheWriteNanoPerMTok (Upstream p) =? 0)
  then Some ErrModelUnpriced
  else None.

(** ** The price cache *)

Record modelPricingCachePayload := mkPayload {
  cp_BillingMode : string;
  cp_Family : BillingFamily;
  cp_Upstream : Price;
  cp_MultiplierBps : Z;
  (** the zero [time.Time] when the row carried none *)
  cp_UpdatedAt : option Z;
}.

Definition cachePayload (s : ModelPricingSnapshot) : modelPricingCachePayload :=
  mkPayload (BillingMode s) (Family s) (Upstream s) (MultiplierBps s) (UpdatedAt s).

Definition payload_snapshot (p : modelPricingCachePayload) : ModelPricingSnapshot :=
  mkSnapshot true (cp_BillingMode p) (cp_Family p) (cp_Upstream p) (cp_MultiplierBps p)
    (cp_UpdatedAt p).

(** The cached prices by model id; the whole is [None] when no cache is wired. *)
Abbreviation PriceCache := (option (gmap string (option modelPricingCachePayload))).

Definition cachedModelPricing (c : PriceCache) (id : uuid) :
    option ModelPricingSnapshot * PriceCache :=
  match c, id with
  | Some m, Some k =>
      match m !! k with
      | Some (Some payload) => (Some (payload_snapshot payload), c)
      | Some None => (None, Some (delete k m))
      | None => (None, c)
      end
  | _, _ => (None, c)
  end.

Definition publishModelPricingCache (c : PriceCache) (id : uuid) (s : ModelPricingSnapshot) :
    PriceCache :=
  match c with
  | None => None
  | Some m => if negb (Priced s) then c
              else Some (<[default ""%string id := Some (cachePayload s)]> m)
  end.

Definition InvalidateModelPricing (c : PriceCache) (id : uuid) : PriceCache :=
  delete (default ""%string id) <$> c.

(** ** Candidates *)

Record ProviderCapacity := mkCapacity {
  RateLimitRPM : Z;
  RateLimitTPM : Z;
  MaxConcurrency : Z;
}.

(** One candidate: the fields of [catalog.Route] that routing, pricing and the
    hold read; [T] is the provider's addressing profile ([Transport]). *)
Record Route (T : Type) := mkRoute {
  r_ID : uuid;
  r_ProviderID : uuid;
  r_ProviderSlug : string;
  r_ProviderVendor : string;
  r_Priority : Z;
  r_Weight : Z;
  r_Procurement : Z;
  r_MaxOutputTokens : Z;
  r_IgnoresMaxOutputTokens : bool;
  r_MaxImages : Z;
  r_Transport : T;
  r_Capacity : ProviderCapacity;
  r_BaseURL : string;
  r_ProviderModelID : string;
}.
Arguments mkRoute {T}.
Arguments r_ID {T}.
Arguments r_ProviderID {T}.
Arguments r_ProviderSlug {T}.
Arguments r_ProviderVendor {T}.
Arguments r_Priority {T}.
Arguments r_Weight {T}.
Arguments r_Procurement {T}.
Arguments r_MaxOutputTokens {T}.
Arguments r_IgnoresMaxOutputTokens {T}.
Arguments r_MaxImages {T}.
Arguments r_Transport {T}.
Arguments r_Capacity {T}.
Arguments r_BaseURL {T}.
Arguments r_ProviderModelID {T}.

(** A row of [ListRoutesForModel]; [raw] is the stored transport profile. *)
Record RouteRow (raw : Type) := mkRouteRow {
  rr_ID : uuid;
  rr_ProviderID : uuid;
  rr_ProviderSlug : string;
  rr_ProviderVendor : string;
  rr_Priority : Z;
  rr_Weight : Z;
  rr_MaxOutputTokens : option Z;
  rr_IgnoresMaxOutputTokens : bool;
  rr_MaxImages : option Z;
  rr_Transport : raw;
  rr_RateLimitRpm : option Z;
  rr_RateLimitTpm : option Z;
  rr_MaxConcurrency : Z;
  rr_BaseUrl : string;
  rr_ProviderModelID : string;
}.
Arguments mkRouteRow {raw}.
Arguments rr_ID {raw}.
Arguments rr_ProviderID {raw}.
Arguments rr_ProviderSlug {raw}.
Arguments rr_ProviderVendor {raw}.
Arguments rr_Priority {raw}.
Arguments rr_Weight {raw}.
Arguments rr_MaxOutputTokens {raw}.
Arguments rr_IgnoresMaxOutputTokens {raw}.
Arguments rr_MaxImages {raw}.
Arguments rr_Transport {raw}.
Arguments rr_RateLimitRpm {raw}.
Arguments rr_RateLimitTpm {raw}.
Arguments rr_MaxConcurrency {raw}.
Arguments rr_BaseUrl {raw}.
Arguments rr_ProviderModelID {raw}.

Definition int32_of (v : option Z) : Z := default 0 v.

Section resolve.
Context {raw T : Type}.

(** [ValidateTransport] of [transport.go]: a stored profile decoded, or refused. *)
Variable ValidateTransport : raw -> result string T.

(** The queries of [ResolveFor].  [TierAllowsModel] answers [Ok None] when the
    tier has no row. *)
Record Queries := mkQueries {
  GetModelBySlug : string -> result string (option Model);
  TierAllowsModel : string -> uuid -> result string (option bool);
  GetModelPricing : uuid -> result string (option ModelPricingRow);
  ListRoutesForModel : uuid -> Protocol -> string -> list string -> bool ->
                       result string (list (RouteRow raw));
  GetRouteCostMultiplier : uuid -> result string Z;
}.
Variable q : Queries.

(** The profiles last seen valid, by provider. *)
Abbreviation KnownGood := (gmap string T).

Definition rememberTransport (kg : KnownGood) (id : uuid) (t : T) : KnownGood :=
  match id with Some k => <[k := t]> kg | None => kg end.

Definition lastTransport (kg : KnownGood) (id : uuid) : option T :=
  match id with Some k => kg !! k | None => None end.

Definition transportFor (kg : KnownGood) (id : uuid) (stored : raw) :
    result catalog_error T * KnownGood :=
  match ValidateTransport stored with
  | Ok t => (Ok t, rememberTransport kg id t)
  | Err _ =>
      match lastTransport kg id with
      | Some previous => (Ok previous, kg)
      | None => (Err (ErrQuery "invalid transport"), kg)
      end
  end.

Definition currentModelPricing (c : PriceCache) (m : Model) :
    result catalog_error ModelPricingSnapshot * PriceCache :=
  match cachedModelPricing c (m_ID m) with
  | (Some s, c') => (Ok s, c')
  | (None, c') =>
      match GetModelPricing q (m_ID m) with
      | Err _ => (Err (ErrQuery "query model price"), c')
      | Ok None => (Ok unpriced_snapshot, c')
      | Ok (Some row) =>
          match modelPricingSnapshot row with
          | Err e => (Err e, c')
          | Ok s => (Ok s, publishModelPricingCache c' (m_ID m) s)
          end
      end
  end.

Definition route_of (r : RouteRow raw) (t : T) (mult : Z) : Route T :=
  mkRoute (rr_ID r) (rr_ProviderID r) (rr_ProviderSlug r) (rr_ProviderVendor r)
    (rr_Priority r) (rr_Weight r) mult (int32_of (rr_MaxOutputTokens r))
    (rr_IgnoresMaxOutputTokens r) (int32_of (rr_MaxImages r)) t
    (mkCapacity (int32_of (rr_RateLimitRpm r)) (int32_of (rr_RateLimitTpm r))
       (rr_MaxConcurrency r)) (rr_BaseUrl r) (rr_ProviderModelID r).

(** The loop over the candidate rows. *)
Fixpoint resolve_routes (kg : KnownGood) (rows : list (RouteRow raw)) :
    result catalog_error (list (Route T)) * KnownGood :=
  match rows with
  | [] => (Ok [], kg)
  | r :: rows' =>
      match transportFor kg (rr_ProviderID r) (rr_Transport r) with
      | (Err e, kg') => (Err e, kg')
      | (Ok t, kg') =>
          match GetRouteCostMultiplier q (rr_ID r) with
          | Err _ => (Err (ErrQuery "read route cost multiplier"), kg')
          | Ok mult =>
              match resolve_routes kg' rows' with
              | (Err e, kg'') => (Err e, kg'')
              | (Ok rs, kg'') => (Ok (route_of r t mult :: rs), kg'')
              end
          end
      end
  end.

Record Resolution := mkResolution {
  res_Model : Model;
  res_ModelPricing : ModelPricingSnapshot;
  res_Routes : list (Route T);
}.

(** The access tier: [None] for the zero id, which skips the check. *)
Definition check_tier (tierID : uuid) (model : Model) : option catalog_error :=
  match tierID with
  | None => None
  | Some tier =>
      match TierAllowsModel q tier (m_ID model) with
      | Err _ => Some (ErrQuery "query access tier")
      | Ok None => Some ErrModelUnavailable
      | Ok (Some false) => Some ErrModelUnavailable
      | Ok (Some true) => None
      end
  end.

Definition ResolveFor (c : PriceCache) (kg : KnownGood) (slug : string) (surface : Surface)
    (tierID : uuid) (byokVendors : list string) :
    result catalog_error Resolution * PriceCache * KnownGood :=
  match protocol surface with
  | None => (Err ErrModelUnavailable, c, kg)
  | Some proto =>
      let ep := default ""%string (endpoint surface) in
      match GetModelBySlug q slug with
      | Err _ => (Err (ErrQuery "query model"), c, kg)
      | Ok None => (Err ErrModelUnavailable, c, kg)
      | Ok (Some model) =>
          if negb (bool_decide (m_Visibility model = visibilityPublic))
          then (Err ErrModelUnavailable, c, kg)
          else
            match currentModelPricing c model with
            | (Err e, c') => (Err e, c', kg)
            | (Ok pricing, c') =>
                match check_tier tierID model with
                | Some e => (Err e, c', kg)
                | None =>
                    match checkPriced pricing surface with
                    | Some e => (Err e, c', kg)
                    | None =>
                        match ListRoutesForModel q (m_ID model) proto ep byokVendors
                                (bool_decide (probeMode surface = ProbeManual)) with
                        | Err _ => (Err (ErrQuery "query route candidates"), c', kg)
                        | Ok [] => (Err ErrModelUnavailable, c', kg)
                        | Ok rows =>
                            match resolve_routes kg rows with
                            | (Err e, kg') => (Err e, c', kg')
                            | (Ok rs, kg') => (Ok (mkResolution model pricing rs), c', kg')
                            end
                        end
                    end
                end
            end
      end
  end.
End resolve.

(** ** What the pre-authorization reads *)

(** The loop of [HoldCap]. *)
Definition HoldCap {T} (m : Model) (routes : list (Route T)) : Z * bool :=
  fold_left (fun '(cap, ignore) r =>
               (if cap <? r_MaxOutputTokens r then r_MaxOutputTokens r else cap,
                if r_IgnoresMaxOutputTokens r then true else ignore))
    routes (m_MaxOutputTokens m, false).

(** ** Published prices *)

Definition applyOrgMultipliers (rate : Z) (rates : Rates) : Z :=
  if rate <=? 0 then 0
  else
    let rates := mkRates (ModelMultiplierBps rates) (PlanMultiplierBps rates)
                   (ProcurementMultiplierBps rates) (lit "1") in
    let listed := mkPrice rate 0 0 0 in
    match Compute (Flat listed) (Flat listed) (text_tokens 1000000 0) rates with
    | Err _ => 0
    | Ok quote => ChargedNano quote
    end.

Definition OrgPriceNanoPerMTok (nanoPerMTok : Z) (rates : Rates) : Z :=
  applyOrgMultipliers nanoPerMTok rates.
Definition OrgPriceNano (nano : Z) (rates : Rates) : Z := applyOrgMultipliers nano rates.

(** ** Properties: pricing admission *)

(** A price row some rate of which the surface can charge by. *)
Definition billable (p : ModelPricingSnapshot) (s : Surface) : Prop :=
  Priced p = true /\ Family p ∈ billingFamilies s /\
  (BillingMode p = "free"%string \/ Family p = FamilyUnits \/ Upstream p <> zero_price).

Lemma checkPriced_ok p s : checkPriced p s = None <-> billable p s.
Proof.
  unfold checkPriced, billable, ServesFamily.
  destruct (Priced p); cbn [negb]; [|naive_solver].
  case_bool_decide; cbn [negb]; [|naive_solver].
  case_bool_decide; [naive_solver|]. case_bool_decide; [naive_solver|].
  destruct (Upstream p) as [i o r w]. cbn [InNanoPerMTok OutNanoPerMTok CacheReadNanoPerMTok
    CacheWriteNanoPerMTok].
  destruct ((i =? 0) && (o =? 0) && (r =? 0) && (w =? 0)) eqn:E; bool_prop; subst.
  - unfold zero_price. naive_solver.
  - split; [intros _|done]. split_and!; [done..|]. do 2 right. intros [= -> -> -> ->]. done.
Qed.

Section resolve_properties.
Context {raw T : Type} (V : raw -> result string T) (q : Queries (raw := raw)).

Lemma resolve_routes_ok kg rows rs kg' :
  resolve_routes V q kg rows = (Ok rs, kg') ->
  Forall2 (fun r rt => exists t mult,
    GetRouteCostMultiplier q (rr_ID r) = Ok mult /\ rt = route_of r t mult) rows rs.
Proof using.
  revert kg rs kg'. induction rows as [|r rows IH]; intros kg rs kg'; cbn [resolve_routes].
  - intros [= <- <-]. constructor.
  - destruct (transportFor V kg _ _) as [[t|e] kg1]; [|done].
    destruct (GetRouteCostMultiplier q (rr_ID r)) as [mult|e] eqn:Em; [|done].
    destruct (resolve_routes V q kg1 rows) as [[rs1|e] kg2] eqn:E; [|done].
    intros [= <- <-]. constructor; [by eauto|]. by eapply IH.
Qed.

(** No gate can be walked around.  A resolution succeeds only for a surface
    the gateway knows, a model that exists and is public, a caller whose access
    tier (when there is one) admits it, a price row the surface can actually
    bill by, and at least one candidate; and every candidate carries the cost
    multiplier read for its own row. *)
Theorem resolution_passes_every_gate c kg slug surface tier vendors res c' kg' :
  ResolveFor V q c kg slug surface tier vendors = (Ok res, c', kg') ->
  exists proto rows,
    protocol surface = Some proto /\
    GetModelBySlug q slug = Ok (Some (res_Model res)) /\
    m_Visibility (res_Model res) = visibilityPublic /\
    (forall t, tier = Some t -> TierAllowsModel q t (m_ID (res_Model res)) = Ok (Some true)) /\
    (currentModelPricing q c (res_Model res)).1 = Ok (res_ModelPricing res) /\
    billable (res_ModelPricing res) surface /\
    ListRoutesForModel q (m_ID (res_Model res)) proto (default ""%string (endpoint surface))
      vendors (bool_decide (probeMode surface = ProbeManual)) = Ok rows /\
    rows <> [] /\
    Forall2 (fun r rt => exists t mult,
      GetRouteCostMultiplier q (rr_ID r) = Ok mult /\ rt = route_of r t mult)
      rows (res_Routes res).
Proof using.
  unfold ResolveFor. destruct (protocol surface) as [proto|]; [|done].
  destruct (GetModelBySlug q slug) as [[model|]|] eqn:Em; [|done..].
  case_bool_decide as Hv; cbn [negb]; [|done].
  destruct (currentModelPricing q c model) as [[p|e] c1] eqn:Ep; [|done].
  destruct (check_tier q tier model) eqn:Et; [done|].
  destruct (checkPriced p surface) eqn:Ec; [done|].
  destruct (ListRoutesForModel q _ _ _ _ _) as [[|r rows]|] eqn:El; [done| |done].
  destruct (resolve_routes V q kg (r :: rows)) as [[rs|e] kg1] eqn:Er; [|done].
  intros [= <- <- <-]. cbn [res_Model res_ModelPricing res_Routes].
  exists proto, (r :: rows). rewrite Ep, El. split_and!; try done.
  - intros t ->. cbn [check_tier] in Et. repeat step_case_in Et; try done.
  - by apply checkPriced_ok.
  - by eapply resolve_routes_ok.
Qed.

(** ** The price cache *)

Definition priced_in (db : uuid -> result string (option ModelPricingRow)) (k : string)
    (s : ModelPricingSnapshot) : Prop :=
  exists row, db (Some k) = Ok (Some row) /\ modelPricingSnapshot row = Ok s.

(** Every readable cache entry is what the database says now. *)
Definition coherent (db : uuid -> result string (option ModelPricingRow)) (c : PriceCache) : Prop :=
  forall m k p, c = Some m -> m !! k = Some (Some p) -> priced_in db k (payload_snapshot p).

Lemma payload_roundtrip s : Priced s = true -> payload_snapshot (cachePayload s) = s.
Proof using. destruct s. cbn. by intros ->. Qed.

Lemma modelPricingSnapshot_priced row s : modelPricingSnapshot row = Ok s -> Priced s = true.
Proof using.
  unfold modelPricingSnapshot. intros H. repeat step_case_in H; try done.
  by injection H as <-.
Qed.

Lemma currentModelPricing_uncached m :
  (currentModelPricing q None m).1 =
  match GetModelPricing q (m_ID m) with
  | Err _ => Err (ErrQuery "query model price")
  | Ok None => Ok unpriced_snapshot
  | Ok (Some row) => modelPricingSnapshot row
  end.
Proof using.
  unfold currentModelPricing. cbn [cachedModelPricing].
  destruct (GetModelPricing q (m_ID m)) as [[row|]|]; [|done..].
  by destruct (modelPricingSnapshot row).
Qed.

(** The price cache is transparent.  While every cache entry matches its
    row, a cached read answers what an uncached read of the same database
    answers, errors included, and leaves the cache matching: what is published
    after a miss is the row just read, an unpriced answer is never cached, and
    a corrupt entry is dropped. *)
Theorem price_cache_transparent c m k :
  m_ID m = Some k -> coherent (GetModelPricing q) c ->
  (currentModelPricing q c m).1 = (currentModelPricing q None m).1 /\
  coherent (GetModelPricing q) (currentModelPricing q c m).2.
Proof using.
  intros Hk Hc. rewrite currentModelPricing_uncached. unfold currentModelPricing.
  destruct (cachedModelPricing c (m_ID m)) as [[s|] c'] eqn:E; rewrite Hk in *;
    unfold cachedModelPricing in E.
  - destruct c as [mm|]; [|done]. destruct (mm !! k) as [[p|]|] eqn:Ek; try done.
    injection E as <- <-. destruct (Hc mm k p eq_refl Ek) as (row & Hq & Hs). rewrite Hq.
    by split.
  - assert (Hc' : coherent (GetModelPricing q) c').
    { destruct c as [mm|]; [|by injection E as <-].
      destruct (mm !! k) as [[p|]|] eqn:Ek; [done| |by injection E as <-].
      injection E as <-. intros m' k' p' [= <-] Hl.
      rewrite lookup_delete_Some in Hl. destruct Hl as [_ Hl]. by apply (Hc mm). }
    destruct (GetModelPricing q (Some k)) as [[row|]|] eqn:Eq; [|by split|by split].
    destruct (modelPricingSnapshot row) as [s|e] eqn:Es; [|by split].
    split; [done|]. cbn [snd]. unfold publishModelPricingCache.
    destruct c' as [mm|]; [|done].
    rewrite (modelPricingSnapshot_priced row s Es). cbn [negb default].
    intros m' k' p' [= <-] Hl. apply lookup_insert_Some in Hl as [[<- [= <-]]|[_ Hl]].
    + rewrite payload_roundtrip by (by eapply modelPricingSnapshot_priced).
      by exists row.
    + by apply (Hc' mm).
Qed.

(** Writing a price and dropping that model's entry is enough.  When the
    new database differs from the old one at one model only, invalidating that
    model's price keeps every other cached price usable and makes the cache
    match the new database, so the next read of any model is current. *)
Theorem price_write_then_invalidate db db' c k :
  coherent db c -> (forall k', k' <> k -> db' (Some k') = db (Some k')) ->
  coherent db' (InvalidateModelPricing c (Some k)) /\
  (forall m k', c = Some m -> k' <> k ->
     exists m', InvalidateModelPricing c (Some k) = Some m' /\ m' !! k' = m !! k').
Proof using.
  intros Hc Hdb. unfold InvalidateModelPricing. cbn [default].
  split.
  - intros m' k' p Hm Hl. destruct c as [m|]; [|done]. injection Hm as <-.
    apply lookup_delete_Some in Hl as [Hne Hl].
    destruct (Hc m k' p eq_refl Hl) as (row & Hq & Hs). exists row. split; [|done].
    by rewrite Hdb.
  - intros m k' -> Hne. eexists. split; [done|]. by apply lookup_delete_ne.
Qed.

(** A bad hot update of a provider's profile does not take the provider
    down: after any resolution that validated a profile for it, an invalid
    stored profile is served with that one; a provider never seen with a valid
    profile refuses. *)
Theorem transport_last_known_good kg kg1 id good bad t e :
  V good = Ok t -> transportFor V kg (Some id) good = (Ok t, kg1) -> V bad = Err e ->
  transportFor V kg1 (Some id) bad = (Ok t, kg1) /\
  (kg !! id = None ->
   transportFor V kg (Some id) bad = (Err (ErrQuery "invalid transport"), kg)).
Proof using.
  unfold transportFor. intros -> [= <-] ->. cbn [rememberTransport lastTransport].
  rewrite lookup_insert_eq. split; [done|]. by intros ->.
Qed.
End resolve_properties.

(** ** Properties: the hold's bounds *)

(** The output limit the hold reserves for is the largest over the model and
    all of its candidates (attained, and below none of them), and the request's
    own cap is distrusted exactly when some candidate ignores it. *)
Theorem hold_cap_is_worst_candidate {T} (m : Model) (rs : list (Route T)) :
  (HoldCap m rs).1 ∈ m_MaxOutputTokens m :: map r_MaxOutputTokens rs /\
  Forall (fun x => x <= (HoldCap m rs).1) (m_MaxOutputTokens m :: map r_MaxOutputTokens rs) /\
  (HoldCap m rs).2 = existsb r_IgnoresMaxOutputTokens rs.
Proof.
  unfold HoldCap.
  assert (H : forall cap ig,
    let f := fold_left (fun '(cap, ignore) (r : Route T) =>
               (if cap <? r_MaxOutputTokens r then r_MaxOutputTokens r else cap,
                if r_IgnoresMaxOutputTokens r then true else ignore)) rs (cap, ig) in
    f.1 ∈ cap :: map r_MaxOutputTokens rs /\
    Forall (fun x => x <= f.1) (cap :: map r_MaxOutputTokens rs) /\
    f.2 = ig || existsb r_IgnoresMaxOutputTokens rs).
  { induction rs as [|r rs IH]; intros cap ig; cbn [fold_left map existsb].
    - cbn. rewrite orb_false_r. split_and!; [by left| |done]. constructor; [lia|constructor].
    - destruct (IH (if cap <? r_MaxOutputTokens r then r_MaxOutputTokens r else cap)
        (if r_IgnoresMaxOutputTokens r then true else ig)) as (H1 & H2 & H3).
      cbn zeta in *. split_and!.
      + apply elem_of_cons in H1 as [->|H1]; [|set_solver].
        destruct (_ <? _); set_solver.
      + rewrite !Forall_cons_iff in *. destruct H2 as [H2 H2'].
        destruct (Z.ltb_spec cap (r_MaxOutputTokens r)); split_and!; try done; lia.
      + rewrite H3. by destruct (r_IgnoresMaxOutputTokens r), ig. }
  apply (H (m_MaxOutputTokens m) false).
Qed.

(** ** Properties: published prices *)

Definition at_par (rates : Rates) : Rates :=
  mkRates (ModelMultiplierBps rates) (PlanMultiplierBps rates)
    (ProcurementMultiplierBps rates) (lit "1").

(** The largest rate the schema stores (the CHECK of [model_pricing]). *)
Definition max_rate : Z := 92233720368547758.

Lemma flat_million_buckets rate b :
  upstreamCostBuckets (Flat (mkPrice rate 0 0 0)) (text_tokens 1000000 0) = Ok b ->
  (total b == inject_Z rate)%Q.
Proof.
  intros (x & Hx & ->)%upstreamCostBuckets_total.
  change (tk_ToolCalls (text_tokens 1000000 0)) with (∅ : gmap string Z) in Hx.
  rewrite map_to_list_empty in Hx. cbn [tool_amount] in Hx. injection Hx as <-.
  change (token_adds (text_tokens 1000000 0)) with
    ((1000000, BucketIn, VariantNone, CInput)
     :: map (fun '(b, c) => (0, b, VariantNone, c))
          [(BucketOut, COutput); (BucketAudioIn, CInput); (BucketImageIn, CInput);
           (BucketAudioOut, COutput); (BucketImageOut, COutput); (BucketCacheRead, CCacheRead);
           (BucketCacheWrite, CCacheWrite)]).
  unfold rat_sum, add_amount. cbn [map fold_right]. rewrite !Z.mul_0_l.
  change (lookup_rate (Flat (mkPrice rate 0 0 0)) BucketIn (tier (text_tokens 1000000 0))
    VariantNone (ContextTokens (text_tokens 1000000 0))) with rate.
  unfold Qeq, frac, tokensPerMTok. cbn. lia.
Qed.

Lemma flat_million_ok rate :
  exists b, upstreamCostBuckets (Flat (mkPrice rate 0 0 0)) (text_tokens 1000000 0) = Ok b.
Proof.
  unfold upstreamCostBuckets.
  change (tk_ToolCalls (text_tokens 1000000 0)) with (∅ : gmap string Z).
  rewrite map_to_list_empty. by eexists.
Qed.

Lemma charged_at_par c r :
  (charged_rat c 1 r == c * frac (ModelMultiplierBps r * PlanMultiplierBps r) 100000000)%Q.
Proof. unfold charged_rat, bps, frac, Qeq. cbn. lia. Qed.

Lemma quote_in_range rate u c r :
  0 < rate <= max_rate -> 1 <= ModelMultiplierBps r <= maxMultiplierBps ->
  1 <= PlanMultiplierBps r <= maxMultiplierBps ->
  1 <= ProcurementMultiplierBps r <= maxMultiplierBps ->
  (u == inject_Z rate * bps (ProcurementMultiplierBps r))%Q ->
  (c == charged_rat (inject_Z rate) 1 r)%Q ->
  exists u' c', ceilToInt64 u = Ok u' /\ ceilToInt64 c = Ok c'.
Proof.
  unfold max_rate, maxMultiplierBps. intros Hr Hm Hp Hpr Hu Hc.
  assert (Hub : forall x, (0 <= x)%Q -> (x <= inject_Z max_int64)%Q -> exists y, ceilToInt64 x = Ok y).
  { intros x H0 H1. exists (Qceiling x). apply ceilToInt64_ok. split; [done|].
    apply Qceiling_resp_le in H0, H1. rewrite Qceiling_Z in H1. change (Qceiling 0) with 0 in H0.
    unfold min_int64, max_int64 in *. lia. }
  assert (Hu' : exists y, ceilToInt64 u = Ok y).
  { assert (0 < rate * ProcurementMultiplierBps r <= 92233720368547758 * 100000) by nia.
    apply Hub; rewrite Hu; unfold bps, frac, max_int64, Qle; cbn; lia. }
  assert (Hc' : exists y, ceilToInt64 c = Ok y).
  { assert (0 < ModelMultiplierBps r * PlanMultiplierBps r <= 10000000000) by nia.
    assert (0 < rate * (ModelMultiplierBps r * PlanMultiplierBps r)
            <= 92233720368547758 * 10000000000) by nia.
    apply Hub; rewrite Hc, charged_at_par; unfold frac, max_int64, Qle; cbn; lia. }
  destruct Hu' as [y ?], Hc' as [z ?]. by exists y, z.
Qed.

Lemma ceil_frac a (d : positive) p :
  p = Qceiling (frac a d) -> (p - 1) * Zpos d < a <= p * Zpos d.
Proof.
  intros ->. pose proof (Qle_ceiling (frac a d)) as H1. pose proof (Qceiling_lt (frac a d)) as H2.
  unfold Qle, Qlt, frac in *. cbn in *. lia.
Qed.

Lemma org_price_ceil rate rates r :
  0 < rate <= max_rate -> normalize (at_par rates) = Ok r ->
  applyOrgMultipliers rate rates =
  Qceiling (frac (rate * (ModelMultiplierBps r * PlanMultiplierBps r)) 100000000).
Proof.
  intros Hr Hn. unfold applyOrgMultipliers. rewrite (proj2 (Z.leb_gt _ _)) by lia.
  fold (at_par rates). destruct (flat_million_ok rate) as [b Hb].
  pose proof (flat_million_buckets rate b Hb) as Ht.
  pose proof (normalize_ok _ _ Hn) as (Hm & Hp & Hpr & _ & _ & Hrest).
  assert (Hfx : FXRate r = lit "1") by (decompose [and] Hrest; done).
  assert (Hpf : parse_fx (FXRate r) = Ok 1%Q) by (rewrite Hfx; vm_compute; reflexivity).
  destruct (quote_in_range rate (total b * bps (ProcurementMultiplierBps r))
    (charged_rat (total b) 1 r) r) as (u' & c' & Hu & Hc); [done..| | |].
  - by rewrite Ht.
  - unfold charged_rat. by rewrite Ht.
  - assert (Hq : Compute (Flat (mkPrice rate 0 0 0)) (Flat (mkPrice rate 0 0 0))
      (text_tokens 1000000 0) (at_par rates)
      = Ok (mkQuote u' c' (ModelMultiplierBps r) (PlanMultiplierBps r)
              (ProcurementMultiplierBps r) (FXRate r))).
    { apply Compute_ok. exists r, 1%Q, b, b. split_and!; try done.
      by apply quoteFrom_ok. }
    rewrite Hq. cbn [ChargedNano]. apply ceilToInt64_ok in Hc as [-> _].
    apply Qceiling_comp. rewrite charged_at_par, Ht. unfold frac, Qeq. cbn. lia.
Qed.

(** A published rate is the exact customer rate, rounded up once: the official
    rate times the model and plan multipliers, in integer arithmetic, and for
    every rate and multiplier the schema can store it never overflows into the
    zero that would list a paid model as free. *)
Theorem published_price_exact rate rates r :
  0 < rate <= max_rate -> normalize (at_par rates) = Ok r ->
  let p := OrgPriceNanoPerMTok rate rates in
  (p - 1) * 100000000 < rate * (ModelMultiplierBps r * PlanMultiplierBps r) <= p * 100000000 /\
  0 < p.
Proof.
  intros Hr Hn p. pose proof (normalize_ok _ _ Hn) as (Hm & Hp & _).
  assert (H : (p - 1) * 100000000 < rate * (ModelMultiplierBps r * PlanMultiplierBps r)
              <= p * 100000000).
  { apply (ceil_frac _ 100000000). by apply org_price_ceil. }
  split; [done|]. assert (0 < ModelMultiplierBps r * PlanMultiplierBps r) by nia. nia.
Qed.

(** A published unit price is what one unit is charged: for a unit the card
    prices, the quote for exactly one of it at the same multipliers and parity
    charges the number the catalog shows. *)
Theorem published_unit_price_is_charged t cost k rate rates r q :
  unit_Lookup t k = Some rate -> 0 < rate <= max_rate ->
  normalize (at_par rates) = Ok r ->
  ComputeUnits t cost {[k := 1]} (at_par rates) = Ok q ->
  ChargedNano q = OrgPriceNano rate rates.
Proof.
  intros Hl Hr Hn Hq. unfold OrgPriceNano. rewrite (org_price_ceil rate rates r) by done.
  unfold ComputeUnits in Hq. apply rbind_ok in Hq as (? & _ & Hq).
  rewrite Hn in Hq. cbn [pricing rbind] in Hq.
  pose proof (normalize_ok _ _ Hn) as (_ & _ & _ & _ & _ & Hrest).
  assert (Hfx : FXRate r = lit "1") by (decompose [and] Hrest; done).
  assert (Hpf : parse_fx (FXRate r) = Ok 1%Q) by (rewrite Hfx; vm_compute; reflexivity).
  rewrite Hpf in Hq. cbn [pricing rbind] in Hq.
  apply rbind_ok in Hq as (u & _ & Hq). unfold unitCost in Hq.
  rewrite map_to_list_singleton in Hq. cbn [unit_cost_loop] in Hq. rewrite Hl in Hq.
  cbn [Z.eqb rbind] in Hq.
  unfold pricing in Hq. destruct (quoteFrom _ _ _ _) as [q'|] eqn:Eq; [|done].
  injection Hq as ->. apply quoteFrom_ok in Eq as (_ & Hc & _).
  apply ceilToInt64_ok in Hc as [-> _]. apply Qceiling_comp. rewrite charged_at_par.
  unfold frac, Qeq. cbn. lia.
Qed.

(** ** Concrete instances *)

Definition demo_model : Model := mkModel (Some "m1"%string) "demo" "public" 4096.
Definition demo_row : ModelPricingRow :=
  mkPricingRow "paid" FamilyTokens (Some 1000) (Some 2000) (Some 100) (Some 0) 12000 None.
Definition demo_route_row : RouteRow bool :=
  mkRouteRow (Some "r1"%string) (Some "p1"%string) "relay" "vendor" 1 10 (Some 8192) false None true
    (Some 60) None 64 "https://relay" "m-1".

(** A stored profile is a flag here: valid or not. *)
Definition demo_validate (stored : bool) : result string nat :=
  if stored then Ok 7%nat else Err "bad profile"%string.

Definition demo_queries : Queries (raw := bool) :=
  mkQueries (fun slug => if bool_decide (slug = "demo"%string) then Ok (Some demo_model) else Ok None)
    (fun tier _ => Ok (Some (bool_decide (tier = "gold"%string))))
    (fun id => if bool_decide (id = Some "m1"%string) then Ok (Some demo_row) else Ok None)
    (fun _ _ _ _ _ => Ok [demo_route_row]) (fun _ => Ok 8000).

Lemma resolution_passes_every_gate_witness :
  exists res c' kg',
    ResolveFor demo_validate demo_queries (Some ∅) ∅ "demo" SurfaceChat (Some "gold"%string) []
    = (Ok res, c', kg') /\
    billable (res_ModelPricing res) SurfaceChat /\ m_Visibility (res_Model res) = visibilityPublic /\
    (ResolveFor demo_validate demo_queries (Some ∅) ∅ "demo" SurfaceChat (Some "free"%string) []).1.1
    = Err ErrModelUnavailable.
Proof.
  eexists _, _, _. split; [vm_compute; reflexivity|].
  edestruct (resolution_passes_every_gate demo_validate demo_queries (Some ∅) ∅ "demo" SurfaceChat
    (Some "gold"%string) []) as (p & rows & _ & _ & H1 & _ & _ & H2 & _); [vm_compute; reflexivity|].
  split; [exact H2|]. split; [exact H1|]. vm_compute. reflexivity.
Defined.

Lemma price_cache_transparent_witness :
  let q := demo_queries in
  (currentModelPricing q (Some {["m1"%string := None]}) demo_model).1
  = (currentModelPricing q None demo_model).1.
Proof.
  cbv zeta. apply (price_cache_transparent demo_queries (Some {["m1"%string := None]}) demo_model "m1").
  - reflexivity.
  - intros m k p Hm Hl. injection Hm as <-. apply lookup_singleton_Some in Hl as [_ Hl].
    discriminate.
Defined.

Lemma price_write_then_invalidate_witness :
  coherent (fun _ => Ok (Some demo_row))
    (InvalidateModelPricing (Some {["m1"%string := Some (mkPayload "paid" FamilyTokens zero_price 1 None)]})
       (Some "m1"%string)).
Proof.
  refine (proj1 (price_write_then_invalidate
    (fun k => if bool_decide (k = Some "m1"%string)
              then Ok (Some (mkPricingRow "paid" FamilyTokens (Some 0) (Some 0) (Some 0) (Some 0) 1 None))
              else Ok (Some demo_row))
    (fun _ => Ok (Some demo_row)) _ "m1" _ _)).
  - intros m k p Hm Hl. injection Hm as <-. apply lookup_singleton_Some in Hl as [<- Hl].
    injection Hl as <-. eexists. split; vm_compute; reflexivity.
  - intros k' Hne. rewrite bool_decide_eq_false_2 by congruence. reflexivity.
Defined.

Lemma transport_last_known_good_witness :
  transportFor demo_validate (<["p1"%string := 7%nat]> ∅) (Some "p1"%string) false
  = (Ok 7%nat, <["p1"%string := 7%nat]> ∅).
Proof.
  apply (proj1 (transport_last_known_good demo_validate (∅ : gmap string nat) (<["p1"%string := 7%nat]> ∅)
    "p1" true false 7%nat "bad profile" eq_refl eq_refl eq_refl)).
Defined.

Lemma published_price_exact_witness :
  OrgPriceNanoPerMTok 3333 (mkRates 12500 9000 0 (lit "7.2")) = 3750 /\
  (3750 - 1) * 100000000 < 3333 * (12500 * 9000) <= 3750 * 100000000.
Proof.
  pose proof (published_price_exact 3333 (mkRates 12500 9000 0 (lit "7.2"))
    (mkRates 12500 9000 10000 (lit "1"))) as H.
  split; [vm_compute; reflexivity|]. apply H; vm_compute.
  - split; [reflexivity|discriminate].
  - reflexivity.
Defined.

Definition demo_card : UnitPriceTable :=
  NewUnitPriceTable [mkUnitRow UnitSecond "720p" "" "" "" 50000001].
Definition demo_unit : UnitKey := mkUnitKey UnitSecond "720p" "" "" TierStandard.

Lemma published_unit_price_is_charged_witness :
  exists q, ComputeUnits demo_card demo_card {[demo_unit := 1]}
      (at_par (mkRates 12500 9000 0 [])) = Ok q /\
    ChargedNano q = OrgPriceNano 50000001 (mkRates 12500 9000 0 []).
Proof.
  eexists. split; [vm_compute; reflexivity|].
  apply (published_unit_price_is_charged demo_card demo_card demo_unit 50000001
    (mkRates 12500 9000 0 []) (mkRates 12500 9000 10000 (lit "1"))).
  - vm_compute. reflexivity.
  - unfold max_rate. lia.
  - vm_compute. reflexivity.
  - vm_compute. reflexivity.
Defined.
