(* ===== verification/BreakerStore.v ===== *)
(** * The breaker state store: [foundation/drivers/breaker]

    The driver interface as a class of operations with its contract, the
    in-process implementation, and the proof that it meets the contract.  The
    circuit breaker of [Breaker.v] is verified against the contract only.

    Instants and durations are nanoseconds ([time.Time], [time.Duration]) as
    integers; an operation takes the instant [time.Now()] returns in it. *)
From S2P Require Import Prelude.

Open Scope Z_scope.

Definition Second : Z := 1000000000.
Definition Minute : Z := 60 * Second.

(** Go's zero [time.Time], 0001-01-01 UTC, in Unix nanoseconds. *)
Definition zero_time : Z := - 62135596800 * Second.

(** The [Status] string; [StatusNone] is the empty string of a zero [State]. *)
Inductive Status := StatusNone | StatusClosed | StatusOpen | StatusHalfOpen.

#[export] Instance Status_eq_dec : EqDecision Status.
Proof. solve_decision. Defined.

Record State := mkState {
  st_Status : Status;
  st_Failures : Z;
  st_Opens : Z;
  st_Until : Z;
}.

#[export] Instance State_eq_dec : EqDecision State.
Proof. solve_decision. Defined.

Definition zero_state : State := mkState StatusNone 0 0 zero_time.

(** ** The interface *)

Class Store (S : Type) := {
  store_get : Z -> S -> string -> option State * S;
  store_set : Z -> S -> string -> State -> Z -> S;
  store_delete : S -> string -> S;
}.

(** What a reader at instant [now] sees under [key]. *)
Definition store_view {S} `{Store S} (now : Z) (s : S) (key : string) : option State :=
  fst (store_get now s key).

(** The contract: a written state is seen until its time-to-live has passed (for
    ever when that is not positive), a deleted one is not, reading and writing
    one key leaves every other key alone, and reading hides nothing a later
    reader would have seen. *)
Class StoreLaws (S : Type) `{Store S} := {
  view_set now now' s key st ttl :
    now <= now' ->
    store_view now' (store_set now s key st ttl) key =
    if (0 <? ttl) && (now + ttl <? now') then None else Some st;
  view_set_ne now now' s key key' st ttl :
    key <> key' -> store_view now' (store_set now s key st ttl) key' = store_view now' s key';
  view_delete now s key : store_view now (store_delete s key) key = None;
  view_delete_ne now s key key' :
    key <> key' -> store_view now (store_delete s key) key' = store_view now s key';
  view_get now now' s key key' :
    now <= now' -> store_view now' (snd (store_get now s key)) key' = store_view now' s key';
}.

(** ** The in-process implementation *)

Record memState := mkMem { ms_st : State; ms_expiresAt : option Z }.

#[export] Instance memState_eq_dec : EqDecision memState.
Proof. solve_decision. Defined.

Abbreviation Memory := (gmap string memState).

Definition mem_expired (now : Z) (e : memState) : bool :=
  match ms_expiresAt e with None => false | Some x => x <? now end.

(** The critical section of the expiry branch: delete only if the entry is
    still the one that was read. *)
Definition mem_expire (s : Memory) (key : string) (e : memState) : Memory :=
  match s !! key with
  | Some cur => if bool_decide (cur = e) then delete key s else s
  | None => s
  end.

(** [Get] with the read and the clean-up as its two critical sections, a
    concurrent writer acting in between. *)
Definition mem_get_concurrent (now : Z) (s : Memory) (key : string) (between : Memory -> Memory) :
    option State * Memory :=
  match s !! key with
  | None => (None, between s)
  | Some e =>
      if mem_expired now e then (None, mem_expire (between s) key e)
      else (Some (ms_st e), between s)
  end.

Definition mem_Get (now : Z) (s : Memory) (key : string) : option State * Memory :=
  mem_get_concurrent now s key id.

Definition mem_Set (now : Z) (s : Memory) (key : string) (st : State) (ttl : Z) : Memory :=
  <[key := mkMem st (if 0 <? ttl then Some (now + ttl) else None)]> s.

Definition mem_Delete (s : Memory) (key : string) : Memory := delete key s.

#[export] Instance Memory_store : Store Memory :=
  {| store_get := mem_Get; store_set := mem_Set; store_delete := mem_Delete |}.

(** ** The contract holds *)

Lemma mem_view now s key :
  store_view now (s : Memory) key =
  match s !! key with
  | Some e => if mem_expired now e then None else Some (ms_st e)
  | None => None
  end.
Proof.
  change (store_view now s key) with (fst (mem_Get now s key)).
  unfold mem_Get, mem_get_concurrent.
  destruct (s !! key) as [e|]; [|done]. by destruct (mem_expired now e).
Qed.

Lemma mem_get_state now s key :
  snd (mem_Get now s key) =
  match s !! key with
  | Some e => if mem_expired now e then delete key s else s
  | None => s
  end.
Proof.
  unfold mem_Get, mem_get_concurrent, mem_expire, id. destruct (s !! key) as [e|] eqn:E; [|done].
  destruct (mem_expired now e); [|done]. cbn [snd].
  by rewrite bool_decide_eq_true_2.
Qed.

Lemma mem_expired_mono now now' e : now <= now' -> mem_expired now e = true -> mem_expired now' e = true.
Proof.
  unfold mem_expired. destruct (ms_expiresAt e); [|done]. rewrite !Z.ltb_lt. lia.
Qed.

#[export] Instance Memory_laws : StoreLaws Memory.
Proof.
  split.
  - intros now now' s key st ttl Hle. rewrite mem_view.
    cbn [store_set Memory_store]. unfold mem_Set. rewrite lookup_insert_eq.
    unfold mem_expired. cbn [ms_expiresAt ms_st]. by destruct (0 <? ttl).
  - intros now now' s key key' st ttl Hne. rewrite !mem_view.
    cbn [store_set Memory_store]. unfold mem_Set. by rewrite lookup_insert_ne.
  - intros now s key. rewrite mem_view. cbn [store_delete Memory_store]. unfold mem_Delete.
    by rewrite lookup_delete_eq.
  - intros now s key key' Hne. rewrite !mem_view. cbn [store_delete Memory_store]. unfold mem_Delete.
    by rewrite lookup_delete_ne.
  - intros now now' s key key' Hle. rewrite !mem_view.
    cbn [store_get Memory_store]. rewrite mem_get_state.
    destruct (s !! key) as [e|] eqn:E; [|done].
    destruct (mem_expired now e) eqn:Ex; [|done].
    destruct (decide (key = key')) as [<-|Hne].
    + rewrite lookup_delete_eq, E. by rewrite (mem_expired_mono now now' e Hle Ex).
    + by rewrite lookup_delete_ne.
Qed.

(** ** Properties *)

(** The in-process store meets the driver contract: a write is seen by every
    reader until its time-to-live has passed, a delete is seen at once, keys do
    not interfere, and a read (which may clean up) changes no later answer. *)
Theorem memory_store_contract now now' (s : Memory) key key' st ttl :
  now <= now' -> key <> key' ->
  store_view now' (store_set now s key st ttl) key =
    (if (0 <? ttl) && (now + ttl <? now') then None else Some st) /\
  store_view now' (store_set now s key st ttl) key' = store_view now' s key' /\
  store_view now' (store_delete s key) key = None /\
  store_view now' (store_delete s key) key' = store_view now' s key' /\
  store_view now' (snd (store_get now s key)) key' = store_view now' s key'.
Proof.
  intros Hle Hne. split_and!.
  - by apply view_set.
  - by apply view_set_ne.
  - apply view_delete.
  - by apply view_delete_ne.
  - by apply view_get.
Qed.

Definition open_state (until : Z) : State := mkState StatusOpen 0 1 until.

Lemma memory_store_contract_witness :
  store_view 20 (store_set 10 (∅ : Memory) "a" (open_state 99) 5) "a" = None /\
  store_view 20 (store_set 10 (∅ : Memory) "a" (open_state 99) 5) "b" = None.
Proof.
  destruct (memory_store_contract 10 20 (∅ : Memory) "a" "b" (open_state 99) 5) as (H1 & H2 & _).
  - lia.
  - discriminate.
  - split; [exact H1|]. rewrite H2. vm_compute. reflexivity.
Defined.

(** Expiry clean-up never swallows a concurrent write.  Whatever a writer
    does between the read and the clean-up of a [Get], every entry it leaves
    that has not expired at the instant of the read is still there after. *)
Theorem expiry_keeps_concurrent_write now s key between key' e :
  between s !! key' = Some e -> mem_expired now e = false ->
  snd (mem_get_concurrent now s key between) !! key' = Some e.
Proof.
  intros Hb He. unfold mem_get_concurrent.
  destruct (s !! key) as [e0|]; [|done].
  destruct (mem_expired now e0) eqn:E0; [|done]. cbn [snd]. unfold mem_expire.
  destruct (between s !! key) as [cur|] eqn:Ec; [|done].
  case_bool_decide as Heq; [|done]. subst e0.
  destruct (decide (key = key')) as [<-|Hne].
  - rewrite Hb in Ec. injection Ec as <-. congruence.
  - by rewrite lookup_delete_ne.
Qed.

Lemma expiry_keeps_concurrent_write_witness :
  let s : Memory := <["k" := mkMem (mkState StatusClosed 1 0 0) (Some 5)]> ∅ in
  snd (mem_get_concurrent 10 s "k" (fun s => mem_Set 10 s "k" (open_state 99) 60)) !! "k"
  = Some (mkMem (open_state 99) (Some 70)).
Proof.
  apply expiry_keeps_concurrent_write; vm_compute; reflexivity.
Defined.
