(* ===== verification/Breaker.v ===== *)
(** * The two-level circuit breaker: [internal/gateway/proxy/breaker.go]

    One circuit per provider and one per provider credential, kept in a breaker
    store (any implementation of the contract of [BreakerStore.v]) with a
    write-behind table of cooldown deadlines for restart recovery.

    The random jitter is an argument in [0, 1).  Its float64 arithmetic is read
    over the rationals, with the final truncation to whole nanoseconds kept. *)
From S2P Require Import Prelude BreakerStore.
From Stdlib Require Import QArith Lqa.

Open Scope Z_scope.

Definition backoffLadder : list Z :=
  [30 * Second; Minute; 4 * Minute; 10 * Minute; 30 * Minute].

Definition providerFailureThreshold : Z := 5.
Definition jitterFraction : Q := 1 # 5.
Definition keyAuthCooldown : Z := 30 * Minute.
Definition ladderMemory : Z := 10 * Minute.

(** A [pgtype.UUID]: [None] when not [Valid], else its text ([uuidStr]). *)
Abbreviation uuid := (option string).
Definition uuidStr (id : uuid) : string := default ""%string id.

Definition providerKeyScope (id : uuid) : string := ("gw:brk:pk:" ++ uuidStr id)%string.
Definition providerScope (id : uuid) : string := ("gw:brk:p:" ++ uuidStr id)%string.

(** [time.Duration(x)] of a float: truncation towards zero. *)
Definition trunc (x : Q) : Z := Z.quot (Qnum x) (Z.pos (Qden x)).

Definition ladder_index (opens : Z) : nat :=
  let idx := opens in
  let n := Z.of_nat (length backoffLadder) in
  let idx := if n <=? idx then n - 1 else idx in
  let idx := if idx <? 0 then 0 else idx in
  Z.to_nat idx.

Definition rung (opens : Z) : Z := nth (ladder_index opens) backoffLadder 0.

Definition nextBackoff (jitter : Q) (opens : Z) : Z :=
  let b := rung opens in
  let delta := (inject_Z b * jitterFraction)%Q in
  let offset := ((jitter * 2 - 1) * delta)%Q in
  trunc (inject_Z b + offset)%Q.

(** The decision of [Available] on what the store answered; an unreadable state
    lets the request through. *)
Definition available_of (now : Z) (r : result string (option State)) : bool :=
  match r with
  | Err _ => true
  | Ok None => true
  | Ok (Some st) =>
      if bool_decide (st_Status st = StatusClosed) then true
      else st_Until st <? now
  end.

(** The store key a persisted row goes back to. *)
Definition restore_scope (key : string * string) : string :=
  if bool_decide (key.1 = "provider_key"%string)
  then providerKeyScope (Some key.2) else providerScope (Some key.2).

Section breaker.
Context {S : Type} `{StoreLaws S}.

(** The store, and the [cooldowns] table when a database is attached: rows
    (scope, ref id) with their deadline. *)
Record World := mkWorld {
  w_store : S;
  w_cooldowns : option (gmap (string * string) Z);
}.

Definition Available (now : Z) (w : World) (scope : string) : bool :=
  available_of now (Ok (store_view now (w_store w) scope)).

Definition ProviderAvailable (now : Z) (w : World) (id : uuid) : bool :=
  Available now w (providerScope id).
Definition KeyAvailable (now : Z) (w : World) (id : uuid) : bool :=
  Available now w (providerKeyScope id).

Definition reset (now : Z) (w : World) (scope dbScope : string) (id : uuid) : World :=
  let '(st, s) := store_get now (w_store w) scope in
  match st with
  | None => mkWorld s (w_cooldowns w)
  | Some st =>
      if bool_decide (st_Status st = StatusClosed) then mkWorld s (w_cooldowns w)
      else mkWorld (store_delete s scope) (delete (dbScope, uuidStr id) <$> w_cooldowns w)
  end.

Definition RecordSuccess (now : Z) (w : World) (providerID keyID : uuid) : World :=
  let w := reset now w (providerScope providerID) "provider" providerID in
  match keyID with
  | None => w
  | Some _ => reset now w (providerKeyScope keyID) "provider_key" keyID
  end.

Definition open (now : Z) (w : World) (scope dbScope : string) (id : uuid)
    (opens cooldown : Z) : World :=
  let until := now + cooldown in
  mkWorld
    (store_set now (w_store w) scope (mkState StatusOpen 0 (opens + 1) until)
       (cooldown + ladderMemory))
    (<[(dbScope, uuidStr id) := until]> <$> w_cooldowns w).

Definition RecordKeyFailure (now : Z) (jitter : Q) (w : World) (keyID : uuid)
    (hint : Z) (authFailure : bool) : World :=
  match keyID with
  | None => w
  | Some _ =>
      let scope := providerKeyScope keyID in
      let '(got, s) := store_get now (w_store w) scope in
      let st := default zero_state got in
      let cooldown :=
        if authFailure then keyAuthCooldown
        else
          let c := nextBackoff jitter (st_Opens st) in
          if c <? hint then hint else c in
      open now (mkWorld s (w_cooldowns w)) scope "provider_key" keyID (st_Opens st) cooldown
  end.

Definition RecordProviderFailure (now : Z) (jitter : Q) (w : World) (providerID : uuid) : World :=
  let scope := providerScope providerID in
  let '(got, s) := store_get now (w_store w) scope in
  let st := default zero_state got in
  let failures := st_Failures st + 1 in
  if (failures <? providerFailureThreshold) && negb (bool_decide (st_Status st = StatusOpen)) then
    mkWorld (store_set now s scope (mkState StatusClosed failures (st_Opens st) zero_time)
               (nth 0 backoffLadder 0)) (w_cooldowns w)
  else
    open now (mkWorld s (w_cooldowns w)) scope "provider" providerID (st_Opens st)
      (nextBackoff jitter (st_Opens st)).

(** One row of [ListActiveCooldowns] put back into the store. *)
Definition restore_row (now : Z) (s : S) (row : (string * string) * Z) : S :=
  let '((rscope, ref), until) := row in
  let scope := restore_scope (rscope, ref) in
  let ttl := until - now in
  if ttl <=? 0 then s
  else store_set now s scope (mkState StatusOpen 0 0 until) ttl.

(** [RestoreCooldowns]; the query returns the rows whose deadline is ahead. *)
Definition RestoreCooldowns (now : Z) (w : World) : World :=
  match w_cooldowns w with
  | None => w
  | Some rows =>
      mkWorld (fold_left (restore_row now)
                 (List.filter (fun row => now <? snd row) (map_to_list rows)) (w_store w))
        (Some rows)
  end.

(** ** What each operation leaves in the store *)

Lemma view_get_same now now' s key key' st s' :
  store_get now s key = (st, s') -> now <= now' ->
  st = store_view now s key /\ store_view now' s' key' = store_view now' s key'.
Proof using H H0.
  intros E Hle. split.
  - unfold store_view. by rewrite E.
  - pose proof (view_get now now' s key key' Hle) as Hv. by rewrite E in Hv.
Qed.

Definition view (now : Z) (w : World) (scope : string) : option State :=
  store_view now (w_store w) scope.

Lemma open_view now now' w scope db id opens cooldown :
  now <= now' -> 0 < cooldown ->
  view now' (open now w scope db id opens cooldown) scope =
  if now + cooldown + ladderMemory <? now' then None
  else Some (mkState StatusOpen 0 (opens + 1) (now + cooldown)).
Proof using H0.
  intros Hle Hc. unfold view, open. cbn [w_store]. rewrite view_set by done.
  rewrite (proj2 (Z.ltb_lt 0 _)) by (unfold ladderMemory, Minute, Second; lia).
  cbn [andb]. by rewrite Z.add_assoc.
Qed.

(** The state a reader finds, the zero state when there is none. *)
Definition seen (now : Z) (w : World) (scope : string) : State :=
  default zero_state (view now w scope).

Lemma provider_failure_view now now' j w id :
  now <= now' ->
  let st := seen now w (providerScope id) in
  view now' (RecordProviderFailure now j w id) (providerScope id) =
  if (st_Failures st + 1 <? providerFailureThreshold) &&
     negb (bool_decide (st_Status st = StatusOpen))
  then if now + 30 * Second <? now' then None
       else Some (mkState StatusClosed (st_Failures st + 1) (st_Opens st) zero_time)
  else view now' (open now w (providerScope id) "provider" id (st_Opens st)
                    (nextBackoff j (st_Opens st))) (providerScope id).
Proof using H H0.
  intros Hle st. unfold RecordProviderFailure, view.
  destruct (store_get now (w_store w) (providerScope id)) as [got s] eqn:E.
  destruct (view_get_same now now' _ _ (providerScope id) _ _ E Hle) as [Hgot _].
  replace (default zero_state got) with st by (subst st got; done).
  destruct (_ && _); cbn [w_store].
  - rewrite view_set by done. done.
  - unfold open. cbn [w_store]. by rewrite !view_set.
Qed.

Lemma provider_failure_other now now' j w id scope :
  now <= now' -> scope <> providerScope id ->
  view now' (RecordProviderFailure now j w id) scope = view now' w scope.
Proof using H H0.
  intros Hle Hne. unfold RecordProviderFailure, view.
  destruct (store_get now (w_store w) (providerScope id)) as [got s] eqn:E.
  destruct (view_get_same now now' _ _ scope _ _ E Hle) as [_ Hv].
  destruct (_ && _); unfold open; cbn [w_store]; rewrite view_set_ne by done; done.
Qed.

Lemma key_failure_other now now' j w id hint auth scope :
  now <= now' -> (forall k, id = Some k -> scope <> providerKeyScope id) ->
  view now' (RecordKeyFailure now j w id hint auth) scope = view now' w scope.
Proof using H H0.
  intros Hle Hne. unfold RecordKeyFailure, view. destruct id as [k|]; [|done].
  specialize (Hne k eq_refl).
  destruct (store_get now (w_store w) (providerKeyScope (Some k))) as [got s] eqn:E.
  destruct (view_get_same now now' _ _ scope _ _ E Hle) as [_ Hv].
  unfold open. cbn [w_store]. by rewrite view_set_ne.
Qed.

Lemma available_view now w scope :
  Available now w scope =
  match view now w scope with
  | None => true
  | Some st => bool_decide (st_Status st = StatusClosed) || (st_Until st <? now)
  end.
Proof using.
  unfold Available, available_of, view. destruct (store_view _ _ _) as [st|]; [|done].
  by case_bool_decide.
Qed.
End breaker.
Arguments World : clear implicits.

(** ** Backoff *)

Lemma trunc_bounds x a b :
  0 <= a -> (inject_Z a <= x <= inject_Z b)%Q -> a <= trunc x <= b.
Proof.
  destruct x as [n d]. unfold trunc, Qle. cbn. intros Ha [H1 H2].
  rewrite Z.quot_div_nonneg by nia. split.
  - apply Z.div_le_lower_bound; lia.
  - apply Z.div_le_upper_bound; lia.
Qed.

Lemma rung_cases opens :
  rung opens ∈ backoffLadder /\ 30 * Second <= rung opens <= 30 * Minute.
Proof.
  unfold rung. assert (Hi : (ladder_index opens < length backoffLadder)%nat).
  { unfold ladder_index. change (Z.of_nat (length backoffLadder)) with 5.
    change (length backoffLadder) with 5%nat.
    destruct (5 <=? opens) eqn:E; bool_prop.
    - simpl. lia.
    - destruct (Z.ltb_spec opens 0); lia. }
  assert (Hin : In (nth (ladder_index opens) backoffLadder 0) backoffLadder) by (by apply nth_In).
  split; [by apply list_elem_of_In|].
  unfold backoffLadder, Minute, Second in *.
  repeat destruct Hin as [<-|Hin]; try lia. done.
Qed.

(** A cooldown stays within a fifth of its ladder rung either way, the rung
    is indexed by the number of earlier opens clamped to the ladder, and no
    jitter can make it shorter than 24 seconds or longer than 36 minutes. *)
Theorem backoff_within_jitter j opens :
  (0 <= j)%Q -> (j <= 1)%Q ->
  rung opens - rung opens / 5 <= nextBackoff j opens <= rung opens + rung opens / 5 /\
  24 * Second <= nextBackoff j opens <= 36 * Minute.
Proof.
  intros Hj0 Hj1. destruct (rung_cases opens) as [Hin Hr].
  assert (Hd : rung opens = 5 * (rung opens / 5)).
  { unfold backoffLadder, Minute, Second in Hin.
    repeat (apply elem_of_cons in Hin as [->|Hin]; [done|]). by apply elem_of_nil in Hin. }
  set (d := rung opens / 5) in *.
  assert (Hb : rung opens - d <= nextBackoff j opens <= rung opens + d).
  { unfold nextBackoff. apply trunc_bounds; [unfold Second in *; lia|].
    assert (Hdelta : (inject_Z (rung opens) * jitterFraction == inject_Z d)%Q).
    { rewrite Hd at 1. unfold jitterFraction, Qeq. cbn. lia. }
    rewrite Hdelta. unfold Z.sub. rewrite !inject_Z_plus, inject_Z_opp.
    assert (0 <= inject_Z d)%Q by (change 0%Q with (inject_Z 0); rewrite <- Zle_Qle;
      unfold Second in *; lia).
    split; nra. }
  unfold Minute, Second in *. lia.
Qed.

Lemma backoff_within_jitter_witness :
  nextBackoff (1 # 4) 1 = 54 * Second /\
  rung 1 - rung 1 / 5 <= nextBackoff (1 # 4) 1 <= rung 1 + rung 1 / 5 /\
  24 * Second <= nextBackoff (1 # 4) 1 <= 36 * Minute.
Proof.
  split; [vm_compute; reflexivity|].
  apply (backoff_within_jitter (1 # 4) 1); vm_compute; discriminate.
Defined.

Lemma backoff_pos j opens : (0 <= j)%Q -> (j <= 1)%Q -> 0 < nextBackoff j opens.
Proof.
  intros H0 H1. destruct (rung_cases opens) as [Hin Hr].
  unfold nextBackoff.
  assert (H : 1 <= trunc (inject_Z (rung opens)
     + (j * 2 - 1) * (inject_Z (rung opens) * jitterFraction)) <= 2 * rung opens); [|lia].
  apply trunc_bounds; [lia|]. unfold jitterFraction.
  set (r := rung opens) in *.
  assert (Hr1 : (2 <= inject_Z r)%Q).
  { change 2%Q with (inject_Z 2). rewrite <- Zle_Qle. unfold Second in *. lia. }
  rewrite inject_Z_mult. change (inject_Z 1) with 1%Q. change (inject_Z 2) with 2%Q.
  split; nra.
Qed.

(** ** Properties *)

Lemma last_default {A} (d d' : A) l : l <> [] -> List.last l d = List.last l d'.
Proof.
  induction l as [|x l IH]; [done|]. intros _. destruct l as [|y l]; [done|].
  cbn [List.last]. by apply IH.
Qed.

(** The two scopes the [cooldowns] table holds. *)
Definition row_scope (rscope : string) : Prop :=
  rscope = "provider"%string \/ rscope = "provider_key"%string.

Lemma restore_scope_inj k1 k2 :
  row_scope k1.1 -> row_scope k2.1 -> restore_scope k1 = restore_scope k2 -> k1 = k2.
Proof.
  destruct k1 as [s1 r1], k2 as [s2 r2]. unfold restore_scope, providerScope, providerKeyScope.
  cbn [fst snd].
  intros [->| ->] [->| ->]; vm_compute bool_decide; cbv iota; unfold uuidStr; cbn [default];
    intros E; simplify_eq/=; done.
Qed.

Lemma NoDup_fst_filter {A B} (p : A * B -> bool) l : NoDup l.*1 -> NoDup (List.filter p l).*1.
Proof.
  induction l as [|x l IH]; cbn [List.filter fmap list_fmap]; [done|].
  rewrite list.NoDup_cons. intros [Hx Hl]. destruct (p x); [|by apply IH].
  cbn [fmap list_fmap]. apply list.NoDup_cons. split; [|by apply IH].
  intros Hin. apply Hx. apply list_elem_of_fmap in Hin as (y & -> & Hy).
  apply list_elem_of_fmap. exists y. split; [done|].
  apply list_elem_of_In, filter_In in Hy. apply list_elem_of_In, Hy.
Qed.

Section properties.
Context {S : Type} `{StoreLaws S}.
Implicit Types w : World S.

(** Provider failures at the given instants, one after the other. *)
Fixpoint fail_at (ts : list Z) (j : Q) (w : World S) (id : uuid) : World S :=
  match ts with
  | [] => w
  | t :: ts' => fail_at ts' j (RecordProviderFailure t j w id) id
  end.

(** Instants that follow each other within one counting window. *)
Fixpoint windowed (t0 : Z) (ts : list Z) : Prop :=
  match ts with
  | [] => True
  | t :: ts' => t0 <= t <= t0 + 30 * Second /\ windowed t ts'
  end.

Definition counting (n : Z) (st : option State) : Prop :=
  (n = 0 /\ st = None) \/ st = Some (mkState StatusClosed n 0 zero_time).

Lemma counting_seen n now w id :
  counting n (view now w (providerScope id)) ->
  st_Failures (seen now w (providerScope id)) = n /\
  st_Opens (seen now w (providerScope id)) = 0 /\
  st_Status (seen now w (providerScope id)) <> StatusOpen.
Proof using. unfold seen. intros [[-> ->]| ->]; done. Qed.

Lemma fail_at_app ts1 ts2 j w id :
  fail_at (ts1 ++ ts2) j w id = fail_at ts2 j (fail_at ts1 j w id) id.
Proof using. revert w. induction ts1 as [|t ts1 IH]; intros w; [done|]. apply IH. Qed.

(** Below the threshold a run of failures only counts. *)
Lemma fail_at_counts ts t0 n j w id :
  (forall t, t0 <= t <= t0 + 30 * Second -> counting n (view t w (providerScope id))) ->
  windowed t0 ts -> n + Z.of_nat (length ts) < providerFailureThreshold ->
  forall t, List.last ts t0 <= t <= List.last ts t0 + 30 * Second ->
    counting (n + Z.of_nat (length ts)) (view t (fail_at ts j w id) (providerScope id)).
Proof using H H0.
  revert t0 n w. induction ts as [|t1 ts IH]; intros t0 n w Hc Hw Hn t Ht.
  - cbn in *. rewrite Z.add_0_r. by apply Hc.
  - destruct Hw as [Ht1 Hw]. cbn [length] in *. rewrite Nat2Z.inj_succ in *.
    replace (n + Z.succ (Z.of_nat (length ts))) with (n + 1 + Z.of_nat (length ts)) in * by lia.
    cbn [fail_at]. apply (IH t1).
    + intros t' Ht'. rewrite provider_failure_view by lia.
      destruct (counting_seen n t1 w id (Hc t1 Ht1)) as (Hf & Ho & Hs).
      rewrite Hf, Ho, (bool_decide_eq_false_2 _ Hs).
      rewrite (proj2 (Z.ltb_lt _ _)) by lia. cbn [andb negb].
      rewrite (proj2 (Z.ltb_ge _ _)) by lia. by right.
    + done.
    + done.
    + destruct ts as [|t2 ts]; [exact Ht|].
      rewrite (last_default t1 t0) by done. exact Ht.
Qed.

(** Five failures open a provider's circuit and four do not.  From a
    provider with no recorded state, failures that follow each other within
    the 30-second window leave it available up to the fourth; the fifth makes
    it unavailable for one first-rung cooldown, and available again after. *)
Theorem provider_opens_at_threshold w id t1 t2 t3 t4 t5 j :
  (forall t, t1 <= t -> view t w (providerScope id) = None) ->
  windowed t1 [t2; t3; t4; t5] -> (0 <= j)%Q -> (j <= 1)%Q ->
  (forall t, t4 <= t <= t5 -> ProviderAvailable t (fail_at [t1; t2; t3; t4] j w id) id = true) /\
  (forall t, t5 <= t ->
     ProviderAvailable t (fail_at [t1; t2; t3; t4; t5] j w id) id =
     (t5 + nextBackoff j 0 <? t)).
Proof using H H0.
  intros Hnone Hw Hj0 Hj1. cbn in Hw. destruct Hw as (? & ? & ? & ? & _).
  assert (Hfour : forall t, t4 <= t <= t4 + 30 * Second ->
    counting 4 (view t (fail_at [t1; t2; t3; t4] j w id) (providerScope id))).
  { apply (fail_at_counts [t1; t2; t3; t4] t1 0); [|cbn in *; unfold Second in *; lia|done].
    intros t Ht. left. split; [done|]. apply Hnone. lia. }
  split.
  - intros t Ht. unfold ProviderAvailable. rewrite available_view.
    destruct (Hfour t ltac:(lia)) as [[? _]| ->]; [lia|]. done.
  - intros t Ht. unfold ProviderAvailable. rewrite available_view.
    change (fail_at [t1; t2; t3; t4; t5] j w id)
      with (RecordProviderFailure t5 j (fail_at [t1; t2; t3; t4] j w id) id).
    rewrite provider_failure_view by done.
    destruct (counting_seen 4 t5 _ id (Hfour t5 ltac:(lia))) as (Hf & Ho & Hs).
    rewrite Hf, Ho. cbn [andb Z.ltb Z.compare].
    change (4 + 1 <? providerFailureThreshold) with false. cbn [andb].
    rewrite open_view by (done || by apply backoff_pos).
    destruct (Z.ltb_spec (t5 + nextBackoff j 0 + ladderMemory) t) as [Hm|Hm].
    + symmetry. apply Z.ltb_lt. unfold ladderMemory, Minute, Second in Hm. lia.
    + done.
Qed.

(** A failure recorded while the stored status is open (a failed probe
    after the cooldown, or one more failure during it) opens the circuit
    again at once, without counting to the threshold, one rung up. *)
Theorem failed_probe_moves_up_a_rung now now' j w id st :
  view now w (providerScope id) = Some st -> st_Status st = StatusOpen ->
  now <= now' -> (0 <= j)%Q -> (j <= 1)%Q ->
  view now' (RecordProviderFailure now j w id) (providerScope id) =
  if now + nextBackoff j (st_Opens st) + ladderMemory <? now' then None
  else Some (mkState StatusOpen 0 (st_Opens st + 1) (now + nextBackoff j (st_Opens st))).
Proof using H H0.
  intros Hv Hs Hle Hj0 Hj1. rewrite provider_failure_view by done.
  unfold seen. rewrite Hv. cbn [default].
  rewrite (bool_decide_eq_true_2 (_ = StatusOpen)) by done. rewrite andb_false_r.
  cbn zeta. rewrite open_view by (done || by apply backoff_pos). done.
Qed.

(** A success on a circuit that is not closed clears it at every later
    instant, and takes the persisted cooldown with it; a success while the
    circuit is closed leaves the failure count exactly as it was, so failures
    separated by successes still add up. *)
Theorem success_clears_only_opened now now' w id :
  now <= now' ->
  match view now w (providerScope id) with
  | Some st =>
      if bool_decide (st_Status st = StatusClosed)
      then view now' (RecordSuccess now w id None) (providerScope id)
           = view now' w (providerScope id)
      else view now' (RecordSuccess now w id None) (providerScope id) = None /\
           forall rows, w_cooldowns w = Some rows ->
             w_cooldowns (RecordSuccess now w id None)
             = Some (delete ("provider"%string, uuidStr id) rows)
  | None => view now' (RecordSuccess now w id None) (providerScope id)
            = view now' w (providerScope id)
  end.
Proof using H H0.
  intros Hle. unfold RecordSuccess, reset, view.
  destruct (store_get now (w_store w) (providerScope id)) as [got s] eqn:E.
  destruct (view_get_same now now' _ _ (providerScope id) _ _ E Hle) as [<- Hv].
  destruct got as [st|]; [|done]. case_bool_decide; [done|]. cbn [w_store w_cooldowns].
  split; [apply view_delete|]. by intros rows ->.
Qed.

(** What a credential-level failure costs: exactly thirty minutes for a
    rejected credential, otherwise the larger of the upstream's own hint and
    the backoff rung; the credential is refused until that instant and usable
    after it. *)
Theorem key_failure_cooldown now now' j w k hint (auth : bool) :
  now <= now' -> (0 <= j)%Q -> (j <= 1)%Q ->
  let c := if auth then keyAuthCooldown
           else Z.max hint (nextBackoff j (st_Opens (seen now w (providerKeyScope (Some k))))) in
  KeyAvailable now' (RecordKeyFailure now j w (Some k) hint auth) (Some k) = (now + c <? now').
Proof using H H0.
  intros Hle Hj0 Hj1 c. unfold KeyAvailable. rewrite available_view.
  unfold RecordKeyFailure, view.
  destruct (store_get now (w_store w) (providerKeyScope (Some k))) as [got s] eqn:E.
  destruct (view_get_same now now' _ _ (providerKeyScope (Some k)) _ _ E Hle) as [Hgot _].
  assert (Hst : default zero_state got = seen now w (providerKeyScope (Some k)))
    by (subst got; done).
  rewrite Hst.
  set (c' := if auth then keyAuthCooldown else _).
  assert (c' = c) as ->.
  { subst c c'. destruct auth; [done|]. cbn zeta. destruct (Z.ltb_spec
      (nextBackoff j (st_Opens (seen now w (providerKeyScope (Some k))))) hint); lia. }
  assert (0 < c).
  { subst c. destruct auth; [done|].
    pose proof (backoff_pos j (st_Opens (seen now w (providerKeyScope (Some k)))) Hj0 Hj1). lia. }
  fold (view now' (open now (mkWorld s (w_cooldowns w)) (providerKeyScope (Some k)) "provider_key"
    (Some k) (st_Opens (seen now w (providerKeyScope (Some k)))) c) (providerKeyScope (Some k))).
  rewrite open_view by done.
  destruct (Z.ltb_spec (now + c + ladderMemory) now') as [Hm|Hm]; [|done].
  symmetry. apply Z.ltb_lt. unfold ladderMemory, Minute, Second in Hm. lia.
Qed.

(** The state a burst of failures leaves: [n] more failures reach it while the
    circuit is already open. *)
Lemma burst_state t j w id n :
  (forall t', t <= t' -> view t' w (providerScope id) = None) -> (0 <= j)%Q -> (j <= 1)%Q ->
  forall t', t <= t' ->
  view t' (fail_at (replicate (5 + n) t) j w id) (providerScope id) =
  if t + nextBackoff j (Z.of_nat n) + ladderMemory <? t' then None
  else Some (mkState StatusOpen 0 (Z.of_nat n + 1) (t + nextBackoff j (Z.of_nat n))).
Proof using H H0.
  intros Hnone Hj0 Hj1. induction n as [|n IH]; intros t' Ht'.
  - assert (Hc : counting 4 (view t (fail_at (replicate 4 t) j w id) (providerScope id))).
    { apply (fail_at_counts (replicate 4 t) t 0);
        [|cbn; unfold Second; lia|done|cbn; unfold Second; lia].
      intros t0 Ht0. left. split; [done|]. apply Hnone. lia. }
    change (replicate (5 + 0) t) with (replicate 4 t ++ [t]).
    rewrite fail_at_app. cbn [fail_at]. rewrite provider_failure_view by done.
    destruct (counting_seen 4 t _ id Hc) as (Hf & Ho & Hs). rewrite Hf, Ho.
    change (4 + 1 <? providerFailureThreshold) with false. cbn [andb].
    by rewrite open_view by (done || by apply backoff_pos).
  - replace (5 + Datatypes.S n)%nat with ((5 + n) + 1)%nat by lia.
    rewrite replicate_add, fail_at_app. cbn [replicate fail_at].
    rewrite provider_failure_view by done. unfold seen. rewrite IH by lia.
    pose proof (backoff_pos j (Z.of_nat n) Hj0 Hj1).
    rewrite (proj2 (Z.ltb_ge (t + nextBackoff j (Z.of_nat n) + ladderMemory) t)) by (unfold ladderMemory, Minute, Second; lia).
    cbn [default st_Failures st_Opens st_Status].
    rewrite (bool_decide_eq_true_2 (StatusOpen = StatusOpen)) by done. rewrite andb_false_r.
    rewrite open_view by (done || by apply backoff_pos).
    by rewrite Nat2Z.inj_succ, <- Z.add_1_r.
Qed.

(** A burst climbs the ladder.  Every failure past the fifth that arrives
    while the circuit is already open (requests in flight when it opened)
    counts as one more opening: after [5 + n] simultaneous failures the
    cooldown is the one of rung [n], up to the thirty-minute rung. *)
Theorem burst_climbs_ladder t t' j w id n :
  (forall t', t <= t' -> view t' w (providerScope id) = None) ->
  t <= t' -> (0 <= j)%Q -> (j <= 1)%Q ->
  ProviderAvailable t' (fail_at (replicate (5 + n) t) j w id) id =
  (t + nextBackoff j (Z.of_nat n) <? t').
Proof using H H0.
  intros Hnone Ht' Hj0 Hj1. unfold ProviderAvailable. rewrite available_view.
  rewrite burst_state by done.
  destruct (Z.ltb_spec (t + nextBackoff j (Z.of_nat n) + ladderMemory) t') as [Hm|Hm]; [|done].
  symmetry. apply Z.ltb_lt. unfold ladderMemory, Minute, Second in Hm. lia.
Qed.

Lemma restore_fold_notin now now' l s key :
  now <= now' -> row_scope key.1 ->
  Forall (fun row => row_scope row.1.1 /\ row.1 <> key) l ->
  store_view now' (fold_left (restore_row now) l s) (restore_scope key)
  = store_view now' s (restore_scope key).
Proof using H H0.
  intros Hle Hk Hl. revert s.
  induction Hl as [|[[rs ref] until] l [Hr Hne] _ IH]; intros s; [done|].
  cbn [fold_left]. rewrite IH. unfold restore_row.
  destruct (until - now <=? 0); [done|]. apply view_set_ne.
  intros E. apply Hne. by apply restore_scope_inj.
Qed.

(** A restart does not revive what was cooling down.  Whatever the store
    holds at start-up, [RestoreCooldowns] makes every provider and every
    credential with a persisted deadline still ahead unavailable until exactly
    that deadline, and leaves every one without such a row as it was. *)
Theorem restart_keeps_cooldowns now now' w rows key :
  w_cooldowns w = Some rows ->
  (forall k, is_Some (rows !! k) -> row_scope k.1) -> row_scope key.1 -> now <= now' ->
  Available now' (RestoreCooldowns now w) (restore_scope key) =
  match rows !! key with
  | Some until => if now <? until then until <? now' else Available now' w (restore_scope key)
  | None => Available now' w (restore_scope key)
  end.
Proof using H H0.
  intros Hw Hrows Hk Hle. rewrite !available_view. unfold RestoreCooldowns, view. rewrite Hw.
  cbn [w_store]. set (l := List.filter _ _).
  assert (Hl : forall row, row ∈ l <-> rows !! row.1 = Some row.2 /\ now < row.2).
  { intros [k u]. subst l. rewrite list_elem_of_In, filter_In, <- list_elem_of_In.
    cbn [fst snd]. by rewrite elem_of_map_to_list, Z.ltb_lt. }
  assert (Hin : forall u, rows !! key = Some u -> now < u -> exists l1 l2,
    l = l1 ++ (key, u) :: l2 /\ key ∉ l2.*1).
  { intros u Hu Hnu. assert (Hel : (key, u) ∈ l) by (by apply Hl).
    apply list_elem_of_split in Hel as (l1 & l2 & E). exists l1, l2. split; [done|].
    assert (Hnd : NoDup l.*1).
    { subst l. apply NoDup_fst_filter, stdpp.fin_maps.NoDup_fst_map_to_list. }
    rewrite E, fmap_app, list.NoDup_app in Hnd. destruct Hnd as (_ & _ & Hnd).
    rewrite fmap_cons, list.NoDup_cons in Hnd. apply Hnd. }
  assert (Hout : (forall row, row ∈ l -> row.1 <> key) ->
    store_view now' (fold_left (restore_row now) l (w_store w)) (restore_scope key)
    = store_view now' (w_store w) (restore_scope key)).
  { intros Hne. apply restore_fold_notin; [done..|]. rewrite list.Forall_forall.
    intros row Hrow. split; [|by apply Hne]. apply Hl in Hrow. apply Hrows. exists (row.2). apply Hrow. }
  destruct (rows !! key) as [u|] eqn:Eu.
  - destruct (Z.ltb_spec now u) as [Hnu|Hnu].
    + destruct (Hin u eq_refl Hnu) as (l1 & l2 & E & Hni). rewrite E, fold_left_app.
      cbn [fold_left]. rewrite restore_fold_notin.
      * destruct key as [rs ref]. unfold restore_row. fold (restore_scope (rs, ref)).
        rewrite (proj2 (Z.leb_gt _ _)) by lia. rewrite view_set by done.
        rewrite (proj2 (Z.ltb_lt 0 _)) by lia. cbn [andb].
        replace (now + (u - now)) with u by lia.
        destruct (Z.ltb_spec u now'); [done|]. cbn [st_Status st_Until].
        rewrite bool_decide_eq_false_2 by done. by apply Z.ltb_ge.
      * done.
      * done.
      * rewrite list.Forall_forall. intros row Hrow.
        assert (Hrl : row ∈ l) by (rewrite E; set_solver). split.
        -- apply Hl in Hrl. apply Hrows. exists (row.2). apply Hrl.
        -- intros Ek. apply Hni. apply list_elem_of_fmap. by exists row.
    + rewrite Hout; [done|]. intros row Hrow Ek. apply Hl in Hrow.
      rewrite Ek, Eu in Hrow. destruct Hrow as [[= <-] ?]. lia.
  - rewrite Hout; [done|]. intros row Hrow E. apply Hl in Hrow. rewrite E, Eu in Hrow.
    by destruct Hrow.
Qed.
End properties.


(** ** Concrete runs, over the in-process store *)

Definition w0 : World Memory := mkWorld (∅ : Memory) (Some ∅).
Definition half : Q := 1 # 2.

Lemma provider_opens_at_threshold_witness :
  let ts := [0; Second; 2 * Second; 3 * Second] in
  ProviderAvailable (3 * Second) (fail_at ts half w0 (Some "p")) (Some "p") = true /\
  ProviderAvailable (5 * Second) (fail_at (ts ++ [4 * Second]) half w0 (Some "p")) (Some "p") = false.
Proof.
  destruct (provider_opens_at_threshold w0 (Some "p"%string) 0 Second (2 * Second) (3 * Second)
    (4 * Second) half) as [H1 H2].
  - intros t _. vm_compute. reflexivity.
  - cbn [windowed]. unfold Second. lia.
  - vm_compute. discriminate.
  - vm_compute. discriminate.
  - split; [apply H1; unfold Second; lia|]. cbn [app]. rewrite H2 by (unfold Second; lia).
    vm_compute. reflexivity.
Defined.

Lemma failed_probe_moves_up_a_rung_witness :
  let w := fail_at (replicate 5 0) half w0 (Some "p") in
  view (40 * Second) (RecordProviderFailure (40 * Second) half w (Some "p")) (providerScope (Some "p"))
  = Some (mkState StatusOpen 0 2 (100 * Second)).
Proof.
  cbv zeta.
  rewrite (failed_probe_moves_up_a_rung (40 * Second) (40 * Second) half
    (fail_at (replicate 5 0) half w0 (Some "p"%string)) (Some "p"%string)
    (mkState StatusOpen 0 1 (30 * Second))).
  - vm_compute. reflexivity.
  - vm_compute. reflexivity.
  - reflexivity.
  - lia.
  - vm_compute. discriminate.
  - vm_compute. discriminate.
Defined.

Lemma success_clears_only_opened_witness :
  let w := fail_at (replicate 5 0) half w0 (Some "p") in
  view (41 * Second) (RecordSuccess (40 * Second) w (Some "p") None) (providerScope (Some "p")) = None.
Proof.
  cbv zeta.
  pose proof (success_clears_only_opened (40 * Second) (41 * Second)
    (fail_at (replicate 5 0) half w0 (Some "p"%string)) (Some "p"%string)) as H.
  assert (E : view (40 * Second) (fail_at (replicate 5 0) half w0 (Some "p"%string))
    (providerScope (Some "p"%string)) = Some (mkState StatusOpen 0 1 (30 * Second)))
    by (vm_compute; reflexivity).
  rewrite E in H. cbn [st_Status] in H. rewrite bool_decide_eq_false_2 in H by discriminate.
  apply H. unfold Second. lia.
Defined.

Lemma key_failure_cooldown_witness :
  KeyAvailable (100 * Second) (RecordKeyFailure 0 half w0 (Some "k") (120 * Second) false) (Some "k")
  = false.
Proof.
  rewrite (key_failure_cooldown 0 (100 * Second)).
  - vm_compute. reflexivity.
  - unfold Second. lia.
  - vm_compute. discriminate.
  - vm_compute. discriminate.
Defined.

Lemma burst_climbs_ladder_witness :
  ProviderAvailable (29 * Minute) (fail_at (replicate 9 0) half w0 (Some "p")) (Some "p") = false.
Proof.
  rewrite (burst_climbs_ladder 0 (29 * Minute) half w0 (Some "p"%string) 4).
  - vm_compute. reflexivity.
  - intros t _. vm_compute. reflexivity.
  - unfold Minute, Second. lia.
  - vm_compute. discriminate.
  - vm_compute. discriminate.
Defined.

Lemma restart_keeps_cooldowns_witness :
  let w := mkWorld (∅ : Memory)
    (w_cooldowns (fail_at (replicate 5 0) half w0 (Some "p"%string))) in
  Available (20 * Second) (RestoreCooldowns (10 * Second) w) (providerScope (Some "p")) = false.
Proof.
  cbv zeta.
  set (w := mkWorld _ _).
  change (providerScope (Some "p"%string))
    with (restore_scope ("provider"%string, "p"%string)).
  rewrite (restart_keeps_cooldowns (10 * Second) (20 * Second) w
    (<[("provider"%string, "p"%string) := 30 * Second]> ∅)).
  - vm_compute. reflexivity.
  - vm_compute. reflexivity.
  - intros k [u Hu]. apply lookup_insert_Some in Hu as [[<- _]|[_ Hu]].
    + left. reflexivity.
    + rewrite lookup_empty in Hu. discriminate.
  - left. reflexivity.
  - unfold Second. lia.
Defined.
