(* ===== verification/RateLimit.v ===== *)
(** * Rate limiting: [foundation/drivers/ratelimit]

    The limiter interface ([ratelimit.go]) and the shared implementation
    ([redis.go]): the token-bucket script that runs inside the store, and the
    client around it.

    Numbers inside the script are Lua doubles; they are read as rationals.  The
    script's clock is the server's, in milliseconds; the client's own clock (in
    nanoseconds) only dates the answer. *)
From S2P Require Import Prelude BreakerStore.
From Stdlib Require Import QArith Qround Qminmax Lqa.

Open Scope Z_scope.

(** ** The interface *)

Record Result := mkResult {
  Allowed : bool;
  Limit : Z;
  Remaining : Z;
  ResetAt : Z;
  RetryAfter : Z;
}.

(** The two clocks a call reads. *)
Record Clock := mkClock { local_ns : Z; server_ms : Z }.

(** [Limiter]: [AllowN] under a key for [n] units of [limit] per [window]; the
    driver may fail. *)
Class Limiter (L : Type) := {
  AllowN : Clock -> L -> string -> Z -> Z -> Z -> result string Result * L;
}.

Definition Allow {L} `{Limiter L} (c : Clock) (l : L) (key : string) (limit window : Z) :
    result string Result * L :=
  AllowN c l key 1 limit window.

(** ** The script *)

(** The hash under one key, and when the store drops it. *)
Record bucket := mkBucket {
  b_tokens : Q;
  b_ts : Z;
  b_limit : Z;
  b_window : Z;
  b_expire : Z;
}.

Definition lua_min (a b : Q) : Q := if Qle_bool a b then a else b.

(** What the script reads: the stored tokens and timestamp, or a full bucket when
    there is none or its parameters changed. *)
Definition script_state (now limit window : Z) (st : option bucket) : Q * Z :=
  match st with
  | Some b => if negb (b_limit b =? limit) || negb (b_window b =? window)
              then (inject_Z limit, now) else (b_tokens b, b_ts b)
  | None => (inject_Z limit, now)
  end.

(** Tokens after the refill for the time gone by. *)
Definition refilled (now limit window : Z) (st : option bucket) : Q :=
  let '(tokens, ts) := script_state now limit window st in
  let rate := (inject_Z limit / inject_Z window)%Q in
  let elapsed := Z.max 0 (now - ts) in
  lua_min (inject_Z limit) (tokens + inject_Z elapsed * rate)%Q.

(** [takeScript]: {allowed, remaining, retry_after_ms} and the new hash. *)
Definition take (now : Z) (st : option bucket) (limit window n : Z) : bool * Z * Z * bucket :=
  let rate := (inject_Z limit / inject_Z window)%Q in
  let tokens := refilled now limit window st in
  if Qle_bool (inject_Z n) tokens then
    let tokens := (tokens - inject_Z n)%Q in
    (true, Qfloor tokens, 0, mkBucket tokens now limit window (now + window))
  else
    (false, Qfloor tokens, Qceiling ((inject_Z n - tokens) / rate)%Q,
     mkBucket tokens now limit window (now + window)).

(** ** The client *)

(** The store behind the client: its hashes, and whether it answers. *)
Record Redis := mkRedis { rd_keys : gmap string bucket; rd_up : bool }.

(** A stored hash at server time [now]: gone once its expiry has passed. *)
Definition unexpired (now : Z) (st : option bucket) : option bucket :=
  match st with
  | Some b => if b_expire b <? now then None else Some b
  | None => None
  end.

Definition Millisecond : Z := 1000000.

(** [Redis.AllowN]; callers pass a positive [limit]. *)
Definition RedisAllowN (c : Clock) (r : Redis) (key : string) (n limit window : Z) :
    result string Result * Redis :=
  let n := if n <=? 0 then 1 else n in
  let now := local_ns c in
  if limit <? n then
    let retry := Z.quot (wrap64 (n * window)) limit in
    (Ok (mkResult false limit 0 (wrap64 (now + retry)) retry), r)
  else
    let windowMs := Z.quot window Millisecond in
    let windowMs := if windowMs <=? 0 then 1 else windowMs in
    if negb (rd_up r) then (Err "redis unreachable"%string, r)
    else
      let k := ("flb:rl:" ++ key)%string in
      let '(allowed, remaining, retryMs, b) :=
        take (server_ms c) (unexpired (server_ms c) (rd_keys r !! k)) limit windowMs n in
      let r' := mkRedis (<[k := b]> (rd_keys r)) (rd_up r) in
      if (allowed : bool) then
        (Ok (mkResult true limit (Z.max remaining 0) (wrap64 (now + window)) 0), r')
      else
        let retry := wrap64 (retryMs * Millisecond) in
        let retry := if retry <=? 0 then Millisecond else retry in
        (Ok (mkResult false limit 0 (wrap64 (now + retry)) retry), r').

#[export] Instance Redis_limiter : Limiter Redis := {| AllowN := RedisAllowN |}.

(** ** The bucket *)

(** A stored bucket never holds less than nothing nor more than its capacity. *)
Definition bucket_wf (b : bucket) : Prop :=
  0 < b_limit b /\ 0 < b_window b /\ (0 <= b_tokens b)%Q /\ (b_tokens b <= inject_Z (b_limit b))%Q /\
  b_expire b = b_ts b + b_window b.

Lemma inject_pos z : 0 < z -> (0 < inject_Z z)%Q.
Proof. intros H. unfold Qlt. cbn. lia. Qed.

Lemma inject_nonneg z : 0 <= z -> (0 <= inject_Z z)%Q.
Proof. intros H. unfold Qle. cbn. lia. Qed.

Lemma lua_min_spec a b : (lua_min a b == Qmin a b)%Q.
Proof.
  unfold lua_min. destruct (Qle_bool a b) eqn:E.
  - apply Qle_bool_iff in E. by rewrite Q.min_l.
  - assert (b <= a)%Q. { apply Qnot_lt_le. intros H%Qlt_le_weak%Qle_bool_iff. congruence. }
    by rewrite Q.min_r.
Qed.

Lemma rate_pos limit window : 0 < limit -> 0 < window -> (0 < inject_Z limit / inject_Z window)%Q.
Proof.
  intros Hl Hw. apply Qlt_shift_div_l; [by apply inject_pos|]. rewrite Qmult_0_l. by apply inject_pos.
Qed.

Lemma refilled_bounds now limit window st :
  0 < limit -> 0 < window -> (forall b, st = Some b -> bucket_wf b) ->
  (0 <= refilled now limit window st)%Q /\ (refilled now limit window st <= inject_Z limit)%Q.
Proof.
  intros Hl Hw Hst. unfold refilled.
  assert (Hlq : (0 < inject_Z limit)%Q) by (by apply inject_pos).
  assert (Ht : (0 <= (script_state now limit window st).1)%Q).
  { unfold script_state. destruct st as [b|]; [|by apply Qlt_le_weak].
    destruct (_ || _); [by apply Qlt_le_weak|]. by apply (Hst b). }
  destruct (script_state now limit window st) as [tokens ts]. cbn [fst] in Ht.
  pose proof (rate_pos limit window Hl Hw) as Hr.
  assert (He : (0 <= inject_Z (Z.max 0 (now - ts)))%Q) by (apply inject_nonneg; lia).
  rewrite lua_min_spec. split.
  - apply Q.min_glb; [by apply Qlt_le_weak|]. pose proof (Qmult_le_0_compat _ _ He (Qlt_le_weak _ _ Hr)).
    lra.
  - apply Q.le_min_l.
Qed.

Lemma take_wf now st limit window n :
  0 < limit -> 0 < window -> 0 <= n -> (forall b, st = Some b -> bucket_wf b) ->
  bucket_wf (take now st limit window n).2.
Proof.
  intros Hl Hw Hn Hst. destruct (refilled_bounds now limit window st Hl Hw Hst) as [H0 H1].
  assert (Hnq : (0 <= inject_Z n)%Q) by (by apply inject_nonneg).
  unfold take. destruct (Qle_bool _ _) eqn:E.
  - apply Qle_bool_iff in E. split_and!; cbn; try done; lra.
  - by split_and!.
Qed.

(** An expired key is a full bucket: dropping it at or after its expiry changes
    nothing the script answers. *)
Lemma refilled_expired now limit window b :
  bucket_wf b -> 0 < limit -> 0 < window -> b_expire b <= now ->
  (refilled now limit window (Some b) == refilled now limit window None)%Q.
Proof.
  intros (Hl & Hw & H0 & H1 & He) Hlim Hwin Hx. unfold refilled, script_state.
  assert (Hlq : (0 < inject_Z limit)%Q) by (by apply inject_pos).
  pose proof (rate_pos limit window Hlim Hwin) as Hr.
  assert (Hfull : (lua_min (inject_Z limit)
      (inject_Z limit + inject_Z (Z.max 0 (now - now)) * (inject_Z limit / inject_Z window))
      == inject_Z limit)%Q).
  { rewrite lua_min_spec, Z.sub_diag. apply Q.min_l. change (inject_Z (Z.max 0 0)) with 0%Q. lra. }
  destruct (negb (b_limit b =? limit) || negb (b_window b =? window)) eqn:E; bool_prop; [done|].
  rewrite Hfull, lua_min_spec. apply Q.min_l. subst limit window.
  assert (Hel : (inject_Z (b_window b) <= inject_Z (Z.max 0 (now - b_ts b)))%Q)
    by (rewrite <- Zle_Qle; lia).
  assert (Hwq : (0 < inject_Z (b_window b))%Q) by (by apply inject_pos).
  assert (Hm : (inject_Z (b_window b) * (inject_Z (b_limit b) / inject_Z (b_window b))
                == inject_Z (b_limit b))%Q) by (field; lra).
  pose proof (Qmult_le_compat_r _ _ _ Hel (Qlt_le_weak _ _ Hr)) as Hmul. lra.
Qed.

Lemma unexpired_wf now st :
  (forall b, st = Some b -> bucket_wf b) -> forall b, unexpired now st = Some b -> bucket_wf b.
Proof. intros H b. destruct st as [b'|]; cbn; [|done]. destruct (_ <? _); [done|]. by apply H. Qed.

Lemma refilled_unexpired now limit window st :
  (forall b, st = Some b -> bucket_wf b) -> 0 < limit -> 0 < window ->
  (refilled now limit window (unexpired now st) == refilled now limit window st)%Q.
Proof.
  intros Hst Hl Hw. destruct st as [b|]; [|done]. cbn [unexpired].
  destruct (Z.ltb_spec (b_expire b) now); [|done]. symmetry. apply refilled_expired; try done; [|lia].
  by apply Hst.
Qed.

(** Tokens of a bucket left at [b_ts] with the same parameters. *)
Lemma refilled_after now b :
  bucket_wf b -> b_ts b <= now ->
  (refilled now (b_limit b) (b_window b) (unexpired now (Some b)) ==
   Qmin (inject_Z (b_limit b))
     (b_tokens b + inject_Z (now - b_ts b) * (inject_Z (b_limit b) / inject_Z (b_window b))))%Q.
Proof.
  intros Hb Ht. destruct Hb as (Hl & Hw & Hrest). rewrite refilled_unexpired; [|by intros ? [= <-]|done..].
  unfold refilled, script_state. rewrite !Z.eqb_refl. cbn [negb orb].
  by rewrite lua_min_spec, Z.max_r by lia.
Qed.

(** ** Sequences of calls *)

(** Calls on one key with fixed parameters: (server time, units); the units
    admitted, and the hash left behind. *)
Fixpoint run (limit window : Z) (st : option bucket) (calls : list (Z * Z)) : Z * option bucket :=
  match calls with
  | [] => (0, st)
  | (now, n) :: calls' =>
      let '(allowed, _, _, b) := take now (unexpired now st) limit window n in
      let '(admitted, st') := run limit window (Some b) calls' in
      ((if (allowed : bool) then n else 0) + admitted, st')
  end.

(** Calls in the order of a clock that does not run backwards. *)
Fixpoint ordered (t : Z) (calls : list (Z * Z)) : Prop :=
  match calls with
  | [] => True
  | (now, n) :: calls' => t <= now /\ 0 <= n /\ ordered now calls'
  end.

Definition last_time (t : Z) (calls : list (Z * Z)) : Z := List.last (map fst calls) t.

Lemma last_time_cons t now n calls : last_time t ((now, n) :: calls) = last_time now calls.
Proof.
  unfold last_time. cbn [map fst]. destruct (map fst calls) as [|x l] eqn:E; [done|].
  clear E. revert x. cbn [List.last]. induction l as [|y l IH]; [done|]. intros x. apply (IH y).
Qed.

Lemma run_bound limit window b calls :
  0 < limit -> 0 < window -> bucket_wf b -> b_limit b = limit -> b_window b = window ->
  ordered (b_ts b) calls ->
  (inject_Z (run limit window (Some b) calls).1 <=
   b_tokens b + inject_Z (last_time (b_ts b) calls - b_ts b) * (inject_Z limit / inject_Z window))%Q.
Proof.
  intros Hl Hw. revert b. induction calls as [|[now n] calls IH]; intros b Hb Hbl Hbw Ho.
  - unfold last_time. cbn. rewrite Z.sub_diag.
    destruct Hb as (_ & _ & H0 & _). change (inject_Z 0) with 0%Q. lra.
  - rewrite last_time_cons. destruct Ho as (Ht & Hn & Ho). cbn [run].
    pose proof (rate_pos limit window Hl Hw) as Hr.
    set (rate := (inject_Z limit / inject_Z window)%Q) in *.
    set (st := unexpired now (Some b)) in *.
    assert (Href : (refilled now limit window st
                    <= b_tokens b + inject_Z (now - b_ts b) * rate)%Q).
    { subst st rate limit window. rewrite refilled_after by done. apply Q.le_min_r. }
    assert (Hwf : bucket_wf (take now st limit window n).2).
    { apply take_wf; try done. apply unexpired_wf. by intros ? [= <-]. }
    assert (Hsplit : (inject_Z (last_time now calls - b_ts b) ==
      inject_Z (last_time now calls - now) + inject_Z (now - b_ts b))%Q).
    { rewrite <- inject_Z_plus. apply inject_Z_injective. lia. }
    unfold take in *. destruct (Qle_bool (inject_Z n) (refilled now limit window st)) eqn:E.
    + cbn [snd] in Hwf.
      specialize (IH (mkBucket (refilled now limit window st - inject_Z n) now limit window
        (now + window)) Hwf eq_refl eq_refl Ho). cbn [b_tokens b_ts] in IH.
      destruct (run _ _ _ calls) as [a st1]. cbn [fst] in *. rewrite inject_Z_plus, Hsplit. lra.
    + cbn [snd] in Hwf.
      specialize (IH (mkBucket (refilled now limit window st) now limit window
        (now + window)) Hwf eq_refl eq_refl Ho). cbn [b_tokens b_ts] in IH.
      destruct (run _ _ _ calls) as [a st1]. cbn [fst] in *.
      rewrite Z.add_0_l, Hsplit. lra.
Qed.

(** C39: the limit is a limit.  Whatever a key was asked for, in whatever sizes and
    at whatever server times, the units admitted over any stretch of calls are at
    most one full bucket plus what refilled over that stretch: never twice the
    limit at a window boundary. *)
Theorem admitted_within_limit limit window st t calls :
  0 < limit -> 0 < window -> (forall b, st = Some b -> bucket_wf b) ->
  ordered t calls ->
  (inject_Z (run limit window st calls).1 <=
   inject_Z limit +
   inject_Z (last_time t calls - List.hd t (map fst calls)) * (inject_Z limit / inject_Z window))%Q.
Proof.
  intros Hl Hw Hst Ho. assert (Hlq : (0 < inject_Z limit)%Q) by (by apply inject_pos).
  destruct calls as [|[now n] calls].
  { unfold last_time. cbn. rewrite Z.sub_diag. change (inject_Z 0) with 0%Q. lra. }
  rewrite last_time_cons. cbn [run map fst List.hd]. destruct Ho as (_ & Hn & Ho).
  pose proof (unexpired_wf now st Hst) as Hst'. set (st' := unexpired now st) in *.
  destruct (refilled_bounds now limit window st' Hl Hw Hst') as [_ Hcap].
  pose proof (take_wf now st' limit window n Hl Hw Hn Hst') as Hwf.
  unfold take in *. destruct (Qle_bool (inject_Z n) _) eqn:E; cbn [snd] in Hwf.
  - pose proof (run_bound limit window _ calls Hl Hw Hwf eq_refl eq_refl Ho) as H.
    cbn [b_tokens b_ts] in H. destruct (run _ _ _ calls) as [a st1]. cbn [fst] in *.
    rewrite inject_Z_plus. lra.
  - pose proof (run_bound limit window _ calls Hl Hw Hwf eq_refl eq_refl Ho) as H.
    cbn [b_tokens b_ts] in H. destruct (run _ _ _ calls) as [a st1]. cbn [fst] in *.
    rewrite Z.add_0_l. lra.
Qed.

(** A refusal's hint is exact.  A refused request of at most the limit leaves
    the tokens it could have had (nothing is consumed), and if nothing else is
    taken it is refused again at every instant before the hint has passed and
    admitted at every instant from then on. *)
Theorem retry_hint_exact now st limit window n rem retry b :
  0 < limit -> 0 < window -> 0 < n <= limit -> (forall b, st = Some b -> bucket_wf b) ->
  take now st limit window n = (false, rem, retry, b) ->
  (b_tokens b == refilled now limit window st)%Q /\ 0 < retry <= window /\
  forall t, now <= t ->
    (take t (unexpired t (Some b)) limit window n).1.1.1 = (now + retry <=? t).
Proof.
  intros Hl Hw Hn Hst Ht.
  assert (Hwf : bucket_wf b).
  { pose proof (take_wf now st limit window n Hl Hw ltac:(lia) Hst) as H. by rewrite Ht in H. }
  unfold take in Ht.
  destruct (Qle_bool (inject_Z n) (refilled now limit window st)) eqn:E; [done|].
  injection Ht as _ Hretry Hb.
  assert (Hlt : (refilled now limit window st < inject_Z n)%Q).
  { apply Qnot_le_lt. intros H%Qle_bool_iff. congruence. }
  assert (Hnl : (inject_Z n <= inject_Z limit)%Q) by (rewrite <- Zle_Qle; lia).
  destruct (refilled_bounds now limit window st Hl Hw Hst) as [H0 _].
  pose proof (rate_pos limit window Hl Hw) as Hr.
  set (rate := (inject_Z limit / inject_Z window)%Q) in *.
  set (tok := refilled now limit window st) in *.
  assert (Hx : (0 < (inject_Z n - tok) / rate)%Q).
  { apply Qlt_shift_div_l; [done|]. lra. }
  assert (Hxw : ((inject_Z n - tok) / rate <= inject_Z window)%Q).
  { apply Qle_shift_div_r; [done|].
    assert (inject_Z window * rate == inject_Z limit)%Q as ->; [|lra].
    subst rate. field. pose proof (inject_pos window Hw). lra. }
  pose proof (Qle_ceiling ((inject_Z n - tok) / rate)) as Hc1.
  pose proof (Qceiling_lt ((inject_Z n - tok) / rate)) as Hc2. rewrite Hretry in Hc1, Hc2.
  subst b. cbn [b_tokens]. split_and!; [done| | |].
  - rewrite Zlt_Qlt. change (inject_Z 0) with 0%Q. lra.
  - rewrite <- Hretry, <- (Qceiling_Z window). by apply Qceiling_resp_le.
  - intros t Hle. unfold take.
    pose proof (refilled_after t _ Hwf Hle) as Href. cbn [b_limit b_window b_tokens b_ts] in Href.
    fold rate in Href.
    set (u := unexpired t _) in *.
    assert (Hiff : (inject_Z n <= refilled t limit window u)%Q <-> now + retry <= t).
    { rewrite Href, Q.min_glb_iff. split.
      - intros [_ H]. assert (Hd : ((inject_Z n - tok) / rate <= inject_Z (t - now))%Q)
          by (apply Qle_shift_div_r; [done|]; lra).
        assert (Hz : (inject_Z (retry - 1) < inject_Z (t - now))%Q) by lra.
        rewrite <- Zlt_Qlt in Hz. lia.
      - intros H. split; [done|]. assert (Hz : (inject_Z retry <= inject_Z (t - now))%Q)
          by (rewrite <- Zle_Qle; lia).
        assert (Hd : ((inject_Z n - tok) / rate * rate <= inject_Z (t - now) * rate)%Q).
        { apply Qmult_le_compat_r; [lra|by apply Qlt_le_weak]. }
        assert ((inject_Z n - tok) / rate * rate == inject_Z n - tok)%Q as E1 by (field; lra).
        lra. }
    destruct (Qle_bool (inject_Z n) (refilled t limit window u)) eqn:E2; cbn [fst].
    + symmetry. apply Z.leb_le, Hiff. by apply Qle_bool_iff.
    + symmetry. apply Z.leb_gt. assert (~ now + retry <= t); [|lia].
      intros H%Hiff%Qle_bool_iff. congruence.
Qed.

(** A key answers for itself: a call under another key changes nothing under it. *)
Lemma redis_call_isolated c r key key' n limit window :
  key <> key' ->
  rd_keys (RedisAllowN c r key n limit window).2 !! ("flb:rl:" ++ key')%string
  = rd_keys r !! ("flb:rl:" ++ key')%string.
Proof.
  intros Hne. assert (Hk : ("flb:rl:" ++ key)%string <> ("flb:rl:" ++ key')%string).
  { intros E. apply Hne. by simplify_eq/=. }
  unfold RedisAllowN. destruct (limit <? _); [done|]. destruct (rd_up r); cbn [negb]; [|done].
  destruct (take _ _ _ _ _) as [[[allowed remaining] retryMs] b].
  destruct allowed; cbn [rd_keys snd]; by rewrite lookup_insert_ne.
Qed.

(** A request larger than the limit is refused without reaching the store. *)
Lemma redis_oversized c r key n limit window :
  limit < n ->
  (RedisAllowN c r key n limit window).2 = r /\
  exists res, (RedisAllowN c r key n limit window).1 = Ok res /\ Allowed res = false.
Proof.
  intros Hlt. assert (Hn : limit < (if n <=? 0 then 1 else n)) by (destruct (Z.leb_spec n 0); lia).
  unfold RedisAllowN. rewrite (proj2 (Z.ltb_lt _ _) Hn). cbn [fst snd]. eauto.
Qed.

(** ** Concrete runs: three units per second *)

Definition demo_bucket : bucket := mkBucket 0%Q 1000 3 1000 2000.

Lemma admitted_within_limit_witness :
  let calls := [(0, 2); (0, 1); (0, 1); (333, 1); (334, 1); (1000, 3)] in
  (run 3 1000 None calls).1 = 4 /\
  (inject_Z (run 3 1000 None calls).1 <=
     inject_Z 3 + inject_Z (1000 - 0) * (inject_Z 3 / inject_Z 1000))%Q.
Proof.
  cbv zeta. split; [vm_compute; reflexivity|].
  apply (admitted_within_limit 3 1000 None 0 [(0, 2); (0, 1); (0, 1); (333, 1); (334, 1); (1000, 3)]).
  - lia.
  - lia.
  - discriminate.
  - cbn. lia.
Defined.

Lemma retry_hint_exact_witness :
  exists b, take 1000 (Some demo_bucket) 3 1000 2 = (false, 0, 667, b) /\
    (take 1666 (unexpired 1666 (Some b)) 3 1000 2).1.1.1 = false /\
    (take 1667 (unexpired 1667 (Some b)) 3 1000 2).1.1.1 = true.
Proof.
  eexists. split; [vm_compute; reflexivity|].
  edestruct (retry_hint_exact 1000 (Some demo_bucket) 3 1000 2 0 667) as (_ & _ & H);
    [lia|lia|lia| |vm_compute; reflexivity|].
  - intros b Hb. injection Hb as <-. split_and!; vm_compute; try reflexivity; discriminate.
  - split; rewrite H by lia; reflexivity.
Defined.
