(* ===== verification/Errors.v ===== *)
(** * The data plane's errors: [internal/gateway/proxy/errors.go]

    Error codes and the registry they come from
    ([foundation/errcode/errcode.gen.go], the gateway segment), the shape of each
    code on each dialect, and how an error is rendered.  The response writer's
    effects are collected in a [Response]; encoding its body as JSON is
    [encoding/json]'s. *)
From S2P Require Import Prelude GoStr BreakerStore.

Open Scope Z_scope.

(** ** The registry *)

Definition GatewayAllProvidersFailed : string := "gateway.all_providers_failed".
Definition GatewayInternal : string := "gateway.internal".
Definition GatewayInvalidRequest : string := "gateway.invalid_request".
Definition GatewayKeyBudgetExceeded : string := "gateway.key_budget_exceeded".
Definition GatewayModelNotFound : string := "gateway.model_not_found".
Definition GatewayModelTierDisabled : string := "gateway.model_tier_disabled".
Definition GatewayRateLimited : string := "gateway.rate_limited".
Definition GatewayRequestTooLarge : string := "gateway.request_too_large".
Definition GatewayResourceNotFound : string := "gateway.resource_not_found".
Definition GatewaySaturated : string := "gateway.saturated".
Definition GatewayStateRouteUnavailable : string := "gateway.state_route_unavailable".
Definition GatewayModelUnpriced : string := "gateway.model_unpriced".
Definition GatewayInsufficientCredits : string := "gateway.insufficient_credits".
Definition GatewayOrgSuspended : string := "gateway.org_suspended".
Definition GatewayKeyExpired : string := "gateway.key_expired".
Definition GatewayKeyRevoked : string := "gateway.key_revoked".
Definition GatewayInvalidApiKey : string := "gateway.invalid_api_key".
Definition GatewayInsufficientScope : string := "gateway.insufficient_scope".
Definition GatewayModelDisabled : string := "gateway.model_disabled".
Definition GatewayUpstreamTimeout : string := "gateway.upstream_timeout".
Definition GatewayArtifactGone : string := "gateway.artifact_gone".
Definition GatewayJobNotCancelable : string := "gateway.job_not_cancelable".
Definition GatewayJobNotReady : string := "gateway.job_not_ready".
Definition GatewayVideoContentRejected : string := "gateway.video_content_rejected".
Definition GatewayVideoParamsUnsupported : string := "gateway.video_params_unsupported".

Definition registry : list (string * Z) :=
  [ (GatewayAllProvidersFailed, 502); (GatewayArtifactGone, 410);
    ("gateway.insufficient_credits", 402); ("gateway.insufficient_scope", 403);
    (GatewayInternal, 500); ("gateway.invalid_api_key", 401); (GatewayInvalidRequest, 400);
    (GatewayJobNotCancelable, 409); (GatewayJobNotReady, 409);
    (GatewayKeyBudgetExceeded, 402); ("gateway.key_expired", 401); ("gateway.key_revoked", 401);
    ("gateway.model_disabled", 503); (GatewayModelNotFound, 404); (GatewayModelTierDisabled, 403);
    ("gateway.model_unpriced", 503); ("gateway.org_suspended", 403); (GatewayRateLimited, 429);
    (GatewayRequestTooLarge, 413); (GatewayResourceNotFound, 404); (GatewaySaturated, 429);
    (GatewayStateRouteUnavailable, 503); (GatewayUpstreamTimeout, 502);
    (GatewayVideoContentRejected, 422); (GatewayVideoParamsUnsupported, 400) ]%string.

Fixpoint assoc {A} (k : string) (l : list (string * A)) : option A :=
  match l with
  | [] => None
  | (k', v) :: l' => if bool_decide (k' = k) then Some v else assoc k l'
  end.

Definition statusOf (code : string) : Z := default 500 (assoc code registry).

(** ** Shapes *)

Record errShape := mkShape {
  openAIType : string;
  anthropicType : string;
  geminiStatus : string;
}.

Definition shapes : list (string * errShape) :=
  [ ("gateway.invalid_api_key", mkShape "authentication_error" "authentication_error" "UNAUTHENTICATED");
    ("gateway.key_revoked", mkShape "authentication_error" "authentication_error" "UNAUTHENTICATED");
    ("gateway.key_expired", mkShape "authentication_error" "authentication_error" "UNAUTHENTICATED");
    ("gateway.org_suspended", mkShape "permission_error" "permission_error" "PERMISSION_DENIED");
    ("gateway.insufficient_scope", mkShape "permission_error" "permission_error" "PERMISSION_DENIED");
    ("gateway.insufficient_credits",
       mkShape "insufficient_quota" "invalid_request_error" "RESOURCE_EXHAUSTED");
    (GatewayKeyBudgetExceeded, mkShape "insufficient_quota" "invalid_request_error" "RESOURCE_EXHAUSTED");
    (GatewayRateLimited, mkShape "rate_limit_error" "rate_limit_error" "RESOURCE_EXHAUSTED");
    (GatewaySaturated, mkShape "rate_limit_error" "overloaded_error" "RESOURCE_EXHAUSTED");
    (GatewayModelNotFound, mkShape "invalid_request_error" "not_found_error" "NOT_FOUND");
    (GatewayResourceNotFound, mkShape "invalid_request_error" "not_found_error" "NOT_FOUND");
    (GatewayModelTierDisabled, mkShape "permission_error" "permission_error" "PERMISSION_DENIED");
    ("gateway.model_disabled", mkShape "api_error" "overloaded_error" "UNAVAILABLE");
    ("gateway.model_unpriced", mkShape "api_error" "api_error" "FAILED_PRECONDITION");
    (GatewayVideoParamsUnsupported,
       mkShape "invalid_request_error" "invalid_request_error" "INVALID_ARGUMENT");
    (GatewayJobNotCancelable,
       mkShape "invalid_request_error" "invalid_request_error" "FAILED_PRECONDITION");
    (GatewayJobNotReady,
       mkShape "invalid_request_error" "invalid_request_error" "FAILED_PRECONDITION");
    (GatewayArtifactGone, mkShape "invalid_request_error" "not_found_error" "NOT_FOUND");
    (GatewayVideoContentRejected,
       mkShape "invalid_request_error" "invalid_request_error" "INVALID_ARGUMENT");
    (GatewayRequestTooLarge, mkShape "invalid_request_error" "invalid_request_error" "INVALID_ARGUMENT");
    (GatewayInvalidRequest, mkShape "invalid_request_error" "invalid_request_error" "INVALID_ARGUMENT");
    (GatewayUpstreamTimeout, mkShape "api_error" "api_error" "DEADLINE_EXCEEDED");
    (GatewayAllProvidersFailed, mkShape "api_error" "api_error" "UNAVAILABLE");
    (GatewayStateRouteUnavailable, mkShape "api_error" "api_error" "UNAVAILABLE");
    (GatewayInternal, mkShape "api_error" "api_error" "INTERNAL") ]%string.

(** ** Errors and their rendering *)

Record Error := mkError {
  Code : string;
  Message : string;
  RetryAfter : Z;
  UpstreamMessage : bytes;
}.

Definition NewError (code message : string) : Error := mkError code message 0 [].

Inductive ErrorSurface := SurfaceOpenAI | SurfaceAnthropic | SurfaceGemini.

Definition errorDomain : string := "fairlb".
Definition genericServerMessage : string :=
  "The upstream or gateway is temporarily unavailable; please retry".

Inductive ErrorBody :=
  | openAIError (message : bytes) (type code : string)
  | anthropicError (type : string) (message : bytes) (code : string)
  | geminiError (code : Z) (message : bytes) (status reason domain : string).

Record Response := mkResponse {
  rs_Status : Z;
  rs_RetryAfter : option Z;
  rs_Body : ErrorBody;
}.

(** [int(d.Round(time.Second).Seconds())] of a positive duration: to the nearest
    second, half away from zero, saturating. *)
Definition round_seconds (d : Z) : Z :=
  let r := Z.rem d Second in
  if r + r <? Second then Z.quot (d - r) Second
  else let d1 := d + Second - r in
       Z.quot (if d1 <=? max_int64 then d1 else max_int64) Second.

Definition Write (surface : ErrorSurface) (e : Error) : Response :=
  let '(e, shape) :=
    match assoc (Code e) shapes with
    | Some shape => (e, shape)
    | None => (NewError GatewayInternal "Internal server error",
               default (mkShape "" "" "") (assoc GatewayInternal shapes))
    end in
  let status := statusOf (Code e) in
  let msg := lit (Message e) in
  let msg := if bool_decide (UpstreamMessage e = []) then msg else UpstreamMessage e in
  let msg := if (500 <=? status) && bool_decide (UpstreamMessage e = [])
             then lit genericServerMessage else msg in
  mkResponse status
    (if 0 <? RetryAfter e then Some (round_seconds (RetryAfter e)) else None)
    match surface with
    | SurfaceAnthropic => anthropicError (anthropicType shape) msg (Code e)
    | SurfaceGemini =>
        geminiError (statusOf (Code e)) msg
          (if bool_decide (geminiStatus shape = ""%string) then "UNKNOWN"%string
           else geminiStatus shape) (Code e) errorDomain
    | SurfaceOpenAI => openAIError msg (openAIType shape) (Code e)
    end.

Definition body_message (b : ErrorBody) : bytes :=
  match b with
  | openAIError m _ _ | anthropicError _ m _ | geminiError _ m _ _ _ => m
  end.

Definition body_code (b : ErrorBody) : string :=
  match b with
  | openAIError _ _ c | anthropicError _ _ c | geminiError _ _ _ c _ => c
  end.

(** ** Properties *)

Definition registered (code : string) : bool := bool_decide (is_Some (assoc code registry)).
Definition shaped (code : string) : bool :=
  match assoc code shapes with
  | Some s => negb (bool_decide (openAIType s = ""%string)) &&
              negb (bool_decide (anthropicType s = ""%string)) &&
              negb (bool_decide (geminiStatus s = ""%string))
  | None => false
  end.

(** The shape table covers the registry's gateway segment and nothing else. *)
Lemma shapes_exhaustive :
  Forall (fun p => shaped p.1 = true) registry /\ Forall (fun p => registered p.1 = true) shapes.
Proof. split; apply forallb_Forall; vm_compute; reflexivity. Qed.

(** What a caller can learn from an error.  The rendered code and status are
    the error's own when the code is known and the internal error's otherwise; a
    5xx whose upstream said nothing carries only the generic text, an upstream
    text always passes through unchanged, and any other message is the error's
    own. *)
Theorem error_rendering surface e :
  let r := Write surface e in
  let known := bool_decide (is_Some (assoc (Code e) shapes)) in
  body_code (rs_Body r) = (if known then Code e else GatewayInternal) /\
  rs_Status r = (if known then statusOf (Code e) else 500) /\
  body_message (rs_Body r) =
    (if negb known then lit genericServerMessage
     else if bool_decide (UpstreamMessage e = []) then
       if 500 <=? statusOf (Code e) then lit genericServerMessage else lit (Message e)
     else UpstreamMessage e).
Proof.
  cbn zeta. unfold Write. destruct (assoc (Code e) shapes) as [shape|] eqn:E.
  - rewrite (bool_decide_eq_true_2 (is_Some _)) by done. cbn [negb rs_Status rs_Body].
    assert (Hm : (if (500 <=? statusOf (Code e)) && bool_decide (UpstreamMessage e = [])
                  then lit genericServerMessage
                  else if bool_decide (UpstreamMessage e = []) then lit (Message e)
                       else UpstreamMessage e)
               = (if bool_decide (UpstreamMessage e = []) then
                    if 500 <=? statusOf (Code e) then lit genericServerMessage else lit (Message e)
                  else UpstreamMessage e)).
    { destruct (bool_decide (UpstreamMessage e = [])), (500 <=? _); done. }
    rewrite Hm. by destruct surface.
  - rewrite (bool_decide_eq_false_2 (is_Some _)) by (by intros [? ?]). by destruct surface.
Qed.

(** The Retry-After header rounds to the nearest second, so a wait of less
    than half a second is written as an immediate retry. *)
Theorem retry_after_rounds_to_zero surface e :
  is_Some (assoc (Code e) shapes) -> 0 < RetryAfter e ->
  exists s, rs_RetryAfter (Write surface e) = Some s /\
    (s = 0 <-> RetryAfter e < 500000000) /\
    (RetryAfter e <= max_int64 - Second -> Z.abs (RetryAfter e - s * Second) <= Second / 2).
Proof.
  intros [shape E] Hpos. unfold Write. rewrite E. cbn [rs_RetryAfter].
  rewrite (proj2 (Z.ltb_lt _ _)) by done. eexists. split; [done|].
  unfold round_seconds. set (d := RetryAfter e) in *. clearbody d.
  assert (HS : Second = 1000000000) by reflexivity.
  assert (HM : max_int64 = 9223372036854775807) by reflexivity.
  rewrite HS, HM in *. change (1000000000 / 2) with 500000000.
  rewrite Z.rem_mod_nonneg by lia.
  pose proof (Z.mod_pos_bound d 1000000000 ltac:(lia)) as Hb.
  pose proof (Z.div_mod d 1000000000 ltac:(lia)) as Hdm.
  set (r := d mod 1000000000) in *. set (k := d / 1000000000) in *.
  assert (0 <= k) by (apply Z.div_pos; lia).
  destruct (Z.ltb_spec (r + r) 1000000000).
  - replace (d - r) with (k * 1000000000) by lia. rewrite Z.quot_mul by lia. lia.
  - destruct (Z.leb_spec (d + 1000000000 - r) 9223372036854775807).
    + replace (d + 1000000000 - r) with ((k + 1) * 1000000000) by lia.
      rewrite Z.quot_mul by lia. lia.
    + change (9223372036854775807 ÷ 1000000000) with 9223372036. lia.
Qed.

Lemma retry_after_rounds_to_zero_witness :
  rs_RetryAfter (Write SurfaceOpenAI (mkError GatewayRateLimited "Rate limit exceeded" 300000000 []))
  = Some 0.
Proof.
  destruct (retry_after_rounds_to_zero SurfaceOpenAI
    (mkError GatewayRateLimited "Rate limit exceeded" 300000000 [])) as (s & H & Hz & _).
  - vm_compute. eexists. reflexivity.
  - reflexivity.
  - rewrite H. f_equal. apply Hz. reflexivity.
Defined.
