(* ===== verification/Classify.v ===== *)
(** * Classifying upstream failures: [internal/gateway/proxy/classify.go]

    The decision table from an upstream's status or transport failure to the
    class of the failure, and the three things the class decides: whether the
    request rotates, which circuit records it, and what the client sees.

    Of a Go [error] the code asks two questions, whether it is a cancellation and
    whether it is a timeout; [transport_error] is the answers. *)
From S2P Require Import Prelude GoStr BreakerStore Errors.

Open Scope Z_scope.

Abbreviation uuid := (option string).

Inductive FailureClass := ClassKey | ClassProvider | ClassRoute | ClassClient | ClassTerminal.

#[export] Instance FailureClass_eq_dec : EqDecision FailureClass.
Proof. solve_decision. Defined.

Definition class_String (c : FailureClass) : string :=
  match c with
  | ClassKey => "key"
  | ClassProvider => "provider"
  | ClassRoute => "route"
  | ClassClient => "client"
  | ClassTerminal => "terminal"
  end.

Record Classification := mkClass {
  Class_ : FailureClass;
  cls_Err : option Error;
  CooldownHint : Z;
  CountsTowardHealth : bool;
  cls_keyID : uuid;
  upstreamStatus : Z;
}.

(** The zero [Classification], which [ClassKey] being the first class makes a
    key-class verdict. *)
Definition zero_class : Classification := mkClass ClassKey None 0 false None 0.

Definition withStatus (status : Z) (c : Classification) : Classification :=
  mkClass (Class_ c) (cls_Err c) (CooldownHint c) (CountsTowardHealth c) (cls_keyID c) status.

Definition statusOverloaded : Z := 529.

Definition parseRetryAfter (v : bytes) : Z :=
  if bool_decide (v = []) then 0
  else match atoi v with
       | None => 0
       | Some secs => if secs <? 0 then 0 else wrap64 (secs * Second)
       end.

Definition truncateBody (body : bytes) : bytes :=
  let maxLen := 2000%nat in
  let body := if Nat.ltb maxLen (length body) then take maxLen body else body in
  trim_space body.

Definition ClassifyStatus (status : Z) (body : bytes) (retryAfter : bytes) : Classification :=
  if (status =? 401) || (status =? 403) then
    withStatus status (mkClass ClassKey
      (Some (NewError GatewayAllProvidersFailed "Upstream rejected the credential")) 0 false None 0)
  else if status =? 429 then
    withStatus status (mkClass ClassKey
      (Some (mkError GatewayRateLimited "Upstream rate limit reached" Second []))
      (parseRetryAfter retryAfter) false None 0)
  else if (status =? 404) || (status =? 405) then
    withStatus status (mkClass ClassRoute
      (Some (NewError GatewayModelNotFound "Model not available on the selected upstream"))
      0 false None 0)
  else if status =? 413 then
    withStatus status (mkClass ClassClient
      (Some (NewError GatewayRequestTooLarge "Request body exceeds the upstream limit")) 0 false None 0)
  else if status =? 408 then
    withStatus status (mkClass ClassProvider
      (Some (NewError GatewayUpstreamTimeout "Upstream timed out")) 0 true None 0)
  else if status =? statusOverloaded then
    withStatus status (mkClass ClassProvider
      (Some (NewError GatewayAllProvidersFailed "Upstream is overloaded")) 0 true None 0)
  else if 500 <=? status then
    withStatus status (mkClass ClassProvider
      (Some (NewError GatewayAllProvidersFailed "Upstream error")) 0 true None 0)
  else if 400 <=? status then
    withStatus status (mkClass ClassClient
      (Some (mkError GatewayInvalidRequest "Invalid request" 0 (truncateBody body))) 0 false None 0)
  else
    withStatus status (mkClass ClassProvider
      (Some (NewError GatewayInternal "Unexpected upstream status")) 0 true None 0).

(** [classifyUpstreamStatus]; [pinned] says the request carries a pinned
    credential of either kind. *)
Definition classifyUpstreamStatus (pinned : bool) (status : Z) (body retryAfter : bytes) :
    Classification :=
  if (status =? 404) && pinned then
    withStatus status (mkClass ClassClient
      (Some (NewError GatewayResourceNotFound "Resource not found or expired")) 0 false None 0)
  else ClassifyStatus status body retryAfter.

Record transport_error := mkTransportError {
  te_canceled : bool;
  te_timeout : bool;
}.

(** [own_timer] is whether the context's cause is [errFirstByteBudget]. *)
Definition ClassifyTransportError (own_timer : bool) (err : transport_error) : Classification :=
  if own_timer then
    mkClass ClassProvider (Some (NewError GatewayUpstreamTimeout "Upstream timed out")) 0 true None 0
  else if te_canceled err then
    mkClass ClassTerminal None 0 false None 0
  else if te_timeout err then
    mkClass ClassProvider (Some (NewError GatewayUpstreamTimeout "Upstream timed out")) 0 true None 0
  else
    mkClass ClassProvider (Some (NewError GatewayUpstreamTimeout "Upstream is unreachable")) 0 true
      None 0.

Definition Retryable (c : Classification) : bool :=
  match Class_ c with
  | ClassKey | ClassProvider | ClassRoute => true
  | _ => false
  end.

(** [byokRejected]. *)
Definition byokRejected (status : Z) : bool := (status =? 401) || (status =? 403).

(** The test [applyBreaker] makes to tell a rejected credential from a quota. *)
Definition authFailure (cls : Classification) : bool :=
  (CooldownHint cls =? 0) &&
  match cls_Err cls with
  | Some e => bool_decide (Code e = GatewayAllProvidersFailed)
  | None => false
  end.

(** ** Properties *)

(** Case analysis on the statuses the table singles out. *)
Ltac status_cases s :=
  unfold ClassifyStatus, statusOverloaded;
  repeat match goal with |- context [s =? ?k] => destruct (Z.eqb_spec s k) as [->|] end;
  try (destruct (Z.leb_spec 500 s), (Z.leb_spec 400 s)); cbn [orb andb]; try lia.

(** The decision table, for every status of 400 or more: the caller's own
    mistakes (every 4xx but the credential, quota, timeout and wrong-address
    ones) stop the rotation, everything else moves on to another candidate; only
    a timeout or a server-side failure counts against the provider's health; and
    every verdict keeps its status and an error to show. *)
Theorem decision_table status body ra :
  400 <= status ->
  let c := ClassifyStatus status body ra in
  Retryable c = (status =? 401) || (status =? 403) || (status =? 404) || (status =? 405) ||
                (status =? 408) || (status =? 429) || (500 <=? status) /\
  CountsTowardHealth c = (status =? 408) || (500 <=? status) /\
  (CountsTowardHealth c = true <-> Class_ c = ClassProvider) /\
  (Class_ c = ClassKey <-> status = 401 \/ status = 403 \/ status = 429) /\
  upstreamStatus c = status /\ is_Some (cls_Err c).
Proof.
  intros Hs. cbn zeta.
  status_cases status; cbn; (split_and!; [done|done|..|done|by eexists]);
    (split; [try done; auto; lia|]); intros; naive_solver lia.
Qed.

Lemma decision_table_witness :
  Retryable (ClassifyStatus 422 [] []) = false /\
  CountsTowardHealth (ClassifyStatus 429 [] []) = false.
Proof.
  destruct (decision_table 422 [] [] ltac:(lia)) as (H1 & _).
  destruct (decision_table 429 [] [] ltac:(lia)) as (_ & H2 & _).
  split; [rewrite H1; reflexivity|rewrite H2; reflexivity].
Defined.

Lemma NewError_code c m : Code (NewError c m) = c.
Proof. done. Qed.

(** The long cooldown is for rejected credentials only.  Applied to a verdict
    of the table, the breaker's test for an authentication failure holds exactly
    for the key-class verdicts of 401 and 403: a 429 never earns it, whatever
    its Retry-After says, including nothing. *)
Theorem auth_failure_exact status body ra :
  400 <= status ->
  Class_ (ClassifyStatus status body ra) = ClassKey ->
  authFailure (ClassifyStatus status body ra) = byokRejected status /\
  (byokRejected status = true <-> status <> 429).
Proof.
  intros Hs. unfold byokRejected.
  status_cases status; cbn; intros Hc; try done; try (split; [done|]; split; done || lia).
  unfold authFailure. cbn. rewrite andb_false_r. split; [done|]. split; done || lia.
Qed.

Lemma auth_failure_exact_witness :
  authFailure (ClassifyStatus 429 [] (lit "0")) = false /\ authFailure (ClassifyStatus 403 [] []) = true.
Proof.
  split.
  - rewrite (proj1 (auth_failure_exact 429 [] (lit "0") ltac:(lia) eq_refl)). reflexivity.
  - rewrite (proj1 (auth_failure_exact 403 [] [] ltac:(lia) eq_refl)). reflexivity.
Defined.

(** A 404 on a pinned resource is the caller's answer and no verdict on the
    route: it neither rotates nor touches a circuit; every other status of a
    pinned request is classified as usual. *)
Theorem pinned_not_found pinned status body ra :
  let c := classifyUpstreamStatus pinned status body ra in
  (status = 404 -> pinned = true ->
     Retryable c = false /\ CountsTowardHealth c = false /\ Class_ c = ClassClient /\
     (Code <$> cls_Err c) = Some GatewayResourceNotFound) /\
  (status <> 404 \/ pinned = false -> c = ClassifyStatus status body ra).
Proof.
  cbn zeta. unfold classifyUpstreamStatus. split.
  - intros -> ->. done.
  - intros [H| ->]; [by rewrite (proj2 (Z.eqb_neq _ _) H)|by rewrite andb_false_r].
Qed.

Lemma pinned_not_found_witness :
  Retryable (classifyUpstreamStatus true 404 [] []) = false.
Proof. apply (pinned_not_found true 404 [] []); reflexivity. Defined.

(** The gateway's own timeout is never mistaken for the caller hanging up:
    when our first-byte timer fired the failure counts against the provider and
    rotates, whatever the error looks like; otherwise a cancellation is terminal,
    shows nothing and counts for nothing, and every other transport failure is
    the provider's. *)
Theorem transport_failures own_timer err :
  let c := ClassifyTransportError own_timer err in
  (Retryable c = own_timer || negb (te_canceled err)) /\
  (CountsTowardHealth c = own_timer || negb (te_canceled err)) /\
  (cls_Err c = None <-> own_timer = false /\ te_canceled err = true) /\
  (Class_ c = ClassProvider \/ Class_ c = ClassTerminal).
Proof.
  cbn zeta. unfold ClassifyTransportError.
  destruct own_timer, err as [[|] [|]]; cbn; split_and!; naive_solver.
Qed.

(** What is shown of an upstream's own text: never more than 2000 bytes. *)
Lemma truncateBody_length body : (length (truncateBody body) <= 2000)%nat.
Proof.
  unfold truncateBody. etransitivity; [apply trim_space_length|].
  destruct (Nat.ltb_spec 2000 (length body)); [rewrite length_take; lia|lia].
Qed.

(** The seconds form of Retry-After.  A well-formed value within the range of
    a duration (292 years) is that many seconds, every malformed or negative
    value is zero, and a larger one wraps around: it may come out negative, which
    leaves the backoff rung alone in charge. *)
Theorem retry_after_seconds v :
  match atoi v with
  | Some secs =>
      if secs <? 0 then parseRetryAfter v = 0
      else if secs <=? 9223372036 then parseRetryAfter v = secs * Second
           else parseRetryAfter v = wrap64 (secs * Second)
  | None => parseRetryAfter v = 0
  end.
Proof.
  unfold parseRetryAfter. case_bool_decide as Hv.
  - subst v. vm_compute. reflexivity.
  - destruct (atoi v) as [secs|]; [|done]. destruct (Z.ltb_spec secs 0); [done|].
    destruct (Z.leb_spec secs 9223372036); [|done]. apply wrap64_id.
    unfold min_int64, max_int64, Second. lia.
Qed.

Example retry_after_wraps_negative : parseRetryAfter (lit "9223372037") < 0.
Proof. vm_compute. reflexivity. Qed.
