(* ===== verification/Guard.v ===== *)
(** * The admission gates: [internal/gateway/proxy/guard.go]

    Model allowlist, access tier, spend budget and the request and token rates,
    the last threading the limiter's state.  The spend query is a parameter. *)
From S2P Require Import Prelude GoStr BreakerStore RateLimit Errors.

Open Scope Z_scope.

Abbreviation uuid := (option string).

Definition rateWindow : Z := Minute.

(** [Identity]: the fields the gates and the settlement read. *)
Record Identity := mkIdentity {
  id_KeyID : uuid;
  id_OrgID : uuid;
  id_ModelTierID : uuid;
  id_ModelTierStatus : string;
  id_AllowAllModels : bool;
  id_AllowedModels : list string;
  id_SpendLimitNano : Z;
  id_SpendLimitInterval : string;
  id_RateLimitRPM : Z;
  id_RateLimitTPM : Z;
  id_OrgRateLimitRPM : Z;
  id_OrgRateLimitTPM : Z;
  id_TotalSpentNano : Z;
  id_WalletCurrency : string;
  id_Scopes : list string;
  id_KeyHash : string;
  id_ExpiresAt : option Z;   (** [None] for the zero time *)
}.

(** [Identity{}]. *)
Definition zero_identity : Identity :=
  mkIdentity None None None "" false [] 0 "" 0 0 0 0 0 "" [] "" None.

Definition uuidStr (id : uuid) : string := default ""%string id.

Definition CheckModel (id : Identity) (modelSlug : string) : option Error :=
  if id_AllowAllModels id then None
  else if existsb (String.eqb modelSlug) (id_AllowedModels id) then None
  else Some (NewError GatewayModelNotFound "Model not found or unavailable").

Definition CheckTier (id : Identity) : option Error :=
  match id_ModelTierID id with
  | None => Some (NewError GatewayModelTierDisabled
                    "Your model access tier is unavailable; contact support")
  | Some _ =>
      if negb (bool_decide (id_ModelTierStatus id = "active"%string))
      then Some (NewError GatewayModelTierDisabled
                   "Your model access tier is disabled; contact support")
      else None
  end.

(** A UTC calendar day. *)
Record Date := mkDate { d_year : Z; d_month : Z; d_day : Z }.

Definition periodStart (interval : string) (now : Date) : Date :=
  if bool_decide (interval = "monthly"%string) then mkDate (d_year now) (d_month now) 1
  else mkDate (d_year now) (d_month now) (d_day now).

(** [SpendSince] sums the per-day table of a key from a day on. *)
Definition CheckBudget (SpendSince : uuid -> Date -> result string Z) (today : Date)
    (id : Identity) : option Error :=
  if (id_SpendLimitNano id <=? 0) || bool_decide (id_SpendLimitInterval id = ""%string) then None
  else
    let check spent :=
      if id_SpendLimitNano id <=? spent
      then Some (NewError GatewayKeyBudgetExceeded "API key budget exhausted") else None in
    if bool_decide (id_SpendLimitInterval id = "total"%string) then check (id_TotalSpentNano id)
    else if bool_decide (id_SpendLimitInterval id = "daily"%string)
            || bool_decide (id_SpendLimitInterval id = "monthly"%string) then
      match SpendSince (id_KeyID id) (periodStart (id_SpendLimitInterval id) today) with
      | Err _ => Some (NewError GatewayInternal "Budget check failed")
      | Ok sum => check sum
      end
    else None.

Section rate.
Context {L : Type} `{Limiter L}.

Definition rate_limited (message : string) (res : Result) : option Error :=
  if Allowed res then None
  else Some (mkError GatewayRateLimited message (RateLimit.RetryAfter res) []).

Definition checkRequests (c : Clock) (l : L) (bucket : string) (limit : Z) (message : string) :
    option Error * L :=
  if limit <=? 0 then (None, l)
  else
    match Allow c l bucket limit rateWindow with
    | (Err _, l') => (None, l')
    | (Ok res, l') => (rate_limited message res, l')
    end.

Definition checkTokens (c : Clock) (l : L) (bucket : string) (limit estimatedTokens : Z)
    (message : string) : option Error * L :=
  if (limit <=? 0) || (estimatedTokens <=? 0) then (None, l)
  else
    let n := Z.min estimatedTokens (wrap64 (limit + 1)) in
    match AllowN c l bucket n limit rateWindow with
    | (Err _, l') => (None, l')
    | (Ok res, l') => (rate_limited message res, l')
    end.

(** Run one gate and, if it passes, the next. *)
Definition and_then (r : option Error * L) (k : L -> option Error * L) : option Error * L :=
  match r with
  | (Some e, l) => (Some e, l)
  | (None, l) => k l
  end.

Definition org_rpm (id : Identity) : string := ("gw:rpm:org:" ++ uuidStr (id_OrgID id))%string.
Definition org_tpm (id : Identity) : string := ("gw:tpm:org:" ++ uuidStr (id_OrgID id))%string.
Definition key_rpm (id : Identity) : string := ("gw:rpm:" ++ uuidStr (id_KeyID id))%string.
Definition key_tpm (id : Identity) : string := ("gw:tpm:" ++ uuidStr (id_KeyID id))%string.

(** [CheckRate] with a limiter; without one ([nil]) nothing is measured. *)
Definition CheckRate (c : Clock) (l : L) (id : Identity) (estimatedTokens : Z) :
    option Error * L :=
  and_then (checkRequests c l (org_rpm id) (id_OrgRateLimitRPM id)
              "Organization request rate limit exceeded") (fun l =>
  and_then (checkTokens c l (org_tpm id) (id_OrgRateLimitTPM id) estimatedTokens
              "Organization token rate limit exceeded") (fun l =>
  and_then (checkRequests c l (key_rpm id) (id_RateLimitRPM id)
              "Request rate limit exceeded") (fun l =>
  checkTokens c l (key_tpm id) (id_RateLimitTPM id) estimatedTokens
    "Token rate limit exceeded"))).
End rate.

(** ** The limiter contract the gates rely on

    A limiter keeps a state per key; a call reads and writes the state of its own
    key only, and a request for more than the limit is refused and consumes
    nothing. *)
Class LimiterLaws (L : Type) `{Limiter L} := {
  lim_state : Type;
  lim_view : L -> string -> lim_state;
  lim_other c l key key' n limit window :
    key <> key' -> lim_view (AllowN c l key n limit window).2 key' = lim_view l key';
  lim_oversized c l key n limit window res l' :
    0 < limit -> limit < n -> AllowN c l key n limit window = (res, l') ->
    l' = l /\ exists r, res = Ok r /\ Allowed r = false;
}.

#[export] Instance Redis_laws : LimiterLaws Redis.
Proof.
  refine {| lim_view := fun r key => rd_keys r !! ("flb:rl:" ++ key)%string |}.
  - intros c l key key' n limit window Hne.
    by apply redis_call_isolated.
  - intros c l key n limit window res l' Hl Hn E. cbn [AllowN Redis_limiter] in E.
    destruct (redis_oversized c l key n limit window Hn) as [H1 (r & H2 & H3)].
    rewrite E in H1, H2. cbn in H1, H2. subst. split; [done|]. by exists r.
Qed.

(** ** Properties *)

(** An allowlist means what it lists: a key calls a model exactly when it is
    unrestricted or names it, so emptying the list refuses everything; and a
    refusal is indistinguishable from a model that does not exist. *)
Theorem allowlist_exact id slug :
  (CheckModel id slug = None <-> id_AllowAllModels id = true \/ slug ∈ id_AllowedModels id) /\
  (forall e, CheckModel id slug = Some e ->
     Code e = GatewayModelNotFound /\ statusOf (Code e) = 404).
Proof.
  unfold CheckModel. destruct (id_AllowAllModels id).
  { split; [naive_solver|done]. }
  destruct (existsb (String.eqb slug) (id_AllowedModels id)) eqn:E.
  - apply existsb_exists in E as (x & Hx & ->%String.eqb_eq). apply list_elem_of_In in Hx.
    naive_solver.
  - split.
    + split; [done|]. intros [?|Hin]; [done|]. assert (existsb (String.eqb slug) (id_AllowedModels id)
        = true) as Ht; [|congruence].
      apply existsb_exists. exists slug. split; [by apply list_elem_of_In|by apply String.eqb_eq].
    + intros e [= <-]. split; [done|]. vm_compute. reflexivity.
Qed.

(** The tier gate fails closed: it passes only for a resolved tier whose
    status is "active". *)
Theorem tier_fails_closed id :
  CheckTier id = None <-> is_Some (id_ModelTierID id) /\ id_ModelTierStatus id = "active"%string.
Proof.
  unfold CheckTier. destruct (id_ModelTierID id).
  - case_bool_decide; cbn [negb]; naive_solver.
  - split; [done|]. by intros [[? ?] ?].
Qed.

(** A key with a declared budget is refused exactly when what it has spent in
    the budget's own period has reached the limit, the daily and monthly figures
    being read from the first day of the period; a budget that cannot be read
    refuses, and a period the code does not know never does. *)
Theorem budget_gate SpendSince today id :
  let limited := 0 < id_SpendLimitNano id /\ id_SpendLimitInterval id <> ""%string in
  let iv := id_SpendLimitInterval id in
  let since := mkDate (d_year today) (d_month today)
                 (if bool_decide (iv = "monthly"%string) then 1 else d_day today) in
  CheckBudget SpendSince today id <> None <->
  limited /\
  ((iv = "total"%string /\ id_SpendLimitNano id <= id_TotalSpentNano id) \/
   ((iv = "daily"%string \/ iv = "monthly"%string) /\
    match SpendSince (id_KeyID id) since with
    | Ok spent => id_SpendLimitNano id <= spent
    | Err _ => True
    end)).
Proof.
  cbn zeta. unfold CheckBudget.
  destruct (Z.leb_spec (id_SpendLimitNano id) 0); cbn [orb]; [naive_solver lia|].
  case_bool_decide as H1; [naive_solver|].
  case_bool_decide as H2.
  { rewrite H2. destruct (Z.leb_spec (id_SpendLimitNano id) (id_TotalSpentNano id));
      naive_solver lia. }
  assert (Hps : periodStart (id_SpendLimitInterval id) today =
    mkDate (d_year today) (d_month today)
      (if bool_decide (id_SpendLimitInterval id = "monthly"%string) then 1 else d_day today)).
  { unfold periodStart. by case_bool_decide. }
  rewrite Hps. destruct (SpendSince _ _) as [spent|e].
  - destruct (Z.leb_spec (id_SpendLimitNano id) spent);
      do 2 case_bool_decide; cbn [orb]; naive_solver lia.
  - do 2 case_bool_decide; cbn [orb]; naive_solver.
Qed.

Section properties.
Context {L : Type} `{LimiterLaws L}.

Lemma checkRequests_other c l b b' limit msg :
  b <> b' -> lim_view (checkRequests c l b limit msg).2 b' = lim_view l b'.
Proof using.
  intros Hne. unfold checkRequests, Allow. destruct (limit <=? 0); [done|].
  pose proof (lim_other c l b b' 1 limit rateWindow Hne) as Ho.
  by destruct (AllowN c l b 1 limit rateWindow) as [[res|e] l'].
Qed.

Lemma checkTokens_other c l b b' limit est msg :
  b <> b' -> lim_view (checkTokens c l b limit est msg).2 b' = lim_view l b'.
Proof using.
  intros Hne. unfold checkTokens. destruct (_ || _); [done|].
  pose proof (lim_other c l b b' (Z.min est (wrap64 (limit + 1))) limit rateWindow Hne) as Ho.
  by destruct (AllowN c l b _ limit rateWindow) as [[res|e] l'].
Qed.

Lemma checkRequests_code c l b limit msg e l' :
  checkRequests c l b limit msg = (Some e, l') -> Code e = GatewayRateLimited /\ Message e = msg.
Proof using.
  unfold checkRequests. destruct (limit <=? 0); [done|].
  destruct (Allow _ _ _ _ _) as [[res|] l1]; [|done]. unfold rate_limited.
  destruct (Allowed res); [done|]. by intros [= <- <-].
Qed.

Lemma checkTokens_code c l b limit est msg e l' :
  checkTokens c l b limit est msg = (Some e, l') -> Code e = GatewayRateLimited /\ Message e = msg.
Proof using.
  unfold checkTokens. destruct (_ || _); [done|].
  destruct (AllowN _ _ _ _ _ _) as [[res|] l1]; [|done]. unfold rate_limited.
  destruct (Allowed res); [done|]. by intros [= <- <-].
Qed.

(** The organization's ceiling is checked before the key's, and a request it
    refuses costs the key nothing: the refusal names the organization and both
    of the key's own buckets are exactly as they were.  Whatever the outcome,
    no bucket but the four of this organization and key is touched. *)
Theorem org_refusal_spends_nothing_of_the_key c l id est :
  (forall o, uuidStr (id_KeyID id) <> ("org:" ++ o)%string) ->
  let r := CheckRate c l id est in
  (forall e, r.1 = Some e ->
     Code e = GatewayRateLimited /\
     (Message e = "Organization request rate limit exceeded"%string \/
      Message e = "Organization token rate limit exceeded"%string ->
      lim_view r.2 (key_rpm id) = lim_view l (key_rpm id) /\
      lim_view r.2 (key_tpm id) = lim_view l (key_tpm id))) /\
  (forall b, b ∉ [org_rpm id; org_tpm id; key_rpm id; key_tpm id] ->
     lim_view r.2 b = lim_view l b).
Proof using.
  intros Hid. cbn zeta.
  assert (Hd : org_rpm id <> key_rpm id /\ org_tpm id <> key_rpm id /\
               org_rpm id <> key_tpm id /\ org_tpm id <> key_tpm id).
  { unfold org_rpm, org_tpm, key_rpm, key_tpm. split_and!; try done; intros E; cbn in E;
      injection E as E; by destruct (Hid (uuidStr (id_OrgID id))). }
  destruct Hd as (Hd1 & Hd2 & Hd3 & Hd4).
  unfold CheckRate, and_then.
  pose proof (fun b' => checkRequests_other c l (org_rpm id) b' (id_OrgRateLimitRPM id)
    "Organization request rate limit exceeded") as O1.
  destruct (checkRequests c l (org_rpm id) _ _) as [[e1|] l1] eqn:E1; cbn [snd] in O1.
  { split; [|intros b Hb; apply O1; set_solver].
    intros e [= <-]. apply checkRequests_code in E1 as [Hc _]. split; [done|]. intros _. cbn [snd].
    split; by apply O1. }
  pose proof (fun b' => checkTokens_other c l1 (org_tpm id) b' (id_OrgRateLimitTPM id) est
    "Organization token rate limit exceeded") as O2.
  destruct (checkTokens c l1 (org_tpm id) _ _ _) as [[e2|] l2] eqn:E2; cbn [snd] in O2.
  { split; [|intros b Hb; cbn [snd]; rewrite O2, O1 by set_solver; done].
    intros e [= <-]. apply checkTokens_code in E2 as [Hc _]. split; [done|]. intros _. cbn [snd].
    split; by rewrite O2, O1. }
  pose proof (fun b' => checkRequests_other c l2 (key_rpm id) b' (id_RateLimitRPM id)
    "Request rate limit exceeded") as O3.
  destruct (checkRequests c l2 (key_rpm id) _ _) as [[e3|] l3] eqn:E3; cbn [snd] in O3.
  { split; [|intros b Hb; cbn [snd]; rewrite O3, O2, O1 by set_solver; done].
    intros e [= <-]. apply checkRequests_code in E3 as [Hc Hm]. split; [done|].
    rewrite Hm. by intros [?|?]. }
  pose proof (fun b' => checkTokens_other c l3 (key_tpm id) b' (id_RateLimitTPM id) est
    "Token rate limit exceeded") as O4.
  destruct (checkTokens c l3 (key_tpm id) _ _ _) as [[e4|] l4] eqn:E4; cbn [snd] in O4.
  - split; [|intros b Hb; cbn [snd]; rewrite O4, O3, O2, O1 by set_solver; done].
    intros e [= <-]. apply checkTokens_code in E4 as [Hc Hm]. split; [done|].
    rewrite Hm. by intros [?|?].
  - split; [done|]. intros b Hb. cbn [snd]. rewrite O4, O3, O2, O1 by set_solver. done.
Qed.

(** An estimate above a declared token limit is refused outright and
    consumes none of the allowance, however far above it is: the clamped
    quantity never wraps around into one that could pass. *)
Theorem oversized_estimate_refused c l b limit est msg :
  0 < limit < max_int64 -> limit < est ->
  exists e, checkTokens c l b limit est msg = (Some e, l) /\ Code e = GatewayRateLimited.
Proof using H0.
  intros Hl He. unfold checkTokens. rewrite (proj2 (Z.leb_gt limit 0)) by lia.
  rewrite (proj2 (Z.leb_gt est 0)) by lia. cbn [orb].
  rewrite wrap64_id by (unfold min_int64, max_int64 in *; lia).
  rewrite Z.min_r by lia.
  destruct (AllowN c l b (limit + 1) limit rateWindow) as [res l'] eqn:E.
  destruct (lim_oversized c l b (limit + 1) limit rateWindow res l' ltac:(lia) ltac:(lia) E)
    as [-> (r & -> & Hr)].
  unfold rate_limited. rewrite Hr. eauto.
Qed.
End properties.

(** ** Concrete requests, on the token-bucket limiter *)

Definition demo_id : Identity :=
  mkIdentity (Some "k1"%string) (Some "o1"%string) (Some "t1"%string) "active" false
    ["gpt"%string] 100 "daily" 5 1000 1 0 40 "USD" ["inference"%string] "" None.
Definition demo_redis : Redis := mkRedis ∅ true.
Definition demo_clock : Clock := mkClock 0 1000.

Lemma org_refusal_spends_nothing_of_the_key_witness :
  let l := (CheckRate demo_clock demo_redis demo_id 10).2 in
  exists e, (CheckRate demo_clock l demo_id 10).1 = Some e /\
    Message e = "Organization request rate limit exceeded"%string /\
    lim_view (CheckRate demo_clock l demo_id 10).2 (key_rpm demo_id) = lim_view l (key_rpm demo_id).
Proof.
  cbv zeta. set (l := (CheckRate demo_clock demo_redis demo_id 10).2).
  pose proof (org_refusal_spends_nothing_of_the_key demo_clock l demo_id 10) as H.
  cbv zeta in H. destruct H as [H _].
  - intros o E. cbn in E. discriminate.
  - eexists. split; [vm_compute; reflexivity|]. split; [reflexivity|].
    refine (proj1 (proj2 (H _ _) _)); [vm_compute; reflexivity|]. left. reflexivity.
Defined.

Lemma oversized_estimate_refused_witness :
  exists e, checkTokens demo_clock demo_redis "gw:tpm:k1" 1000 9223372036854775807 "m"
    = (Some e, demo_redis) /\ Code e = GatewayRateLimited.
Proof. apply oversized_estimate_refused; unfold max_int64; lia. Defined.
