(* ===== verification/Billing.v ===== *)
(** * What one request is charged: [internal/gateway/proxy/byok.go], [images.go],
    [pricing_snapshot.go] and the pricing half of [pipeline.go]

    The prices locked at admission, the choice of quote once it is known whose
    credential served, the count a per-image request is settled on, and the rates
    recorded beside the charge. *)
From S2P Require Import Prelude GoStr Rational Money PriceTable Pricing UnitPricing Surfaces Usage.
From S2P Require Import Catalog Errors Guard.

Open Scope Z_scope.


(** ** The locked inputs *)

Record pricingInputs := mkPricingInputs {
  pi_rates : Rates;
  pi_byokFeeBps : Z;
  pi_pricingPlanID : uuid;
  pi_planModelOverride : bool;
  pi_fxVersion : string;
}.

Definition ratesForRoute {T} (p : pricingInputs) (route : Route T) : Rates :=
  mkRates (ModelMultiplierBps (pi_rates p)) (PlanMultiplierBps (pi_rates p))
    (r_Procurement route) (FXRate (pi_rates p)).

Definition holdInputs (p : pricingInputs) (pricing : ModelPricingSnapshot) (table : PriceTable) :
    Price * Price * Rates :=
  (BillablePriceOf pricing, LongContextCeiling (ForBilling table (IsFree pricing)), pi_rates p).

(** [prepared], without the credentials and the affinity row, which only the
    execution reads. *)
Record prepared (T : Type) := mkPrepared {
  pr_id : Identity;
  pr_modelSlug : string;
  pr_res : Resolution (T := T);
  pr_pricing : pricingInputs;
  pr_inputTokens : Z;
  pr_estNano : Z;
  pr_priceTable : PriceTable;
  pr_unitPriceTable : UnitPriceTable;
  pr_units : Units;
}.
Arguments mkPrepared {T}.
Arguments pr_id {T}.
Arguments pr_modelSlug {T}.
Arguments pr_res {T}.
Arguments pr_pricing {T}.
Arguments pr_inputTokens {T}.
Arguments pr_estNano {T}.
Arguments pr_priceTable {T}.
Arguments pr_unitPriceTable {T}.
Arguments pr_units {T}.

Definition unitBilled {T} (p : prepared T) : bool :=
  bool_decide (Family (res_ModelPricing (pr_res p)) = FamilyUnits).

Definition prep_free {T} (p : prepared T) : bool := IsFree (res_ModelPricing (pr_res p)).

Definition billingUnitPrices {T} (p : prepared T) : UnitPriceTable * UnitPriceTable :=
  (ut_ForBilling (pr_unitPriceTable p) (prep_free p), pr_unitPriceTable p).

(** ** The quote *)

Definition quoteFor (list cost : PriceTable) (tok : Tokens) (usedBYOK : bool) (rates : Rates)
    (byokFeeBps : Z) : result price_error Quote :=
  if usedBYOK then ComputeBYOK list tok byokFeeBps rates else Compute list cost tok rates.

Definition unitCharge {T} (prep : prepared T) (route : Route T) (usedBYOK : bool) (units : Units) :
    result unit_error Quote :=
  let '(list, cost) := billingUnitPrices prep in
  let rates := ratesForRoute (pr_pricing prep) route in
  if usedBYOK then ComputeUnitsBYOK list units (pi_byokFeeBps (pr_pricing prep)) rates
  else ComputeUnits list cost units rates.

Definition fallbackQuote (estNano : Z) (rates : Rates) : Quote :=
  mkQuote 0 estNano (default_bps (ModelMultiplierBps rates)) (default_bps (PlanMultiplierBps rates))
    (default_bps (ProcurementMultiplierBps rates)) (FXRate rates).

(** [catalog.Quote{}]. *)
Definition zero_quote : Quote := mkQuote 0 0 0 0 0 [].

(** [quoteOrRefuse]: the quote, or the zero quote and the refusal. *)
Definition quoteOrRefuse (q : result unit_error Quote) : Quote * option Error :=
  match q with
  | Ok q => (q, None)
  | Err (ErrUnitPriceMissing _) =>
      (zero_quote, Some (NewError GatewayModelUnpriced "Model is temporarily unavailable"))
  | Err _ => (zero_quote, Some (NewError GatewayInternal "Billing configuration is incomplete"))
  end.

(** ** Images *)

Definition isImageSurface (s : Surface) : bool :=
  bool_decide (s = SurfaceImages) || bool_decide (s = SurfaceImagesEdit).

Definition holdIsTheBill (surface : Surface) (estimated : bool) : bool :=
  estimated && isImageSurface surface.

Definition Minutes (n : Z) : Z := n * 60 * 1000000000.
Definition imageHoldTTL : Z := Minutes 30.
Definition holdTTLFor (surface : Surface) : Z := if isImageSurface surface then imageHoldTTL else 0.

Definition imageUnits (key : UnitKey) (images : Z) : Units :=
  {[ key := if bool_decide (uk_Unit key = UnitImage) && (1 <? images) then images else 1 ]}.

Definition heldRateKey (held : Units) : option UnitKey :=
  match map_to_list held with [(k, _)] => Some k | _ => None end.

Definition maxImagesOf {T} (routes : list (Route T)) : Z :=
  fold_left (fun most r => if most <? r_MaxImages r then r_MaxImages r else most) routes 1.

(** [settledUnits]; [images] is what [imagesInResponse] read: the length of the
    [data] array, when there is one. *)
Definition settledUnits {T} (prep : prepared T) (surface : Surface) (images : option Z) : Units :=
  if negb (isImageSurface surface) then pr_units prep
  else match heldRateKey (pr_units prep) with
       | None => pr_units prep
       | Some key => match images with Some n => imageUnits key n | None => pr_units prep end
       end.

(** The vector an image request is admitted and held on: [syncUnits], given the
    request's size and quality. *)
Definition syncUnits {T} (prep : prepared T) (surface : Surface) (size quality : string) :
    result Error Units :=
  match BillingUnit (pr_unitPriceTable prep) with
  | Err _ => Err (NewError GatewayModelUnpriced "Model is temporarily unavailable")
  | Ok unit =>
      if isImageSurface surface
      then Ok (imageUnits (mkUnitKey unit size "" quality "") (maxImagesOf (res_Routes (pr_res prep))))
      else Err (NewError GatewayInternal "Billing configuration is incomplete")
  end.

(** ** The recorded rates: [pricing_snapshot.go] *)

Record usageTokenRatesUSDPerM := mkTokenRates {
  tr_Input : bytes; tr_Output : bytes; tr_CacheRead : bytes; tr_CacheWrite : bytes;
}.

Record usageEffectiveRateGroups := mkRateGroups {
  rg_Official : usageTokenRatesUSDPerM;
  rg_Public : usageTokenRatesUSDPerM;
  rg_Customer : usageTokenRatesUSDPerM;
  rg_Procurement : usageTokenRatesUSDPerM;
}.

Definition exactUSDPerM (nano : Z) (multipliers : list Z) : bytes :=
  FormatScaled (fold_left Z.mul multipliers nano) (9 + 4 * length multipliers).

(** [ratesOf], [multipliedRatesOf] and [procurementRatesOf]. *)
Definition multipliedRatesOf (p : Price) (multipliers : list Z) : usageTokenRatesUSDPerM :=
  mkTokenRates (exactUSDPerM (InNanoPerMTok p) multipliers)
    (exactUSDPerM (OutNanoPerMTok p) multipliers)
    (exactUSDPerM (CacheReadNanoPerMTok p) multipliers)
    (exactUSDPerM (CacheWriteNanoPerMTok p) multipliers).

Definition zeroUsageTokenRates : usageTokenRatesUSDPerM :=
  mkTokenRates (lit "0") (lit "0") (lit "0") (lit "0").

Definition multiplierOrOne (v : Z) : Z := if v =? 0 then 10000 else v.

Definition effectiveRateGroups (official : Price) (billingMode : string)
    (modelMultiplierBps planMultiplierBps procurementMultiplierBps : Z) (byok : bool)
    (byokFeeBps : Z) : usageEffectiveRateGroups :=
  let model := multiplierOrOne modelMultiplierBps in
  let plan := multiplierOrOne planMultiplierBps in
  let procurement := multiplierOrOne procurementMultiplierBps in
  let free := bool_decide (billingMode = "free"%string) in
  mkRateGroups (multipliedRatesOf official [])
    (if free then zeroUsageTokenRates else multipliedRatesOf official [model])
    (if free then zeroUsageTokenRates
     else multipliedRatesOf official [if byok then byokFeeBps else model; plan])
    (if byok then zeroUsageTokenRates else multipliedRatesOf official [procurement]).

(** ** Properties *)

(** *** Per-image requests *)

Lemma map_to_list_one {A} (k : UnitKey) (v : A) : map_to_list ({[ k := v ]} : gmap UnitKey A) = [(k, v)].
Proof. apply map_to_list_singleton. Qed.

Lemma heldRateKey_one key n : heldRateKey (imageUnits key n) = Some key.
Proof. unfold heldRateKey, imageUnits. by rewrite map_to_list_one. Qed.

(** How many units an image count makes. *)
Definition image_quantity (key : UnitKey) (images : Z) : Z :=
  if bool_decide (uk_Unit key = UnitImage) then Z.max 1 images else 1.

Lemma imageUnits_quantity key n : imageUnits key n = {[ key := image_quantity key n ]}.
Proof.
  unfold imageUnits, image_quantity. f_equal. destruct (bool_decide _); cbn [andb]; [|done].
  destruct (Z.ltb_spec 1 n); lia.
Qed.

Lemma image_quantity_mono key m n : m <= n -> 1 <= image_quantity key m <= image_quantity key n.
Proof. unfold image_quantity. destruct (bool_decide _); lia. Qed.

(** The cost of a vector of one entry. *)
Lemma unitCost_one t key q x :
  1 <= q ->
  unitCost t {[ key := q ]} = Ok x <->
  exists rate, unit_Lookup t key = Some rate /\ x = (0 + frac (q * rate) 1)%Q.
Proof.
  intros Hq. unfold unitCost. rewrite map_to_list_one. cbn [unit_cost_loop].
  destruct (Z.eqb_spec q 0); [lia|]. destruct (unit_Lookup t key) as [rate|]; naive_solver.
Qed.

Lemma ComputeUnits_ok l c u r q :
  ComputeUnits l c u r = Ok q ->
  exists r' fx x y, normalize r = Ok r' /\ parse_fx (FXRate r') = Ok fx /\
    unitCost c u = Ok x /\ unitCost l u = Ok y /\
    quoteFrom (x * bps (ProcurementMultiplierBps r'))%Q y fx r' = Ok q.
Proof.
  unfold ComputeUnits. intros ([] & _ & H)%rbind_ok.
  apply rbind_ok in H as (r' & Hr & H). apply rbind_ok in H as (fx & Hf & H).
  apply rbind_ok in H as (x & Hx & H). apply rbind_ok in H as (y & Hy & H).
  assert (Hp : forall A (m : result price_error A) a, pricing m = Ok a -> m = Ok a).
  { intros A [a'|e] a; cbn; congruence. }
  exists r', fx, x, y. split_and!; auto.
Qed.

Lemma unit_Lookup_nonneg t key rate :
  (forall k v, ut_rates t !! k = Some v -> 0 <= v) -> unit_Lookup t key = Some rate -> 0 <= rate.
Proof.
  intros Ht. unfold unit_Lookup. destruct (ut_billingFree t); [intros [= <-]; lia|].
  intros H. apply first_rate_some in H as (pre & c & post & _ & Hc & _). by eapply Ht.
Qed.

Section units.
Context {T : Type}.
Implicit Types (prep : prepared T) (route : Route T).

(** The reservation of a per-image request covers its bill.  Held at the ceiling
    of the candidate routes and settled on the images that came back, on a shared
    credential, a request is charged at most what was held as long as no more
    images came back than any route declares - and exactly that when they could
    not be counted - whatever the serving route costs. *)
Theorem unit_hold_covers_settlement prep surface key images route hold q :
  isImageSurface surface = true ->
  (forall k v, ut_rates (pr_unitPriceTable prep) !! k = Some v -> 0 <= v) ->
  pr_units prep = imageUnits key (maxImagesOf (res_Routes (pr_res prep))) ->
  ComputeUnits (billingUnitPrices prep).1 (billingUnitPrices prep).2 (pr_units prep)
    (pi_rates (pr_pricing prep)) = Ok hold ->
  (forall n, images = Some n -> n <= maxImagesOf (res_Routes (pr_res prep))) ->
  unitCharge prep route false (settledUnits prep surface images) = Ok q ->
  ChargedNano q <= ChargedNano hold.
Proof.
  intros Hs Hrates Hu Hhold Hn Hq. rewrite Hu in Hhold.
  unfold unitCharge in Hq. cbn [billingUnitPrices fst snd] in *.
  assert (Hset : exists n, settledUnits prep surface images = imageUnits key n /\
                   n <= maxImagesOf (res_Routes (pr_res prep))).
  { unfold settledUnits. rewrite Hs, Hu, heldRateKey_one. cbn [negb].
    destruct images as [n|]; [exists n; split; [done|by apply Hn]|].
    eexists. split; [done|lia]. }
  destruct Hset as (n & Es & Hle). rewrite Es in Hq. rewrite !imageUnits_quantity in *.
  destruct (image_quantity_mono key n _ Hle) as [H1 H2].
  apply ComputeUnits_ok in Hq as (r1 & fx1 & x1 & y1 & Hr1 & Hf1 & _ & Hy1 & Hq).
  apply ComputeUnits_ok in Hhold as (r2 & fx2 & x2 & y2 & Hr2 & Hf2 & _ & Hy2 & Hhold).
  apply unitCost_one in Hy1 as (rate & Hrate & ->); [|lia].
  apply unitCost_one in Hy2 as (rate' & Hrate' & ->); [|lia].
  assert (rate' = rate) as -> by congruence.
  assert (Hpos : 0 <= rate).
  { eapply unit_Lookup_nonneg; [|exact Hrate]. intros k v Hk. by eapply Hrates. }
  apply normalize_ok in Hr1 as (M1 & P1 & _ & E1 & E2 & _ & E3 & _).
  apply normalize_ok in Hr2 as (M2 & P2 & _ & E1' & E2' & _ & E3' & _).
  cbn [ratesForRoute ModelMultiplierBps PlanMultiplierBps FXRate] in E1, E2, E3.
  assert (fx2 = fx1) as -> by congruence.
  apply quoteFrom_ok in Hq as (_ & C1 & _). apply quoteFrom_ok in Hhold as (_ & C2 & _).
  rewrite (charged_rat_rates _ _ r1 r2) in C1 by congruence.
  eapply ceilToInt64_mono; [|exact C1|exact C2].
  apply charged_rat_mono; [lia|lia|by eapply parse_fx_pos|].
  unfold frac, Qle, Qplus. cbn [Qnum Qden]. nia.
Qed.

(** A per-image request is charged by the count: for [n] images in the answer the
    customer owes [n] times the rate - one time it for an answer with none, and
    for a rate per call - through the multipliers and the exchange rate, rounded
    up once. *)
Theorem per_image_charge_exact prep surface key held n route q rate :
  isImageSurface surface = true -> pr_units prep = imageUnits key held ->
  unit_Lookup (ut_ForBilling (pr_unitPriceTable prep) (prep_free prep)) key = Some rate ->
  unitCharge prep route false (settledUnits prep surface (Some n)) = Ok q ->
  exists r fx, normalize (ratesForRoute (pr_pricing prep) route) = Ok r /\
    parse_fx (FXRate r) = Ok fx /\
    ChargedNano q
    = Qceiling (inject_Z ((if bool_decide (uk_Unit key = UnitImage) then Z.max 1 n else 1) * rate)
                * bps (ModelMultiplierBps r) * bps (PlanMultiplierBps r) * fx)%Q.
Proof.
  intros Hs Hu Hrate Hq. unfold settledUnits in Hq. rewrite Hs, Hu, heldRateKey_one in Hq.
  cbn [negb] in Hq. unfold unitCharge in Hq. cbn [billingUnitPrices] in Hq.
  rewrite imageUnits_quantity in Hq. fold (image_quantity key n).
  destruct (image_quantity_mono key n n ltac:(lia)) as [H1 _].
  apply ComputeUnits_ok in Hq as (r & fx & x & y & Hr & Hf & _ & Hy & Hq).
  apply unitCost_one in Hy as (rate' & Hrate' & ->); [|lia].
  assert (rate' = rate) as -> by congruence. exists r, fx. split_and!; [done|done|].
  apply quoteFrom_ok in Hq as (_ & C & _). apply ceilToInt64_ok in C as [-> _].
  apply Qceiling_comp. unfold charged_rat, frac, inject_Z, Qeq, Qmult, Qplus. cbn [Qnum Qden]. lia.
Qed.
End units.

(** ** A per-image model: 0.04 USD a piece, charged at 1.2 of the list *)

Definition demo_unit_key : UnitKey := mkUnitKey UnitImage "1024x1024" "" "" "".
Definition demo_unit_route : Route nat :=
  mkRoute (Some "r"%string) (Some "r"%string) "r" "vendor" 1 1 10000 0 false 4 0%nat (mkCapacity 0 0 4)
    "https://r" "painter-1".
Definition demo_unit_prepared : prepared nat :=
  mkPrepared
    (mkIdentity (Some "key"%string) (Some "org"%string) (Some "tier"%string) "active" true [] 0 ""
       0 0 0 0 0 "USD" [] "" None)
    "painter"
    (mkResolution (mkModel (Some "m"%string) "painter" "public" 0)
       (mkSnapshot true "paid" FamilyUnits (mkPrice 0 0 0 0) 12000 None) [demo_unit_route])
    (mkPricingInputs (mkRates 12000 10000 10000 (lit "1")) 0 None false "fx") 0 0
    (NewPriceTable (mkPrice 0 0 0 0) [])
    (NewUnitPriceTable [mkUnitRow UnitImage "" "" "" "" 40000000])
    (imageUnits demo_unit_key 4).

Lemma unit_hold_covers_settlement_witness :
  exists hold q,
    ComputeUnits (billingUnitPrices demo_unit_prepared).1 (billingUnitPrices demo_unit_prepared).2
      (pr_units demo_unit_prepared) (pi_rates (pr_pricing demo_unit_prepared)) = Ok hold /\
    unitCharge demo_unit_prepared demo_unit_route false
      (settledUnits demo_unit_prepared SurfaceImages (Some 3)) = Ok q /\
    ChargedNano q <= ChargedNano hold.
Proof.
  eexists. eexists. split; [vm_compute; reflexivity|]. split; [vm_compute; reflexivity|].
  refine (unit_hold_covers_settlement demo_unit_prepared SurfaceImages demo_unit_key (Some 3)
            demo_unit_route _ _ _ _ _ _ _ _).
  - reflexivity.
  - intros k v H. cbn in H. apply lookup_insert_Some in H as [[_ <-]|[_ H]]; [lia|].
    by rewrite lookup_empty in H.
  - reflexivity.
  - vm_compute. reflexivity.
  - intros n [= <-]. vm_compute. discriminate.
  - vm_compute. reflexivity.
Defined.

Lemma per_image_charge_exact_witness :
  exists q, unitCharge demo_unit_prepared demo_unit_route false
              (settledUnits demo_unit_prepared SurfaceImages (Some 3)) = Ok q /\
            ChargedNano q = 144000000.
Proof.
  eexists. split; [vm_compute; reflexivity|].
  destruct (per_image_charge_exact demo_unit_prepared SurfaceImages demo_unit_key 4 3 demo_unit_route
    _ 40000000 eq_refl eq_refl ltac:(vm_compute; reflexivity) ltac:(vm_compute; reflexivity))
    as (r & fx & Hr & Hfx & H).
  rewrite H. vm_compute in Hr. injection Hr as <-. vm_compute in Hfx. injection Hfx as <-. reflexivity.
Defined.
