(* ===== verification/Routing.v ===== *)
(** * Candidate order, retry budget, backpressure: [internal/gateway/proxy/router.go]

    Random draws are an explicit list: [IntN n] takes the next one modulo [n]
    (zero when the list is exhausted), so quantifying over draw lists covers
    every outcome. *)
From S2P Require Import Prelude Catalog.
From Stdlib Require Import QArith.

Open Scope Z_scope.

(** ** The order of candidates *)

Section order.
Context {T : Type}.
Implicit Types r : Route T.

(** [rnd.IntN n] for a positive [n]. *)
Definition IntN (draws : list Z) (n : Z) : Z * list Z :=
  match draws with
  | [] => (0, [])
  | d :: draws' => (d mod n, draws')
  end.

Definition weight_of r : Z := if r_Weight r <? 1 then 1 else r_Weight r.

Definition total_weight (pool : list (Route T)) : Z :=
  fold_left (fun t r => t + weight_of r) pool 0.

(** The scan that turns a draw into an index of the pool; zero when it runs
    off the end. *)
Fixpoint scan (pool : list (Route T)) (pick : Z) : option nat :=
  match pool with
  | [] => None
  | r :: pool' =>
      if pick <? weight_of r then Some 0%nat
      else S <$> scan pool' (pick - weight_of r)
  end.
Definition pick_index (pool : list (Route T)) (pick : Z) : nat := default 0%nat (scan pool pick).

(** The loop of [weightedShuffle]: one candidate leaves the pool per turn. *)
Fixpoint shuffle_loop (fuel : nat) (draws : list Z) (pool : list (Route T)) :
    list (Route T) * list Z :=
  match fuel, pool with
  | S fuel', _ :: _ =>
      let '(pick, draws) := IntN draws (total_weight pool) in
      let idx := pick_index pool pick in
      match pool !! idx with
      | None => ([], draws)
      | Some r =>
          let '(out, draws) := shuffle_loop fuel' draws (delete idx pool) in
          (r :: out, draws)
      end
  | _, _ => ([], draws)
  end.

Definition weightedShuffle (draws : list Z) (group : list (Route T)) : list (Route T) * list Z :=
  if Nat.leb (length group) 1 then (group, draws)
  else shuffle_loop (length group) draws group.

(** The leading candidates of the first one's priority, and the rest. *)
Fixpoint span_priority (p : Z) (l : list (Route T)) : list (Route T) * list (Route T) :=
  match l with
  | r :: l' =>
      if r_Priority r =? p then let '(a, b) := span_priority p l' in (r :: a, b)
      else ([], l)
  | [] => ([], [])
  end.

Fixpoint order_groups (fuel : nat) (draws : list Z) (l : list (Route T)) :
    list (Route T) * list Z :=
  match fuel, l with
  | S fuel', r :: _ =>
      let '(group, rest) := span_priority (r_Priority r) l in
      let '(shuffled, draws) := weightedShuffle draws group in
      let '(out, draws) := order_groups fuel' draws rest in
      (shuffled ++ out, draws)
  | _, _ => ([], draws)
  end.

Definition Order (draws : list Z) (candidates : list (Route T)) : list (Route T) * list Z :=
  if Nat.leb (length candidates) 1 then (candidates, draws)
  else order_groups (length candidates) draws candidates.
End order.

Definition maxRouteAttempts : Z := 3.

(** ** The retry budget *)

(** The two counters; [maxRatio] and [minSamples] are fixed by the constructor.
    The comparison of [retries + 1] with a tenth of [requests], in float64 in the
    code, is exact on counts below 2^50. *)
Record RetryBudget := mkBudget { requests : Z; retries : Z }.

Definition maxRatio : Q := 1 # 10.
Definition minSamples : Z := 100.

Definition NewRetryBudget : RetryBudget := mkBudget 0 0.

Definition StartRequest (b : RetryBudget) : RetryBudget := mkBudget (requests b + 1) (retries b).

(** The decision of [AllowRetry] on the counters it loaded. *)
Definition over_ratio (reqs retries : Z) : bool :=
  negb (Qle_bool (inject_Z (retries + 1)) (inject_Z reqs * maxRatio)).

Definition AllowRetry (b : RetryBudget) : bool * RetryBudget :=
  if requests b <? minSamples then (true, b)
  else if over_ratio (requests b) (retries b) then (false, b)
  else (true, mkBudget (requests b) (retries b + 1)).

Definition Stats (b : RetryBudget) : Z * Z := (requests b, retries b).

(** ** The semaphore *)

(** A buffered channel of [capacity] slots and how many are taken. *)
Record Semaphore := mkSem { capacity : Z; taken : Z }.

Definition NewSemaphore (n : Z) : option Semaphore :=
  if n <=? 0 then None else Some (mkSem n 0).

Definition Capacity (s : option Semaphore) : Z :=
  match s with None => 0 | Some s => capacity s end.

Definition TryAcquire (s : option Semaphore) : bool * option Semaphore :=
  match s with
  | None => (true, None)
  | Some s => if taken s <? capacity s then (true, Some (mkSem (capacity s) (taken s + 1)))
              else (false, Some s)
  end.

Definition Release (s : option Semaphore) : option Semaphore :=
  match s with
  | None => None
  | Some s => if 0 <? taken s then Some (mkSem (capacity s) (taken s - 1)) else Some s
  end.

Definition sem_wf (s : Semaphore) : Prop := 0 < capacity s /\ 0 <= taken s <= capacity s.

(** ** Properties: order *)

Section order_properties.
Context {T : Type}.
Implicit Types l pool : list (Route T).

Lemma weight_pos (r : Route T) : 1 <= weight_of r.
Proof using. unfold weight_of. destruct (Z.ltb_spec (r_Weight r) 1); lia. Qed.

Lemma total_weight_cons r pool : total_weight (r :: pool) = weight_of r + total_weight pool.
Proof using.
  unfold total_weight. cbn [fold_left].
  assert (H : forall (l : list (Route T)) a, fold_left (fun t r => t + weight_of r) l a
    = a + fold_left (fun t r => t + weight_of r) l 0).
  { induction l as [|x l IH]; intros a; cbn [fold_left]; [lia|].
    rewrite (IH (a + weight_of x)), (IH (0 + weight_of x)). lia. }
  rewrite H. lia.
Qed.

Lemma total_weight_nonneg pool : 0 <= total_weight pool.
Proof using.
  induction pool as [|r pool IH]; [done|]. rewrite total_weight_cons.
  pose proof (weight_pos r). lia.
Qed.

Lemma pick_index_lt pool pick : pool <> [] -> (pick_index pool pick < length pool)%nat.
Proof using.
  intros Hne. unfold pick_index.
  assert (H : forall l p i, scan l p = Some i -> (i < length l)%nat).
  { induction l as [|r l IH]; intros p i; cbn [scan length]; [done|].
    destruct (_ <? _); [intros [= <-]; lia|].
    destruct (scan l _) as [j|] eqn:E; [|done]. intros [= <-]. apply IH in E. lia. }
  destruct (scan pool pick) as [i|] eqn:E; cbn [default]; [by apply (H _ _ _ E)|].
  destruct pool; [done|]. cbn. lia.
Qed.

Lemma shuffle_loop_perm fuel draws pool :
  (length pool <= fuel)%nat -> (shuffle_loop fuel draws pool).1 ≡ₚ pool.
Proof using.
  revert draws pool. induction fuel as [|fuel IH]; intros draws pool Hl.
  { destruct pool; [done|]. cbn in Hl. lia. }
  destruct pool as [|r pool]; [done|]. cbn [shuffle_loop].
  destruct (IntN draws _) as [pick draws'].
  destruct (lookup_lt_is_Some_2 (r :: pool) (pick_index (r :: pool) pick)) as [x Hx].
  { by apply pick_index_lt. }
  rewrite Hx. specialize (IH draws' (delete (pick_index (r :: pool) pick) (r :: pool))).
  destruct (shuffle_loop fuel draws' _) as [out draws'']. cbn [fst] in *.
  rewrite IH; [symmetry; by apply delete_Permutation|].
  apply lookup_lt_Some in Hx. rewrite length_delete by (by apply lookup_lt_is_Some).
  cbn [length] in *. lia.
Qed.

Lemma weightedShuffle_perm draws (group : list (Route T)) : (weightedShuffle draws group).1 ≡ₚ group.
Proof using.
  unfold weightedShuffle. destruct (Nat.leb _ 1); [done|]. by apply shuffle_loop_perm.
Qed.

Lemma span_priority_spec p l a b :
  span_priority p l = (a, b) -> l = a ++ b /\ Forall (fun r => r_Priority r = p) a.
Proof using.
  revert a b. induction l as [|r l IH]; intros a b; cbn [span_priority]; [by intros [= <- <-]|].
  destruct (Z.eqb_spec (r_Priority r) p); [|by intros [= <- <-]].
  destruct (span_priority p l) as [a' b'] eqn:E. intros [= <- <-].
  destruct (IH a' b' eq_refl) as [-> Ha]. split; [done|]. by constructor.
Qed.

Lemma map_const {A B} (f : A -> B) x (l1 l2 : list A) :
  l1 ≡ₚ l2 -> Forall (fun a => f a = x) l2 -> map f l1 = map f l2.
Proof using.
  intros Hp H2. assert (H1 : Forall (fun a => f a = x) l1) by (by rewrite Hp).
  assert (Hr : forall (l : list A), Forall (fun a => f a = x) l -> map f l = repeat x (length l)).
  { induction 1 as [|a l Ha _ IH]; [done|]. cbn. by rewrite Ha, IH. }
  rewrite !Hr by done. f_equal. by apply Permutation_length.
Qed.

Lemma order_groups_spec fuel draws l :
  (length l <= fuel)%nat ->
  (order_groups fuel draws l).1 ≡ₚ l /\
  map r_Priority (order_groups fuel draws l).1 = map r_Priority l.
Proof using.
  revert draws l. induction fuel as [|fuel IH]; intros draws l Hl.
  { destruct l; [done|]. cbn in Hl. lia. }
  destruct l as [|r l]; [done|]. cbn [order_groups].
  destruct (span_priority (r_Priority r) (r :: l)) as [group rest] eqn:E.
  assert (Hg : group <> []).
  { cbn [span_priority] in E. rewrite Z.eqb_refl in E.
    destruct (span_priority _ l). by injection E as <- <-. }
  apply span_priority_spec in E as [El Hp].
  pose proof (weightedShuffle_perm draws group) as Hperm.
  destruct (weightedShuffle draws group) as [shuffled draws']. cbn [fst] in Hperm.
  assert (Hlr : (length rest <= fuel)%nat).
  { apply (f_equal length) in El. rewrite length_app in El. cbn [length] in *.
    destruct group; [done|]. cbn [length] in El. lia. }
  destruct (IH draws' rest Hlr) as [IH1 IH2].
  destruct (order_groups fuel draws' rest) as [out draws'']. cbn [fst] in *.
  rewrite El. split; [by rewrite Hperm, IH1|].
  rewrite !map_app, IH2. f_equal. by apply (map_const r_Priority (r_Priority r)).
Qed.

Lemma Order_members draws l route : route ∈ (Order draws l).1 -> route ∈ l.
Proof using.
  assert (Hp : (Order draws l).1 ≡ₚ l).
  { unfold Order. destruct (Nat.leb _ 1); [done|]. by apply order_groups_spec. }
  by rewrite Hp.
Qed.

(** Ordering loses no candidate, invents none, and never moves one across a
    priority: whatever the draws, the result is a permutation of the candidates
    whose sequence of priorities is unchanged, so with candidates in ascending
    priority every lower number is tried before any higher one. *)
Theorem order_respects_priority draws l :
  (Order draws l).1 ≡ₚ l /\ map r_Priority (Order draws l).1 = map r_Priority l.
Proof using.
  unfold Order. destruct (Nat.leb _ 1); [done|]. by apply order_groups_spec.
Qed.

(** Weight is a share.  Of the draws a pool's total weight admits, exactly
    the interval of a candidate's own weight (at least one, so none is starved)
    picks it, intervals following the order of the pool. *)
Theorem weight_is_a_share pool i r pick :
  pool !! i = Some r -> 0 <= pick < total_weight pool ->
  pick_index pool pick = i <->
  total_weight (take i pool) <= pick < total_weight (take i pool) + weight_of r.
Proof using.
  intros Hi Hp.
  assert (H : exists k, scan pool pick = Some k /\
    (k = i <-> total_weight (take i pool) <= pick < total_weight (take i pool) + weight_of r)).
  { revert r i pick Hi Hp. induction pool as [|r0 pool IH]; intros r i pick Hi Hp; [done|].
    rewrite total_weight_cons in Hp. cbn [scan].
    destruct i as [|i]; cbn [take] in *.
    - cbn in Hi. injection Hi as <-. change (total_weight []) with 0.
      destruct (Z.ltb_spec pick (weight_of r0)); [exists 0%nat; split; [done|lia]|].
      destruct pool as [|r1 pool]; [change (total_weight []) with 0 in Hp; lia|].
      destruct (IH r1 0%nat (pick - weight_of r0) eq_refl ltac:(lia)) as (k & -> & _).
      exists (S k). split; [done|lia].
    - cbn in Hi. rewrite total_weight_cons.
      pose proof (total_weight_nonneg (take i pool)) as Hnn.
      destruct (Z.ltb_spec pick (weight_of r0)); [exists 0%nat; split; [done|lia]|].
      destruct (IH r i (pick - weight_of r0) Hi ltac:(lia)) as (k & -> & Hk).
      exists (S k). split; [done|lia]. }
  destruct H as (k & Hk & Hiff). unfold pick_index. rewrite Hk. exact Hiff.
Qed.
End order_properties.

Definition demo_route (id : string) (priority weight : Z) : Route nat :=
  mkRoute (Some id) (Some id) id "vendor" priority weight 10000 0 false 0 0%nat (mkCapacity 0 0 4)
    ("https://" ++ id) "m".

Lemma weight_is_a_share_witness :
  let pool := [demo_route "a" 1 3; demo_route "b" 1 0; demo_route "c" 1 2] in
  pick_index pool 3 = 1%nat /\ pick_index pool 4 <> 1%nat.
Proof.
  cbv zeta. split.
  - apply (weight_is_a_share [demo_route "a" 1 3; demo_route "b" 1 0; demo_route "c" 1 2] 1
      (demo_route "b" 1 0) 3); vm_compute; [reflexivity|split; [discriminate|reflexivity]
      |split; [discriminate|reflexivity]].
  - vm_compute. discriminate.
Defined.

(** ** Properties: the retry budget under concurrency

    [AllowRetry] is three atomic operations (load the requests, load the retries,
    add one retry); calls of several goroutines interleave between them. *)

Inductive caller :=
  | Idle
  | Loaded (reqs : Z)
  | Granted.

Record budget_state := mkBS { bs_budget : RetryBudget; bs_callers : list caller }.

Inductive budget_step : budget_state -> budget_state -> Prop :=
  | step_start b cs : budget_step (mkBS b cs) (mkBS (StartRequest b) cs)
  | step_load b cs i :
      cs !! i = Some Idle -> budget_step (mkBS b cs) (mkBS b (<[i := Loaded (requests b)]> cs))
  | step_few b cs i q :
      cs !! i = Some (Loaded q) -> (q <? minSamples) = true ->
      budget_step (mkBS b cs) (mkBS b (<[i := Idle]> cs))
  | step_refuse b cs i q :
      cs !! i = Some (Loaded q) -> (q <? minSamples) = false -> over_ratio q (retries b) = true ->
      budget_step (mkBS b cs) (mkBS b (<[i := Idle]> cs))
  | step_grant b cs i q :
      cs !! i = Some (Loaded q) -> (q <? minSamples) = false -> over_ratio q (retries b) = false ->
      budget_step (mkBS b cs) (mkBS b (<[i := Granted]> cs))
  | step_add b cs i :
      cs !! i = Some Granted ->
      budget_step (mkBS b cs) (mkBS (mkBudget (requests b) (retries b + 1)) (<[i := Idle]> cs)).

Inductive budget_reachable (n : nat) : budget_state -> Prop :=
  | reach_init : budget_reachable n (mkBS NewRetryBudget (replicate n Idle))
  | reach_step s s' : budget_reachable n s -> budget_step s s' -> budget_reachable n s'.

Lemma over_ratio_spec q r : over_ratio q r = false <-> 10 * (r + 1) <= q.
Proof.
  unfold over_ratio. rewrite negb_false_iff, Qle_bool_iff. unfold Qle, maxRatio. cbn. lia.
Qed.

(** One caller alone runs [AllowRetry] as it is written. *)
Lemma AllowRetry_runs b cs i :
  cs !! i = Some Idle ->
  exists s1, budget_step (mkBS b cs) s1 /\
    (s1 = mkBS b (<[i := Loaded (requests b)]> cs)) /\
    match AllowRetry b with
    | (true, b') =>
        if requests b <? minSamples then b' = b /\ budget_step s1 (mkBS b (<[i := Idle]> (bs_callers s1)))
        else exists s2, budget_step s1 s2 /\ bs_callers s2 !! i = Some Granted /\ bs_budget s2 = b /\
               retries b' = retries b + 1
    | (false, b') => b' = b /\ budget_step s1 (mkBS b (<[i := Idle]> (bs_callers s1)))
    end.
Proof.
  intros Hi. eexists. split; [by apply step_load|]. split; [done|]. cbn [bs_callers].
  assert (Hl : (<[i := Loaded (requests b)]> cs) !! i = Some (Loaded (requests b))).
  { apply list_lookup_insert_eq. by eapply lookup_lt_Some. }
  unfold AllowRetry. destruct (requests b <? minSamples) eqn:E.
  - split; [done|]. by eapply step_few.
  - destruct (over_ratio _ _) eqn:Eo.
    + split; [done|]. by eapply step_refuse.
    + eexists. split; [by eapply step_grant|]. split_and!; [|done|done].
      apply list_lookup_insert_eq. rewrite length_insert. by eapply lookup_lt_Some.
Qed.

Definition is_granted (c : caller) : Z := match c with Granted => 1 | _ => 0 end.
Definition granted (cs : list caller) : Z := fold_right (fun c n => is_granted c + n) 0 cs.

Lemma granted_insert cs i c c' :
  cs !! i = Some c -> granted (<[i := c']> cs) = granted cs - is_granted c + is_granted c'.
Proof.
  revert i. induction cs as [|x cs IH]; intros i Hi; [done|].
  destruct i as [|i]; cbn in Hi.
  - injection Hi as ->. cbn. unfold granted. lia.
  - change (<[S i := c']> (x :: cs)) with (x :: <[i := c']> cs).
    change (is_granted x + granted (<[i := c']> cs)
            = is_granted x + granted cs - is_granted c + is_granted c').
    rewrite (IH i Hi). lia.
Qed.

Lemma granted_bound cs : 0 <= granted cs <= Z.of_nat (length cs).
Proof.
  induction cs as [|c cs IH]; [done|].
  change (0 <= is_granted c + granted cs <= Z.of_nat (S (length cs))).
  destruct c; cbn [is_granted]; lia.
Qed.

(** What every reachable state satisfies. *)
Definition budget_inv (n : nat) (s : budget_state) : Prop :=
  length (bs_callers s) = n /\ 0 <= requests (bs_budget s) /\
  (forall i q, bs_callers s !! i = Some (Loaded q) -> q <= requests (bs_budget s)) /\
  10 * (retries (bs_budget s) + granted (bs_callers s) - (Z.of_nat n - 1))
    <= requests (bs_budget s).

Lemma loaded_insert (R : Z) (cs : list caller) (i : nat) c :
  (forall (i : nat) q, cs !! i = Some (Loaded q) -> q <= R) ->
  (forall q, c = Loaded q -> q <= R) ->
  forall (j : nat) q, (<[i := c]> cs) !! j = Some (Loaded q) -> q <= R.
Proof.
  intros H Hc j q Hj. apply list_lookup_insert_Some in Hj as [(_ & -> & _)|[_ Hj]].
  - by apply Hc.
  - by eapply H.
Qed.

Lemma budget_inv_step n s s' : (0 < n)%nat -> budget_inv n s -> budget_step s s' -> budget_inv n s'.
Proof.
  intros Hn (Hl & Hr & Hq & Hb) Hs. destruct Hs; cbn [bs_budget bs_callers] in *;
    unfold budget_inv; cbn [bs_budget bs_callers requests retries];
    try match goal with H : ?l !! ?j = Some _ |- context [<[?j := _]> ?l] =>
      rewrite length_insert, (granted_insert _ _ _ _ H); cbn [is_granted] end;
    try (split_and!; [done|lia| |lia]).
  - split_and!; [done|unfold StartRequest; cbn; lia| |unfold StartRequest; cbn; lia].
    intros i q Hi. apply Hq in Hi. unfold StartRequest. cbn. lia.
  - apply loaded_insert; [done|]. intros q [= <-]. lia.
  - by apply loaded_insert.
  - by apply loaded_insert.
  - split_and!; [done|done|by apply loaded_insert|].
    apply over_ratio_spec in H1. apply Hq in H as Hq'.
    pose proof (granted_bound (<[i := Granted]> cs)) as Hg.
    rewrite length_insert, (granted_insert _ _ _ _ H) in Hg. cbn [is_granted] in Hg. lia.
  - by apply loaded_insert.
Qed.

(** A retry storm cannot form.  However [n] goroutines interleave, the retries
    counted never exceed a tenth of the requests by more than the [n - 1] callers
    that could have passed the same check together; a single caller never exceeds
    the tenth at all. *)
Theorem retries_bounded n s :
  (0 < n)%nat -> budget_reachable n s ->
  10 * retries (bs_budget s) <= requests (bs_budget s) + 10 * (Z.of_nat n - 1).
Proof.
  intros Hn Hr.
  assert (Hi : budget_inv n s).
  { induction Hr as [|s s' _ IH Hs]; [|by eapply budget_inv_step].
    unfold budget_inv. cbn [bs_budget bs_callers NewRetryBudget requests retries].
    rewrite length_replicate. split_and!; [done|done| |].
    - intros i q Hi. by apply lookup_replicate_1 in Hi as [? _].
    - assert (granted (replicate n Idle) = 0) as ->; [|lia].
      clear Hn. induction n as [|n IH]; [done|]. cbn. exact IH. }
  destruct Hi as (_ & _ & _ & Hb). pose proof (granted_bound (bs_callers s)). lia.
Qed.

(** ** The overshoot is real: two callers at the tenth *)

Lemma reach_requests (k : nat) :
  budget_reachable 2 (mkBS (mkBudget (Z.of_nat k) 0) [Idle; Idle]).
Proof.
  induction k as [|k IH]; [apply (reach_init 2)|].
  eapply reach_step; [exact IH|]. rewrite Nat2Z.inj_succ. apply (step_start (mkBudget (Z.of_nat k) 0)).
Qed.

Lemma reach_retry q r :
  100 <= q -> 10 * (r + 1) <= q ->
  budget_reachable 2 (mkBS (mkBudget q r) [Idle; Idle]) ->
  budget_reachable 2 (mkBS (mkBudget q (r + 1)) [Idle; Idle]).
Proof.
  intros Hq Hr H.
  eapply reach_step; [eapply reach_step; [eapply reach_step; [exact H|]|]|].
  - by apply (step_load (mkBudget q r) [Idle; Idle] 0).
  - apply (step_grant (mkBudget q r) [Loaded q; Idle] 0 q); [done|by apply Z.ltb_ge|by apply over_ratio_spec].
  - by apply (step_add (mkBudget q r) [Granted; Idle] 0).
Qed.

Lemma reach_retries (k : nat) :
  (k <= 10)%nat -> budget_reachable 2 (mkBS (mkBudget 100 (Z.of_nat k)) [Idle; Idle]).
Proof.
  induction k as [|k IH]; intros Hk; [apply (reach_requests 100)|].
  rewrite Nat2Z.inj_succ. apply reach_retry; [lia|lia|]. apply IH. lia.
Qed.

Lemma overshoot_reachable : budget_reachable 2 (mkBS (mkBudget 100 11) [Idle; Idle]).
Proof.
  pose proof (reach_retries 9 ltac:(lia)) as H.
  pose proof (reach_step 2 _ _ H (step_load (mkBudget 100 9) [Idle; Idle] 0 eq_refl)) as H1.
  pose proof (reach_step 2 _ _ H1 (step_load (mkBudget 100 9) [Loaded 100; Idle] 1 eq_refl)) as H2.
  pose proof (reach_step 2 _ _ H2
    (step_grant (mkBudget 100 9) [Loaded 100; Loaded 100] 0 100 eq_refl eq_refl eq_refl)) as H3.
  pose proof (reach_step 2 _ _ H3
    (step_grant (mkBudget 100 9) [Granted; Loaded 100] 1 100 eq_refl eq_refl eq_refl)) as H4.
  pose proof (reach_step 2 _ _ H4 (step_add (mkBudget 100 9) [Granted; Granted] 0 eq_refl)) as H5.
  exact (reach_step 2 _ _ H5 (step_add (mkBudget 100 10) [Idle; Granted] 1 eq_refl)).
Qed.

Lemma retries_bounded_witness :
  budget_reachable 2 (mkBS (mkBudget 100 11) [Idle; Idle]) /\ 10 * 11 <= 100 + 10 * (2 - 1).
Proof.
  split; [exact overshoot_reachable|].
  exact (retries_bounded 2 (mkBS (mkBudget 100 11) [Idle; Idle]) ltac:(lia) overshoot_reachable).
Defined.
