(* ===== verification/Rotation.v ===== *)
(** * Candidate rotation: [internal/gateway/proxy/rotation.go] and the parts of
    [pipeline.go] it calls

    The failover state machine shared by the buffered and the streaming path:
    which candidates are eligible, in which order, how many are tried, what stops
    it, which circuit each failure advances, and what is recorded.

    One attempt is a parameter: a function of the whole shared state, so that it
    may change anything in it, including what other requests do to it while the
    attempt runs. *)
From S2P Require Import Prelude BreakerStore Breaker RateLimit Errors Classify.
From S2P Require Import Surfaces Catalog Routing Guard.
From Stdlib Require Import QArith.

Open Scope Z_scope.

(** ** Data *)

Record attemptOutcome := mkOutcome {
  o_cls : Classification;
  o_err : option Error;
  o_keyID : uuid;
  o_byok : bool;
  o_committed : bool;
  o_budgetSpent : bool;
}.

Record failedHop := mkHop {
  fh_RouteID : string;
  fh_ProviderID : string;
  fh_ProviderKeyID : string;
  fh_Class : string;
  fh_HTTPStatus : Z;
  fh_ErrorCode : string;
  fh_LatencyMs : Z;
  fh_Priority : Z;
  fh_Weight : Z;
}.

(** [rotationResult]; the route is [None] while it is the zero [Route]. *)
Record rotationResult (T : Type) := mkRes {
  rr_route : option (Route T);
  rr_keyID : uuid;
  rr_byok : bool;
  rr_attempts : Z;
  rr_trail : list failedHop;
  rr_err : option Error;
}.
Arguments mkRes {T}.
Arguments rr_route {T}.
Arguments rr_keyID {T}.
Arguments rr_byok {T}.
Arguments rr_attempts {T}.
Arguments rr_trail {T}.
Arguments rr_err {T}.

(** The state requests share: breakers, retry budget, semaphores (allocated in
    [p_heap], reached through [p_semaphores]; [None] is the nil semaphore), the
    limiter, key cursors, probe requests, randomness and the clock; [p_ext] is
    whatever else an attempt changes. *)
Record Pipeline (S L X : Type) := mkPipeline {
  p_breaker : World S;
  p_budget : RetryBudget;
  p_heap : list Semaphore;
  p_semaphores : gmap string (option nat);
  p_limiter : option L;
  p_keyCursors : gmap string Z;
  p_probes : list (uuid * string);
  p_draws : list Z;
  p_jitter : list Q;
  p_clock : Clock;
  p_ext : X;
}.
Arguments mkPipeline {S L X}.
Arguments p_breaker {S L X}.
Arguments p_budget {S L X}.
Arguments p_heap {S L X}.
Arguments p_semaphores {S L X}.
Arguments p_limiter {S L X}.
Arguments p_keyCursors {S L X}.
Arguments p_probes {S L X}.
Arguments p_draws {S L X}.
Arguments p_jitter {S L X}.
Arguments p_clock {S L X}.
Arguments p_ext {S L X}.

Definition uuidStr (id : uuid) : string := default ""%string id.

Definition providerCapacityBucket (kind : string) (providerID : uuid) : string :=
  ("gw:cap:" ++ kind ++ ":" ++ uuidStr providerID)%string.

Definition defaultProviderConcurrency : Z := 64.

Inductive ctl := Continue | Break | Return.

Section rotation.
Context {S L X T : Type} `{StoreLaws S} `{Limiter L}.
Implicit Types p : Pipeline S L X.
Implicit Types route : Route T.

(** The configuration fixed at construction. *)
Variable perProviderConcurrency : Z.
Variable has_probe : bool.

(** ** Field updates *)

Definition with_breaker p b : Pipeline S L X :=
  mkPipeline b (p_budget p) (p_heap p) (p_semaphores p) (p_limiter p)
  (p_keyCursors p) (p_probes p) (p_draws p) (p_jitter p) (p_clock p) (p_ext p).
Definition with_budget p b : Pipeline S L X :=
  mkPipeline (p_breaker p) b (p_heap p) (p_semaphores p) (p_limiter p)
  (p_keyCursors p) (p_probes p) (p_draws p) (p_jitter p) (p_clock p) (p_ext p).
Definition with_sems p h s : Pipeline S L X :=
  mkPipeline (p_breaker p) (p_budget p) h s (p_limiter p)
  (p_keyCursors p) (p_probes p) (p_draws p) (p_jitter p) (p_clock p) (p_ext p).
Definition with_limiter p l : Pipeline S L X :=
  mkPipeline (p_breaker p) (p_budget p) (p_heap p) (p_semaphores p) l
  (p_keyCursors p) (p_probes p) (p_draws p) (p_jitter p) (p_clock p) (p_ext p).
Definition with_probe p r : Pipeline S L X :=
  mkPipeline (p_breaker p) (p_budget p) (p_heap p) (p_semaphores p)
  (p_limiter p) (p_keyCursors p) (p_probes p ++ [r]) (p_draws p) (p_jitter p) (p_clock p) (p_ext p).
Definition with_draws p d : Pipeline S L X :=
  mkPipeline (p_breaker p) (p_budget p) (p_heap p) (p_semaphores p)
  (p_limiter p) (p_keyCursors p) (p_probes p) d (p_jitter p) (p_clock p) (p_ext p).
Definition with_jitter p j : Pipeline S L X :=
  mkPipeline (p_breaker p) (p_budget p) (p_heap p) (p_semaphores p)
  (p_limiter p) (p_keyCursors p) (p_probes p) (p_draws p) j (p_clock p) (p_ext p).
Definition with_cursors p k : Pipeline S L X :=
  mkPipeline (p_breaker p) (p_budget p) (p_heap p) (p_semaphores p)
  (p_limiter p) k (p_probes p) (p_draws p) (p_jitter p) (p_clock p) (p_ext p).

Definition now p : Z := local_ns (p_clock p).

(** ** Filters *)

Definition availableRoutes p (candidates : list (Route T)) : list (Route T) :=
  List.filter (fun r => ProviderAvailable (now p) (p_breaker p) (r_ProviderID r)) candidates.

Definition deref p (ptr : option nat) : option Semaphore :=
  match ptr with None => None | Some i => p_heap p !! i end.

(** [NewSemaphore]: nil, or a fresh pointer. *)
Definition alloc p (n : Z) : option nat * list Semaphore :=
  match NewSemaphore n with
  | None => (None, p_heap p)
  | Some s => (Some (length (p_heap p)), p_heap p ++ [s])
  end.

Definition semaphoreFor p (providerID : uuid) (limit : Z) : option nat * Pipeline S L X :=
  let limit := if limit <=? 0 then perProviderConcurrency else limit in
  let key := uuidStr providerID in
  let found :=
    match p_semaphores p !! key with
    | Some ptr => if Capacity (deref p ptr) =? limit then Some ptr else None
    | None => None
    end in
  match found with
  | Some ptr => (ptr, p)
  | None =>
      let '(ptr, heap) := alloc p limit in
      (ptr, with_sems p heap (<[key := ptr]> (p_semaphores p)))
  end.

(** An operation on the semaphore behind a pointer. *)
Definition store_sem p (ptr : option nat) (s : option Semaphore) : Pipeline S L X :=
  match ptr, s with
  | Some i, Some s => with_sems p (<[i := s]> (p_heap p)) (p_semaphores p)
  | _, _ => p
  end.

Definition sem_TryAcquire p (ptr : option nat) : bool * Pipeline S L X :=
  let '(ok, s) := TryAcquire (deref p ptr) in (ok, store_sem p ptr s).

Definition sem_Release p (ptr : option nat) : Pipeline S L X :=
  store_sem p ptr (Release (deref p ptr)).

Definition capacityAllows p route (estimatedTokens : Z) : bool * Z * Pipeline S L X :=
  match p_limiter p with
  | None => (true, 0, p)
  | Some l =>
      let rpm := RateLimitRPM (r_Capacity route) in
      let tpm := RateLimitTPM (r_Capacity route) in
      let '(refused1, l) :=
        if 0 <? rpm then
          match Allow (p_clock p) l (providerCapacityBucket "rpm" (r_ProviderID route)) rpm
                  rateWindow with
          | (Err _, l) => (None, l)
          | (Ok res, l) => (if Allowed res then None else Some (RateLimit.RetryAfter res), l)
          end
        else (None, l) in
      match refused1 with
      | Some retryAfter => (false, retryAfter, with_limiter p (Some l))
      | None =>
          if (0 <? tpm) && (0 <? estimatedTokens) then
            let n := Z.min estimatedTokens (wrap64 (tpm + 1)) in
            match AllowN (p_clock p) l (providerCapacityBucket "tpm" (r_ProviderID route)) n tpm
                    rateWindow with
            | (Err _, l) => (true, 0, with_limiter p (Some l))
            | (Ok res, l) =>
                if Allowed res then (true, 0, with_limiter p (Some l))
                else (false, RateLimit.RetryAfter res, with_limiter p (Some l))
            end
          else (true, 0, with_limiter p (Some l))
      end
  end.

(** ** Recording a failure *)

Definition next_jitter p : Q * Pipeline S L X :=
  match p_jitter p with
  | [] => (0%Q, p)
  | j :: js => (j, with_jitter p js)
  end.

Definition applyBreaker p route (surface : Surface) (cls : Classification) (byok : bool) :
    Pipeline S L X :=
  match Class_ cls with
  | ClassKey =>
      let '(j, p) := next_jitter p in
      with_breaker p (RecordKeyFailure (now p) j (p_breaker p) (cls_keyID cls) (CooldownHint cls)
                        (authFailure cls))
  | ClassProvider =>
      if CountsTowardHealth cls then
        let '(j, p) := next_jitter p in
        with_breaker p (RecordProviderFailure (now p) j (p_breaker p) (r_ProviderID route))
      else p
  | ClassRoute =>
      match endpoint surface with
      | Some ep => if has_probe && negb byok && negb (bool_decide (ep = ""%string))
                   then with_probe p (r_ID route, ep) else p
      | None => p
      end
  | _ => p
  end.

(** ** The rotation *)

Definition saturated (retryAfter : Z) : Error :=
  mkError GatewaySaturated "Upstream capacity saturated" retryAfter [].

Definition set_err (res : rotationResult T) (e : option Error) : rotationResult T :=
  mkRes (rr_route res) (rr_keyID res) (rr_byok res) (rr_attempts res) (rr_trail res) e.

Definition hop_of route (out : attemptOutcome) (err : Error) (latencyMs : Z) : failedHop :=
  mkHop (uuidStr (r_ID route)) (uuidStr (r_ProviderID route)) (uuidStr (o_keyID out))
    (class_String (Class_ (o_cls out))) (upstreamStatus (o_cls out)) (Code err) latencyMs
    (r_Priority route) (r_Weight route).

Variable attempt : Pipeline S L X -> Route T -> Z -> attemptOutcome * Pipeline S L X.

(** The body of the loop for one candidate: how it leaves the iteration, the
    outcome of the attempt when one was made, the result and the state. *)
Definition iteration (surface : Surface) (estimatedTokens : Z) route
    (res : rotationResult T) p :
    ctl * option attemptOutcome * rotationResult T * Pipeline S L X :=
  if maxRouteAttempts <=? rr_attempts res then (Break, None, res, p)
  else
    let '(allowed, p) :=
      if 0 <? rr_attempts res then
        let '(ok, b) := AllowRetry (p_budget p) in (ok, with_budget p b)
      else (true, p) in
    if negb allowed then (Break, None, res, p)
    else
      let res := mkRes (Some route) None (rr_byok res) (rr_attempts res) (rr_trail res)
                   (rr_err res) in
      let '(ok, retryAfter, p) := capacityAllows p route estimatedTokens in
      if negb ok then
        let retryAfter := if retryAfter <=? 0 then Second else retryAfter in
        (Continue, None, set_err res (Some (saturated retryAfter)), p)
      else
        let '(sem, p) := semaphoreFor p (r_ProviderID route) (MaxConcurrency (r_Capacity route)) in
        let '(acquired, p) := sem_TryAcquire p sem in
        if negb acquired then
          (Continue, None, set_err res (Some (saturated Second)), p)
        else
          let n := rr_attempts res + 1 in
          let started := now p in
          let '(out, p) := attempt p route n in
          let p := sem_Release p sem in
          match o_err out with
          | None =>
              (Return, Some out,
               mkRes (Some route) (o_keyID out) (o_byok out) n (rr_trail res) None, p)
          | Some err =>
              let p := applyBreaker p route surface (o_cls out) (o_byok out) in
              if o_committed out then
                (Return, Some out,
                 mkRes (Some route) (o_keyID out) (o_byok out) n (rr_trail res) (Some err), p)
              else
                let hop := hop_of route out err (Z.quot (now p - started) Millisecond) in
                let res := mkRes (Some route) (o_keyID out) (o_byok out) n
                             (rr_trail res ++ [hop]) (Some err) in
                if negb (Retryable (o_cls out)) || o_budgetSpent out
                then (Return, Some out, res, p)
                else (Continue, Some out, res, p)
          end.

(** After the loop: a failure needs an error. *)
Definition finish (res : rotationResult T) : rotationResult T :=
  match rr_err res with
  | Some _ => res
  | None => set_err res (Some (NewError GatewayAllProvidersFailed "Every candidate failed"))
  end.

Fixpoint rotate_loop (surface : Surface) (est : Z) (routes : list (Route T))
    (res : rotationResult T) p : rotationResult T * Pipeline S L X :=
  match routes with
  | [] => (finish res, p)
  | route :: routes' =>
      match iteration surface est route res p with
      | (Continue, _, res, p) => rotate_loop surface est routes' res p
      | (Break, _, res, p) => (finish res, p)
      | (Return, _, res, p) => (res, p)
      end
  end.

Definition zero_res : rotationResult T := mkRes None None false 0 [] None.

Definition rotate (candidates : list (Route T)) (surface : Surface) (est : Z) p :
    rotationResult T * Pipeline S L X :=
  let p := with_budget p (StartRequest (p_budget p)) in
  let '(ordered, draws) := Order (p_draws p) (availableRoutes p candidates) in
  let p := with_draws p draws in
  match ordered with
  | [] => (set_err zero_res
             (Some (NewError GatewayAllProvidersFailed
                      "No provider available: every circuit is open")), p)
  | _ => rotate_loop surface est ordered zero_res p
  end.
End rotation.

(** ** What one iteration can do *)

Section contract.
Context {S L X T : Type} `{StoreLaws S} `{Limiter L}.
Variable perProviderConcurrency : Z.
Variable has_probe : bool.
Variable attempt : Pipeline S L X -> Route T -> Z -> attemptOutcome * Pipeline S L X.
Variable surface : Surface.
Variable est : Z.

Abbreviation step := (iteration perProviderConcurrency has_probe attempt surface est).
Abbreviation loop := (rotate_loop perProviderConcurrency has_probe attempt surface est).

Implicit Types p q : Pipeline S L X.

(** The part of a recorded hop that does not depend on the clock. *)
Definition hop_key (h : failedHop) : string * string * string * string :=
  (fh_RouteID h, fh_ProviderKeyID h, fh_Class h, fh_ErrorCode h).

(** The hops a list of attempts puts on record: the failed, uncommitted ones. *)
Definition recorded (h : Route T * attemptOutcome) : list (string * string * string * string) :=
  match o_err h.2 with
  | Some e => if o_committed h.2 then []
              else [(uuidStr (r_ID h.1), uuidStr (o_keyID h.2), class_String (Class_ (o_cls h.2)),
                     Code e)]
  | None => []
  end.

(** A failure after which another candidate is tried. *)
Definition moves_on (o : attemptOutcome) : Prop :=
  is_Some (o_err o) /\ o_committed o = false /\ Retryable (o_cls o) = true /\
  o_budgetSpent o = false.

(** The ways an iteration over [route] leaves a result. *)
Inductive iterated (route : Route T) (res : rotationResult T) :
    ctl -> option attemptOutcome -> rotationResult T -> Prop :=
  | it_break : iterated route res Break None res
  | it_skip res' e :
      rr_attempts res' = rr_attempts res -> rr_trail res' = rr_trail res ->
      rr_err res' = Some e -> Code e = GatewaySaturated ->
      iterated route res Continue None res'
  | it_tried c o res' :
      rr_attempts res < maxRouteAttempts ->
      rr_attempts res' = rr_attempts res + 1 ->
      rr_route res' = Some route -> rr_keyID res' = o_keyID o -> rr_byok res' = o_byok o ->
      rr_err res' = o_err o ->
      map hop_key (rr_trail res') = map hop_key (rr_trail res) ++ recorded (route, o) ->
      (c = Continue /\ moves_on o \/ c = Return /\ ~ moves_on o) ->
      iterated route res c (Some o) res'.

Lemma iteration_spec route res p c o res' p' :
  step route res p = (c, o, res', p') -> iterated route res c o res'.
Proof using.
  unfold iteration. destruct (Z.leb_spec maxRouteAttempts (rr_attempts res)) as [|Hlt].
  { intros [= <- <- <- _]. constructor. }
  destruct (if 0 <? rr_attempts res then _ else _) as [allowed p1].
  destruct allowed; cbn [negb]; [|intros [= <- <- <- _]; constructor].
  destruct (capacityAllows p1 route est) as [[ok ra] p2].
  destruct ok; cbn [negb]; [|intros [= <- <- <- _]; by eapply it_skip].
  destruct (semaphoreFor _ p2 _ _) as [sem p3].
  destruct (sem_TryAcquire p3 sem) as [acquired p4].
  destruct acquired; cbn [negb]; [|intros [= <- <- <- _]; by eapply it_skip].
  cbn [rr_attempts rr_trail].
  destruct (attempt p4 route (rr_attempts res + 1)) as [out p5].
  destruct (o_err out) as [err|] eqn:Eerr.
  - destruct (o_committed out) eqn:Ec.
    { intros [= <- <- <- _]. apply it_tried; try done.
      - unfold recorded. cbn [fst snd]. by rewrite Eerr, Ec, app_nil_r.
      - right. split; [done|]. intros (_ & ? & _). congruence. }
    assert (Hrec : recorded (route, out) = [(uuidStr (r_ID route), uuidStr (o_keyID out),
      class_String (Class_ (o_cls out)), Code err)])
      by (unfold recorded; cbn [fst snd]; by rewrite Eerr, Ec).
    destruct (negb (Retryable (o_cls out)) || o_budgetSpent out) eqn:Er.
    + intros [= <- <- <- _]. apply it_tried; try done.
      * cbn [rr_trail]. by rewrite map_app, Hrec.
      * right. split; [done|]. intros (_ & _ & Hr & Hb). rewrite Hr, Hb in Er. done.
    + intros [= <- <- <- _]. bool_prop. apply it_tried; try done.
      * cbn [rr_trail]. by rewrite map_app, Hrec.
      * left. split; [done|]. split_and!; try done; by eexists.
  - intros [= <- <- <- _]. apply it_tried; try done.
    + unfold recorded. cbn [fst snd]. by rewrite Eerr, app_nil_r.
    + right. split; [done|]. intros ([? ?] & _). congruence.
Qed.

(** The attempts a rotation makes, in order. *)
Fixpoint hops (routes : list (Route T)) (res : rotationResult T) (p : Pipeline S L X) :
    list (Route T * attemptOutcome) :=
  match routes with
  | [] => []
  | route :: routes' =>
      let '(c, o, res', p') := step route res p in
      let h := match o with Some out => [(route, out)] | None => [] end in
      match c with
      | Continue => h ++ hops routes' res' p'
      | _ => h
      end
  end.

(** What a rotation from [res] may end with, given the attempts it made. *)
Record rotated (res : rotationResult T) (hs : list (Route T * attemptOutcome))
    (res' : rotationResult T) : Prop := {
  rd_attempts : rr_attempts res' = rr_attempts res + Z.of_nat (length hs);
  rd_bound : rr_attempts res <= maxRouteAttempts -> rr_attempts res' <= maxRouteAttempts;
  rd_moves : Forall (fun h => moves_on h.2) (removelast hs);
  rd_trail : map hop_key (rr_trail res') = map hop_key (rr_trail res) ++ concat (map recorded hs);
  rd_success : rr_err res' = None <->
    exists hs' r o, hs = hs' ++ [(r, o)] /\ o_err o = None /\
      rr_route res' = Some r /\ rr_keyID res' = o_keyID o /\ rr_byok res' = o_byok o;
}.

Lemma rotated_finish res : rotated res [] (finish res).
Proof using.
  assert (H2 : rr_attempts (finish res) = rr_attempts res /\ rr_trail (finish res) = rr_trail res
    /\ rr_err (finish res) <> None).
  { unfold finish. destruct (rr_err res) eqn:E; cbn; rewrite ?E; done. }
  destruct H2 as (Ha & Ht & He). split; cbn; rewrite ?Ha, ?Ht, ?app_nil_r; try done; try lia.
  split; [done|]. intros (hs' & r & o & E & _). by destruct hs'.
Qed.

Lemma rotated_last route o res res' :
  iterated route res Return (Some o) res' -> rotated res [(route, o)] res'.
Proof using.
  intros Hi. inversion Hi as [| |c o' r' Hlt Ha Hr Hk Hb He Ht Hc]; subst.
  destruct Hc as [[? _]|[_ Hm]]; [done|]. split.
  - rewrite Ha. cbn. lia.
  - lia.
  - constructor.
  - rewrite Ht. cbn [map concat]. by rewrite app_nil_r.
  - rewrite He. split.
    + intros Ho. exists [], route, o. done.
    + intros (hs' & r & o1 & E & Ho & _). destruct hs' as [|? [|??]]; try done.
      by injection E as <- <-.
Qed.

Lemma rotated_cons route o res res1 hs res' :
  iterated route res Continue (Some o) res1 -> rotated res1 hs res' ->
  rotated res ((route, o) :: hs) res'.
Proof using.
  intros Hi [R1 R2 R3 R4 R5].
  inversion Hi as [| |c o' r' Hlt Ha Hr Hk Hb He Ht Hc]; subst.
  destruct Hc as [[_ Hm]|[? _]]; [|done]. split.
  - rewrite R1, Ha. cbn [length]. lia.
  - lia.
  - destruct hs as [|h hs]; [constructor|]. constructor; [exact Hm|exact R3].
  - rewrite R4, Ht. cbn [map concat]. by rewrite app_assoc.
  - rewrite R5. split.
    + intros (hs' & r & o1 & -> & ?). exists ((route, o) :: hs'), r, o1. done.
    + intros (hs' & r & o1 & E & Ho & Hrest). destruct hs' as [|h hs'].
      * injection E as <- <- ->. destruct Hm as ([? ?] & _). congruence.
      * injection E as <- ->. by exists hs', r, o1.
Qed.

Lemma loop_rotated routes res p : rotated res (hops routes res p) (loop routes res p).1.
Proof using.
  revert res p. induction routes as [|route routes IH]; intros res p; cbn [rotate_loop hops].
  { apply rotated_finish. }
  destruct (step route res p) as [[[c o] res1] p1] eqn:E.
  pose proof (iteration_spec route res p c o res1 p1 E) as Hi.
  destruct c.
  - inversion Hi as [|res2 e Ha Ht He Hc|]; subst.
    + cbn [app]. specialize (IH res1 p1). destruct IH as [R1 R2 R3 R4 R5].
      split; rewrite <- ?Ha, <- ?Ht; done.
    + cbn [app]. eapply rotated_cons; [exact Hi|apply IH].
  - inversion Hi as [| |? ? ? ? ? ? ? ? ? ? Hc]; subst; [apply rotated_finish|].
    by destruct Hc as [[? _]|[? _]].
  - inversion Hi; subst. by apply rotated_last.
Qed.

Lemma hops_sublist routes res p : (hops routes res p).*1 `sublist_of` routes.
Proof using.
  revert res p. induction routes as [|route routes IH]; intros res p; cbn [hops]; [done|].
  destruct (step route res p) as [[[c o] res1] p1].
  destruct c; destruct o; cbn [app fmap list_fmap fst]; try apply sublist_nil_l.
  - by apply sublist_skip.
  - by apply sublist_cons.
  - apply sublist_skip, sublist_nil_l.
  - apply sublist_skip, sublist_nil_l.
Qed.

(** ** Properties: the rotation *)

(** The attempts [rotate] makes. *)
Definition rotation_hops (candidates : list (Route T)) (p : Pipeline S L X) :
    list (Route T * attemptOutcome) :=
  let p := with_budget p (StartRequest (p_budget p)) in
  let '(ordered, draws) := Order (p_draws p) (availableRoutes p candidates) in
  hops ordered zero_res (with_draws p draws).

(** C13: the failover contract, whatever an attempt does to the shared state.  At
    most three candidates are tried, in the order chosen, each at most once per
    place in it; every attempt but the last failed in a way worth another try;
    the request succeeds exactly when the last attempt did, and then names that
    attempt's route and credential with no error left over from earlier
    candidates; and the trail records exactly the failed attempts that had sent
    nothing to the client, oldest first. *)
Theorem rotation_contract candidates p :
  let res := (rotate perProviderConcurrency has_probe attempt candidates surface est p).1 in
  let hs := rotation_hops candidates p in
  rr_attempts res = Z.of_nat (length hs) /\ (length hs <= 3)%nat /\
  hs.*1 `sublist_of` (Order (p_draws p) (availableRoutes p candidates)).1 /\
  Forall (fun h => moves_on h.2) (removelast hs) /\
  map hop_key (rr_trail res) = concat (map recorded hs) /\
  (rr_err res = None <->
    exists hs' r o, hs = hs' ++ [(r, o)] /\ o_err o = None /\
      rr_route res = Some r /\ rr_keyID res = o_keyID o /\ rr_byok res = o_byok o).
Proof using.
  cbn zeta. unfold rotate, rotation_hops.
  set (p1 := with_budget p (StartRequest (p_budget p))).
  change (p_draws p1) with (p_draws p).
  change (availableRoutes p1 candidates) with (availableRoutes p candidates).
  destruct (Order (p_draws p) (availableRoutes p candidates)) as [ordered draws] eqn:Eo.
  cbn [fst].
  pose proof (hops_sublist ordered zero_res (with_draws p1 draws)) as Hsub.
  destruct ordered as [|r0 ordered].
  { cbn. split_and!; try done; [lia|]. split; [done|].
    intros (hs' & r & o & E & _). by destruct hs'. }
  destruct (loop_rotated (r0 :: ordered) zero_res (with_draws p1 draws)) as [R1 R2 R3 R4 R5].
  cbn [fst]. cbn [rr_attempts rr_trail zero_res] in *.
  split_and!; [lia|unfold maxRouteAttempts in R2; lia|exact Hsub|exact R3|exact R4|exact R5].
Qed.

(** ** Properties: backpressure *)

(** A heap whose slots are as in [h], grown by idle semaphores only. *)
Definition grown (h h' : list Semaphore) : Prop :=
  exists new, h' = h ++ new /\ Forall (fun s => taken s = 0 /\ 0 < capacity s) new.

Lemma grown_refl h : grown h h.
Proof using. exists []. by rewrite app_nil_r. Qed.

Lemma grown_trans h1 h2 h3 : grown h1 h2 -> grown h2 h3 -> grown h1 h3.
Proof using.
  intros (n1 & -> & H2) (n2 & -> & H3). exists (n1 ++ n2). rewrite app_assoc. split; [done|].
  by apply Forall_app.
Qed.

Lemma semaphoreFor_grown p id limit :
  grown (p_heap p) (p_heap (semaphoreFor perProviderConcurrency p id limit).2).
Proof using.
  unfold semaphoreFor, alloc, NewSemaphore. cbv zeta.
  destruct (p_semaphores p !! _) as [ptr|];
    [destruct (Capacity _ =? _); [apply grown_refl|]|];
    (destruct (Z.leb_spec (if limit <=? 0 then perProviderConcurrency else limit) 0);
     [apply grown_refl|]; eexists; split; [done|]; constructor; [cbn; lia|constructor]).
Qed.

(** Taking a slot and giving it back around a state change that leaves the heap
    alone leaves the heap alone. *)
Lemma acquire_release p ptr p1 p2 :
  Forall sem_wf (p_heap p) -> sem_TryAcquire p ptr = (true, p1) -> p_heap p2 = p_heap p1 ->
  p_heap (sem_Release p2 ptr) = p_heap p.
Proof using.
  unfold sem_TryAcquire, sem_Release, deref. intros Hwf Ha Hh. destruct ptr as [i|].
  - rewrite Hh. destruct (p_heap p !! i) as [s|] eqn:Ei.
    + cbn [TryAcquire] in Ha. destruct (Z.ltb_spec (taken s) (capacity s)); [|done].
      injection Ha as <-. cbn [store_sem p_heap with_sems].
      rewrite list_lookup_insert_eq by (by eapply lookup_lt_Some).
      cbn [Release taken capacity].
      assert (Hs : sem_wf s) by (by eapply (Forall_lookup_1 sem_wf)). destruct Hs as [_ Hs].
      rewrite (proj2 (Z.ltb_lt _ _)) by lia. cbn [store_sem p_heap with_sems].
      rewrite Hh. cbn [store_sem p_heap with_sems]. rewrite list_insert_insert_eq.
      apply list_insert_id. rewrite Ei. f_equal. destruct s. cbn. f_equal. lia.
    + cbn in Ha. injection Ha as <-. cbn in Hh |- *. rewrite Ei. exact Hh.
  - cbn in Ha. injection Ha as <-. cbn. exact Hh.
Qed.

Lemma TryAcquire_refused p ptr p1 : sem_TryAcquire p ptr = (false, p1) -> p_heap p1 = p_heap p.
Proof using.
  unfold sem_TryAcquire, deref. destruct ptr as [i|]; [|done].
  destruct (p_heap p !! i) as [s|] eqn:Ei; [|done]. cbn [TryAcquire].
  destruct (_ <? _); [done|]. intros [= <-]. cbn. by apply list_insert_id.
Qed.

Lemma capacityAllows_heap p (route : Route T) : p_heap (capacityAllows p route est).2 = p_heap p.
Proof using.
  unfold capacityAllows. destruct (p_limiter p) as [l|]; [|done].
  destruct (0 <? RateLimitRPM _);
    [destruct (Allow _ _ _ _ _) as [[res|] l1]; [destruct (Allowed res)|]|];
    cbn [fst snd]; try done;
    (destruct (_ && _); [|done]);
    (destruct (AllowN _ _ _ _ _ _) as [[res2|] l2]; [destruct (Allowed res2)|]; done).
Qed.

Lemma applyBreaker_heap p (route : Route T) cls byok :
  p_heap (applyBreaker has_probe p route surface cls byok) = p_heap p.
Proof using.
  unfold applyBreaker, next_jitter. destruct (Class_ cls).
  - by destruct (p_jitter p).
  - destruct (CountsTowardHealth cls); [|done]. by destruct (p_jitter p).
  - destruct (endpoint surface); [|done]. by destruct (_ && _).
  - done.
  - done.
Qed.

Lemma grown_wf h h' : grown h h' -> Forall sem_wf h -> Forall sem_wf h'.
Proof using.
  intros (new & -> & Hn) Hh. apply Forall_app. split; [done|].
  eapply Forall_impl; [|exact Hn]. intros s [H1' H2']. unfold sem_wf. lia.
Qed.

Hypothesis attempt_keeps_slots : forall p r n, p_heap (attempt p r n).2 = p_heap p.

Lemma iteration_heap route res p c o res' p' :
  Forall sem_wf (p_heap p) -> step route res p = (c, o, res', p') ->
  grown (p_heap p) (p_heap p').
Proof using attempt_keeps_slots.
  intros Hwf. unfold iteration. destruct (maxRouteAttempts <=? rr_attempts res).
  { intros [= _ _ _ <-]. apply grown_refl. }
  destruct (if 0 <? rr_attempts res then _ else _) as [allowed p1] eqn:E1.
  assert (H1h : p_heap p1 = p_heap p).
  { destruct (0 <? rr_attempts res); [|by injection E1 as _ <-].
    destruct (AllowRetry _). by injection E1 as _ <-. }
  destruct allowed; cbn [negb]; [|intros [= _ _ _ <-]; rewrite H1h; apply grown_refl].
  pose proof (capacityAllows_heap p1 route) as H2h.
  destruct (capacityAllows p1 route est) as [[ok ra] p2]. cbn [snd] in H2h.
  destruct ok; cbn [negb]; [|intros [= _ _ _ <-]; rewrite H2h, H1h; apply grown_refl].
  pose proof (semaphoreFor_grown p2 (r_ProviderID route) (MaxConcurrency (r_Capacity route))) as Hg.
  destruct (semaphoreFor _ p2 _ _) as [sem p3]. cbn [snd] in Hg. rewrite H2h, H1h in Hg.
  assert (Hwf3 : Forall sem_wf (p_heap p3)) by (by eapply grown_wf).
  destruct (sem_TryAcquire p3 sem) as [acquired p4] eqn:E4.
  destruct acquired; cbn [negb].
  2: { intros [= _ _ _ <-]. by rewrite (TryAcquire_refused p3 sem p4 E4). }
  cbn [rr_attempts].
  pose proof (attempt_keeps_slots p4 route (rr_attempts res + 1)) as H5.
  destruct (attempt p4 route (rr_attempts res + 1)) as [out p5]. cbn [snd] in H5.
  pose proof (acquire_release p3 sem p4 p5 Hwf3 E4 H5) as H6.
  destruct (o_err out) as [err|]; [|intros [= _ _ _ <-]; by rewrite H6].
  pose proof (applyBreaker_heap (sem_Release p5 sem) route (o_cls out) (o_byok out)) as H7.
  destruct (o_committed out); [intros [= _ _ _ <-]; by rewrite H7, H6|].
  destruct (_ || _); intros [= _ _ _ <-]; by rewrite H7, H6.
Qed.

(** Every slot taken is given back.  While attempts leave the semaphores
    alone, after a rotation every semaphore that existed has exactly as many
    slots taken as before, replaced ones included, and any semaphore created on
    the way is idle: success, failure and refusal alike leak nothing. *)
Theorem slots_returned candidates p :
  Forall sem_wf (p_heap p) ->
  let p' := (rotate perProviderConcurrency has_probe attempt candidates surface est p).2 in
  (forall i s, p_heap p !! i = Some s -> p_heap p' !! i = Some s) /\
  Forall (fun s => taken s = 0) (drop (length (p_heap p)) (p_heap p')).
Proof using attempt_keeps_slots.
  intros Hwf.
  assert (Hl : forall routes res p, Forall sem_wf (p_heap p) ->
    grown (p_heap p) (p_heap (loop routes res p).2)).
  { induction routes as [|route routes IH]; intros res q Hq; cbn [rotate_loop]; [apply grown_refl|].
    destruct (step route res q) as [[[c o] res1] q1] eqn:E.
    pose proof (iteration_heap route res q c o res1 q1 Hq E) as Hg.
    destruct c; [|exact Hg..]. eapply grown_trans; [exact Hg|]. apply IH. by eapply grown_wf. }
  assert (Hg : grown (p_heap p) (p_heap (rotate perProviderConcurrency has_probe attempt candidates surface est p).2)).
  { unfold rotate.
    set (p1 := with_budget p (StartRequest (p_budget p))).
    destruct (Order (p_draws p1) (availableRoutes p1 candidates)) as [ordered draws].
    destruct ordered as [|r0 ordered]; [apply grown_refl|].
    apply (Hl (r0 :: ordered) zero_res (with_draws p1 draws)). exact Hwf. }
  cbv zeta. destruct Hg as (new & -> & Hn). split.
  - intros i s Hi. rewrite lookup_app_l; [done|]. by eapply lookup_lt_Some.
  - rewrite drop_app_length. eapply Forall_impl; [|exact Hn]. by intros s [? _].
Qed.
End contract.

(** ** What the rotation leaves to the attempts *)

Section ext.
Context {S L X T : Type} `{StoreLaws S} `{Limiter L}.
Variable perProviderConcurrency : Z.
Variable has_probe : bool.
Variable attempt : Pipeline S L X -> Route T -> Z -> attemptOutcome * Pipeline S L X.
Variable surface : Surface.
Variable est : Z.
Implicit Types p q : Pipeline S L X.
Implicit Types route : Route T.

Lemma capacityAllows_ext p route : p_ext (capacityAllows p route est).2 = p_ext p.
Proof using.
  unfold capacityAllows. destruct (p_limiter p) as [l|]; [|done].
  destruct (0 <? RateLimitRPM _);
    [destruct (Allow _ _ _ _ _) as [[res|] l1]; [destruct (Allowed res)|]|];
    cbn [fst snd]; try done;
    (destruct (_ && _); [|done]);
    (destruct (AllowN _ _ _ _ _ _) as [[res2|] l2]; [destruct (Allowed res2)|]; done).
Qed.

Lemma semaphoreFor_ext p id limit : p_ext (semaphoreFor perProviderConcurrency p id limit).2 = p_ext p.
Proof using.
  unfold semaphoreFor. cbv zeta.
  destruct (p_semaphores p !! _) as [ptr|]; [destruct (Capacity _ =? _)|]; try done;
    by destruct (alloc p _).
Qed.

Lemma store_sem_ext p ptr s : p_ext (store_sem p ptr s) = p_ext p.
Proof using. unfold store_sem. by destruct ptr, s. Qed.

Lemma TryAcquire_ext p ptr : p_ext (sem_TryAcquire p ptr).2 = p_ext p.
Proof using. unfold sem_TryAcquire. destruct (TryAcquire _). apply store_sem_ext. Qed.

Lemma applyBreaker_ext p route cls byok : p_ext (applyBreaker has_probe p route surface cls byok) = p_ext p.
Proof using.
  unfold applyBreaker, next_jitter. destruct (Class_ cls); try done.
  - by destruct (p_jitter p).
  - destruct (CountsTowardHealth cls); [|done]. by destruct (p_jitter p).
  - destruct (endpoint surface); [|done]. by destruct (_ && _).
Qed.

(** One iteration changes the attempt's own state by one attempt at most. *)
Lemma iteration_ext route res p c o res' p' :
  iteration perProviderConcurrency has_probe attempt surface est route res p = (c, o, res', p') ->
  match o with
  | None => p_ext p' = p_ext p
  | Some out => exists q n, p_ext q = p_ext p /\ out = (attempt q route n).1 /\
                            p_ext p' = p_ext (attempt q route n).2
  end.
Proof using.
  unfold iteration. destruct (maxRouteAttempts <=? rr_attempts res).
  { by intros [= _ <- _ <-]. }
  destruct (if 0 <? rr_attempts res then _ else _) as [allowed p1] eqn:E1.
  assert (H1x : p_ext p1 = p_ext p).
  { destruct (0 <? rr_attempts res); [|by injection E1 as _ <-].
    destruct (AllowRetry _). by injection E1 as _ <-. }
  destruct allowed; cbn [negb]; [|by intros [= _ <- _ <-]].
  pose proof (capacityAllows_ext p1 route) as H2x.
  destruct (capacityAllows p1 route est) as [[ok ra] p2]. cbn [snd] in H2x.
  destruct ok; cbn [negb]; [|intros [= _ <- _ <-]; by rewrite H2x].
  pose proof (semaphoreFor_ext p2 (r_ProviderID route) (MaxConcurrency (r_Capacity route))) as H3x.
  destruct (semaphoreFor _ p2 _ _) as [sem p3]. cbn [snd] in H3x.
  pose proof (TryAcquire_ext p3 sem) as H4x.
  destruct (sem_TryAcquire p3 sem) as [acquired p4]. cbn [snd] in H4x.
  destruct acquired; cbn [negb]; [|intros [= _ <- _ <-]; by rewrite H4x, H3x, H2x].
  cbn [rr_attempts]. destruct (attempt p4 route (rr_attempts res + 1)) as [out p5] eqn:E5.
  assert (H5x : p_ext (sem_Release p5 sem) = p_ext p5) by apply store_sem_ext.
  assert (H6x : forall cls b, p_ext (applyBreaker has_probe (sem_Release p5 sem) route surface cls b) = p_ext p5).
  { intros cls b. by rewrite applyBreaker_ext. }
  assert (Hgoal : forall p6, p_ext p6 = p_ext p5 ->
    exists q n, p_ext q = p_ext p /\ out = (attempt q route n).1 /\ p_ext p6 = p_ext (attempt q route n).2).
  { intros p6 H6. exists p4, (rr_attempts res + 1). rewrite E5. cbn [fst snd].
    by rewrite H4x, H3x, H2x, H1x. }
  destruct (o_err out) as [err|]; [|intros [= _ <- _ <-]; by apply Hgoal].
  destruct (o_committed out); [intros [= _ <- _ <-]; by apply Hgoal|].
  destruct (_ || _); intros [= _ <- _ <-]; by apply Hgoal.
Qed.

Variable I : X -> Prop.
Variable candidates : list (Route T).

(** How a rotation ends: on an attempt after which no other is made, or without
    one and with an error. *)
Inductive ended (res : rotationResult T) (x : X) : Prop :=
  | ended_exhausted : is_Some (rr_err res) -> I x -> ended res x
  | ended_attempt q route n :
      route ∈ candidates -> I (p_ext q) -> ~ moves_on (attempt q route n).1 ->
      rr_route res = Some route -> rr_keyID res = o_keyID (attempt q route n).1 ->
      rr_byok res = o_byok (attempt q route n).1 -> rr_err res = o_err (attempt q route n).1 ->
      x = p_ext (attempt q route n).2 -> ended res x.

Hypothesis attempt_keeps : forall p route n,
  route ∈ candidates -> I (p_ext p) -> moves_on (attempt p route n).1 ->
  I (p_ext (attempt p route n).2).

Lemma finish_err (res : rotationResult T) : is_Some (rr_err (finish res)).
Proof using. unfold finish. destruct (rr_err res) eqn:E; cbn; rewrite ?E; by eexists. Qed.

Lemma rotate_loop_ended routes res p res' p' :
  (forall route, route ∈ routes -> route ∈ candidates) -> I (p_ext p) ->
  rotate_loop perProviderConcurrency has_probe attempt surface est routes res p = (res', p') ->
  ended res' (p_ext p').
Proof using attempt_keeps.
  revert res p. induction routes as [|route routes IH]; intros res p Hr HI; cbn [rotate_loop].
  { intros [= <- <-]. apply ended_exhausted; [apply finish_err|done]. }
  destruct (iteration _ _ _ _ _ route res p) as [[[c o] res1] p1] eqn:E.
  pose proof (iteration_ext route res p c o res1 p1 E) as Hx.
  apply iteration_spec in E.
  assert (Hr' : forall r, r ∈ routes -> r ∈ candidates) by (intros r Hin; apply Hr; by right).
  assert (Hroute : route ∈ candidates) by (apply Hr; by left).
  inversion E as [| |c' o' r' Hlt Ha Hro Hk Hb He Ht Hc]; subst.
  - intros [= <- <-]. apply ended_exhausted; [apply finish_err|by rewrite Hx].
  - apply IH; [done|by rewrite Hx].
  - destruct Hx as (q & n & Hq & -> & Hp1). destruct Hc as [[-> Hm]|[-> Hm]].
    + apply IH; [done|]. rewrite Hp1. apply attempt_keeps; [done|by rewrite Hq|done].
    + intros [= <- <-]. rewrite Hp1. apply (ended_attempt _ _ q route n); try done. by rewrite Hq.
Qed.

Lemma rotate_ended p res' p' :
  I (p_ext p) ->
  rotate perProviderConcurrency has_probe attempt candidates surface est p = (res', p') ->
  ended res' (p_ext p').
Proof using attempt_keeps.
  intros HI. unfold rotate.
  set (p1 := with_budget p (StartRequest (p_budget p))).
  change (p_draws p1) with (p_draws p).
  change (availableRoutes p1 candidates) with (availableRoutes p candidates).
  pose proof (Order_members (p_draws p) (availableRoutes p candidates)) as Hm.
  destruct (Order (p_draws p) (availableRoutes p candidates)) as [ordered draws]. cbn [fst] in Hm.
  destruct ordered as [|r0 ordered].
  { intros [= <- <-]. apply ended_exhausted; [by eexists|exact HI]. }
  apply rotate_loop_ended; [|exact HI].
  intros route Hin. apply Hm in Hin. unfold availableRoutes in Hin.
  apply list_elem_of_In, filter_In in Hin as [Hin _]. by apply list_elem_of_In.
Qed.
End ext.

(** ** Properties: what a failure costs whom *)

Section costs.
Context {S L X T : Type} `{StoreLaws S} `{Limiter L}.
Variable has_probe : bool.
Implicit Types p : Pipeline S L X.

(** The circuit a verdict is recorded against, if any. *)
Definition blamed (route : Route T) (cls : Classification) : option string :=
  match Class_ cls with
  | ClassKey => match cls_keyID cls with Some _ => Some (providerKeyScope (cls_keyID cls)) | None => None end
  | ClassProvider => if CountsTowardHealth cls then Some (providerScope (r_ProviderID route)) else None
  | _ => None
  end.

(** A failure moves one circuit at most, the one its class names.  A
    key-class failure touches its own credential (none when the credential is
    the organization's), a provider-class one its provider and only when it
    counts toward health, and nothing else moves any circuit; a route-class
    failure asks for a probe of exactly that route and endpoint, and never on
    the organization's own credential. *)
Theorem failure_moves_one_circuit p (route : Route T) surface cls byok now' scope :
  now p <= now' -> blamed route cls <> Some scope ->
  let p' := applyBreaker has_probe p route surface cls byok in
  view now' (p_breaker p') scope = view now' (p_breaker p) scope /\
  p_probes p' = p_probes p ++
    match Class_ cls, endpoint surface with
    | ClassRoute, Some ep => if has_probe && negb byok then [(r_ID route, ep)] else []
    | _, _ => []
    end.
Proof using H H0.
  intros Hle Hb. cbn zeta. unfold applyBreaker, next_jitter, blamed in *.
  destruct (Class_ cls).
  - assert (Hv : forall j, view now' (RecordKeyFailure (now p) j (p_breaker p) (cls_keyID cls)
      (CooldownHint cls) (authFailure cls)) scope = view now' (p_breaker p) scope).
    { intros j. apply key_failure_other; [done|]. intros k Hk ->. rewrite Hk in Hb. done. }
    rewrite app_nil_r. destruct (p_jitter p); cbn; split; try done; apply Hv.
  - rewrite app_nil_r. destruct (CountsTowardHealth cls); [|done].
    assert (Hv : forall j, view now' (RecordProviderFailure (now p) j (p_breaker p)
      (r_ProviderID route)) scope = view now' (p_breaker p) scope).
    { intros j. apply provider_failure_other; [done|]. congruence. }
    destruct (p_jitter p); cbn; split; try done; apply Hv.
  - destruct (endpoint surface) as [ep|] eqn:Ee; [|by rewrite app_nil_r].
    assert (Hne : bool_decide (ep = ""%string) = false).
    { apply bool_decide_eq_false. intros ->. by destruct surface. }
    rewrite Hne. cbn [negb]. rewrite andb_true_r.
    destruct (has_probe && negb byok); [done|]. by rewrite app_nil_r.
  - by rewrite app_nil_r.
  - by rewrite app_nil_r.
Qed.

(** A candidate skipped for lack of capacity after a first attempt has
    already spent a unit of the global retry budget: the attempt count is
    unchanged and nothing was sent, yet the budget counts one more retry. *)
Theorem capacity_skip_spends_retry per attempt surface est (route : Route T) res p l' ra :
  0 < rr_attempts res < maxRouteAttempts ->
  minSamples <= requests (p_budget p) -> 10 * (retries (p_budget p) + 1) <= requests (p_budget p) ->
  (forall b, capacityAllows (with_budget p b) route est = (false, ra, with_limiter (with_budget p b) l')) ->
  exists res' p',
    iteration per has_probe attempt surface est route res p = (Continue, None, res', p') /\
    rr_attempts res' = rr_attempts res /\ rr_trail res' = rr_trail res /\
    retries (p_budget p') = retries (p_budget p) + 1.
Proof using.
  intros Ha Hs Hr Hc. unfold iteration. rewrite (proj2 (Z.leb_gt _ _)) by lia.
  rewrite (proj2 (Z.ltb_lt _ _)) by lia.
  unfold AllowRetry. rewrite (proj2 (Z.ltb_ge _ _)) by lia.
  rewrite (proj2 (over_ratio_spec _ _)) by done. cbn [negb]. rewrite Hc. cbn [negb].
  eexists _, _. split; [done|]. done.
Qed.
End costs.

(** ** Choosing a credential: [pickKey], [nextKeyOffset] *)

Section pick.
Context {S L X T : Type} `{StoreLaws S} `{Limiter L} {K : Type}.
Implicit Types p : Pipeline S L X.

(** A stored credential; [open_key] decrypts it ([secretbox]). *)
Variable key_ID : K -> uuid.
Variable open_key : K -> option string.

Definition nextKeyOffset p (providerID : uuid) (n : Z) : Z * Pipeline S L X :=
  if n <=? 1 then (0, p)
  else
    let key := uuidStr providerID in
    let cursor := (default 0 (p_keyCursors p !! key) + 1) mod 2 ^ 64 in
    (cursor mod n, with_cursors p (<[key := cursor]> (p_keyCursors p))).

(** The scan over the credentials from [start], [n] of them. *)
Fixpoint scan_keys p (keys : list K) (start : Z) (n : nat) (i : nat) : option (K * string) :=
  match n with
  | O => None
  | Datatypes.S n' =>
      match keys !! Z.to_nat ((start + Z.of_nat i) mod Z.of_nat (length keys)) with
      | None => None
      | Some k =>
          if negb (KeyAvailable (now p) (p_breaker p) (key_ID k))
          then scan_keys p keys start n' (Datatypes.S i)
          else match open_key k with
               | None => scan_keys p keys start n' (Datatypes.S i)
               | Some plain => Some (k, plain)
               end
      end
  end.

(** [query] is [GetProviderKeysForProvider]. *)
Definition pickKey (query : uuid -> result string (list K)) p (route : Route T) :
    result Error (uuid * string) * Pipeline S L X :=
  match query (r_ProviderID route) with
  | Err _ | Ok [] => (Err (NewError GatewayAllProvidersFailed "Provider is unavailable"), p)
  | Ok keys =>
      let '(start, p) := nextKeyOffset p (r_ProviderID route) (Z.of_nat (length keys)) in
      match scan_keys p keys start (length keys) 0 with
      | Some (k, plain) => (Ok (key_ID k, plain), p)
      | None => (Err (NewError GatewayAllProvidersFailed
          "Provider has no usable credential: all are cooling down or failed to decrypt"), p)
      end
  end.

Definition usable p (k : K) : bool :=
  KeyAvailable (now p) (p_breaker p) (key_ID k) && bool_decide (is_Some (open_key k)).

Lemma scan_index (start : Z) (len i : nat) :
  (0 < len)%nat -> (Z.to_nat ((start + Z.of_nat i) mod Z.of_nat len) < len)%nat.
Proof using. intros Hl. pose proof (Z.mod_pos_bound (start + Z.of_nat i) (Z.of_nat len)). lia. Qed.

Lemma scan_keys_spec p keys start n i :
  keys <> [] ->
  match scan_keys p keys start n i with
  | Some (k, plain) => k ∈ keys /\ usable p k = true /\ open_key k = Some plain
  | None => forall j, (i <= j < i + n)%nat -> forall k,
      keys !! Z.to_nat ((start + Z.of_nat j) mod Z.of_nat (length keys)) = Some k ->
      usable p k = false
  end.
Proof using.
  intros Hne. revert i. induction n as [|n IH]; intros i; cbn [scan_keys]; [lia|].
  assert (Hlen : (0 < length keys)%nat) by (destruct keys; [done|cbn; lia]).
  destruct (lookup_lt_is_Some_2 keys _ (scan_index start (length keys) i Hlen)) as [k Hk].
  rewrite Hk. specialize (IH (Datatypes.S i)).
  assert (Hrest : usable p k = false ->
    match scan_keys p keys start n (Datatypes.S i) with
    | Some (k, plain) => k ∈ keys /\ usable p k = true /\ open_key k = Some plain
    | None => forall j, (i <= j < i + Datatypes.S n)%nat -> forall k,
        keys !! Z.to_nat ((start + Z.of_nat j) mod Z.of_nat (length keys)) = Some k ->
        usable p k = false
    end).
  { intros Hu. destruct (scan_keys p keys start n (Datatypes.S i)) as [[k' plain]|]; [done|].
    intros j Hj k' Hk'. destruct (decide (j = i)) as [->|]; [congruence|].
    apply (IH j); [lia|done]. }
  destruct (KeyAvailable _ _ _) eqn:Ea; cbn [negb].
  - destruct (open_key k) as [plain|] eqn:Eo.
    + split_and!; [by eapply list_elem_of_lookup_2| |done]. unfold usable. rewrite Ea, Eo. done.
    + apply Hrest. unfold usable. rewrite Eo, Ea. done.
  - apply Hrest. unfold usable. by rewrite Ea.
Qed.

Lemma mod_reach (start : Z) (len m : nat) :
  (m < len)%nat -> exists j, (j < len)%nat /\
    Z.to_nat ((start + Z.of_nat j) mod Z.of_nat len) = m.
Proof using.
  intros Hm. exists (Z.to_nat ((Z.of_nat m - start) mod Z.of_nat len)).
  pose proof (Z.mod_pos_bound (Z.of_nat m - start) (Z.of_nat len) ltac:(lia)).
  split; [lia|]. rewrite Z2Nat.id by lia.
  rewrite Zplus_mod_idemp_r. replace (start + (Z.of_nat m - start)) with (Z.of_nat m) by lia.
  rewrite Z.mod_small by lia. lia.
Qed.

(** A usable credential is always found.  When the provider has one that is
    neither cooling down nor undecryptable, the request gets such a one,
    wherever the cursor stands; it fails only when there is none. *)
Theorem pick_key_complete query p route :
  match (pickKey query p route).1 with
  | Ok (id, plain) => exists keys k,
      query (r_ProviderID route) = Ok keys /\ k ∈ keys /\ usable p k = true /\
      id = key_ID k /\ open_key k = Some plain
  | Err e => Code e = GatewayAllProvidersFailed /\
      forall keys, query (r_ProviderID route) = Ok keys -> Forall (fun k => usable p k = false) keys
  end.
Proof using.
  unfold pickKey. destruct (query (r_ProviderID route)) as [[|k0 keys]|e] eqn:Eq; cbn [fst].
  - split; [done|]. intros keys [= <-]. constructor.
  - set (ks := k0 :: keys) in *. unfold nextKeyOffset.
    assert (Hs : forall p' start, now p' = now p -> p_breaker p' = p_breaker p ->
      match (match scan_keys p' ks start (length ks) 0 with
             | Some (k, plain) => (Ok (key_ID k, plain), p')
             | None => (Err (NewError GatewayAllProvidersFailed
                 "Provider has no usable credential: all are cooling down or failed to decrypt"), p')
             end).1 with
      | Ok (id, plain) => exists keys k,
          Ok (E := string) ks = Ok keys /\ k ∈ keys /\ usable p k = true /\
          id = key_ID k /\ open_key k = Some plain
      | Err e => Code e = GatewayAllProvidersFailed /\
          forall keys, Ok (E := string) ks = Ok keys -> Forall (fun k => usable p k = false) keys
      end).
    { intros p' start Hn Hb. assert (Hu : forall k, usable p' k = usable p k)
        by (intros k; unfold usable; by rewrite Hn, Hb).
      pose proof (scan_keys_spec p' ks start (length ks) 0 ltac:(done)) as Hsp.
      destruct (scan_keys p' ks start (length ks) 0) as [[k plain]|]; cbn [fst].
      - destruct Hsp as (Hin & Hk & Ho). exists ks, k. by rewrite <- Hu.
      - split; [done|]. intros keys' [= <-]. apply list.Forall_forall. intros k Hk.
        apply list_elem_of_lookup_1 in Hk as [m Hm].
        destruct (mod_reach start (length ks) m) as (j & Hj & Ej); [by eapply lookup_lt_Some|].
        rewrite <- Hu. apply (Hsp j); [lia|]. by rewrite Ej. }
    destruct (_ <=? 1); by apply Hs.
  - split; [done|]. by intros keys [=].
Qed.

Lemma pickKey_ext query p route : p_ext (pickKey query p route).2 = p_ext p.
Proof using.
  unfold pickKey. destruct (query (r_ProviderID route)) as [[|k keys]|e]; [done| |done].
  unfold nextKeyOffset. destruct (_ <=? 1);
    destruct (scan_keys _ _ _ _ _) as [[? ?]|]; done.
Qed.

Lemma nextKeyOffset_step p id n c :
  1 < n -> default 0 (p_keyCursors p !! uuidStr id) = c -> 0 <= c -> c + 1 < 2 ^ 64 ->
  exists p', nextKeyOffset p id n = ((c + 1) mod n, p') /\
    default 0 (p_keyCursors p' !! uuidStr id) = c + 1 /\
    forall other, other <> uuidStr id -> p_keyCursors p' !! other = p_keyCursors p !! other.
Proof using.
  intros Hn Hd Hc Hw. unfold nextKeyOffset. rewrite (proj2 (Z.leb_gt _ _)) by done.
  rewrite Hd, (Z.mod_small (c + 1)) by lia. eexists. split; [done|]. split.
  - cbn. by rewrite lookup_insert_eq.
  - intros other Ho. cbn. by apply lookup_insert_ne.
Qed.

(** The starting places of [m] successive selections at one provider. *)
Fixpoint offsets (m : nat) p (id : uuid) (n : Z) : list Z :=
  match m with
  | O => []
  | Datatypes.S m' => let '(start, p) := nextKeyOffset p id n in start :: offsets m' p id n
  end.

Lemma offsets_eq m p id n c :
  1 < n -> default 0 (p_keyCursors p !! uuidStr id) = c -> 0 <= c -> c + Z.of_nat m < 2 ^ 64 ->
  offsets m p id n = map (fun j => (c + 1 + Z.of_nat j) mod n) (seq 0 m).
Proof using.
  intros Hn. revert p c. induction m as [|m IH]; intros p c Hd Hc Hw; [done|].
  destruct (nextKeyOffset_step p id n c Hn Hd Hc ltac:(lia)) as (p' & E & Hd' & _).
  cbn [offsets seq map]. rewrite E, (IH p' (c + 1) Hd') by lia.
  f_equal; [f_equal; lia|]. rewrite <- seq_shift, map_map. apply map_ext. intros j. f_equal. lia.
Qed.

(** Selections spread over the pool: while the 64-bit cursor does not wrap,
    [n] successive selections among [n] credentials start at [n] different ones,
    so with all of them usable each serves exactly once. *)
Theorem selections_cover_the_pool p id n :
  1 < n -> 0 <= default 0 (p_keyCursors p !! uuidStr id) ->
  default 0 (p_keyCursors p !! uuidStr id) + n < 2 ^ 64 ->
  NoDup (offsets (Z.to_nat n) p id n) /\
  Forall (fun start => 0 <= start < n) (offsets (Z.to_nat n) p id n).
Proof using.
  intros Hn Hc Hw.
  rewrite (offsets_eq _ p id n (default 0 (p_keyCursors p !! uuidStr id))) by (done || lia).
  set (c := default 0 _) in *. split.
  - apply (NoDup_fmap_2_strong (fun j => (c + 1 + Z.of_nat j) mod n)); [|apply NoDup_seq].
    intros x y Hx Hy E. apply elem_of_seq in Hx, Hy.
    pose proof (Z.div_mod (c + 1 + Z.of_nat x) n ltac:(lia)) as Dx.
    pose proof (Z.div_mod (c + 1 + Z.of_nat y) n ltac:(lia)) as Dy. rewrite E in Dx.
    assert ((c + 1 + Z.of_nat x) / n = (c + 1 + Z.of_nat y) / n) by nia. lia.
  - apply list.Forall_forall. intros s Hs. apply list_elem_of_In, in_map_iff in Hs as (j & <- & _).
    apply Z.mod_pos_bound. lia.
Qed.
End pick.

(** ** A concrete deployment: in-process breaker store, token-bucket limiter *)

Definition demo_pipeline (b : RetryBudget) : Pipeline Memory Redis unit :=
  mkPipeline (mkWorld (∅ : Memory) None) b [] ∅ (Some (mkRedis ∅ true)) ∅ [] [] []
    (mkClock 0 0) tt.

(** The first attempt meets an overloaded upstream, the second is served. *)
Definition demo_attempt (p : Pipeline Memory Redis unit) (r : Route nat) (n : Z) :
    attemptOutcome * Pipeline Memory Redis unit :=
  if n =? 1
  then (mkOutcome (ClassifyStatus 503 [] []) (cls_Err (ClassifyStatus 503 [] [])) (Some "k1"%string)
          false false false, p)
  else (mkOutcome zero_class None (Some "k2"%string) false false false, p).

Definition demo_candidates : list (Route nat) := [demo_route "a" 1 1; demo_route "b" 2 1].

Example failover_serves :
  let r := (rotate 64 true demo_attempt demo_candidates SurfaceChat 10
              (demo_pipeline NewRetryBudget)).1 in
  rr_err r = None /\ rr_keyID r = Some "k2"%string /\ rr_attempts r = 2 /\
  map hop_key (rr_trail r)
  = [("a", "k1", "provider", "gateway.all_providers_failed")]%string.
Proof. vm_compute. done. Qed.

Lemma slots_returned_witness :
  Forall (fun s => taken s = 0)
    (p_heap (rotate 64 true demo_attempt demo_candidates SurfaceChat 10
               (demo_pipeline NewRetryBudget)).2).
Proof.
  refine (proj2 (slots_returned 64 true demo_attempt SurfaceChat 10 _ demo_candidates
    (demo_pipeline NewRetryBudget) _)).
  - intros p r n. unfold demo_attempt. destruct (n =? 1); reflexivity.
  - constructor.
Defined.

Lemma failure_moves_one_circuit_witness :
  view 0 (p_breaker (applyBreaker true (demo_pipeline NewRetryBudget) (demo_route "a" 1 1)
    SurfaceChat (ClassifyStatus 503 [] []) false)) "gw:brk:p:b" = None.
Proof.
  destruct (failure_moves_one_circuit (S := Memory) (L := Redis) true (demo_pipeline NewRetryBudget)
    (demo_route "a" 1 1) SurfaceChat (ClassifyStatus 503 [] []) false 0 "gw:brk:p:b") as [H _].
  - vm_compute. discriminate.
  - vm_compute. discriminate.
  - rewrite H. vm_compute. reflexivity.
Defined.

Definition busy_route : Route nat :=
  mkRoute (Some "c"%string) (Some "c"%string) "c" "vendor" 1 1 10000 0 false 0 0%nat
    (mkCapacity 0 5 4) "https://c" "m".

Lemma capacity_skip_spends_retry_witness :
  exists res' p',
    iteration 64 true demo_attempt SurfaceChat 10 busy_route
      (mkRes None None false 1 [] None) (demo_pipeline (mkBudget 100 3))
    = (Continue, None, res', p') /\
    rr_attempts res' = 1 /\ rr_trail res' = [] /\ retries (p_budget p') = 4.
Proof.
  apply (capacity_skip_spends_retry true 64 demo_attempt SurfaceChat 10 busy_route
    (mkRes None None false 1 [] None) (demo_pipeline (mkBudget 100 3)) (Some (mkRedis ∅ true))
    72000000000).
  - vm_compute. split; reflexivity.
  - vm_compute. discriminate.
  - vm_compute. discriminate.
  - intros b. vm_compute. reflexivity.
Defined.

Lemma selections_cover_the_pool_witness :
  NoDup (offsets 3 (demo_pipeline NewRetryBudget) (Some "p"%string) 3).
Proof.
  apply (selections_cover_the_pool (demo_pipeline NewRetryBudget) (Some "p"%string) 3);
    vm_compute; first [reflexivity|discriminate].
Defined.
