(* ===== verification/Ledger.v ===== *)
(** * The money operations and the durable records they leave

    [internal/gateway/settle] (the interface the gateway settles through), its
    implementation in [internal/community/settle] with the key counters of
    [access/apikeys], the recording fake of [settletest], the tables
    [usage_logs], [gateway_unsettled] and [gateway_pricing_unsettled], and the
    replay payload of [internal/gateway/usage/replay_payload.go]. *)
From S2P Require Import Prelude GoStr Rational PriceTable Pricing UnitPricing Surfaces Usage.
From S2P Require Import Catalog Errors Guard Billing Rotation.

Open Scope Z_scope.

(** ** The interface *)

Record HoldInput := mkHold { hi_OrgID : uuid; hi_RequestID : string; hi_AmountNano : Z; hi_TTL : Z }.
Record SettleInput := mkSettle {
  si_OrgID : uuid; si_RequestID : string; si_ActualNano : Z; si_APIKeyID : uuid;
}.

(** An error of the accounting side: one carrying a code, or any other. *)
Inductive settle_error := CodeError (code : string) | OtherError (msg : string).

(** [settle.Settler].  [SettleTx] runs inside the caller's transaction: on [Err]
    the caller rolls back, so only the successful state is returned. *)
Class Settler (B : Type) := {
  Hold : B -> HoldInput -> result settle_error uuid * B;
  Void : B -> uuid -> string -> option settle_error * B;
  SettleTx : B -> SettleInput -> result settle_error B;
  ProtectHold : B -> uuid -> string -> result settle_error bool * B;
}.

(** ** The self-hosted implementation

    The two counters of a key: [api_key_daily_spend] by key and day, and
    [api_keys.total_spent_nano]; [sp_up] is whether the database answers. *)
Record Spend := mkSpend {
  sp_today : Date;
  sp_daily : gmap (string * (Z * Z * Z)) Z;
  sp_total : gmap string Z;
  sp_up : bool;
}.

Definition day_key (d : Date) : Z * Z * Z := (d_year d, d_month d, d_day d).

(** [AddSpend]: the upsert and the update, both [bigint]. *)
Definition AddSpend (s : Spend) (keyID : string) (day : Date) (amount : Z) :
    result settle_error Spend :=
  let daily := default 0 (sp_daily s !! (keyID, day_key day)) + amount in
  let total := default 0 (sp_total s !! keyID) + amount in
  if negb (sp_up s) then Err (OtherError "database unavailable")
  else if negb (is_int64 daily) || (bool_decide (is_Some (sp_total s !! keyID)) && negb (is_int64 total))
  then Err (OtherError "bigint out of range")
  else Ok (mkSpend (sp_today s) (<[(keyID, day_key day) := daily]> (sp_daily s))
             (alter (fun v => v + amount) keyID (sp_total s)) (sp_up s)).

Definition RecorderSettleTx (s : Spend) (i : SettleInput) : result settle_error Spend :=
  match si_APIKeyID i with
  | None => Ok s
  | Some keyID => if si_ActualNano i <=? 0 then Ok s
                  else AddSpend s keyID (sp_today s) (si_ActualNano i)
  end.

#[export] Instance Recorder_settler : Settler Spend := {
  Hold s _ := (Ok None, s);
  Void s _ _ := (None, s);
  SettleTx := RecorderSettleTx;
  ProtectHold s _ _ := (Ok false, s);
}.

Definition date_le (a b : Z * Z * Z) : bool :=
  let '(y, m, d) := a in let '(y', m', d') := b in
  (y <? y') || ((y =? y') && ((m <? m') || ((m =? m') && (d <=? d')))).

(** The sum of the days a predicate selects. *)
Definition daily_sum (p : string * (Z * Z * Z) -> bool) (m : gmap (string * (Z * Z * Z)) Z) : Z :=
  map_fold (fun kd v acc => if p kd then v + acc else acc) 0 m.

(** [SpendSince]: the sum of a key's days from [day] on. *)
Definition SpendSince (s : Spend) (keyID : uuid) (day : Date) : result string Z :=
  if negb (sp_up s) then Err "database unavailable"%string
  else Ok (daily_sum (fun kd => bool_decide (Some kd.1 = keyID) && date_le (day_key day) kd.2)
             (sp_daily s)).

(** ** The recording fake *)

Record Fake := mkFake {
  fk_HoldErr : option settle_error;
  fk_SettleErr : option settle_error;
  fk_ProtectErr : option settle_error;
  fk_ProtectMissing : bool;
  fk_HoldID : uuid;
  fk_Holds : list HoldInput;
  fk_Voids : list string;
  fk_Settles : list SettleInput;
  fk_Protects : list string;
}.

Definition FakeHold (f : Fake) (i : HoldInput) : result settle_error uuid * Fake :=
  match fk_HoldErr f with
  | Some e => (Err e, f)
  | None => (Ok (fk_HoldID f),
             mkFake None (fk_SettleErr f) (fk_ProtectErr f) (fk_ProtectMissing f) (fk_HoldID f)
               (fk_Holds f ++ [i]) (fk_Voids f) (fk_Settles f) (fk_Protects f))
  end.

Definition FakeVoid (f : Fake) (requestID : string) : option settle_error * Fake :=
  (None, mkFake (fk_HoldErr f) (fk_SettleErr f) (fk_ProtectErr f) (fk_ProtectMissing f)
           (fk_HoldID f) (fk_Holds f) (fk_Voids f ++ [requestID]) (fk_Settles f) (fk_Protects f)).

Definition FakeSettleTx (f : Fake) (i : SettleInput) : result settle_error Fake :=
  match fk_SettleErr f with
  | Some e => Err e
  | None => Ok (mkFake (fk_HoldErr f) None (fk_ProtectErr f) (fk_ProtectMissing f)
                  (fk_HoldID f) (fk_Holds f) (fk_Voids f) (fk_Settles f ++ [i]) (fk_Protects f))
  end.

Definition FakeProtectHold (f : Fake) (requestID : string) : result settle_error bool * Fake :=
  match fk_ProtectErr f with
  | Some e => (Err e, f)
  | None => (Ok (negb (fk_ProtectMissing f)),
             mkFake (fk_HoldErr f) (fk_SettleErr f) None (fk_ProtectMissing f) (fk_HoldID f)
               (fk_Holds f) (fk_Voids f) (fk_Settles f) (fk_Protects f ++ [requestID]))
  end.

#[export] Instance Fake_settler : Settler Fake := {
  Hold := FakeHold;
  Void f _ r := FakeVoid f r;
  SettleTx := FakeSettleTx;
  ProtectHold f _ r := FakeProtectHold f r;
}.

(** ** Rows *)

(** The pricing snapshot of a row; [None] in a row is the empty object. *)
Record usagePricingSnapshot := mkPricingSnapshot {
  ps_SchemaVersion : Z;
  ps_BillingMode : string;
  ps_BYOK : bool;
  ps_BYOKFeeBps : Z;
  ps_PricingPlanID : string;
  ps_PlanModelOverride : bool;
  ps_OfficialPriceTable : PriceTableSnapshot;
  ps_ProcurementPriceTable : PriceTableSnapshot;
  ps_ContextTokens : Z;
  ps_Rates : usageEffectiveRateGroups;
  ps_ModelMultiplierBps : Z;
  ps_PlanMultiplierBps : Z;
  ps_ProcurementMultiplierBps : Z;
  ps_FXRate : bytes;
  ps_FXVersion : string;
  ps_UpstreamCostUSDNano : Z;
  ps_ChargedNano : Z;
  ps_ChargedCurrency : string;
  ps_SettlementStatus : string;
  ps_Utility : bool;
  ps_PricingIssue : string;
}.

(** The snapshot a video job carries from its creation to its usage row
    ([createVideoJobRow] of [video_submit.go]). *)
Record videoPricingSnapshot := mkVideoSnapshot {
  vps_SchemaVersion : Z;
  vps_ChargedNano : Z;
  vps_UpstreamUSDNano : Z;
  vps_ModelMultiplierBps : Z;
  vps_PlanMultiplierBps : Z;
  vps_ProcurementMultiplierBps : Z;
  vps_FXRate : bytes;
  vps_UnitRates : list UnitRateSnapshot;
}.

(** A stored [pricing_snapshot]. *)
Inductive PricingDocument :=
  | RequestSnapshot (s : usagePricingSnapshot)
  | JobSnapshot (s : videoPricingSnapshot).

Definition schema_version (d : PricingDocument) : Z :=
  match d with RequestSnapshot s => ps_SchemaVersion s | JobSnapshot s => vps_SchemaVersion s end.

(** [InsertUsageLogParams]: one row of [usage_logs].  A [Numeric] is the text it
    renders as. *)
Record UsageRow := mkUsageRow {
  ul_OrgID : uuid; ul_ApiKeyID : uuid; ul_RequestID : string; ul_Surface : string;
  ul_ModelSlug : string; ul_ProviderID : uuid; ul_ProviderKeyID : uuid; ul_OrgProviderKeyID : uuid;
  ul_Byok : bool; ul_RouteAttempts : Z; ul_Stream : bool; ul_Status : string;
  ul_ErrorCode : string; ul_HttpStatus : Z;
  ul_TokensIn : Z; ul_TokensOut : Z; ul_TokensCachedRead : Z; ul_TokensCacheWrite : Z;
  ul_TokensReasoning : Z; ul_UsageEstimated : bool;
  ul_UpstreamCostUsdNano : Z; ul_ChargedNano : Z; ul_ChargedCurrency : string;
  ul_FxRate : option bytes; ul_HoldID : uuid; ul_EndUserID : string;
  ul_TtftMs : Z; ul_DurationMs : Z;
  ul_ToolCalls : gmap string Z; ul_ServiceTier : string;
  ul_TokensAudioIn : option Z; ul_TokensAudioOut : option Z;
  ul_TokensImageIn : option Z; ul_TokensImageOut : option Z;
  ul_BilledUnits : option Z; ul_BilledUnit : string;
  ul_TokensCacheWrite5m : option Z; ul_TokensCacheWrite1h : option Z;
  ul_PricingSnapshot : option PricingDocument;
  ul_RouteID : uuid; ul_Attempts : list failedHop;
}.

(** ** The replay payload

    A stored payload is what it decodes to: a versioned record, or nothing this
    build accepts. *)
Record usageReplayRecord := mkReplay {
  rp_OrgID : string; rp_APIKeyID : string; rp_RequestID : string; rp_Surface : string;
  rp_ModelSlug : string; rp_ProviderID : string;
  rp_ProviderKeyID : option string; rp_OrgProviderKeyID : option string;
  rp_BYOK : bool; rp_RouteAttempts : Z; rp_Stream : bool; rp_Status : string;
  rp_ErrorCode : string; rp_HTTPStatus : Z;
  rp_TokensIn : Z; rp_TokensOut : Z; rp_TokensCachedRead : Z; rp_TokensCacheWrite : Z;
  rp_TokensReasoning : Z; rp_UsageEstimated : bool;
  rp_UpstreamCostUSDNano : Z; rp_ChargedNano : Z; rp_ChargedCurrency : string;
  rp_FXRate : bytes; rp_HoldID : option string; rp_EndUserID : string;
  rp_TTFTMs : Z; rp_DurationMs : Z;
  rp_ToolCalls : gmap string Z; rp_ServiceTier : string;
  rp_TokensAudioIn : Z; rp_TokensAudioOut : Z; rp_TokensImageIn : Z;
  rp_BilledUnits : Z; rp_BilledUnit : string;
  rp_TokensCacheWrite5m : Z; rp_TokensCacheWrite1h : Z;
  rp_PricingSnapshot : option PricingDocument;
  rp_RouteID : option string; rp_Attempts : list failedHop;
}.

Definition usageReplayVersion : Z := 1.

Inductive Payload :=
  | PayloadOf (version : Z) (usage : usageReplayRecord)
  | PayloadInvalid.

Definition blank (s : bytes) : bool := bool_decide (trim_space s = []).

Definition replay_validate (r : usageReplayRecord) : result string unit :=
  if existsb blank [lit (rp_OrgID r); lit (rp_APIKeyID r); lit (rp_RequestID r);
                    lit (rp_Surface r); lit (rp_ModelSlug r); lit (rp_ProviderID r);
                    lit (rp_Status r); lit (rp_ChargedCurrency r); rp_FXRate r]
  then Err "usage replay: a field must not be empty"%string
  else if rp_RouteAttempts r <? 1 then Err "usage replay: route_attempts must be positive"%string
  else match rp_PricingSnapshot r with
       | Some s => if schema_version s =? 1 then Ok tt
                   else Err "usage replay: pricing_snapshot must use schema_version 1"%string
       | None => Err "usage replay: pricing_snapshot must use schema_version 1"%string
       end.

Definition int4_of (v : option Z) : Z := default 0 v.

Definition replay_of (p : UsageRow) (fxRate : bytes) : usageReplayRecord :=
  mkReplay (uuidStr (ul_OrgID p)) (uuidStr (ul_ApiKeyID p)) (ul_RequestID p) (ul_Surface p)
    (ul_ModelSlug p) (uuidStr (ul_ProviderID p)) (ul_ProviderKeyID p) (ul_OrgProviderKeyID p)
    (ul_Byok p) (ul_RouteAttempts p) (ul_Stream p) (ul_Status p) (ul_ErrorCode p) (ul_HttpStatus p)
    (ul_TokensIn p) (ul_TokensOut p) (ul_TokensCachedRead p) (ul_TokensCacheWrite p)
    (ul_TokensReasoning p) (ul_UsageEstimated p)
    (ul_UpstreamCostUsdNano p) (ul_ChargedNano p) (ul_ChargedCurrency p)
    fxRate (ul_HoldID p) (ul_EndUserID p) (ul_TtftMs p) (ul_DurationMs p)
    (ul_ToolCalls p) (ul_ServiceTier p)
    (int4_of (ul_TokensAudioIn p)) (int4_of (ul_TokensAudioOut p)) (int4_of (ul_TokensImageIn p))
    (int4_of (ul_BilledUnits p)) (ul_BilledUnit p)
    (int4_of (ul_TokensCacheWrite5m p)) (int4_of (ul_TokensCacheWrite1h p))
    (ul_PricingSnapshot p) (ul_RouteID p) (ul_Attempts p).

Definition present (v : option Z) : bool := match v with Some _ => true | None => false end.

Definition EncodeUsageReplayPayload (p : UsageRow) : result string Payload :=
  match ul_FxRate p with
  | None => Err "usage replay: fx_rate: value is missing"%string
  | Some [] => Err "usage replay: fx_rate: value is missing"%string
  | Some fxRate =>
      if negb (present (ul_TokensAudioIn p) && present (ul_TokensAudioOut p)
               && present (ul_TokensImageIn p)
               && present (ul_TokensCacheWrite5m p) && present (ul_TokensCacheWrite1h p))
      then Err "usage replay: token dimensions must be present"%string
      else
        let record := replay_of p fxRate in
        try _ <- replay_validate record;
        Ok (PayloadOf usageReplayVersion record)
  end.

(** [parseReplayUUID]; an id is its canonical text. *)
Definition parseReplayUUID (s : string) : result string uuid :=
  if bool_decide (s = ""%string) then Err "usage replay: invalid id"%string else Ok (Some s).

Definition parseOptionalUUID (s : option string) : result string uuid :=
  match s with None => Ok None | Some s => parseReplayUUID s end.

Section numeric.
(** [pgtype.Numeric]: the text a decimal renders as once scanned, if it scans. *)
Variable NumericScan : bytes -> option bytes.

Definition numericFromString (s : bytes) : option bytes :=
  if bool_decide (s = []) then None else NumericScan s.

Definition replay_params (r : usageReplayRecord) : result string UsageRow :=
  try orgID <- parseReplayUUID (rp_OrgID r);
  try apiKeyID <- parseReplayUUID (rp_APIKeyID r);
  try providerID <- parseReplayUUID (rp_ProviderID r);
  try fxRate <- match NumericScan (rp_FXRate r) with
                | Some t => Ok (Some t)
                | None => Err "usage replay: fx_rate"%string
                end;
  try providerKeyID <- parseOptionalUUID (rp_ProviderKeyID r);
  try orgProviderKeyID <- parseOptionalUUID (rp_OrgProviderKeyID r);
  try holdID <- parseOptionalUUID (rp_HoldID r);
  try routeID <- parseOptionalUUID (rp_RouteID r);
  Ok (mkUsageRow orgID apiKeyID (rp_RequestID r) (rp_Surface r) (rp_ModelSlug r) providerID
        providerKeyID orgProviderKeyID (rp_BYOK r) (rp_RouteAttempts r) (rp_Stream r) (rp_Status r)
        (rp_ErrorCode r) (rp_HTTPStatus r)
        (rp_TokensIn r) (rp_TokensOut r) (rp_TokensCachedRead r) (rp_TokensCacheWrite r)
        (rp_TokensReasoning r) (rp_UsageEstimated r)
        (rp_UpstreamCostUSDNano r) (rp_ChargedNano r) (rp_ChargedCurrency r)
        fxRate holdID (rp_EndUserID r) (rp_TTFTMs r) (rp_DurationMs r)
        (rp_ToolCalls r) (rp_ServiceTier r)
        (Some (rp_TokensAudioIn r)) (Some (rp_TokensAudioOut r)) (Some (rp_TokensImageIn r)) None
        (if bool_decide (rp_BilledUnit r = ""%string) then None else Some (rp_BilledUnits r))
        (rp_BilledUnit r)
        (Some (rp_TokensCacheWrite5m r)) (Some (rp_TokensCacheWrite1h r))
        (rp_PricingSnapshot r) routeID (rp_Attempts r)).

Definition DecodeUsageReplayPayload (p : Payload) : result string UsageRow :=
  match p with
  | PayloadInvalid => Err "usage replay: malformed"%string
  | PayloadOf version usage =>
      if negb (version =? usageReplayVersion) then Err "usage replay: unsupported version"%string
      else try _ <- replay_validate usage; replay_params usage
  end.
End numeric.

(** ** Tables *)

(** A row of [gateway_unsettled]. *)
Record UnsettledRow := mkUnsettled {
  un_RequestID : string; un_OrgID : uuid; un_ChargedNano : Z; un_Currency : string;
  un_Reason : string; un_Attempts : Z; un_Payload : Payload;
  un_Resolved : bool; un_Abandoned : bool;
}.

(** A row of [gateway_pricing_unsettled]. *)
Record PricingRow := mkPricing {
  up_RequestID : string; up_OrgID : uuid; up_ReservedNano : Z; up_Currency : string;
  up_Reason : string; up_Attempts : Z; up_Payload : Payload;
}.

(** The database as the gateway's settlement sees it; the queues in order of
    creation. *)
Record World (B : Type) := mkWorld {
  w_billing : B;
  w_usage : list UsageRow;
  w_unsettled : list UnsettledRow;
  w_pricing : list PricingRow;
}.
Arguments mkWorld {B}.
Arguments w_billing {B}.
Arguments w_usage {B}.
Arguments w_unsettled {B}.
Arguments w_pricing {B}.

(** Which database writes fail this time. *)
Record Faults := mkFaults {
  f_tx : bool;          (** the insert or the commit of the settlement transaction *)
  f_insert : bool;      (** [InsertUsageLog] outside a transaction *)
  f_unsettled : bool;   (** [RecordUnsettled] *)
  f_pricing : bool;     (** [RecordUnsettledPricing] *)
  f_mark : bool;        (** [MarkUnsettledResolved] *)
  f_bump : bool;        (** [BumpUnsettledAttempt] *)
  f_abandon : bool;     (** [AbandonUnsettled] *)
}.
Definition no_faults : Faults := mkFaults false false false false false false false.

(** [UPDATE ... WHERE request_id = $1]. *)
Definition update_row (requestID : string) (f : UnsettledRow -> UnsettledRow)
    (rows : list UnsettledRow) : list UnsettledRow :=
  map (fun r => if bool_decide (un_RequestID r = requestID) then f r else r) rows.

Definition bump (reason : string) (r : UnsettledRow) : UnsettledRow :=
  mkUnsettled (un_RequestID r) (un_OrgID r) (un_ChargedNano r) (un_Currency r) reason
    (un_Attempts r + 1) (un_Payload r) (un_Resolved r) (un_Abandoned r).
Definition mark_resolved (r : UnsettledRow) : UnsettledRow :=
  mkUnsettled (un_RequestID r) (un_OrgID r) (un_ChargedNano r) (un_Currency r) (un_Reason r)
    (un_Attempts r) (un_Payload r) true (un_Abandoned r).
Definition mark_abandoned (reason : string) (r : UnsettledRow) : UnsettledRow :=
  mkUnsettled (un_RequestID r) (un_OrgID r) (un_ChargedNano r) (un_Currency r) reason
    (un_Attempts r) (un_Payload r) (un_Resolved r) true.

(** [INSERT ... ON CONFLICT (request_id) DO UPDATE SET attempts = attempts + 1]. *)
Definition upsert_unsettled (row : UnsettledRow) (rows : list UnsettledRow) : list UnsettledRow :=
  if existsb (fun r => bool_decide (un_RequestID r = un_RequestID row)) rows
  then update_row (un_RequestID row) (fun r => bump (un_Reason r) r) rows
  else rows ++ [row].

Definition upsert_pricing (row : PricingRow) (rows : list PricingRow) : list PricingRow :=
  if existsb (fun r => bool_decide (up_RequestID r = up_RequestID row)) rows
  then map (fun r => if bool_decide (up_RequestID r = up_RequestID row)
                     then mkPricing (up_RequestID r) (up_OrgID r) (up_ReservedNano r) (up_Currency r)
                            (up_Reason r) (up_Attempts r + 1) (up_Payload r)
                     else r) rows
  else rows ++ [row].

(** ** The contract of a settler

    What a key has been settled for so far: settling adds the amount to the key it
    names, and nothing else moves it. *)
Class SettlerLaws (B : Type) `{Settler B} := {
  spent : B -> string -> Z;
  hold_spent b i k : spent (Hold b i).2 k = spent b k;
  void_spent b org r k : spent (Void b org r).2 k = spent b k;
  protect_spent b org r k : spent (ProtectHold b org r).2 k = spent b k;
  settle_spent b i b' k :
    SettleTx b i = Ok b' ->
    spent b' k = spent b k + (if bool_decide (si_APIKeyID i = Some k)
                              then Z.max 0 (si_ActualNano i) else 0);
}.

Lemma daily_sum_insert p m kd v :
  daily_sum p (<[kd := v]> m)
  = daily_sum p m + (if p kd then v - default 0 (m !! kd) else 0).
Proof.
  assert (Hi : forall m, m !! kd = None ->
    daily_sum p (<[kd := v]> m) = (if p kd then v else 0) + daily_sum p m).
  { intros m0 Hm. unfold daily_sum. rewrite map_fold_insert_L; [by destruct (p kd); lia| |done].
    intros j1 j2 z1 z2 y _ _ _. destruct (p j1), (p j2); lia. }
  assert (Hd : daily_sum p m = (if p kd then default 0 (m !! kd) else 0)
                               + daily_sum p (delete kd m)).
  { destruct (m !! kd) as [x|] eqn:E; cbn.
    - unfold daily_sum. rewrite (map_fold_delete_L _ _ kd x m); [by destruct (p kd); lia| |done].
      intros j1 j2 z1 z2 y _ _ _. destruct (p j1), (p j2); lia.
    - rewrite delete_id by done. by destruct (p kd). }
  rewrite Hd, <- insert_delete_eq, Hi by apply lookup_delete_eq. destruct (p kd); lia.
Qed.

Definition of_key (k : string) (kd : string * (Z * Z * Z)) : bool := bool_decide (kd.1 = k).

Lemma AddSpend_ok s keyID day amount s' :
  AddSpend s keyID day amount = Ok s' ->
  sp_today s' = sp_today s /\ sp_up s' = sp_up s /\ sp_up s = true /\
  forall p, daily_sum p (sp_daily s')
            = daily_sum p (sp_daily s) + (if p (keyID, day_key day) then amount else 0).
Proof.
  unfold AddSpend. destruct (sp_up s) eqn:Eu; cbn [negb]; [|done].
  destruct (_ || _); [done|]. intros [= <-]. cbn. split_and!; try done.
  intros p. rewrite daily_sum_insert. destruct (p _); lia.
Qed.

#[export] Instance Recorder_laws : SettlerLaws Spend.
Proof.
  refine {| spent := fun s k => daily_sum (of_key k) (sp_daily s) |}; try done.
  intros s i s' k. cbn [SettleTx Recorder_settler]. unfold RecorderSettleTx.
  destruct (si_APIKeyID i) as [keyID|].
  2: { intros [= <-]. rewrite bool_decide_eq_false_2 by done. lia. }
  destruct (Z.leb_spec (si_ActualNano i) 0).
  { intros [= <-]. destruct (bool_decide _); lia. }
  intros (_ & _ & _ & ->)%AddSpend_ok. unfold of_key. cbn [fst].
  case_bool_decide as E1; case_bool_decide as E2; naive_solver lia.
Defined.

#[export] Instance Fake_laws : SettlerLaws Fake.
Proof.
  refine {| spent := fun f k =>
    fold_right (fun i acc => (if bool_decide (si_APIKeyID i = Some k)
                              then Z.max 0 (si_ActualNano i) else 0) + acc) 0 (fk_Settles f) |}.
  - intros f i k. cbn. unfold FakeHold. by destruct (fk_HoldErr f).
  - done.
  - intros f org r k. cbn. unfold FakeProtectHold. by destruct (fk_ProtectErr f).
  - intros f i f' k. cbn. unfold FakeSettleTx. destruct (fk_SettleErr f); [done|].
    intros [= <-]. cbn [fk_Settles]. induction (fk_Settles f) as [|j l IH]; cbn; lia.
Defined.

(** ** Properties *)

(** What is settled is what the budget sees.  On the self-hosted implementation a
    settlement adds its amount to what the spend gate reads for that key over the
    current day or month, and to no other key's, so the very next request is let
    through exactly when the new sum is still under the key's limit. *)
Theorem budget_sees_settlement (s : Spend) i (s' : Spend) k id :
  SettleTx s i = Ok s' -> si_APIKeyID i = Some k -> 0 < si_ActualNano i ->
  id_KeyID id = Some k -> 0 < id_SpendLimitNano id -> 1 <= d_day (sp_today s) ->
  id_SpendLimitInterval id = "daily"%string \/ id_SpendLimitInterval id = "monthly"%string ->
  exists v,
    SpendSince s (Some k) (periodStart (id_SpendLimitInterval id) (sp_today s)) = Ok v /\
    (CheckBudget (SpendSince s') (sp_today s) id = None <-> v + si_ActualNano i < id_SpendLimitNano id)
    /\ (forall k' day, k' <> k -> SpendSince s' (Some k') day = SpendSince s (Some k') day).
Proof.
  cbn [SettleTx Recorder_settler]. unfold RecorderSettleTx. intros H Hk Ha Hid Hl Hd Hi.
  rewrite Hk in H. destruct (Z.leb_spec (si_ActualNano i) 0); [lia|].
  apply AddSpend_ok in H as (Ht & Hu & Hup & Hsum).
  unfold SpendSince. rewrite Hup. cbn [negb]. eexists. split; [done|]. split.
  - unfold CheckBudget. destruct (Z.leb_spec (id_SpendLimitNano id) 0); [lia|]. cbn [orb].
    rewrite Hid. unfold SpendSince. rewrite Hu, Hup. cbn [negb]. rewrite Hsum.
    set (start := periodStart _ _).
    assert (Hin : bool_decide (Some k = Some k)
                  && date_le (day_key start) (day_key (sp_today s)) = true).
    { rewrite bool_decide_eq_true_2 by done. cbn [andb]. unfold start, periodStart, day_key, date_le.
      destruct (bool_decide _); cbn [d_year d_month d_day];
        rewrite !Z.eqb_refl, (proj2 (Z.leb_le _ _)) by lia;
        by rewrite !orb_true_r. }
    cbn [fst snd]. rewrite Hin.
    assert (Hb : bool_decide (id_SpendLimitInterval id = ""%string) = false /\
                 bool_decide (id_SpendLimitInterval id = "total"%string) = false /\
                 bool_decide (id_SpendLimitInterval id = "daily"%string)
                 || bool_decide (id_SpendLimitInterval id = "monthly"%string) = true).
    { by destruct Hi as [-> | ->]. }
    destruct Hb as (-> & -> & ->).
    match goal with |- context [?l <=? ?x] => destruct (Z.leb_spec l x) end; split; (done || lia).
  - intros k' day Hne. rewrite Hu, Hup. cbn [negb]. rewrite Hsum. cbn [fst].
    rewrite bool_decide_eq_false_2 by congruence. cbn [andb]. by rewrite Z.add_0_r.
Qed.

Definition demo_day : Date := mkDate 2026 7 14.
Definition demo_spend : Spend :=
  mkSpend demo_day {[ ("key-1"%string, (2026, 7, 14)) := 60 ]} {[ "key-1"%string := 900 ]} true.
Definition demo_limited : Identity :=
  mkIdentity (Some "key-1"%string) (Some "org-1"%string) (Some "t1"%string) "active" true [] 100
    "daily" 0 0 0 0 900 "USD" [] "" None.

Lemma budget_sees_settlement_witness :
  exists s', SettleTx demo_spend (mkSettle None "r" 40 (Some "key-1"%string)) = Ok s' /\
    CheckBudget (SpendSince s') demo_day demo_limited
    = Some (NewError GatewayKeyBudgetExceeded "API key budget exhausted").
Proof.
  eexists. split; [vm_compute; reflexivity|].
  match goal with |- CheckBudget (SpendSince ?s') _ _ = _ =>
    destruct (budget_sees_settlement demo_spend (mkSettle None "r" 40 (Some "key-1"%string)) s'
      "key-1" demo_limited) as (v & Hv & Hb & _)
  end; [vm_compute; reflexivity|reflexivity|reflexivity|reflexivity|reflexivity| |by left|].
  - vm_compute. discriminate.
  - vm_compute in Hv. injection Hv as <-. destruct (CheckBudget _ _ _) as [e|] eqn:E.
    + vm_compute in E. by injection E as <-.
    + destruct Hb as [Hb _]. specialize (Hb eq_refl). vm_compute in Hb. discriminate.
Defined.

(** The row a payload brings back: everything but the image output tokens. *)
Definition without_image_out (p : UsageRow) : UsageRow :=
  mkUsageRow (ul_OrgID p) (ul_ApiKeyID p) (ul_RequestID p) (ul_Surface p) (ul_ModelSlug p)
    (ul_ProviderID p) (ul_ProviderKeyID p) (ul_OrgProviderKeyID p) (ul_Byok p)
    (ul_RouteAttempts p) (ul_Stream p) (ul_Status p) (ul_ErrorCode p) (ul_HttpStatus p)
    (ul_TokensIn p) (ul_TokensOut p) (ul_TokensCachedRead p) (ul_TokensCacheWrite p)
    (ul_TokensReasoning p) (ul_UsageEstimated p) (ul_UpstreamCostUsdNano p) (ul_ChargedNano p)
    (ul_ChargedCurrency p) (ul_FxRate p) (ul_HoldID p) (ul_EndUserID p) (ul_TtftMs p)
    (ul_DurationMs p) (ul_ToolCalls p) (ul_ServiceTier p) (ul_TokensAudioIn p)
    (ul_TokensAudioOut p) (ul_TokensImageIn p) None (ul_BilledUnits p) (ul_BilledUnit p)
    (ul_TokensCacheWrite5m p) (ul_TokensCacheWrite1h p) (ul_PricingSnapshot p) (ul_RouteID p)
    (ul_Attempts p).

(** Ids are the canonical text of a UUID, never empty. *)
Definition proper_id (id : uuid) : Prop := id <> Some ""%string.

(** Every id of a row proper, and the unit named exactly when it is counted. *)
Definition proper_row (p : UsageRow) : Prop :=
  Forall proper_id [ul_OrgID p; ul_ApiKeyID p; ul_ProviderID p; ul_ProviderKeyID p;
                    ul_OrgProviderKeyID p; ul_HoldID p; ul_RouteID p] /\
  (ul_BilledUnit p = ""%string <-> ul_BilledUnits p = None).

Lemma parse_required id :
  blank (lit (uuidStr id)) = false -> parseReplayUUID (uuidStr id) = Ok id.
Proof.
  destruct id as [s|]; [|done]. cbn. intros H. unfold parseReplayUUID.
  rewrite bool_decide_eq_false_2; [done|]. by intros ->.
Qed.

Lemma parse_optional id : proper_id id -> parseOptionalUUID id = Ok id.
Proof.
  destruct id as [s|]; [|done]. unfold proper_id. intros H. cbn. unfold parseReplayUUID.
  rewrite bool_decide_eq_false_2; [done|]. congruence.
Qed.

Lemma int4_present v : present v = true -> Some (int4_of v) = v.
Proof. by destruct v. Qed.

Lemma encode_ok p payload :
  EncodeUsageReplayPayload p = Ok payload ->
  exists fx, ul_FxRate p = Some fx /\ payload = PayloadOf usageReplayVersion (replay_of p fx) /\
    replay_validate (replay_of p fx) = Ok tt /\
    present (ul_TokensAudioIn p) = true /\ present (ul_TokensAudioOut p) = true /\
    present (ul_TokensImageIn p) = true /\ present (ul_TokensCacheWrite5m p) = true /\
    present (ul_TokensCacheWrite1h p) = true.
Proof.
  unfold EncodeUsageReplayPayload. destruct (ul_FxRate p) as [[|c fx]|]; [done| |done].
  destruct (negb _) eqn:E; [done|]. intros ([] & Hv & [= <-])%rbind_ok. bool_prop.
  by exists (c :: fx).
Qed.

(** What was encoded decodes to its row, less the image output tokens. *)
Lemma replay_decodes NumericScan p payload :
  proper_row p -> (forall fx, ul_FxRate p = Some fx -> NumericScan fx = Some fx) ->
  EncodeUsageReplayPayload p = Ok payload ->
  DecodeUsageReplayPayload NumericScan payload = Ok (without_image_out p).
Proof.
  intros [Hids Hunit] Hscan (fx & Hfx & -> & Hv & H1 & H2 & H3 & H4 & H5)%encode_ok.
  rewrite !Forall_cons_iff in Hids. destruct Hids as (_ & _ & _ & Ik & Io & Ih & Ir & _).
  unfold DecodeUsageReplayPayload. cbn [negb Z.eqb Pos.eqb usageReplayVersion].
  rewrite Hv. cbn [rbind]. unfold replay_params.
  unfold replay_validate in Hv. destruct (existsb _ _) eqn:Eb; [done|]. clear Hv.
  cbn [existsb] in Eb. rewrite !orb_false_iff in Eb.
  destruct Eb as (B1 & B2 & _ & _ & _ & B6 & _).
  cbn [replay_of rp_OrgID rp_APIKeyID rp_ProviderID rp_FXRate rp_ProviderKeyID rp_OrgProviderKeyID
       rp_HoldID rp_RouteID] in *.
  rewrite !parse_required, (Hscan fx Hfx), !parse_optional by done. cbn [rbind].
  cbn. rewrite !int4_present by done. f_equal. unfold without_image_out. f_equal.
  - done.
  - destruct (ul_BilledUnits p) as [n|]; case_bool_decide; naive_solver.
  - by apply int4_present.
  - by apply int4_present.
Qed.

(** A queued request is replayed with the row it was to write, except that its
    image output tokens are lost: the payload has no field for them, so a row that
    counted any comes back without. *)
Theorem replay_roundtrip NumericScan p payload :
  proper_row p -> (forall fx, ul_FxRate p = Some fx -> NumericScan fx = Some fx) ->
  EncodeUsageReplayPayload p = Ok payload ->
  DecodeUsageReplayPayload NumericScan payload = Ok (without_image_out p) /\
  (without_image_out p = p <-> ul_TokensImageOut p = None).
Proof.
  intros Hp Hscan He. split; [by apply replay_decodes|].
  split; [intros E; by rewrite <- E|]. destruct p. cbn. by intros ->.
Qed.

Definition demo_usage_row (imageOut : option Z) : UsageRow :=
  mkUsageRow (Some "org-1"%string) (Some "key-1"%string) "req-1" "chat_completions" "demo"
    (Some "provider-1"%string) None None false 1 false "ok" "" 200 100 20 0 0 0 false
    500 600 "USD" (Some (lit "1")) None "" 0 12 ∅ "" (Some 0) (Some 0) (Some 0) imageOut None ""
    (Some 0) (Some 0)
    (Some (RequestSnapshot (mkPricingSnapshot 1 "paid" false 0 "" false (Snapshot (NewPriceTable (mkPrice 0 0 0 0) []))
       (Snapshot (NewPriceTable (mkPrice 0 0 0 0) [])) 100
       (mkRateGroups zeroUsageTokenRates zeroUsageTokenRates zeroUsageTokenRates zeroUsageTokenRates)
       10000 10000 10000 (lit "1") "fx"
       500 600 "USD" "priced" false "")))
    None [].

Lemma replay_roundtrip_witness :
  let row := demo_usage_row (Some 5) in
  exists payload, EncodeUsageReplayPayload row = Ok payload /\
    exists row', DecodeUsageReplayPayload (fun s => Some s) payload = Ok row' /\ row' <> row.
Proof.
  intros row. eexists. split; [vm_compute; reflexivity|].
  destruct (replay_roundtrip (fun s => Some s) row _ ltac:(split; [repeat constructor; done|done])
              ltac:(by intros fx [= <-]) ltac:(vm_compute; reflexivity)) as [H Hiff].
  eexists. split; [exact H|]. intros E. apply Hiff in E. discriminate.
Defined.
