(* ===== verification/Settlement.v ===== *)
(** * Settlement: the second half of [internal/gateway/proxy/pipeline.go],
    [buffered_settlement.go], [pipeline_stream.go], [images.go], [utility.go], and
    the replay worker of [internal/gateway/usage/unsettled.go]

    From an admitted request and the outcome of its execution to the durable
    accounting decision: the reservation is released, settled, or left standing
    with a record for a worker or an operator.  Database writes that may fail do so
    as the [Faults] say; the money operations are any [Settler]. *)
From S2P Require Import Prelude GoStr Rational Money PriceTable Pricing UnitPricing Surfaces Usage Stream.
From S2P Require Import Catalog Errors Classify Guard Billing Routing Rotation Ledger.

Open Scope Z_scope.

(** ** The snapshot of one call *)

Record Request := mkRequest {
  in_Surface : Surface;
  in_Stream : bool;
  in_EndUser : string;     (** [endUserOf]: the header, or the body's field *)
  in_Text : bytes;         (** the body, as far as the estimate reads it *)
}.

(** [in.Stream = b]: what each entry point does first. *)
Definition with_stream (req : Request) (b : bool) : Request :=
  mkRequest (in_Surface req) b (in_EndUser req) (in_Text req).

Record settleArgs (T : Type) := mkArgs {
  sa_id : Identity;
  sa_requestID : string;
  sa_quote : Quote;
  sa_usage : Usage;
  sa_units : Units;
  sa_estimated : bool;
  sa_model : Model;
  sa_modelPricing : ModelPricingSnapshot;
  sa_route : Route T;
  sa_in : Request;
  sa_pricing : pricingInputs;
  sa_priceTable : PriceTable;
  sa_pricingIssue : string;
  sa_httpStatus : Z;
  sa_durationMs : Z;
  sa_status : string;
  sa_ttfbMs : Z;
  sa_attempts : Z;
  sa_byok : bool;
  sa_orgProviderKeyID : uuid;
  sa_routeID : uuid;
  sa_trail : list failedHop;
  sa_providerKeyID : uuid;
  sa_holdID : uuid;
  sa_utility : bool;
}.
Arguments mkArgs {T}.
Arguments sa_id {T}.
Arguments sa_requestID {T}.
Arguments sa_quote {T}.
Arguments sa_usage {T}.
Arguments sa_units {T}.
Arguments sa_estimated {T}.
Arguments sa_model {T}.
Arguments sa_modelPricing {T}.
Arguments sa_route {T}.
Arguments sa_in {T}.
Arguments sa_pricing {T}.
Arguments sa_priceTable {T}.
Arguments sa_pricingIssue {T}.
Arguments sa_httpStatus {T}.
Arguments sa_durationMs {T}.
Arguments sa_status {T}.
Arguments sa_ttfbMs {T}.
Arguments sa_attempts {T}.
Arguments sa_byok {T}.
Arguments sa_orgProviderKeyID {T}.
Arguments sa_routeID {T}.
Arguments sa_trail {T}.
Arguments sa_providerKeyID {T}.
Arguments sa_holdID {T}.
Arguments sa_utility {T}.

Definition usagePricingSchemaVersion : Z := 1.

Definition clampInt32 (v : Z) : Z :=
  if v <? 0 then 0 else if 2 ^ 31 - 1 <? v then 2 ^ 31 - 1 else v.

Definition attemptsOrOne (n : Z) : Z := if n <? 1 then 1 else n.
Definition statusOrOK (s : string) : string := if bool_decide (s = ""%string) then "ok" else s.

Definition billedUnitsOfVector (u : Units) : option Z :=
  if bool_decide (u = ∅) then None
  else Some (clampInt32 (fold_left (fun t kv => wrap64 (t + kv.2)) (map_to_list u) 0)).

Definition billedUnitOfVector (u : Units) : string :=
  match map_to_list u with [] => ""%string | (k, _) :: _ => uk_Unit k end.

Definition billing_mode (free : bool) : string := if free then "free" else "paid".

Section snapshot.
Context {T : Type}.
Implicit Types a : settleArgs T.

Definition versionedEffectiveRates a : usageEffectiveRateGroups :=
  effectiveRateGroups (base (sa_priceTable a)) (billing_mode (IsFree (sa_modelPricing a)))
    (ModelMultiplierBps (pi_rates (sa_pricing a))) (PlanMultiplierBps (pi_rates (sa_pricing a)))
    (ProcurementMultiplierBps (ratesForRoute (sa_pricing a) (sa_route a)))
    (sa_byok a) (pi_byokFeeBps (sa_pricing a)).

Definition encodePricingSnapshot a : usagePricingSnapshot :=
  mkPricingSnapshot usagePricingSchemaVersion
    (if sa_utility a then "utility" else billing_mode (IsFree (sa_modelPricing a)))
    (sa_byok a) (if sa_byok a then pi_byokFeeBps (sa_pricing a) else 0)
    (uuidStr (pi_pricingPlanID (sa_pricing a))) (pi_planModelOverride (sa_pricing a))
    (Snapshot (sa_priceTable a)) (Snapshot (sa_priceTable a))
    (ContextTokens (BillingTokens (sa_usage a))) (versionedEffectiveRates a)
    (q_ModelMultiplierBps (sa_quote a)) (q_PlanMultiplierBps (sa_quote a))
    (q_ProcurementMultiplierBps (sa_quote a)) (q_FXRate (sa_quote a))
    (pi_fxVersion (sa_pricing a))
    (UpstreamUSDNano (sa_quote a)) (ChargedNano (sa_quote a)) (id_WalletCurrency (sa_id a))
    (if sa_utility a then "not_charged"
     else if bool_decide (sa_pricingIssue a = ""%string) then "priced" else "pricing_missing")
    (sa_utility a) (sa_pricingIssue a).
End snapshot.

Definition surface_name (s : Surface) : string :=
  match s with
  | SurfaceChat => "chat_completions" | SurfaceMessages => "messages" | SurfaceEmbeddings => "embeddings"
  | SurfaceImages => "images" | SurfaceImagesEdit => "images_edits"
  | SurfaceResponses => "responses" | SurfaceResponsesCompact => "responses_compact"
  | SurfaceResponsesResources => "responses_resources"
  | SurfaceResponsesInputTokens => "responses_input_tokens"
  | SurfaceMessagesCountTokens => "messages_count_tokens"
  | SurfaceGenerateContent => "generate_content"
  | SurfaceGeminiCountTokens => "gemini_count_tokens"
  | SurfaceGeminiEmbedContent => "gemini_embed_content"
  | SurfaceGeminiBatchEmbedContents => "gemini_batch_embed_contents"
  | SurfaceGeminiInteractions => "gemini_interactions"
  | SurfaceVideo => "video" | SurfaceOther s => s
  end%string.

Definition fixed_snapshot (v : Z) : option Z := Some (clampInt32 v).

Section recorder.
Context {T B : Type} `{Settler B}.
Variable NumericScan : bytes -> option bytes.
Implicit Types (w : World B) (f : Faults) (a : settleArgs T).

Definition usageLogParams a : UsageRow :=
  let u := sa_usage a in
  mkUsageRow (id_OrgID (sa_id a)) (id_KeyID (sa_id a)) (sa_requestID a)
    (surface_name (in_Surface (sa_in a))) (m_Slug (sa_model a))
    (r_ProviderID (sa_route a)) (sa_providerKeyID a) (sa_orgProviderKeyID a)
    (sa_byok a) (attemptsOrOne (sa_attempts a)) (in_Stream (sa_in a)) (statusOrOK (sa_status a))
    "" (sa_httpStatus a)
    (clampInt32 (us_In u)) (clampInt32 (us_Out u)) (clampInt32 (us_CachedRead u))
    (clampInt32 (us_CacheWrite u)) (clampInt32 (us_Reasoning u)) (sa_estimated a)
    (UpstreamUSDNano (sa_quote a)) (ChargedNano (sa_quote a)) (id_WalletCurrency (sa_id a))
    (numericFromString NumericScan (q_FXRate (sa_quote a))) (sa_holdID a) (in_EndUser (sa_in a))
    (sa_ttfbMs a) (sa_durationMs a)
    (us_ToolCalls u) (us_ServiceTier u)
    (fixed_snapshot (us_AudioIn u)) (fixed_snapshot (us_AudioOut u))
    (fixed_snapshot (us_ImageIn u)) (fixed_snapshot (us_ImageOut u))
    (billedUnitsOfVector (sa_units a)) (billedUnitOfVector (sa_units a))
    (fixed_snapshot (us_CacheWrite5m u)) (fixed_snapshot (us_CacheWrite1h u))
    (Some (RequestSnapshot (encodePricingSnapshot a))) (sa_routeID a) (sa_trail a).

(** ** The recorder's operations *)

Definition with_billing w (b : B) : World B :=
  mkWorld b (w_usage w) (w_unsettled w) (w_pricing w).
Definition add_usage w (row : UsageRow) : World B :=
  mkWorld (w_billing w) (w_usage w ++ [row]) (w_unsettled w) (w_pricing w).
Definition with_unsettled w (rows : list UnsettledRow) : World B :=
  mkWorld (w_billing w) (w_usage w) rows (w_pricing w).
Definition with_pricing w (rows : list PricingRow) : World B :=
  mkWorld (w_billing w) (w_usage w) (w_unsettled w) rows.

(** The settlement transaction: the money and the row, or neither. *)
Definition settle_tx f w (i : SettleInput) (row : UsageRow) : result settle_error (World B) :=
  match SettleTx (w_billing w) i with
  | Err e => Err e
  | Ok b => if f_tx f then Err (OtherError "usage row not written")
            else Ok (add_usage (with_billing w b) row)
  end.

Definition settle_input a : SettleInput :=
  mkSettle (id_OrgID (sa_id a)) (sa_requestID a) (ChargedNano (sa_quote a)) (id_KeyID (sa_id a)).

Definition SettleAndLog f w a : result settle_error (World B) :=
  settle_tx f w (settle_input a) (usageLogParams a).

Definition settle_reason (e : settle_error) : string :=
  match e with CodeError c => c | OtherError m => m end.

Definition RecordUnsettled f w (requestID : string) (id : Identity) (quote : Quote)
    (params : UsageRow) (cause : string) : World B :=
  match EncodeUsageReplayPayload params with
  | Err _ => w
  | Ok payload =>
      if f_unsettled f then w
      else with_unsettled w (upsert_unsettled
             (mkUnsettled requestID (id_OrgID id) (ChargedNano quote) (id_WalletCurrency id) cause
                0 payload false false) (w_unsettled w))
  end.

Definition RecordPricingMissing f w (requestID : string) (id : Identity) (reservedNano : Z)
    (params : UsageRow) (cause : string) : World B :=
  match EncodeUsageReplayPayload params with
  | Err _ => w
  | Ok payload =>
      match ProtectHold (w_billing w) (id_OrgID id) requestID with
      | (Err _, b) => with_billing w b
      | (Ok false, b) => with_billing w b
      | (Ok true, b) =>
          if f_pricing f then with_billing w b
          else with_pricing (with_billing w b) (upsert_pricing
                 (mkPricing requestID (id_OrgID id) reservedNano (id_WalletCurrency id) cause 0
                    payload) (w_pricing w))
      end
  end.

Definition VoidHold w (orgID : uuid) (requestID : string) : World B :=
  with_billing w (Void (w_billing w) orgID requestID).2.

Definition failureStatus (code : string) : string :=
  if bool_decide (code = GatewayUpstreamTimeout) || bool_decide (code = GatewayAllProvidersFailed)
     || bool_decide (code = GatewayInternal)
  then "upstream_error" else "client_error".

Definition failure_row (id : Identity) (req : Request) (modelSlug : string)
    (route : option (Route T)) (rot : rotationResult T) (requestID : string) (err : Error)
    (durationMs : Z) : UsageRow :=
  mkUsageRow (id_OrgID id) (id_KeyID id) requestID (surface_name (in_Surface req)) modelSlug
    (match route with Some r => r_ProviderID r | None => None end) (rr_keyID rot) None
    false (rr_attempts rot) false (failureStatus (Code err)) (Code err)
    (statusOf (Code err))
    0 0 0 0 0 false 0 0 (id_WalletCurrency id) None None (in_EndUser req) 0 durationMs
    ∅ "" None None None None None "" None None None
    (match rr_route rot with Some r => r_ID r | None => None end) (rr_trail rot).

Definition logFailure f w (id : Identity) (req : Request) (modelSlug : string)
    (route : option (Route T)) (rot : rotationResult T) (requestID : string) (err : Error)
    (durationMs : Z) : World B :=
  if f_insert f then w
  else add_usage w (failure_row id req modelSlug route rot requestID err durationMs).

Definition zero_rotation : rotationResult T := zero_res.

(** A refusal before any upstream was tried; without an organization there is no
    row to write. *)
Definition RecordRejection f w (id : Identity) (modelSlug : string) (req : Request)
    (requestID : string) (err : Error) (durationMs : Z) : World B :=
  match id_OrgID id with
  | None => w
  | Some _ => logFailure f w id req modelSlug None zero_rotation requestID err durationMs
  end.


Definition mapHoldError (e : settle_error) : Error :=
  match e with
  | CodeError code =>
      if bool_decide (code = "common.insufficient_credits"%string)
      then NewError GatewayInsufficientCredits "Insufficient credits"
      else if bool_decide (code = "common.org_suspended"%string)
      then NewError GatewayOrgSuspended "Organization is suspended"
      else if bool_decide (code = "common.not_found"%string)
      then NewError GatewayOrgSuspended "Organization is unavailable"
      else NewError GatewayInternal "Billing failed"
  | OtherError _ => NewError GatewayInternal "Billing failed"
  end.

Definition ReserveFor w (id : Identity) (requestID : string) (amountNano ttl : Z) :
    result Error uuid * World B :=
  match Hold (w_billing w) (mkHold (id_OrgID id) requestID amountNano ttl) with
  | (Err e, b) => (Err (mapHoldError e), with_billing w b)
  | (Ok holdID, b) => (Ok holdID, with_billing w b)
  end.

Definition RecordExecutionFailure f w (prep : prepared T) (req : Request) (requestID : string)
    (rot : rotationResult T) (err : Error) (durationMs : Z) : World B :=
  logFailure f (VoidHold w (id_OrgID (pr_id prep)) requestID) (pr_id prep) req (pr_modelSlug prep)
    (rr_route rot) rot requestID err durationMs.
End recorder.

(** ** A served request *)

(** What an upstream answered, as decoded. *)
Record Response := mkResponse {
  rs_usage : Body;
  rs_text : TextBody;
  rs_images : option Z;     (** [imagesInResponse] *)
}.

Record upstreamResult := mkUpstream {
  ur_status : Z;
  ur_body : Response;
  ur_keyID : uuid;
  ur_attempts : Z;
  ur_byok : bool;
  ur_byokKeyID : uuid;
}.

Definition sharedKeyIfUsed (usedBYOK : bool) (keyID : uuid) : uuid :=
  if usedBYOK then None else keyID.
Definition byokKeyOf (res : upstreamResult) : uuid := ur_byokKeyID res.
Definition sharedKeyOf (res : upstreamResult) : uuid := sharedKeyIfUsed (ur_byok res) (ur_keyID res).

(** The reply, with the figures [AnnotateUsage] hangs on it: whether the usage was
    estimated, the charge, the currency. *)
Record Reply := mkReply { rep_Status : Z; rep_Estimated : bool; rep_Cost : Z; rep_Currency : string }.

(** [errors.Is(err, catalog.ErrAdvancedPriceMissing)]. *)
Definition price_missing (e : price_error) : bool :=
  match e with ErrAdvancedPriceMissing _ => true | _ => false end.

Definition missing_issue (e : option price_error) : string :=
  match e with
  | Some (ErrAdvancedPriceMissing tool) =>
      ("catalog: an advanced billing dimension has no price: tool " ++ tool)%string
  | _ => ""%string
  end.

Section complete.
Context {T B : Type} `{Settler B}.
Variable NumericScan : bytes -> option bytes.
Implicit Types (w : World B) (f : Faults) (prep : prepared T) (route : Route T).
Implicit Types (req : Request) (rot : rotationResult T) (up : upstreamResult).

(** The quote a token-billed answer is settled at, and the pricing error behind a
    fallback. *)
Definition settlement_quote prep route surface (usage : Usage) (estimated usedBYOK : bool) :
    Quote * option price_error :=
  let rates := ratesForRoute (pr_pricing prep) route in
  if holdIsTheBill surface estimated then (fallbackQuote (pr_estNano prep) rates, None)
  else match quoteFor (ForBilling (pr_priceTable prep) (prep_free prep)) (pr_priceTable prep)
               (BillingTokens usage) usedBYOK rates (pi_byokFeeBps (pr_pricing prep)) with
       | Ok q => (q, None)
       | Err e => (fallbackQuote (pr_estNano prep) rates, Some e)
       end.

(** The last step every token-billed path shares: a missing price is kept for an
    operator, anything else is settled, or queued for the worker. *)
Definition settle_or_queue f w (a : settleArgs T) (reserved : Z) (pricingErr : option price_error) :
    World B :=
  match pricingErr with
  | Some (ErrAdvancedPriceMissing _) =>
      RecordPricingMissing f w (sa_requestID a) (sa_id a) reserved (usageLogParams NumericScan a)
        (missing_issue pricingErr)
  | _ =>
      match SettleAndLog NumericScan f w a with
      | Ok w' => w'
      | Err e => RecordUnsettled f w (sa_requestID a) (sa_id a) (sa_quote a)
                   (usageLogParams NumericScan a) (settle_reason e)
      end
  end.

Definition buffered_args prep req requestID up route rot (quote : Quote) (usage : Usage)
    (units : Units) (estimated : bool) (issue : string) (holdID : uuid) (durationMs : Z) :
    settleArgs T :=
  mkArgs (pr_id prep) requestID quote usage units estimated (res_Model (pr_res prep))
    unpriced_snapshot route req (pr_pricing prep) (pr_priceTable prep) issue
    (ur_status up) durationMs "" 0 (ur_attempts up) (ur_byok up) (byokKeyOf up)
    (match rr_route rot with Some r => r_ID r | None => None end) (rr_trail rot)
    (sharedKeyOf up) holdID false.

Definition completeBufferedUnits f w prep req requestID up route rot (holdID : uuid)
    (durationMs : Z) : result Error Reply * World B :=
  let units := settledUnits prep (in_Surface req) (rs_images (ur_body up)) in
  let '(quote, gerr) := quoteOrRefuse (unitCharge prep route (ur_byok up) units) in
  let usage := mkUsage 0 0 0 0 0 0 0 0 0 0 0 "" ∅ true in
  let a := buffered_args prep req requestID up route rot quote usage units false "" holdID
             durationMs in
  match gerr with
  | Some e =>
      (Err e, RecordUnsettled f w requestID (pr_id prep) zero_quote (usageLogParams NumericScan a)
                "pricing a unit-billed request failed after it was served")
  | None =>
      (Ok (mkReply (ur_status up) false (ChargedNano quote) (id_WalletCurrency (pr_id prep))),
       match SettleAndLog NumericScan f w a with
       | Ok w' => w'
       | Err e => RecordUnsettled f w requestID (pr_id prep) quote (usageLogParams NumericScan a)
                    (settle_reason e)
       end)
  end.

(** The usage an answer is billed on, and whether it is an estimate. *)
Definition billed_usage prep (surface : Surface) (body : Response) : Usage * bool :=
  let usage := ParseUsage surface (rs_usage body) in
  if us_Present usage then (usage, false)
  else (estimated_usage (pr_inputTokens prep) (ResponseTextOf surface (rs_text body)) usage, true).

Definition CompleteBuffered f w prep req requestID up route rot (holdID : uuid) (durationMs : Z) :
    result Error Reply * World B :=
  if unitBilled prep then completeBufferedUnits f w prep req requestID up route rot holdID durationMs
  else
    let '(usage, estimated) := billed_usage prep (in_Surface req) (ur_body up) in
    let '(quote, pricingErr) :=
      settlement_quote prep route (in_Surface req) usage estimated (ur_byok up) in
    let a := buffered_args prep req requestID up route rot quote usage ∅ estimated
               (missing_issue pricingErr) holdID durationMs in
    (Ok (mkReply (ur_status up) estimated (ChargedNano quote) (id_WalletCurrency (pr_id prep))),
     settle_or_queue f w a (pr_estNano prep) pricingErr).

(** [Execute]: what the rotation leaves of the last attempt's result. *)
Definition Execute_result (got : upstreamResult) rot : upstreamResult :=
  match rr_err rot with
  | None => mkUpstream (ur_status got) (ur_body got) (ur_keyID got) (rr_attempts rot)
              (ur_byok got) (ur_byokKeyID got)
  | Some _ => mkUpstream 0 (mkResponse empty_body (mkTextBody None None None None) None)
                (rr_keyID rot) (rr_attempts rot) false None
  end.

(** [Run], from the outcome of the admission ([Prepare], then [pinAffinity]) - the
    identity and model known by then, and the prepared request or the refusal - and
    of the execution. *)
Definition Run f w req requestID (id : Identity) (modelSlug : string)
    (admitted : result Error (prepared T)) (got : upstreamResult) rot (durationMs : Z) :
    result Error Reply * World B :=
  let req := with_stream req false in
  match admitted with
  | Err e => (Err e, RecordRejection (T := T) f w id modelSlug req requestID e durationMs)
  | Ok prep =>
      match ReserveFor w (pr_id prep) requestID (pr_estNano prep) (holdTTLFor (in_Surface req)) with
      | (Err e, w1) => (Err e, w1)
      | (Ok holdID, w1) =>
          match rr_err rot, rr_route rot with
          | None, Some route =>
              CompleteBuffered f w1 prep req requestID (Execute_result got rot) route rot holdID
                durationMs
          | Some e, _ =>
              (Err e, RecordExecutionFailure f w1 prep req requestID rot e durationMs)
          | None, None =>
              (** a rotation without an error has a route: [Rotation.rotation_contract] *)
              (Err (NewError GatewayInternal "Request was cancelled"), w1)
          end
      end
  end.

(** ** The streaming path: [RunStream] after the rotation *)

Definition streamStatus (o : StreamOutcome) : string :=
  if so_Canceled o then "canceled" else if so_Interrupted o then "upstream_error" else "ok".

(** The pricing failure of a streamed request: a unit-billed one cannot be counted,
    a token-billed one may lack a price. *)
Inductive stream_error := ErrUncounted | ErrStreamPrice (e : price_error).

Definition stream_usage prep (o : StreamOutcome) : Usage * bool :=
  if us_Present (so_Usage o) then (so_Usage o, false)
  else (estimated_usage (pr_inputTokens prep) (so_Text o) (so_Usage o), true).

Definition stream_quote prep route surface (o : StreamOutcome) (usedBYOK : bool) :
    Usage * bool * Quote * option stream_error :=
  if unitBilled prep then
    (mkUsage 0 0 0 0 0 0 0 0 0 0 0 "" ∅ true, false, zero_quote, Some ErrUncounted)
  else
    let '(usage, estimated) := stream_usage prep o in
    let '(quote, e) := settlement_quote prep route surface usage estimated usedBYOK in
    (usage, estimated, quote, ErrStreamPrice <$> e).

Definition stream_args prep req requestID route rot (o : StreamOutcome) (byokKeyID keyID : uuid)
    (quote : Quote) (usage : Usage) (estimated : bool) (issue : string) (holdID : uuid)
    (durationMs ttfbMs : Z) : settleArgs T :=
  mkArgs (pr_id prep) requestID quote usage (pr_units prep) estimated (res_Model (pr_res prep))
    unpriced_snapshot route req (pr_pricing prep) (pr_priceTable prep) issue
    200 durationMs (streamStatus o) ttfbMs (rr_attempts rot)
    (bool_decide (is_Some byokKeyID)) byokKeyID
    (match rr_route rot with Some r => r_ID r | None => None end) (rr_trail rot)
    (sharedKeyIfUsed (bool_decide (is_Some byokKeyID)) keyID) holdID false.

(** [outcome] is the zero [StreamOutcome] when no attempt produced one. *)
Definition RunStream f w req requestID (id : Identity) (modelSlug : string)
    (admitted : result Error (prepared T)) (o : StreamOutcome) rot
    (byokKeyID keyID : uuid) (durationMs ttfbMs : Z) : option Error * World B :=
  let req := with_stream req true in
  match admitted with
  | Err e => (Some e, RecordRejection (T := T) f w id modelSlug req requestID e durationMs)
  | Ok prep =>
      match ReserveFor w (pr_id prep) requestID (pr_estNano prep) (holdTTLFor (in_Surface req)) with
      | (Err e, w1) => (Some e, w1)
      | (Ok holdID, w1) =>
          match so_FirstByteSent o, rr_route rot with
          | true, Some route =>
              let '(usage, estimated, quote, err) :=
                stream_quote prep route (in_Surface req) o (bool_decide (is_Some byokKeyID)) in
              let args issue quote := stream_args prep req requestID route rot o byokKeyID keyID
                                        quote usage estimated issue holdID durationMs ttfbMs in
              (None,
               match err with
               | Some ErrUncounted =>
                   RecordUnsettled f w1 requestID (pr_id prep) zero_quote
                     (usageLogParams NumericScan (args "" zero_quote))
                     "a unit-billed request reached the streaming path, where the number of units it produced cannot be counted"
               | Some (ErrStreamPrice e) =>
                   settle_or_queue f w1 (args (missing_issue (Some e)) quote) (pr_estNano prep)
                     (Some e)
               | None => settle_or_queue f w1 (args "" quote) (pr_estNano prep) None
               end)
          | _, _ =>
              let e := default (NewError GatewayUpstreamTimeout "Upstream returned nothing")
                         (rr_err rot) in
              (Some e, RecordExecutionFailure f w1 prep req requestID rot e durationMs)
          end
      end
  end.

(** ** Utility operations: [RunUtility], no reservation and no charge *)

Definition RunUtility f w req requestID (id : Identity) (modelSlug : string)
    (admitted : result Error (prepared T)) (got : upstreamResult) rot (usage : Usage)
    (durationMs : Z) : result Error Reply * World B :=
  let req := with_stream req false in
  match admitted with
  | Err e => (Err e, RecordRejection (T := T) f w id modelSlug req requestID e durationMs)
  | Ok prep =>
      match rr_err rot, rr_route rot with
      | None, Some route =>
          let up := Execute_result got rot in
          let a := mkArgs (pr_id prep) requestID zero_quote usage ∅ false
                     (res_Model (pr_res prep)) unpriced_snapshot route req (pr_pricing prep)
                     (pr_priceTable prep) "" (ur_status up) durationMs "" 0 (ur_attempts up)
                     (ur_byok up) (byokKeyOf up) (r_ID route) (rr_trail rot) (sharedKeyOf up) None
                     true in
          if f_insert f
          then (Err (NewError GatewayInternal "Audit recording failed"), w)
          else (Ok (mkReply (ur_status up) false 0 (id_WalletCurrency (pr_id prep))),
                add_usage w (usageLogParams NumericScan a))
      | Some e, _ =>
          (Err e, logFailure f w (pr_id prep) req (pr_modelSlug prep) (rr_route rot) rot requestID e
                    durationMs)
      | None, None => (Err (NewError GatewayInternal "Request was cancelled"), w)
      end
  end.

(** ** Image edits: [settleImage] *)

Definition image_args prep req requestID route (status : Z) (byok : bool)
    (byokKeyID providerKeyID holdID : uuid) (quote : Quote) (usage : Usage) (units : Units)
    (estimated : bool) (issue : string) (durationMs : Z) : settleArgs T :=
  mkArgs (pr_id prep) requestID quote usage units estimated (res_Model (pr_res prep))
    unpriced_snapshot route req (pr_pricing prep) (pr_priceTable prep) issue
    status durationMs "" 0 1 byok byokKeyID None [] providerKeyID holdID false.

Definition settleImageAt f w prep req requestID route (status : Z) (byok : bool)
    (byokKeyID providerKeyID holdID : uuid) (quote : Quote) (usage : Usage) (estimated : bool)
    (pricingErr : option price_error) (units : Units) (durationMs : Z) :
    result Error Reply * World B :=
  let a := image_args prep req requestID route status byok byokKeyID providerKeyID holdID quote
             usage units estimated (missing_issue pricingErr) durationMs in
  (Ok (mkReply status estimated (ChargedNano quote) (id_WalletCurrency (pr_id prep))),
   settle_or_queue f w a (pr_estNano prep) pricingErr).

Definition settleImage f w prep req requestID route (status : Z) (body : Response) (byok : bool)
    (byokKeyID providerKeyID holdID : uuid) (durationMs : Z) : result Error Reply * World B :=
  if unitBilled prep then
    let units := settledUnits prep (in_Surface req) (rs_images body) in
    let '(quote, gerr) := quoteOrRefuse (unitCharge prep route byok units) in
    match gerr with
    | Some e =>
        (Err e, RecordUnsettled f w requestID (pr_id prep) zero_quote
           (usageLogParams NumericScan (mkArgs (pr_id prep) requestID zero_quote no_usage units
              false (res_Model (pr_res prep)) unpriced_snapshot route req (pr_pricing prep)
              (pr_priceTable prep) "" status 0 "" 0 0 false None None [] None holdID false))
           "pricing a per-image request failed after it was served")
    | None =>
        settleImageAt f w prep req requestID route status byok byokKeyID providerKeyID holdID quote
          (mkUsage 0 0 0 0 0 0 0 0 0 0 0 "" ∅ true) false None units durationMs
    end
  else
    let usage := ParseImageUsage (b_image (rs_usage body)) in
    let rates := ratesForRoute (pr_pricing prep) route in
    if us_Present usage then
      let '(quote, e) :=
        match quoteFor (ForBilling (pr_priceTable prep) (prep_free prep)) (pr_priceTable prep)
                (BillingTokens usage) byok rates (pi_byokFeeBps (pr_pricing prep)) with
        | Ok q => (q, None)
        | Err e => (fallbackQuote (pr_estNano prep) rates, Some e)
        end in
      settleImageAt f w prep req requestID route status byok byokKeyID providerKeyID holdID quote
        usage false e (pr_units prep) durationMs
    else
      settleImageAt f w prep req requestID route status byok byokKeyID providerKeyID holdID
        (fallbackQuote (pr_estNano prep) rates)
        (mkUsage (pr_inputTokens prep) 0 0 0 0 0 0 0 0 0 0 "" ∅ false) true None
        (pr_units prep) durationMs.
End complete.

(** ** The replay worker *)

Definition unsettledBatch : nat := 50.
Definition unsettledMaxAttempts : Z := 8.

Inductive retryOutcome := outcomeRetryLater | outcomeResolved | outcomeAbandoned.

Section worker.
Context {B : Type} `{Settler B}.
Variable NumericScan : bytes -> option bytes.
Implicit Types (w : World B) (f : Faults) (r : UnsettledRow).

Definition pending r : bool := negb (un_Resolved r) && negb (un_Abandoned r).

(** [ListUnsettledPending]. *)
Definition ListUnsettledPending w : list UnsettledRow :=
  take unsettledBatch (List.filter pending (w_unsettled w)).

Definition abandon f w r (reason : string) : World B :=
  if f_abandon f then w
  else with_unsettled w (update_row (un_RequestID r) (mark_abandoned reason) (w_unsettled w)).

Definition retry f w r : retryOutcome * World B :=
  match DecodeUsageReplayPayload NumericScan (un_Payload r) with
  | Err e => (outcomeAbandoned, abandon f w r ("payload decode failed: " ++ e))
  | Ok params =>
      match settle_tx f w (mkSettle (un_OrgID r) (un_RequestID r) (un_ChargedNano r)
                             (ul_ApiKeyID params)) params with
      | Ok w' =>
          (outcomeResolved,
           if f_mark f then w'
           else with_unsettled w' (update_row (un_RequestID r) mark_resolved (w_unsettled w')))
      | Err e =>
          if unsettledMaxAttempts <=? un_Attempts r + 1
          then (outcomeAbandoned, abandon f w r (settle_reason e))
          else (outcomeRetryLater,
                if f_bump f then w
                else with_unsettled w (update_row (un_RequestID r) (bump (settle_reason e))
                                         (w_unsettled w)))
      end
  end.

(** One round; the rows are those listed when it starts. *)
Fixpoint retry_all (fs : nat -> Faults) (i : nat) w (rows : list UnsettledRow) : World B :=
  match rows with
  | [] => w
  | r :: rows' => retry_all fs (S i) (retry (fs i) w r).2 rows'
  end.

Definition Work (fs : nat -> Faults) w : World B := retry_all fs 0 w (ListUnsettledPending w).
End worker.

(** ** A concrete deployment *)

Definition demo_settle_id : Identity :=
  mkIdentity (Some "key-1"%string) (Some "org-1"%string) (Some "t1"%string) "active" true [] 0 ""
    0 0 0 0 0 "USD" ["inference"%string] "" None.
Definition demo_settle_price : Price := mkPrice 3000000000 15000000000 300000000 0.
Definition demo_settle_pricing : pricingInputs :=
  mkPricingInputs (mkRates 12000 10000 10000 (lit "1")) 500 (Some "plan-1"%string) false "sha256:1".
Definition demo_snapshot (mode : string) (fam : BillingFamily) : ModelPricingSnapshot :=
  mkSnapshot true mode fam demo_settle_price 12000 None.
Definition demo_image_key : UnitKey := mkUnitKey UnitImage "1024x1024" "" "" "".
Definition demo_image_card (rate : Z) : UnitPriceTable :=
  NewUnitPriceTable [mkUnitRow UnitImage "" "" "" "" rate].

Definition demo_prepared (mode : string) (fam : BillingFamily) (card : UnitPriceTable) (units : Units) :
    prepared nat :=
  mkPrepared demo_settle_id "demo" (mkResolution demo_model (demo_snapshot mode fam) [demo_route "a" 1 1])
    demo_settle_pricing 1000 50000000 (NewPriceTable demo_settle_price []) card units.

(** A decimal text scans to itself. *)
Definition demo_scan (s : bytes) : option bytes :=
  if plainDecimalRE s then Some s else None.

Definition demo_fake : Fake := mkFake None None None false (Some "hold-1"%string) [] [] [] [].
Definition demo_world {B} (b : B) : World B := mkWorld b [] [] [].

Definition demo_response (w : option openAIUsage) (images : option Z) : Response :=
  mkResponse (mkBody None None None None None None (Some (w, ""%string, ∅)))
    (mkTextBody None None None (Some [lit "the answer"])) images.
Definition demo_upstream (body : Response) : upstreamResult :=
  mkUpstream 200 body (Some "pk-1"%string) 1 false None.
Definition demo_rotation (err : option Error) : rotationResult nat :=
  mkRes (Some (demo_route "a" 1 1)) (Some "pk-1"%string) false 1 [] err.
Definition demo_request (s : Surface) : Request := mkRequest s false "" (lit "hello").

Definition demo_run {B} `{Settler B} (b : B) (mode : string) (w : option openAIUsage) :=
  Run demo_scan no_faults (demo_world b) (demo_request SurfaceChat) "req-1" demo_settle_id "demo"
    (Ok (demo_prepared mode FamilyTokens (demo_image_card 0) ∅))
    (demo_upstream (demo_response w None)) (demo_rotation None) 12.

Example served_request :
  let '(reply, w) := demo_run demo_fake "paid" (Some (mkOpenAIUsage 1000 None 200 None)) in
  reply = Ok (mkReply 200 false 7200000 "USD") /\
  fk_Holds (w_billing w) = [mkHold (Some "org-1"%string) "req-1" 50000000 0] /\
  fk_Settles (w_billing w) = [mkSettle (Some "org-1"%string) "req-1" 7200000 (Some "key-1"%string)] /\
  fk_Voids (w_billing w) = [] /\
  map ul_ChargedNano (w_usage w) = [7200000] /\ w_unsettled w = [].
Proof. vm_compute. split_and!; reflexivity. Qed.


(** ** Properties: the books *)

(** What the usage log says a key was charged. *)
Definition charged_to (k : string) (rows : list UsageRow) : Z :=
  fold_right (fun row acc => (if bool_decide (ul_ApiKeyID row = Some k)
                              then Z.max 0 (ul_ChargedNano row) else 0) + acc) 0 rows.

Lemma charged_to_app k l1 l2 : charged_to k (l1 ++ l2) = charged_to k l1 + charged_to k l2.
Proof. unfold charged_to. induction l1 as [|r l1 IH]; cbn [app fold_right]; lia. Qed.

Lemma decode_encode_charged scan p payload p' :
  EncodeUsageReplayPayload p = Ok payload -> DecodeUsageReplayPayload scan payload = Ok p' ->
  ul_ChargedNano p' = ul_ChargedNano p.
Proof.
  intros (fx & _ & -> & Hv & _)%encode_ok. unfold DecodeUsageReplayPayload.
  cbn [negb Z.eqb Pos.eqb usageReplayVersion]. rewrite Hv. cbn [rbind]. unfold replay_params.
  intros H. repeat (apply rbind_ok in H as (? & _ & H)). by injection H as <-.
Qed.

Section books.
Context {T B : Type} `{SettlerLaws B}.
Variable NumericScan : bytes -> option bytes.
Implicit Types (w : World B) (f : Faults) (prep : prepared T) (route : Route T).
Implicit Types (req : Request) (rot : rotationResult T) (up : upstreamResult) (a : settleArgs T).

(** What a key was settled for, beyond what the log says it was charged. *)
Definition books w (k : string) : Z := spent (w_billing w) k - charged_to k (w_usage w).

(** A queued row settles the charge its payload will log. *)
Definition queued_right (r : UnsettledRow) : Prop :=
  forall p, DecodeUsageReplayPayload NumericScan (un_Payload r) = Ok p ->
    ul_ChargedNano p = un_ChargedNano r.
Definition queue_ok w : Prop := Forall queued_right (w_unsettled w).

(** Nothing moved: not a nano, not a row that charges. *)
Definition steady w w' : Prop := queue_ok w -> queue_ok w' /\ forall k, books w' k = books w k.

Lemma steady_refl w : steady w w.
Proof using. by intros Hq. Qed.

Lemma steady_trans w1 w2 w3 : steady w1 w2 -> steady w2 w3 -> steady w1 w3.
Proof using.
  intros H1 H2 Hq. destruct (H1 Hq) as [Hq2 E1]. destruct (H2 Hq2) as [Hq3 E2].
  split; [done|]. intros k. by rewrite E2, E1.
Qed.

Lemma steady_billing w b : (forall k, spent b k = spent (w_billing w) k) -> steady w (with_billing w b).
Proof using.
  intros Hb Hq. split; [done|]. intros k. unfold books. cbn [w_billing w_usage with_billing].
  by rewrite Hb.
Qed.

Lemma steady_pricing w rows : steady w (with_pricing w rows).
Proof using. by intros Hq. Qed.

Lemma steady_queue w rows : (queue_ok w -> Forall queued_right rows) -> steady w (with_unsettled w rows).
Proof using. intros Hr Hq. split; [by apply Hr|done]. Qed.

Lemma steady_settle f w i row w' :
  settle_tx f w i row = Ok w' -> ul_ApiKeyID row = si_APIKeyID i ->
  ul_ChargedNano row = si_ActualNano i -> steady w w'.
Proof using.
  unfold settle_tx. destruct (SettleTx (w_billing w) i) as [b|] eqn:E; [|done].
  destruct (f_tx f); [done|]. intros [= <-] Hk Hc Hq. split; [done|]. intros k.
  unfold books. cbn [w_billing w_usage with_billing add_usage].
  rewrite (settle_spent _ _ _ k E), charged_to_app. cbn [charged_to fold_right]. rewrite Hk, Hc. lia.
Qed.

Lemma steady_free_row w row : ul_ChargedNano row <= 0 -> steady w (add_usage w row).
Proof using.
  intros Hc Hq. split; [done|]. intros k. unfold books. cbn [w_billing w_usage add_usage].
  rewrite charged_to_app. cbn [charged_to fold_right]. destruct (bool_decide _); lia.
Qed.

Lemma queued_right_update id g rows :
  (forall r, queued_right r -> queued_right (g r)) ->
  Forall queued_right rows -> Forall queued_right (update_row id g rows).
Proof using.
  intros Hg Hr. unfold update_row. induction Hr as [|r rows Hr _ IH]; [constructor|].
  cbn [map]. constructor; [|exact IH]. destruct (bool_decide _); auto.
Qed.

Lemma steady_unsettled f w requestID id quote params cause :
  ul_ChargedNano params = ChargedNano quote ->
  steady w (RecordUnsettled f w requestID id quote params cause).
Proof using.
  intros Hc. unfold RecordUnsettled. destruct (EncodeUsageReplayPayload params) as [payload|] eqn:E;
    [|apply steady_refl].
  destruct (f_unsettled f); [apply steady_refl|]. apply steady_queue. intros Hq.
  unfold upsert_unsettled. destruct (existsb _ _).
  - by apply queued_right_update.
  - apply Forall_app. split; [exact Hq|]. constructor; [|constructor].
    intros p Hp. cbn [un_Payload un_ChargedNano] in *. rewrite <- Hc.
    by eapply decode_encode_charged.
Qed.

Lemma steady_missing f w requestID id reserved params cause :
  steady w (RecordPricingMissing f w requestID id reserved params cause).
Proof using.
  unfold RecordPricingMissing. destruct (EncodeUsageReplayPayload params); [|apply steady_refl].
  destruct (ProtectHold (w_billing w) (id_OrgID id) requestID) as [r b] eqn:E.
  assert (Hb : steady w (with_billing w b)).
  { apply steady_billing. intros k.
    by rewrite <- (protect_spent (w_billing w) (id_OrgID id) requestID k), E. }
  destruct r as [[|]|]; try exact Hb. destruct (f_pricing f); [exact Hb|].
  eapply steady_trans; [exact Hb|apply steady_pricing].
Qed.

Lemma steady_hold w id requestID amount ttl : steady w (ReserveFor w id requestID amount ttl).2.
Proof using.
  unfold ReserveFor. destruct (Hold _ _) as [r b] eqn:E.
  assert (Hb : steady w (with_billing w b)).
  { apply steady_billing. intros k. rewrite <- (hold_spent (w_billing w) (mkHold (id_OrgID id) requestID amount ttl) k).
    by rewrite E. }
  by destruct r.
Qed.

Lemma steady_void w org requestID : steady w (VoidHold w org requestID).
Proof using. apply steady_billing. intros k. apply void_spent. Qed.

Lemma steady_failure f w id req slug (route : option (Route T)) rot requestID err ms :
  steady w (logFailure f w id req slug route rot requestID err ms).
Proof using. unfold logFailure. destruct (f_insert f); [apply steady_refl|by apply steady_free_row]. Qed.

Lemma steady_rejection f w id slug req requestID err ms :
  steady w (RecordRejection (T := T) f w id slug req requestID err ms).
Proof using. unfold RecordRejection. destruct (id_OrgID id); [apply steady_failure|apply steady_refl]. Qed.

Lemma steady_execution f w prep req requestID rot err ms :
  steady w (RecordExecutionFailure f w prep req requestID rot err ms).
Proof using. eapply steady_trans; [apply steady_void|apply steady_failure]. Qed.

(** Settling the arguments of a call, or queueing them. *)
Lemma steady_settle_or f w a cause :
  steady w match SettleAndLog NumericScan f w a with
           | Ok w' => w'
           | Err e => RecordUnsettled f w (sa_requestID a) (sa_id a) (sa_quote a)
                        (usageLogParams NumericScan a) (cause e)
           end.
Proof using.
  unfold SettleAndLog. destruct (settle_tx _ _ _ _) as [w'|e] eqn:E.
  - by eapply steady_settle.
  - by apply steady_unsettled.
Qed.

Lemma steady_settle_or_queue f w a reserved e : steady w (settle_or_queue NumericScan f w a reserved e).
Proof using.
  unfold settle_or_queue. destruct e as [[]|]; try apply steady_settle_or. apply steady_missing.
Qed.

(** ** The gateway as a state machine *)

Lemma quoteOrRefuse_zero q quote e : quoteOrRefuse q = (quote, Some e) -> quote = zero_quote.
Proof using. unfold quoteOrRefuse. destruct q as [q|[]]; congruence. Qed.

Lemma steady_complete f w prep req requestID up route rot holdID ms :
  steady w (CompleteBuffered NumericScan f w prep req requestID up route rot holdID ms).2.
Proof using.
  unfold CompleteBuffered. destruct (unitBilled prep).
  - unfold completeBufferedUnits. destruct (quoteOrRefuse _) as [quote [e|]] eqn:E; cbn [snd].
    + apply quoteOrRefuse_zero in E as ->. by apply steady_unsettled.
    + apply steady_settle_or.
  - destruct (billed_usage _ _ _) as [usage estimated].
    destruct (settlement_quote _ _ _ _ _ _) as [quote e]. cbn [snd]. apply steady_settle_or_queue.
Qed.

Lemma steady_run f w req requestID id slug admitted got rot ms :
  steady w (Run NumericScan f w req requestID id slug admitted got rot ms).2.
Proof using.
  unfold Run. destruct admitted as [prep|e]; [|apply steady_rejection].
  pose proof (steady_hold w (pr_id prep) requestID (pr_estNano prep) (holdTTLFor (in_Surface req)))
    as Hh.
  destruct (ReserveFor _ _ _ _ _) as [[holdID|e] w1]; [|exact Hh]. cbn [snd] in Hh.
  eapply steady_trans; [exact Hh|].
  destruct (rr_err rot) as [e|]; [apply steady_execution|].
  destruct (rr_route rot) as [route|]; [apply steady_complete|apply steady_refl].
Qed.

Lemma steady_stream f w req requestID id slug admitted o rot byokKeyID keyID ms ttfb :
  steady w (RunStream (T := T) NumericScan f w req requestID id slug admitted o rot byokKeyID keyID
              ms ttfb).2.
Proof using.
  unfold RunStream. destruct admitted as [prep|e]; [|apply steady_rejection].
  pose proof (steady_hold w (pr_id prep) requestID (pr_estNano prep) (holdTTLFor (in_Surface req)))
    as Hh.
  destruct (ReserveFor _ _ _ _ _) as [[holdID|e] w1]; [|exact Hh]. cbn [snd] in Hh.
  eapply steady_trans; [exact Hh|].
  destruct (so_FirstByteSent o), (rr_route rot) as [route|]; try apply steady_execution.
  destruct (stream_quote _ _ _ _ _) as [[[usage estimated] quote] e]. cbn [snd].
  destruct e as [[|e]|]; [by apply steady_unsettled|apply steady_settle_or_queue..].
Qed.

Lemma steady_utility f w req requestID id slug admitted got rot usage ms :
  steady w (RunUtility (T := T) NumericScan f w req requestID id slug admitted got rot usage ms).2.
Proof using.
  unfold RunUtility. destruct admitted as [prep|e]; [|apply steady_rejection].
  destruct (rr_err rot) as [e|]; [apply steady_failure|].
  destruct (rr_route rot) as [route|]; [|apply steady_refl].
  destruct (f_insert f); [apply steady_refl|by apply steady_free_row].
Qed.

Lemma steady_image f w prep req requestID route status body byok byokKeyID keyID holdID ms :
  steady w (settleImage (T := T) NumericScan f w prep req requestID route status body byok byokKeyID
              keyID holdID ms).2.
Proof using.
  unfold settleImage, settleImageAt. destruct (unitBilled prep).
  - destruct (quoteOrRefuse _) as [quote [e|]]; [by apply steady_unsettled|].
    apply steady_settle_or_queue.
  - destruct (us_Present _); [|apply steady_settle_or_queue].
    destruct (quoteFor _ _ _ _ _ _); apply steady_settle_or_queue.
Qed.

Lemma steady_update w id g :
  (forall r, queued_right r -> queued_right (g r)) ->
  steady w (with_unsettled w (update_row id g (w_unsettled w))).
Proof using. intros Hg. apply steady_queue. intros Hq. by apply queued_right_update. Qed.

Lemma steady_retry f w r : queued_right r -> steady w (retry NumericScan f w r).2.
Proof using.
  intros Hr. unfold retry.
  assert (Ha : forall reason, steady w (abandon f w r reason)).
  { intros reason. unfold abandon. destruct (f_abandon f); [apply steady_refl|].
    by apply steady_update. }
  destruct (DecodeUsageReplayPayload NumericScan (un_Payload r)) as [params|e] eqn:E; [|apply Ha].
  destruct (settle_tx _ _ _ _) as [w'|e] eqn:Es; cbn [snd].
  - assert (Hw : steady w w').
    { eapply steady_settle; [exact Es|done|]. cbn. by apply Hr. }
    destruct (f_mark f); [exact Hw|]. eapply steady_trans; [exact Hw|]. by apply steady_update.
  - destruct (_ <=? _); [apply Ha|]. cbn [snd]. destruct (f_bump f); [apply steady_refl|].
    by apply steady_update.
Qed.

Lemma steady_retry_all fs i w rows :
  Forall queued_right rows -> steady w (retry_all NumericScan fs i w rows).
Proof using.
  intros Hr. revert i w. induction Hr as [|r rows Hr _ IH]; intros i w; cbn [retry_all];
    [apply steady_refl|]. eapply steady_trans; [by apply steady_retry|apply IH].
Qed.

Lemma steady_work fs w : steady w (Work NumericScan fs w).
Proof using.
  intros Hq. apply steady_retry_all; [|exact Hq].
  unfold ListUnsettledPending. apply Forall_take. apply list.Forall_forall.
  intros r Hr%list_elem_of_In%filter_In. destruct Hr as [Hr%list_elem_of_In _].
  by eapply (proj1 (list.Forall_forall _ _) Hq).
Qed.

(** One request, one image edit's settlement, or one round of the replay worker,
    with whatever admission, execution and database failures. *)
Inductive gateway_step : World B -> World B -> Prop :=
  | step_run f w req requestID id slug admitted got rot ms :
      gateway_step w (Run NumericScan f w req requestID id slug admitted got rot ms).2
  | step_stream f w req requestID id slug admitted o rot byokKeyID keyID ms ttfb :
      gateway_step w (RunStream (T := T) NumericScan f w req requestID id slug admitted o rot
                        byokKeyID keyID ms ttfb).2
  | step_utility f w req requestID id slug admitted got rot usage ms :
      gateway_step w (RunUtility (T := T) NumericScan f w req requestID id slug admitted got rot
                        usage ms).2
  | step_reserve w id requestID amount ttl :
      gateway_step w (ReserveFor w id requestID amount ttl).2
  | step_void w org requestID : gateway_step w (VoidHold w org requestID)
  | step_image f w prep req requestID route status body byok byokKeyID keyID holdID ms :
      gateway_step w (settleImage (T := T) NumericScan f w prep req requestID route status body byok
                        byokKeyID keyID holdID ms).2
  | step_worker fs w : gateway_step w (Work NumericScan fs w).

(** C1: the books balance.  However many requests are served, streamed, refused,
    broken off or replayed, in whatever order and whichever database writes fail,
    what every key has been settled for moves by exactly what its rows of the usage
    log say it was charged: money never moves without its row, nor a charging row
    without its money. *)
Theorem books_balance w w' k :
  rtc gateway_step w w' -> queue_ok w -> queue_ok w' /\ books w' k = books w k.
Proof using.
  intros Hs. cut (steady w w').
  { intros Hst Hq. destruct (Hst Hq) as [Hq' Hb]. by split. }
  induction Hs as [w|w1 w2 w3 Hstep _ IH]; [apply steady_refl|].
  eapply steady_trans; [|exact IH]. destruct Hstep.
  - apply steady_run.
  - apply steady_stream.
  - apply steady_utility.
  - apply steady_hold.
  - apply steady_void.
  - apply steady_image.
  - apply steady_work.
Qed.
End books.

Lemma books_balance_witness :
  let w := (demo_run demo_fake "paid" (Some (mkOpenAIUsage 1000 None 200 None))).2 in
  books w "key-1" = 0 /\ spent (w_billing w) "key-1" = 7200000.
Proof.
  intros w. split; [|vm_compute; reflexivity].
  refine (proj2 (books_balance (T := nat) demo_scan (demo_world demo_fake) w "key-1" _ _)).
  - apply rtc_once. apply step_run.
  - constructor.
Defined.

(** ** Properties: the billing boundary *)

Section boundary.
Context {T B : Type} `{Settler B}.
Variable NumericScan : bytes -> option bytes.
Implicit Types (w : World B) (f : Faults) (prep : prepared T) (route : Route T).
Implicit Types (req : Request) (rot : rotationResult T) (up : upstreamResult) (a : settleArgs T).

(** Released: the reservation voided, nothing settled, and any new row charges
    nothing. *)
Definition released w w' (id : Identity) (requestID : string) : Prop :=
  w_billing w' = (Void (w_billing w) (id_OrgID id) requestID).2 /\
  (w_usage w' = w_usage w \/
   exists row, w_usage w' = w_usage w ++ [row] /\ ul_ChargedNano row = 0 /\
     ul_RequestID row = requestID).

(** Billed or kept: settled with its row, or the reservation left standing
    (protected from the sweeper when a price is missing) - never voided. *)
Definition billed_or_kept w w' (id : Identity) (requestID : string) (charge : Z) : Prop :=
  (exists row, SettleTx (w_billing w) (mkSettle (id_OrgID id) requestID charge (id_KeyID id))
               = Ok (w_billing w') /\ w_usage w' = w_usage w ++ [row] /\
     ul_RequestID row = requestID /\ ul_ChargedNano row = charge) \/
  w_usage w' = w_usage w /\
  (w_billing w' = w_billing w \/
   w_billing w' = (ProtectHold (w_billing w) (id_OrgID id) requestID).2).

Lemma released_execution f w prep req requestID rot err ms :
  released w (RecordExecutionFailure f w prep req requestID rot err ms) (pr_id prep) requestID.
Proof using.
  unfold RecordExecutionFailure, logFailure.
  destruct (f_insert f); (split; [done|]); [by left|right; by eexists].
Qed.

Lemma kept_unsettled f w requestID id quote params cause charge :
  billed_or_kept w (RecordUnsettled f w requestID id quote params cause) id requestID charge.
Proof using.
  right. unfold RecordUnsettled. destruct (EncodeUsageReplayPayload params); [|by split; [|left]].
  destruct (f_unsettled f); by split; [|left].
Qed.

Lemma kept_settle_or f w a :
  billed_or_kept w
    match SettleAndLog NumericScan f w a with
    | Ok w' => w'
    | Err e => RecordUnsettled f w (sa_requestID a) (sa_id a) (sa_quote a)
                 (usageLogParams NumericScan a) (settle_reason e)
    end (sa_id a) (sa_requestID a) (ChargedNano (sa_quote a)).
Proof using.
  unfold SettleAndLog, settle_tx. destruct (SettleTx (w_billing w) (settle_input a)) as [b|e] eqn:E;
    [|apply kept_unsettled].
  destruct (f_tx f); [apply kept_unsettled|]. left. exists (usageLogParams NumericScan a).
  by split_and!.
Qed.

Lemma kept_settle_or_queue f w a reserved e :
  billed_or_kept w (settle_or_queue NumericScan f w a reserved e)
    (sa_id a) (sa_requestID a) (ChargedNano (sa_quote a)).
Proof using.
  unfold settle_or_queue. destruct e as [[]|]; try apply kept_settle_or.
  right. unfold RecordPricingMissing.
  destruct (EncodeUsageReplayPayload _) as [payload|]; [|by split; [|left]].
  destruct (ProtectHold _ _ _) as [[[|]|] b]; [destruct (f_pricing f)|..];
    (split; [done|]); by right.
Qed.

Lemma kept_complete f w prep req requestID up route rot holdID ms :
  exists charge,
    billed_or_kept w (CompleteBuffered NumericScan f w prep req requestID up route rot holdID ms).2
      (pr_id prep) requestID charge /\
    (forall rep, (CompleteBuffered NumericScan f w prep req requestID up route rot holdID ms).1 = Ok rep ->
       rep_Cost rep = charge).
Proof using.
  unfold CompleteBuffered. destruct (unitBilled prep).
  - unfold completeBufferedUnits. destruct (quoteOrRefuse _) as [quote [e|]]; cbn [fst snd].
    + exists 0. split; [apply kept_unsettled|done].
    + exists (ChargedNano quote). split; [|by intros rep [= <-]].
      exact (kept_settle_or f w (buffered_args prep req requestID up route rot quote _ _ false "" holdID ms)).
  - destruct (billed_usage _ _ _) as [usage estimated].
    destruct (settlement_quote _ _ _ _ _ _) as [quote e]. cbn [fst snd].
    exists (ChargedNano quote). split; [|by intros rep [= <-]].
    exact (kept_settle_or_queue f w (buffered_args prep req requestID up route rot quote usage ∅
             estimated (missing_issue e) holdID ms) (pr_estNano prep) e).
Qed.

(** C11: delivery decides.  Once the hold is placed, a buffered request whose execution
    failed, and a stream that never sent a byte, are released and charged nothing;
    one that was delivered - a whole response, or any first byte - is never
    released: it is settled together with its row, at the very cost the reply
    shows, or its hold stays.  A refused hold leaves nothing to decide. *)
Theorem delivery_decides f w req requestID slug prep got rot o byokKeyID keyID ms ttfb :
  let hold := ReserveFor w (pr_id prep) requestID (pr_estNano prep) (holdTTLFor (in_Surface req)) in
  let run := Run NumericScan f w req requestID (pr_id prep) slug (Ok prep) got rot ms in
  let stream := RunStream NumericScan f w req requestID (pr_id prep) slug (Ok prep) o rot byokKeyID
                  keyID ms ttfb in
  match hold.1 with
  | Err e => run = (Err e, hold.2) /\ stream = (Some e, hold.2)
  | Ok _ =>
      (forall e, rr_err rot = Some e ->
         run.1 = Err e /\ released hold.2 run.2 (pr_id prep) requestID) /\
      (forall route, rr_err rot = None -> rr_route rot = Some route ->
         exists charge, billed_or_kept hold.2 run.2 (pr_id prep) requestID charge /\
           (forall rep, run.1 = Ok rep -> rep_Cost rep = charge)) /\
      (so_FirstByteSent o = false ->
         stream.1 <> None /\ released hold.2 stream.2 (pr_id prep) requestID) /\
      (forall route, so_FirstByteSent o = true -> rr_route rot = Some route ->
         stream.1 = None /\ exists charge, billed_or_kept hold.2 stream.2 (pr_id prep) requestID charge)
  end.
Proof using.
  intros hold run stream. unfold run, stream, Run, RunStream. cbv zeta.
  change (in_Surface (with_stream req _)) with (in_Surface req). fold hold.
  destruct hold as [[holdID|e] w1]; cbn [fst snd]; [|done]. split_and!.
  - intros e ->. split; [done|apply released_execution].
  - intros route -> ->. apply kept_complete.
  - intros ->. split; [done|]. destruct (rr_route rot); apply released_execution.
  - intros route -> ->. destruct (stream_quote _ _ _ _ _) as [[[usage estimated] quote] e].
    split; [done|]. destruct e as [[|e]|]; eexists.
    + apply (kept_unsettled _ _ _ _ _ _ _ 0).
    + cbn [snd]. exact (kept_settle_or_queue f w1 (stream_args prep (with_stream req true) requestID route rot o
        byokKeyID keyID quote usage estimated (missing_issue (Some e)) holdID ms ttfb) (pr_estNano prep) (Some e)).
    + cbn [snd]. exact (kept_settle_or_queue f w1 (stream_args prep (with_stream req true) requestID route rot o
        byokKeyID keyID quote usage estimated "" holdID ms ttfb) (pr_estNano prep) None).
Qed.

(** ** Properties: where the code differs from its comments *)

(** A unit price that moved loses the record.  When a per-image request was served
    and its vector can no longer be priced, the hold is left standing for an
    operator's queue - but the row has no exchange rate, the payload refuses a row
    without one, and so nothing at all is written: no usage row, no queue row,
    whichever writes work; likewise on the image-edit path. *)
Theorem repriced_unit_request_unrecorded f w prep req requestID up route rot holdID ms status body
    byok byokKeyID keyID e :
  unitBilled prep = true ->
  unitCharge prep route (ur_byok up) (settledUnits prep (in_Surface req) (rs_images (ur_body up)))
    = Err e ->
  unitCharge prep route byok (settledUnits prep (in_Surface req) (rs_images body)) = Err e ->
  (CompleteBuffered NumericScan f w prep req requestID up route rot holdID ms).2 = w /\
  (settleImage NumericScan f w prep req requestID route status body byok byokKeyID keyID holdID ms).2
    = w.
Proof using.
  intros Hu He1 He2.
  assert (Hz : forall a, sa_quote a = zero_quote ->
    EncodeUsageReplayPayload (usageLogParams (T := T) NumericScan a)
    = Err "usage replay: fx_rate: value is missing"%string).
  { intros a E. unfold EncodeUsageReplayPayload. cbn [usageLogParams ul_FxRate]. by rewrite E. }
  assert (Hq : exists err, quoteOrRefuse (Err e) = (zero_quote, Some err)).
  { unfold quoteOrRefuse. destruct e; eauto. }
  destruct Hq as [err Hq].
  unfold CompleteBuffered, settleImage. rewrite Hu. unfold completeBufferedUnits. rewrite He1, He2, Hq.
  cbn [snd]. unfold RecordUnsettled. by rewrite !Hz.
Qed.

(** A free model is recorded as paid.  No settling path puts the locked price row
    in the arguments of the snapshot, so every row they write says [paid] and
    quotes the list rates as the customer's, also when the model is free and the
    charge is zero. *)
Theorem snapshot_never_free prep req requestID up route rot quote usage units estimated issue holdID
    ms o byokKeyID keyID ttfb status byok :
  let mode a := match ul_PricingSnapshot (usageLogParams (T := T) NumericScan a) with
                | Some (RequestSnapshot s) => Some (ps_BillingMode s)
                | _ => None
                end in
  mode (buffered_args prep req requestID up route rot quote usage units estimated issue holdID ms)
    = Some "paid"%string /\
  mode (stream_args prep req requestID route rot o byokKeyID keyID quote usage estimated issue holdID
          ms ttfb) = Some "paid"%string /\
  mode (image_args prep req requestID route status byok byokKeyID keyID holdID quote usage units
          estimated issue ms) = Some "paid"%string.
Proof using. done. Qed.
End boundary.

Lemma repriced_unit_request_unrecorded_witness :
  let w := demo_world demo_fake in
  let prep := demo_prepared "paid" FamilyUnits (NewUnitPriceTable []) (imageUnits demo_image_key 2) in
  (CompleteBuffered demo_scan no_faults w prep (demo_request SurfaceImages) "req-1"
     (demo_upstream (demo_response None (Some 2))) (demo_route "a" 1 1) (demo_rotation None)
     (Some "hold-1"%string) 12).2 = w.
Proof.
  intros w prep.
  refine (proj1 (repriced_unit_request_unrecorded demo_scan no_faults w prep
    (demo_request SurfaceImages) "req-1" (demo_upstream (demo_response None (Some 2)))
    (demo_route "a" 1 1) (demo_rotation None) (Some "hold-1"%string) 12 200
    (demo_response None (Some 2)) false None None _ _ _ _)).
  - reflexivity.
  - vm_compute. reflexivity.
  - vm_compute. reflexivity.
Defined.
