(* ===== verification/Replay.v ===== *)
(** * What the replay worker achieves: [internal/gateway/usage/unsettled.go]

    Over the worker of Settlement.v: a queued charge is collected by a healthy
    round and by no later one, a charge that keeps failing is given up after eight
    rounds and never before, and what happens when a settled row cannot be
    marked. *)
From S2P Require Import Prelude GoStr Rational Money PriceTable Pricing UnitPricing Surfaces Usage Stream.
From S2P Require Import Catalog Errors Classify Guard Billing Routing Rotation Ledger Settlement.

Open Scope Z_scope.

(** ** Rows updated one after another *)

Section updates.
Variable age : UnsettledRow -> UnsettledRow -> UnsettledRow.
Hypothesis age_id : forall r x, un_RequestID (age r x) = un_RequestID x.

Definition touch (x r : UnsettledRow) : UnsettledRow :=
  if bool_decide (un_RequestID x = un_RequestID r) then age r x else x.

Lemma touch_id x r : un_RequestID (touch x r) = un_RequestID x.
Proof using age_id. unfold touch. by destruct (bool_decide _). Qed.

Lemma touches_miss l x : un_RequestID x ∉ map un_RequestID l -> fold_left touch l x = x.
Proof using.
  induction l as [|r l IH]; cbn [fold_left map]; [done|].
  intros [Hne Hl]%not_elem_of_cons. unfold touch at 2. by rewrite bool_decide_eq_false_2; auto.
Qed.

Lemma touches_hit l x : NoDup (map un_RequestID l) -> x ∈ l -> fold_left touch l x = age x x.
Proof using age_id.
  induction l as [|r l IH]; cbn [fold_left map]; [by intros _ ?%elem_of_nil|].
  intros [Hr Hl]%list.NoDup_cons Hx. apply elem_of_cons in Hx as [->|Hx].
  - unfold touch at 2. rewrite bool_decide_eq_true_2 by done. apply touches_miss. by rewrite age_id.
  - unfold touch at 2. rewrite bool_decide_eq_false_2; [by apply IH|].
    intros E. apply Hr. rewrite <- E. by apply list_elem_of_fmap_2.
Qed.

Lemma updates_map l rows :
  fold_left (fun rows r => update_row (un_RequestID r) (age r) rows) l rows
  = map (fun x => fold_left touch l x) rows.
Proof using.
  revert rows. induction l as [|r l IH]; intros rows; cbn [fold_left].
  - by rewrite map_id.
  - rewrite IH. unfold update_row. rewrite map_map. apply map_ext. done.
Qed.
End updates.

Lemma NoDup_ids_filter (p : UnsettledRow -> bool) rows :
  NoDup (map un_RequestID rows) -> NoDup (map un_RequestID (List.filter p rows)).
Proof.
  induction rows as [|r rows IH]; cbn [map List.filter]; [done|].
  intros [Hr Hn]%list.NoDup_cons. destruct (p r); [|auto]. cbn [map].
  apply list.NoDup_cons. split; [|auto].
  intros (x & E & Hx)%list_elem_of_fmap_1. apply Hr. rewrite E. apply list_elem_of_fmap_2.
  apply list_elem_of_In in Hx. apply list_elem_of_In. by apply filter_In in Hx as [].
Qed.

Lemma pending_elem rows x : x ∈ List.filter pending rows <-> x ∈ rows /\ pending x = true.
Proof. by rewrite !list_elem_of_In, filter_In. Qed.

(** With nothing listed, nothing is pending. *)
Lemma none_listed {B} (w : World B) x :
  ListUnsettledPending w = [] -> x ∈ w_unsettled w -> pending x = true -> False.
Proof.
  unfold ListUnsettledPending. intros E Hx Hp.
  assert (Hin : x ∈ List.filter pending (w_unsettled w)) by by apply pending_elem.
  destruct (List.filter _ _); [by apply elem_of_nil in Hin|done].
Qed.

Section rounds.
Context {B : Type} `{Settler B}.
Variable NumericScan : bytes -> option bytes.
Implicit Types (w : World B) (f : Faults) (r x : UnsettledRow).

(** Settling fails, whatever is settled. *)
Definition settling_fails f w : Prop := forall i row, exists e, settle_tx f w i row = Err e.

(** What one failing attempt does to a row. *)
Definition aged f w r x : UnsettledRow :=
  match DecodeUsageReplayPayload NumericScan (un_Payload r) with
  | Err e => mark_abandoned ("payload decode failed: " ++ e) x
  | Ok params =>
      match settle_tx f w (mkSettle (un_OrgID r) (un_RequestID r) (un_ChargedNano r)
                             (ul_ApiKeyID params)) params with
      | Ok _ => x
      | Err e => if unsettledMaxAttempts <=? un_Attempts r + 1 then mark_abandoned (settle_reason e) x
                 else bump (settle_reason e) x
      end
  end.

Lemma aged_id f w r x : un_RequestID (aged f w r x) = un_RequestID x.
Proof using. unfold aged. repeat case_match; done. Qed.

Lemma settle_tx_queue f w rows i row e :
  settle_tx f w i row = Err e -> settle_tx f (with_unsettled w rows) i row = Err e.
Proof using.
  unfold settle_tx. cbn [w_billing with_unsettled]. destruct (SettleTx _ _); [|done].
  by destruct (f_tx f).
Qed.

Lemma settling_fails_queue f w rows : settling_fails f w -> settling_fails f (with_unsettled w rows).
Proof using. intros Hf i row. destruct (Hf i row) as [e He]. exists e. by apply settle_tx_queue. Qed.

Lemma aged_queue f w rows r x :
  settling_fails f w -> aged f (with_unsettled w rows) r x = aged f w r x.
Proof using.
  intros Hf. unfold aged. destruct (DecodeUsageReplayPayload _ _) as [params|]; [|done].
  destruct (Hf (mkSettle (un_OrgID r) (un_RequestID r) (un_ChargedNano r) (ul_ApiKeyID params)) params)
    as [e He]. by rewrite He, (settle_tx_queue _ _ rows _ _ e He).
Qed.

Lemma retry_failing f w r :
  settling_fails f w -> f_bump f = false -> f_abandon f = false ->
  (retry NumericScan f w r).2
  = with_unsettled w (update_row (un_RequestID r) (aged f w r) (w_unsettled w)).
Proof using.
  intros Hf Hb Ha. unfold retry, abandon, aged. rewrite Ha, Hb.
  destruct (DecodeUsageReplayPayload _ _) as [params|]; [|done].
  destruct (Hf (mkSettle (un_OrgID r) (un_RequestID r) (un_ChargedNano r) (ul_ApiKeyID params)) params)
    as [e He]. rewrite He. by destruct (_ <=? _).
Qed.

Lemma retry_all_failing f i w rows :
  settling_fails f w -> f_bump f = false -> f_abandon f = false ->
  retry_all NumericScan (fun _ => f) i w rows
  = with_unsettled w
      (fold_left (fun q r => update_row (un_RequestID r) (aged f w r) q) rows (w_unsettled w)).
Proof using.
  intros Hf Hb Ha. enough (G : forall rows i q,
    retry_all NumericScan (fun _ => f) i (with_unsettled w q) rows
    = with_unsettled w (fold_left (fun q r => update_row (un_RequestID r) (aged f w r) q) rows q)).
  { specialize (G rows i (w_unsettled w)). by destruct w. }
  clear rows i. induction rows as [|r rows IH]; intros i q; cbn [retry_all fold_left]; [done|].
  rewrite retry_failing by (done || by apply settling_fails_queue).
  rewrite <- (IH (S i)). f_equal. cbn [w_unsettled with_unsettled w_billing w_usage w_pricing].
  unfold with_unsettled. f_equal. unfold update_row. apply map_ext. intros x.
  destruct (bool_decide _); [|done]. by apply aged_queue.
Qed.

(** The pending rows fit in one batch, each under a request of its own. *)
Definition one_batch w : Prop :=
  NoDup (map un_RequestID (w_unsettled w)) /\
  (length (List.filter pending (w_unsettled w)) <= unsettledBatch)%nat.

Lemma one_batch_listed w : one_batch w -> ListUnsettledPending w = List.filter pending (w_unsettled w).
Proof using. intros [_ Hl]. unfold ListUnsettledPending. by apply take_ge. Qed.

(** A failing round, as a map over the queue. *)
Lemma Work_failing f w :
  settling_fails f w -> f_bump f = false -> f_abandon f = false -> one_batch w ->
  Work NumericScan (fun _ => f) w
  = with_unsettled w (map (fun x => if pending x then aged f w x x else x) (w_unsettled w)).
Proof using.
  intros Hf Hb Ha Hw. unfold Work. rewrite (one_batch_listed w Hw), retry_all_failing by done.
  f_equal. rewrite updates_map. apply map_ext_in. intros x Hx%list_elem_of_In.
  destruct Hw as [Hn _]. destruct (pending x) eqn:E.
  - apply touches_hit; [apply aged_id|by apply NoDup_ids_filter|by apply pending_elem].
  - apply touches_miss. intros (y & Ey & Hy%pending_elem)%list_elem_of_fmap_1. destruct Hy as [Hy Hp].
    enough (y = x) by congruence. clear -Hn Hx Hy Ey.
    induction (w_unsettled w) as [|r rows IH]; [by apply elem_of_nil in Hx|].
    cbn in Hn. apply list.NoDup_cons in Hn as [Hr Hn].
    apply elem_of_cons in Hx as [->|Hx], Hy as [->|Hy]; auto;
      destruct Hr; [rewrite Ey|rewrite <- Ey]; by apply list_elem_of_fmap_2.
Qed.
End rounds.

(** ** Properties *)

Section retire.
Context {B : Type} `{Settler B}.
Variable NumericScan : bytes -> option bytes.
Implicit Types (w : World B) (f : Faults) (r x : UnsettledRow).

Definition decodes x : Prop := exists p, DecodeUsageReplayPayload NumericScan (un_Payload x) = Ok p.

(** One failing round, row by row. *)
Lemma aged_spec f w x :
  settling_fails f w -> pending x = true ->
  (pending (aged NumericScan f w x x) = true ->
     un_Attempts (aged NumericScan f w x x) = un_Attempts x + 1 /\ un_Attempts x + 1 < 8) /\
  (decodes x -> un_Attempts x + 1 < 8 ->
     pending (aged NumericScan f w x x) = true /\
     un_Payload (aged NumericScan f w x x) = un_Payload x).
Proof using.
  intros Hf Hp. unfold aged, decodes.
  destruct (DecodeUsageReplayPayload NumericScan (un_Payload x)) as [params|e].
  2: { split; [|by intros []]. unfold pending, mark_abandoned. cbn. by rewrite andb_false_r. }
  destruct (Hf (mkSettle (un_OrgID x) (un_RequestID x) (un_ChargedNano x) (ul_ApiKeyID params)) params)
    as [e ->].
  unfold unsettledMaxAttempts. destruct (Z.leb_spec 8 (un_Attempts x + 1)).
  - split; [|intros; lia]. unfold pending, mark_abandoned. cbn. by rewrite andb_false_r.
  - split; [done|]. intros _ _. by split.
Qed.

(** The state after [n] failing rounds. *)
Record rounds_done w w' (n : nat) : Prop := {
  rd_billing : w_billing w' = w_billing w;
  rd_usage : w_usage w' = w_usage w;
  rd_ids : map un_RequestID (w_unsettled w') = map un_RequestID (w_unsettled w);
  rd_batch : (length (List.filter pending (w_unsettled w')) <= unsettledBatch)%nat;
  rd_old : Forall (fun x => pending x = true -> Z.of_nat n <= un_Attempts x /\
                              (n <> 0%nat -> un_Attempts x < 8)) (w_unsettled w');
  rd_kept x : x ∈ w_unsettled w -> pending x = true -> un_Attempts x = 0 -> decodes x ->
    (n < 8)%nat ->
    exists x', x' ∈ w_unsettled w' /\ un_RequestID x' = un_RequestID x /\ pending x' = true /\
      un_Attempts x' = Z.of_nat n /\ un_Payload x' = un_Payload x;
}.

Lemma filter_map_fewer (g : UnsettledRow -> UnsettledRow) rows :
  (forall x, pending (g x) = true -> pending x = true) ->
  (length (List.filter pending (map g rows)) <= length (List.filter pending rows))%nat.
Proof using.
  intros Hg. induction rows as [|x rows IH]; cbn [map List.filter]; [done|].
  specialize (Hg x). destruct (pending (g x)); [rewrite Hg by done|destruct (pending x)]; cbn; lia.
Qed.

Lemma rounds_step f w w' n :
  settling_fails f w -> f_bump f = false -> f_abandon f = false ->
  NoDup (map un_RequestID (w_unsettled w)) -> rounds_done w w' n ->
  rounds_done w (Work NumericScan (fun _ => f) w') (S n).
Proof using.
  intros Hf Hb Ha Hn [R1 R2 R3 R4 R5 R6].
  assert (Hf' : settling_fails f w').
  { intros i row. destruct (Hf i row) as [e He]. exists e. revert He. unfold settle_tx. rewrite R1.
    destruct (SettleTx _ _); [|done]. by destruct (f_tx f). }
  rewrite Work_failing; [|done..|split; [by rewrite R3|done]].
  set (g := fun x => if pending x then aged NumericScan f w' x x else x).
  assert (Hg : forall x, pending (g x) = true -> pending x = true).
  { intros x. unfold g. by destruct (pending x) eqn:E; [|congruence]. }
  split; cbn [with_unsettled w_billing w_usage w_unsettled]; [done..| | | |].
  - rewrite map_map, <- R3. apply map_ext. intros x. unfold g. destruct (pending x); [apply aged_id|done].
  - etransitivity; [by apply filter_map_fewer|done].
  - apply Forall_map. eapply Forall_impl; [|exact R5]. intros x Hx Hp. cbn in Hp.
    pose proof (Hg x Hp) as Hx'. unfold g in *. rewrite Hx' in *. specialize (Hx eq_refl).
    destruct (aged_spec f w' x Hf' Hx') as [Hs _]. destruct (Hs Hp) as [-> Hlt]. lia.
  - intros x Hx Hp Hz Hd Hlt. destruct (R6 x Hx Hp Hz Hd ltac:(lia)) as (y & Hy & E1 & E2 & E3 & E4).
    exists (g y). split; [by apply list_elem_of_fmap_2|]. unfold g. rewrite E2.
    destruct (aged_spec f w' y Hf' E2) as [Hs1 Hs2].
    destruct Hs2 as [Hs2 Hs3]; [by unfold decodes; rewrite E4|lia|].
    destruct (Hs1 Hs2) as [Hs1' _]. rewrite aged_id, Hs1', Hs3. split_and!; try done. lia.
Qed.

(** C33: A charge that cannot be collected is retired, and not too soon.  While
    settling keeps failing, no round moves a nano or writes a usage row; from the
    eighth on nothing is pending, so nothing is retried for ever, and before it
    every fresh row whose payload decodes is still there, its attempts counted.  It is
    stated of a queue with distinct requests of which at most one batch of fifty is
    pending, to which nothing is added meanwhile, and of rounds whose own writes -
    the counted attempt and the giving up - succeed. *)
Theorem failing_rows_retire f w n :
  settling_fails f w -> f_bump f = false -> f_abandon f = false -> one_batch w ->
  Forall (fun x => 0 <= un_Attempts x) (w_unsettled w) ->
  let w' := Nat.iter n (Work NumericScan (fun _ => f)) w in
  w_billing w' = w_billing w /\ w_usage w' = w_usage w /\
  ((8 <= n)%nat -> ListUnsettledPending w' = []) /\
  (forall x, x ∈ w_unsettled w -> pending x = true -> un_Attempts x = 0 -> decodes x -> (n < 8)%nat ->
     exists x', x' ∈ w_unsettled w' /\ un_RequestID x' = un_RequestID x /\ pending x' = true /\
       un_Attempts x' = Z.of_nat n /\ un_Payload x' = un_Payload x).
Proof using.
  intros Hf Hb Ha [Hn Hl] H0 w'.
  assert (R : rounds_done w w' n).
  { subst w'. induction n as [|n IH]; [|by apply rounds_step].
    cbn. split; try done.
    - eapply Forall_impl; [|exact H0]. intros x Hx _. cbn in *. split; [lia|done].
    - intros x Hx Hp Hz Hd _. by exists x. }
  destruct R as [R1 R2 R3 R4 R5 R6]. split_and!; try done.
  intros H8. unfold ListUnsettledPending.
  enough (E : List.filter pending (w_unsettled w') = []) by by rewrite E.
  clear -R5 H8. induction R5 as [|x rows Hx _ IH]; cbn [List.filter]; [done|].
  destruct (pending x); [|done]. specialize (Hx eq_refl). lia.
Qed.

End retire.

Section collect.
Context {T B : Type} `{Settler B}.
Variable NumericScan : bytes -> option bytes.
Implicit Types (w : World B) (f : Faults) (a : settleArgs T).

(** Nothing waits, and this request was never queued. *)
Definition idle w (requestID : string) : Prop :=
  Forall (fun x => pending x = false /\ un_RequestID x <> requestID) (w_unsettled w).

Lemma idle_filter w requestID : idle w requestID -> List.filter pending (w_unsettled w) = [].
Proof using.
  unfold idle. induction 1 as [|x rows [Hx _] _ IH]; cbn [List.filter]; [done|]. by rewrite Hx.
Qed.

Lemma idle_update w requestID g :
  idle w requestID -> update_row requestID g (w_unsettled w) = w_unsettled w.
Proof using.
  unfold idle, update_row. induction 1 as [|x rows [_ Hx] _ IH]; cbn [map]; [done|].
  by rewrite bool_decide_eq_false_2, IH.
Qed.

Lemma idle_upsert w row : idle w (un_RequestID row) ->
  upsert_unsettled row (w_unsettled w) = w_unsettled w ++ [row].
Proof using.
  intros Hi. unfold upsert_unsettled.
  enough (E : existsb (fun r => bool_decide (un_RequestID r = un_RequestID row)) (w_unsettled w) = false)
    by by rewrite E.
  unfold idle in Hi. induction Hi as [|x rows [_ Hx] _ IH]; cbn [existsb]; [done|].
  by rewrite bool_decide_eq_false_2, IH.
Qed.

(** One pending row, its settlement going through. *)
Lemma Work_one w (row : UnsettledRow) params b f :
  pending row = true -> idle w (un_RequestID row) ->
  DecodeUsageReplayPayload NumericScan (un_Payload row) = Ok params ->
  SettleTx (w_billing w) (mkSettle (un_OrgID row) (un_RequestID row) (un_ChargedNano row)
                            (ul_ApiKeyID params)) = Ok b ->
  f_tx f = false ->
  Work NumericScan (fun _ => f) (with_unsettled w (w_unsettled w ++ [row]))
  = mkWorld b (w_usage w ++ [params])
      (w_unsettled w ++ [if f_mark f then row else mark_resolved row]) (w_pricing w).
Proof using.
  intros Hp Hi Hd Hs Ht. unfold Work, ListUnsettledPending. cbn [w_unsettled with_unsettled].
  rewrite List.filter_app, (idle_filter w _ Hi). cbn [List.filter app]. rewrite Hp.
  cbn [take unsettledBatch retry_all]. unfold retry, settle_tx.
  cbn [w_billing with_unsettled]. rewrite Hd, Hs, Ht. cbn [snd].
  destruct (f_mark f); [done|]. unfold with_unsettled, add_usage, with_billing.
  cbn [w_unsettled w_billing w_usage w_pricing]. f_equal.
  unfold update_row. rewrite map_app. fold (update_row (un_RequestID row) mark_resolved (w_unsettled w)).
  rewrite (idle_update w _ _ Hi). cbn [map]. by rewrite bool_decide_eq_true_2.
Qed.

(** C32: A failed settlement is made good, once.  When settling a served request fails
    and its row could be encoded and queued, nothing else being pending nor any row of
    the queue the request's ([idle]), the next healthy round of the worker settles the
    same amount against the same organization, request and key, and leaves nothing
    pending: a further round does nothing.  The usage row it writes is the one the
    request was to write without its image output tokens, which the queued payload
    does not carry. *)
Theorem queued_charge_collected w f a e b b' payload :
  let row := usageLogParams NumericScan a in
  SettleAndLog NumericScan f w a = Err e -> f_unsettled f = false ->
  EncodeUsageReplayPayload row = Ok payload -> proper_row row ->
  (forall s t, NumericScan s = Some t -> NumericScan t = Some t) ->
  idle w (sa_requestID a) ->
  SettleTx b (settle_input a) = Ok b' ->
  let queued := RecordUnsettled f w (sa_requestID a) (sa_id a) (sa_quote a) row (settle_reason e) in
  let w' := Work NumericScan (fun _ => no_faults) (with_billing queued b) in
  w_billing w' = b' /\ w_usage w' = w_usage w ++ [without_image_out row] /\
  ListUnsettledPending w' = [] /\ Work NumericScan (fun _ => no_faults) w' = w'.
Proof using.
  intros row _ Hf Hp Hr Hscan Hi Hs queued w'.
  set (entry := mkUnsettled (sa_requestID a) (id_OrgID (sa_id a)) (ChargedNano (sa_quote a))
                  (id_WalletCurrency (sa_id a)) (settle_reason e) 0 payload false false).
  assert (Hd : DecodeUsageReplayPayload NumericScan payload = Ok (without_image_out row)).
  { apply replay_decodes; [done| |done]. intros fx. cbn. unfold numericFromString.
    destruct (bool_decide _); [done|]. apply Hscan. }
  assert (Ew : w' = mkWorld b' (w_usage w ++ [without_image_out row])
                      (w_unsettled w ++ [mark_resolved entry]) (w_pricing w)).
  { subst w' queued. unfold RecordUnsettled. rewrite Hp, Hf. fold entry.
    rewrite (idle_upsert w entry) by done.
    exact (Work_one (with_billing w b) entry _ b' no_faults eq_refl Hi Hd Hs eq_refl). }
  assert (El : ListUnsettledPending w' = []).
  { rewrite Ew. unfold ListUnsettledPending. cbn [w_unsettled].
    by rewrite List.filter_app, (idle_filter w _ Hi). }
  split_and!; [by rewrite Ew..|exact El|]. unfold Work. by rewrite El.
Qed.
End collect.

(** Settling is not idempotent here.  When the self-hosted implementation has
    settled a queued charge but the row could not be marked, the next round takes
    the same amount from the same key again and writes the usage row again. *)
Theorem unmarked_charge_taken_twice NumericScan (w : World Spend) (row : UnsettledRow) params k s1 s2
    f :
  pending row = true -> idle w (un_RequestID row) ->
  DecodeUsageReplayPayload NumericScan (un_Payload row) = Ok params ->
  ul_ApiKeyID params = Some k -> 0 < un_ChargedNano row -> f_tx f = false -> f_mark f = true ->
  let input := mkSettle (un_OrgID row) (un_RequestID row) (un_ChargedNano row) (ul_ApiKeyID params) in
  SettleTx (w_billing w) input = Ok s1 -> SettleTx s1 input = Ok s2 ->
  let w' := Work NumericScan (fun _ => no_faults)
              (Work NumericScan (fun _ => f) (with_unsettled w (w_unsettled w ++ [row]))) in
  w_usage w' = w_usage w ++ [params; params] /\
  spent (w_billing w') k = spent (w_billing w) k + 2 * un_ChargedNano row.
Proof.
  intros Hp Hi Hd Hk Hc Ht Hm input H1 H2 w'. subst w'.
  rewrite (Work_one NumericScan w row params s1 f Hp Hi Hd H1 Ht), Hm.
  pose proof (Work_one NumericScan (add_usage (with_billing w s1) params) row params s2 no_faults
    Hp Hi Hd H2 eq_refl) as E.
  unfold with_unsettled, add_usage, with_billing in E. cbn [w_unsettled w_usage w_pricing w_billing] in E.
  cbv beta iota. rewrite E. cbn [w_usage w_billing].
  rewrite <- app_assoc. split; [done|].
  rewrite (settle_spent _ _ _ k H2), (settle_spent _ _ _ k H1). subst input. cbn.
  rewrite bool_decide_eq_true_2 by done. lia.
Qed.

(** ** A queued charge *)

Definition demo_args : settleArgs nat :=
  buffered_args (demo_prepared "paid" FamilyTokens (demo_image_card 0) ∅) (demo_request SurfaceChat) "req-1"
    (demo_upstream (demo_response None None)) (demo_route "a" 1 1) (demo_rotation None)
    (mkQuote 6000000 7200000 12000 10000 10000 (lit "1"))
    (openAI_usage (mkOpenAIUsage 1000 None 200 None) "" ∅) ∅ false "" (Some "hold-1"%string) 12.

Definition demo_queued (attempts : Z) : UnsettledRow :=
  mkUnsettled "req-1" (Some "org-1"%string) 7200000 "USD" "upstream" attempts
    (match EncodeUsageReplayPayload (usageLogParams demo_scan demo_args) with
     | Ok p => p | Err _ => PayloadInvalid end) false false.

(** A database that refuses the settlement transaction. *)
Definition no_commit : Faults := mkFaults true false false false false false false.
(** One that cannot mark the row it settled. *)
Definition no_mark : Faults := mkFaults false false false false true false false.

Lemma failing_rows_retire_witness :
  let w := mkWorld demo_fake [] [demo_queued 0] [] in
  ListUnsettledPending (Nat.iter 8 (Work demo_scan (fun _ => no_commit)) w) = [] /\
  ListUnsettledPending (Nat.iter 7 (Work demo_scan (fun _ => no_commit)) w) <> [].
Proof.
  intros w.
  assert (H : forall n, _) by (intros n; refine (failing_rows_retire demo_scan no_commit w n _ eq_refl
    eq_refl _ _); [intros i row; unfold settle_tx; destruct (SettleTx _ _); by eexists
                  |split; [apply list.NoDup_singleton|cbn; unfold unsettledBatch; lia]
                  |by repeat constructor]).
  split.
  - apply (H 8%nat). lia.
  - destruct (H 7%nat) as (_ & _ & _ & H7).
    destruct (H7 (demo_queued 0)) as (x & Hx & _ & Hp & _);
      [by apply list_elem_of_singleton|reflexivity|reflexivity| |lia|].
    + eexists. vm_compute. reflexivity.
    + intros E. exact (none_listed _ x E Hx Hp).
Defined.

Lemma queued_charge_collected_witness :
  let w := demo_world demo_fake in
  let row := usageLogParams demo_scan demo_args in
  let queued := RecordUnsettled no_commit w "req-1" demo_settle_id (sa_quote demo_args) row
                  "usage row not written" in
  let w' := Work demo_scan (fun _ => no_faults) queued in
  map si_ActualNano (fk_Settles (w_billing w')) = [7200000] /\
  Work demo_scan (fun _ => no_faults) w' = w'.
Proof.
  intros w row queued w'.
  destruct (queued_charge_collected demo_scan w no_commit demo_args
    (OtherError "usage row not written") demo_fake
    (mkFake None None None false (Some "hold-1"%string) [] [] [settle_input demo_args] [])
    (un_Payload (demo_queued 0))) as (H1 & _ & _ & H2).
  - vm_compute. reflexivity.
  - reflexivity.
  - vm_compute. reflexivity.
  - split; [repeat constructor; done|vm_compute; by split].
  - unfold demo_scan. intros s t. destruct (plainDecimalRE s) eqn:E; [|done]. intros [= <-]. by rewrite E.
  - constructor.
  - reflexivity.
  - split; [|exact H2]. fold w'. change w' with (Work demo_scan (fun _ => no_faults) queued) in *.
    assert (E : w_billing w' = _) by exact H1. unfold w' in E. by rewrite E.
Defined.

Lemma unmarked_charge_taken_twice_witness :
  let s := mkSpend demo_day ∅ {[ "key-1"%string := 0 ]} true in
  let w := Work demo_scan (fun _ => no_faults)
             (Work demo_scan (fun _ => no_mark) (with_unsettled (demo_world s) [demo_queued 0])) in
  spent (w_billing w) "key-1" = 2 * 7200000.
Proof.
  intros s w.
  refine (proj2 (unmarked_charge_taken_twice demo_scan (demo_world s) (demo_queued 0)
    _ "key-1" _ _ no_mark _ _ _ _ _ _ _ _ _)).
  - reflexivity.
  - constructor.
  - vm_compute. reflexivity.
  - reflexivity.
  - reflexivity.
  - reflexivity.
  - reflexivity.
  - vm_compute. reflexivity.
  - vm_compute. reflexivity.
Defined.
