(* ===== verification/KeyFormat.v ===== *)
(** * The format of a virtual key: [access/keyfmt/keyfmt.go]

    A prefix, the random body in base 62, and a six-character CRC-32 checksum of
    it, so that a mistyped key is refused without a database lookup.  The CRC and
    the base-62 text are those of Go's [hash/crc32] and [math/big]. *)
From S2P Require Import Prelude GoStr.

Open Scope Z_scope.

(** ** [crc32.ChecksumIEEE], one bit at a time *)

Definition ieee : Z := 0xEDB88320.

Definition crc_bit (x : Z) : Z :=
  if Z.odd x then Z.lxor (Z.shiftr x 1) ieee else Z.shiftr x 1.

Definition crc_byte (s : Z) (c : ascii) : Z := Nat.iter 8 crc_bit (Z.lxor s (ord c)).

Definition ChecksumIEEE (s : bytes) : Z :=
  Z.lxor (fold_left crc_byte s 0xFFFFFFFF) 0xFFFFFFFF.

(** ** [big.Int.Text(62)] *)

Definition alphabet62 : bytes :=
  lit "0123456789abcdefghijklmnopqrstuvwxyzABCDEFGHIJKLMNOPQRSTUVWXYZ".

Definition char62 (d : Z) : ascii := nth (Z.to_nat d) alphabet62 "0"%char.

Fixpoint text62_aux (fuel : nat) (n : Z) (acc : bytes) : bytes :=
  match fuel with
  | O => acc
  | S fuel' =>
      if n <? 62 then char62 n :: acc
      else text62_aux fuel' (n / 62) (char62 (n mod 62) :: acc)
  end.

Definition text62 (n : Z) : bytes := text62_aux (S (Z.to_nat (Z.log2 n))) n [].

(** ** The key *)

Definition KeyPrefix : bytes := lit "sk-flb-v1-".
Definition randomBytes : nat := 32.
Definition checkLen : nat := 6.
Definition minBodyLen : nat := 8.

Definition checksum (body : bytes) : bytes :=
  let s := text62 (ChecksumIEEE body) in
  if (length s <? checkLen)%nat then repeat "0"%char (checkLen - length s) ++ s else s.

(** [big.Int.SetBytes]: big-endian. *)
Definition SetBytes (raw : bytes) : Z := fold_left (fun n c => n * 256 + ord c) raw 0.

(** [New], from the random bytes. *)
Definition NewKey (raw : bytes) : option bytes :=
  let body := text62 (SetBytes raw) in
  if (length body <? minBodyLen)%nat then None
  else Some (KeyPrefix ++ body ++ checksum body).

Definition ValidKey (key : bytes) : bool :=
  if negb (has_prefix key KeyPrefix) then false
  else
    let rest := skipn (length KeyPrefix) key in
    if (length rest <? minBodyLen + checkLen)%nat then false
    else
      let cut := (length rest - checkLen)%nat in
      beq (skipn cut rest) (checksum (firstn cut rest)).

Example issued_key :
  (ValidKey <$> NewKey (map byte_of (seqZ 1 32))) = Some true.
Proof. vm_compute. reflexivity. Qed.

(** ** Base 62 *)

Definition val62 (c : ascii) : Z :=
  match index_byte alphabet62 c with Some i => Z.of_nat i | None => -1 end.

Definition value62 (s : bytes) : Z := fold_left (fun n c => n * 62 + val62 c) s 0.

Lemma val_char62 d : 0 <= d < 62 -> val62 (char62 d) = d.
Proof.
  intros H. assert (Hall : forallb (fun d => val62 (char62 d) =? d) (seqZ 0 62) = true)
    by (vm_compute; reflexivity).
  rewrite forallb_forall in Hall. apply Z.eqb_eq, Hall, list_elem_of_In, elem_of_seqZ. lia.
Qed.

Lemma value62_aux s a : fold_left (fun n c => n * 62 + val62 c) s a = a * 62 ^ len s + value62 s.
Proof.
  unfold value62, len. revert a. induction s as [|c s IH]; intros a; [cbn; lia|].
  cbn [fold_left length]. rewrite IH, (IH (0 * 62 + val62 c)).
  rewrite Nat2Z.inj_succ, Z.pow_succ_r by lia. lia.
Qed.

Lemma value62_cons c s : value62 (c :: s) = val62 c * 62 ^ len s + value62 s.
Proof. unfold value62 at 1. cbn [fold_left]. rewrite value62_aux. lia. Qed.

(** Fuel enough: the number shrinks below a power of two per turn. *)
Lemma text62_aux_value fuel n acc :
  0 <= n < 2 ^ Z.of_nat fuel ->
  value62 (text62_aux fuel n acc) = n * 62 ^ len acc + value62 acc.
Proof.
  revert n acc. induction fuel as [|fuel IH]; intros n acc Hn; cbn [text62_aux].
  - cbn in Hn. assert (n = 0) as -> by lia. lia.
  - destruct (Z.ltb_spec n 62); [by rewrite value62_cons, val_char62 by lia|].
    rewrite Nat2Z.inj_succ, Z.pow_succ_r in Hn by lia.
    rewrite IH, value62_cons, val_char62.
    + unfold len. cbn [length]. rewrite Nat2Z.inj_succ, Z.pow_succ_r by lia.
      rewrite (Z.div_mod n 62) at 3 by lia. lia.
    + apply Z.mod_pos_bound. lia.
    + split; [apply Z.div_pos; lia|]. apply Z.div_lt_upper_bound; lia.
Qed.

Lemma log2_fuel n : 0 <= n -> n < 2 ^ Z.of_nat (S (Z.to_nat (Z.log2 n))).
Proof.
  intros Hn. rewrite Nat2Z.inj_succ, Z2Nat.id by apply Z.log2_nonneg.
  destruct (Z.eq_dec n 0) as [->|]; [cbn; lia|]. apply Z.log2_spec. lia.
Qed.

Lemma text62_value n : 0 <= n -> value62 (text62 n) = n.
Proof.
  intros Hn. unfold text62. rewrite text62_aux_value by (split; [done|by apply log2_fuel]).
  unfold len, value62. cbn. lia.
Qed.

Lemma text62_aux_len fuel n acc k :
  0 <= n < 62 ^ Z.of_nat k -> (1 <= k)%nat ->
  (length (text62_aux fuel n acc) <= k + length acc)%nat.
Proof.
  revert n acc k. induction fuel as [|fuel IH]; intros n acc k Hn Hk; cbn [text62_aux]; [lia|].
  destruct (Z.ltb_spec n 62); [cbn [length]; lia|].
  destruct k as [|[|k]]; [lia|change (62 ^ Z.of_nat 1) with 62 in Hn; lia|].
  rewrite (IH (n / 62) _ (S k)); [cbn [length]; lia| |lia].
  rewrite (Nat2Z.inj_succ (S k)), Z.pow_succ_r in Hn by lia.
  split; [apply Z.div_pos; lia|apply Z.div_lt_upper_bound; lia].
Qed.

(** ** The CRC *)

Definition u32 (x : Z) : Prop := 0 <= x < 2 ^ 32.

Lemma lxor_u32 x y : u32 x -> u32 y -> u32 (Z.lxor x y).
Proof.
  unfold u32. intros Hx Hy.
  assert (Hn : 0 <= Z.lxor x y) by (apply Z.lxor_nonneg; lia).
  split; [done|].
  assert (Hs : forall z, 0 <= z < 2 ^ 32 -> Z.shiftr z 32 = 0).
  { intros z Hz. rewrite Z.shiftr_div_pow2 by lia. by apply Z.div_small. }
  assert (E : Z.shiftr (Z.lxor x y) 32 = 0) by (rewrite Z.shiftr_lxor, !Hs by done; done).
  rewrite Z.shiftr_div_pow2 in E by lia. apply Z.div_small_iff in E; lia.
Qed.

Lemma shiftr1_lt x : u32 x -> 0 <= Z.shiftr x 1 < 2 ^ 31.
Proof.
  unfold u32. intros H. rewrite Z.shiftr_div_pow2 by lia. change (2 ^ 1) with 2.
  split; [apply Z.div_pos; lia|apply Z.div_lt_upper_bound; lia].
Qed.

Lemma crc_bit_u32 x : u32 x -> u32 (crc_bit x).
Proof.
  intros H. pose proof (shiftr1_lt x H). unfold crc_bit.
  assert (u32 (Z.shiftr x 1)) by (unfold u32 in *; lia).
  destruct (Z.odd x); [|done]. apply lxor_u32; [done|]. unfold u32, ieee. lia.
Qed.

Lemma testbit31 x : 0 <= x < 2 ^ 31 -> Z.testbit x 31 = false.
Proof.
  intros H. destruct (Z.eq_dec x 0) as [->|]; [done|].
  apply Z.bits_above_log2; [lia|]. apply Z.log2_lt_pow2; lia.
Qed.

(** The bit shifted out shows in the top bit, so a step can be undone. *)
Lemma crc_bit_top x : u32 x -> Z.testbit (crc_bit x) 31 = Z.odd x.
Proof.
  intros H. pose proof (testbit31 _ (shiftr1_lt x H)) as E. unfold crc_bit.
  destruct (Z.odd x); [|done]. by rewrite Z.lxor_spec, E.
Qed.

Lemma crc_bit_inj x y : u32 x -> u32 y -> crc_bit x = crc_bit y -> x = y.
Proof.
  intros Hx Hy E. assert (Ho : Z.odd x = Z.odd y) by (rewrite <- !crc_bit_top by done; by rewrite E).
  assert (Es : Z.shiftr x 1 = Z.shiftr y 1).
  { unfold crc_bit in E. rewrite <- Ho in E. destruct (Z.odd x); [|done].
    apply (f_equal (fun z => Z.lxor z ieee)) in E.
    by rewrite !Z.lxor_assoc, Z.lxor_nilpotent, !Z.lxor_0_r in E. }
  rewrite (Z.div2_odd x), (Z.div2_odd y), <- Ho, !Z.div2_spec. by rewrite Es.
Qed.

Lemma crc_bits n x y :
  u32 x -> u32 y -> u32 (Nat.iter n crc_bit x) /\
  (Nat.iter n crc_bit x = Nat.iter n crc_bit y -> x = y).
Proof.
  intros Hx Hy. enough (u32 (Nat.iter n crc_bit x) /\ u32 (Nat.iter n crc_bit y) /\
    (Nat.iter n crc_bit x = Nat.iter n crc_bit y -> x = y)) by naive_solver.
  induction n as [|n (IHx & IHy & IH)]; cbn; [done|].
  split; [by apply crc_bit_u32|]. split; [by apply crc_bit_u32|].
  intros E. by apply IH, crc_bit_inj.
Qed.

Lemma ord_u32 c : u32 (ord c).
Proof. pose proof (ord_range c). unfold u32. lia. Qed.

Lemma crc_byte_u32 s c : u32 s -> u32 (crc_byte s c).
Proof.
  intros H. pose proof (lxor_u32 _ _ H (ord_u32 c)) as Hx. apply (crc_bits 8 _ _ Hx Hx).
Qed.

Lemma lxor_cancel_l a b c : Z.lxor a b = Z.lxor a c -> b = c.
Proof.
  intros E. apply (f_equal (Z.lxor a)) in E.
  by rewrite <- !Z.lxor_assoc, Z.lxor_nilpotent, !Z.lxor_0_l in E.
Qed.

(** A byte's step is injective in the state and in the byte. *)
Lemma crc_byte_inj s t c d :
  u32 s -> u32 t -> crc_byte s c = crc_byte t d -> Z.lxor s (ord c) = Z.lxor t (ord d).
Proof.
  intros Hs Ht E. refine (proj2 (crc_bits 8 _ _ _ _) E); apply lxor_u32; (done || apply ord_u32).
Qed.

Lemma crc_run_u32 l s : u32 s -> u32 (fold_left crc_byte l s).
Proof. revert s. induction l as [|c l IH]; intros s Hs; cbn; [done|]. apply IH, crc_byte_u32, Hs. Qed.

Lemma crc_run_inj l s t :
  u32 s -> u32 t -> fold_left crc_byte l s = fold_left crc_byte l t -> s = t.
Proof.
  revert s t. induction l as [|c l IH]; intros s t Hs Ht; cbn [fold_left]; [done|].
  intros E. apply IH in E; [|by apply crc_byte_u32..].
  apply crc_byte_inj in E; [|done..]. rewrite !(Z.lxor_comm _ (ord c)) in E. by apply lxor_cancel_l in E.
Qed.

Lemma ChecksumIEEE_u32 s : u32 (ChecksumIEEE s).
Proof. apply lxor_u32; [apply crc_run_u32; unfold u32|unfold u32]; lia. Qed.

(** One byte changed changes the CRC. *)
Lemma ChecksumIEEE_one_byte a b c d :
  ChecksumIEEE (a ++ c :: b) = ChecksumIEEE (a ++ d :: b) -> c = d.
Proof.
  unfold ChecksumIEEE. rewrite !fold_left_app. cbn [fold_left].
  assert (Hs : u32 (fold_left crc_byte a 0xFFFFFFFF)) by (apply crc_run_u32; unfold u32; lia).
  set (s := fold_left crc_byte a 0xFFFFFFFF) in *. intros E.
  rewrite !(Z.lxor_comm _ 0xFFFFFFFF) in E. apply lxor_cancel_l in E.
  apply crc_run_inj in E; [|by apply crc_byte_u32..]. apply crc_byte_inj in E; [|done..].
  apply lxor_cancel_l in E. by apply ord_inj.
Qed.

(** ** The checksum *)

Lemma value62_zeros n s : value62 (repeat "0"%char n ++ s) = value62 s.
Proof. induction n as [|n IH]; [done|]. cbn [repeat app]. rewrite value62_cons, IH. done. Qed.

Lemma checksum_value body : value62 (checksum body) = ChecksumIEEE body.
Proof.
  pose proof (ChecksumIEEE_u32 body) as [H _].
  unfold checksum. destruct (_ <? _)%nat; [rewrite value62_zeros|]; by apply text62_value.
Qed.

Lemma checksum_len body : length (checksum body) = checkLen.
Proof.
  pose proof (ChecksumIEEE_u32 body) as H. unfold checksum, checkLen.
  assert (Hl : (length (text62 (ChecksumIEEE body)) <= 6)%nat).
  { pose proof (text62_aux_len (S (Z.to_nat (Z.log2 (ChecksumIEEE body)))) (ChecksumIEEE body) [] 6)
      as Hl. cbn [length] in Hl. rewrite Nat.add_0_r in Hl. apply Hl; [|lia].
    unfold u32 in H. change (62 ^ Z.of_nat 6) with 56800235584. lia. }
  destruct (Nat.ltb_spec (length (text62 (ChecksumIEEE body))) 6);
    [rewrite length_app, repeat_length|]; lia.
Qed.

(** The keys [ValidKey] accepts, and nothing else. *)
Lemma ValidKey_iff key :
  ValidKey key = true <->
  exists body, key = KeyPrefix ++ body ++ checksum body /\ (minBodyLen <= length body)%nat.
Proof.
  unfold ValidKey. split.
  - destruct (has_prefix key KeyPrefix) eqn:E; [|done]. apply has_prefix_inv in E as (rest & ->).
    cbn [negb]. rewrite skipn_app, skipn_all, Nat.sub_diag, drop_0. cbn [app].
    destruct (Nat.ltb_spec (length rest) (minBodyLen + checkLen)); [done|].
    intros Hc%beq_spec. exists (firstn (length rest - checkLen) rest).
    rewrite <- Hc, firstn_skipn, length_firstn. split; [done|]. lia.
  - intros (body & -> & Hl). rewrite has_prefix_app. cbn [negb].
    rewrite skipn_app, skipn_all, Nat.sub_diag, drop_0. cbn [app].
    rewrite length_app, checksum_len.
    destruct (Nat.ltb_spec (length body + checkLen) (minBodyLen + checkLen)); [lia|].
    replace (length body + checkLen - checkLen)%nat with (length body) by lia.
    rewrite skipn_app, skipn_all, firstn_app, firstn_all, Nat.sub_diag, drop_0, take_0.
    cbn [app]. rewrite app_nil_r. by apply beq_spec.
Qed.

(** ** Properties *)

Lemma SetBytes_inj a b : length a = length b -> SetBytes a = SetBytes b -> a = b.
Proof.
  unfold SetBytes. intros Hl.
  assert (G : forall n m, fold_left (fun n c => n * 256 + ord c) a n
                          = fold_left (fun n c => n * 256 + ord c) b m -> n = m /\ a = b).
  { revert b Hl. induction a as [|c a IH]; intros [|d b] Hl n m; cbn [fold_left]; try done.
    intros E. apply IH in E; [|by injection Hl]. destruct E as [E ->].
    pose proof (ord_range c). pose proof (ord_range d).
    assert (n = m /\ ord c = ord d) as [-> Ho%ord_inj] by lia. by subst. }
  apply G.
Qed.

(** Every key that is issued is accepted, and two keys are the same only when their
    random bytes are; the body a key can be read back to is unique. *)
Theorem issued_keys_valid raw key :
  NewKey raw = Some key ->
  ValidKey key = true /\
  forall raw', length raw' = length raw -> NewKey raw' = Some key -> raw' = raw.
Proof.
  assert (Hn : forall raw, 0 <= SetBytes raw).
  { intros r. unfold SetBytes. assert (G : forall n, 0 <= n ->
      0 <= fold_left (fun n c => n * 256 + ord c) r n); [|by apply G].
    induction r as [|c r IH]; intros n H0; cbn [fold_left]; [done|]. apply IH.
    pose proof (ord_range c). lia. }
  unfold NewKey. destruct (Nat.ltb_spec (length (text62 (SetBytes raw))) minBodyLen); [done|].
  intros <-%(inj Some). split; [apply ValidKey_iff; by eexists|].
  intros raw' Hl. destruct (_ <? _)%nat; [done|].
  intros E%(inj Some)%app_inv_head. apply app_inj_2 in E as [E _]; [|by rewrite !checksum_len].
  apply SetBytes_inj; [done|]. rewrite <- (text62_value _ (Hn raw)), <- (text62_value _ (Hn raw')).
  by rewrite E.
Qed.

Definition demo_raw : bytes := map byte_of (seqZ 1 32).
Definition demo_key : bytes := default [] (NewKey demo_raw).

Lemma issued_keys_valid_witness : ValidKey demo_key = true.
Proof. refine (proj1 (issued_keys_valid demo_raw demo_key _)). vm_compute. reflexivity. Defined.

(** Two lists that differ in one place, cut at the same place. *)
Lemma one_difference {A} (a b p p' q q' : list A) c c' :
  a ++ c :: b = p ++ q -> a ++ c' :: b = p' ++ q' -> length p = length p' ->
  (p = p' /\ exists a', q = a' ++ c :: b /\ q' = a' ++ c' :: b) \/
  (q = q' /\ exists b', p = a ++ c :: b' /\ p' = a ++ c' :: b').
Proof.
  revert p p'. induction a as [|x a IH]; intros [|y p] [|y' p'] E E' Hl; try done.
  - left. split; [done|]. by exists [].
  - cbn in E, E'. injection E as <- ->. injection E' as <- E'. right.
    apply app_inj_1 in E' as [<- <-]; [|by injection Hl]. split; [done|]. by exists p.
  - left. split; [done|]. by exists (x :: a).
  - cbn in E, E'. injection E as <- E. injection E' as <- E'.
    destruct (IH p p' E E' ltac:(by injection Hl)) as [(-> & a' & -> & ->)|(-> & b' & -> & ->)].
    + left. split; [done|]. by exists a'.
    + right. split; [done|]. by exists b'.
Qed.

(** A slip of the finger never reaches the database: a key that differs from a
    valid one in exactly one character, wherever it is - prefix, body or checksum -
    is refused. *)
Theorem one_wrong_character_refused a c b c' :
  ValidKey (a ++ c :: b) = true -> c' <> c -> ValidKey (a ++ c' :: b) = false.
Proof.
  intros (body & E & _)%ValidKey_iff Hne. apply not_true_iff_false. intros (body' & E' & _)%ValidKey_iff.
  destruct (one_difference _ _ _ _ _ _ _ _ E E' eq_refl) as [(_ & a' & E1 & E2)|(_ & b' & E1 & E2)].
  2: { rewrite E1 in E2. apply app_inv_head in E2. congruence. }
  symmetry in E1, E2.
  assert (Hl : length body = length body').
  { apply (f_equal length) in E1, E2. rewrite !length_app in E1, E2. cbn [length] in E1, E2.
    rewrite !checksum_len in *. lia. }
  destruct (one_difference _ _ _ _ _ _ _ _ E1 E2 Hl) as [(<- & k & F1 & F2)|(F & k & -> & ->)].
  - rewrite F1 in F2. apply app_inv_head in F2. congruence.
  - apply (f_equal value62) in F. rewrite !checksum_value in F. apply ChecksumIEEE_one_byte in F.
    congruence.
Qed.

Lemma one_wrong_character_refused_witness :
  ValidKey demo_key = true /\ ValidKey (firstn 20 demo_key ++ "!"%char :: skipn 21 demo_key) = false.
Proof.
  assert (H : ValidKey demo_key = true) by (vm_compute; reflexivity). split; [exact H|].
  apply (one_wrong_character_refused (firstn 20 demo_key) (nth 20 demo_key "0"%char)
           (skipn 21 demo_key)).
  - assert (E : firstn 20 demo_key ++ nth 20 demo_key "0"%char :: skipn 21 demo_key = demo_key)
      by (vm_compute; reflexivity).
    by rewrite E.
  - vm_compute. discriminate.
Defined.
