(* ===== verification/Cache.v ===== *)
(** * The shared cache: [foundation/drivers/cache]

    The interface, as a class with the laws its users rely on, and the in-process
    driver of [memory.go], which meets them for every eviction the LRU library may
    make. *)
From S2P Require Import Prelude.

Open Scope Z_scope.

(** ** The cache driver *)

(** [ctx] and the instant a call runs at; [None] is a miss or an error, which the
    callers treat alike. *)
Class CacheStore (V C : Type) := {
  cache_get : Z -> C -> string -> option V;
  cache_set : Z -> C -> string -> V -> Z -> C;
  cache_delete : C -> string -> C;
}.

(** A cache may forget; it never answers with anything but what was last set under
    the key, no longer than its time-to-live, and nothing after a delete. *)
Class CacheLaws (V C : Type) `{CacheStore V C} := {
  get_set now now' (c : C) key v ttl v' :
    now <= now' -> cache_get now' (cache_set now c key v ttl) key = Some v' ->
    v' = v /\ (0 < ttl -> now' <= now + ttl);
  get_set_ne now now' (c : C) key key' v ttl v' :
    key <> key' -> cache_get now' (cache_set now c key v ttl) key' = Some v' ->
    cache_get now' c key' = Some v';
  get_delete now (c : C) key key' v' :
    cache_get now (cache_delete c key) key' = Some v' ->
    key <> key' /\ cache_get now c key' = Some v';
  get_earlier now now' (c : C) key v :
    now <= now' -> cache_get now' c key = Some v -> cache_get now c key = Some v;
}.

Record memEntry (V : Type) := mkEntry { me_value : V; me_expiresAt : option Z }.
Arguments mkEntry {V}.
Arguments me_value {V}.
Arguments me_expiresAt {V}.

Section memory.
Context {V : Type}.
Abbreviation lru := (gmap string (memEntry V)).

(** What [lru.Add] drops to make room. *)
Variable evict : string -> lru -> lru.
Hypothesis evict_sub : forall key c, evict key c ⊆ c.

Definition Memory_Get (now : Z) (c : lru) (key : string) : option V :=
  match c !! key with
  | None => None
  | Some e =>
      match me_expiresAt e with
      | Some x => if x <? now then None else Some (me_value e)
      | None => Some (me_value e)
      end
  end.

Definition Memory_Set (now : Z) (c : lru) (key : string) (v : V) (ttl : Z) : lru :=
  evict key (<[key := mkEntry v (if 0 <? ttl then Some (now + ttl) else None)]> c).

Definition Memory_Delete (c : lru) (key : string) : lru := delete key c.

Definition Memory_cache : CacheStore V lru :=
  {| cache_get := Memory_Get; cache_set := Memory_Set; cache_delete := Memory_Delete |}.

Lemma Memory_Get_sub now (c d : lru) key v :
  c ⊆ d -> Memory_Get now c key = Some v -> Memory_Get now d key = Some v.
Proof using.
  unfold Memory_Get. intros Hs. destruct (c !! key) as [e|] eqn:E; [|done].
  by rewrite (lookup_weaken _ _ _ _ E Hs).
Qed.

Lemma Memory_cache_laws : @CacheLaws V lru Memory_cache.
Proof using evict_sub.
  split; cbn [cache_get cache_set cache_delete Memory_cache].
  - intros now now' c key v ttl v' _ H. apply (Memory_Get_sub _ _ _ _ _ (evict_sub _ _)) in H.
    revert H. unfold Memory_Get. rewrite lookup_insert_eq. cbn [me_expiresAt me_value].
    destruct (Z.ltb_spec 0 ttl); [|intros [= <-]; split; [done|lia]].
    destruct (Z.ltb_spec (now + ttl) now'); [done|]. intros [= <-]. split; [done|lia].
  - intros now now' c key key' v ttl v' Hne H. apply (Memory_Get_sub _ _ _ _ _ (evict_sub _ _)) in H.
    revert H. unfold Memory_Get. by rewrite lookup_insert_ne.
  - intros now c key key' v'. unfold Memory_Get, Memory_Delete.
    destruct (decide (key = key')) as [<-|Hne]; [by rewrite lookup_delete_eq|].
    by rewrite lookup_delete_ne.
  - intros now now' c key v Hle. unfold Memory_Get. destruct (c !! key) as [e|]; [|done].
    destruct (me_expiresAt e) as [x|]; [|done].
    destruct (Z.ltb_spec x now'), (Z.ltb_spec x now); (done || lia).
Qed.
End memory.
