(* ===== verification/Settings.v ===== *)
(** * Runtime settings: the [settings] package and
    [internal/gateway/catalog/settings.go]

    A registry of typed keys, grouped into sections whose values are subject to
    rules; a store that validates a batch of writes against both, reads through a
    cache and seals secrets; and the typed readers of the gateway's own keys, which
    bound what they return whatever is stored. *)
From S2P Require Import Prelude GoStr Money BreakerStore Cache.

Open Scope Z_scope.

(** ** JSON values, as [encoding/json] decodes them

    A raw message stands for its canonical text; the fields of an object have
    distinct names.  [JNum None] is a number that is no integer literal.  Decoding
    [null] leaves the target at its zero value. *)
Inductive json :=
  | JNull
  | JBool (b : bool)
  | JNum (n : option Z)
  | JStr (s : bytes)
  | JArr (l : list json)
  | JObj (fields : list (bytes * json)).

Definition as_string (v : json) : option bytes :=
  match v with JStr s => Some s | JNull => Some [] | _ => None end.
Definition as_bool (v : json) : option bool :=
  match v with JBool b => Some b | JNull => Some false | _ => None end.
Definition as_int (v : json) : option Z :=
  match v with
  | JNum (Some n) => if is_int64 n then Some n else None
  | JNull => Some 0
  | _ => None
  end.
Definition as_strings (v : json) : option (list bytes) :=
  match v with JArr l => mapM as_string l | JNull => Some [] | _ => None end.
Definition as_ints (v : json) : option (list Z) :=
  match v with JObj fields => mapM (fun f => as_int f.2) fields | JNull => Some [] | _ => None end.

(** ** The registry: [registry.go] *)

Inductive Kind :=
  | KindString | KindEnum | KindStringList | KindEmail | KindBool | KindInt
  | KindDecimalString | KindMapStringInt | KindMoney | KindSecret.

#[export] Instance Kind_eq_dec : EqDecision Kind.
Proof. solve_decision. Defined.

Record Range := mkRange { rg_Min : Z; rg_Max : Z }.

(** A [Spec], without what only the interface shows. *)
Record Spec := mkSpec {
  sp_Key : string;
  sp_Kind : Kind;
  sp_Section : string;
  sp_Enum : list bytes;
  sp_Range : option Range;
  sp_Default : option json;
}.

Inductive invalid :=
  | MustBe (what : string)
  | OutOfRange (lo hi : Z)
  | NotOneOf (allowed : list bytes).

(** [money.FormatNanoExact] only words the message. *)
Definition check_range (r : option Range) (n : Z) : option invalid :=
  match r with
  | Some r => if (n <? rg_Min r) || (rg_Max r <? n)
              then Some (OutOfRange (rg_Min r) (rg_Max r)) else None
  | None => None
  end.

Definition decoded {A} (what : string) (v : option A) (check : A -> option invalid) : option invalid :=
  match v with Some a => check a | None => Some (MustBe what) end.

(** What a rule sees: the effective value of every key of its sections. *)
Abbreviation Values := (gmap string json).

Section registry.
(** [mail.ParseAddress] succeeds. *)
Variable ParseAddress : bytes -> bool.

(** [Spec.Validate]: [None] is acceptance. *)
Definition Validate (s : Spec) (raw : json) : option invalid :=
  match sp_Kind s with
  | KindString | KindSecret => decoded "a string" (as_string raw) (fun _ => None)
  | KindEnum => decoded "a string" (as_string raw) (fun v =>
      if existsb (beq v) (sp_Enum s) then None else Some (NotOneOf (sp_Enum s)))
  | KindStringList => decoded "an array of strings" (as_strings raw) (fun _ => None)
  | KindEmail => decoded "a string" (as_string raw) (fun v =>
      if beq v [] then None
      else if ParseAddress v then None else Some (MustBe "a valid email address"))
  | KindBool => decoded "a boolean" (as_bool raw) (fun _ => None)
  | KindInt => decoded "an integer" (as_int raw) (check_range (sp_Range s))
  | KindDecimalString => decoded "a decimal number as a string" (as_string raw) (fun v =>
      if IsSignedDecimal v then None else Some (MustBe "a decimal number as a string"))
  | KindMoney => decoded "an amount as a decimal string" (as_string raw) (fun v =>
      if beq v [] then None
      else match ParseDecimalNano v with
           | Err _ => Some (MustBe "an amount as a decimal string")
           | Ok n => if n <? 0 then Some (MustBe "not negative") else check_range (sp_Range s) n
           end)
  | KindMapStringInt => decoded "a string-to-integer mapping" (as_ints raw) (fun v =>
      match sp_Range s with
      | Some r => List.find (fun _ => true) (omap (check_range (Some r)) v)
      | None => None
      end)
  end.

(** *** Sections: [section.go] *)

Definition Has (v : Values) (key : string) : bool := bool_decide (is_Some (v !! key)).
Definition vString (v : Values) (key : string) : bytes := default [] (v !! key ≫= as_string).
Definition vInt64 (v : Values) (key : string) : Z := default 0 (v !! key ≫= as_int).
Definition vBool (v : Values) (key : string) : bool := default false (v !! key ≫= as_bool).

Definition Nano (v : Values) (key : string) : Z :=
  let s := vString v key in
  if beq s [] then 0 else match ParseDecimalNano s with Ok n => n | Err _ => 0 end.

(** The literal texts [""], [0] and [null]. *)
Definition vSet (v : Values) (key : string) : bool :=
  match v !! key with
  | None | Some JNull | Some (JStr []) | Some (JNum (Some 0)) => false
  | Some _ => true
  end.

Record SectionRule := mkRule {
  sr_Section : string;
  sr_Reads : list string;
  sr_Check : Values -> option string;
}.

(** [RequireAllOrNone]; the message names the keys. *)
Definition RequireAllOrNone (keys : list string) (v : Values) : option string :=
  let set_ := List.filter (vSet v) keys in
  let missing := List.filter (fun k => negb (vSet v k)) keys in
  match set_, missing with
  | [], _ | _, [] => None
  | _, _ => Some "requires"%string
  end.

Record Registry := mkRegistry {
  rg_specs : gmap string Spec;
  rg_rules : gmap string (list SectionRule);   (** by the section they are declared on *)
}.

Definition Lookup (r : Registry) (key : string) : option Spec := rg_specs r !! key.

(** [NewRegistry]: [None] where the code panics. *)
Definition add_spec (r : option (gmap string Spec)) (s : Spec) : option (gmap string Spec) :=
  match r with
  | Some m => if bool_decide (is_Some (m !! sp_Key s)) then None else Some (<[sp_Key s := s]> m)
  | None => None
  end.
Definition NewRegistry (groups : list (list Spec)) : option Registry :=
  (fun m => mkRegistry m ∅) <$> fold_left add_spec (concat groups) (Some ∅).

Definition All (r : Registry) : list Spec :=
  SortFunc (fun a b => String.compare (sp_Key a) (sp_Key b)) (map_to_list (rg_specs r)).*2.

Definition SectionKeys (r : Registry) (section : string) : list Spec :=
  List.filter (fun s => bool_decide (sp_Section s = section)) (All r).

Definition known_section (r : Registry) (section : string) : bool :=
  negb (bool_decide (section = ""%string)) && negb (bool_decide (SectionKeys r section = [])).

(** [MustAddRules]: [None] where it panics. *)
Definition add_rule (r : option Registry) (rule : SectionRule) : option Registry :=
  match r with
  | Some r =>
      if known_section r (sr_Section rule) && forallb (known_section r) (sr_Reads rule)
      then Some (mkRegistry (rg_specs r)
                   (<[sr_Section rule := default [] (rg_rules r !! sr_Section rule) ++ [rule]]>
                      (rg_rules r)))
      else None
  | None => None
  end.
Definition MustAddRules (r : Registry) (rules : list SectionRule) : option Registry :=
  fold_left add_rule rules (Some r).

Definition all_rules (r : Registry) : list SectionRule := concat (map_to_list (rg_rules r)).*2.

Definition touches (sections : gset string) (rule : SectionRule) : bool :=
  bool_decide (sr_Section rule ∈ sections) || existsb (fun s => bool_decide (s ∈ sections)) (sr_Reads rule).

(** A section's own rules run before the rules that read it. *)
Definition rule_cmp (a b : SectionRule) : comparison :=
  match sr_Reads a, sr_Reads b with
  | [], _ :: _ => Lt
  | _ :: _, [] => Gt
  | _, _ => String.compare (sr_Section a) (sr_Section b)
  end.

Definition looks_at (rule : SectionRule) : gset string := {[ sr_Section rule ]} ∪ list_to_set (sr_Reads rule).

Definition rulesTouching (r : Registry) (sections : gset string) : list SectionRule * list string :=
  let hit := List.filter (touches sections) (all_rules r) in
  (SortFunc rule_cmp hit,
   SortFunc String.compare (elements (sections ∪ union_list (map looks_at hit)))).
End registry.

(** ** The store: [settings.go] *)

Section store.
(** Sealed secrets: [crypto.Box] under the application key, with the setting's key
    as associated data. *)
Context {sealed : Type}.
Variable Seal : json -> string -> option sealed.
Variable Open_ : sealed -> string -> option json.
Variable ParseAddress : bytes -> bool.
Variable reg : Registry.
Implicit Types (key : string) (value : json).

(** A row of [settings], without who wrote it when and the hint of a secret. *)
Inductive Row := Plain (value : json) | Sealed (c : sealed).
Abbreviation Table := (gmap string Row).
Implicit Types t : Table.

Inductive write_error :=
  | ErrUnknownKey (key : string)
  | ValidationError (key : string) (why : invalid)
  | Twice (key : string)
  | SectionError (section why : string)
  | SealFailed (key : string)
  | DbFailed.

Definition is_secret key : bool :=
  match Lookup reg key with Some s => bool_decide (sp_Kind s = KindSecret) | None => false end.

(** Whether the database takes the write of a key, and answers a query. *)
Variable exec_ok : string -> bool.
Variable query_ok : bool.

Definition put t key (row : option Row) : result write_error Table :=
  if exec_ok key then Ok (partial_alter (fun _ => row) key t) else Err DbFailed.

(** [Store.set]. *)
Definition set_row t key value : result write_error Table :=
  if negb (is_secret key) then put t key (Some (Plain value))
  else
    match as_string value with
    | None => Err (ValidationError key (MustBe "a string"))
    | Some plaintext =>
        if beq plaintext [] then put t key None
        else match Seal value key with
             | None => Err (SealFailed key)
             | Some c => put t key (Some (Sealed c))
             end
    end.

(** *** Effective values *)

Definition base_value (s : Spec) : option json :=
  if bool_decide (sp_Kind s = KindSecret) then None else sp_Default s.

(** What a stored row stands for; an unreadable secret counts as unset. *)
Definition stored_value key (row : Row) : option json :=
  match row with Plain v => Some v | Sealed c => Open_ c key end.

Definition put_value (v : Values) key (x : option json) : Values :=
  match x with Some x => <[key := x]> v | None => v end.

Definition loadValues t (sections : list string) : Values :=
  let specs := concat (map (SectionKeys reg) sections) in
  let values := fold_left (fun v s => put_value v (sp_Key s) (base_value s)) specs ∅ in
  fold_left (fun v s => put_value v (sp_Key s) (t !! sp_Key s ≫= stored_value (sp_Key s))) specs values.

(** *** Batches: [Apply] *)

Abbreviation Change := (string * json)%type.

Definition secretClears value : bool :=
  match as_string value with Some plaintext => beq plaintext [] | None => false end.

(** The loop over the batch: the sections it touches, or the first refusal. *)
Fixpoint plan_keys (changes : list Change) (seen touched : gset string) :
    result write_error (gset string) :=
  match changes with
  | [] => Ok touched
  | (key, value) :: changes =>
      match Lookup reg key with
      | None => Err (ErrUnknownKey key)
      | Some spec =>
          if bool_decide (key ∈ seen) then Err (Twice key)
          else match Validate ParseAddress spec value with
               | Some why => Err (ValidationError key why)
               | None =>
                   plan_keys changes ({[key]} ∪ seen)
                     (if bool_decide (sp_Section spec = ""%string) then touched
                      else {[sp_Section spec]} ∪ touched)
               end
      end
  end.

Definition merge (values : Values) (c : Change) : Values :=
  if is_secret c.1 && secretClears c.2 then delete c.1 values else <[c.1 := c.2]> values.

Fixpoint first_violation (rules : list SectionRule) (values : Values) : option write_error :=
  match rules with
  | [] => None
  | rule :: rules =>
      match sr_Check rule values with
      | Some why => Some (SectionError (sr_Section rule) why)
      | None => first_violation rules values
      end
  end.

Definition plan t (changes : list Change) : option write_error :=
  match plan_keys changes ∅ ∅ with
  | Err e => Some e
  | Ok touched =>
      let '(rules, load) := rulesTouching reg touched in
      match rules with
      | [] => None
      | _ => if query_ok then first_violation rules (fold_left merge changes (loadValues t load))
             else Some DbFailed
      end
  end.

Fixpoint set_all t (changes : list Change) : result write_error Table :=
  match changes with
  | [] => Ok t
  | (key, value) :: changes => try t <- set_row t key value; set_all t changes
  end.

(** The keys to invalidate and the table, inside the caller's transaction; on an
    error the caller rolls it back. *)
Definition Apply t (changes : list Change) : result write_error (list string * Table) :=
  match plan t changes with
  | Some e => Err e
  | None => try t <- set_all t changes; Ok (changes.*1, t)
  end.

(** [CheckSections]: the rules the stored state breaks. *)
Definition CheckSections t : list (string * string) :=
  let '(rules, load) := rulesTouching reg (list_to_set (map_to_list (rg_rules reg)).*1) in
  let values := loadValues t load in
  omap (fun rule => match sr_Check rule values with
                    | Some why => Some (sr_Section rule, why)
                    | None => None
                    end) rules.

(** *** Reading through the cache *)

Inductive payload := PValue (value : json) | PSealed (c : sealed).

(** [SELECT value] or [SELECT secret_enc]. *)
Definition read_row t key (secret : bool) : option payload :=
  match t !! key, secret with
  | Some (Plain v), false => Some (PValue v)
  | Some (Sealed c), true => Some (PSealed c)
  | _, _ => None
  end.

Context {C : Type} `{CacheStore (option payload) C}.
Implicit Types c : C.

Definition cacheTTL : Z := 60 * Second.
Definition cacheKey key : string := ("settings:" ++ key)%string.

(** [Store.raw]: a cached [None] is a known absence.  The database is read at [now]
    and the answer cached at [later]. *)
Definition raw now later c t key (secret : bool) : result write_error (option payload) * C :=
  match cache_get now c (cacheKey key) with
  | Some v => (Ok v, c)
  | None =>
      if query_ok
      then let v := read_row t key secret in (Ok v, cache_set later c (cacheKey key) v cacheTTL)
      else (Err DbFailed, c)
  end.

Inductive read_error := ReadFailed | ErrSecretUnreadable | Undecodable.

(** [Store.value]. *)
Definition value_of now later c t key : result read_error (option json) * C :=
  let secret := is_secret key in
  match raw now later c t key secret with
  | (Err _, c) => (Err ReadFailed, c)
  | (Ok None, c) => (Ok None, c)
  | (Ok (Some p), c) =>
      (match p, secret with
       | PValue v, false => Ok (Some v)
       | PSealed s, true => match Open_ s key with
                            | Some plain => Ok (Some plain)
                            | None => Err ErrSecretUnreadable
                            end
       | PSealed _, false => Err Undecodable
       | PValue _, true => Err ErrSecretUnreadable
       end, c)
  end.

Definition Get {A} (decode : json -> option A) now later c t key : result read_error (option A) * C :=
  match value_of now later c t key with
  | (Ok (Some v), c) =>
      (match decode v with Some a => Ok (Some a) | None => Err Undecodable end, c)
  | (Ok None, c) => (Ok None, c)
  | (Err e, c) => (Err e, c)
  end.

(** [Store.Set]: one key, no rules, then the invalidation. *)
Definition Set_ c t key value : result write_error Table * C :=
  match set_row t key value with
  | Err e => (Err e, c)
  | Ok t => (Ok t, cache_delete c (cacheKey key))
  end.

Definition defaultInt key : Z :=
  match Lookup reg key with
  | Some s => default 0 (sp_Default s ≫= as_int)
  | None => 0
  end.

(** [RetentionDays], from what [Get] answered. *)
Definition RetentionDays (got : result read_error (option Z)) key : Z :=
  match got with
  | Ok (Some v) => if 0 <? v then v else defaultInt key
  | _ => defaultInt key
  end.
End store.
Arguments Plain {sealed}.
Arguments Sealed {sealed}.
Arguments PValue {sealed}.
Arguments PSealed {sealed}.

(** ** Built clients: [resolver.go] *)

Section resolver.
Context {A D : Type} `{EqDecision D}.
Variable reg : Registry.
Variable fingerprint : Values -> D.
Variable build : Values -> result string A.

(** [values]: the effective values of the sections, read key by key; an unreadable
    secret counts as unset. *)
Definition read_value (read : string -> result read_error (option json)) (acc : result read_error Values)
    (s : Spec) : result read_error Values :=
  try values <- acc;
  let values := put_value values (sp_Key s) (base_value s) in
  match read (sp_Key s) with
  | Err ErrSecretUnreadable => Ok values
  | Err e => Err e
  | Ok x => Ok (put_value values (sp_Key s) x)
  end.

Definition resolver_values (read : string -> result read_error (option json)) (sections : list string) :
    result read_error Values :=
  fold_left (read_value read) (concat (map (SectionKeys reg) sections)) (Ok ∅).

(** The last client built, or why it could not be, with the fingerprint of the
    values it was built from. *)
Abbreviation Resolver := (option (D * result string A)).

Definition resolver_Get (r : Resolver) (values : result read_error Values) :
    result (read_error + string) A * Resolver :=
  match values with
  | Err e => (match r with Some (_, Ok cur) => Ok cur | _ => Err (inl e) end, r)
  | Ok values =>
      let fp := fingerprint values in
      let fresh :=
        match r with
        | Some (fp', built) => if bool_decide (fp = fp') then built else build values
        | None => build values
        end in
      (match fresh with Ok cur => Ok cur | Err e => Err (inr e) end, Some (fp, fresh))
  end.

(** What is remembered was built from values with the remembered fingerprint. *)
Definition built_from (r : Resolver) : Prop :=
  forall fp built, r = Some (fp, built) -> exists v, fingerprint v = fp /\ built = build v.

(** A client always matches the settings it is used under: with a collision-free
    fingerprint every call returns what building from the current values would,
    and while they cannot be read the last client that could be built. *)
Theorem resolver_follows_settings r values :
  (forall v v', fingerprint v = fingerprint v' -> v = v') -> built_from r ->
  built_from (resolver_Get r values).2 /\
  match values with
  | Ok v => (resolver_Get r values).1 = match build v with Ok a => Ok a | Err e => Err (inr e) end
  | Err e => (resolver_Get r values).1
             = match r with Some (_, Ok cur) => Ok cur | _ => Err (inl e) end
  end.
Proof using.
  intros Hinj Hb. unfold resolver_Get. destruct values as [v|e]; [|done]. cbn [fst snd].
  assert (Hf : match r with
    | Some (fp', built) => if bool_decide (fingerprint v = fp') then built else build v
    | None => build v end = build v).
  { destruct r as [[fp' built]|]; [|done]. case_bool_decide as E; [|done].
    destruct (Hb _ _ eq_refl) as (v' & Hv' & ->). f_equal. apply Hinj. congruence. }
  rewrite Hf. split; [|done]. intros fp built [= <- <-]. by exists v.
Qed.
End resolver.

(** ** The gateway's own settings: [internal/gateway/catalog/settings.go] *)

Definition KeyFXUSDCNY : string := "gateway.fx_usd_cny".
Definition KeyKillSwitch : string := "gateway.kill_switch".
Definition KeyBYOKFeeBps : string := "gateway.byok_fee_bps".
Definition KeyResourceAffinityTTLDays : string := "gateway.resource_affinity_ttl_days".
Definition KeyVideoRetentionHours : string := "gateway.video_retention_hours".

Definition maxFeeBps : Z := 100000.

Definition Specs : list Spec :=
  [ mkSpec KeyFXUSDCNY KindDecimalString "" [] None (Some (JStr (lit "0")));
    mkSpec KeyBYOKFeeBps KindInt "" [] (Some (mkRange 0 maxFeeBps)) (Some (JNum (Some 500)));
    mkSpec KeyKillSwitch KindBool "" [] None (Some (JBool false));
    mkSpec KeyResourceAffinityTTLDays KindInt "" [] (Some (mkRange 1 90)) (Some (JNum (Some 60)));
    mkSpec KeyVideoRetentionHours KindInt "" [] (Some (mkRange 1 720)) (Some (JNum (Some 168))) ].

Definition defaultBYOKFeeBps : Z := 500.
Definition defaultResourceAffinityTTLDays : Z := 60.
Definition defaultVideoRetentionHours : Z := 168.
Definition minVideoRetentionHours : Z := 1.
Definition maxVideoRetentionHours : Z := 720.
Definition Hour : Z := 60 * 60 * Second.

Section readers.
(** [store.Get], decoded. *)
Variable get_int : string -> result read_error (option Z).
Variable get_bool : string -> result read_error (option bool).
Variable get_string : string -> result read_error (option bytes).

Definition ResourceAffinityTTL : Z :=
  let days :=
    match get_int KeyResourceAffinityTTLDays with
    | Ok (Some days) => if (days <? 1) || (90 <? days) then defaultResourceAffinityTTLDays else days
    | _ => defaultResourceAffinityTTLDays
    end in
  days * 24 * Hour.

Definition BYOKFeeBps : Z :=
  match get_int KeyBYOKFeeBps with
  | Ok (Some v) => if v <? 0 then defaultBYOKFeeBps else v
  | _ => defaultBYOKFeeBps
  end.

(** The empty string is "not configured". *)
Definition FXRateOf (currency : string) : bytes :=
  if bool_decide (currency = ""%string) || bool_decide (currency = "USD"%string) then lit "1"
  else if negb (bool_decide (currency = "CNY"%string)) then []
  else match get_string KeyFXUSDCNY with
       | Ok (Some v) => if beq v [] || beq v (lit "0") then [] else v
       | _ => []
       end.

Definition KillSwitch : bool :=
  match get_bool KeyKillSwitch with Ok (Some v) => v | _ => false end.

Definition VideoRetention : Z :=
  let hours :=
    match get_int KeyVideoRetentionHours with
    | Ok (Some hours) => if (hours <? minVideoRetentionHours) || (maxVideoRetentionHours <? hours)
                         then defaultVideoRetentionHours else hours
    | _ => defaultVideoRetentionHours
    end in
  hours * Hour.
End readers.

(** ** Properties *)

(** *** The registry *)

Definition registry_wf (reg : Registry) : Prop :=
  forall key s, Lookup reg key = Some s -> sp_Key s = key.

Lemma NewRegistry_wf groups reg : NewRegistry groups = Some reg -> registry_wf reg.
Proof.
  unfold NewRegistry. intros (m & Hm & ->)%fmap_Some.
  assert (G : forall l r m', fold_left add_spec l r = Some m' ->
    (forall m0, r = Some m0 -> forall k s, m0 !! k = Some s -> sp_Key s = k) ->
    forall k s, m' !! k = Some s -> sp_Key s = k).
  { induction l as [|s l IH]; intros r m' Hf Hr; cbn [fold_left] in Hf; [by apply (Hr m')|].
    apply (IH _ _ Hf). intros m0. unfold add_spec. destruct r as [m1|]; [|done].
    case_bool_decide; [done|]. intros [= <-] k s'.
    destruct (decide (sp_Key s = k)) as [<-|Hne].
    - rewrite lookup_insert_eq. by intros [= <-].
    - rewrite lookup_insert_ne by done. by apply Hr. }
  intros key s Hs. by apply (G _ _ _ Hm) in Hs; [|intros m0 [= <-] k s'; rewrite lookup_empty].
Qed.

Section registry_facts.
Variable reg : Registry.
Hypothesis wf : registry_wf reg.

Lemma SectionKeys_elem section s :
  s ∈ SectionKeys reg section <-> Lookup reg (sp_Key s) = Some s /\ sp_Section s = section.
Proof using wf.
  unfold SectionKeys. rewrite list_elem_of_In, filter_In, <- list_elem_of_In, bool_decide_eq_true.
  unfold All. rewrite SortFunc_perm, list_elem_of_fmap. split; intros [H ?]; (split; [|done]).
  - destruct H as ([k s'] & -> & Hin). apply elem_of_map_to_list in Hin. cbn [snd].
    unfold Lookup. by rewrite (wf _ _ Hin).
  - exists (sp_Key s, s). split; [done|]. by apply elem_of_map_to_list.
Qed.

Lemma all_rules_elem sections rule :
  rule ∈ (rulesTouching reg sections).1 <-> rule ∈ all_rules reg /\ touches sections rule = true.
Proof using.
  unfold rulesTouching. cbn [fst]. rewrite SortFunc_perm.
  rewrite !list_elem_of_In, filter_In. done.
Qed.

Lemma touched_loaded sections rule s :
  rule ∈ (rulesTouching reg sections).1 -> s ∈ looks_at rule -> s ∈ (rulesTouching reg sections).2.
Proof using.
  intros Hr Hs. unfold rulesTouching. cbn [snd]. rewrite SortFunc_perm, elem_of_elements, elem_of_union.
  right. apply elem_of_union_list. exists (looks_at rule). split; [|done].
  apply list_elem_of_fmap. exists rule. split; [done|].
  apply all_rules_elem in Hr as [Ha Ht]. by apply list_elem_of_In, filter_In; rewrite <- list_elem_of_In.
Qed.

Lemma touches_spec sections rule :
  touches sections rule = true <-> exists s, s ∈ looks_at rule /\ s ∈ sections.
Proof using.
  unfold touches, looks_at. rewrite orb_true_iff, bool_decide_eq_true, existsb_exists. split.
  - intros [H|(s & Hs & H%bool_decide_eq_true)].
    + exists (sr_Section rule). split; [|done]. apply elem_of_union. left. by apply elem_of_singleton.
    + exists s. split; [|done]. apply elem_of_union. right. apply elem_of_list_to_set.
      by apply list_elem_of_In.
  - intros (s & [->%elem_of_singleton|Hs%elem_of_list_to_set]%elem_of_union & H); [by left|right].
    exists s. rewrite bool_decide_eq_true. by rewrite <- list_elem_of_In.
Qed.
End registry_facts.

(** *** Effective values *)

Section store_facts.
Context {sealed : Type}.
Variable Seal : json -> string -> option sealed.
Variable Open_ : sealed -> string -> option json.
Variable ParseAddress : bytes -> bool.
Variable reg : Registry.
Hypothesis wf : registry_wf reg.
Implicit Types (key : string) (value : json) (t : gmap string (Row (sealed := sealed))).

(** The effective value of one key. *)
Definition effective t key : option json :=
  match Lookup reg key with
  | None => None
  | Some s => match t !! key ≫= stored_value Open_ key with
              | Some x => Some x
              | None => base_value s
              end
  end.

Lemma fold_put_ne (f : Spec -> option json) specs v key :
  (forall s, s ∈ specs -> sp_Key s <> key) ->
  fold_left (fun v s => put_value v (sp_Key s) (f s)) specs v !! key = v !! key.
Proof using.
  revert v. induction specs as [|s specs IH]; intros v Hne; cbn [fold_left]; [done|].
  rewrite IH by (intros s' Hs'; apply Hne; by right).
  unfold put_value. destruct (f s); [|done]. apply lookup_insert_ne, Hne. by left.
Qed.

Lemma fold_put_eq (f : Spec -> option json) specs v s0 :
  s0 ∈ specs -> (forall s, s ∈ specs -> sp_Key s = sp_Key s0 -> s = s0) ->
  fold_left (fun v s => put_value v (sp_Key s) (f s)) specs v !! sp_Key s0
  = match f s0 with Some x => Some x | None => v !! sp_Key s0 end.
Proof using.
  revert v. induction specs as [|s specs IH]; intros v Hin Hu; [by apply not_elem_of_nil in Hin|].
  cbn [fold_left]. destruct (decide (sp_Key s0 ∈ map sp_Key specs)) as [Hin'|Hn].
  - apply list_elem_of_fmap in Hin' as (s' & Hk & Hin').
    assert (s' = s0) as -> by (apply Hu; [by right|done]).
    rewrite IH; [|done|intros s' Hs'; apply Hu; by right].
    destruct (f s0) as [x|] eqn:E; [done|].
    unfold put_value. destruct (f s) as [y|] eqn:Ef; [|done].
    destruct (decide (sp_Key s = sp_Key s0)) as [He|He]; [|by apply lookup_insert_ne].
    assert (s = s0) as -> by (apply Hu; [by left|done]). congruence.
  - apply elem_of_cons in Hin as [->|Hin].
    + rewrite fold_put_ne.
      * unfold put_value. destruct (f s); [|done]. by rewrite lookup_insert_eq.
      * intros s' Hs He. apply Hn. rewrite <- He. by apply list_elem_of_fmap_2.
    + destruct Hn. by apply list_elem_of_fmap_2.
Qed.

Lemma loadValues_lookup t sections key :
  loadValues Open_ reg t sections !! key
  = match Lookup reg key with
    | Some s => if decide (sp_Section s ∈ sections) then effective t key else None
    | None => None
    end.
Proof using wf.
  unfold loadValues. set (specs := concat (map (SectionKeys reg) sections)).
  assert (Hs : forall s, s ∈ specs <-> Lookup reg (sp_Key s) = Some s /\ sp_Section s ∈ sections).
  { intros s. subst specs. rewrite list_elem_of_In, in_concat. split.
    - intros (l & (sec & <- & Hsec)%in_map_iff & Hin). apply list_elem_of_In, SectionKeys_elem in Hin as [H <-]; [|done].
      split; [done|]. by apply list_elem_of_In.
    - intros [H Hsec]. exists (SectionKeys reg (sp_Section s)). split.
      + apply in_map. by apply list_elem_of_In.
      + apply list_elem_of_In. by apply SectionKeys_elem. }
  assert (Hu : forall s s', s ∈ specs -> s' ∈ specs -> sp_Key s = sp_Key s' -> s = s').
  { intros s s' [H _]%Hs [H' _]%Hs E. congruence. }
  destruct (Lookup reg key) as [s|] eqn:El.
  - assert (Hk : sp_Key s = key) by (by apply wf). destruct (decide _) as [Hin|Hn].
    + assert (Hsin : s ∈ specs) by (apply Hs; by rewrite Hk).
      unfold effective. rewrite <- Hk at 2. rewrite <- Hk at 1.
      rewrite (fold_put_eq (fun s => t !! sp_Key s ≫= stored_value Open_ (sp_Key s)))
        by (try done; intros s' Hs'; by apply Hu).
      rewrite Hk, El. destruct (t !! key ≫= stored_value Open_ key); [done|].
      rewrite <- Hk. rewrite (fold_put_eq base_value) by (try done; intros s' Hs'; by apply Hu).
      rewrite lookup_empty. by destruct (base_value s).
    + rewrite (fold_put_ne (fun s => t !! sp_Key s ≫= stored_value Open_ (sp_Key s))), fold_put_ne;
        [done|..]; intros s' [H' Hsec]%Hs E; rewrite E in H'; apply Hn; congruence.
  - rewrite (fold_put_ne (fun s => t !! sp_Key s ≫= stored_value Open_ (sp_Key s))), fold_put_ne;
      [done|..]; intros s' [H' Hsec]%Hs E; rewrite E in H'; congruence.
Qed.

Variable exec_ok : string -> bool.
Variable query_ok : bool.
Hypothesis box : forall v key c, Seal v key = Some c -> Open_ c key = Some v.

Abbreviation set_row_ := (set_row Seal reg exec_ok).
Abbreviation set_all_ := (set_all Seal reg exec_ok).
Abbreviation Apply_ := (Apply Seal Open_ ParseAddress reg exec_ok query_ok).

(** What writing a value to a key leaves as its stored value. *)
Definition written key value : option json :=
  if is_secret reg key && secretClears value then None else Some value.

Lemma set_row_ok t key value t' :
  set_row_ t key value = Ok t' ->
  t' !! key ≫= stored_value Open_ key = written key value /\
  forall k, k <> key -> t' !! k = t !! k.
Proof using box.
  unfold set_row, written, secretClears, put. destruct (is_secret reg key); cbn [negb andb].
  - destruct (as_string value) as [plain|]; [|done]. destruct (beq plain []).
    + destruct (exec_ok key); [|done]. intros [= <-].
      split; [by rewrite lookup_partial_alter_eq|]. intros k Hk. by apply lookup_partial_alter_ne.
    + destruct (Seal value key) as [c|] eqn:Es; [|done]. destruct (exec_ok key); [|done].
      intros [= <-]. split; [rewrite lookup_partial_alter_eq; by apply box|].
      intros k Hk. by apply lookup_partial_alter_ne.
  - destruct (exec_ok key); [|done]. intros [= <-].
    split; [by rewrite lookup_partial_alter_eq|]. intros k Hk. by apply lookup_partial_alter_ne.
Qed.

Lemma set_all_ok t changes t' :
  NoDup changes.*1 -> set_all_ t changes = Ok t' ->
  (forall key value, (key, value) ∈ changes -> t' !! key ≫= stored_value Open_ key = written key value) /\
  (forall key, key ∉ changes.*1 -> t' !! key = t !! key).
Proof using box.
  revert t. induction changes as [|[k v] changes IH]; intros t Hd; cbn [set_all].
  { intros [= <-]. split; [by intros ? ? ?%not_elem_of_nil|done]. }
  cbn [fmap list_fmap fst] in Hd. apply list.NoDup_cons in Hd as [Hk Hd].
  intros (t1 & H1 & H2)%rbind_ok. apply set_row_ok in H1 as [Hs Ho].
  destruct (IH t1 Hd H2) as [IH1 IH2]. split.
  - intros key value [[= -> ->]|Hin]%elem_of_cons; [|by apply IH1]. by rewrite IH2.
  - intros key Hn. cbn [fmap list_fmap fst] in Hn. apply not_elem_of_cons in Hn as [Hne Hn].
    rewrite IH2 by done. by apply Ho.
Qed.

Lemma merge_lookup changes v :
  NoDup changes.*1 ->
  (forall key value, (key, value) ∈ changes ->
     fold_left (merge reg) changes v !! key = written key value) /\
  (forall key, key ∉ changes.*1 -> fold_left (merge reg) changes v !! key = v !! key).
Proof using.
  revert v. induction changes as [|[k x] changes IH]; intros v Hd; cbn [fold_left].
  { split; [by intros ? ? ?%not_elem_of_nil|done]. }
  cbn [fmap list_fmap fst] in Hd. apply list.NoDup_cons in Hd as [Hk Hd].
  destruct (IH (merge reg v (k, x)) Hd) as [IH1 IH2].
  split.
  - intros key value [[= -> ->]|Hin]%elem_of_cons; [|by apply IH1]. rewrite IH2 by done.
    unfold written, merge. cbn [fst snd]. destruct (_ && _); [apply lookup_delete_eq|apply lookup_insert_eq].
  - intros key Hn. cbn [fmap list_fmap fst] in Hn. apply not_elem_of_cons in Hn as [Hne Hn].
    rewrite IH2 by done. unfold merge. cbn [fst snd].
    destruct (_ && _); [by apply lookup_delete_ne|by apply lookup_insert_ne].
Qed.

Lemma plan_keys_ok changes seen touched touched' :
  plan_keys ParseAddress reg changes seen touched = Ok touched' ->
  NoDup changes.*1 /\ (forall key, key ∈ changes.*1 -> key ∉ seen) /\
  Forall (fun c => exists s, Lookup reg c.1 = Some s /\ Validate ParseAddress s c.2 = None /\
    (sp_Section s <> ""%string -> sp_Section s ∈ touched')) changes /\
  touched ⊆ touched'.
Proof using.
  clear wf box exec_ok query_ok Seal Open_ sealed.
  revert seen touched. induction changes as [|[k x] changes IH]; intros seen touched; cbn [plan_keys].
  { intros [= <-]. split_and!; [constructor|by intros ? ?%not_elem_of_nil|constructor|done]. }
  destruct (Lookup reg k) as [s|] eqn:El; [|done].
  case_bool_decide as Hseen; [done|]. destruct (Validate ParseAddress s x) eqn:Ev; [done|].
  intros H. apply IH in H as (Hd & Hs & Hf & Ht). split_and!.
  - cbn [fmap list_fmap fst]. apply list.NoDup_cons. split; [|done]. intros Hin%Hs. set_solver.
  - intros key. cbn [fmap list_fmap fst]. intros [->|Hin%Hs]%elem_of_cons; set_solver.
  - constructor; [|done]. exists s. split_and!; [done|done|]. intros Hne. apply Ht.
    rewrite (bool_decide_eq_false_2 _ Hne). set_solver.
  - case_bool_decide; set_solver.
Qed.

Lemma first_violation_none rules v :
  first_violation rules v = None <-> Forall (fun rule => sr_Check rule v = None) rules.
Proof using.
  induction rules as [|r rules IH]; cbn [first_violation]; [by split|].
  destruct (sr_Check r v) eqn:E; split.
  - done.
  - intros Hf. apply Forall_cons_iff in Hf as [? _]. congruence.
  - intros H. constructor; [done|]. by apply IH.
  - intros Hf. apply Forall_cons_iff in Hf as [_ ?]. by apply IH.
Qed.

Lemma plan_ok t changes :
  plan Open_ ParseAddress reg query_ok t changes = None ->
  exists touched, plan_keys ParseAddress reg changes ∅ ∅ = Ok touched /\
    Forall (fun rule => sr_Check rule
              (fold_left (merge reg) changes (loadValues Open_ reg t (rulesTouching reg touched).2)) = None)
      (rulesTouching reg touched).1.
Proof using.
  unfold plan. destruct (plan_keys ParseAddress reg changes ∅ ∅) as [touched|]; [|done].
  intros H. exists touched. split; [done|]. revert H.
  destruct (rulesTouching reg touched) as [rules load]. cbn [fst snd].
  destruct rules as [|r rules]; [by constructor|]. destruct query_ok; [|done].
  by intros ?%first_violation_none.
Qed.

(** A rule reads the sections it declares and nothing else. *)
Definition local_rule (rule : SectionRule) : Prop :=
  forall v v' : Values,
  (forall key s, Lookup reg key = Some s -> sp_Section s ∈ looks_at rule -> v !! key = v' !! key) ->
  sr_Check rule v = sr_Check rule v'.

(** Every rule holds of what is stored. *)
Definition consistent t : Prop :=
  forall rule, rule ∈ all_rules reg ->
  sr_Check rule (loadValues Open_ reg t (elements (looks_at rule))) = None.

Lemma rule_on t rule v :
  local_rule rule ->
  (forall key s, Lookup reg key = Some s -> sp_Section s ∈ looks_at rule -> v !! key = effective t key) ->
  sr_Check rule v = sr_Check rule (loadValues Open_ reg t (elements (looks_at rule))).
Proof using wf.
  intros Hl Hv. apply Hl. intros key s Hk Hs. rewrite loadValues_lookup, Hk.
  rewrite decide_True by (by apply elem_of_elements). by apply (Hv key s).
Qed.

(** A key the batch changes, and one it does not. *)
Lemma effective_written t t' key value s :
  Lookup reg key = Some s -> t' !! key ≫= stored_value Open_ key = written key value ->
  effective t' key = written key value.
Proof using.
  intros Hk Hs. unfold effective. rewrite Hk, Hs. unfold written, is_secret. rewrite Hk.
  case_bool_decide as Hsec; cbn [andb]; [|done]. destruct (secretClears value); [|done].
  unfold base_value. by rewrite bool_decide_eq_true_2.
Qed.

Lemma effective_same t t' key : t' !! key = t !! key -> effective t' key = effective t key.
Proof using. unfold effective. by intros ->. Qed.

(** C9: A configuration that was consistent stays consistent.  Whatever batch is
    applied, when it is accepted every rule of every section holds of what is then
    stored, rules that merely read a changed section included; every key it wrote
    is registered, fits its declared type and reads back as the value written,
    secrets through the seal; and every other key is as it was. *)
Theorem rules_survive_apply t changes keys t' :
  (forall rule, rule ∈ all_rules reg -> local_rule rule /\ ""%string ∉ looks_at rule) ->
  consistent t -> Apply_ t changes = Ok (keys, t') ->
  consistent t' /\
  Forall (fun c => exists s, Lookup reg c.1 = Some s /\ Validate ParseAddress s c.2 = None /\
                             effective t' c.1 = written c.1 c.2) changes /\
  (forall key, key ∉ keys -> t' !! key = t !! key).
Proof using wf box.
  intros Hrules Hc. unfold Apply.
  destruct (plan Open_ ParseAddress reg query_ok t changes) eqn:Ep; [done|].
  apply plan_ok in Ep as (touched & (Hd & _ & Hf & _)%plan_keys_ok & Hplan).
  set (rl := rulesTouching reg touched) in *.
  intros (t1 & Hset & [= <- <-])%rbind_ok. apply set_all_ok in Hset as [Hw Hsame]; [|done].
  split_and!; [| |exact Hsame].
  - intros rule Hr. destruct (Hrules rule Hr) as [Hl Hne]. destruct (touches touched rule) eqn:Et.
    + assert (Hin : rule ∈ rl.1) by (by apply all_rules_elem).
      rewrite <- (rule_on t1 rule (fold_left (merge reg) changes (loadValues Open_ reg t rl.2)) Hl);
        [by eapply (proj1 (list.Forall_forall _ _) Hplan)|].
      intros key s Hk Hs. destruct (merge_lookup changes (loadValues Open_ reg t rl.2) Hd) as [Hm1 Hm2].
      destruct (decide (key ∈ changes.*1)) as [Hch|Hch].
      * apply list_elem_of_fmap in Hch as ([k v] & -> & Hch). cbn [fst] in *.
        rewrite (Hm1 _ _ Hch). symmetry.
        by apply (effective_written t t1 k v s Hk), Hw.
      * rewrite (Hm2 _ Hch), (effective_same t t1) by (by apply Hsame).
        rewrite loadValues_lookup, Hk. rewrite decide_True; [done|].
        by apply (touched_loaded reg touched rule).
    + rewrite <- (rule_on t1 rule (loadValues Open_ reg t (elements (looks_at rule))) Hl);
        [by apply Hc|].
      intros key s Hk Hs. rewrite loadValues_lookup, Hk, decide_True by (by apply elem_of_elements).
      symmetry. apply effective_same, Hsame. intros Hch.
      apply list_elem_of_fmap in Hch as ([k v] & -> & Hch).
      apply (proj1 (list.Forall_forall _ _) Hf) in Hch as (s' & Hk' & _ & Ht'). cbn [fst] in *.
      assert (s' = s) as -> by congruence.
      assert (touches touched rule = true); [|congruence].
      apply touches_spec. exists (sp_Section s). split; [done|]. apply Ht'. congruence.
  - apply list.Forall_forall. intros [key value] Hin.
    destruct (proj1 (list.Forall_forall _ _) Hf _ Hin) as (s & Hk & Hv & _). exists s.
    split_and!; [done|done|]. apply (effective_written t t1 key value s Hk). by apply Hw.
Qed.

(** *** Reading through the cache *)

Context {C : Type} `{CacheLaws (option (payload (sealed := sealed))) C}.
Hypothesis query_answers : query_ok = true.
Implicit Types c : C.

Abbreviation value_of_ := (value_of Open_ reg query_ok).

(** Whatever the cache still answers is what the table says. *)
Definition coherent now c t : Prop :=
  forall key v now', now <= now' -> cache_get now' c (cacheKey key) = Some v ->
  v = read_row t key (is_secret reg key).

(** A read that goes to the table. *)
Definition table_value t key : result read_error (option json) :=
  match read_row t key (is_secret reg key) with
  | None => Ok None
  | Some (PValue v) => Ok (Some v)
  | Some (PSealed s) => match Open_ s key with Some x => Ok (Some x) | None => Err ErrSecretUnreadable end
  end.

Lemma cacheKey_inj key key' : cacheKey key = cacheKey key' -> key = key'.
Proof using. unfold cacheKey. apply (inj (String.append _)). Qed.

Lemma value_of_table now later c t key :
  now <= later -> coherent now c t ->
  (value_of_ now later c t key).1 = table_value t key /\ coherent later (value_of_ now later c t key).2 t.
Proof using query_answers H0.
  intros Hle Hc. unfold value_of, raw, table_value. rewrite query_answers.
  assert (Hp : forall p, read_row t key (is_secret reg key) = Some p ->
    (match p, is_secret reg key with
     | PValue v, false => Ok (Some v)
     | PSealed s, true => match Open_ s key with Some x => Ok (Some x) | None => Err ErrSecretUnreadable end
     | PSealed _, false => Err Undecodable
     | PValue _, true => Err ErrSecretUnreadable
     end : result read_error (option json))
    = match p with
      | PValue v => Ok (Some v)
      | PSealed s => match Open_ s key with Some x => Ok (Some x) | None => Err ErrSecretUnreadable end
      end).
  { intros p. unfold read_row. destruct (t !! key) as [[v|s]|], (is_secret reg key); by intros [= <-]. }
  assert (Hc' : coherent later c t) by (intros k v now' Hn; apply Hc; lia).
  assert (Hset : forall p, p = read_row t key (is_secret reg key) ->
    coherent later (cache_set later c (cacheKey key) p cacheTTL) t).
  { intros p -> k v now' Hn Hg. destruct (decide (k = key)) as [->|Hne].
    - by apply get_set in Hg as [-> _].
    - apply get_set_ne in Hg; [by eapply Hc'|]. intros E. by apply cacheKey_inj in E. }
  destruct (cache_get now c (cacheKey key)) as [v|] eqn:Eg.
  - apply Hc in Eg as ->; [|lia]. destruct (read_row t key (is_secret reg key)) as [p|] eqn:Er; [|done].
    by rewrite <- (Hp p).
  - destruct (read_row t key (is_secret reg key)) as [p|] eqn:Er; cbn [fst snd].
    + rewrite <- (Hp p) by done. split; [done|]. by apply Hset.
    + split; [done|]. by apply Hset.
Qed.

(** What is written is what is read.  On the instance that writes a key and
    drops its cached copy, the next read returns the value written, a secret
    through its seal, and a cleared one as absent; every other key reads as before;
    and the cache goes on answering only what the table says. *)
Theorem reads_see_writes now later c t key value t' c' :
  now <= later -> coherent now c t ->
  Set_ Seal reg exec_ok c t key value = (Ok t', c') ->
  (value_of_ now later c' t' key).1 = Ok (written key value) /\
  (forall key', key' <> key -> (value_of_ now later c' t' key').1 = (value_of_ now later c t key').1) /\
  forall key', coherent later (value_of_ now later c' t' key').2 t'.
Proof using query_answers H0 box.
  intros Hle Hc. unfold Set_. destruct (set_row_ t key value) as [t1|] eqn:Es; [|done].
  intros [= <- <-].
  pose proof (set_row_ok t key value t1 Es) as [Hw Ho].
  assert (Hc1 : coherent now (cache_delete c (cacheKey key)) t1).
  { intros k v now' Hn [Hne Hg]%get_delete. apply Hc in Hg; [|done]. rewrite Hg.
    unfold read_row. rewrite Ho; [done|]. by intros ->. }
  split_and!.
  - rewrite (proj1 (value_of_table now later _ t1 key Hle Hc1)). unfold table_value, read_row.
    revert Es Hw. unfold set_row, written, put. destruct (is_secret reg key); cbn [negb andb].
    + destruct (as_string value) as [plain|] eqn:Ea; [|done].
      unfold secretClears. rewrite Ea. destruct (beq plain []).
      * destruct (exec_ok key); [|done]. intros [= <-] _. by rewrite lookup_partial_alter_eq.
      * destruct (Seal value key) as [s|] eqn:Ese; [|done]. destruct (exec_ok key); [|done].
        intros [= <-] _. rewrite lookup_partial_alter_eq. by rewrite (box _ _ _ Ese).
    + destruct (exec_ok key); [|done]. intros [= <-] _. by rewrite lookup_partial_alter_eq.
  - intros key' Hne. rewrite (proj1 (value_of_table now later _ t1 key' Hle Hc1)).
    rewrite (proj1 (value_of_table now later c t key' Hle Hc)).
    unfold table_value, read_row. by rewrite Ho.
  - intros key'. by apply value_of_table.
Qed.
End store_facts.

(** *** The gateway's readers *)

(** Whatever is stored, a reader returns a usable figure.  A value out of range,
    undecodable or unreadable falls back to the registered default, so retention
    stays within its bounds and the fee is never negative; the exchange rate is
    the configured text or "not configured", never the unset marker; and an
    unreadable kill switch is off. *)
Theorem readers_bounded get_int get_bool get_string currency :
  24 * Hour <= ResourceAffinityTTL get_int <= 90 * 24 * Hour /\
  Hour <= VideoRetention get_int <= 720 * Hour /\
  0 <= BYOKFeeBps get_int /\
  FXRateOf get_string currency <> lit "0" /\
  (forall e, get_bool KeyKillSwitch = Err e -> KillSwitch get_bool = false) /\
  (forall s, s ∈ Specs -> exists d, sp_Default s = Some d /\ Validate (fun _ => false) s d = None).
Proof.
  assert (HH : 0 < Hour) by (vm_compute; done).
  split_and!.
  - unfold ResourceAffinityTTL, defaultResourceAffinityTTLDays.
    repeat step_case; bool_prop; nia.
  - unfold ResourceAffinityTTL, defaultResourceAffinityTTLDays.
    repeat step_case; bool_prop; nia.
  - unfold VideoRetention, defaultVideoRetentionHours, minVideoRetentionHours, maxVideoRetentionHours.
    repeat step_case; bool_prop; nia.
  - unfold VideoRetention, defaultVideoRetentionHours, minVideoRetentionHours, maxVideoRetentionHours.
    repeat step_case; bool_prop; nia.
  - unfold BYOKFeeBps, defaultBYOKFeeBps. repeat step_case; bool_prop; lia.
  - unfold FXRateOf, beq. repeat step_case; bool_prop; done.
  - intros e He. unfold KillSwitch. by rewrite He.
  - intros s Hs. unfold Specs in Hs. rewrite !elem_of_cons in Hs.
    destruct Hs as [->|[->|[->|[->|[->|[]%not_elem_of_nil]]]]]; eexists; (split; [done|reflexivity]).
Qed.

Lemma readers_bounded_witness :
  KillSwitch (fun _ => Err ReadFailed) = false.
Proof.
  apply (readers_bounded (fun _ => Ok None) (fun _ => Err ReadFailed) (fun _ => Ok None) "CNY")
    with (e := ReadFailed).
  reflexivity.
Defined.

(** *** A concrete configuration: a payment channel with a name and a secret *)

Definition demo_specs : list Spec :=
  [ mkSpec "pay.name" KindString "pay" [] None (Some (JStr []));
    mkSpec "pay.secret" KindSecret "pay" [] None None ].

Definition demo_rule : SectionRule :=
  mkRule "pay" [] (RequireAllOrNone ["pay.name"; "pay.secret"]%string).

Definition demo_registry : Registry :=
  default (mkRegistry ∅ ∅) (NewRegistry [demo_specs] ≫= fun r => MustAddRules r [demo_rule]).

(** A seal that only remembers the key it was made for. *)
Definition demo_Seal (v : json) (key : string) : option (json * string) := Some (v, key).
Definition demo_Open (c : json * string) (key : string) : option json :=
  if bool_decide (c.2 = key) then Some c.1 else None.

Example half_a_channel_is_refused :
  Apply demo_Seal demo_Open (fun _ => true) demo_registry (fun _ => true) true ∅
    [("pay.name"%string, JStr (lit "shop"))] = Err (SectionError "pay" "requires") /\
  is_ok (Apply demo_Seal demo_Open (fun _ => true) demo_registry (fun _ => true) true ∅
    [("pay.name"%string, JStr (lit "shop")); ("pay.secret"%string, JStr (lit "k"))]) = true.
Proof. vm_compute. split; reflexivity. Qed.

Lemma demo_registry_wf : registry_wf demo_registry.
Proof.
  intros key s. unfold Lookup.
  replace (rg_specs demo_registry) with (rg_specs (default (mkRegistry ∅ ∅) (NewRegistry [demo_specs])))
    by (vm_compute; reflexivity).
  destruct (NewRegistry [demo_specs]) as [r|] eqn:E; [|vm_compute in E; discriminate].
  apply (NewRegistry_wf _ _ E).
Qed.

Lemma demo_rules_local rule :
  rule ∈ all_rules demo_registry -> local_rule demo_registry rule /\ ""%string ∉ looks_at rule.
Proof.
  replace (all_rules demo_registry) with [demo_rule] by (vm_compute; reflexivity).
  intros ->%list_elem_of_singleton. split; [|by vm_compute].
  intros v v' Hv.
  assert (H1 : v !! "pay.name" = v' !! "pay.name").
  { eapply Hv; [vm_compute; reflexivity|]. by vm_compute. }
  assert (H2 : v !! "pay.secret" = v' !! "pay.secret").
  { eapply Hv; [vm_compute; reflexivity|]. by vm_compute. }
  cbn [sr_Check demo_rule]. unfold RequireAllOrNone. cbn [List.filter]. unfold vSet. by rewrite H1, H2.
Qed.

Lemma demo_consistent : consistent demo_Open demo_registry ∅.
Proof.
  intros rule Hr. replace (all_rules demo_registry) with [demo_rule] in Hr by (vm_compute; reflexivity).
  apply list_elem_of_singleton in Hr as ->. vm_compute. reflexivity.
Qed.

Lemma demo_box v key c : demo_Seal v key = Some c -> demo_Open c key = Some v.
Proof. intros [= <-]. unfold demo_Open. cbn [fst snd]. by rewrite bool_decide_eq_true_2. Qed.

Definition demo_changes : list (string * json) :=
  [("pay.name"%string, JStr (lit "shop")); ("pay.secret"%string, JStr (lit "k"))].

Lemma rules_survive_apply_witness :
  exists keys t',
    Apply demo_Seal demo_Open (fun _ => true) demo_registry (fun _ => true) true ∅ demo_changes
    = Ok (keys, t') /\ consistent demo_Open demo_registry t'.
Proof.
  destruct (Apply demo_Seal demo_Open (fun _ => true) demo_registry (fun _ => true) true ∅ demo_changes)
    as [[keys t']|e] eqn:E; [|vm_compute in E; discriminate].
  exists keys, t'. split; [reflexivity|].
  exact (proj1 (rules_survive_apply demo_Seal demo_Open (fun _ => true) demo_registry demo_registry_wf
    (fun _ => true) true demo_box ∅ demo_changes keys t' demo_rules_local demo_consistent E)).
Defined.

Lemma reads_see_writes_witness :
  let W := Memory_cache (V := option (payload (sealed := json * string))) (fun _ c => c) in
  exists t' c',
    Set_ (H := W) demo_Seal demo_registry (fun _ => true) ∅ ∅ "pay.secret" (JStr (lit "k")) = (Ok t', c') /\
    (value_of (H := W) demo_Open demo_registry true 0 1 c' t' "pay.secret").1 = Ok (Some (JStr (lit "k"))).
Proof.
  intros W. destruct (Set_ (H := W) demo_Seal demo_registry (fun _ => true) ∅ ∅ "pay.secret" (JStr (lit "k")))
    as [[t'|e] c'] eqn:E; [|vm_compute in E; discriminate].
  exists t', c'. split; [reflexivity|].
  refine (proj1 (reads_see_writes demo_Seal demo_Open demo_registry (fun _ => true) true demo_box
    (H := W) (H0 := Memory_cache_laws (fun _ c => c) (fun _ _ => reflexivity _)) eq_refl 0 1 ∅ ∅ "pay.secret"
    (JStr (lit "k")) t' c' ltac:(lia) _ E)).
  intros key v now' _ Hg. unfold cache_get in Hg. cbn in Hg. unfold Memory_Get in Hg.
  rewrite lookup_empty in Hg. discriminate.
Defined.
