(* ===== verification/Auth.v ===== *)
(** * Who is calling: [internal/gateway/proxy/auth.go] and the key cache

    The credential is read from the headers, its format checked, and its snapshot
    looked up through the cache ([Cache.v]).  The three queries and the token hash
    are parameters. *)
From S2P Require Import Prelude GoStr BreakerStore RateLimit Errors Guard KeyFormat Cache.

Open Scope Z_scope.

(** ** The headers *)

Definition bearer : bytes := lit "bearer ".

Definition bearerToken (header : bytes) : option bytes :=
  if (length header <=? length bearer)%nat
     || negb (beq (map lower (firstn (length bearer) header)) bearer)
  then None
  else
    let tok := trim_space (skipn (length bearer) header) in
    if beq tok [] then None else Some tok.

(** [CredentialOf], from [Header.Get]. *)
Definition CredentialOf (header : string -> bytes) : bytes :=
  match bearerToken (header "Authorization"%string) with
  | Some tok => tok
  | None =>
      let k := trim_space (header "x-api-key"%string) in
      if negb (beq k []) then k else trim_space (header "x-goog-api-key"%string)
  end.

(** ** The snapshot *)

Definition keyCacheTTL : Z := 60 * Second.
Definition KeyCacheKey (keyHash : string) : string := ("gw:key:" ++ keyHash)%string.

(** [apikeys.Record]: the columns the snapshot takes. *)
Record KeyRecord := mkRecord {
  kr_ID : uuid; kr_OrgID : uuid; kr_Scopes : list string;
  kr_AllowAllModels : bool; kr_AllowedModels : list string;
  kr_SpendLimitNano : option Z; kr_SpendLimitInterval : option string;
  kr_RateLimitRpm : option Z; kr_RateLimitTpm : option Z;
  kr_TotalSpentNano : Z; kr_Status : string; kr_ExpiresAt : option Z;
}.
Record DataplaneOrg := mkOrg { og_Status : string; og_Currency : string }.
Record OrgSettings := mkOrgSettings {
  os_TierID : uuid; os_TierStatus : string; os_RateLimitRpm : option Z; os_RateLimitTpm : option Z;
}.

(** The database, as it answers at one instant. *)
Record AuthQueries := mkAuthQueries {
  RecordByHash : string -> result string (option KeyRecord);
  Dataplane : uuid -> result string DataplaneOrg;
  GetOrgSettingsForDataplane : uuid -> result string OrgSettings;
}.

Definition checkExpiry (now : Z) (id : Identity) : option Error :=
  match id_ExpiresAt id with
  | Some x => if x <? now then Some (NewError GatewayKeyExpired "API key has expired") else None
  | None => None
  end.

Definition RequireScope (id : Identity) (scope : string) : option Error :=
  if existsb (fun s => String.eqb s scope) (id_Scopes id) then None
  else Some (NewError GatewayInsufficientScope ("API key lacks the " ++ scope ++ " scope")).

Definition int_or_zero (v : option Z) : Z := default 0 v.

(** The database half of [lookup]. *)
Definition read_identity (q : AuthQueries) (now : Z) (hash : string) : result Error Identity :=
  match RecordByHash q hash with
  | Err _ => Err (NewError GatewayInternal "Authentication failed")
  | Ok None => Err (NewError GatewayInvalidApiKey "Invalid API key")
  | Ok (Some row) =>
      if bool_decide (kr_Status row = "revoked"%string)
      then Err (NewError GatewayKeyRevoked "API key has been revoked")
      else
        match Dataplane q (kr_OrgID row) with
        | Err _ => Err (NewError GatewayInternal "Authentication failed")
        | Ok org =>
            if negb (bool_decide (og_Status org = "active"%string))
            then Err (NewError GatewayOrgSuspended "Organization is suspended")
            else
              match GetOrgSettingsForDataplane q (kr_OrgID row) with
              | Err _ => Err (NewError GatewayInternal "Authentication failed")
              | Ok s =>
                  let id := mkIdentity (kr_ID row) (kr_OrgID row) (os_TierID s) (os_TierStatus s)
                    (kr_AllowAllModels row) (kr_AllowedModels row)
                    (int_or_zero (kr_SpendLimitNano row)) (default ""%string (kr_SpendLimitInterval row))
                    (int_or_zero (kr_RateLimitRpm row)) (int_or_zero (kr_RateLimitTpm row))
                    (int_or_zero (os_RateLimitRpm s)) (int_or_zero (os_RateLimitTpm s))
                    (kr_TotalSpentNano row) (og_Currency org) (kr_Scopes row) hash
                    (kr_ExpiresAt row) in
                  match checkExpiry now id with Some e => Err e | None => Ok id end
              end
        end
  end.

Section lookup.
Context {C : Type} `{CacheStore Identity C}.
Variable HashToken : bytes -> string.
Implicit Types (c : C) (id : Identity) (q : AuthQueries).

(** [lookup]: the answer, the cache, and the keys whose last use was recorded.
    The database is read at [now], the snapshot stored at [later]. *)
Definition lookup q (now later : Z) c (hash : string) : result Error Identity * C * list uuid :=
  match cache_get now c (KeyCacheKey hash) with
  | Some id => (match checkExpiry now id with Some e => Err e | None => Ok id end, c, [])
  | None =>
      match read_identity q now hash with
      | Err e => (Err e, c, [])
      | Ok id => (Ok id, cache_set later c (KeyCacheKey hash) id keyCacheTTL, [id_KeyID id])
      end
  end.

Definition Authenticate q now later c (credential : bytes) : result Error Identity * C * list uuid :=
  if negb (ValidKey credential)
  then (Err (NewError GatewayInvalidApiKey "Missing or malformed API key"), c, [])
  else lookup q now later c (HashToken credential).
End lookup.

(** ** Properties *)

Lemma KeyCacheKey_inj h h' : KeyCacheKey h = KeyCacheKey h' -> h = h'.
Proof. unfold KeyCacheKey. apply (inj (String.append _)). Qed.

(** The only use of the clock: the expiry of the snapshot. *)
Lemma read_identity_time q t now hash id :
  read_identity q t hash = Ok id ->
  read_identity q now hash = match checkExpiry now id with Some e => Err e | None => Ok id end.
Proof.
  unfold read_identity. destruct (RecordByHash q hash) as [[row|]|]; [|done..].
  destruct (bool_decide _); [done|]. destruct (Dataplane q _) as [org|]; [|done].
  destruct (negb _); [done|]. destruct (GetOrgSettingsForDataplane q _) as [s|]; [|done].
  cbv zeta. destruct (checkExpiry t _); [done|]. by intros [= <-].
Qed.

Section auth_properties.
Context {C : Type} `{CacheLaws Identity C}.
Variable HashToken : bytes -> string.
Implicit Types (c : C) (id : Identity) (q : AuthQueries).

(** What the cache holds from [T] on is what the database would have said. *)
Definition agrees q (T : Z) c : Prop :=
  forall now h id, T <= now -> cache_get now c (KeyCacheKey h) = Some id ->
    exists t, read_identity q t h = Ok id.

Lemma agrees_lookup q T now later c h :
  agrees q T c -> T <= now -> now <= later ->
  (lookup q now later c h).1.1 = read_identity q now h /\ agrees q later (lookup q now later c h).1.2.
Proof using All.
  intros Ha HT Hl. assert (Hw : agrees q later c) by (intros now' h' id' Ht; apply Ha; lia).
  unfold lookup. destruct (cache_get now c _) as [id|] eqn:E.
  - destruct (Ha now h id HT E) as [t Ht]. split; [|done]. cbn [fst snd].
    by rewrite (read_identity_time _ _ _ _ _ Ht).
  - destruct (read_identity q now h) as [id|e] eqn:Er; [|done]. cbn [fst snd].
    split; [done|]. intros now' h' id' Ht Hg.
    destruct (decide (h' = h)) as [->|Hne].
    + apply get_set in Hg as [-> _]; [|done]. by exists now.
    + apply get_set_ne in Hg; [by eapply Hw|]. intros E'. by apply KeyCacheKey_inj in E'.
Qed.

(** A cached caller gets the answer the database would give.  While the database
    does not change, authenticating through the cache gives - key expiry included,
    which is judged anew each time - exactly what reading the database gives, for
    every credential, and keeps it so. *)
Theorem cached_answer_is_the_databases q T now later c credential :
  agrees q T c -> T <= now -> now <= later ->
  let '(answer, c', _) := Authenticate HashToken q now later c credential in
  answer = (if ValidKey credential then read_identity q now (HashToken credential)
            else Err (NewError GatewayInvalidApiKey "Missing or malformed API key")) /\
  agrees q later c'.
Proof using All.
  intros Ha HT Hl. unfold Authenticate. destruct (ValidKey credential); cbn [negb].
  - destruct (agrees_lookup q T now later c (HashToken credential) Ha HT Hl) as [H1 H2].
    by destruct (lookup _ _ _ _ _) as [[? ?] ?].
  - split; [done|]. intros now' h id Ht. apply Ha. lia.
Qed.

(** *** Revocation

    Requests overlap: one may have read the database before a revocation and store
    its snapshot after.  A state is the clock, the cache and the snapshots read but
    not stored yet. *)
Record auth_state := mkAuth { as_now : Z; as_cache : C; as_flight : list (Z * string * Identity) }.

Variable db : Z -> AuthQueries.   (** the database at every instant *)
Variable delay : Z.               (** the longest a lookup takes *)

Inductive auth_step : auth_state -> auth_state -> Prop :=
  | auth_tick t t' c fl : t <= t' -> auth_step (mkAuth t c fl) (mkAuth t' c fl)
  | auth_read t c fl h id :
      cache_get t c (KeyCacheKey h) = None -> read_identity (db t) t h = Ok id ->
      auth_step (mkAuth t c fl) (mkAuth t c ((t, h, id) :: fl))
  | auth_store t c fl1 fl2 t0 h id :
      t <= t0 + delay ->
      auth_step (mkAuth t c (fl1 ++ (t0, h, id) :: fl2))
        (mkAuth t (cache_set t c (KeyCacheKey h) id keyCacheTTL) (fl1 ++ fl2))
  | auth_invalidate t c fl h : auth_step (mkAuth t c fl) (mkAuth t (cache_delete c (KeyCacheKey h)) fl).

(** No snapshot of the key outlives the bound, stored or in flight. *)
Definition bounded (h : string) (t0 : Z) (s : auth_state) : Prop :=
  (forall now id, as_now s <= now -> cache_get now (as_cache s) (KeyCacheKey h) = Some id ->
     now <= t0 + delay + keyCacheTTL) /\
  (forall t id, (t, h, id) ∈ as_flight s -> t < t0).

Lemma auth_step_bounded h t0 s s' :
  (forall t, t0 <= t -> exists e, read_identity (db t) t h = Err e) ->
  auth_step s s' -> bounded h t0 s -> bounded h t0 s'.
Proof using All.
  intros Hdb Hs [Hc Hf]. destruct Hs as [t t' c fl Ht|t c fl h' id Hm Hr|t c fl1 fl2 t1 h' id Ht|t c fl h'];
    split; cbn [as_now as_cache as_flight] in *.
  - intros now id Hn. apply Hc. lia.
  - done.
  - done.
  - intros t1 id1. rewrite elem_of_cons. intros [[= -> -> ->]|]; [|by eapply Hf].
    apply Z.nle_gt. intros Hle. destruct (Hdb t Hle) as [e He]. congruence.
  - intros now id1 Hn Hg. destruct (decide (h' = h)) as [->|Hne].
    + apply get_set in Hg as [_ Hg]; [|done]. specialize (Hf t1 id).
      assert (t1 < t0) by (apply Hf; rewrite elem_of_app, elem_of_cons; auto).
      unfold keyCacheTTL, Second in *. lia.
    + apply get_set_ne in Hg; [by eapply Hc|]. intros E. by apply KeyCacheKey_inj in E.
  - intros t2 id2. rewrite elem_of_app. intros Hin. apply (Hf t2 id2).
    rewrite elem_of_app, elem_of_cons. tauto.
  - intros now id Hn [_ Hg]%get_delete. by eapply Hc.
  - done.
Qed.

(** C40: A key that was taken away stops working.  However requests overlap and whether
    or not any invalidation arrives, once the database has refused a key from [t0]
    on, every authentication with it later than the lookup delay plus the cache's
    time-to-live is refused, with the database's own reason. *)
Theorem revoked_key_dies t0 s s' credential later :
  (forall t, t0 <= t -> exists e, read_identity (db t) t (HashToken credential) = Err e) ->
  rtc auth_step s s' -> bounded (HashToken credential) t0 s ->
  0 <= delay -> t0 + delay + keyCacheTTL < as_now s' ->
  exists e, (Authenticate HashToken (db (as_now s')) (as_now s') later (as_cache s') credential).1
            = (Err e, as_cache s') /\
    (ValidKey credential = true ->
     read_identity (db (as_now s')) (as_now s') (HashToken credential) = Err e).
Proof using All.
  intros Hdb Hs Hb Hd Hlate.
  assert (Hb' : bounded (HashToken credential) t0 s').
  { clear Hlate. induction Hs as [s|s1 s2 s3 Hst _ IH]; [done|]. apply IH. by eapply auth_step_bounded. }
  unfold Authenticate. destruct (ValidKey credential); cbn [negb]; [|by eexists].
  unfold lookup. destruct (cache_get _ _ _) as [id|] eqn:E.
  - destruct Hb' as [Hc _]. specialize (Hc _ _ (Z.le_refl _) E). lia.
  - destruct (Hdb (as_now s')) as [e He]; [unfold keyCacheTTL, Second in *; lia|].
    rewrite He. by exists e.
Qed.
End auth_properties.

(** *** A concrete deployment *)

Definition demo_record (status : string) : KeyRecord :=
  mkRecord (Some "k1"%string) (Some "o1"%string) ["inference"%string] true [] None None (Some 60) None 0
    status None.
Definition demo_auth (status : string) : AuthQueries :=
  mkAuthQueries (fun _ => Ok (Some (demo_record status))) (fun _ => Ok (mkOrg "active" "USD"))
    (fun _ => Ok (mkOrgSettings (Some "t1"%string) "active" None None)).
Definition demo_hash (credential : bytes) : string := string_of_list_ascii credential.

(** An LRU of one entry. *)
Definition keep_only (key : string) (c : gmap string (memEntry Identity)) :
    gmap string (memEntry Identity) := filter (fun kv => kv.1 = key) c.
Lemma keep_only_sub key c : keep_only key c ⊆ c.
Proof. apply map_filter_subseteq. Qed.

Lemma cached_answer_is_the_databases_witness :
  let store := Memory_cache keep_only in
  let '(answer, c, touched) :=
    Authenticate (H := store) demo_hash (demo_auth "active") 5 6 ∅ demo_key in
  touched = [Some "k1"%string] /\
  (Authenticate (H := store) demo_hash (demo_auth "active") 7 8 c demo_key).1.1 = answer.
Proof.
  cbv zeta. pose (laws := Memory_cache_laws keep_only keep_only_sub).
  assert (Ha : @agrees _ (Memory_cache keep_only) (demo_auth "active") 0 ∅).
  { intros now h id _ Hg. cbn in Hg. unfold Memory_Get in Hg. by rewrite lookup_empty in Hg. }
  pose proof (@cached_answer_is_the_databases _ (Memory_cache keep_only) laws demo_hash
    (demo_auth "active") 0 5 6 ∅ demo_key Ha ltac:(lia) ltac:(lia)) as H1.
  destruct (Authenticate _ _ 5 6 ∅ demo_key) as [[answer c] touched] eqn:E.
  destruct H1 as [Hans Hc]. split; [vm_compute in E; by injection E as _ _ <-|].
  pose proof (@cached_answer_is_the_databases _ (Memory_cache keep_only) laws demo_hash
    (demo_auth "active") 6 7 8 c demo_key Hc ltac:(lia) ltac:(lia)) as H2.
  destruct (Authenticate _ _ 7 8 c demo_key) as [[answer' c'] touched']. destruct H2 as [-> _].
  rewrite Hans. vm_compute. reflexivity.
Defined.

(** Revoked at instant 100, read from the cache before. *)
Definition demo_db (t : Z) : AuthQueries := demo_auth (if t <? 100 then "active" else "revoked").

Lemma revoked_key_dies_witness :
  exists e, (Authenticate (H := Memory_cache keep_only) demo_hash (demo_db (200 * Second)) (200 * Second)
               (200 * Second) ∅ demo_key).1 = (Err e, ∅).
Proof.
  pose (laws := Memory_cache_laws keep_only keep_only_sub).
  destruct (@revoked_key_dies _ (Memory_cache keep_only) laws demo_hash demo_db 10 100
    (mkAuth 0 ∅ []) (mkAuth (200 * Second) ∅ []) demo_key (200 * Second)) as (e & He & _).
  - intros t Ht. exists (NewError GatewayKeyRevoked "API key has been revoked").
    unfold demo_db. destruct (Z.ltb_spec t 100); [lia|]. reflexivity.
  - apply rtc_once. apply auth_tick. unfold Second. lia.
  - split; cbn [as_now as_cache as_flight].
    + intros now id _ Hg. cbn in Hg. unfold Memory_Get in Hg. by rewrite lookup_empty in Hg.
    + by intros t id ?%elem_of_nil.
  - lia.
  - cbn [as_now]. unfold keyCacheTTL, Second. lia.
  - exists e. exact He.
Defined.
