(* ===== verification/Credentials.v ===== *)
(** * Whose credential serves a request: [byok.go] and [affinity.go] of
    [internal/gateway/proxy]

    The organization's own credentials by vendor, the credential of one hop, and
    the pinning of a stateful follow-up to the route and credential that created
    its resource.  Queries and the decryption of a stored secret are parameters. *)
From S2P Require Import Prelude GoStr BreakerStore Breaker RateLimit Surfaces Errors Catalog Classify.
From S2P Require Import Guard Routing Rotation.

Open Scope Z_scope.

(** ** The organization's credentials *)

Record byokChoice := mkChoice {
  bc_KeyID : uuid;
  bc_Secret : string;
  bc_BaseURL : string;
  bc_Fallback : bool;
}.

Definition active (c : byokChoice) : bool := negb (bool_decide (bc_Secret c = ""%string)).

(** By vendor. *)
Abbreviation byokChoices := (gmap string byokChoice).

Definition vendors (c : byokChoices) : list string :=
  omap (fun e => if active e.2 then Some e.1 else None) (map_to_list c).

Definition forVendor (c : byokChoices) (vendor : string) : option byokChoice :=
  match c !! vendor with
  | Some choice => if active choice then Some choice else None
  | None => None
  end.

(** A row of [org_provider_keys]; the secret is what decryption gives. *)
Record OrgProviderKey := mkOrgKey {
  ok_ID : uuid;
  ok_Vendor : string;
  ok_Open : option string;
  ok_BaseUrl : string;
  ok_AllowFallback : bool;
}.

(** The loop of [resolveBYOK]; [rows] are ordered by age within a vendor. *)
Definition add_choice (out : byokChoices) (row : OrgProviderKey) : byokChoices :=
  match out !! ok_Vendor row with
  | Some _ => out
  | None =>
      match ok_Open row with
      | None => out
      | Some plain =>
          <[ok_Vendor row := mkChoice (ok_ID row) plain (ok_BaseUrl row) (ok_AllowFallback row)]> out
      end
  end.

Definition resolveBYOK (rows : result string (list OrgProviderKey)) : byokChoices :=
  match rows with
  | Err _ => ∅
  | Ok rows => fold_left add_choice rows ∅
  end.

Definition byokKeyIDIfUsed (used : bool) (choice : byokChoice) : uuid :=
  if used then bc_KeyID choice else None.

(** ** Affinity *)

(** The fields of the request the choice reads: the resource of the address and,
    when the body is JSON, its two back references. *)
Record StateReference := mkStateRef {
  sr_Resource : string;
  sr_Previous : option (string * string);  (** previous response, previous interaction *)
}.

Definition resourceResponse : string := "response".
Definition resourceInteraction : string := "interaction".

Definition affinityReference (surface : Surface) (r : StateReference) : string * string :=
  let by_address :=
    if bool_decide (sr_Resource r = ""%string) then None
    else match surface with
         | SurfaceResponsesResources => Some (resourceResponse, sr_Resource r)
         | SurfaceGeminiInteractions => Some (resourceInteraction, sr_Resource r)
         | _ => None
         end in
  match by_address with
  | Some ref => ref
  | None =>
      match sr_Previous r with
      | None => (""%string, ""%string)
      | Some (previousResponse, previousInteraction) =>
          match surface with
          | SurfaceResponses | SurfaceResponsesCompact | SurfaceResponsesInputTokens =>
              (resourceResponse, previousResponse)
          | SurfaceGeminiInteractions => (resourceInteraction, previousInteraction)
          | _ => (""%string, ""%string)
          end
      end
  end.

(** A row of [resource_affinities]. *)
Record Affinity := mkAffinity {
  af_ModelID : uuid;
  af_ModelSlug : string;
  af_RouteID : uuid;
  af_ProviderID : uuid;
  af_ProviderKeyID : uuid;
  af_OrgProviderKeyID : uuid;
}.

Definition lookup_failed : Error := NewError GatewayInternal "Resource lookup failed".
Definition resource_gone : Error := NewError GatewayResourceNotFound "Resource not found or expired".
Definition route_gone : Error :=
  NewError GatewayStateRouteUnavailable "The resource's original route is unavailable".
Definition credential_gone : Error :=
  NewError GatewayStateRouteUnavailable "The resource's original credential is unavailable".

Section affinity.
(** [GetResourceAffinity] by organization, protocol, resource type and id;
    [Ok None] when there is no row. *)
Variable GetResourceAffinity : uuid -> string -> string -> string -> result string (option Affinity).

Definition affinityResolutionError (id : Identity) (proto : string) (surface : Surface)
    (ref : StateReference) (cached : option Affinity) : option Error :=
  let '(resourceType, upstreamID) := affinityReference surface ref in
  if bool_decide (upstreamID = ""%string) then None
  else match cached with
       | Some _ => Some route_gone
       | None =>
           match GetResourceAffinity (id_OrgID id) proto resourceType upstreamID with
           | Ok (Some _) => Some route_gone
           | Ok None => Some resource_gone
           | Err _ => Some lookup_failed
           end
       end.

(** [modelForAdmission]; [model] is what [modelForRequest] found, or why not. *)
Definition modelForAdmission (id : Identity) (proto : string) (surface : Surface)
    (ref : StateReference) (model : result string string) :
    result Error (string * option Affinity) :=
  match model with
  | Ok m => Ok (m, None)
  | Err why =>
      let '(resourceType, upstreamID) := affinityReference surface ref in
      if bool_decide (upstreamID = ""%string) then Err (NewError GatewayInvalidRequest why)
      else match GetResourceAffinity (id_OrgID id) proto resourceType upstreamID with
           | Ok (Some a) => Ok (af_ModelSlug a, Some a)
           | Ok None => Err resource_gone
           | Err _ => Err lookup_failed
           end
  end.

(** The credential a follow-up is pinned to. *)
Record Pins := mkPins { pn_ProviderKeyID : uuid; pn_OrgProviderKeyID : uuid }.
Definition no_pins : Pins := mkPins None None.
Definition pinned (p : Pins) : bool :=
  bool_decide (is_Some (pn_ProviderKeyID p)) || bool_decide (is_Some (pn_OrgProviderKeyID p)).

Context {T : Type}.
Variable provider_available : uuid -> bool.

(** [pinAffinity]: the candidates left and the pinned credential. *)
Definition pinAffinity (id : Identity) (model : uuid) (routes : list (Route T)) (proto : string)
    (surface : Surface) (ref : StateReference) (cached : option Affinity) :
    result Error (list (Route T) * Pins) :=
  let '(resourceType, upstreamID) := affinityReference surface ref in
  if bool_decide (upstreamID = ""%string) then Ok (routes, no_pins)
  else
    try affinity <-
      match cached with
      | Some a => Ok a
      | None =>
          match GetResourceAffinity (id_OrgID id) proto resourceType upstreamID with
          | Ok (Some a) => Ok a
          | Ok None => Err resource_gone
          | Err _ => Err lookup_failed
          end
      end;
    if negb (bool_decide (af_ModelID affinity = model))
       || negb (bool_decide (is_Some (af_RouteID affinity)))
       || negb (bool_decide (is_Some (af_ProviderID affinity)))
    then Err route_gone
    else
      match List.find (fun r => bool_decide (r_ID r = af_RouteID affinity)
                           && bool_decide (r_ProviderID r = af_ProviderID affinity)) routes with
      | None => Err route_gone
      | Some route =>
          if negb (provider_available (r_ProviderID route)) then Err route_gone
          else if negb (bool_decide (is_Some (af_ProviderKeyID affinity)))
                  && negb (bool_decide (is_Some (af_OrgProviderKeyID affinity)))
          then Err credential_gone
          else Ok ([route], mkPins (af_ProviderKeyID affinity) (af_OrgProviderKeyID affinity))
      end.
End affinity.

(** ** The credential of one hop *)

(** What a hop authenticates with: our key's id, or the organization's. *)
Record Credential := mkCred {
  cr_KeyID : uuid;
  cr_Secret : string;
  cr_BaseURL : string;
  cr_OrgKeyID : uuid;
}.

(** A row of [provider_keys], with the provider it belongs to. *)
Record ProviderKey := mkProvKey { pk_ID : uuid; pk_ProviderID : uuid; pk_Open : option string }.

Section hop.
Context {S L X T : Type} `{StoreLaws S} `{Limiter L}.
Implicit Types p : Pipeline S L X.
Implicit Types route : Route T.

(** [GetProviderKeysForProvider], [GetProviderKeyByID] and, within one
    organization, [GetActiveOrgProviderKeyByID]. *)
Variable keys_of : uuid -> result string (list ProviderKey).
Variable key_by_id : uuid -> result string (option ProviderKey).
Variable org_key_by_id : uuid -> uuid -> result string (option OrgProviderKey).

(** The shared half: a key from the provider's pool. *)
Definition shared_credential p route : result Error Credential * Pipeline S L X :=
  match pickKey pk_ID pk_Open keys_of p route with
  | (Ok (keyID, plain), p) => (Ok (mkCred keyID plain (r_BaseURL route) None), p)
  | (Err e, p) => (Err e, p)
  end.

Definition credentialFor p route (byok : byokChoices) : result Error Credential * Pipeline S L X :=
  match forVendor byok (r_ProviderVendor route) with
  | Some choice =>
      (Ok (mkCred None (bc_Secret choice)
             (if bool_decide (bc_BaseURL choice = ""%string) then r_BaseURL route
              else bc_BaseURL choice) (bc_KeyID choice)), p)
  | None => shared_credential p route
  end.

Definition pinnedCredentialFor p route (orgID : uuid) (pins : Pins) : result Error Credential :=
  match pn_OrgProviderKeyID pins with
  | Some _ =>
      match org_key_by_id (pn_OrgProviderKeyID pins) orgID with
      | Err _ | Ok None => Err credential_gone
      | Ok (Some row) =>
          if negb (bool_decide (ok_Vendor row = r_ProviderVendor route))
          then Err (NewError GatewayStateRouteUnavailable
                      "The resource's original route no longer matches its credential")
          else match ok_Open row with
               | None => Err credential_gone
               | Some plain =>
                   Ok (mkCred None plain
                         (if bool_decide (ok_BaseUrl row = ""%string) then r_BaseURL route
                          else ok_BaseUrl row) (ok_ID row))
               end
      end
  | None =>
      match pn_ProviderKeyID pins with
      | None => Err credential_gone
      | Some _ =>
          match key_by_id (pn_ProviderKeyID pins) with
          | Err _ | Ok None => Err credential_gone
          | Ok (Some row) =>
              if negb (bool_decide (pk_ProviderID row = r_ProviderID route))
                 || negb (KeyAvailable (now p) (p_breaker p) (pk_ID row))
              then Err credential_gone
              else match pk_Open row with
                   | None => Err credential_gone
                   | Some plain => Ok (mkCred (pk_ID row) plain (r_BaseURL route) None)
                   end
          end
      end
  end.
End hop.
