(* ===== verification/Attempt.v ===== *)
(** * One attempt at one candidate: [attemptOnce] and [Execute] of [pipeline.go],
    and the streaming attempt of [pipeline_stream.go]

    The attempt that [Rotation.v] takes as a parameter, for both kinds of
    delivery.  The exchange with the upstream is a parameter: its answer, and what
    concurrent requests do to the shared state meanwhile.  What belongs to this
    request alone - the credentials left to it, what it has sent, what it got - is
    the [Ext] of the pipeline. *)
From S2P Require Import Prelude GoStr BreakerStore Breaker RateLimit Surfaces Errors Catalog Classify.
From S2P Require Import Guard Usage Stream Billing Routing Rotation Settlement Credentials.

Open Scope Z_scope.

(** ** The request's own state *)

Record Ext (T : Type) := mkExt {
  x_byok : byokChoices;                    (** the organization's credentials still usable *)
  x_invalid : list (uuid * uuid * Z);      (** credentials marked invalid: org, key, status *)
  x_sent : list (Route T * Credential);    (** requests that went out, oldest first *)
  x_got : option upstreamResult;           (** the buffered answer *)
  x_outcome : StreamOutcome;               (** the streamed one *)
  x_streamKeys : uuid * uuid;              (** [byokKeyID] and [keyID] of the last streaming hop *)
}.
Arguments mkExt {T}.
Arguments x_byok {T}.
Arguments x_invalid {T}.
Arguments x_sent {T}.
Arguments x_got {T}.
Arguments x_outcome {T}.
Arguments x_streamKeys {T}.

(** The upstream's answer to a buffered request. *)
Inductive exchange :=
  | TransportFailed (err : transport_error)
  | BodyFailed (err : transport_error)
  | BodyTooLarge
  | Answered (status : Z) (raw retryAfter : bytes) (body : Response).

(** To a streamed one; [own_timer]: the request's own first-byte timer cancelled
    it. *)
Inductive stream_exchange :=
  | StreamFailed (own_timer : bool) (err : transport_error)
  | StreamRefused (status : Z) (raw retryAfter : bytes)   (** 400 or more *)
  | Streamed (out : StreamOutcome).        (** what [Pump] made of the body *)

(** What the pipeline's first half and the address of the call fix. *)
Record Call := mkCall {
  ca_Surface : Surface;
  ca_OrgID : uuid;
  ca_Pins : Pins;
  ca_Start : Z;                            (** when the stream's budget began *)
}.

Definition firstByteTimeout : Z := 60 * Second.
Definition imageTimeout : Z := 300 * Second.
Definition firstByteBudgetFor (surface : Surface) : Z :=
  if isImageSurface surface then imageTimeout else firstByteTimeout.

Section attempt.
Context {S L T : Type} `{StoreLaws S} `{Limiter L}.
Implicit Types p : Pipeline S L (Ext T).
Implicit Types route : Route T.

Variable keys_of : uuid -> result string (list ProviderKey).
Variable key_by_id : uuid -> result string (option ProviderKey).
Variable org_key_by_id : uuid -> uuid -> result string (option OrgProviderKey).
(** [RewriteRequest] and [BuildRequest] (the latter with the credential): why they
    refuse, if they do. *)
Variable RewriteRequest : Route T -> bool -> option string.
Variable BuildRequest : Route T -> Credential -> option string.
Variable Do : Pipeline S L (Ext T) -> Route T -> Credential -> exchange * Pipeline S L (Ext T).
Variable DoStream :
  Pipeline S L (Ext T) -> Route T -> Credential -> stream_exchange * Pipeline S L (Ext T).
(** Whether the write of [markBYOKInvalid] succeeds. *)
Variable mark_ok : bool.
Variable call : Call.

Definition with_ext p (x : Ext T) : Pipeline S L (Ext T) :=
  mkPipeline (p_breaker p) (p_budget p) (p_heap p) (p_semaphores p) (p_limiter p)
    (p_keyCursors p) (p_probes p) (p_draws p) (p_jitter p) (p_clock p) x.

Definition set_byok (x : Ext T) (byok : byokChoices) : Ext T :=
  mkExt byok (x_invalid x) (x_sent x) (x_got x) (x_outcome x) (x_streamKeys x).
Definition add_invalid (x : Ext T) (k : uuid * uuid * Z) : Ext T :=
  mkExt (x_byok x) (x_invalid x ++ [k]) (x_sent x) (x_got x) (x_outcome x) (x_streamKeys x).
Definition add_sent (x : Ext T) (s : Route T * Credential) : Ext T :=
  mkExt (x_byok x) (x_invalid x) (x_sent x ++ [s]) (x_got x) (x_outcome x) (x_streamKeys x).
Definition set_got (x : Ext T) (r : upstreamResult) : Ext T :=
  mkExt (x_byok x) (x_invalid x) (x_sent x) (Some r) (x_outcome x) (x_streamKeys x).
Definition set_outcome (x : Ext T) (o : StreamOutcome) : Ext T :=
  mkExt (x_byok x) (x_invalid x) (x_sent x) (x_got x) o (x_streamKeys x).
Definition set_streamKeys (x : Ext T) (k : uuid * uuid) : Ext T :=
  mkExt (x_byok x) (x_invalid x) (x_sent x) (x_got x) (x_outcome x) k.

(** The exchange: logged, and nobody else touches this request's own state. *)
Definition send {A} (exchange : Pipeline S L (Ext T) -> Route T -> Credential -> A * Pipeline S L (Ext T))
    p route (cred : Credential) : A * Pipeline S L (Ext T) :=
  let x := add_sent (p_ext p) (route, cred) in
  let '(answer, p) := exchange (with_ext p x) route cred in
  (answer, with_ext p x).

Definition usesBYOK (cred : Credential) : bool := bool_decide (is_Some (cr_OrgKeyID cred)).

Definition provider_class : Classification := mkClass ClassProvider None 0 true None 0.
Definition client_class : Classification := mkClass ClassClient None 0 false None 0.
Definition terminal_class : Classification := mkClass ClassTerminal None 0 false None 0.

Definition with_keyID (cls : Classification) (keyID : uuid) : Classification :=
  mkClass (Class_ cls) (cls_Err cls) (CooldownHint cls) (CountsTowardHealth cls) keyID
    (upstreamStatus cls).
(** On an organization's credential a status is no health signal of ours. *)
Definition without_health (cls : Classification) : Classification :=
  mkClass (Class_ cls) (cls_Err cls) (CooldownHint cls) false None (upstreamStatus cls).

(** The credential of this hop: pinned, the organization's, or ours. *)
Definition hop_credential p route : result Error Credential * Pipeline S L (Ext T) :=
  if pinned (ca_Pins call)
  then (pinnedCredentialFor key_by_id org_key_by_id p route (ca_OrgID call) (ca_Pins call), p)
  else credentialFor keys_of p route (x_byok (p_ext p)).

(** An upstream's refusal of a hop on an organization's credential. *)
Definition rejected p route (cred : Credential) (useBYOK : bool) (status : Z) (may_fall_back : bool) :
    Pipeline S L (Ext T) :=
  if useBYOK && byokRejected status then
    let x := p_ext p in
    let x := if mark_ok then add_invalid x (ca_OrgID call, cr_OrgKeyID cred, status) else x in
    let x := if may_fall_back then set_byok x (delete (r_ProviderVendor route) (x_byok x)) else x in
    with_ext p x
  else p.

Definition fallback_of (choice : option byokChoice) : bool :=
  match choice with Some c => bc_Fallback c | None => false end.

(** ** The buffered attempt *)

Definition attemptOnce p route :
    (upstreamResult + Classification * Error * bool) * Pipeline S L (Ext T) :=
  let choice := forVendor (x_byok (p_ext p)) (r_ProviderVendor route) in
  match hop_credential p route with
  | (Err gerr, p) =>
      if bool_decide (Code gerr = GatewayStateRouteUnavailable)
      then (inr (terminal_class, gerr, false), p)
      else (inr (provider_class, gerr, false), p)
  | (Ok cred, p) =>
      let useBYOK := if pinned (ca_Pins call) then usesBYOK cred else bool_decide (is_Some choice) in
      match RewriteRequest route false with
      | Some why => (inr (client_class, NewError GatewayInvalidRequest why, useBYOK), p)
      | None =>
          match BuildRequest route cred with
          | Some why => (inr (provider_class, NewError GatewayInternal why, useBYOK), p)
          | None =>
              match send Do p route cred with
              | (TransportFailed err, p) =>
                  let cls := with_keyID (ClassifyTransportError false err) (cr_KeyID cred) in
                  (inr (cls, default (NewError GatewayInternal "Request was cancelled") (cls_Err cls),
                        useBYOK), p)
              | (BodyFailed err, p) =>
                  let cls := with_keyID (ClassifyTransportError false err) (cr_KeyID cred) in
                  (inr (cls, NewError GatewayUpstreamTimeout "Reading the upstream response failed",
                        useBYOK), p)
              | (BodyTooLarge, p) =>
                  (inr (provider_class,
                        NewError GatewayAllProvidersFailed "Upstream response exceeded the size limit",
                        useBYOK), p)
              | (Answered status raw retryAfter body, p) =>
                  if 400 <=? status then
                    let cls := with_keyID
                      (classifyUpstreamStatus (pinned (ca_Pins call)) status raw retryAfter)
                      (cr_KeyID cred) in
                    let cls := if useBYOK then without_health cls else cls in
                    let p := rejected p route cred useBYOK status
                               (negb (pinned (ca_Pins call)) && fallback_of choice) in
                    (inr (cls, default (NewError "" "") (cls_Err cls), useBYOK), p)
                  else
                    let p := with_breaker p
                      (RecordSuccess (now p) (p_breaker p) (r_ProviderID route) (cr_KeyID cred)) in
                    (inl (mkUpstream status body (cr_KeyID cred) 0 useBYOK
                            (if useBYOK then cr_OrgKeyID cred else None)), p)
              end
          end
      end
  end.

(** The closure of [Execute]. *)
Definition buffered_attempt p route (n : Z) : attemptOutcome * Pipeline S L (Ext T) :=
  match attemptOnce p route with
  | (inl res, p) =>
      (mkOutcome zero_class None (ur_keyID res) (ur_byok res) false false,
       with_ext p (set_got (p_ext p) res))
  | (inr (cls, gerr, byok), p) =>
      (mkOutcome cls (Some gerr) (cls_keyID cls) byok false false, p)
  end.

(** ** The streaming attempt *)

Definition stream_attempt p route (n : Z) : attemptOutcome * Pipeline S L (Ext T) :=
  match hop_credential p route with
  | (Err gerr, p) =>
      (mkOutcome (if bool_decide (Code gerr = GatewayStateRouteUnavailable)
                  then terminal_class else provider_class) (Some gerr) None false false false, p)
  | (Ok cred, p) =>
      let keyID := cr_KeyID cred in
      let byok := usesBYOK cred in
      let p := with_ext p (set_streamKeys (p_ext p) (cr_OrgKeyID cred, keyID)) in
      match RewriteRequest route true with
      | Some why =>
          (mkOutcome client_class (Some (NewError GatewayInvalidRequest why)) None false false false, p)
      | None =>
          match BuildRequest route cred with
          | Some why =>
              (mkOutcome provider_class (Some (NewError GatewayInternal why)) None false false false, p)
          | None =>
              if firstByteBudgetFor (ca_Surface call) - (now p - ca_Start call) <=? 0 then
                (mkOutcome provider_class (Some (NewError GatewayUpstreamTimeout "Upstream timed out"))
                   keyID byok false true, p)
              else
                match send DoStream p route cred with
                | (StreamFailed own_timer err, p) =>
                    let cls := with_keyID (ClassifyTransportError own_timer err) keyID in
                    (mkOutcome cls (Some (default (NewError GatewayInternal "Request was cancelled")
                                            (cls_Err cls))) keyID byok false own_timer, p)
                | (StreamRefused status raw retryAfter, p) =>
                    let choice := forVendor (x_byok (p_ext p)) (r_ProviderVendor route) in
                    let p := rejected p route cred byok status (fallback_of choice) in
                    let cls := with_keyID
                      (classifyUpstreamStatus (pinned (ca_Pins call)) status raw retryAfter) keyID in
                    let cls := if byok then without_health cls else cls in
                    (mkOutcome cls (cls_Err cls) keyID byok false false, p)
                | (Streamed out, p) =>
                    if so_FirstByteSent out && negb (so_Interrupted out) && negb (so_Canceled out) then
                      let p := with_breaker p
                        (RecordSuccess (now p) (p_breaker p) (r_ProviderID route) keyID) in
                      (mkOutcome zero_class None keyID byok true false,
                       with_ext p (set_outcome (p_ext p) out))
                    else if so_Interrupted out || so_Canceled out then
                      let p :=
                        if so_Interrupted out then
                          let '(j, p) := next_jitter p in
                          with_breaker p
                            (RecordProviderFailure (now p) j (p_breaker p) (r_ProviderID route))
                        else p in
                      (mkOutcome terminal_class
                         (Some (NewError GatewayUpstreamTimeout "The upstream stream was interrupted"))
                         keyID byok true false,
                       with_ext p (set_outcome (p_ext p) out))
                    else
                      (mkOutcome (with_keyID provider_class keyID)
                         (Some (NewError GatewayUpstreamTimeout "Upstream returned nothing")) keyID byok
                         false (so_TimedOut out), p)
                end
          end
      end
  end.

(** ** The executor *)

Variable perProviderConcurrency : Z.
Variable has_probe : bool.

(** [Execute]: the answer, and the rotation that led to it. *)
Definition Execute (candidates : list (Route T)) (estimatedTokens : Z) p :
    upstreamResult * rotationResult T * Pipeline S L (Ext T) :=
  let '(rot, p) := rotate perProviderConcurrency has_probe buffered_attempt candidates
                     (ca_Surface call) estimatedTokens p in
  let got := default (mkUpstream 0 (mkResponse empty_body (mkTextBody None None None None) None) None
                        0 false None) (x_got (p_ext p)) in
  (Execute_result got rot, rot, p).

Definition ExecuteStream (candidates : list (Route T)) (estimatedTokens : Z) p :
    rotationResult T * Pipeline S L (Ext T) :=
  rotate perProviderConcurrency has_probe stream_attempt candidates (ca_Surface call) estimatedTokens p.

(** ** Whose secrets leave *)

Abbreviation call_pinned := (pinned (ca_Pins call)).

(** A credential the request may present at [route] after it has sent [sent],
    when the organization's usable credentials were [byok] to begin with. *)
Inductive may_present (byok : byokChoices) (sent : list (Route T * Credential)) route :
    Credential -> Prop :=
  | present_own choice :
      call_pinned = false -> forVendor byok (r_ProviderVendor route) = Some choice ->
      may_present byok sent route
        (mkCred None (bc_Secret choice)
           (if bool_decide (bc_BaseURL choice = ""%string) then r_BaseURL route
            else bc_BaseURL choice) (bc_KeyID choice))
  | present_shared keys k plain :
      call_pinned = false ->
      keys_of (r_ProviderID route) = Ok keys -> k ∈ keys -> pk_Open k = Some plain ->
      (forall choice, forVendor byok (r_ProviderVendor route) = Some choice ->
         bc_Fallback choice = true /\
         exists r cred, (r, cred) ∈ sent /\ r_ProviderVendor r = r_ProviderVendor route /\
                        cr_OrgKeyID cred = bc_KeyID choice) ->
      may_present byok sent route (mkCred (pk_ID k) plain (r_BaseURL route) None)
  | present_pinned_own row plain :
      org_key_by_id (pn_OrgProviderKeyID (ca_Pins call)) (ca_OrgID call) = Ok (Some row) ->
      ok_Vendor row = r_ProviderVendor route -> ok_Open row = Some plain ->
      may_present byok sent route
        (mkCred None plain
           (if bool_decide (ok_BaseUrl row = ""%string) then r_BaseURL route else ok_BaseUrl row)
           (ok_ID row))
  | present_pinned_shared row plain :
      pn_OrgProviderKeyID (ca_Pins call) = None -> call_pinned = true ->
      key_by_id (pn_ProviderKeyID (ca_Pins call)) = Ok (Some row) ->
      pk_ProviderID row = r_ProviderID route -> pk_Open row = Some plain ->
      may_present byok sent route (mkCred (pk_ID row) plain (r_BaseURL route) None).

Definition lawful (byok : byokChoices) (log : list (Route T * Credential)) : Prop :=
  forall before route cred after, log = before ++ (route, cred) :: after ->
  may_present byok before route cred.

(** What the request's own state keeps: a lawful log, and a vendor's credential
    dropped only after it was presented and only when it allows the fallback. *)
Definition dropped_lawfully (byok : byokChoices) (x : Ext T) : Prop :=
  call_pinned = false -> forall v,
  forVendor (x_byok x) v = forVendor byok v \/
  forVendor (x_byok x) v = None /\
  forall choice, forVendor byok v = Some choice ->
    bc_Fallback choice = true /\
    exists r cred, (r, cred) ∈ x_sent x /\ r_ProviderVendor r = v /\ cr_OrgKeyID cred = bc_KeyID choice.

Definition credentials_kept (byok : byokChoices) (x : Ext T) : Prop :=
  lawful byok (x_sent x) /\ dropped_lawfully byok x.

Lemma lawful_snoc byok log route cred :
  lawful byok log -> may_present byok log route cred -> lawful byok (log ++ [(route, cred)]).
Proof using.
  intros Hl Hm before r c after E. destruct after as [|y after] using rev_ind.
  - apply app_inj_tail in E as [<- E]. by injection E as <- <-.
  - rewrite app_comm_cons, app_assoc in E. apply app_inj_tail in E as [E _].
    by eapply Hl.
Qed.

Lemma kept_sent byok x route cred :
  credentials_kept byok x -> may_present byok (x_sent x) route cred ->
  credentials_kept byok (add_sent x (route, cred)).
Proof using.
  intros [Hl Hd] Hm. split; [by apply lawful_snoc|].
  intros Hp v. destruct (Hd Hp v) as [E|[E Hc]]; [by left|]. right. split; [exact E|].
  intros choice Hch. destruct (Hc choice Hch) as (Hf & r & c & Hin & ?).
  split; [done|]. exists r, c. cbn. split; [|done]. apply elem_of_app. by left.
Qed.

(** The organization's choice at a route's vendor is the credential presented. *)
Definition presents_choice (x : Ext T) route (cred : Credential) : Prop :=
  call_pinned = false -> forall choice,
  forVendor (x_byok x) (r_ProviderVendor route) = Some choice -> cr_OrgKeyID cred = bc_KeyID choice.

Lemma kept_dropped byok x route cred :
  credentials_kept byok x -> (route, cred) ∈ x_sent x -> presents_choice x route cred ->
  fallback_of (forVendor (x_byok x) (r_ProviderVendor route)) = true ->
  credentials_kept byok (set_byok x (delete (r_ProviderVendor route) (x_byok x))).
Proof using.
  intros [Hl Hd] Hin Hpc Hf. split; [exact Hl|]. intros Hp v. cbn [x_byok set_byok x_sent].
  destruct (decide (v = r_ProviderVendor route)) as [->|Hne].
  - right. split; [by unfold forVendor; rewrite lookup_delete_eq|].
    intros choice Hch. destruct (Hd Hp (r_ProviderVendor route)) as [E|[E Hc]]; [|by apply Hc].
    rewrite E, Hch in Hf. cbn in Hf. split; [done|]. exists route, cred. split_and!; try done.
    apply Hpc; [done|]. by rewrite E.
  - assert (E : forVendor (delete (r_ProviderVendor route) (x_byok x)) v = forVendor (x_byok x) v).
    { unfold forVendor. by rewrite lookup_delete_ne. }
    rewrite E. by apply Hd.
Qed.

Lemma pinned_spec p route cred byok sent :
  call_pinned = true ->
  pinnedCredentialFor key_by_id org_key_by_id p route (ca_OrgID call) (ca_Pins call) = Ok cred ->
  may_present byok sent route cred.
Proof using.
  intros Hp. unfold pinnedCredentialFor.
  destruct (pn_OrgProviderKeyID (ca_Pins call)) as [id|] eqn:Eo.
  - destruct (org_key_by_id _ _) as [[row|]|] eqn:Er; try done.
    case_bool_decide as Hv; cbn [negb]; [|done].
    destruct (ok_Open row) as [plain|] eqn:Eopen; [|done]. intros [= <-].
    apply present_pinned_own; try done. by rewrite Eo.
  - destruct (pn_ProviderKeyID (ca_Pins call)) as [id|] eqn:Ek; [|done].
    destruct (key_by_id _) as [[row|]|] eqn:Er; try done.
    case_bool_decide as Hv; cbn [negb orb]; [|done].
    destruct (KeyAvailable _ _ _); cbn [negb]; [|done].
    destruct (pk_Open row) as [plain|] eqn:Eopen; [|done]. intros [= <-].
    apply present_pinned_shared; try done. by rewrite Ek.
Qed.

Lemma hop_ext p route : p_ext (hop_credential p route).2 = p_ext p.
Proof using.
  unfold hop_credential, credentialFor, shared_credential.
  destruct call_pinned; [done|]. destruct (forVendor _ _); [done|].
  pose proof (pickKey_ext pk_ID pk_Open keys_of p route) as Hx.
  by destruct (pickKey _ _ _ _ _) as [[[? ?]|?] q].
Qed.

Lemma hop_spec byok p route cred p' :
  credentials_kept byok (p_ext p) -> hop_credential p route = (Ok cred, p') ->
  p_ext p' = p_ext p /\ may_present byok (x_sent (p_ext p)) route cred /\
  presents_choice (p_ext p) route cred.
Proof using.
  intros [_ Hd]. unfold hop_credential. destruct call_pinned eqn:Hp.
  { intros [= E <-]. split; [done|]. split; [by eapply pinned_spec|].
    intros Hf. congruence. }
  unfold credentialFor, shared_credential, presents_choice.
  destruct (forVendor (x_byok (p_ext p)) (r_ProviderVendor route)) as [choice|] eqn:Ec.
  { intros [= <- <-]. split; [done|]. split.
    - apply present_own; [done|]. destruct (Hd Hp (r_ProviderVendor route)) as [E|[E _]]; congruence.
    - intros _ c [= <-]. done. }
  pose proof (pick_key_complete pk_ID pk_Open keys_of p route) as Hk.
  pose proof (pickKey_ext pk_ID pk_Open keys_of p route) as Hx.
  destruct (pickKey pk_ID pk_Open keys_of p route) as [[[id plain]|e] q]; cbn [fst snd] in *; [|done].
  intros [= <- <-]. destruct Hk as (keys & k & Hq & Hin & _ & -> & Ho).
  split; [done|]. split; [|intros _ c [=]].
  eapply present_shared; try done. intros choice Hch.
  destruct (Hd Hp (r_ProviderVendor route)) as [E|[_ Hc]]; [congruence|by apply Hc].
Qed.

Lemma send_ext {A} (ex : Pipeline S L (Ext T) -> Route T -> Credential -> A * Pipeline S L (Ext T))
    p route cred a p' :
  send ex p route cred = (a, p') -> p_ext p' = add_sent (p_ext p) (route, cred).
Proof using.
  unfold send. destruct (ex _ _ _) as [b q]. by intros [= _ <-].
Qed.

Lemma rejected_kept byok p route cred useBYOK status fall_back :
  credentials_kept byok (p_ext p) -> (route, cred) ∈ x_sent (p_ext p) ->
  presents_choice (p_ext p) route cred ->
  (fall_back = true -> fallback_of (forVendor (x_byok (p_ext p)) (r_ProviderVendor route)) = true) ->
  credentials_kept byok (p_ext (rejected p route cred useBYOK status fall_back)).
Proof using.
  intros Hk Hin Hpc Hf. unfold rejected. destruct (useBYOK && byokRejected status); [|done].
  cbn [p_ext with_ext].
  assert (Hk' : credentials_kept byok
    (if mark_ok then add_invalid (p_ext p) (ca_OrgID call, cr_OrgKeyID cred, status) else p_ext p)).
  { by destruct mark_ok. }
  destruct fall_back; [|exact Hk'].
  destruct mark_ok; by apply (kept_dropped byok _ route cred Hk'); auto.
Qed.

Lemma buffered_keeps byok p route n :
  credentials_kept byok (p_ext p) ->
  credentials_kept byok (p_ext (buffered_attempt p route n).2).
Proof using.
  intros Hk. unfold buffered_attempt, attemptOnce. cbv zeta.
  set (choice := forVendor (x_byok (p_ext p)) (r_ProviderVendor route)).
  destruct (hop_credential p route) as [[cred|e] p1] eqn:Eh.
  2: { pose proof (hop_ext p route) as Hx. rewrite Eh in Hx. cbn [snd] in Hx.
       destruct (bool_decide _); cbn [snd]; by rewrite Hx. }
  destruct (hop_spec byok p route cred p1 Hk Eh) as (Hx1 & Hm & Hpc).
  destruct (RewriteRequest route false); [cbn; by rewrite Hx1|].
  destruct (BuildRequest route cred); [cbn; by rewrite Hx1|].
  destruct (send Do p1 route cred) as [answer p2] eqn:Es. apply send_ext in Es. rewrite Hx1 in Es.
  assert (Hk2 : credentials_kept byok (p_ext p2)) by (rewrite Es; by apply kept_sent).
  destruct answer as [err|err| |status raw ra body]; cbn [snd]; try done.
  destruct (400 <=? status); [|done]. cbn [snd].
  apply rejected_kept; try done.
  - rewrite Es. cbn. apply elem_of_app. right. by left.
  - intros Hp. rewrite Es. cbn. by apply Hpc.
  - rewrite Es. cbn [add_sent x_byok]. intros Hf. by apply andb_prop in Hf as [_ Hf].
Qed.

Lemma stream_keeps byok p route n :
  credentials_kept byok (p_ext p) ->
  credentials_kept byok (p_ext (stream_attempt p route n).2).
Proof using.
  intros Hk. unfold stream_attempt. cbv zeta.
  destruct (hop_credential p route) as [[cred|e] p1] eqn:Eh.
  2: { pose proof (hop_ext p route) as Hx. rewrite Eh in Hx. cbn [snd] in *. by rewrite Hx. }
  destruct (hop_spec byok p route cred p1 Hk Eh) as (Hx1 & Hm & Hpc).
  destruct (RewriteRequest route true); [cbn; by rewrite Hx1|].
  destruct (BuildRequest route cred); [cbn; by rewrite Hx1|].
  destruct (_ <=? 0); [cbn; by rewrite Hx1|].
  destruct (send DoStream _ route cred) as [answer p2] eqn:Es. apply send_ext in Es.
  cbn [p_ext with_ext] in Es. rewrite Hx1 in Es.
  assert (Hk2 : credentials_kept byok (p_ext p2)).
  { rewrite Es. apply kept_sent; [exact Hk|exact Hm]. }
  destruct answer as [own err|status raw ra|out]; cbn [snd]; [done| |].
  - apply rejected_kept; try done.
    + rewrite Es. cbn. apply elem_of_app. right. by left.
    + intros Hp. rewrite Es. cbn. by apply Hpc.
  - destruct (_ && _ && _); [done|]. destruct (_ || _); [|done].
    destruct (so_Interrupted out); [|done].
    unfold next_jitter. by destruct (p_jitter p2).
Qed.

(** C22: an organization's secret goes to its own vendor only, and a shared one to
    its own provider only.  Whatever the upstreams answer and however the request
    rotates, streamed or not, every credential it sent out was one it may present
    there: the organization's choice for the route's vendor; a key of the route's
    provider, and where the organization has its own only after that one was
    presented and only if the organization allows the fallback; or, for a pinned
    follow-up, exactly the pinned credential, at the vendor or provider it belongs
    to. *)
Theorem secrets_stay_home candidates est p (stream : bool) :
  x_sent (p_ext p) = [] ->
  let p' := if stream then (ExecuteStream candidates est p).2 else (Execute candidates est p).2 in
  lawful (x_byok (p_ext p)) (x_sent (p_ext p')).
Proof using.
  intros Hs. cbv zeta. set (byok := x_byok (p_ext p)).
  assert (Hk : credentials_kept byok (p_ext p)).
  { split; [|by left]. rewrite Hs. intros before r c after E. by destruct before. }
  destruct stream.
  - unfold ExecuteStream.
    destruct (rotate _ _ stream_attempt _ _ _ p) as [rot p'] eqn:Er. cbn [snd].
    apply (rotate_ended _ _ _ _ _ (credentials_kept byok)) in Er; [|by auto using stream_keeps|done].
    destruct Er as [_ [Hl _]|q route n _ Hq _ _ _ _ _ ->]; [done|].
    by apply stream_keeps.
  - unfold Execute.
    destruct (rotate _ _ buffered_attempt _ _ _ p) as [rot p'] eqn:Er. cbn [snd].
    apply (rotate_ended _ _ _ _ _ (credentials_kept byok)) in Er; [|by auto using buffered_keeps|done].
    destruct Er as [_ [Hl _]|q route n _ Hq _ _ _ _ _ ->]; [done|].
    by apply buffered_keeps.
Qed.

(** ** Who served *)

(** Every credential of the organization has an id. *)
Definition identified (byok : byokChoices) : Prop :=
  forall v choice, forVendor byok v = Some choice -> is_Some (bc_KeyID choice).

(** The result [up] of a request whose last hop was [cred] at [route]. *)
Definition names_hop (up : upstreamResult) (cred : Credential) : Prop :=
  ur_keyID up = cr_KeyID cred /\ ur_byok up = usesBYOK cred /\ ur_byokKeyID up = cr_OrgKeyID cred.

Lemma hop_byok byok p route cred p' :
  identified byok -> credentials_kept byok (p_ext p) -> hop_credential p route = (Ok cred, p') ->
  (if call_pinned then usesBYOK cred
   else bool_decide (is_Some (forVendor (x_byok (p_ext p)) (r_ProviderVendor route)))) = usesBYOK cred.
Proof using.
  intros Hid [_ Hd]. unfold hop_credential. destruct call_pinned eqn:Hp; [done|].
  unfold credentialFor, shared_credential, usesBYOK.
  destruct (Hd Hp (r_ProviderVendor route)) as [E|[E _]].
  - rewrite E. destruct (forVendor byok (r_ProviderVendor route)) as [choice|] eqn:Ec.
    + intros [= <- _]. cbn [cr_OrgKeyID].
      apply bool_decide_ext. split; intros _; [by eapply Hid|by eexists].
    + destruct (pickKey _ _ _ _ _) as [[[? ?]|?] q]; [|done]. by intros [= <- _].
  - rewrite E. destruct (pickKey _ _ _ _ _) as [[[? ?]|?] q]; [|done]. by intros [= <- _].
Qed.

Lemma attemptOnce_served byok p route res p' :
  identified byok -> credentials_kept byok (p_ext p) -> attemptOnce p route = (inl res, p') ->
  exists log cred, x_sent (p_ext p') = log ++ [(route, cred)] /\ names_hop res cred.
Proof using.
  intros Hid Hk. unfold attemptOnce. cbv zeta.
  destruct (hop_credential p route) as [[cred|e] p1] eqn:Eh; [|by case_bool_decide].
  rewrite (hop_byok byok p route cred p1 Hid Hk Eh).
  destruct (RewriteRequest route false); [done|].
  destruct (BuildRequest route cred); [done|].
  destruct (send Do p1 route cred) as [answer p2] eqn:Es. apply send_ext in Es.
  destruct answer as [err|err| |status raw ra body]; try done.
  destruct (400 <=? status); [done|]. intros [= <- <-].
  exists (x_sent (p_ext p1)), cred. cbn [p_ext with_breaker]. rewrite Es. split; [done|].
  unfold names_hop. cbn [ur_keyID ur_byok ur_byokKeyID]. split_and!; try done.
  unfold usesBYOK. by destruct (cr_OrgKeyID cred).
Qed.

(** What is charged and recorded names the credential that served.  When a
    buffered request succeeds, the last request that went out is the one whose
    answer is returned: its route is the rotation's, its credential the result's,
    and the result says it was the organization's exactly when it was. *)
Lemma buffered_last_sent candidates est p :
  x_sent (p_ext p) = [] -> identified (x_byok (p_ext p)) ->
  let '(up, rot, p') := Execute candidates est p in
  rr_err rot = None ->
  exists log route cred,
    x_sent (p_ext p') = log ++ [(route, cred)] /\ route ∈ candidates /\
    rr_route rot = Some route /\ names_hop up cred.
Proof using.
  intros Hs Hid. unfold Execute.
  set (byok := x_byok (p_ext p)) in *.
  assert (Hk : credentials_kept byok (p_ext p)).
  { split; [|by left]. rewrite Hs. intros before r c after E. by destruct before. }
  destruct (rotate _ _ buffered_attempt _ _ _ p) as [rot p'] eqn:Er. intros Herr.
  apply (rotate_ended _ _ _ _ _ (credentials_kept byok)) in Er; [|by auto using buffered_keeps|done].
  destruct Er as [[? ?] _|q route n Hin Hq _ Hr _ _ He Hx]; [congruence|].
  rewrite Herr in He. rewrite Hx. unfold Execute_result. rewrite Herr.
  unfold buffered_attempt in *.
  destruct (attemptOnce q route) as [[res|[[cls gerr] b]] q'] eqn:Ea; [|done].
  destruct (attemptOnce_served byok q route res q' Hid Hq Ea) as (log & cred & Hlog & Hn).
  exists log, route, cred. cbn [snd p_ext with_ext]. split_and!; try done.
Qed.

Lemma stream_attempt_outcome byok p route n out p' :
  credentials_kept byok (p_ext p) -> so_FirstByteSent (x_outcome (p_ext p)) = false ->
  stream_attempt p route n = (out, p') ->
  so_FirstByteSent (x_outcome (p_ext p')) = false \/
  o_committed out = true /\
  exists log cred, x_sent (p_ext p') = log ++ [(route, cred)] /\
    x_streamKeys (p_ext p') = (cr_OrgKeyID cred, cr_KeyID cred) /\ o_byok out = usesBYOK cred.
Proof using.
  intros Hk Ho. unfold stream_attempt. cbv zeta.
  pose proof (hop_ext p route) as Hx.
  destruct (hop_credential p route) as [[cred|e] p1]; cbn [snd] in Hx.
  2: { intros [= _ <-]. left. by rewrite Hx. }
  set (p2 := with_ext p1 _).
  assert (Ho2 : so_FirstByteSent (x_outcome (p_ext p2)) = false) by (cbn; by rewrite Hx).
  destruct (RewriteRequest route true); [intros [= _ <-]; by left|].
  destruct (BuildRequest route cred); [intros [= _ <-]; by left|].
  destruct (_ <=? 0); [intros [= _ <-]; by left|].
  destruct (send DoStream p2 route cred) as [answer p3] eqn:Es. apply send_ext in Es.
  assert (Ho3 : so_FirstByteSent (x_outcome (p_ext p3)) = false) by (by rewrite Es).
  destruct answer as [own err|status raw ra|o].
  - intros [= _ <-]. by left.
  - intros [= _ <-]. left. unfold rejected. destruct (_ && _); [|done].
    cbn. by destruct mark_ok, (fallback_of _).
  - assert (Hlog : x_sent (p_ext p3) = x_sent (p_ext p2) ++ [(route, cred)]
      /\ x_streamKeys (p_ext p3) = (cr_OrgKeyID cred, cr_KeyID cred)) by (by rewrite Es).
    destruct Hlog as [Hlog Hkeys].
    destruct (so_FirstByteSent o && _ && _).
    { intros [= <- <-]. right. split; [done|]. by exists (x_sent (p_ext p2)), cred. }
    destruct (_ || _); [|intros [= _ <-]; by left].
    intros [= <- <-]. right. split; [done|]. exists (x_sent (p_ext p2)), cred.
    cbn [p_ext with_ext set_outcome x_sent x_streamKeys o_byok].
    assert (Hj : p_ext (if so_Interrupted o
      then let '(j, p) := next_jitter p3 in
           with_breaker p (RecordProviderFailure (now p) j (p_breaker p) (r_ProviderID route))
      else p3) = p_ext p3).
    { destruct (so_Interrupted o); [|done]. unfold next_jitter. by destruct (p_jitter p3). }
    by rewrite Hj.
Qed.

(** The same for a stream.  Once a first byte is out, the credential settled
    against is that of the hop which produced the stream - the last one that went
    out - on the rotation's route, not that of an earlier candidate. *)
Theorem stream_names_last_sent candidates est p :
  x_sent (p_ext p) = [] -> so_FirstByteSent (x_outcome (p_ext p)) = false ->
  let '(rot, p') := ExecuteStream candidates est p in
  so_FirstByteSent (x_outcome (p_ext p')) = true ->
  exists log route cred,
    x_sent (p_ext p') = log ++ [(route, cred)] /\ route ∈ candidates /\
    rr_route rot = Some route /\ rr_byok rot = usesBYOK cred /\
    x_streamKeys (p_ext p') = (cr_OrgKeyID cred, cr_KeyID cred).
Proof using.
  intros Hs Ho. unfold ExecuteStream.
  set (byok := x_byok (p_ext p)) in *.
  assert (Hk : credentials_kept byok (p_ext p)).
  { split; [|by left]. rewrite Hs. intros before r c after E. by destruct before. }
  destruct (rotate _ _ stream_attempt _ _ _ p) as [rot p'] eqn:Er. intros Hf.
  apply (rotate_ended _ _ _ _ _
    (fun x => credentials_kept byok x /\ so_FirstByteSent (x_outcome x) = false)) in Er;
    [| |done].
  - destruct Er as [_ [_ Ho']|q route n Hin [Hq Hoq] _ Hr _ Hb _ Hx]; [congruence|].
    destruct (stream_attempt q route n) as [out q'] eqn:Ea. cbn [fst snd] in *. rewrite Hx in *.
    destruct (stream_attempt_outcome byok q route n out q' Hq Hoq Ea)
      as [?|(_ & log & cred & Hl & Hk' & Hb')]; [congruence|].
    exists log, route, cred. rewrite Hb. by split_and!.
  - intros q route n _ [Hq Hoq] (_ & Hc & _). split; [by apply stream_keeps|].
    destruct (stream_attempt q route n) as [out q'] eqn:Ea. cbn [fst snd] in *.
    destruct (stream_attempt_outcome byok q route n out q' Hq Hoq Ea) as [?|[Hc' _]]; congruence.
Qed.

(** ** What an organization's credential can do to our circuits *)

(** An answer refused on an organization's credential moves no circuit of
    ours: the verdict names none, and the attempt leaves the breakers as the
    exchange did.  An unreachable upstream on the same credential - which may be
    the organization's own address - is recorded against our provider. *)
Theorem byok_answer_moves_no_circuit p route n cred p1 answer p2 :
  hop_credential p route = (Ok cred, p1) -> call_pinned = false ->
  is_Some (forVendor (x_byok (p_ext p)) (r_ProviderVendor route)) ->
  RewriteRequest route false = None -> BuildRequest route cred = None ->
  send Do p1 route cred = (answer, p2) ->
  let '(out, p') := buffered_attempt p route n in
  match answer with
  | Answered status _ _ _ =>
      400 <= status ->
      o_byok out = true /\ blamed route (o_cls out) = None /\ p_breaker p' = p_breaker p2
  | TransportFailed err =>
      te_canceled err = false ->
      o_byok out = true /\ blamed route (o_cls out) = Some (providerScope (r_ProviderID route))
  | _ => True
  end.
Proof using.
  intros Eh Hp Hc Hrw Hb Es. unfold buffered_attempt, attemptOnce. cbv zeta.
  rewrite Eh, Hrw, Hb, Es, Hp, (bool_decide_eq_true_2 _ Hc).
  destruct answer as [err|err| |status raw ra body]; try done.
  - intros Hcan. split; [done|]. unfold ClassifyTransportError. rewrite Hcan.
    destruct (te_timeout err); reflexivity.
  - destruct (Z.leb_spec 400 status); [|intros; lia].
    intros _. split; [done|]. split.
    + unfold blamed, without_health. cbn [o_cls Class_ cls_keyID CountsTowardHealth].
      by destruct (Class_ _).
    + unfold rejected. by destruct (_ && _).
Qed.
End attempt.

(** ** A concrete deployment *)

(** The organization has a key of its own at ["vendor"] and allows the fallback;
    that key is refused, our own is served. *)
Definition demo_choices : byokChoices :=
  {["vendor"%string := mkChoice (Some "own"%string) "org-secret" "" true]}.

Definition demo_outcome (sent : bool) : StreamOutcome :=
  mkStreamOutcome no_usage "" sent false false false [].

Definition demo_ext : Ext nat :=
  mkExt demo_choices [] [] None (demo_outcome false) (None, None).

Definition demo_state : Pipeline Memory Redis (Ext nat) :=
  mkPipeline (mkWorld (∅ : Memory) None) NewRetryBudget [] ∅ (Some (mkRedis ∅ true)) ∅ [] [] []
    (mkClock 0 0) demo_ext.

Definition demo_keys (provider : uuid) : result string (list ProviderKey) :=
  Ok [mkProvKey (Some "shared"%string) provider (Some "our-secret"%string)].

Definition demo_body : Response := mkResponse empty_body (mkTextBody None None None None) None.

Definition demo_Do (p : Pipeline Memory Redis (Ext nat)) (r : Route nat) (c : Credential) :
    exchange * Pipeline Memory Redis (Ext nat) :=
  (if usesBYOK c then Answered 401 [] [] demo_body else Answered 200 [] [] demo_body, p).

Definition demo_DoStream (p : Pipeline Memory Redis (Ext nat)) (r : Route nat) (c : Credential) :
    stream_exchange * Pipeline Memory Redis (Ext nat) :=
  (if usesBYOK c then StreamRefused 401 [] [] else Streamed (demo_outcome true), p).

Definition demo_call : Call := mkCall SurfaceChat (Some "org"%string) no_pins 0.

Abbreviation demo_Execute := (Execute demo_keys (fun _ => Ok None) (fun _ _ => Ok None)
  (fun _ _ => None) (fun _ _ => None) demo_Do true demo_call 64 true).
Abbreviation demo_ExecuteStream := (ExecuteStream demo_keys (fun _ => Ok None) (fun _ _ => Ok None)
  (fun _ _ => None) (fun _ _ => None) demo_DoStream true demo_call 64 true).

Example fallback_is_served :
  let '(up, rot, p') := demo_Execute demo_candidates 10 demo_state in
  rr_err rot = None /\ ur_keyID up = Some "shared"%string /\
  map (fun s => cr_Secret s.2) (x_sent (p_ext p')) = ["org-secret"; "our-secret"]%string /\
  x_invalid (p_ext p') = [(Some "org"%string, Some "own"%string, 401)].
Proof. vm_compute. done. Qed.

Lemma demo_identified : identified demo_choices.
Proof.
  intros v choice. unfold forVendor, demo_choices. intros Hc.
  destruct (decide (v = "vendor"%string)) as [->|Hne].
  - rewrite lookup_singleton_eq in Hc. cbn in Hc. injection Hc as <-. by eexists.
  - by rewrite lookup_singleton_ne in Hc.
Qed.

Lemma secrets_stay_home_witness :
  let p' := (demo_ExecuteStream demo_candidates 10 demo_state).2 in
  lawful demo_keys (fun _ => Ok None) (fun _ _ => Ok None) demo_call demo_choices (x_sent (p_ext p')).
Proof.
  exact (secrets_stay_home demo_keys (fun _ => Ok None) (fun _ _ => Ok None) (fun _ _ => None)
    (fun _ _ => None) demo_Do demo_DoStream true demo_call 64 true demo_candidates 10 demo_state true
    eq_refl).
Defined.

Lemma buffered_last_sent_witness :
  exists log route cred,
    x_sent (p_ext (demo_Execute demo_candidates 10 demo_state).2) = log ++ [(route, cred)] /\
    names_hop (demo_Execute demo_candidates 10 demo_state).1.1 cred.
Proof.
  pose proof (buffered_last_sent demo_keys (fun _ => Ok None) (fun _ _ => Ok None)
    (fun _ _ => None) (fun _ _ => None) demo_Do true demo_call 64 true demo_candidates 10 demo_state
    eq_refl demo_identified) as H.
  destruct (demo_Execute demo_candidates 10 demo_state) as [[up rot] p'] eqn:E.
  destruct H as (log & route & cred & Hl & _ & _ & Hn); [|by exists log, route, cred].
  vm_compute in E. injection E as _ <- _. reflexivity.
Defined.

Lemma stream_names_last_sent_witness :
  exists log route cred,
    x_sent (p_ext (demo_ExecuteStream demo_candidates 10 demo_state).2) = log ++ [(route, cred)] /\
    x_streamKeys (p_ext (demo_ExecuteStream demo_candidates 10 demo_state).2)
    = (cr_OrgKeyID cred, cr_KeyID cred).
Proof.
  pose proof (stream_names_last_sent demo_keys (fun _ => Ok None) (fun _ _ => Ok None)
    (fun _ _ => None) (fun _ _ => None) demo_DoStream true demo_call 64 true demo_candidates 10
    demo_state eq_refl eq_refl) as H.
  destruct (demo_ExecuteStream demo_candidates 10 demo_state) as [rot p'] eqn:E.
  destruct H as (log & route & cred & Hl & _ & _ & _ & Hk); [|by exists log, route, cred].
  vm_compute in E. injection E as _ <-. reflexivity.
Defined.

Lemma byok_answer_moves_no_circuit_witness :
  blamed (demo_route "a" 1 1)
    (o_cls (buffered_attempt demo_keys (fun _ => Ok None) (fun _ _ => Ok None) (fun _ _ => None)
      (fun _ _ => None) demo_Do true demo_call demo_state (demo_route "a" 1 1) 1).1) = None.
Proof.
  pose proof (byok_answer_moves_no_circuit demo_keys (fun _ => Ok None) (fun _ _ => Ok None)
    (fun _ _ => None) (fun _ _ => None) demo_Do true demo_call demo_state (demo_route "a" 1 1) 1
    (mkCred None "org-secret" "https://a" (Some "own"%string)) demo_state
    (Answered 401 [] [] demo_body) _ eq_refl eq_refl ltac:(by eexists) eq_refl eq_refl eq_refl) as H.
  destruct (buffered_attempt _ _ _ _ _ _ _ _ _ _ _) as [out p'].
  apply H. lia.
Defined.
