(* ===== verification/Admission.v ===== *)
(** * Admitting a request: [Admission.Prepare] and [PricingSnapshot.LockInputs] of
    [internal/gateway/proxy/pipeline.go]

    Authentication, the kill switch, the model gates, resolution, the locked
    prices, budget, rate limiting and the amount to hold, in the order the code
    runs them; and a whole request, from admission through the execution of
    [Attempt.v] to the settlement of [Settlement.v]. *)
From S2P Require Import Prelude GoStr BreakerStore Breaker RateLimit Rational Money PriceTable Pricing.
From S2P Require Import UnitPricing Surfaces Usage Stream Catalog Errors Classify Guard Billing Routing.
From S2P Require Import Rotation Ledger Settlement KeyFormat Cache Auth Credentials Attempt Settings.

Open Scope Z_scope.

(** ** What a request carries *)

(** What the probes of [protocols.go] and [images.go] decode from the body;
    [pb_Model] is [None] when it is not JSON. *)
Record Probes := mkProbes {
  pb_Model : option string;
  pb_MaxTokens : Z;
  pb_MaxCompletionTokens : Z;
  pb_MaxOutputTokens : Z;
  pb_GenerationMax : Z;          (** generationConfig.maxOutputTokens *)
  pb_Size : string;
  pb_Quality : string;
}.

Record Incoming := mkIncoming {
  ic_req : Request;
  ic_Credential : bytes;
  ic_Protocol : string;
  ic_Model : string;             (** of the address; empty elsewhere *)
  ic_Ref : StateReference;
  ic_Utility : bool;
  ic_body : Probes;
}.

Definition ModelOf (b : Probes) : result string string :=
  match pb_Model b with
  | None => Err "proxy: invalid JSON in request body"%string
  | Some m => if bool_decide (m = ""%string) then Err "proxy: missing model field"%string else Ok m
  end.

Definition modelForRequest (ic : Incoming) : result string string :=
  if negb (bool_decide (ic_Model ic = ""%string)) then Ok (ic_Model ic) else ModelOf (ic_body ic).

Definition MaxTokensOf (b : Probes) : Z :=
  if 0 <? pb_GenerationMax b then pb_GenerationMax b
  else if 0 <? pb_MaxOutputTokens b then pb_MaxOutputTokens b
  else if 0 <? pb_MaxCompletionTokens b then pb_MaxCompletionTokens b
  else pb_MaxTokens b.

(** ** The pricing snapshot *)

(** A row of [ResolveUsagePricing]. *)
Record UsagePricingRow := mkUsagePricing {
  up_ModelID : uuid;
  up_ModelSlug : string;
  up_PricingPlanID : uuid;
  up_ModelMultiplierBps : Z;
  up_PlanMultiplierBps : Z;
  up_PlanModelOverride : bool;
}.

(** What one repeatable-read transaction answers, beside the catalog's [Queries]. *)
Record PriceQueries := mkPriceQueries {
  ResolveUsagePricing : string -> uuid -> result string (option UsagePricingRow);
  ListModelPriceDimensionRates : uuid -> result string (list DimensionRow);
  ListModelPriceToolRates : uuid -> result string (list ToolRow);
  ListModelPriceUnitRates : uuid -> result string (list UnitRow);
}.

Definition LockedPriceTable (q : PriceQueries) (modelID : uuid) (pricing : ModelPricingSnapshot) :
    result string PriceTable :=
  try dims <- ListModelPriceDimensionRates q modelID;
  try tools <- ListModelPriceToolRates q modelID;
  Ok (WithToolPrices (NewPriceTable (Upstream pricing) dims) tools).

Definition LockedUnitPriceTable (q : PriceQueries) (modelID : uuid) : result string UnitPriceTable :=
  try rows <- ListModelPriceUnitRates q modelID;
  Ok (NewUnitPriceTable rows).

(** ** The collaborators *)

Section admission.
Context {C L raw T : Type} `{CacheStore Identity C} `{Limiter L}.

Variable ValidateTransport : raw -> result string T.
(** The hash of a credential, and the hexadecimal SHA-256 of the exchange rate. *)
Variable HashToken : bytes -> string.
Variable sha256hex : bytes -> string.

(** The reads of one request: authentication, settings, affinity (outside and inside
    the transaction), the organization's credentials, the snapshot, spend, and
    whether the transaction opens and commits.  [ev_now] is the clock of the key
    cache and of the alerts, [ev_later] when the snapshot is cached. *)
Record Env := mkEnv {
  ev_auth : AuthQueries;
  ev_int : string -> result read_error (option Z);
  ev_bool : string -> result read_error (option bool);
  ev_string : string -> result read_error (option bytes);
  ev_affinity : uuid -> string -> string -> string -> result string (option Affinity);
  ev_affinity_tx : uuid -> string -> string -> string -> result string (option Affinity);
  ev_byok : uuid -> result string (list OrgProviderKey);
  ev_begin : bool;
  ev_commit : bool;
  ev_catalog : Queries (raw := raw);
  ev_prices : PriceQueries;
  ev_spend : uuid -> Date -> result string Z;
  ev_today : Date;
  ev_clock : Clock;
  ev_now : Z;
  ev_later : Z;
}.

(** What admission changes: the key cache, the recorded last uses, the transports
    last seen valid, the limiter, and the alerts with when each model last raised
    one. *)
Record AdmState := mkAdm {
  ad_cache : C;
  ad_used : list uuid;
  ad_known : gmap string T;
  ad_limiter : L;
  ad_seen : gmap string Z;
  ad_alerts : list string;
}.

Implicit Types (ev : Env) (st : AdmState) (ic : Incoming) (id : Identity).

Definition with_known st kg := mkAdm (ad_cache st) (ad_used st) kg (ad_limiter st) (ad_seen st) (ad_alerts st).
Definition with_limits st l := mkAdm (ad_cache st) (ad_used st) (ad_known st) l (ad_seen st) (ad_alerts st).

Definition unpricedAlertInterval : Z := 60 * 60 * Second.

(** With an alerter configured; without one nothing is recorded. *)
Definition alertUnpriced (now : Z) st (slug : string) : AdmState :=
  let alert := mkAdm (ad_cache st) (ad_used st) (ad_known st) (ad_limiter st)
                 (<[slug := now]> (ad_seen st)) (ad_alerts st ++ [slug]) in
  match ad_seen st !! slug with
  | Some t => if now - t <? unpricedAlertInterval then st else alert
  | None => alert
  end.

Definition unpriced_error : Error := NewError GatewayModelUnpriced "Model is temporarily unavailable".
Definition incomplete : Error := NewError GatewayInternal "Billing configuration is incomplete".

Definition LockInputs ev id (res : Resolution (T := T)) : result Error pricingInputs :=
  let fx := FXRateOf (ev_string ev) (id_WalletCurrency id) in
  if beq fx [] then Err incomplete
  else
    match ResolveUsagePricing (ev_prices ev) (m_Slug (res_Model res)) (id_OrgID id) with
    | Ok None | Err _ => Err incomplete
    | Ok (Some row) =>
        if negb (bool_decide (up_ModelID row = m_ID (res_Model res)))
           || negb (bool_decide (up_ModelSlug row = m_Slug (res_Model res)))
           || negb (bool_decide (is_Some (up_PricingPlanID row)))
        then Err incomplete
        else Ok (mkPricingInputs
                   (mkRates (up_ModelMultiplierBps row) (up_PlanMultiplierBps row) 10000 fx)
                   (BYOKFeeBps (ev_int ev)) (up_PricingPlanID row) (up_PlanModelOverride row)
                   ("sha256:" ++ sha256hex fx))
    end.

(** ** [Prepare] *)

(** [prepared] with the fields only the execution reads. *)
Record Cleared := mkCleared {
  am_prep : prepared T;
  am_byok : byokChoices;
  am_affinity : option Affinity;
}.

(** Steps 1 and 2. *)
Definition admit_caller ev st (credential : bytes) : option Identity * option Error * AdmState :=
  let '(who, c, used) := Authenticate HashToken (ev_auth ev) (ev_now ev) (ev_later ev) (ad_cache st) credential in
  let st := mkAdm c (ad_used st ++ used) (ad_known st) (ad_limiter st) (ad_seen st) (ad_alerts st) in
  match who with
  | Err e => (None, Some e, st)
  | Ok id =>
      match RequireScope id "inference" with
      | Some e => (Some id, Some e, st)
      | None =>
          if KillSwitch (ev_bool ev)
          then (Some id, Some (NewError GatewayModelDisabled "Service is temporarily disabled"), st)
          else (Some id, None, st)
      end
  end.

(** Step 3, before the transaction. *)
Definition admit_model ev ic id : string * option Affinity * option Error :=
  match modelForAdmission (ev_affinity ev) id (ic_Protocol ic) (in_Surface (ic_req ic)) (ic_Ref ic)
          (modelForRequest ic) with
  | Err e => (""%string, None, Some e)
  | Ok (slug, affinity) =>
      match CheckTier id with
      | Some e => (slug, affinity, Some e)
      | None => (slug, affinity, CheckModel id slug)
      end
  end.

(** Inside the transaction: the resolution and the refusals it maps to. *)
Definition resolve_in ev st ic id (slug : string) (affinity : option Affinity) (byok : byokChoices) :
    result Error (Resolution (T := T)) * AdmState :=
  if negb (ev_begin ev) then (Err (NewError GatewayInternal "Model resolution failed"), st)
  else
    let '(res, _, kg) := ResolveFor ValidateTransport (ev_catalog ev) None (ad_known st) slug
                           (in_Surface (ic_req ic)) (id_ModelTierID id) (vendors byok) in
    let st := with_known st kg in
    match res with
    | Ok res => (Ok res, st)
    | Err ErrModelUnpriced => (Err unpriced_error, alertUnpriced (ev_now ev) st slug)
    | Err ErrModelUnavailable =>
        (Err (default (NewError GatewayModelNotFound "Model not found or unavailable")
                (affinityResolutionError (ev_affinity_tx ev) id (ic_Protocol ic)
                   (in_Surface (ic_req ic)) (ic_Ref ic) affinity)), st)
    | Err (ErrQuery _) => (Err (NewError GatewayInternal "Model resolution failed"), st)
    end.

Definition empty_table : PriceTable := mkTable zero_price ∅ ∅ false.
Definition empty_unit_table : UnitPriceTable := mkUnitTable ∅ false.

(** Step 4: the prices a billed request is locked to. *)
Definition lock_prices ev st id (slug : string) (res : Resolution (T := T)) :
    result Error (prepared T) * AdmState :=
  match LockInputs ev id res with
  | Err e => (Err e, st)
  | Ok pricing =>
      match LockedPriceTable (ev_prices ev) (m_ID (res_Model res)) (res_ModelPricing res) with
      | Err _ => (Err incomplete, st)
      | Ok table =>
          let prep units := mkPrepared id slug res pricing 0 0 table units ∅ in
          if unitBilled (prep empty_unit_table) then
            match LockedUnitPriceTable (ev_prices ev) (m_ID (res_Model res)) with
            | Err _ => (Err incomplete, st)
            | Ok units =>
                if ut_Empty units then (Err unpriced_error, alertUnpriced (ev_now ev) st slug)
                else if ev_commit ev then (Ok (prep units), st) else (Err incomplete, st)
            end
          else if ev_commit ev then (Ok (prep empty_unit_table), st) else (Err incomplete, st)
      end
  end.

Definition rate_gate ev st id (est : Z) : option Error * AdmState :=
  let '(e, l) := CheckRate (ev_clock ev) (ad_limiter st) id est in (e, with_limits st l).

Definition with_estimate (p : prepared T) (inputTokens estNano : Z) (units : Units) : prepared T :=
  mkPrepared (pr_id p) (pr_modelSlug p) (pr_res p) (pr_pricing p) inputTokens estNano
    (pr_priceTable p) (pr_unitPriceTable p) units.

Definition quote : string := String (ascii_of_nat 34) EmptyString.
Definition not_countable : Error :=
  NewError GatewayInvalidRequest
    ("This model is billed per image, and the number of images produced cannot be counted from a stream. Retry without "
     ++ quote ++ "stream" ++ quote ++ ".").

(** Step 5 for a per-unit model.  The video surface stops before an amount is
    estimated. *)
Definition admit_units ev st ic id (p : prepared T) : result Error (prepared T) * AdmState :=
  match rate_gate ev st id 0 with
  | (Some e, st) => (Err e, st)
  | (None, st) =>
      if bool_decide (in_Surface (ic_req ic) = SurfaceVideo) then (Ok p, st)
      else if in_Stream (ic_req ic) && isImageSurface (in_Surface (ic_req ic)) then (Err not_countable, st)
      else
        let st := match BillingUnit (pr_unitPriceTable p) with
                  | Err _ => alertUnpriced (ev_now ev) st (pr_modelSlug p)
                  | Ok _ => st
                  end in
        match syncUnits p (in_Surface (ic_req ic)) (pb_Size (ic_body ic)) (pb_Quality (ic_body ic)) with
        | Err e => (Err e, st)
        | Ok units =>
            let '(list, cost) := billingUnitPrices p in
            let '(quote, refusal) := quoteOrRefuse (ComputeUnits list cost units (pi_rates (pr_pricing p))) in
            match refusal with
            | Some e => (Err e, if bool_decide (Code e = GatewayModelUnpriced)
                                then alertUnpriced (ev_now ev) st (pr_modelSlug p) else st)
            | None => (Ok (with_estimate p (pr_inputTokens p) (ChargedNano quote) units), st)
            end
        end
  end.

(** Step 5 for a token-billed one. *)
Definition admit_tokens ev st ic id (p : prepared T) : result Error (prepared T) * AdmState :=
  let inputTokens := EstimateRequestTokens (in_Text (ic_req ic)) in
  match rate_gate ev st id inputTokens with
  | (Some e, st) => (Err e, st)
  | (None, st) =>
      let '(holdCap, ignoreCap) := HoldCap (res_Model (pr_res p)) (res_Routes (pr_res p)) in
      let '(price, ceiling, rates) :=
        holdInputs (pr_pricing p) (res_ModelPricing (pr_res p)) (pr_priceTable p) in
      match Estimate (mkEstimate price ceiling inputTokens (MaxTokensOf (ic_body ic)) holdCap ignoreCap
                        rates) with
      | Err _ => (Err (NewError GatewayInternal "Billing estimation failed"), st)
      | Ok est => (Ok (with_estimate p inputTokens est ∅), st)
      end
  end.

(** A utility operation is admitted and rate-limited, not priced. *)
Definition admit_utility ev st ic id slug (res : Resolution (T := T)) :
    result Error (prepared T) * AdmState :=
  if negb (ev_commit ev) then (Err (NewError GatewayInternal "Model resolution failed"), st)
  else
    let inputTokens := EstimateRequestTokens (in_Text (ic_req ic)) in
    match rate_gate ev st id inputTokens with
    | (Some e, st) => (Err e, st)
    | (None, st) =>
        (Ok (mkPrepared id slug res (mkPricingInputs (mkRates 0 0 0 []) 0 None false "")
               inputTokens 0 empty_table empty_unit_table ∅), st)
    end.

Definition admit_billed ev st ic id slug (res : Resolution (T := T)) :
    result Error (prepared T) * AdmState :=
  match lock_prices ev st id slug res with
  | (Err e, st) => (Err e, st)
  | (Ok p, st) =>
      match CheckBudget (ev_spend ev) (ev_today ev) id with
      | Some e => (Err e, st)
      | None => if unitBilled p then admit_units ev st ic id p else admit_tokens ev st ic id p
      end
  end.

(** [Prepare]: who called and for which model, as far as known, and the request
    admitted or refused. *)
Definition Prepare ev st ic : option Identity * string * result Error Cleared * AdmState :=
  match admit_caller ev st (ic_Credential ic) with
  | (who, Some e, st) => (who, ""%string, Err e, st)
  | (None, None, st) => (None, ""%string, Err incomplete, st)   (** not reached *)
  | (Some id, None, st) =>
      match admit_model ev ic id with
      | (slug, _, Some e) => (Some id, slug, Err e, st)
      | (slug, affinity, None) =>
          let byok := resolveBYOK (ev_byok ev (id_OrgID id)) in
          match resolve_in ev st ic id slug affinity byok with
          | (Err e, st) => (Some id, slug, Err e, st)
          | (Ok res, st) =>
              let '(p, st) := if ic_Utility ic then admit_utility ev st ic id slug res
                              else admit_billed ev st ic id slug res in
              (Some id, slug,
               match p with Ok p => Ok (mkCleared p byok affinity) | Err e => Err e end, st)
          end
      end
  end.

(** ** Properties *)

(** Every gate but the rate limiter let the request through. *)
Record passed ev st ic id (slug : string) (res : Resolution (T := T)) : Prop := {
  pa_key : (Authenticate HashToken (ev_auth ev) (ev_now ev) (ev_later ev) (ad_cache st)
              (ic_Credential ic)).1.1 = Ok id;
  pa_scope : RequireScope id "inference" = None;
  pa_open : KillSwitch (ev_bool ev) = false;
  pa_slug : exists affinity,
    modelForAdmission (ev_affinity ev) id (ic_Protocol ic) (in_Surface (ic_req ic)) (ic_Ref ic)
      (modelForRequest ic) = Ok (slug, affinity);
  pa_tier : CheckTier id = None;
  pa_model : CheckModel id slug = None;
  pa_resolved : exists c kg,
    ResolveFor ValidateTransport (ev_catalog ev) None (ad_known st) slug (in_Surface (ic_req ic))
      (id_ModelTierID id) (vendors (resolveBYOK (ev_byok ev (id_OrgID id)))) = (Ok res, c, kg);
  pa_snapshot : ev_begin ev = true /\ ev_commit ev = true;
  pa_budget : ic_Utility ic = false ->
    CheckBudget (ev_spend ev) (ev_today ev) id = None /\
    exists pricing, LockInputs ev id res = Ok pricing;
}.

Lemma alert_limiter now st slug : ad_limiter (alertUnpriced now st slug) = ad_limiter st.
Proof using. unfold alertUnpriced. destruct (ad_seen st !! slug); [|done]. by destruct (_ <? _). Qed.

Lemma alert_known now st slug : ad_known (alertUnpriced now st slug) = ad_known st.
Proof using. unfold alertUnpriced. destruct (ad_seen st !! slug); [|done]. by destruct (_ <? _). Qed.

Lemma admit_caller_spec ev st credential who e st' :
  admit_caller ev st credential = (who, e, st') ->
  ad_limiter st' = ad_limiter st /\ ad_known st' = ad_known st /\
  (e = None -> exists id, who = Some id /\
    (Authenticate HashToken (ev_auth ev) (ev_now ev) (ev_later ev) (ad_cache st) credential).1.1 = Ok id /\
    RequireScope id "inference" = None /\ KillSwitch (ev_bool ev) = false).
Proof using.
  unfold admit_caller.
  destruct (Authenticate _ _ _ _ _ _) as [[[id|err] c] used]; [|by intros [= <- <- <-]].
  destruct (RequireScope id "inference") eqn:Es; [by intros [= <- <- <-]|].
  destruct (KillSwitch (ev_bool ev)) eqn:Ek; intros [= <- <- <-]; [done|].
  split_and!; [done|done|]. intros _. by exists id.
Qed.

Lemma admit_model_spec ev ic id slug affinity e :
  admit_model ev ic id = (slug, affinity, e) -> e = None ->
  modelForAdmission (ev_affinity ev) id (ic_Protocol ic) (in_Surface (ic_req ic)) (ic_Ref ic)
    (modelForRequest ic) = Ok (slug, affinity) /\
  CheckTier id = None /\ CheckModel id slug = None.
Proof using.
  unfold admit_model. destruct (modelForAdmission _ _ _ _ _ _) as [[m a]|err]; [|by intros [= <- <- <-]].
  destruct (CheckTier id) eqn:Et; [by intros [= <- <- <-]|]. by intros [= <- <- <-].
Qed.

Lemma resolve_in_spec ev st ic id slug affinity byok r st' :
  resolve_in ev st ic id slug affinity byok = (r, st') ->
  ad_limiter st' = ad_limiter st /\
  (forall res, r = Ok res -> ev_begin ev = true /\ exists c kg,
    ResolveFor ValidateTransport (ev_catalog ev) None (ad_known st) slug (in_Surface (ic_req ic))
      (id_ModelTierID id) (vendors byok) = (Ok res, c, kg)).
Proof using.
  unfold resolve_in. destruct (ev_begin ev); cbn [negb]; [|by intros [= <- <-]].
  destruct (ResolveFor _ _ _ _ _ _ _ _) as [[[res|[]] c] kg]; intros [= <- <-];
    rewrite ?alert_limiter; split; try done. intros res' [= <-]. split; [done|]. by exists c, kg.
Qed.

Lemma rate_gate_none ev st id est e st' :
  rate_gate ev st id est = (e, st') ->
  ad_known st' = ad_known st /\ ad_cache st' = ad_cache st.
Proof using. unfold rate_gate. destruct (CheckRate _ _ _ _). by intros [= <- <-]. Qed.

Lemma lock_prices_spec ev st id slug res r st' :
  lock_prices ev st id slug res = (r, st') ->
  ad_limiter st' = ad_limiter st /\
  (forall p, r = Ok p -> ev_commit ev = true /\ pr_id p = id /\ pr_modelSlug p = slug /\ pr_res p = res /\
     LockInputs ev id res = Ok (pr_pricing p) /\
     LockedPriceTable (ev_prices ev) (m_ID (res_Model res)) (res_ModelPricing res) = Ok (pr_priceTable p)).
Proof using.
  unfold lock_prices. destruct (LockInputs ev id res) as [pricing|e]; [|by intros [= <- <-]].
  destruct (LockedPriceTable _ _ _) as [table|e]; [|by intros [= <- <-]]. cbv zeta.
  destruct (unitBilled _).
  - destruct (LockedUnitPriceTable _ _) as [units|e]; [|by intros [= <- <-]].
    destruct (ut_Empty units); [intros [= <- <-]; by rewrite alert_limiter|].
    destruct (ev_commit ev); intros [= <- <-]; (split; [done|]); intros p [= <-]; by split_and!.
  - destruct (ev_commit ev); intros [= <- <-]; (split; [done|]); intros p [= <-]; by split_and!.
Qed.

Lemma admit_spend_fields ev st ic id p r st' :
  (if unitBilled p then admit_units ev st ic id p else admit_tokens ev st ic id p) = (r, st') ->
  forall p', r = Ok p' ->
  pr_id p' = pr_id p /\ pr_modelSlug p' = pr_modelSlug p /\ pr_res p' = pr_res p /\
  pr_pricing p' = pr_pricing p /\ pr_priceTable p' = pr_priceTable p /\
  pr_unitPriceTable p' = pr_unitPriceTable p.
Proof using.
  destruct (unitBilled p).
  - unfold admit_units. destruct (rate_gate ev st id 0) as [[e|] st1]; [by intros [= <- <-]|].
    destruct (bool_decide _); [by intros [= <- <-] ? [= <-]|].
    destruct (_ && _); [by intros [= <- <-]|].
    destruct (syncUnits _ _ _ _) as [units|e]; [|by intros [= <- <-]].
    destruct (billingUnitPrices p) as [list cost].
    destruct (quoteOrRefuse _) as [quote [e|]]; [by intros [= <- <-]|].
    by intros [= <- <-] p' [= <-].
  - unfold admit_tokens. cbv zeta.
    destruct (rate_gate _ _ _ _) as [[e|] st1]; [by intros [= <- <-]|].
    destruct (HoldCap _ _) as [cap ig]. destruct (holdInputs _ _ _) as [[price ceiling] rates].
    destruct (Estimate _); [|by intros [= <- <-]]. by intros [= <- <-] p' [= <-].
Qed.

(** What the rate limiter is asked for: the estimated prompt, or nothing when the
    model is billed by the unit. *)
Definition rate_tokens ic (p : prepared T) : Z :=
  if ic_Utility ic then EstimateRequestTokens (in_Text (ic_req ic))
  else if unitBilled p then 0 else EstimateRequestTokens (in_Text (ic_req ic)).

Lemma rate_gate_asks ev st id est e st' :
  rate_gate ev st id est = (e, st') -> CheckRate (ev_clock ev) (ad_limiter st) id est = (e, ad_limiter st').
Proof using. unfold rate_gate. destruct (CheckRate _ _ _ _) as [e1 l1]. by intros [= <- <-]. Qed.

Lemma admit_spend_rate ev st ic id p r st' :
  (if unitBilled p then admit_units ev st ic id p else admit_tokens ev st ic id p) = (r, st') ->
  exists e, CheckRate (ev_clock ev) (ad_limiter st) id
      (if unitBilled p then 0 else EstimateRequestTokens (in_Text (ic_req ic))) = (e, ad_limiter st') /\
    (is_ok r = true -> e = None).
Proof using.
  destruct (unitBilled p).
  - unfold admit_units. destruct (rate_gate ev st id 0) as [[e|] st1] eqn:E; apply rate_gate_asks in E.
    { intros [= <- <-]. by eexists. }
    intros Hr. exists None. split; [|done]. rewrite E. f_equal. revert Hr.
    destruct (bool_decide _); [by intros [= _ <-]|]. destruct (_ && _); [by intros [= _ <-]|]. cbv zeta.
    destruct (BillingUnit _) as [?|?]; (destruct (syncUnits _ _ _ _) as [units|e1];
      [destruct (billingUnitPrices p) as [list cost]; destruct (quoteOrRefuse _) as [quote [e2|]];
       [destruct (bool_decide _)|]|]); intros [= _ <-]; by rewrite ?alert_limiter.
  - unfold admit_tokens. cbv zeta.
    destruct (rate_gate _ _ _ _) as [[e|] st1] eqn:E; apply rate_gate_asks in E.
    { intros [= <- <-]. by eexists. }
    destruct (HoldCap _ _) as [cap ig]. destruct (holdInputs _ _ _) as [[price ceiling] rates].
    destruct (Estimate _); intros [= <- <-]; by exists None.
Qed.

(** C5: no gate can be walked around, and what stops before the rate limiter does not
    count against it.  A request is admitted only when its key is good and has the
    scope, the gateway is open, the tier and the key admit the model, the model
    resolved, its prices are locked and its budget not spent (neither is asked of a
    utility operation), and the rate limiter, asked last and once for exactly the
    tokens the request is measured at, admitted it.  Any of the earlier refusals
    leaves the limiter exactly as it was.  What comes after it (a stream of images
    that cannot be counted, units that cannot be read, a quote or an estimate that
    fails) refuses a request the limiter has already counted: the limiter then
    stands as that one call left it. *)
Theorem admission_gates ev st ic who slug r st' :
  Prepare ev st ic = (who, slug, r, st') ->
  (forall a, r = Ok a ->
     exists id, who = Some id /\ passed ev st ic id slug (pr_res (am_prep a)) /\
       pr_id (am_prep a) = id /\ pr_modelSlug (am_prep a) = slug /\
       CheckRate (ev_clock ev) (ad_limiter st) id (rate_tokens ic (am_prep a)) = (None, ad_limiter st')) /\
  (ad_limiter st' <> ad_limiter st ->
     exists id res tokens, who = Some id /\ passed ev st ic id slug res /\
       (CheckRate (ev_clock ev) (ad_limiter st) id tokens).2 = ad_limiter st').
Proof using.
  unfold Prepare.
  destruct (admit_caller ev st (ic_Credential ic)) as [[w1 e1] st1] eqn:E1.
  apply admit_caller_spec in E1 as (Hl1 & Hk1 & H1).
  destruct e1 as [e1|]; [by destruct w1; intros [= <- <- <- <-]|].
  destruct (H1 eq_refl) as (id & -> & Hauth & Hscope & Hopen).
  destruct (admit_model ev ic id) as [[slug1 aff] e2] eqn:E2.
  destruct e2 as [e2|]; [by intros [= <- <- <- <-]|].
  destruct (admit_model_spec _ _ _ _ _ _ E2 eq_refl) as (Hslug & Htier & Hmodel).
  destruct (resolve_in ev st1 ic id slug1 aff _) as [[res|e3] st2] eqn:E3;
    apply resolve_in_spec in E3 as [Hl2 H2].
  2: { intros [= <- <- <- <-]. split; [done|]. congruence. }
  destruct (H2 res eq_refl) as (Hbegin & c & kg & Hres). rewrite Hk1 in Hres.
  assert (Hpass : ev_commit ev = true ->
    (ic_Utility ic = false -> CheckBudget (ev_spend ev) (ev_today ev) id = None /\
       exists pricing, LockInputs ev id res = Ok pricing) ->
    passed ev st ic id slug1 res).
  { intros Hcm Hb. split; try done; [by exists aff|by exists c, kg]. }
  destruct (ic_Utility ic) eqn:Eu.
  - unfold admit_utility. destruct (ev_commit ev) eqn:Ecm; cbn [negb].
    2: { intros [= <- <- <- <-]. split; [done|]. congruence. }
    assert (Hp : passed ev st ic id slug1 res) by (by apply Hpass).
    cbv zeta. destruct (rate_gate _ _ _ _) as [[e|] st3] eqn:Eg; apply rate_gate_asks in Eg;
      rewrite Hl2, Hl1 in Eg; intros [= <- <- <- <-];
      (split; [intros a Ha|intros _; exists id, res; eexists; split_and!; [done..|by rewrite Eg]]); [done|].
    injection Ha as <-. exists id. unfold rate_tokens. rewrite Eu. by split_and!.
  - unfold admit_billed.
    destruct (lock_prices ev st2 id slug1 res) as [[p|e4] st3] eqn:E4;
      apply lock_prices_spec in E4 as [Hl3 H3].
    2: { intros [= <- <- <- <-]. split; [done|]. congruence. }
    destruct (H3 p eq_refl) as (Hcm & Hid & Hsl & Hpr & Hlock & _).
    destruct (CheckBudget (ev_spend ev) (ev_today ev) id) eqn:Eb.
    { intros [= <- <- <- <-]. split; [done|]. congruence. }
    assert (Hp : passed ev st ic id slug1 res) by (apply Hpass; [done|]; intros _; split; [done|by eexists]).
    destruct (if unitBilled p then _ else _) as [r5 st5] eqn:E5.
    pose proof (admit_spend_fields _ _ _ _ _ _ _ E5) as Hf.
    apply admit_spend_rate in E5 as (e & Eg & He). rewrite Hl3, Hl2, Hl1 in Eg.
    intros [= <- <- <- <-].
    split; [|intros _; exists id, res; eexists; split_and!; [done..|by rewrite Eg]].
    intros a Ha. destruct r5 as [p'|]; [|done]. injection Ha as <-. cbn [am_prep].
    destruct (Hf p' eq_refl) as (Hi & Hs & Hr & _). exists id.
    rewrite (He eq_refl) in Eg. unfold rate_tokens. rewrite Eu. replace (unitBilled p') with (unitBilled p)
      by (unfold unitBilled; by rewrite Hr).
    split_and!; [done| |congruence|congruence|exact Eg]. by rewrite Hr, Hpr.
Qed.

(** *** The hold and the bill *)

(** The output the hold was computed on. *)
Definition allowed_output (p : prepared T) ic : Z :=
  let '(cap, ignore) := HoldCap (res_Model (pr_res p)) (res_Routes (pr_res p)) in
  estimate_out (mkEstimate zero_price zero_price 0 (MaxTokensOf (ic_body ic)) cap ignore
                  (pi_rates (pr_pricing p))).

Lemma LockedPriceTable_ok q (modelID : uuid) pricing t :
  LockedPriceTable q modelID pricing = Ok t ->
  exists dims tools, ListModelPriceDimensionRates q modelID = Ok dims /\
    t = WithToolPrices (NewPriceTable (Upstream pricing) dims) tools.
Proof using.
  unfold LockedPriceTable. intros (dims & Hd & (tools & _ & [= <-])%rbind_ok)%rbind_ok.
  by exists dims, tools.
Qed.

Lemma tool_prices_rate t tools bucket tier variant n :
  lookup_rate (WithToolPrices t tools) bucket tier variant n = lookup_rate t bucket tier variant n.
Proof using. by destruct tools. Qed.

Lemma tool_prices_ceiling t tools : LongContextCeiling (WithToolPrices t tools) = LongContextCeiling t.
Proof using. by destruct tools. Qed.

(** What an admitted, token-billed request holds. *)
Lemma prepared_tokens ev st ic who slug a st' :
  Prepare ev st ic = (who, slug, Ok a, st') ->
  ic_Utility ic = false -> unitBilled (am_prep a) = false ->
  exists price ceiling rates,
    holdInputs (pr_pricing (am_prep a)) (res_ModelPricing (pr_res (am_prep a))) (pr_priceTable (am_prep a))
      = (price, ceiling, rates) /\
    (let '(cap, ignore) := HoldCap (res_Model (pr_res (am_prep a))) (res_Routes (pr_res (am_prep a))) in
     Estimate (mkEstimate price ceiling (pr_inputTokens (am_prep a)) (MaxTokensOf (ic_body ic)) cap ignore
                 rates) = Ok (pr_estNano (am_prep a))) /\
    LockedPriceTable (ev_prices ev) (m_ID (res_Model (pr_res (am_prep a))))
      (res_ModelPricing (pr_res (am_prep a))) = Ok (pr_priceTable (am_prep a)).
Proof using.
  unfold Prepare. destruct (admit_caller ev st (ic_Credential ic)) as [[[id|] [e1|]] st1]; try done.
  destruct (admit_model ev ic id) as [[slug1 aff] [e2|]]; [done|].
  destruct (resolve_in ev st1 ic id slug1 aff _) as [[res|e3] st2]; [|done].
  destruct (ic_Utility ic); [intros _; done|]. unfold admit_billed.
  destruct (lock_prices ev st2 id slug1 res) as [[p|e4] st3] eqn:E4; [|done].
  apply lock_prices_spec in E4 as [_ H3].
  destruct (H3 p eq_refl) as (_ & _ & _ & Hpr & _ & Htable).
  destruct (CheckBudget _ _ _); [done|].
  destruct (if unitBilled p then _ else _) as [r5 st5] eqn:E5.
  pose proof (admit_spend_fields _ _ _ _ _ _ _ E5) as Hf.
  intros [= <- <- Ha <-] _ Hu. destruct r5 as [p'|]; [|done]. injection Ha as <-.
  cbn [am_prep] in *. destruct (Hf p' eq_refl) as (_ & _ & Hres & Hpricing & Htab & _).
  assert (unitBilled p = false) as Hup by (unfold unitBilled in *; by rewrite <- Hres).
  rewrite Hup in E5. unfold admit_tokens in E5. cbv zeta in E5.
  destruct (rate_gate _ _ _ _) as [[e|] st6]; [done|].
  rewrite Hres, Hpricing, Htab.
  destruct (HoldCap _ _) as [cap ig]. destruct (holdInputs _ _ _) as [[price ceiling] rates].
  destruct (Estimate _) as [est|] eqn:Ee; [|done]. injection E5 as <- _.
  exists price, ceiling, rates. cbn [with_estimate pr_inputTokens pr_estNano].
  split_and!; [done|exact Ee|]. by rewrite Hpr.
Qed.

(** A measured usage within what the hold of [p] was computed on: no more prompt than
    estimated, no more output than allowed and no tool call, each bucket priced at no
    more than the held rate of its side.  Plain text is priced so when the model's
    standard in and out rates are only raised by long-context bands. *)
Definition within_estimate ev (p : prepared T) ic (usage : Usage) : Prop :=
  let pricing := res_ModelPricing (pr_res p) in
  let t := BillingTokens usage in
  let '(price, ceiling, _) := holdInputs (pr_pricing p) pricing (pr_priceTable p) in
  unitBilled p = false /\
  0 <= InNanoPerMTok (Upstream pricing) /\ 0 <= OutNanoPerMTok (Upstream pricing) /\
  within_figures t (pr_inputTokens p) (allowed_output p ic) /\
  (priced_within (ForBilling (pr_priceTable p) (prep_free p)) (dearerOf price ceiling) t \/
   (exists i o, t = text_tokens i o) /\
   (forall dims row,
      ListModelPriceDimensionRates (ev_prices ev) (m_ID (res_Model (pr_res p))) = Ok dims -> row ∈ dims ->
      row_key row = (BucketIn, TierStandard, VariantNone) \/
      row_key row = (BucketOut, TierStandard, VariantNone) -> 0 < dr_min row)).

(** Plain text at the rates of the published table, free or not. *)
Lemma billed_text_rate pricing dims tools bucket n :
  bucket = BucketIn \/ bucket = BucketOut ->
  (forall row, row ∈ dims -> row_key row = (bucket, TierStandard, VariantNone) -> 0 < dr_min row) ->
  let table := WithToolPrices (NewPriceTable (Upstream pricing) dims) tools in
  lookup_rate (ForBilling table (IsFree pricing)) bucket TierStandard VariantNone n
  <= Z.max (bucket_rate (BillablePriceOf pricing) bucket)
       (bucket_rate (LongContextCeiling (ForBilling table (IsFree pricing))) bucket).
Proof using.
  intros Hb Hrows table. unfold BillablePriceOf, ForBilling. destruct (IsFree pricing); cbn [negb].
  - unfold lookup_rate at 1. cbn [billingFree]. destruct Hb as [->| ->]; vm_compute; discriminate.
  - unfold table. rewrite tool_prices_rate, tool_prices_ceiling.
    replace (PriceOf pricing) with (Upstream pricing) by (unfold PriceOf; by destruct (Upstream pricing)).
    by apply text_rate_below_ceiling.
Qed.

(** Whichever candidate serves such a request on a shared credential, and whatever that
    one costs us, it is settled at no more than was held - free models, missing
    prices and refused quotes included. *)
Lemma prepared_hold_covers_bill ev st ic who slug a st' route surface usage estimated :
  Prepare ev st ic = (who, slug, Ok a, st') -> ic_Utility ic = false ->
  within_estimate ev (am_prep a) ic usage ->
  ChargedNano (settlement_quote (am_prep a) route surface usage estimated false).1
  <= pr_estNano (am_prep a).
Proof using.
  intros HP Hutil. unfold within_estimate, holdInputs. intros (Hunit & Hin & Hout & Hfig & Hpriced).
  set (p := am_prep a) in *. set (pricing := res_ModelPricing (pr_res p)) in *.
  destruct (prepared_tokens _ _ _ _ _ _ _ HP Hutil Hunit) as (price & ceiling & rates & Hh & He & Ht).
  fold p pricing in Hh, He, Ht. apply LockedPriceTable_ok in Ht as (dims & tools & Hd & Ht).
  unfold settlement_quote. destruct (holdIsTheBill surface estimated); [cbn; lia|].
  cbn [quoteFor]. destruct (Compute _ _ _ _) as [q|e] eqn:Eq; [|cbn; lia]. cbn [fst].
  unfold holdInputs in Hh. injection Hh as <- <- <-.
  unfold allowed_output in Hfig. fold p in Hfig. destruct (HoldCap _ _) as [cap ig].
  eapply (hold_covers_list _ (BillablePriceOf pricing) _ _ _ _ _ _ (ratesForRoute (pr_pricing p) route));
    [..|exact He|exact Hfig| |exact Eq]; try done.
  - unfold BillablePriceOf. destruct (IsFree pricing); [vm_compute; discriminate|exact Hin].
  - unfold BillablePriceOf. destruct (IsFree pricing); [vm_compute; discriminate|exact Hout].
  - destruct Hpriced as [Hp|[(i & o & Htok) Hrows]]; [exact Hp|].
    rewrite Htok in *. apply Compute_text_counts in Eq as [Hi Ho]. apply text_priced; [|done..].
    intros bucket n Hb. rewrite dearer_rate by done. unfold prep_free. fold pricing. rewrite Ht.
    apply billed_text_rate; [done|]. intros row Hr Hk. apply (Hrows dims row Hd Hr).
    rewrite Hk. by destruct Hb as [->| ->]; [left|right].
Qed.
End admission.

(** ** A concrete deployment *)

Definition demo_prices : PriceQueries :=
  mkPriceQueries
    (fun _ _ => Ok (Some (mkUsagePricing (Some "m1"%string) "demo" (Some "plan-1"%string) 12000 10000 false)))
    (fun _ => Ok []) (fun _ => Ok []) (fun _ => Ok []).

Definition demo_open_queries : Queries (raw := bool) :=
  mkQueries (GetModelBySlug demo_queries) (fun _ _ => Ok (Some true)) (GetModelPricing demo_queries)
    (ListRoutesForModel demo_queries) (GetRouteCostMultiplier demo_queries).

Definition demo_env (closed : bool) : Env (raw := bool) :=
  mkEnv (demo_auth "active") (fun _ => Ok None)
    (fun key => Ok (if bool_decide (key = KeyKillSwitch) then Some closed else None)) (fun _ => Ok None)
    (fun _ _ _ _ => Ok None) (fun _ _ _ _ => Ok None) (fun _ => Ok []) true true demo_open_queries
    demo_prices (fun _ _ => Ok 0) (mkDate 2025 6 1) (mkClock 0 0) 5 6.

Definition demo_adm : AdmState (C := gmap string (memEntry Identity)) (L := Redis) (T := nat) :=
  mkAdm ∅ [] ∅ (mkRedis ∅ true) ∅ [].

Definition demo_probes : Probes := mkProbes (Some "demo"%string) 100 0 0 0 "" "".
Definition demo_incoming : Incoming :=
  mkIncoming (demo_request SurfaceChat) demo_key "openai" "" (mkStateRef "" None) false demo_probes.

#[local] Instance demo_cache : CacheStore Identity (gmap string (memEntry Identity)) :=
  Memory_cache keep_only.

Abbreviation demo_Prepare closed :=
  (Prepare demo_validate demo_hash (fun _ => ""%string) (demo_env closed) demo_adm demo_incoming).

(** An open gateway admits the request and takes a rate token; a closed one refuses
    it and takes none. *)
Lemma admission_gates_witness :
  ad_limiter (demo_Prepare true).2 = ad_limiter demo_adm /\
  exists id slug res,
    passed demo_validate demo_hash (fun _ => ""%string) (demo_env false) demo_adm demo_incoming id slug
      res /\
    id_KeyID id = Some "k1"%string /\
    exists tokens, (CheckRate (mkClock 0 0) (ad_limiter demo_adm) id tokens).1 = None.
Proof.
  split; [vm_compute; reflexivity|].
  assert (W : (id_KeyID <$> (demo_Prepare false).1.1.1) = Some (Some "k1"%string) /\
              is_ok (demo_Prepare false).1.2 = true) by (vm_compute; done).
  destruct (demo_Prepare false) as [[[who slug] r] st'] eqn:E. destruct W as [W1 W2].
  destruct (admission_gates demo_validate demo_hash (fun _ => ""%string) (demo_env false) demo_adm
    demo_incoming who slug r st' E) as [H _].
  destruct r as [a|e]; [|discriminate W2].
  destruct (H a eq_refl) as (id & -> & Hp & _ & _ & Hrate). exists id, slug, (pr_res (am_prep a)).
  split; [exact Hp|]. split; [by injection W1|]. eexists. exact (f_equal fst Hrate).
Defined.
