(* ===== verification/Serve.v ===== *)
(** * A whole request: [Run] and [RunStream] of [internal/gateway/proxy], from the
    credential to the accounting decision

    Admission ([Admission.v]), the pinning of a follow-up ([Credentials.v]), the
    reservation, the execution ([Attempt.v]) and the settlement
    ([Settlement.v]), composed as the two entry points compose them, and what the
    composition guarantees end to end. *)
From S2P Require Import Prelude GoStr BreakerStore Breaker RateLimit Rational Money PriceTable Pricing.
From S2P Require Import UnitPricing Surfaces Usage Stream Catalog Errors Classify Guard Billing Routing.
From S2P Require Import Rotation Ledger Settlement KeyFormat Cache Auth Credentials Attempt Settings Admission.

Open Scope Z_scope.

Section serve.
Context {S C L raw T B : Type} `{StoreLaws S} `{CacheStore Identity C} `{Limiter L} `{Settler B}.

Variable NumericScan : bytes -> option bytes.
Variable ValidateTransport : raw -> result string T.
Variable HashToken : bytes -> string.
Variable sha256hex : bytes -> string.
Variable keys_of : uuid -> result string (list ProviderKey).
Variable key_by_id : uuid -> result string (option ProviderKey).
Variable org_key_by_id : uuid -> uuid -> result string (option OrgProviderKey).
Variable RewriteRequest : Route T -> bool -> option string.
Variable BuildRequest : Route T -> Credential -> option string.
Variable Do : Pipeline S L (Ext T) -> Route T -> Credential -> exchange * Pipeline S L (Ext T).
Variable DoStream :
  Pipeline S L (Ext T) -> Route T -> Credential -> stream_exchange * Pipeline S L (Ext T).
Variable mark_ok : bool.
Variable perProviderConcurrency : Z.
Variable has_probe : bool.

Implicit Types (ev : Env (raw := raw)) (st : AdmState (C := C) (L := L) (T := T)).
Implicit Types (p : Pipeline S L (Ext T)) (w : World B) (ic : Incoming).

Definition with_req ic (r : Request) : Incoming :=
  mkIncoming r (ic_Credential ic) (ic_Protocol ic) (ic_Model ic) (ic_Ref ic) (ic_Utility ic) (ic_body ic).

(** The pipeline and the guard share one limiter. *)
Definition lend_limiter p st : AdmState :=
  match p_limiter p with Some l => with_limits st l | None => st end.
Definition return_limiter st p : Pipeline S L (Ext T) :=
  match p_limiter p with Some _ => with_limiter p (Some (ad_limiter st)) | None => p end.

Definition with_routes (prep : prepared T) (routes : list (Route T)) : prepared T :=
  mkPrepared (pr_id prep) (pr_modelSlug prep)
    (mkResolution (res_Model (pr_res prep)) (res_ModelPricing (pr_res prep)) routes)
    (pr_pricing prep) (pr_inputTokens prep) (pr_estNano prep) (pr_priceTable prep)
    (pr_unitPriceTable prep) (pr_units prep).

(** [pinAffinity] on an admitted request. *)
Definition pin ev p ic (a : Cleared (T := T)) : result Error (prepared T * byokChoices * Pins) :=
  let prep := am_prep a in
  try (routes, pins) <-
    pinAffinity (ev_affinity ev) (ProviderAvailable (now p) (p_breaker p)) (pr_id prep)
      (m_ID (res_Model (pr_res prep))) (res_Routes (pr_res prep)) (ic_Protocol ic)
      (in_Surface (ic_req ic)) (ic_Ref ic) (am_affinity a);
  Ok (with_routes prep routes, am_byok a, pins).

Definition no_outcome : StreamOutcome := mkStreamOutcome no_usage "" false false false false [].
Definition fresh_ext (byok : byokChoices) : Ext T := mkExt byok [] [] None no_outcome (None, None).

(** The first half, as both entry points run it. *)
Definition take_in ev st p ic :
    Identity * string * result Error (prepared T * byokChoices * Pins) * AdmState * Pipeline S L (Ext T) :=
  let '(who, slug, a, st) :=
    Prepare ValidateTransport HashToken sha256hex ev (lend_limiter p st) ic in
  let p := return_limiter st p in
  (default zero_identity who, slug, try a <- a; pin ev p ic a, st, p).

Definition call_of p ic (prep : prepared T) (pins : Pins) : Call :=
  mkCall (in_Surface (ic_req ic)) (id_OrgID (pr_id prep)) pins (now p).

Definition prep_of (a : result Error (prepared T * byokChoices * Pins)) : result Error (prepared T) :=
  match a with Ok (prep, _, _) => Ok prep | Err e => Err e end.

(** Whether the reservation is placed. *)
Definition reserves w ic (requestID : string) (prep : prepared T) : bool :=
  is_ok (ReserveFor w (pr_id prep) requestID (pr_estNano prep) (holdTTLFor (in_Surface (ic_req ic)))).1.

(** The execution of a reserved request. *)
Definition execute_buffered ic (prep : prepared T) byok pins p :=
  Execute keys_of key_by_id org_key_by_id RewriteRequest BuildRequest Do mark_ok
    (call_of p ic prep pins) perProviderConcurrency has_probe (res_Routes (pr_res prep))
    (pr_inputTokens prep) (with_ext p (fresh_ext byok)).

Definition execute_stream ic (prep : prepared T) byok pins p :=
  ExecuteStream keys_of key_by_id org_key_by_id RewriteRequest BuildRequest DoStream mark_ok
    (call_of p ic prep pins) perProviderConcurrency has_probe (res_Routes (pr_res prep))
    (pr_inputTokens prep) (with_ext p (fresh_ext byok)).

Definition no_answer : upstreamResult :=
  mkUpstream 0 (mkResponse empty_body (mkTextBody None None None None) None) None 0 false None.

(** [Run]: the reply, the books, admission's state and the pipeline; a request that
    is refused or not reserved never reaches an upstream. *)
Definition ServeBuffered f ev w st p ic (requestID : string) (durationMs : Z) :
    result Error Reply * World B * AdmState * Pipeline S L (Ext T) :=
  let ic := with_req ic (with_stream (ic_req ic) false) in
  let '(id, slug, a, st, p) := take_in ev st p ic in
  let '(up, rot, p) :=
    match a with
    | Ok (prep, byok, pins) =>
        if reserves w ic requestID prep then execute_buffered ic prep byok pins p
        else (no_answer, zero_res, p)
    | Err _ => (no_answer, zero_res, p)
    end in
  let '(reply, w) := Run NumericScan f w (ic_req ic) requestID id slug (prep_of a) up rot durationMs in
  (reply, w, st, p).

(** [RunStream]. *)
Definition ServeStream f ev w st p ic (requestID : string) (durationMs ttfbMs : Z) :
    option Error * World B * AdmState * Pipeline S L (Ext T) :=
  let ic := with_req ic (with_stream (ic_req ic) true) in
  let '(id, slug, a, st, p) := take_in ev st p ic in
  let '(rot, p) :=
    match a with
    | Ok (prep, byok, pins) =>
        if reserves w ic requestID prep then execute_stream ic prep byok pins p
        else (zero_res, with_ext p (fresh_ext ∅))
    | Err _ => (zero_res, with_ext p (fresh_ext ∅))
    end in
  let '(byokKeyID, keyID) := x_streamKeys (p_ext p) in
  let '(err, w) := RunStream NumericScan f w (ic_req ic) requestID id slug (prep_of a)
                     (x_outcome (p_ext p)) rot byokKeyID keyID durationMs ttfbMs in
  (err, w, st, p).

(** ** Properties *)

(** The request as the buffered entry point normalises it. *)
Definition buffered ic : Incoming := with_req ic (with_stream (ic_req ic) false).

Abbreviation Prepare_ := (Prepare ValidateTransport HashToken sha256hex).

Lemma pin_ok ev p ic a prep byok pins :
  pin ev p ic a = Ok (prep, byok, pins) ->
  byok = am_byok a /\ exists routes, prep = with_routes (am_prep a) routes /\
  forall r, r ∈ routes -> r ∈ res_Routes (pr_res (am_prep a)).
Proof using.
  unfold pin. intros ([routes pins'] & Hp & [= <- <- <-])%rbind_ok. split; [done|].
  exists routes. split; [done|]. revert Hp. unfold pinAffinity.
  destruct (affinityReference _ _) as [ty id]. destruct (bool_decide _); [by intros [= <- _]|].
  intros (aff & _ & Hp)%rbind_ok. destruct (_ || _ || _); [done|].
  destruct (List.find _ _) as [route|] eqn:Ef; [|done].
  destruct (negb _); [done|]. destruct (_ && _); [done|]. injection Hp as <- _.
  intros r ->%list_elem_of_singleton. apply find_some in Ef as [Hin _]. by apply list_elem_of_In.
Qed.

Lemma resolveBYOK_identified rows :
  (forall rs, rows = Ok rs -> Forall (fun r => is_Some (ok_ID r)) rs) -> identified (resolveBYOK rows).
Proof using.
  intros Hr. unfold resolveBYOK. destruct rows as [rs|e].
  2: { intros v choice. unfold forVendor. by rewrite lookup_empty. }
  specialize (Hr rs eq_refl).
  assert (G : forall m : byokChoices, (forall v c, m !! v = Some c -> is_Some (bc_KeyID c)) ->
    forall v c, fold_left add_choice rs m !! v = Some c -> is_Some (bc_KeyID c)).
  { induction Hr as [|r rs Hid _ IH]; intros m Hm; cbn [fold_left]; [done|]. apply IH.
    intros v c. unfold add_choice. destruct (m !! ok_Vendor r); [by apply Hm|].
    destruct (ok_Open r); [|by apply Hm].
    destruct (decide (v = ok_Vendor r)) as [->|Hne].
    - rewrite lookup_insert_eq. by intros [= <-].
    - rewrite lookup_insert_ne by done. by apply Hm. }
  intros v c. unfold forVendor. destruct (fold_left add_choice rs ∅ !! v) as [c'|] eqn:E; [|done].
  destruct (active c'); [|done]. intros [= <-]. eapply G; [|exact E].
  intros ? ?. by rewrite lookup_empty.
Qed.

Lemma Prepare_byok ev st ic who slug a st' :
  Prepare_ ev st ic = (who, slug, Ok a, st') -> exists id, am_byok a = resolveBYOK (ev_byok ev id).
Proof using.
  unfold Prepare. destruct (admit_caller _ ev st _) as [[[id|] [e1|]] st1]; try done.
  destruct (admit_model ev ic id) as [[slug1 aff] [e2|]]; [done|].
  destruct (resolve_in _ ev st1 ic id slug1 aff _) as [[res|e3] st2]; [|done].
  destruct (if ic_Utility ic then _ else _) as [[p|] st3]; [|done].
  intros [= _ _ <- _]. by exists (id_OrgID id).
Qed.

(** The cost shown is the settled amount. *)
Lemma CompleteBuffered_cost f w prep req requestID up (route : Route T) rot holdID ms reply w' :
  unitBilled prep = false ->
  CompleteBuffered NumericScan f w prep req requestID up route rot holdID ms = (Ok reply, w') ->
  let '(usage, estimated) := billed_usage prep (in_Surface req) (ur_body up) in
  rep_Cost reply
  = ChargedNano (settlement_quote prep route (in_Surface req) usage estimated (ur_byok up)).1.
Proof using.
  intros Hu. unfold CompleteBuffered. rewrite Hu.
  destruct (billed_usage _ _ _) as [usage estimated].
  destruct (settlement_quote _ _ _ _ _ _) as [quote e]. by intros [= <- _].
Qed.

(** C2: from the credential to the charge.  When a buffered request is answered, it
    was admitted and the amount its admission computed was reserved first; the
    route and credential the result names, on which the charge is computed, are the
    last ones a request went out to, the route one of those resolved for it; and when
    that credential was ours and the usage within what the reservation was computed
    on (no tool, no more prompt than estimated nor output than allowed, each bucket
    priced at no more than the held rates, as plain text is unless an override of
    its standard rates starts at zero tokens), the cost shown and settled is at
    most the amount reserved. *)
Theorem served_within_hold f ev w st p ic requestID ms reply w' st' p' :
  (forall org rows, ev_byok ev org = Ok rows -> Forall (fun r => is_Some (ok_ID r)) rows) ->
  ic_Utility ic = false ->
  ServeBuffered f ev w st p ic requestID ms = (Ok reply, w', st', p') ->
  exists who slug a prep byok pins holdID w1 up rot log route cred,
    Prepare_ ev (lend_limiter p st) (buffered ic) = (who, slug, Ok a, st') /\
    pin ev (return_limiter st' p) (buffered ic) a = Ok (prep, byok, pins) /\
    ReserveFor w (pr_id prep) requestID (pr_estNano prep) (holdTTLFor (in_Surface (ic_req ic)))
      = (Ok holdID, w1) /\
    execute_buffered (buffered ic) prep byok pins (return_limiter st' p) = (up, rot, p') /\
    x_sent (p_ext p') = log ++ [(route, cred)] /\ route ∈ res_Routes (pr_res (am_prep a)) /\
    rr_route rot = Some route /\ names_hop up cred /\
    CompleteBuffered NumericScan f w1 prep (ic_req (buffered ic)) requestID (Execute_result up rot) route rot
      holdID ms = (Ok reply, w') /\
    (usesBYOK cred = false ->
     within_estimate ev (am_prep a) (buffered ic)
       (billed_usage (am_prep a) (in_Surface (ic_req ic)) (ur_body up)).1 ->
     rep_Cost reply <= pr_estNano (am_prep a)).
Proof using.
  intros Hids Hutil. unfold ServeBuffered, take_in. fold (buffered ic).
  destruct (Prepare_ ev (lend_limiter p st) (buffered ic)) as [[[who slug] a0] st1] eqn:EP.
  destruct a0 as [a|e]; cbn [rbind prep_of].
  2: { unfold Run. by intros [= <- _ _ _]. }
  destruct (pin ev _ (buffered ic) a) as [[[prep byok] pins]|e] eqn:Epin; cbn [prep_of].
  2: { unfold Run. by intros [= <- _ _ _]. }
  pose proof Epin as Epin'. apply pin_ok in Epin' as (-> & routes & -> & Hroutes).
  destruct (Prepare_byok _ _ _ _ _ _ _ EP) as [org Hbyok].
  unfold reserves, Run. cbn [with_stream in_Surface buffered with_req ic_req].
  destruct (ReserveFor w _ requestID _ _) as [[holdID|e] w1] eqn:Eh; cbn [fst is_ok].
  2: { by intros [= <- _ _ _]. }
  destruct (execute_buffered _ _ _ _ _) as [[up rot] p2] eqn:Ee. pose proof Ee as Ex.
  unfold execute_buffered in Ee.
  pose proof (buffered_last_sent keys_of key_by_id org_key_by_id RewriteRequest BuildRequest Do mark_ok
    (call_of (return_limiter st1 p) (buffered ic) (with_routes (am_prep a) routes) pins)
    perProviderConcurrency has_probe routes (pr_inputTokens (am_prep a))
    (with_ext (return_limiter st1 p) (fresh_ext (am_byok a)))) as Hlast.
  cbn [with_routes pr_res res_Routes pr_inputTokens] in *. rewrite Ee in Hlast.
  destruct (rr_err rot) as [err|] eqn:Eerr; [by intros [= <- _ _ _]|].
  destruct Hlast as (log & route & cred & Hlog & Hin & Hroute & Hn); [done| |done|].
  { cbn [p_ext with_ext fresh_ext x_byok]. rewrite Hbyok. apply resolveBYOK_identified.
    intros rs Hrs. by eapply Hids. }
  rewrite Hroute.
  destruct (CompleteBuffered _ _ _ _ _ _ _ _ _ _ _) as [reply' w2] eqn:Ec.
  intros [= -> <- <- <-].
  exists who, slug, a, (with_routes (am_prep a) routes), (am_byok a), pins, holdID, w1, up, rot, log, route, cred.
  split_and!; [done|exact Epin|exact Eh|exact Ex|done|by apply Hroutes|exact Hroute|done|exact Ec|].
  intros Hshared Hw. assert (Hu : unitBilled (with_routes (am_prep a) routes) = false)
    by (unfold within_estimate, holdInputs in Hw; apply Hw).
  apply CompleteBuffered_cost in Ec; [|done].
  unfold Execute_result in Ec. rewrite Eerr in Ec. cbn [ur_body ur_byok] in Ec.
  destruct Hn as (_ & Hb & _). rewrite Hb, Hshared in Ec.
  change (billed_usage (with_routes (am_prep a) routes)) with (billed_usage (am_prep a)) in Ec.
  cbn [with_stream in_Surface buffered with_req ic_req] in Ec.
  destruct (billed_usage (am_prep a) (in_Surface (ic_req ic)) (ur_body up)) as [usage estimated].
  rewrite Ec. cbn [fst] in Hw.
  exact (prepared_hold_covers_bill ValidateTransport HashToken sha256hex ev (lend_limiter p st) (buffered ic)
    who slug a st1 route (in_Surface (ic_req ic)) usage estimated EP Hutil Hw).
Qed.

(** *** Refusals *)

Context `{!SettlerLaws B}.

(** Nothing the upstream side of the gateway keeps has moved. *)
Definition untouched p p' : Prop :=
  p_breaker p' = p_breaker p /\ p_budget p' = p_budget p /\ p_heap p' = p_heap p /\
  p_semaphores p' = p_semaphores p /\ p_keyCursors p' = p_keyCursors p /\ p_probes p' = p_probes p.

(** No money has moved: the books differ by free usage rows at most. *)
Definition moneyless w w' : Prop :=
  (forall k, spent (w_billing w') k = spent (w_billing w) k) /\
  w_unsettled w' = w_unsettled w /\ w_pricing w' = w_pricing w /\
  exists rows, w_usage w' = w_usage w ++ rows /\ Forall (fun r => ul_ChargedNano r = 0) rows.

(** Admission refused, or the reservation did. *)
Definition refused w ic (requestID : string) (a : result Error (prepared T * byokChoices * Pins)) : Prop :=
  match a with Ok (prep, _, _) => reserves w ic requestID prep = false | Err _ => True end.

Lemma moneyless_refl w : moneyless w w.
Proof using. split_and!; try done. exists []. by rewrite app_nil_r. Qed.

Lemma moneyless_rejection f w id slug req requestID e ms :
  moneyless w (RecordRejection (T := T) f w id slug req requestID e ms).
Proof using.
  unfold RecordRejection, logFailure. destruct (id_OrgID id); [|apply moneyless_refl].
  destruct (f_insert f); [apply moneyless_refl|]. split_and!; try done.
  eexists. split; [done|]. by constructor.
Qed.

Lemma moneyless_hold w id requestID amount ttl : moneyless w (ReserveFor w id requestID amount ttl).2.
Proof using SettlerLaws0.
  unfold ReserveFor.
  pose proof (hold_spent (w_billing w) (mkHold (id_OrgID id) requestID amount ttl)) as Hs.
  destruct (Hold _ _) as [[h|e] b]; cbn [snd] in *; (split_and!; [exact Hs|done|done|]);
    (exists []; by rewrite app_nil_r).
Qed.

Lemma return_limiter_untouched st p : untouched p (return_limiter st p).
Proof using. unfold return_limiter. by destruct (p_limiter p). Qed.

(** C4: A refusal is free and silent.  A request that admission refuses, that
    cannot be pinned, or whose reservation is refused, reaches no upstream, moves
    no circuit, retry budget, slot, cursor or probe, and costs nobody anything: it
    leaves at most a usage row that charges nothing. *)
Theorem refusal_is_silent f ev w st p ic requestID ms ttfb :
  (refused w (buffered ic) requestID (take_in ev st p (buffered ic)).1.1.2 ->
   let '(reply, w', st', p') := ServeBuffered f ev w st p ic requestID ms in
   is_ok reply = false /\ moneyless w w' /\ untouched p p' /\ p_ext p' = p_ext p) /\
  (let ics := with_req ic (with_stream (ic_req ic) true) in
   refused w ics requestID (take_in ev st p ics).1.1.2 ->
   let '(err, w', st', p') := ServeStream f ev w st p ic requestID ms ttfb in
   is_Some err /\ moneyless w w' /\ untouched p p' /\ x_sent (p_ext p') = []).
Proof using SettlerLaws0.
  split.
  - unfold ServeBuffered. fold (buffered ic).
    assert (Hp : untouched p (take_in ev st p (buffered ic)).2 /\ p_ext (take_in ev st p (buffered ic)).2 = p_ext p).
    { unfold take_in. destruct (Prepare _ _ _ _ _ _) as [[[? ?] ?] ?]. cbn [snd].
      split; [apply return_limiter_untouched|]. unfold return_limiter. by destruct (p_limiter p). }
    destruct (take_in ev st p (buffered ic)) as [[[[id slug] a] st1] p1]. cbn [fst snd] in *.
    intros Hr. destruct a as [[[prep byok] pins]|e]; cbn [prep_of]; unfold Run.
    + unfold refused, reserves in *.
      pose proof (moneyless_hold w (pr_id prep) requestID (pr_estNano prep)
        (holdTTLFor (in_Surface (ic_req (buffered ic))))) as Hm.
      cbn [with_stream in_Surface buffered with_req ic_req] in *.
      destruct (ReserveFor _ _ _ _ _) as [[h|e] w1]; cbn [fst snd is_ok] in *; [done|].
      destruct Hp. by split_and!.
    + destruct Hp. split_and!; try done. apply moneyless_rejection.
  - unfold ServeStream. cbv zeta. set (ics := with_req ic _).
    assert (Hp : untouched p (take_in ev st p ics).2).
    { unfold take_in. destruct (Prepare _ _ _ _ _ _) as [[[? ?] ?] ?]. apply return_limiter_untouched. }
    destruct (take_in ev st p ics) as [[[[id slug] a] st1] p1]. cbn [fst snd] in *.
    intros Hr. destruct a as [[[prep byok] pins]|e]; cbn [prep_of].
    + unfold refused in Hr. rewrite Hr. cbn [p_ext with_ext fresh_ext x_streamKeys x_outcome]. unfold RunStream.
      unfold reserves in Hr.
      pose proof (moneyless_hold w (pr_id prep) requestID (pr_estNano prep)
        (holdTTLFor (in_Surface (ic_req ics)))) as Hm.
      cbn [with_stream in_Surface ics with_req ic_req] in *.
      destruct (ReserveFor _ _ _ _ _) as [[h|e] w1]; cbn [fst snd is_ok] in *; [done|].
      by split_and!.
    + cbn [p_ext with_ext fresh_ext x_streamKeys x_outcome]. unfold RunStream.
      split_and!; try done. apply moneyless_rejection.
Qed.
End serve.

(** ** A concrete deployment *)

#[local] Instance demo_cache : CacheStore Identity (gmap string (memEntry Identity)) :=
  Memory_cache keep_only.

Definition demo_pipeline_ : Pipeline Memory Redis (Ext nat) := with_ext demo_state (fresh_ext ∅).

Definition demo_answer (p : Pipeline Memory Redis (Ext nat)) (r : Route nat) (c : Credential) :
    exchange * Pipeline Memory Redis (Ext nat) :=
  (Answered 200 [] [] (demo_response (Some (mkOpenAIUsage 2 None 1 None)) None), p).

Abbreviation demo_Serve closed := (ServeBuffered demo_scan demo_validate demo_hash (fun _ => ""%string)
  demo_keys (fun _ => Ok None) (fun _ _ => Ok None) (fun _ _ => None) (fun _ _ => None) demo_answer true
  64 true no_faults (demo_env closed) (demo_world demo_fake) demo_adm demo_pipeline_
  demo_incoming "req-1" 12).
Abbreviation demo_ServeStream closed := (ServeStream demo_scan demo_validate demo_hash (fun _ => ""%string)
  demo_keys (fun _ => Ok None) (fun _ _ => Ok None) (fun _ _ => None) (fun _ _ => None) demo_DoStream true
  64 true no_faults (demo_env closed) (demo_world demo_fake) demo_adm demo_pipeline_
  demo_incoming "req-1" 12 3).

Example demo_served :
  let '(reply, w, st, p) := demo_Serve false in
  is_ok reply = true /\ map (fun s => cr_Secret s.2) (x_sent (p_ext p)) = ["our-secret"%string] /\
  map ul_ChargedNano (w_usage w) = [1] /\
  let '(err, w, st, p) := demo_ServeStream false in
  err = None /\ length (x_sent (p_ext p)) = 1%nat.
Proof. vm_compute. done. Qed.

Abbreviation demo_open := (Prepare demo_validate demo_hash (fun _ => ""%string) (demo_env false)
  (lend_limiter demo_pipeline_ demo_adm) (buffered demo_incoming)).

(** The answer of the demonstration stays within what was reserved for it. *)
Definition demo_within (a : Cleared (T := nat)) (up : upstreamResult) (cred : Credential) : bool :=
  let p := am_prep a in
  let pricing := res_ModelPricing (pr_res p) in
  let usage := (billed_usage p SurfaceChat (ur_body up)).1 in
  negb (unitBilled p) && (0 <=? InNanoPerMTok (Upstream pricing)) && (0 <=? OutNanoPerMTok (Upstream pricing))
  && bool_decide (BillingTokens usage = text_tokens 2 1) && (2 <=? pr_inputTokens p)
  && (1 <=? allowed_output p (buffered demo_incoming)) && negb (usesBYOK cred).

Lemma demo_within_estimate a up cred :
  demo_within a up cred = true ->
  usesBYOK cred = false /\
  within_estimate (demo_env false) (am_prep a) (buffered demo_incoming)
    (billed_usage (am_prep a) SurfaceChat (ur_body up)).1.
Proof.
  unfold demo_within. rewrite !andb_true_iff, !negb_true_iff, !Z.leb_le, bool_decide_eq_true.
  intros ((((((Hu & Hi) & Ho) & Ht) & H2) & H1) & Hb). split; [done|].
  unfold within_estimate, holdInputs. rewrite Ht.
  split; [done|]. split; [done|]. split; [done|]. split.
  - by apply text_within_figures.
  - right. split; [by exists 2, 1|]. intros dims row [= <-] []%elem_of_nil.
Qed.

Lemma served_within_hold_witness :
  exists reply w st p who slug a prep byok pins up rot,
    demo_Serve false = (Ok reply, w, st, p) /\ demo_open = (who, slug, Ok a, st) /\
    execute_buffered demo_keys (fun _ => Ok None) (fun _ _ => Ok None) (fun _ _ => None)
      (fun _ _ => None) demo_answer true 64 true (buffered demo_incoming) prep byok pins
      (return_limiter st demo_pipeline_) = (up, rot, p) /\
    rep_Cost reply <= pr_estNano (am_prep a).
Proof.
  assert (W : match demo_Serve false with
              | (reply, _, _, _) => is_ok reply = true end /\
              match demo_open with
              | (_, _, Ok a, st) =>
                  match pin (demo_env false) (return_limiter st demo_pipeline_) (buffered demo_incoming) a with
                  | Ok (prep, byok, pins) =>
                      let '(up, rot, p) :=
                        execute_buffered demo_keys (fun _ => Ok None) (fun _ _ => Ok None) (fun _ _ => None)
                          (fun _ _ => None) demo_answer true 64 true (buffered demo_incoming) prep byok pins
                          (return_limiter st demo_pipeline_) in
                      match hd_error (rev (x_sent (p_ext p))) with
                      | Some hop => demo_within a up hop.2 = true
                      | None => False
                      end
                  | Err _ => False
                  end
              | _ => False
              end) by (vm_compute; done).
  destruct (demo_Serve false) as [[[[reply|] w] st] p] eqn:E; destruct W as [W1 W2]; [|discriminate W1].
  destruct (served_within_hold demo_scan demo_validate demo_hash (fun _ => ""%string) demo_keys
    (fun _ => Ok None) (fun _ _ => Ok None) (fun _ _ => None) (fun _ _ => None) demo_answer true 64 true
    no_faults (demo_env false) (demo_world demo_fake) demo_adm demo_pipeline_ demo_incoming "req-1" 12
    reply w st p) as (who & slug & a & prep & byok & pins & h & w1 & up & rot & log & route & cred &
      EP & Epin & _ & Ex & Hlog & _ & _ & _ & _ & Hle); [|reflexivity|exact E|].
  { intros org rows [= <-]. constructor. }
  exists reply, w, st, p, who, slug, a, prep, byok, pins, up, rot. split_and!; [done|exact EP|exact Ex|].
  rewrite EP, Epin, Ex, Hlog, rev_app_distr in W2. cbn [rev app hd_error] in W2. apply demo_within_estimate in W2 as [Hb Hw].
  exact (Hle Hb Hw).
Defined.

(** The kill switch refuses both forms of the request. *)
Lemma refusal_is_silent_witness :
  x_sent (p_ext (demo_ServeStream true).2) = [] /\
  let '(reply, w, st, p) := demo_Serve true in
  moneyless (demo_world demo_fake) w /\ untouched demo_pipeline_ p.
Proof.
  destruct (refusal_is_silent demo_scan demo_validate demo_hash (fun _ => ""%string) demo_keys
    (fun _ => Ok None) (fun _ _ => Ok None) (fun _ _ => None) (fun _ _ => None) demo_answer demo_DoStream
    true 64 true no_faults (demo_env true) (demo_world demo_fake) demo_adm demo_pipeline_ demo_incoming
    "req-1" 12 3) as [H1 H2].
  split.
  - specialize (H2 ltac:(vm_compute; exact I)). revert H2.
    destruct (demo_ServeStream true) as [[[err w] st] p]. clear. intros (_ & _ & _ & H2). exact H2.
  - specialize (H1 ltac:(vm_compute; exact I)). revert H1.
    destruct (demo_Serve true) as [[[reply w] st] p]. clear. intros (_ & Hm & Hu & _). split; [exact Hm|exact Hu].
Defined.
