(* ===== verification/Envelope.v ===== *)
(** * The video plane's vocabulary: [internal/gateway/video] ([envelope.go],
    [params.go], [price.go]) and the candidate filters of
    [internal/gateway/proxy/videos.go]

    What one deployment of a video model accepts, what a request asks for, the
    union admission validates against, the filter that narrows the candidates
    afterwards, and the billable quantity of an admitted request.  A stored
    envelope is what its JSON decodes to. *)
From S2P Require Import Prelude GoStr UnitPricing Surfaces Catalog.

Open Scope Z_scope.

(** ** Requests *)

Record ReferenceImage := mkRef { ri_URL : string; ri_Type : string }.

(** Passthrough parameters and the seed have no effect on admission or price. *)
Record VideoRequest := mkVideoRequest {
  vr_Model : string;
  vr_Prompt : string;
  vr_NegativePrompt : string;
  vr_DurationSeconds : Z;
  vr_Resolution : string;
  vr_AspectRatio : string;
  vr_Audio : option bool;
  vr_Image : string;
  vr_LastFrame : string;
  vr_ReferenceImages : list ReferenceImage;
  vr_N : Z;
}.

Definition ReferenceAsset : string := "asset".
Definition ReferenceStyle : string := "style".

Definition trimmed (s : string) : string := string_of_list_ascii (trim_space (lit s)).

Inductive decode_error :=
  | ErrUnknownParameter (field : string)
  | InvalidBody
  | TrailingContent.

(** [Decode], from what the decoder makes of the body: the request, or why it is not
    one, and whether another document follows. *)
Definition Decode (document : result decode_error VideoRequest) (more : bool) :
    result decode_error VideoRequest :=
  try r <- document;
  if more then Err TrailingContent
  else Ok (mkVideoRequest (trimmed (vr_Model r)) (vr_Prompt r) (vr_NegativePrompt r)
             (vr_DurationSeconds r) (trimmed (vr_Resolution r)) (trimmed (vr_AspectRatio r))
             (vr_Audio r) (vr_Image r) (vr_LastFrame r) (vr_ReferenceImages r)
             (if vr_N r =? 0 then 1 else vr_N r)).

(** ** Envelopes *)

Definition CancelNever : string := "never".
Definition CancelQueuedOnly : string := "queued_only".
Definition CancelAnytime : string := "anytime".
Definition AudioNever : string := "never".
Definition AudioOptional : string := "optional".
Definition AudioAlways : string := "always".

Record Envelope := mkEnvelope {
  en_DurationsSeconds : list Z;
  en_Resolutions : list string;
  en_AspectRatios : list string;
  en_Audio : string;
  en_MaxN : Z;
  en_SupportsImageToVideo : bool;
  en_SupportsLastFrame : bool;
  en_MaxReferenceImages : Z;
  en_SupportsNegativePrompt : bool;
  en_MaxPromptChars : Z;
  en_Cancel : string;
  en_MaxJobSeconds : Z;
}.
Definition no_envelope : Envelope := mkEnvelope [] [] [] "" 0 false false 0 false 0 "" 0.

Definition nonempty {A} (l : list A) : bool := match l with [] => false | _ => true end.

Definition Configured (e : Envelope) : bool :=
  nonempty (en_DurationsSeconds e) || nonempty (en_Resolutions e) || nonempty (en_AspectRatios e).

Definition CancelModeOrDefault (e : Envelope) : string :=
  if bool_decide (en_Cancel e = CancelQueuedOnly) || bool_decide (en_Cancel e = CancelAnytime)
  then en_Cancel e else CancelNever.

Section merge.
Context {A : Type} `{EqDecision A}.
Variable compare : A -> A -> comparison.

(** [mergeInts], [mergeStrings]. *)
Definition mergeSorted (dst src : list A) : list A :=
  SortFunc compare
    (fold_left (fun dst v => if bool_decide (v ∈ dst) then dst else dst ++ [v]) src dst).
End merge.

Definition widerAudio (a b : string) : string :=
  if bool_decide (a = ""%string) then b
  else if bool_decide (b = ""%string) || bool_decide (a = b) then a
  else AudioOptional.

Definition cancel_rank (m : string) : Z :=
  if bool_decide (m = CancelAnytime) then 2 else if bool_decide (m = CancelQueuedOnly) then 1 else 0.

Definition widerCancel (a b : string) : string :=
  if cancel_rank a <? cancel_rank b then b
  else if bool_decide (a = ""%string) then CancelNever else a.

Definition wider (u e : Envelope) : Envelope :=
  if negb (Configured e) then u
  else mkEnvelope (mergeSorted Z.compare (en_DurationsSeconds u) (en_DurationsSeconds e))
         (mergeSorted String.compare (en_Resolutions u) (en_Resolutions e))
         (mergeSorted String.compare (en_AspectRatios u) (en_AspectRatios e))
         (widerAudio (en_Audio u) (en_Audio e)) (Z.max (en_MaxN u) (en_MaxN e))
         (en_SupportsImageToVideo u || en_SupportsImageToVideo e)
         (en_SupportsLastFrame u || en_SupportsLastFrame e)
         (Z.max (en_MaxReferenceImages u) (en_MaxReferenceImages e))
         (en_SupportsNegativePrompt u || en_SupportsNegativePrompt e)
         (Z.max (en_MaxPromptChars u) (en_MaxPromptChars e))
         (widerCancel (en_Cancel u) (CancelModeOrDefault e))
         (Z.max (en_MaxJobSeconds u) (en_MaxJobSeconds e)).

Definition UnionOf (envelopes : list Envelope) : Envelope := fold_left wider envelopes no_envelope.

(** ** Validation *)

Record ErrOutsideEnvelope := mkOutside { eo_Field : string; eo_Got : string; eo_Admissible : list string }.

Definition show_int (z : Z) : string := string_of_list_ascii (itoa z).

Definition durationAdmissible (e : Envelope) : list string :=
  if nonempty (en_DurationsSeconds e) then map show_int (en_DurationsSeconds e)
  else ["a positive number of seconds"%string].

Definition checkReference (ref : ReferenceImage) : option ErrOutsideEnvelope :=
  if bool_decide (ri_Type ref = ReferenceAsset) || bool_decide (ri_Type ref = ReferenceStyle) then None
  else Some (mkOutside "reference_images.type" (ri_Type ref) [ReferenceAsset; ReferenceStyle]).

Fixpoint checkReferences (refs : list ReferenceImage) : option ErrOutsideEnvelope :=
  match refs with
  | [] => None
  | ref :: refs => match checkReference ref with Some e => Some e | None => checkReferences refs end
  end.

Definition length_z {A} (l : list A) : Z := Z.of_nat (length l).

Definition ValidateEnvelope (e : Envelope) (r : VideoRequest) (audioOn : bool) :
    option ErrOutsideEnvelope :=
  let set (s : string) := negb (bool_decide (s = ""%string)) in
  let maxN := if en_MaxN e =? 0 then 1 else en_MaxN e in
  if negb (Configured e) then Some (mkOutside "model" (vr_Model r) [])
  else if negb (set (vr_Prompt r)) && negb (set (vr_Image r))
  then Some (mkOutside "prompt" "(empty)" [])
  else if set (vr_NegativePrompt r) && negb (en_SupportsNegativePrompt e)
  then Some (mkOutside "negative_prompt" "(set)" [])
  else if (0 <? en_MaxPromptChars e) && (en_MaxPromptChars e <? length_z (lit (vr_Prompt r)))
  then Some (mkOutside "prompt" (show_int (length_z (lit (vr_Prompt r))) ++ " characters")
               ["at most " ++ show_int (en_MaxPromptChars e)])%string
  else if vr_DurationSeconds r <=? 0
  then Some (mkOutside "duration_seconds" (show_int (vr_DurationSeconds r)) (durationAdmissible e))
  else if nonempty (en_DurationsSeconds e)
          && negb (bool_decide (vr_DurationSeconds r ∈ en_DurationsSeconds e))
  then Some (mkOutside "duration_seconds" (show_int (vr_DurationSeconds r))
               (map show_int (en_DurationsSeconds e)))
  else if set (vr_Resolution r) && nonempty (en_Resolutions e)
          && negb (bool_decide (vr_Resolution r ∈ en_Resolutions e))
  then Some (mkOutside "resolution" (vr_Resolution r) (en_Resolutions e))
  else if set (vr_AspectRatio r) && nonempty (en_AspectRatios e)
          && negb (bool_decide (vr_AspectRatio r ∈ en_AspectRatios e))
  then Some (mkOutside "aspect_ratio" (vr_AspectRatio r) (en_AspectRatios e))
  else if audioOn && bool_decide (en_Audio e = AudioNever)
  then Some (mkOutside "audio" "true" ["false"%string])
  else if negb audioOn && bool_decide (en_Audio e = AudioAlways)
  then Some (mkOutside "audio" "false" ["true"%string])
  else if set (vr_Image r) && negb (en_SupportsImageToVideo e)
  then Some (mkOutside "image" "(set)" [])
  else if set (vr_LastFrame r) && negb (en_SupportsLastFrame e)
  then Some (mkOutside "last_frame" "(set)" [])
  else if en_MaxReferenceImages e <? length_z (vr_ReferenceImages r)
  then Some (mkOutside "reference_images" (show_int (length_z (vr_ReferenceImages r)))
               ["at most " ++ show_int (en_MaxReferenceImages e)])%string
  else match checkReferences (vr_ReferenceImages r) with
       | Some err => Some err
       | None =>
           if (vr_N r <? 1) || (maxN <? vr_N r)
           then Some (mkOutside "n" (show_int (vr_N r)) ["1 to " ++ show_int maxN])%string
           else None
       end.

Definition Covers (e : Envelope) (r : VideoRequest) (audioOn : bool) : bool :=
  match ValidateEnvelope e r audioOn with None => true | Some _ => false end.

Definition ResolveAudio (e : Envelope) (r : VideoRequest) : bool :=
  match vr_Audio r with Some on => on | None => bool_decide (en_Audio e = AudioAlways) end.

(** ** Candidates *)

Section candidates.
Context {T : Type}.

Definition routesOfVendor (routes : list (Route T)) (vendor : string) : list (Route T) :=
  List.filter (fun rt => bool_decide (r_ProviderVendor rt = vendor)) routes.

(** [envelopes] is parallel to [routes]. *)
Fixpoint coveringRoutes (routes : list (Route T)) (envelopes : list Envelope) (r : VideoRequest)
    (audioOn : bool) : list (Route T) :=
  match routes, envelopes with
  | rt :: routes, e :: envelopes =>
      let rest := coveringRoutes routes envelopes r audioOn in
      if Covers e r audioOn then rt :: rest else rest
  | _, _ => []
  end.
End candidates.

(** An envelope that cannot be read declares nothing. *)
Definition readEnvelope (stored : result string Envelope) : Envelope :=
  match stored with Ok e => e | Err _ => no_envelope end.

Definition envelopeJobSeconds (e : Envelope) : Z :=
  if 0 <? en_MaxJobSeconds e then en_MaxJobSeconds e else 900.

(** ** The billable quantity *)

Definition audioFlag (on : bool) : string := if on then "on" else "off".

Definition BillingUnits (r : VideoRequest) (audioOn : bool) (unit : string) : Units :=
  let n := if vr_N r <? 1 then 1 else vr_N r in
  {[ mkUnitKey unit (vr_Resolution r) "" (audioFlag audioOn) ""
     := if bool_decide (unit = UnitSecond) then wrap64 (vr_DurationSeconds r * n) else n ]}.

(** ** Properties *)

(** The conditions under which an envelope covers a request. *)
Record covered (e : Envelope) (r : VideoRequest) (audioOn : bool) : Prop := {
  cv_configured : Configured e = true;
  cv_prompt : vr_Prompt r <> ""%string \/ vr_Image r <> ""%string;
  cv_negative : vr_NegativePrompt r = ""%string \/ en_SupportsNegativePrompt e = true;
  cv_length : en_MaxPromptChars e <= 0 \/ length_z (lit (vr_Prompt r)) <= en_MaxPromptChars e;
  cv_duration : 0 < vr_DurationSeconds r /\
    (en_DurationsSeconds e = [] \/ vr_DurationSeconds r ∈ en_DurationsSeconds e);
  cv_resolution : vr_Resolution r = ""%string \/ en_Resolutions e = [] \/
    vr_Resolution r ∈ en_Resolutions e;
  cv_aspect : vr_AspectRatio r = ""%string \/ en_AspectRatios e = [] \/
    vr_AspectRatio r ∈ en_AspectRatios e;
  cv_sound : audioOn = false \/ en_Audio e <> AudioNever;
  cv_silence : audioOn = true \/ en_Audio e <> AudioAlways;
  cv_image : vr_Image r = ""%string \/ en_SupportsImageToVideo e = true;
  cv_last : vr_LastFrame r = ""%string \/ en_SupportsLastFrame e = true;
  cv_references : length_z (vr_ReferenceImages r) <= en_MaxReferenceImages e /\
    Forall (fun ref => ri_Type ref = ReferenceAsset \/ ri_Type ref = ReferenceStyle)
      (vr_ReferenceImages r);
  cv_n : 1 <= vr_N r <= (if en_MaxN e =? 0 then 1 else en_MaxN e);
}.

Lemma checkReferences_none refs :
  checkReferences refs = None <->
  Forall (fun ref => ri_Type ref = ReferenceAsset \/ ri_Type ref = ReferenceStyle) refs.
Proof.
  induction refs as [|ref refs IH]; cbn [checkReferences]; [split; [by constructor|done]|].
  rewrite list.Forall_cons, <- IH. unfold checkReference.
  repeat case_bool_decide; cbn [orb]; naive_solver.
Qed.

Lemma nonempty_nil {A} (l : list A) : nonempty l = false <-> l = [].
Proof. by destruct l. Qed.

(** A guard of [ValidateEnvelope] that did not refuse. *)
Lemma past_guard {A} (b : bool) (x : A) (rest : option A) :
  (if b then Some x else rest) = None <-> b = false /\ rest = None.
Proof. destruct b; naive_solver. Qed.

Lemma set_false (s : string) : negb (bool_decide (s = ""%string)) = false <-> s = ""%string.
Proof. case_bool_decide; naive_solver. Qed.

Lemma declared_false {A} `{EqDecision A} (l : list A) (x : A) :
  nonempty l && negb (bool_decide (x ∈ l)) = false <-> l = [] \/ x ∈ l.
Proof. destruct l; cbn [nonempty andb]; [naive_solver|]. case_bool_decide; naive_solver. Qed.

Lemma ValidateEnvelope_spec e r a : ValidateEnvelope e r a = None <-> covered e r a.
Proof.
  unfold ValidateEnvelope. cbv zeta.
  assert (Hlast : forall b : bool, forall x : ErrOutsideEnvelope,
    (match checkReferences (vr_ReferenceImages r) with
     | Some err => Some err | None => if b then Some x else None end) = None <->
    Forall (fun ref => ri_Type ref = ReferenceAsset \/ ri_Type ref = ReferenceStyle)
      (vr_ReferenceImages r) /\ b = false).
  { intros b x. rewrite <- checkReferences_none.
    destruct (checkReferences _), b; naive_solver. }
  rewrite !past_guard, Hlast.
  rewrite !orb_false_iff, !andb_false_iff, !negb_false_iff, !negb_true_iff, !nonempty_nil.
  rewrite !bool_decide_eq_true, !bool_decide_eq_false, !Z.ltb_ge, !Z.leb_gt.
  split.
  - intros (H1 & H2 & H3 & H4 & H5 & H6 & H7 & H8 & H9 & H10 & H11 & H12 & H13 & H14 & H15 & H16).
    apply or_assoc in H7, H8. split; assumption || (split; assumption).
  - intros []. destruct_and?. split_and!; assumption || (apply or_assoc; assumption).
Qed.

Lemma Covers_spec e r a : Covers e r a = true <-> covered e r a.
Proof.
  rewrite <- ValidateEnvelope_spec. unfold Covers. by destruct (ValidateEnvelope e r a).
Qed.

(** *** The union *)

(** Both leave the same axes open: an axis that lists nothing accepts anything. *)
Record alike (a b : Envelope) : Prop := {
  al_durations : en_DurationsSeconds a = [] <-> en_DurationsSeconds b = [];
  al_resolutions : en_Resolutions a = [] <-> en_Resolutions b = [];
  al_aspects : en_AspectRatios a = [] <-> en_AspectRatios b = [];
  al_audio : en_Audio a = ""%string <-> en_Audio b = ""%string;
  al_prompt : en_MaxPromptChars a <= 0 <-> en_MaxPromptChars b <= 0;
}.

(** [u] accepts, axis by axis, what [x] accepts. *)
Record dominates (u x : Envelope) : Prop := {
  do_durations : forall d, d ∈ en_DurationsSeconds x -> d ∈ en_DurationsSeconds u;
  do_resolutions : forall v, v ∈ en_Resolutions x -> v ∈ en_Resolutions u;
  do_aspects : forall v, v ∈ en_AspectRatios x -> v ∈ en_AspectRatios u;
  do_audio : en_Audio u = en_Audio x \/ en_Audio u = AudioOptional;
  do_n : en_MaxN x <= en_MaxN u;
  do_image : en_SupportsImageToVideo x = true -> en_SupportsImageToVideo u = true;
  do_last : en_SupportsLastFrame x = true -> en_SupportsLastFrame u = true;
  do_references : en_MaxReferenceImages x <= en_MaxReferenceImages u;
  do_negative : en_SupportsNegativePrompt x = true -> en_SupportsNegativePrompt u = true;
  do_prompt : en_MaxPromptChars x <= en_MaxPromptChars u;
}.

Lemma merged_elem {A} `{EqDecision A} compare (dst src : list A) x :
  x ∈ mergeSorted compare dst src <-> x ∈ dst \/ x ∈ src.
Proof.
  unfold mergeSorted. rewrite SortFunc_perm. revert dst.
  induction src as [|v src IH]; intros dst; cbn [fold_left].
  - rewrite elem_of_nil. tauto.
  - rewrite IH. case_bool_decide; [set_solver|]. rewrite elem_of_app, list_elem_of_singleton. set_solver.
Qed.

Lemma merged_nil {A} `{EqDecision A} compare (dst src : list A) :
  mergeSorted compare dst src = [] <-> dst = [] /\ src = [].
Proof.
  split.
  - intros E. split; apply elem_of_nil_inv; intros x Hx; apply (not_elem_of_nil x); rewrite <- E;
      apply merged_elem; tauto.
  - by intros [-> ->].
Qed.

Lemma dominates_covered u x r a :
  alike u x -> dominates u x -> Configured u = true -> covered x r a -> covered u r a.
Proof.
  intros [Ad Ar Aa Au Ap] [Dd Dr Da Du Dn Di Dl Df Dg Dp] Hc [].
  split; try done.
  - destruct cv_negative0; [by left|]. right. by apply Dg.
  - destruct cv_length0; [left; by apply Ap|]. right. lia.
  - destruct cv_duration0 as [Hp [Hn|Hin]]; split; try done; [left; by apply Ad|right; by apply Dd].
  - destruct cv_resolution0 as [?|[?|?]]; [by left|right; left; by apply Ar|right; right; by apply Dr].
  - destruct cv_aspect0 as [?|[?|?]]; [by left|right; left; by apply Aa|right; right; by apply Da].
  - destruct cv_sound0 as [?|?]; [by left|]. right. by destruct Du as [-> | ->].
  - destruct cv_silence0 as [?|?]; [by left|]. right. by destruct Du as [-> | ->].
  - destruct cv_image0; [by left|]. right. by apply Di.
  - destruct cv_last0; [by left|]. right. by apply Dl.
  - destruct cv_references0. split; [lia|done].
  - destruct cv_n0 as [H1 H2]. split; [done|]. revert H2.
    destruct (Z.eqb_spec (en_MaxN x) 0), (Z.eqb_spec (en_MaxN u) 0); lia.
Qed.

Lemma widerAudio_alike a b : (a = ""%string <-> b = ""%string) ->
  let w := widerAudio a b in
  (w = ""%string <-> b = ""%string) /\ (w = a \/ w = AudioOptional) /\ (w = b \/ w = AudioOptional).
Proof.
  intros Hab. unfold widerAudio. cbv zeta. destruct (decide (a = ""%string)) as [Ha|Ha].
  - rewrite bool_decide_eq_true_2 by done. apply Hab in Ha as Hb. subst. tauto.
  - assert (Hb : b <> ""%string) by tauto. rewrite !bool_decide_eq_false_2 by done. cbn [orb].
    case_bool_decide as E; [subst; tauto|]. split_and!; [|tauto|tauto]. split; [done|]. by intros ->.
Qed.

(** Adding an envelope that opens the same axes. *)
Lemma wider_keeps u e : Configured e = true -> alike u e ->
  alike (wider u e) e /\ dominates (wider u e) u /\ dominates (wider u e) e /\ Configured (wider u e) = true.
Proof.
  intros Hc [Ad Ar Aa Au Ap]. unfold wider. rewrite Hc. cbn [negb].
  destruct (widerAudio_alike _ _ Au) as (Hau & Hdu & Hde).
  split_and!.
  - split; cbn; rewrite ?merged_nil; try tauto. lia.
  - split; cbn; rewrite ?orb_true_iff; try lia; try tauto; intros ? ?; apply merged_elem; tauto.
  - split; cbn; rewrite ?orb_true_iff; try lia; try tauto; intros ? ?; apply merged_elem; tauto.
  - unfold Configured in *. cbn. rewrite !orb_true_iff in *.
    assert (Hne : forall A (compare : A -> A -> comparison) `{EqDecision A} dst src,
      nonempty src = true -> nonempty (mergeSorted compare dst src) = true).
    { intros A compare eqd dst src Hs. destruct (mergeSorted compare dst src) eqn:E; [|done].
      apply merged_nil in E as [_ ->]. done. }
    destruct Hc as [[Hc|Hc]|Hc]; [left; left|left; right|right]; by apply Hne.
Qed.

Lemma wider_first e : Configured e = true ->
  let u := wider no_envelope e in alike u e /\ dominates u e /\ Configured u = true.
Proof.
  intros Hc. unfold wider. rewrite Hc. cbn [negb]. cbv zeta. split_and!.
  - split; cbn; rewrite ?merged_nil; try tauto. lia.
  - split; cbn; try done; try lia; try (intros ? ?; apply merged_elem; by right). by left.
  - assert (Hne : forall A (compare : A -> A -> comparison) `{EqDecision A} src,
      nonempty (mergeSorted compare [] src) = nonempty src).
    { intros A compare eqd src. destruct (mergeSorted compare [] src) eqn:E.
      - apply merged_nil in E as [_ ->]. done.
      - destruct src; [|done]. by rewrite (proj2 (merged_nil compare [] [])) in E. }
    unfold Configured in *. cbn. by rewrite !Hne.
Qed.

Lemma dominates_trans u v x : dominates u v -> dominates v x -> dominates u x.
Proof.
  intros [] []. split; try lia; try (by eauto).
  destruct do_audio0 as [-> | ->]; [done|by right].
Qed.

Lemma alike_sym a b : alike a b -> alike b a.
Proof. intros []. by split. Qed.
Lemma alike_trans a b c : alike a b -> alike b c -> alike a c.
Proof. intros [] []. split; by etrans. Qed.

Lemma fold_wider es u :
  Configured u = true -> (forall e, e ∈ es -> Configured e = true -> alike u e) ->
  let w := fold_left wider es u in
  Configured w = true /\ alike w u /\ dominates w u /\
  (forall e, e ∈ es -> Configured e = true -> dominates w e).
Proof.
  revert u. induction es as [|e es IH]; intros u Hu Hal; cbv zeta; cbn [fold_left].
  { split_and!; [done|by split| |by intros ? ?%elem_of_nil]. split; try done; try tauto; lia. }
  destruct (Configured e) eqn:Ec.
  - destruct (wider_keeps u e Ec) as (A & D1 & D2 & C); [apply Hal; [by left|done]|].
    assert (Hue : alike (wider u e) u).
    { eapply alike_trans; [exact A|]. apply alike_sym, Hal; [by left|done]. }
    destruct (IH (wider u e) C) as (H1 & H2 & H3 & H4).
    { intros x Hx Hxc. eapply alike_trans; [exact Hue|]. apply Hal; [by right|done]. }
    split_and!; [done|by eapply alike_trans|by eapply dominates_trans|].
    intros x [->|Hx]%elem_of_cons Hxc; [by eapply dominates_trans|by apply H4].
  - assert (wider u e = u) as -> by (unfold wider; by rewrite Ec).
    destruct (IH u Hu) as (H1 & H2 & H3 & H4); [intros x Hx; apply Hal; by right|].
    split_and!; [done..|]. intros x [->|Hx]%elem_of_cons Hxc; [congruence|by apply H4].
Qed.

(** A request some route serves is never refused by the union.  When the configured
    routes of a model leave the same axes open (an axis that lists nothing, an
    unset limit or an unset audio flag), whatever one of them covers passes the
    validation admission runs against their union. *)
Theorem union_admits_what_a_route_serves es e r audioOn :
  (forall x y, x ∈ es -> y ∈ es -> Configured x = true -> Configured y = true -> alike x y) ->
  e ∈ es -> Covers e r audioOn = true -> ValidateEnvelope (UnionOf es) r audioOn = None.
Proof.
  intros Hal He Hcov%Covers_spec. apply ValidateEnvelope_spec.
  pose proof (cv_configured _ _ _ Hcov) as Hc. unfold UnionOf.
  induction es as [|x es IH]; [by apply elem_of_nil in He|]. cbn [fold_left].
  destruct (Configured x) eqn:Ex.
  - destruct (wider_first x Ex) as (A & D & C).
    destruct (fold_wider es (wider no_envelope x) C) as (H1 & H2 & H3 & H4).
    { intros y Hy Hyc. eapply alike_trans; [exact A|]. apply Hal; [by left|by right|done|done]. }
    assert (Hxe : alike x e) by (apply Hal; [by left|done|done|done]).
    apply (dominates_covered _ e); [| |done|done].
    + eapply alike_trans; [exact H2|]. by eapply alike_trans.
    + apply elem_of_cons in He as [->|He]; [by eapply dominates_trans|by apply H4].
  - assert (wider no_envelope x = no_envelope) as -> by (unfold wider; by rewrite Ex).
    apply elem_of_cons in He as [->|He]; [congruence|].
    apply IH; [|done]. intros y z Hy Hz. apply Hal; by right.
Qed.

(** *** Candidates and the bill *)

Lemma coveringRoutes_spec {T} (routes : list (Route T)) envelopes r audioOn rt :
  rt ∈ coveringRoutes routes envelopes r audioOn <->
  exists i e, routes !! i = Some rt /\ envelopes !! i = Some e /\ Covers e r audioOn = true.
Proof.
  revert envelopes. induction routes as [|rt0 routes IH]; intros envelopes.
  { cbn. rewrite elem_of_nil. split; [done|]. by intros (i & e & Hi & _). }
  destruct envelopes as [|e0 envelopes]; cbn [coveringRoutes].
  { rewrite elem_of_nil. split; [done|]. by intros (i & e & _ & Hi & _). }
  assert (Hrest : rt ∈ coveringRoutes routes envelopes r audioOn <->
    exists i e, (rt0 :: routes) !! S i = Some rt /\ (e0 :: envelopes) !! S i = Some e /\
                Covers e r audioOn = true) by apply IH.
  destruct (Covers e0 r audioOn) eqn:Ec.
  - rewrite elem_of_cons, Hrest. split.
    + intros [->|(i & e & H)]; [by exists 0%nat, e0|by exists (S i), e].
    + intros ([|i] & e & Hr & He & Hc); [left; by injection Hr|right; by exists i, e].
  - rewrite Hrest. split; [intros (i & e & H); by exists (S i), e|].
    intros ([|i] & e & Hr & He & Hc); [|by exists i, e]. cbn in He. congruence.
Qed.

(** Every clip billed by the second or by the call is billed at a positive quantity
    that the request alone decides. *)
Lemma covered_quantity e r audioOn unit :
  covered e r audioOn -> vr_DurationSeconds r * vr_N r <= max_int64 ->
  exists key q, BillingUnits r audioOn unit = {[ key := q ]} /\ 0 < q /\
    q = (if bool_decide (unit = UnitSecond) then vr_DurationSeconds r * vr_N r else vr_N r).
Proof.
  intros [] Hmax. unfold BillingUnits. destruct (Z.ltb_spec (vr_N r) 1); [lia|].
  eexists _, _. split; [reflexivity|].
  assert (wrap64 (vr_DurationSeconds r * vr_N r) = vr_DurationSeconds r * vr_N r) as ->.
  { apply wrap64_id. unfold min_int64, max_int64 in *. nia. }
  case_bool_decide; split; lia || nia.
Qed.

(** ** Concrete envelopes *)

Definition listed : Envelope :=
  mkEnvelope [4; 8] ["720p"%string] [] AudioNever 1 true false 0 false 0 CancelNever 600.
Definition open_durations : Envelope :=
  mkEnvelope [] ["720p"%string] [] AudioNever 1 true false 0 false 0 CancelAnytime 600.
Definition demo_clip (seconds : Z) : VideoRequest :=
  mkVideoRequest "veo" "a cat" "" seconds "720p" "" None "" "" [] 1.

Lemma union_admits_what_a_route_serves_witness :
  ValidateEnvelope (UnionOf [listed; no_envelope; listed]) (demo_clip 8) false = None.
Proof.
  apply (union_admits_what_a_route_serves [listed; no_envelope; listed] listed).
  - intros x y Hx Hy Hcx Hcy. assert (H : forall z, z ∈ [listed; no_envelope; listed] ->
      Configured z = true -> z = listed).
    { intros z [->|[->|[->|[]%elem_of_nil]%elem_of_cons]%elem_of_cons]%elem_of_cons; done. }
    rewrite (H x Hx Hcx), (H y Hy Hcy). by split.
  - by left.
  - vm_compute. reflexivity.
Defined.

(** One route that lists its durations closes the axis for the route that does not:
    a clip the second would serve is refused, and so is a prompt once one route
    states a limit. *)
Theorem union_closes_open_axes :
  Covers open_durations (demo_clip 12) false = true /\
  is_Some (ValidateEnvelope (UnionOf [listed; open_durations]) (demo_clip 12) false).
Proof. split; [vm_compute; reflexivity|]. vm_compute. by eexists. Qed.
