(* ===== verification/VideoJobs.v ===== *)
(** * Video jobs: the rows of [gateway_async_jobs] and the queries over them
    ([internal/gateway/db/videojobs.sql.go])

    A job outlives the request that created it.  What the caller sees ([Life]) and
    what the money did ([Money]) are separate columns; every statement that moves
    either carries its own guard, and answers how many rows it touched. *)
From S2P Require Import Prelude GoStr Rational PriceTable Pricing UnitPricing Surfaces Usage.
From S2P Require Import BreakerStore Catalog Errors Guard Billing Rotation Ledger Envelope.

Open Scope Z_scope.

(** ** Rows *)

(** [gateway_async_jobs.status]; a poll answers one of the first five. *)
Inductive JobStatus :=
  | StatusQueued | StatusInProgress | StatusCompleted | StatusFailed | StatusCanceled | StatusExpired.
Inductive SettlementState := Held | Protected | Settled | Voided | Orphaned.

#[export] Instance JobStatus_eq_dec : EqDecision JobStatus.
Proof. solve_decision. Defined.
#[export] Instance SettlementState_eq_dec : EqDecision SettlementState.
Proof. solve_decision. Defined.

Definition Terminal (s : JobStatus) : bool :=
  match s with StatusCompleted | StatusFailed | StatusCanceled => true | _ => false end.

(** [status IN ('queued', 'in_progress')]. *)
Definition running (s : JobStatus) : bool :=
  match s with StatusQueued | StatusInProgress => true | _ => false end.

Record unitRow := mkUnitQuantity { un_Unit : string; un_Quantity : Z }.

(** The columns written once, at creation. *)
Record JobSpec := mkSpec {
  js_ID : string;
  js_OrgID : uuid;
  js_ApiKeyID : uuid;
  js_RequestID : string;
  js_IdempotencyKey : string;
  js_RequestFingerprint : string;
  js_ModelSlug : string;
  js_Byok : bool;
  js_BillingUnits : list unitRow;
  js_HoldID : uuid;
  js_HoldNano : Z;
  js_ChargedCurrency : string;
  js_PricingSnapshot : videoPricingSnapshot;
  js_MaxJobSeconds : Z;
  js_EndUserID : string;
  js_CreatedAt : Z;
  js_ExpiresAt : Z;
}.

(** The pin: NULL once what it referred to was deleted. *)
Record Pin := mkPin {
  jn_RouteID : uuid; jn_ProviderID : uuid; jn_ProviderKeyID : uuid; jn_OrgProviderKeyID : uuid;
}.

Record Life := mkLife {
  jl_Status : JobStatus;
  jl_UpstreamID : string;
  jl_UpstreamStatus : string;
  jl_Progress : Z;
  jl_ErrorCode : string;
  jl_ErrorMessage : string;
  jl_SubmittedAt : option Z;
  jl_TerminalAt : option Z;
}.

Record JobMoney := mkMoney {
  jm_State : SettlementState; jm_ChargedNano : Z; jm_HoldExpiresAt : option Z;
}.
Record Polls := mkPolls { jp_Attempts : Z; jp_NotFound : Z; jp_NextPollAt : option Z }.
Record Film := mkFilm { ja_UpstreamRef : string; ja_Key : string; ja_Bytes : Z; ja_ContentType : string }.

Record Job := mkJob {
  j_spec : JobSpec; j_pin : Pin; j_life : Life; j_money : JobMoney; j_polls : Polls; j_film : Film;
}.

Definition j_ID (j : Job) : string := js_ID (j_spec j).
Definition j_Status (j : Job) : JobStatus := jl_Status (j_life j).
Definition j_State (j : Job) : SettlementState := jm_State (j_money j).

Definition with_life (j : Job) (l : Life) : Job :=
  mkJob (j_spec j) (j_pin j) l (j_money j) (j_polls j) (j_film j).
Definition with_money (j : Job) (m : JobMoney) : Job :=
  mkJob (j_spec j) (j_pin j) (j_life j) m (j_polls j) (j_film j).
Definition with_polls (j : Job) (p : Polls) : Job :=
  mkJob (j_spec j) (j_pin j) (j_life j) (j_money j) p (j_film j).
Definition with_film (j : Job) (a : Film) : Job :=
  mkJob (j_spec j) (j_pin j) (j_life j) (j_money j) (j_polls j) a.
Definition with_pin (j : Job) (n : Pin) : Job :=
  mkJob (j_spec j) n (j_life j) (j_money j) (j_polls j) (j_film j).

(** A normalised status reading ([video.Poll]). *)
Record Poll := mkPoll {
  po_Status : JobStatus;
  po_UpstreamStatus : string;
  po_Progress : Z;
  po_ErrorCode : string;
  po_ErrorMessage : string;
  po_NotFound : bool;
  po_ArtifactRef : string;
  po_ContentType : string;
}.
Definition no_poll (s : JobStatus) (upstreamStatus code message : string) : Poll :=
  mkPoll s upstreamStatus 0 code message false "" "".

(** ** Queries *)

Abbreviation Jobs := (gmap string Job).
Implicit Types (jobs : Jobs) (id : string).

(** [UPDATE ... WHERE id = $1 AND ...]: the rows touched and the table. *)
Definition update_job (f : Job -> option Job) id jobs : Z * Jobs :=
  match jobs !! id ≫= f with Some j => (1, <[id := j]> jobs) | None => (0, jobs) end.

Definition rescheduled (j : Job) (at_ : option Z) : Job :=
  with_polls j (mkPolls (jp_Attempts (j_polls j)) (jp_NotFound (j_polls j)) at_).

Definition MarkVideoJobTerminal (now : Z) (status : JobStatus) (p : Poll) : string -> Jobs -> Z * Jobs :=
  update_job (fun j =>
    if running (j_Status j)
    then
      let l := j_life j in
      let a := j_film j in
      Some (rescheduled (with_film
        (with_life j (mkLife status (jl_UpstreamID l) (po_UpstreamStatus p)
           (if bool_decide (status = StatusCompleted) then 100 else jl_Progress l)
           (po_ErrorCode p) (po_ErrorMessage p) (jl_SubmittedAt l) (Some now)))
        (mkFilm (po_ArtifactRef p) (ja_Key a) (ja_Bytes a) (ja_ContentType a))) None)
    else None).

Definition SettleVideoJob (charged : Z) : string -> Jobs -> Z * Jobs :=
  update_job (fun j =>
    match j_State j with
    | Held | Protected | Orphaned =>
        Some (with_money j (mkMoney Settled charged (jm_HoldExpiresAt (j_money j))))
    | _ => None
    end).

Definition VoidVideoJob : string -> Jobs -> Z * Jobs :=
  update_job (fun j =>
    match j_State j with
    | Held | Protected => Some (with_money j (mkMoney Voided 0 (jm_HoldExpiresAt (j_money j))))
    | _ => None
    end).

Definition ProtectVideoJobHold : string -> Jobs -> Z * Jobs :=
  update_job (fun j =>
    match j_State j with
    | Held => Some (with_money j (mkMoney Protected (jm_ChargedNano (j_money j)) None))
    | _ => None
    end).

Definition OrphanVideoJobHold : string -> Jobs -> Z * Jobs :=
  update_job (fun j =>
    match j_State j with
    | Held | Protected =>
        Some (with_money j (mkMoney Orphaned (jm_ChargedNano (j_money j)) (jm_HoldExpiresAt (j_money j))))
    | _ => None
    end).

Definition MarkVideoJobProgress (now : Z) (status : JobStatus) (upstreamStatus : string)
    (progress pollAfter : Z) : string -> Jobs -> Z * Jobs :=
  update_job (fun j =>
    if running (j_Status j)
    then
      let l := j_life j in
      Some (rescheduled (with_life j (mkLife status (jl_UpstreamID l) upstreamStatus progress
              (jl_ErrorCode l) (jl_ErrorMessage l) (jl_SubmittedAt l) (jl_TerminalAt l)))
            (Some (now + pollAfter)))
    else None).

(** No guard on the status. *)
Definition MarkVideoJobSubmitted (now : Z) (upstreamID : string) (pollAfter : Z) :
    string -> Jobs -> Z * Jobs :=
  update_job (fun j =>
    let l := j_life j in
    Some (rescheduled (with_life j (mkLife StatusInProgress upstreamID "submitted" (jl_Progress l)
            (jl_ErrorCode l) (jl_ErrorMessage l) (Some now) (jl_TerminalAt l)))
          (Some (now + pollAfter)))).

(** The count after the increment, of the row it finds. *)
Definition MarkVideoJobNotFound (now pollAfter : Z) id jobs : option Z * Jobs :=
  match jobs !! id with
  | None => (None, jobs)
  | Some j =>
      let n := jp_NotFound (j_polls j) + 1 in
      (Some n, <[id := with_polls j (mkPolls (jp_Attempts (j_polls j)) n (Some (now + pollAfter)))]> jobs)
  end.

Definition RecordVideoJobArtifact (key : string) (bytes : Z) (contentType : string) :
    string -> Jobs -> Z * Jobs :=
  update_job (fun j => Some (with_film j (mkFilm (ja_UpstreamRef (j_film j)) key bytes contentType))).

Definition ClearVideoJobArtifact : string -> Jobs -> Z * Jobs :=
  update_job (fun j => Some (with_film j (mkFilm (ja_UpstreamRef (j_film j)) "" 0 ""))).

Definition DeleteVideoJob id jobs : Jobs := delete id jobs.

(** [org_id = $2]: NULL equals nothing. *)
Definition same_org (a b : uuid) : bool :=
  match a, b with Some a, Some b => bool_decide (a = b) | _, _ => false end.

Definition GetVideoJob id (orgID : uuid) jobs : option Job :=
  match jobs !! id with
  | Some j => if same_org (js_OrgID (j_spec j)) orgID then Some j else None
  | None => None
  end.

Definition GetVideoJobByIdempotencyKey (orgID : uuid) (key : string) jobs : option Job :=
  List.find (fun j => same_org (js_OrgID (j_spec j)) orgID
                      && bool_decide (js_IdempotencyKey (j_spec j) = key))
    (map_to_list jobs).*2.

(** The two unique constraints an insert meets: [request_id], and
    [(org_id, kind, idempotency_key)]. *)
Definition conflicts (s : JobSpec) (j : Job) : bool :=
  bool_decide (js_RequestID (j_spec j) = js_RequestID s)
  || same_org (js_OrgID (j_spec j)) (js_OrgID s)
     && bool_decide (js_IdempotencyKey (j_spec j) = js_IdempotencyKey s).

(** A fresh identifier, [queued], [held], due at once. *)
Definition created (s : JobSpec) (pin : Pin) (holdExpiresAt now : Z) : Job :=
  mkJob s pin (mkLife StatusQueued "" "" 0 "" "" None None) (mkMoney Held 0 (Some holdExpiresAt))
    (mkPolls 0 0 (Some now)) (mkFilm "" "" 0 "").

(** The row's [CHECK]s. *)
Definition row_checks (s : JobSpec) (pin : Pin) : bool :=
  (0 <=? js_HoldNano s) && (0 <? js_MaxJobSeconds s)
  && negb (bool_decide (is_Some (jn_ProviderKeyID pin)) && bool_decide (is_Some (jn_OrgProviderKeyID pin))).

Definition CreateVideoJob (s : JobSpec) (pin : Pin) (holdExpiresAt now : Z) jobs : option (Job * Jobs) :=
  if negb (row_checks s pin) || existsb (conflicts s) (map_to_list jobs).*2 then None
  else let j := created s pin holdExpiresAt now in Some (j, <[js_ID s := j]> jobs).

(** *** Scans *)

Definition videoClaimBatch : nat := 50.
Definition pollLease : Z := 90 * Second.

Definition due (now : Z) (j : Job) : bool :=
  running (j_Status j)
  && match jp_NextPollAt (j_polls j) with Some t => t <=? now | None => false end.

Definition by_due (a b : Job) : comparison :=
  Z.compare (default 0 (jp_NextPollAt (j_polls a))) (default 0 (jp_NextPollAt (j_polls b))).

Definition claimed (now lease : Z) (j : Job) : Job :=
  with_polls j (mkPolls (jp_Attempts (j_polls j) + 1) (jp_NotFound (j_polls j)) (Some (now + lease))).

(** [ClaimDueVideoJobs]: the rows as updated, and the table. *)
Definition ClaimDueVideoJobs (now lease : Z) (lim : nat) jobs : list Job * Jobs :=
  let batch := map (claimed now lease)
    (firstn lim (SortFunc by_due (List.filter (due now) (map_to_list jobs).*2))) in
  (batch, fold_left (fun jobs j => <[j_ID j := j]> jobs) batch jobs).

Definition unsubmitted (now olderThan : Z) (j : Job) : bool :=
  bool_decide (j_Status j = StatusQueued) && bool_decide (jl_UpstreamID (j_life j) = ""%string)
  && negb (bool_decide (is_Some (jl_SubmittedAt (j_life j))))
  && (js_CreatedAt (j_spec j) <? now - olderThan).

Definition stale (now : Z) (j : Job) : bool :=
  running (j_Status j) && (js_CreatedAt (j_spec j) <? now - js_MaxJobSeconds (j_spec j) * 2 * Second).

Definition expired (now : Z) (j : Job) : bool := js_ExpiresAt (j_spec j) <=? now.

(** [SELECT ... LIMIT] without [ORDER BY]: the server picks the order. *)
Definition scan (order : list Job -> list Job) (p : Job -> bool) (lim : nat) jobs : list Job :=
  firstn lim (order (List.filter p (map_to_list jobs).*2)).

(** [CountStuckMoneyJobs]: ended, the money not moved. *)
Definition stuck (j : Job) : bool :=
  match j_State j with Held | Protected => negb (running (j_Status j)) | _ => false end.
Definition CountStuckMoneyJobs jobs : Z := length_z (List.filter stuck (map_to_list jobs).*2).
