(* ===== verification/VideoWorker.v ===== *)
(** * The video reconciler and the job surface: [video_worker.go], [video_jobs.go]
    and the shared halves of [video_submit.go] in [internal/gateway/proxy]

    Polling, the sweep, the terminal transition with the money it moves, and what a
    caller can do to a job that exists.  A handler works on the row it read, which
    another handler may have changed since: every operation takes the row in hand
    and the tables as they are. *)
From S2P Require Import Prelude GoStr BreakerStore Rational PriceTable Pricing UnitPricing Surfaces Usage.
From S2P Require Import Catalog Errors Guard Billing Rotation Ledger Credentials Settlement Envelope VideoJobs.

Open Scope Z_scope.

(** ** Constants *)

Definition pollBaseQueued : Z := 5 * Second.
Definition pollBaseInProgress : Z := 10 * Second.
Definition pollMax : Z := 2 * 60 * Second.
Definition notFoundStrikes : Z := 2.

(** [nextPollDelay]; the float64 product is read as exact. *)
Fixpoint climb (n : nat) (d growth : Q) : Z :=
  match n with
  | O => Qround.Qfloor d
  | S n => let d := (d * growth)%Q in
           if pollMax <=? Qround.Qfloor d then pollMax else climb n d growth
  end.

Definition nextPollDelay (status : JobStatus) (attempts : Z) : Z :=
  let '(base, growth) :=
    if bool_decide (status = StatusQueued) then (pollBaseQueued, (3 # 2)%Q)
    else (pollBaseInProgress, (7 # 5)%Q) in
  climb (Z.to_nat (Z.min attempts 20)) (inject_Z base) growth.

(** ** Usage rows *)

Definition wrap32 (z : Z) : Z := (z + 2 ^ 31) mod 2 ^ 32 - 2 ^ 31.

Definition fxRateFrom (s : videoPricingSnapshot) : bytes :=
  if beq (vps_FXRate s) [] then lit "1" else vps_FXRate s.
Definition upstreamCostFrom (s : videoPricingSnapshot) : Z := vps_UpstreamUSDNano s.

Definition billedUnitsOf (rows : list unitRow) : option Z :=
  match rows with
  | [] => None
  | _ => Some (wrap32 (Z.min (fold_left (fun t r => wrap64 (t + un_Quantity r)) rows 0) (2 ^ 31 - 1)))
  end.
Definition billedUnitOf (rows : list unitRow) : string :=
  match rows with [] => ""%string | r :: _ => un_Unit r end.

Definition job_outcome (status : JobStatus) (errorCode : string) : string :=
  match status with
  | StatusFailed => if bool_decide (errorCode = GatewayVideoContentRejected) then "client_error"
                    else "upstream_error"
  | StatusCanceled => "canceled"
  | StatusExpired => "upstream_error"
  | _ => "ok"
  end%string.

(** ** Calls to an upstream *)

(** What [BuildRequest] is given: the address, and the secret unless it is omitted. *)
Record Target (O : Type) := mkTarget { tg_BaseURL : string; tg_APIKey : option string; tg_Out : O }.
Arguments mkTarget {O}.
Arguments tg_BaseURL {O}.
Arguments tg_APIKey {O}.
Arguments tg_Out {O}.

Record Artifact (O : Type) := mkArtifact {
  ar_Request : O; ar_NeedsUpstreamCredential : bool; ar_ContentType : string; ar_Indirect : bool;
}.
Arguments mkArtifact {O}.
Arguments ar_Request {O}.
Arguments ar_NeedsUpstreamCredential {O}.
Arguments ar_ContentType {O}.
Arguments ar_Indirect {O}.

(** [video.Mapper]: one vendor's shapes, over its request shapes [O] and the bodies
    it reads [R]. *)
Record Mapper (O R : Type) := mkMapper {
  mp_Submit : VideoRequest -> string -> bool -> result string O;
  mp_SubmitResult : VideoRequest -> Z -> R -> result string string;
  mp_Poll : string -> result string O;
  mp_PollResult : Z -> R -> result string Poll;
  mp_Cancel : string -> result string O;
  mp_Artifact : Poll -> result string (Artifact O);
  mp_ResolveArtifact : Z -> R -> result string (Artifact O);
}.
Arguments mp_Submit {O R}.
Arguments mp_SubmitResult {O R}.
Arguments mp_Poll {O R}.
Arguments mp_PollResult {O R}.
Arguments mp_Cancel {O R}.
Arguments mp_Artifact {O R}.
Arguments mp_ResolveArtifact {O R}.

(** A row of [GetVideoJobRoute]. *)
Record JobRoute := mkJobRoute {
  jr_Vendor : string;
  jr_BaseURL : string;
  jr_Transport : bool;                       (** whether the stored profile parses *)
  jr_VideoEnvelope : result string Envelope;
}.

(** A stored credential: what decryption gives, and an address of its own. *)
Record StoredSecret := mkStored { ss_Open : option string; ss_BaseUrl : string }.

(** [VideoCancelMode]. *)
Definition VideoCancelMode (stored : result string Envelope) : string :=
  match stored with Ok e => CancelModeOrDefault e | Err _ => CancelNever end.

Section worker.
Context {B O R : Type} `{Settler B}.
Variable NumericScan : bytes -> option bytes.
(** The vendor mappers, and one exchange with an upstream. *)
Variable MapperFor : string -> option (Mapper O R).
Variable Exchange : Target O -> result Error (Z * R).
(** The reads of the pinned route and credential. *)
Variable GetVideoJobRoute : uuid -> option JobRoute.
Variable GetOrgProviderKeySecret : uuid -> uuid -> option StoredSecret.
Variable GetVideoJobProviderKey : uuid -> option StoredSecret.
(** Which statement about which job fails. *)
Variable fails : string -> string -> bool.

Record VideoWorld := mkVideo { vw_books : World B; vw_jobs : Jobs; vw_objects : gset string }.

Implicit Types (w : VideoWorld) (job : Job) (now : Z).

Definition with_books w (b : World B) : VideoWorld := mkVideo b (vw_jobs w) (vw_objects w).
Definition with_jobs w (jobs : Jobs) : VideoWorld := mkVideo (vw_books w) jobs (vw_objects w).
Definition with_objects w (o : gset string) : VideoWorld := mkVideo (vw_books w) (vw_jobs w) o.

(** One statement outside a transaction. *)
Definition exec (stmt : string) (q : string -> Jobs -> Z * Jobs) w (id : string) : VideoWorld :=
  if fails stmt id then w else with_jobs w (q id (vw_jobs w)).2.

Definition videoUsageLogParams now job (poll : Poll) (status : JobStatus) (charged : Z) : UsageRow :=
  let s := j_spec job in
  let durationMs := match jl_SubmittedAt (j_life job) with
                    | Some t => wrap32 (Z.quot (now - t) 1000000)
                    | None => 0
                    end in
  mkUsageRow (js_OrgID s) (js_ApiKeyID s) (js_RequestID s) (surface_name SurfaceVideo) (js_ModelSlug s)
    (jn_ProviderID (j_pin job)) (jn_ProviderKeyID (j_pin job)) (jn_OrgProviderKeyID (j_pin job))
    (js_Byok s) 1 false (job_outcome status (po_ErrorCode poll)) (po_ErrorCode poll) 200
    0 0 0 0 0 false (upstreamCostFrom (js_PricingSnapshot s)) charged (js_ChargedCurrency s)
    (numericFromString NumericScan (fxRateFrom (js_PricingSnapshot s))) (js_HoldID s) (js_EndUserID s)
    0 durationMs ∅ "" (Some 0) (Some 0) (Some 0) None
    (billedUnitsOf (js_BillingUnits s)) (billedUnitOf (js_BillingUnits s)) (Some 0) (Some 0)
    (Some (JobSnapshot (js_PricingSnapshot s))) (jn_RouteID (j_pin job)) [].

(** ** The terminal transition *)

(** [recordVideoUnsettled]: on a connection of its own, outside the transaction. *)
Definition recordVideoUnsettled now (books : World B) job (charged : Z) : World B :=
  let s := j_spec job in
  RecordUnsettled (mkFaults false false (fails "RecordUnsettled" (j_ID job)) false false false false)
    books (js_RequestID s)
    (mkIdentity (js_ApiKeyID s) (js_OrgID s) None "" false [] 0 "" 0 0 0 0 0 "" [] "" None)
    (mkQuote 0 charged 0 0 0 [])
    (videoUsageLogParams now job (no_poll StatusQueued "" "" "") StatusCompleted charged)
    "the reservation was reclaimed before the job finished".

(** The transaction; an error of any statement leaves nothing of it. *)
Definition terminal_tx now w job (poll : Poll) (status : JobStatus) (charged : Z) : VideoWorld :=
  let id := j_ID job in
  let row := videoUsageLogParams now job poll status charged in
  let commit (books : World B) jobs fallback :=
    if fails "commit" id then fallback else mkVideo (add_usage books row) jobs (vw_objects w) in
  if fails "terminal transaction" id then w
  else
    let '(moved, jobs) := MarkVideoJobTerminal now status poll id (vw_jobs w) in
    if moved =? 0 then w
    else if bool_decide (status = StatusCompleted) then
      let '(claimed, jobs) := SettleVideoJob charged id jobs in
      if claimed =? 0 then w
      else if bool_decide (j_State job = Orphaned) then
        let books := recordVideoUnsettled now (vw_books w) job charged in
        commit books jobs (with_books w books)
      else
        match SettleTx (w_billing (vw_books w))
                (mkSettle (js_OrgID (j_spec job)) (js_RequestID (j_spec job)) charged
                   (js_ApiKeyID (j_spec job))) with
        | Err _ => w
        | Ok b => commit (with_billing (vw_books w) b) jobs w
        end
    else commit (vw_books w) (VoidVideoJob id jobs).2 w.

Definition void_hold w job : VideoWorld :=
  with_books w (VoidHold (vw_books w) (js_OrgID (j_spec job)) (js_RequestID (j_spec job))).

Definition terminateVideoJob now w job (poll : Poll) (status : JobStatus) : VideoWorld :=
  if bool_decide (status = StatusCompleted)
  then terminal_tx now w job poll status (js_HoldNano (j_spec job))
  else terminal_tx now (void_hold w job) job poll status 0.

(** The transaction of [failVideoJob]: the counts are not looked at. *)
Definition fail_tx now w job (code message : string) : VideoWorld :=
  let id := j_ID job in
  if fails "terminal transaction" id then w
  else
    let '(_, jobs) := MarkVideoJobTerminal now StatusFailed (no_poll StatusFailed "" code message) id
                        (vw_jobs w) in
    let '(_, jobs) := VoidVideoJob id jobs in
    if fails "commit" id then w else with_jobs w jobs.

Definition failVideoJob now w job (code message : string) : VideoWorld :=
  fail_tx now (void_hold w job) job code message.

(** ** The pinned upstream *)

Definition credentialOfJob job (route : JobRoute) : option Credential :=
  match jn_OrgProviderKeyID (j_pin job), jn_ProviderKeyID (j_pin job) with
  | Some k, _ =>
      match GetOrgProviderKeySecret (Some k) (js_OrgID (j_spec job)) with
      | Some s => match ss_Open s with
                  | Some plain =>
                      Some (mkCred None plain
                              (if bool_decide (ss_BaseUrl s = ""%string) then jr_BaseURL route
                               else ss_BaseUrl s) (Some k))
                  | None => None
                  end
      | None => None
      end
  | None, Some k =>
      match GetVideoJobProviderKey (Some k) with
      | Some s => match ss_Open s with
                  | Some plain => Some (mkCred (Some k) plain (jr_BaseURL route) None)
                  | None => None
                  end
      | None => None
      end
  | None, None => None
  end.

Definition videoRouteFor job : option (JobRoute * Credential * Mapper O R) :=
  match jn_RouteID (j_pin job) with
  | None => None
  | Some _ =>
      match GetVideoJobRoute (jn_RouteID (j_pin job)) with
      | None => None
      | Some route =>
          match MapperFor (jr_Vendor route) with
          | None => None
          | Some mapper =>
              if negb (jr_Transport route) then None
              else match credentialOfJob job route with
                   | Some cred => Some (route, cred, mapper)
                   | None => None
                   end
          end
      end
  end.

Definition doVideoCall (cred : Credential) (out : O) (withCredential : bool) : result Error (Z * R) :=
  Exchange (mkTarget (cr_BaseURL cred) (if withCredential then Some (cr_Secret cred) else None) out).

Definition okStatus (status : Z) : bool := (200 <=? status) && (status <? 300).

Definition artifact_gone (message : string) : Error := NewError GatewayArtifactGone message.

(** One hop further at most. *)
Definition fetchVideoArtifact (cred : Credential) (mapper : Mapper O R) (poll : Poll) :
    result Error (R * Artifact O) :=
  let no_longer := artifact_gone "This video is no longer available from the upstream" in
  match mp_Artifact mapper poll with
  | Err _ => Err (artifact_gone "This job has no artifact to fetch")
  | Ok art =>
      try (status, body) <- doVideoCall cred (ar_Request art) (ar_NeedsUpstreamCredential art);
      if negb (okStatus status) then Err no_longer
      else if negb (ar_Indirect art) then Ok (body, art)
      else
        match mp_ResolveArtifact mapper status body with
        | Err _ => Err (artifact_gone "This video's location could not be resolved")
        | Ok resolved =>
            if ar_Indirect resolved
            then Err (artifact_gone "This video's location could not be resolved")
            else
              try (status, body) <-
                doVideoCall cred (ar_Request resolved) (ar_NeedsUpstreamCredential resolved);
              if negb (okStatus status) then Err no_longer else Ok (body, resolved)
        end
  end.

(** ** Custody *)

(** The store: whether it takes custody, and what putting or deleting an object
    answers.  A deployment without one takes nothing and deletes happily. *)
Variable Takes : bool.
Variable PutArtifact : Job -> R -> result string string.
Variable DeleteArtifact : string -> bool.
Variable body_size : R -> Z.

Definition captureVideoArtifact w job (cred : Credential) (mapper : Mapper O R) (poll : Poll) : VideoWorld :=
  if negb Takes then w
  else
    match fetchVideoArtifact cred mapper poll with
    | Err _ => w
    | Ok (body, art) =>
        match PutArtifact job body with
        | Err _ => w
        | Ok key =>
            exec "RecordVideoJobArtifact" (RecordVideoJobArtifact key (body_size body) (ar_ContentType art))
              (with_objects w ({[key]} ∪ vw_objects w)) (j_ID job)
        end
    end.

(** ** Polling *)

Definition keepVideoHoldAlive now w job : VideoWorld :=
  match j_State job, jm_HoldExpiresAt (j_money job) with
  | Held, Some expires =>
      if 15 * 60 * Second <? expires - now then w
      else
        match ProtectHold (w_billing (vw_books w)) (js_OrgID (j_spec job)) (js_RequestID (j_spec job)) with
        | (Err _, b) => with_books w (with_billing (vw_books w) b)
        | (Ok true, b) =>
            exec "ProtectVideoJobHold" ProtectVideoJobHold (with_books w (with_billing (vw_books w) b))
              (j_ID job)
        | (Ok false, b) =>
            exec "OrphanVideoJobHold" OrphanVideoJobHold (with_books w (with_billing (vw_books w) b))
              (j_ID job)
        end
  | _, _ => w
  end.

Definition gone_upstream : Poll :=
  no_poll StatusFailed "NOT_FOUND" GatewayResourceNotFound "the upstream no longer has this job".

(** What a poll learns, [None] when the call could not be shaped, made or read. *)
Definition ask job (route : JobRoute) (cred : Credential) (mapper : Mapper O R) : option Poll :=
  match mp_Poll mapper (jl_UpstreamID (j_life job)) with
  | Err _ => None
  | Ok out =>
      match doVideoCall cred out true with
      | Err _ => None
      | Ok (status, body) =>
          match mp_PollResult mapper status body with Ok poll => Some poll | Err _ => None end
      end
  end.

(** A poll that answered. *)
Definition observe now w job (cred : Credential) (mapper : Mapper O R) (poll : Poll) : VideoWorld :=
  if po_NotFound poll then
    if fails "MarkVideoJobNotFound" (j_ID job) then w
    else
      let '(count, jobs) := MarkVideoJobNotFound now pollBaseInProgress (j_ID job) (vw_jobs w) in
      let w := with_jobs w jobs in
      match count with
      | Some n => if notFoundStrikes <=? n then terminateVideoJob now w job gone_upstream StatusExpired
                  else w
      | None => w
      end
  else if negb (Terminal (po_Status poll)) then
    exec "MarkVideoJobProgress"
      (MarkVideoJobProgress now (po_Status poll) (po_UpstreamStatus poll) (po_Progress poll)
         (nextPollDelay (po_Status poll) (jp_Attempts (j_polls job))))
      (keepVideoHoldAlive now w job) (j_ID job)
  else
    let w := terminateVideoJob now w job poll (po_Status poll) in
    if bool_decide (po_Status poll = StatusCompleted) then captureVideoArtifact w job cred mapper poll
    else w.

Definition pollVideoJob now w job : VideoWorld :=
  match videoRouteFor job with
  | None => failVideoJob now w job GatewayStateRouteUnavailable
              "the upstream that created this job is no longer configured"
  | Some (route, cred, mapper) =>
      match ask job route cred mapper with
      | None => w
      | Some poll => observe now w job cred mapper poll
      end
  end.

(** [VideoScanWorker.Work], the whole round at one instant. *)
Definition ScanWork now w : VideoWorld :=
  if fails "ClaimDueVideoJobs" "" then w
  else
    let '(batch, jobs) := ClaimDueVideoJobs now pollLease videoClaimBatch (vw_jobs w) in
    fold_left (fun w job => pollVideoJob now w job) batch (with_jobs w jobs).

(** ** The sweep *)

Definition job_running : Error :=
  NewError GatewayJobNotReady
    "This job is still running; cancel it or wait for it to finish before deleting it".
Definition job_holding : Error :=
  NewError GatewayJobNotReady
    "This job is still holding a reservation; its charge has to be settled or voided before it can be deleted".

Definition videoDeleteRefusal job : option Error :=
  if running (j_Status job) then Some job_running
  else match j_State job with Held | Protected => Some job_holding | _ => None end.

Definition VideoJobDeletable job : bool :=
  match videoDeleteRefusal job with None => true | Some _ => false end.

(** [artifacts.Delete] of a stored key; [None] when it fails. *)
Definition drop_object w job : option VideoWorld :=
  let key := ja_Key (j_film job) in
  if bool_decide (key = ""%string) then Some w
  else if DeleteArtifact key then Some (with_objects w (vw_objects w ∖ {[key]})) else None.

Definition sweep_expired w job : VideoWorld :=
  match drop_object w job with
  | None => w
  | Some w =>
      match videoDeleteRefusal job with
      | Some _ => exec "ClearVideoJobArtifact" ClearVideoJobArtifact w (j_ID job)
      | None => if fails "DeleteVideoJob" (j_ID job) then w
                else with_jobs w (DeleteVideoJob (j_ID job) (vw_jobs w))
      end
  end.

Definition expire now w job : VideoWorld :=
  terminateVideoJob now w job
    (no_poll StatusExpired (jl_UpstreamStatus (j_life job)) GatewayUpstreamTimeout
       "the upstream never finished this job") StatusExpired.

Definition fail_unsubmitted now w job : VideoWorld :=
  failVideoJob now w job GatewayInternal "the job was never submitted upstream".

(** The order in which the server returns rows nothing orders. *)
Variable order : list Job -> list Job.

(** [VideoSweepWorker.Work]; a query that fails ends the round. *)
Definition SweepWork now w : VideoWorld :=
  if fails "ListUnsubmittedVideoJobs" "" then w
  else
    let w := fold_left (fail_unsubmitted now)
               (scan order (unsubmitted now (2 * 60 * Second)) videoClaimBatch (vw_jobs w)) w in
    if fails "ListStaleVideoJobs" "" then w
    else
      let w := fold_left (expire now) (scan order (stale now) videoClaimBatch (vw_jobs w)) w in
      if fails "ListExpiredVideoJobs" "" then w
      else fold_left sweep_expired (scan order (expired now) videoClaimBatch (vw_jobs w)) w.

(** ** What a caller can do *)

Definition job_not_found : Error := NewError GatewayResourceNotFound "Video job not found".

(** [Get]; the identifier as [parseVideoJobID] reads it. *)
Definition GetJob w (orgID : uuid) (id : option string) : result Error Job :=
  match id with
  | None => Err job_not_found
  | Some id => match GetVideoJob id orgID (vw_jobs w) with Some j => Ok j | None => Err job_not_found end
  end.

Definition not_cancelable (message : string) : Error := NewError GatewayJobNotCancelable message.

(** Whether [Cancel] gets as far as asking the upstream, and its answer. *)
Definition cancel_upstream job : result Error unit :=
  if negb (running (j_Status job)) then Err (not_cancelable "This job has already finished")
  else
    match videoRouteFor job with
    | None => Err (NewError GatewayStateRouteUnavailable
                     "The upstream that created this job is no longer configured")
    | Some (route, cred, mapper) =>
        let mode := VideoCancelMode (jr_VideoEnvelope route) in
        if bool_decide (mode = CancelNever)
        then Err (not_cancelable "This model cannot cancel a job once it has been submitted")
        else if bool_decide (mode = CancelQueuedOnly) && negb (bool_decide (j_Status job = StatusQueued))
        then Err (not_cancelable "This model can only cancel a job that has not started generating")
        else
          match mp_Cancel mapper (jl_UpstreamID (j_life job)) with
          | Err why => Err (not_cancelable why)
          | Ok out =>
              try (status, _) <- doVideoCall cred out true;
              if negb (okStatus status)
              then Err (not_cancelable
                          "The upstream refused to cancel this job; it is already generating")
              else Ok tt
          end
    end.

Definition canceled_poll : Poll := no_poll StatusCanceled "canceled" "" "".

Definition Cancel now w (orgID : uuid) (id : option string) : result Error Job * VideoWorld :=
  match GetJob w orgID id with
  | Err e => (Err e, w)
  | Ok job =>
      match cancel_upstream job with
      | Err e => (Err e, w)
      | Ok _ =>
          let w := terminateVideoJob now w job canceled_poll StatusCanceled in
          (match GetJob w orgID id with
           | Ok fresh => Ok fresh
           | Err _ => let l := j_life job in
                      Ok (with_life job (mkLife StatusCanceled (jl_UpstreamID l) (jl_UpstreamStatus l)
                            (jl_Progress l) (jl_ErrorCode l) (jl_ErrorMessage l) (jl_SubmittedAt l)
                            (jl_TerminalAt l)))
           end, w)
      end
  end.

Definition Delete w (orgID : uuid) (id : option string) : result Error Job * VideoWorld :=
  match GetJob w orgID id with
  | Err e => (Err e, w)
  | Ok job =>
      match videoDeleteRefusal job with
      | Some refusal => (Err refusal, w)
      | None =>
          match drop_object w job with
          | None => (Err (NewError GatewayInternal "The artifact could not be deleted"), w)
          | Some w =>
              if fails "DeleteVideoJob" (j_ID job)
              then (Err (NewError GatewayInternal "The job could not be deleted"), w)
              else (Ok job, with_jobs w (DeleteVideoJob (j_ID job) (vw_jobs w)))
          end
      end
  end.

(** [OpenContent]; [OpenArtifact] answers the stored bytes, that they are gone
    ([Ok None]), or an error. *)
Variable OpenArtifact : string -> result string (option R).

Definition openUpstreamArtifact job : result Error R :=
  let gone := artifact_gone "This video is no longer available" in
  if bool_decide (ja_UpstreamRef (j_film job) = ""%string)
  then Err (artifact_gone "This video is no longer stored")
  else
    match videoRouteFor job with
    | None => Err gone
    | Some (route, cred, mapper) =>
        let poll := mkPoll StatusQueued "" 0 "" "" false (ja_UpstreamRef (j_film job))
                      (ja_ContentType (j_film job)) in
        match fetchVideoArtifact cred mapper poll with Ok (body, _) => Ok body | Err _ => Err gone end
    end.

Definition OpenContent w (orgID : uuid) (id : option string) : result Error R :=
  try job <- GetJob w orgID id;
  if negb (bool_decide (j_Status job = StatusCompleted))
  then Err (NewError GatewayJobNotReady "This job has not produced a video")
  else if bool_decide (ja_Key (j_film job) = ""%string) then openUpstreamArtifact job
  else match OpenArtifact (ja_Key (j_film job)) with
       | Ok (Some body) => Ok body
       | Ok None => openUpstreamArtifact job
       | Err _ => Err (NewError GatewayInternal "The video could not be read")
       end.
End worker.
Arguments mkVideo {B}.
Arguments vw_books {B}.
Arguments vw_jobs {B}.
Arguments vw_objects {B}.
