(* ===== verification/VideoLife.v ===== *)
(** * The life of a video job under every interleaving

    Pollers, sweepers, the submitting request and the caller's own calls run side
    by side, each on the copy of the row it read.  [vstep] has one constructor per
    statement, transaction or money operation any of them performs, on any row any
    of them has in hand; the handlers of [VideoWorker.v] are shown to be sequences
    of such steps, and the theorems hold of every reachable state. *)
From S2P Require Import Prelude GoStr BreakerStore Rational PriceTable Pricing UnitPricing Surfaces Usage.
From S2P Require Import Catalog Errors Guard Billing Rotation Ledger Credentials Settlement Envelope VideoJobs.
From S2P Require Import VideoWorker.

Open Scope Z_scope.

(** ** Rows over time *)

(** Where the money of a row can still go. *)
Definition later (a b : SettlementState) : Prop :=
  match a with
  | Held => True
  | Protected => b <> Held
  | Orphaned => b = Orphaned \/ b = Settled
  | Settled => b = Settled
  | Voided => b = Voided
  end.

Lemma later_refl a : later a a.
Proof. destruct a; cbn; auto; discriminate. Qed.
Lemma later_trans a b c : later a b -> later b c -> later a c.
Proof. destruct a, b, c; cbn; naive_solver. Qed.
#[export] Hint Resolve later_refl : fairlb.

(** A row changed by a statement that settles nothing. *)
Definition quiet_row (j j' : Job) : Prop :=
  j_spec j' = j_spec j /\ later (j_State j) (j_State j') /\
  (j_State j' = Settled -> j_State j = Settled).

Lemma quiet_row_refl j : quiet_row j j.
Proof. split_and!; auto with fairlb. Qed.
Lemma quiet_row_trans a b c : quiet_row a b -> quiet_row b c -> quiet_row a c.
Proof.
  intros (S1 & L1 & T1) (S2 & L2 & T2). split_and!; [congruence|by eapply later_trans|auto].
Qed.

(** Rows may vanish, none appears. *)
Definition quiet_jobs (jobs jobs' : Jobs) : Prop :=
  forall id j', jobs' !! id = Some j' -> exists j, jobs !! id = Some j /\ quiet_row j j'.

Lemma quiet_jobs_refl jobs : quiet_jobs jobs jobs.
Proof. intros id j Hj. exists j. split; [done|apply quiet_row_refl]. Qed.
Lemma quiet_jobs_trans a b c : quiet_jobs a b -> quiet_jobs b c -> quiet_jobs a c.
Proof.
  intros H1 H2 id j Hj. destruct (H2 _ _ Hj) as (j1 & Hj1 & Q1).
  destruct (H1 _ _ Hj1) as (j2 & Hj2 & Q2). exists j2. split; [done|by eapply quiet_row_trans].
Qed.

Lemma update_quiet f id jobs :
  (forall j j', f j = Some j' -> quiet_row j j') -> quiet_jobs jobs (update_job f id jobs).2.
Proof.
  intros Hf. unfold update_job. destruct (jobs !! id) as [j|] eqn:E; cbn; [|apply quiet_jobs_refl].
  destruct (f j) as [j'|] eqn:Ef; cbn; [|apply quiet_jobs_refl].
  intros k r. destruct (decide (k = id)) as [->|Hne].
  - rewrite lookup_insert_eq. intros [= <-]. exists j. auto.
  - rewrite lookup_insert_ne by done. intros Hk. exists r. split; [done|apply quiet_row_refl].
Qed.

(** The statements outside the terminal transaction. *)
Inductive quiet_query : (string -> Jobs -> Z * Jobs) -> Prop :=
  | q_protect : quiet_query ProtectVideoJobHold
  | q_orphan : quiet_query OrphanVideoJobHold
  | q_progress now status up progress after :
      running status = true -> quiet_query (MarkVideoJobProgress now status up progress after)
  | q_submitted now up after : quiet_query (MarkVideoJobSubmitted now up after)
  | q_artifact key bytes ct : quiet_query (RecordVideoJobArtifact key bytes ct)
  | q_clear : quiet_query ClearVideoJobArtifact.

Ltac quiet_case :=
  apply update_quiet; let E := fresh in intros j j' E; unfold quiet_row, j_State in *;
  repeat case_match; simplify_eq; cbn; split_and!;
  try match goal with H : jm_State _ = _ |- _ => rewrite H end; cbn; auto with fairlb; discriminate.

Lemma quiet_query_jobs q id jobs : quiet_query q -> quiet_jobs jobs (q id jobs).2.
Proof.
  intros [].
  - unfold ProtectVideoJobHold. quiet_case.
  - unfold OrphanVideoJobHold. quiet_case.
  - unfold MarkVideoJobProgress. quiet_case.
  - unfold MarkVideoJobSubmitted. quiet_case.
  - unfold RecordVideoJobArtifact. quiet_case.
  - unfold ClearVideoJobArtifact. quiet_case.
Qed.

(** ** Steps *)

Section life.
Context {B : Type} `{SettlerLaws B}.
Variable NumericScan : bytes -> option bytes.

(** [vs_hand]: every copy of a row some handler has read. *)
Record VState := mkVState { vs_now : Z; vs_world : VideoWorld (B := B); vs_hand : list Job }.
Implicit Types (s : VState) (j : Job) (w : World B).

Definition jobs_of s : Jobs := vw_jobs (vs_world s).
Definition usage_of s : list UsageRow := w_usage (vw_books (vs_world s)).
Definition request_of j : string := js_RequestID (j_spec j).

(** A row that is stored or that somebody holds a copy of. *)
Definition known s j : Prop := j ∈ vs_hand s \/ jobs_of s !! j_ID j = Some j.

(** The rows of the log that charge a request. *)
Definition charges (r : string) (usage : list UsageRow) : list UsageRow :=
  List.filter (fun u => bool_decide (ul_RequestID u = r) && negb (ul_ChargedNano u =? 0)) usage.

(** Identifiers are minted, never reused. *)
Definition fresh s (spec : JobSpec) : Prop :=
  (forall j, known s j -> j_ID j <> js_ID spec /\ request_of j <> js_RequestID spec) /\
  charges (js_RequestID spec) (usage_of s) = [].

Definition set_world s (w : VideoWorld) : VState := mkVState (vs_now s) w (vs_hand s).
Definition set_jobs s (jobs : Jobs) : VState := set_world s (with_jobs (vs_world s) jobs).

(** What ends a job: the status and the amount it goes with. *)
Definition due_amount j (status : JobStatus) : Z :=
  if bool_decide (status = StatusCompleted) then js_HoldNano (j_spec j) else 0.

(** [ON DELETE SET NULL]. *)
Definition unpinned (p p' : Pin) : Prop :=
  (jn_RouteID p' = jn_RouteID p \/ jn_RouteID p' = None) /\
  (jn_ProviderID p' = jn_ProviderID p \/ jn_ProviderID p' = None) /\
  (jn_ProviderKeyID p' = jn_ProviderKeyID p \/ jn_ProviderKeyID p' = None) /\
  (jn_OrgProviderKeyID p' = jn_OrgProviderKeyID p \/ jn_OrgProviderKeyID p' = None).

Inductive vstep : VState -> VState -> Prop :=
  | v_tick s t : vs_now s <= t -> vstep s (mkVState t (vs_world s) (vs_hand s))
  | v_read s id j :
      jobs_of s !! id = Some j -> vstep s (mkVState (vs_now s) (vs_world s) (j :: vs_hand s))
  | v_create s spec pin expires j jobs :
      fresh s spec -> CreateVideoJob spec pin expires (vs_now s) (jobs_of s) = Some (j, jobs) ->
      vstep s (mkVState (vs_now s) (with_jobs (vs_world s) jobs) (j :: vs_hand s))
  | v_billing s b :   (** a reservation, a release, a protection *)
      (forall k, spent b k = spent (w_billing (vw_books (vs_world s))) k) ->
      vstep s (set_world s (with_books (vs_world s) (with_billing (vw_books (vs_world s)) b)))
  | v_free_row s row :
      ul_ChargedNano row = 0 ->
      vstep s (set_world s (with_books (vs_world s) (add_usage (vw_books (vs_world s)) row)))
  | v_objects s o : vstep s (set_world s (with_objects (vs_world s) o))
  | v_query s q id : quiet_query q -> vstep s (set_jobs s (q id (jobs_of s)).2)
  | v_not_found s after id : vstep s (set_jobs s (MarkVideoJobNotFound (vs_now s) after id (jobs_of s)).2)
  | v_claim s lease lim batch jobs :
      ClaimDueVideoJobs (vs_now s) lease lim (jobs_of s) = (batch, jobs) ->
      vstep s (mkVState (vs_now s) (with_jobs (vs_world s) jobs) (batch ++ vs_hand s))
  | v_unpin s id j pin :   (** a route or a credential is deleted *)
      jobs_of s !! id = Some j -> unpinned (j_pin j) pin -> vstep s (set_jobs s (<[id := with_pin j pin]> (jobs_of s)))
  | v_terminal s fails j poll status :
      j ∈ vs_hand s ->
      vstep s (set_world s (terminal_tx NumericScan fails (vs_now s) (vs_world s) j poll status
                              (due_amount j status)))
  | v_fail s fails j code message :
      j ∈ vs_hand s -> vstep s (set_world s (fail_tx fails (vs_now s) (vs_world s) j code message))
  | v_delete s j :
      j ∈ vs_hand s -> videoDeleteRefusal j = None ->
      vstep s (set_jobs s (DeleteVideoJob (j_ID j) (jobs_of s))).

(** ** The invariant *)

Record life_inv (spent0 : string -> Z) (usage0 : list UsageRow) s : Prop := {
  iv_key : forall id j, jobs_of s !! id = Some j -> j_ID j = id;
  iv_spec : forall j j', known s j -> known s j' -> j_ID j = j_ID j' \/ request_of j = request_of j' ->
    j_spec j = j_spec j';
  iv_state : forall j j', j ∈ vs_hand s -> jobs_of s !! j_ID j = Some j' -> later (j_State j) (j_State j');
  iv_hold : forall j, known s j -> 0 <= js_HoldNano (j_spec j);
  iv_once : forall j, known s j ->
    charges (request_of j) (usage_of s) = [] \/
    exists u, charges (request_of j) (usage_of s) = [u] /\
      ul_ChargedNano u = js_HoldNano (j_spec j) /\ ul_ApiKeyID u = js_ApiKeyID (j_spec j);
  iv_settled : forall id j, jobs_of s !! id = Some j ->
    (charges (request_of j) (usage_of s) = [] <-> j_State j <> Settled \/ js_HoldNano (j_spec j) = 0);
  iv_money : forall k,
    spent (w_billing (vw_books (vs_world s))) k - spent0 k <= charged_to k (usage_of s) - charged_to k usage0;
}.

Lemma charges_app r l1 l2 : charges r (l1 ++ l2) = charges r l1 ++ charges r l2.
Proof using. unfold charges. apply filter_app. Qed.

Lemma charges_free r rows : Forall (fun u => ul_ChargedNano u = 0) rows -> charges r rows = [].
Proof using.
  induction 1 as [|u rows Hu _ IH]; [done|]. unfold charges in *. cbn [List.filter].
  rewrite Hu. cbn. by rewrite andb_false_r.
Qed.

Lemma charged_free k rows : Forall (fun u => ul_ChargedNano u = 0) rows -> charged_to k rows = 0.
Proof using.
  induction 1 as [|u rows Hu _ IH]; [done|]. unfold charged_to in *. cbn [fold_right].
  rewrite Hu, IH. by destruct (bool_decide _).
Qed.

(** A step that settles nothing. *)
Lemma inv_quiet spent0 usage0 s s' rows :
  life_inv spent0 usage0 s ->
  quiet_jobs (jobs_of s) (jobs_of s') ->
  (forall j, j ∈ vs_hand s' -> j ∈ vs_hand s \/ jobs_of s' !! j_ID j = Some j) ->
  usage_of s' = usage_of s ++ rows -> Forall (fun u => ul_ChargedNano u = 0) rows ->
  (forall k, spent (w_billing (vw_books (vs_world s'))) k = spent (w_billing (vw_books (vs_world s))) k) ->
  life_inv spent0 usage0 s'.
Proof using.
  intros [Ik Is It Ih Io Ie Im] Hq Hh Hu Hf Hs.
  assert (Hc : forall r, charges r (usage_of s') = charges r (usage_of s)).
  { intros r. by rewrite Hu, charges_app, (charges_free r rows Hf), app_nil_r. }
  assert (Hk : forall id j, jobs_of s' !! id = Some j ->
    exists j0, jobs_of s !! id = Some j0 /\ j_ID j0 = id /\ quiet_row j0 j).
  { intros id j Hj. destruct (Hq _ _ Hj) as (j0 & Hj0 & Q). exists j0. by rewrite (Ik _ _ Hj0). }
  assert (Hold : forall j, known s' j -> exists j0, known s j0 /\ j_spec j = j_spec j0).
  { intros j Hj. assert (Hj' : j ∈ vs_hand s \/ jobs_of s' !! j_ID j = Some j).
    { destruct Hj as [Hj|Hj]; [by apply Hh|by right]. }
    destruct Hj' as [Hj'|Hj']; [exists j; split; [by left|done]|].
    destruct (Hk _ _ Hj') as (j0 & Hj0 & Hid & Q & _). exists j0. split; [|done].
    right. by rewrite Hid. }
  split.
  - intros id j Hj. destruct (Hk _ _ Hj) as (j0 & _ & Hid & Q & _). unfold j_ID in *. by rewrite Q.
  - intros j j' Hj Hj' Hsame. destruct (Hold _ Hj) as (k & Hkk & E), (Hold _ Hj') as (k' & Hkk' & E').
    rewrite E, E'. apply Is; try done. unfold j_ID, request_of in *. by rewrite <- E, <- E'.
  - intros j j' Hj Hj'. destruct (Hh _ Hj) as [Hin|Hst]; [|replace j' with j by congruence; auto with fairlb].
    destruct (Hk _ _ Hj') as (j0 & Hj0 & _ & _ & L & _). eapply later_trans; [|exact L]. by apply It.
  - intros j Hj. destruct (Hold _ Hj) as (j0 & Hj0 & ->). by apply Ih.
  - intros j Hj. destruct (Hold _ Hj) as (j0 & Hj0 & E). unfold request_of. rewrite Hc, E. by apply Io.
  - intros id j Hj. destruct (Hk _ _ Hj) as (j0 & Hj0 & _ & Q & L & T).
    unfold request_of. rewrite Hc, Q. rewrite (Ie _ _ Hj0).
    assert (j_State j = Settled <-> j_State j0 = Settled); [|tauto].
    split; [done|]. intros E. rewrite E in L. exact L.
  - intros k. rewrite Hs, Hu, charged_to_app, (charged_free k rows Hf). specialize (Im k). lia.
Qed.

(** *** Every step preserves it *)

Lemma quiet_terminal now status p id jobs : quiet_jobs jobs (MarkVideoJobTerminal now status p id jobs).2.
Proof using. unfold MarkVideoJobTerminal. quiet_case. Qed.

Lemma quiet_void id jobs : quiet_jobs jobs (VoidVideoJob id jobs).2.
Proof using. unfold VoidVideoJob. quiet_case. Qed.

Lemma quiet_insert id j j' jobs : jobs !! id = Some j -> quiet_row j j' -> quiet_jobs jobs (<[id := j']> jobs).
Proof using.
  intros Hj Q k r. destruct (decide (k = id)) as [->|Hne].
  - rewrite lookup_insert_eq. intros [= <-]. by exists j.
  - rewrite lookup_insert_ne by done. intros Hk. exists r. split; [done|apply quiet_row_refl].
Qed.

Lemma quiet_delete id jobs : quiet_jobs jobs (DeleteVideoJob id jobs).
Proof using.
  intros k r. unfold DeleteVideoJob. intros [_ Hk]%lookup_delete_Some. exists r.
  split; [done|apply quiet_row_refl].
Qed.

Lemma quiet_not_found now after id jobs : quiet_jobs jobs (MarkVideoJobNotFound now after id jobs).2.
Proof using.
  unfold MarkVideoJobNotFound. destruct (jobs !! id) as [j|] eqn:E; [|apply quiet_jobs_refl]. cbn [snd].
  apply (quiet_insert id j); [done|]. split_and!; cbn; auto with fairlb.
Qed.

Lemma unsettled_books f w requestID id quote params cause :
  w_billing (RecordUnsettled f w requestID id quote params cause) = w_billing w /\
  w_usage (RecordUnsettled f w requestID id quote params cause) = w_usage w.
Proof using.
  unfold RecordUnsettled. destruct (EncodeUsageReplayPayload params); [|done]. by destruct (f_unsettled f).
Qed.

(** The transaction of [failVideoJob]. *)
Lemma fail_quiet fails now (vw : VideoWorld (B := B)) j code message :
  vw_books (fail_tx fails now vw j code message) = vw_books vw /\
  quiet_jobs (vw_jobs vw) (vw_jobs (fail_tx fails now vw j code message)).
Proof using.
  unfold fail_tx. destruct (fails "terminal transaction" _); [split; [done|apply quiet_jobs_refl]|].
  destruct (MarkVideoJobTerminal _ _ _ _ _) as [n1 jobs1] eqn:E1.
  destruct (VoidVideoJob _ _) as [n2 jobs2] eqn:E2.
  destruct (fails "commit" _); split; try done; [apply quiet_jobs_refl|]. cbn [with_jobs vw_jobs].
  eapply quiet_jobs_trans.
  - exact (eq_ind _ (quiet_jobs (vw_jobs vw)) (quiet_terminal _ _ _ _ _) _ (f_equal snd E1)).
  - exact (eq_ind _ (quiet_jobs jobs1) (quiet_void _ _) _ (f_equal snd E2)).
Qed.

(** The batch a claim returns are the rows as it left them. *)
Lemma claim_writes batch (jobs : Jobs) k r :
  fold_left (fun (jobs : Jobs) j => <[j_ID j := j]> jobs) batch jobs !! k = Some r ->
  r ∈ batch /\ j_ID r = k \/ jobs !! k = Some r.
Proof using.
  revert jobs. induction batch as [|b batch IH]; intros jobs Hk; [by right|].
  apply IH in Hk as [[Hr Hid]|Hk]; [left; split; [by right|done]|].
  destruct (decide (k = j_ID b)) as [->|Hne].
  - rewrite lookup_insert_eq in Hk. injection Hk as <-. left. split; [left|done].
  - rewrite lookup_insert_ne in Hk by done. by right.
Qed.

Lemma claim_keeps batch (jobs : Jobs) b :
  NoDup (j_ID <$> batch) -> b ∈ batch ->
  fold_left (fun (jobs : Jobs) j => <[j_ID j := j]> jobs) batch jobs !! j_ID b = Some b.
Proof using.
  revert jobs. induction batch as [|a batch IH]; intros jobs Hd Hb; [by apply not_elem_of_nil in Hb|].
  cbn [fmap list_fmap] in Hd. apply list.NoDup_cons in Hd as [Ha Hd]. cbn [fold_left].
  apply elem_of_cons in Hb as [->|Hb]; [|by apply IH].
  assert (Hk : forall jobs : Jobs, jobs !! j_ID a = Some a ->
    fold_left (fun (jobs : Jobs) j => <[j_ID j := j]> jobs) batch jobs !! j_ID a = Some a).
  { clear -Ha. induction batch as [|c batch IH]; intros jobs Hj; [done|]. cbn [fold_left]. apply IH.
    - intros Hin. apply Ha. by right.
    - rewrite lookup_insert_ne; [done|]. intros E. apply Ha. rewrite <- E. left. }
  apply Hk, lookup_insert_eq.
Qed.

Lemma stored_ids (jobs : Jobs) :
  (forall id j, jobs !! id = Some j -> j_ID j = id) -> NoDup (j_ID <$> (map_to_list jobs).*2).
Proof using.
  intros Hk. replace (j_ID <$> (map_to_list jobs).*2) with (map_to_list jobs).*1; [apply NoDup_fst_map_to_list|].
  rewrite <- list_fmap_compose. apply list_fmap_ext. intros i [id j] Hi. cbn.
  symmetry. apply Hk, elem_of_map_to_list. by eapply list_elem_of_lookup_2.
Qed.

Lemma claim_quiet now lease lim jobs batch jobs' :
  (forall id j, jobs !! id = Some j -> j_ID j = id) ->
  ClaimDueVideoJobs now lease lim jobs = (batch, jobs') ->
  quiet_jobs jobs jobs' /\ forall b, b ∈ batch -> jobs' !! j_ID b = Some b.
Proof using.
  intros Hk. unfold ClaimDueVideoJobs.
  set (rows := firstn lim (SortFunc by_due (List.filter (due now) (map_to_list jobs).*2))).
  assert (Hrows : forall j, j ∈ rows -> jobs !! j_ID j = Some j).
  { intros j Hj. apply (sublist_subseteq _ _ (sublist_take _ _)) in Hj. rewrite SortFunc_perm in Hj.
    apply list_elem_of_In, filter_In in Hj as [Hj _]. apply list_elem_of_In in Hj.
    apply list_elem_of_fmap in Hj as ([id j'] & -> & Hj). apply elem_of_map_to_list in Hj. cbn.
    by rewrite (Hk _ _ Hj). }
  assert (Hd : NoDup (j_ID <$> rows)).
  { unfold rows. eapply sublist_NoDup; [|apply fmap_sublist, sublist_take].
    rewrite SortFunc_perm, filter_is_filter.
    eapply sublist_NoDup; [apply (stored_ids jobs Hk)|]. apply fmap_sublist, sublist_filter. }
  intros [= <- <-]. split.
  - intros k r [[Hr Hid]|Hr]%claim_writes; [|exists r; split; [done|apply quiet_row_refl]].
    apply list_elem_of_In, in_map_iff in Hr as (j & <- & Hj). apply list_elem_of_In, Hrows in Hj.
    exists j. split; [by rewrite <- Hid|]. split_and!; cbn; auto with fairlb.
  - intros b Hb. apply claim_keeps; [|done].
    replace (j_ID <$> map (claimed now lease) rows) with (j_ID <$> rows); [done|].
    change (map (claimed now lease) rows) with (claimed now lease <$> rows).
    rewrite <- list_fmap_compose. by apply list_fmap_ext.
Qed.

(** What the terminal transaction leaves: a row that settles nothing, or the one
    settlement of a row that was not settled. *)
Definition idle (vw vw' : VideoWorld (B := B)) : Prop :=
  quiet_jobs (vw_jobs vw) (vw_jobs vw') /\
  (forall k, spent (w_billing (vw_books vw')) k = spent (w_billing (vw_books vw)) k) /\
  exists rows, w_usage (vw_books vw') = w_usage (vw_books vw) ++ rows /\
    Forall (fun u => ul_ChargedNano u = 0) rows.

Definition charged_now (vw vw' : VideoWorld (B := B)) j : Prop :=
  exists j0 j1 row,
    vw_jobs vw !! j_ID j = Some j0 /\ running (j_Status j0) = true /\
    vw_jobs vw' = <[j_ID j := j1]> (vw_jobs vw) /\
    j_spec j1 = j_spec j0 /\ j_State j0 <> Settled /\ j_State j0 <> Voided /\ j_State j1 = Settled /\
    w_usage (vw_books vw') = w_usage (vw_books vw) ++ [row] /\
    ul_RequestID row = request_of j /\ ul_ChargedNano row = js_HoldNano (j_spec j) /\
    ul_ApiKeyID row = js_ApiKeyID (j_spec j) /\
    forall k, spent (w_billing (vw_books vw')) k <= spent (w_billing (vw_books vw)) k
                + (if bool_decide (js_ApiKeyID (j_spec j) = Some k)
                   then Z.max 0 (js_HoldNano (j_spec j)) else 0).

Lemma idle_refl vw : idle vw vw.
Proof using.
  split_and!; [apply quiet_jobs_refl|done|]. exists []. by rewrite app_nil_r.
Qed.

Lemma settle_after_terminal now poll charged id jobs n1 n2 jobs1 jobs2 :
  MarkVideoJobTerminal now StatusCompleted poll id jobs = (n1, jobs1) -> n1 <> 0 ->
  SettleVideoJob charged id jobs1 = (n2, jobs2) -> n2 <> 0 ->
  exists j0 j1, jobs !! id = Some j0 /\ running (j_Status j0) = true /\ jobs2 = <[id := j1]> jobs /\
    j_spec j1 = j_spec j0 /\ j_State j0 <> Settled /\ j_State j0 <> Voided /\ j_State j1 = Settled.
Proof using.
  unfold MarkVideoJobTerminal, SettleVideoJob, update_job.
  destruct (jobs !! id) as [j0|] eqn:E; cbn [mbind option_bind]; [|by intros [= <- <-]].
  destruct (running (j_Status j0)) eqn:Er; [|by intros [= <- <-]].
  intros [= <- <-] _. rewrite lookup_insert_eq. cbn [mbind option_bind].
  match goal with |- context [j_State ?x] => change (j_State x) with (j_State j0) end.
  destruct (j_State j0) eqn:Es; intros [= <- <-] Hn; try done;
    (exists j0; eexists; split_and!; [done|done|by rewrite insert_insert_eq|done|congruence|congruence|done]).
Qed.

Lemma terminal_cases fails now vw j poll status :
  idle vw (terminal_tx NumericScan fails now vw j poll status (due_amount j status)) \/
  charged_now vw (terminal_tx NumericScan fails now vw j poll status (due_amount j status)) j.
Proof using.
  unfold terminal_tx. destruct (fails "terminal transaction" _); [left; apply idle_refl|].
  destruct (MarkVideoJobTerminal _ _ _ _ _) as [n1 jobs1] eqn:E1.
  destruct (Z.eqb_spec n1 0) as [|Hn1]; [left; apply idle_refl|].
  assert (Q1 : quiet_jobs (vw_jobs vw) jobs1)
    by exact (eq_ind _ (quiet_jobs (vw_jobs vw)) (quiet_terminal _ _ _ _ _) _ (f_equal snd E1)).
  unfold due_amount. destruct (bool_decide_reflect (status = StatusCompleted)) as [->|Hns].
  - destruct (SettleVideoJob _ _ _) as [n2 jobs2] eqn:E2.
    destruct (Z.eqb_spec n2 0) as [|Hn2]; [left; apply idle_refl|].
    destruct (settle_after_terminal _ _ _ _ _ _ _ _ _ E1 Hn1 E2 Hn2)
      as (j0 & j1 & Hj0 & Hr & -> & Hs1 & Hs2 & Hs3 & Hs4).
    set (row := videoUsageLogParams NumericScan now j poll StatusCompleted (js_HoldNano (j_spec j))).
    case_bool_decide as Ho.
    + match goal with |- context [recordVideoUnsettled ?a ?b ?c ?d ?e ?f] =>
        destruct (unsettled_books (mkFaults false false (b "RecordUnsettled"%string (j_ID e)) false false
          false false) d (js_RequestID (j_spec e))
          (mkIdentity (js_ApiKeyID (j_spec e)) (js_OrgID (j_spec e)) None "" false [] 0 "" 0 0 0 0 0 "" [] "" None)
          (mkQuote 0 f 0 0 0 [])
          (videoUsageLogParams a c e (no_poll StatusQueued "" "" "") StatusCompleted f)
          "the reservation was reclaimed before the job finished") as [Hb Hu];
        change (RecordUnsettled _ _ _ _ _ _ _) with (recordVideoUnsettled a b c d e f) in Hb, Hu;
        set (books := recordVideoUnsettled a b c d e f) in *
      end.
      destruct (fails "commit" _).
      * left. split_and!; [apply quiet_jobs_refl| |exists []]; cbn; [by rewrite Hb|by rewrite Hu, app_nil_r].
      * right. exists j0, j1, row. split_and!; try done; cbn; [by rewrite Hu|].
        intros k. rewrite Hb. destruct (bool_decide _); lia.
    + destruct (SettleTx _ _) as [b|] eqn:Eb; [|left; apply idle_refl].
      destruct (fails "commit" _); [left; apply idle_refl|].
      right. exists j0, j1, row. split_and!; try done. intros k. cbn.
      rewrite (settle_spent _ _ _ k Eb). cbn. lia.
  - destruct (fails "commit" _); [left; apply idle_refl|]. left. split_and!.
    + eapply quiet_jobs_trans; [exact Q1|apply quiet_void].
    + done.
    + eexists [_]. split; [done|]. by repeat constructor.
Qed.

Lemma charges_snoc r usage row :
  charges r (usage ++ [row]) =
  charges r usage ++ (if bool_decide (ul_RequestID row = r) && negb (ul_ChargedNano row =? 0)
                      then [row] else []).
Proof using. rewrite charges_app. unfold charges at 2. cbn [List.filter]. by destruct (_ && _). Qed.

(** The one settlement. *)
Lemma inv_charge spent0 usage0 s vw' j :
  life_inv spent0 usage0 s -> j ∈ vs_hand s -> charged_now (vs_world s) vw' j ->
  life_inv spent0 usage0 (set_world s vw').
Proof using.
  intros [Ik Is It Ih Io Ie Im] Hin
    (j0 & j1 & row & Hj0 & _ & Hjobs & Hs1 & Hns & Hnv & Hst & Hu & Hrr & Hrc & Hrk & Hsp).
  change (vw_jobs (vs_world s)) with (jobs_of s) in *. change (w_usage (vw_books (vs_world s))) with (usage_of s) in *.
  assert (K0 : known s j0) by (right; by rewrite (Ik _ _ Hj0)).
  assert (Kj : known s j) by by left.
  assert (Ej : j_spec j = j_spec j0) by (apply Is; try done; left; symmetry; by apply Ik).
  assert (Hsame : forall k r, <[j_ID j := j1]> (jobs_of s) !! k = Some r ->
    exists r0, jobs_of s !! k = Some r0 /\ j_spec r = j_spec r0 /\ (k = j_ID j /\ r = j1 \/ k <> j_ID j /\ r = r0)).
  { intros k r. destruct (decide (k = j_ID j)) as [->|Hne].
    - rewrite lookup_insert_eq. intros [= <-]. exists j0. auto.
    - rewrite lookup_insert_ne by done. intros Hr. exists r. auto. }
  assert (Hold : forall r, known (set_world s vw') r -> exists r0, known s r0 /\ j_spec r = j_spec r0).
  { intros r [Hr|Hr]; [by exists r; split; [left|]|]. unfold jobs_of in Hr. cbn in Hr. rewrite Hjobs in Hr.
    apply Hsame in Hr as (r0 & Hr0 & E & _). exists r0. split; [|done]. right. by rewrite (Ik _ _ Hr0). }
  assert (Hc0 : charges (request_of j) (usage_of s) = []).
  { unfold request_of. rewrite Ej. apply (Ie _ _ Hj0). by left. }
  assert (Hc : forall r, charges r (usage_of s ++ [row]) =
    charges r (usage_of s) ++ (if bool_decide (request_of j = r) && negb (js_HoldNano (j_spec j) =? 0)
                               then [row] else [])).
  { intros r. by rewrite charges_snoc, Hrr, Hrc. }
  split; unfold jobs_of, usage_of; cbn [set_world vs_world vs_hand]; rewrite ?Hjobs, ?Hu.
  - intros k r (r0 & Hr0 & E & _)%Hsame. unfold j_ID. rewrite E. by apply Ik.
  - intros r r' (r0 & K & E)%Hold (r0' & K' & E')%Hold Hor. unfold j_ID, request_of in *.
    rewrite E, E' in *. by apply Is.
  - intros r r' Hr (r0 & Hr0 & E & [[Hid ->]|[_ ->]])%Hsame; [|by apply It].
    rewrite Hst. pose proof (It _ _ Hr Hr0) as L. rewrite Hid, Hj0 in Hr0. injection Hr0 as <-.
    destruct (j_State r); cbn in *; auto; discriminate || congruence.
  - intros r (r0 & K & E)%Hold. rewrite E. by apply Ih.
  - intros r (r0 & K & E)%Hold. unfold request_of. rewrite E. fold (request_of r0). rewrite Hc.
    case_bool_decide as Hq; cbn [andb].
    + assert (E' : j_spec r0 = j_spec j) by (apply Is; auto).
      rewrite <- Hq, Hc0, E'. cbn [app].
      destruct (negb _); [right; by exists row|by left].
    + rewrite app_nil_r. by apply Io.
  - intros k r (r0 & Hr0 & E & Hor)%Hsame. unfold request_of. rewrite E. fold (request_of r0). rewrite Hc.
    assert (Kr : known s r0) by (right; by rewrite (Ik _ _ Hr0)).
    case_bool_decide as Hq; cbn [andb].
    + assert (E' : j_spec r0 = j_spec j) by (apply Is; auto).
      assert (k = j_ID j) as ->.
      { rewrite <- (Ik _ _ Hr0). unfold j_ID. by rewrite E'. }
      assert (r0 = j0) as -> by congruence. assert (r = j1) as ->.
      { by destruct Hor as [[_ ->]|[? ->]]. }
      rewrite <- Hq, Hc0, E', Hst. cbn [app]. destruct (Z.eqb_spec (js_HoldNano (j_spec j)) 0); cbn; naive_solver.
    + rewrite app_nil_r. rewrite (Ie _ _ Hr0). destruct Hor as [[-> ->]|[_ ->]]; [|done].
      exfalso. apply Hq. rewrite Hj0 in Hr0. injection Hr0 as <-. unfold request_of. by rewrite Ej.
  - intros k. rewrite charged_to_app. cbn [charged_to fold_right]. rewrite Hrk, Hrc.
    specialize (Im k). specialize (Hsp k). lia.
Qed.

(** A new row: nobody knows its identifier or its request. *)
Lemma inv_create spent0 usage0 s spec pin expires j jobs :
  life_inv spent0 usage0 s -> fresh s spec ->
  CreateVideoJob spec pin expires (vs_now s) (jobs_of s) = Some (j, jobs) ->
  life_inv spent0 usage0 (mkVState (vs_now s) (with_jobs (vs_world s) jobs) (j :: vs_hand s)).
Proof using.
  intros [Ik Is It Ih Io Ie Im] (Hnew & Hnc). unfold CreateVideoJob.
  destruct (row_checks spec pin) eqn:Hchk; [cbn [negb orb]|done]. destruct (existsb _ _); [done|].
  assert (Hpos : 0 <= js_HoldNano spec) by (unfold row_checks in Hchk; lia). set (j0 := created _ _ _ _).
  assert (Sj : j_spec j0 = spec) by done. assert (Stj : j_State j0 = Held) by done. clearbody j0.
  intros [= <- <-].
  set (s' := mkVState _ _ _).
  assert (Hk : forall r, known s' r -> r = j0 \/ known s r /\ j_ID r <> js_ID spec).
  { intros r [[->|Hr]%elem_of_cons|Hr]; [by left|right|].
    - split; [by left|]. apply Hnew. by left.
    - unfold jobs_of in Hr. cbn in Hr. destruct (decide (j_ID r = js_ID spec)) as [E|Hne].
      + rewrite E, lookup_insert_eq in Hr. injection Hr as <-. by left.
      + rewrite lookup_insert_ne in Hr by done. right. split; [by right|done]. }
  assert (Hl : forall k r, jobs_of s' !! k = Some r -> k = js_ID spec /\ r = j0 \/
    k <> js_ID spec /\ jobs_of s !! k = Some r).
  { intros k r. unfold jobs_of. cbn. destruct (decide (k = js_ID spec)) as [->|Hne].
    - rewrite lookup_insert_eq. intros [= <-]. by left.
    - rewrite lookup_insert_ne by done. by right. }
  assert (Hkn : forall k r, jobs_of s !! k = Some r -> known s r)
    by (intros k r Hr; right; by rewrite (Ik _ _ Hr)).
  assert (Hid : j_ID j0 = js_ID spec) by (unfold j_ID; by rewrite Sj).
  assert (Hrq : request_of j0 = js_RequestID spec) by (unfold request_of; by rewrite Sj).
  split.
  - intros k r [[-> ->]|[_ Hr]]%Hl; [done|by apply Ik].
  - intros r r' [->|[Hr Hn]]%Hk [->|[Hr' Hn']]%Hk; [done| | |by apply Is]; rewrite Hid, Hrq; intros [E|E].
    + by rewrite E in Hn'.
    + by destruct (Hnew _ Hr') as [_ []].
    + done.
    + by destruct (Hnew _ Hr) as [_ []].
  - intros r r' Hr [[E ->]|[Hn Hr']]%Hl.
    + apply elem_of_cons in Hr as [->|Hr]; [apply later_refl|].
      destruct (Hnew r) as [Hne _]; [by left|]. done.
    + apply elem_of_cons in Hr as [->|Hr]; [by rewrite Hid in Hn|by apply It].
  - intros r [->|[Hr _]]%Hk; [by rewrite Sj|by apply Ih].
  - intros r [->|[Hr _]]%Hk; [left; by rewrite Hrq|by apply Io].
  - intros k r [[-> ->]|[_ Hr]]%Hl; [|by apply (Ie k)]. rewrite Hrq. change (usage_of s') with (usage_of s).
    rewrite Hnc, Stj. split; [by left|done].
  - exact Im.
Qed.

Lemma vstep_inv spent0 usage0 s s' : life_inv spent0 usage0 s -> vstep s s' -> life_inv spent0 usage0 s'.
Proof using.
  intros I St. destruct St as [s t Ht|s id j Hj|s spec pin expires j jobs Hf Hc|s b Hb|s row Hr|s o|s q id Hq
    |s after id|s lease lim batch jobs Hc|s id j pin Hj Hpin|s fails j poll status Hin|s fails j code message Hin
    |s j Hin Hd].
  all: try (apply (inv_quiet _ _ s _ [] I);
    [cbn; auto using quiet_jobs_refl|by left|by rewrite app_nil_r|constructor|done]; fail).
  - apply (inv_quiet _ _ s _ [] I); [apply quiet_jobs_refl| |by rewrite app_nil_r|constructor|done].
    intros r [->|Hr]%elem_of_cons; [right|by left]. unfold jobs_of in *. cbn.
    by rewrite (iv_key _ _ _ I _ _ Hj).
  - by eapply inv_create.
  - apply (inv_quiet _ _ s _ [row] I); [apply quiet_jobs_refl|by left|done|by repeat constructor|done].
  - apply (inv_quiet _ _ s _ [] I);
      [by apply quiet_query_jobs|by left|by rewrite app_nil_r|constructor|done].
  - apply (inv_quiet _ _ s _ [] I);
      [by apply quiet_not_found|by left|by rewrite app_nil_r|constructor|done].
  - destruct (claim_quiet _ _ _ _ _ _ (iv_key _ _ _ I) Hc) as [Q Hb].
    apply (inv_quiet _ _ s _ [] I); [exact Q| |by rewrite app_nil_r|constructor|done].
    intros r [Hr|Hr]%elem_of_app; [right; by apply Hb|by left].
  - apply (inv_quiet _ _ s _ [] I); [|by left|by rewrite app_nil_r|constructor|done].
    apply (quiet_insert id j); [done|]. split_and!; cbn; auto with fairlb.
  - destruct (terminal_cases fails (vs_now s) (vs_world s) j poll status) as [(Q & Hs & rows & Hu & Hf)|Hc].
    + apply (inv_quiet _ _ s _ rows I); [exact Q|by left|exact Hu|exact Hf|exact Hs].
    + by eapply inv_charge.
  - destruct (fail_quiet fails (vs_now s) (vs_world s) j code message) as [Hb Q].
    apply (inv_quiet _ _ s _ [] I); [exact Q|by left| |constructor|]; unfold usage_of; cbn [set_world vs_world].
    + by rewrite app_nil_r, Hb.
    + intros k. by rewrite Hb.
  - apply (inv_quiet _ _ s _ [] I); [apply quiet_delete|by left|by rewrite app_nil_r|constructor|done].
Qed.

(** The gateway before its first job. *)
Definition opening (books : World B) (now : Z) : VState := mkVState now (mkVideo books ∅ ∅) [].

Lemma opening_inv books now : life_inv (spent (w_billing books)) (w_usage books) (opening books now).
Proof using.
  split; unfold known, jobs_of, usage_of, opening; cbn.
  - done.
  - intros j j' [Hj|Hj]; [by apply not_elem_of_nil in Hj|done].
  - intros j j' Hj. by apply not_elem_of_nil in Hj.
  - intros j [Hj|Hj]; [by apply not_elem_of_nil in Hj|done].
  - intros j [Hj|Hj]; [by apply not_elem_of_nil in Hj|done].
  - done.
  - intros k. lia.
Qed.

Lemma reachable_inv books now s :
  rtc vstep (opening books now) s -> life_inv (spent (w_billing books)) (w_usage books) s.
Proof using.
  intros Hr. pose proof (opening_inv books now) as I. remember (opening books now) as s0 eqn:E. clear E.
  induction Hr as [s|s1 s2 s3 H1 _ IH]; [done|]. apply IH. by eapply vstep_inv.
Qed.

(** ** Well-formed rows *)

(** What holds of every row by itself: the schema's checks, the amount charged exactly
    when it is settled, and no ended job with its reservation open. *)
Record sound_row j : Prop := {
  sd_checks : row_checks (j_spec j) (j_pin j) = true;
  sd_charged : jm_ChargedNano (j_money j)
               = if bool_decide (j_State j = Settled) then js_HoldNano (j_spec j) else 0;
  sd_unstuck : stuck j = false;
}.
Definition sound (jobs : Jobs) : Prop := forall id j, jobs !! id = Some j -> sound_row j.

Lemma sound_insert id j jobs : sound_row j -> sound jobs -> sound (<[id := j]> jobs).
Proof using.
  intros Hj Hu k r. destruct (decide (k = id)) as [->|Hne].
  - rewrite lookup_insert_eq. by intros [= <-].
  - rewrite lookup_insert_ne by done. apply Hu.
Qed.

Lemma update_sound f id jobs :
  (forall j j', f j = Some j' -> sound_row j -> sound_row j') -> sound jobs -> sound (update_job f id jobs).2.
Proof using.
  intros Hf Hu. unfold update_job. destruct (jobs !! id) as [j|] eqn:E; [|exact Hu]. cbn [mbind option_bind].
  destruct (f j) as [j'|] eqn:Ef; [|exact Hu]. cbn [snd]. apply sound_insert; [|done]. by eapply Hf, Hu.
Qed.

(** The money of a row that is not settled moves without a charge. *)
Lemma sound_moved j j' :
  sound_row j -> j_spec j' = j_spec j -> j_pin j' = j_pin j ->
  j_State j <> Settled -> j_State j' <> Settled -> jm_ChargedNano (j_money j') = jm_ChargedNano (j_money j) ->
  (stuck j = false -> stuck j' = false) -> sound_row j'.
Proof using.
  intros [A1 A2 A3] Es Ep Hn Hn' Ec Hs. split; [by rewrite Es, Ep| |by apply Hs].
  rewrite bool_decide_eq_false_2 in * by done. congruence.
Qed.

(** A row changed elsewhere. *)
Lemma sound_elsewhere j j' :
  sound_row j -> j_spec j' = j_spec j -> j_pin j' = j_pin j -> j_money j' = j_money j ->
  j_Status j' = j_Status j \/ running (j_Status j') = true -> sound_row j'.
Proof using.
  intros [A1 A2 A3] Es Ep Em Hr. unfold stuck, j_State in *. split; unfold stuck, j_State; rewrite ?Es, ?Ep, ?Em; try done.
  destruct (jm_State (j_money j)); try done; (destruct Hr as [ -> | -> ]; [exact A3|done]).
Qed.

Lemma query_sound q id jobs : quiet_query q -> sound jobs -> sound (q id jobs).2.
Proof using.
  intros Hq. destruct Hq as [ | | t status upst progress delay Hr | t upst delay | key size ct | ];
    apply update_sound; intros j j' E Hs.
  - destruct (j_State j) eqn:Ej; try done. injection E as <-. apply (sound_moved j); try done; [by rewrite Ej|].
    unfold stuck. rewrite Ej. done.
  - assert (Hj : j' = with_money j (mkMoney Orphaned (jm_ChargedNano (j_money j)) (jm_HoldExpiresAt (j_money j)))
                 /\ j_State j <> Settled).
    { destruct (j_State j); try done; by injection E as <-. }
    destruct Hj as [-> Hn]. by apply (sound_moved j).
  - destruct (running (j_Status j)); [|done]. injection E as <-. apply (sound_elsewhere j); try done. by right.
  - injection E as <-. apply (sound_elsewhere j); try done. by right.
  - injection E as <-. apply (sound_elsewhere j); try done. by left.
  - injection E as <-. apply (sound_elsewhere j); try done. by left.
Qed.

(** A row that has just ended: nothing is charged yet, the reservation may be open. *)
Record ended_row j : Prop := {
  ed_checks : row_checks (j_spec j) (j_pin j) = true;
  ed_charged : jm_ChargedNano (j_money j)
               = if bool_decide (j_State j = Settled) then js_HoldNano (j_spec j) else 0;
}.

Lemma terminal_row now status p id jobs k r :
  sound jobs -> (MarkVideoJobTerminal now status p id jobs).2 !! k = Some r ->
  ended_row r /\ (k <> id -> sound_row r) /\
  exists r0, jobs !! k = Some r0 /\ j_spec r = j_spec r0 /\ j_State r = j_State r0 /\
    (running (j_Status r0) = false -> r = r0).
Proof using.
  intros Hu. unfold MarkVideoJobTerminal, update_job.
  assert (Hid : forall k r, jobs !! k = Some r -> ended_row r /\ (k <> id -> sound_row r) /\
    exists r0, jobs !! k = Some r0 /\ j_spec r = j_spec r0 /\ j_State r = j_State r0 /\
      (running (j_Status r0) = false -> r = r0)).
  { intros k' r' Hr. pose proof (Hu _ _ Hr) as Hs. split; [by destruct Hs|]. split; [done|]. by exists r'. }
  destruct (jobs !! id) as [j|] eqn:E; [|apply Hid]. cbn [mbind option_bind].
  destruct (running (j_Status j)) eqn:Er; [|apply Hid]. cbn [snd].
  destruct (decide (k = id)) as [->|Hne].
  - rewrite lookup_insert_eq. intros [= <-]. destruct (Hu _ _ E) as [H1 H2 H3]. split; [by split|]. split; [done|].
    exists j. split_and!; try done. by rewrite Er.
  - rewrite lookup_insert_ne by done. apply Hid.
Qed.

Lemma end_sound now status p id jobs :
  sound jobs -> sound (VoidVideoJob id (MarkVideoJobTerminal now status p id jobs).2).2.
Proof using.
  intros Hu k r. set (jobs1 := (MarkVideoJobTerminal now status p id jobs).2).
  assert (H1 : forall k r, jobs1 !! k = Some r -> ended_row r /\ (k <> id -> sound_row r) /\
    exists r0, jobs !! k = Some r0 /\ j_spec r = j_spec r0 /\ j_State r = j_State r0 /\
      (running (j_Status r0) = false -> r = r0)) by (intros k' r'; by apply terminal_row).
  assert (Hopen : forall k r, jobs1 !! k = Some r -> j_State r <> Held -> j_State r <> Protected -> sound_row r).
  { intros k' r' Hr Hn1 Hn2. destruct (H1 _ _ Hr) as ([A1 A2] & _). split; [done|done|].
    unfold stuck. by destruct (j_State r'). }
  unfold VoidVideoJob, update_job. destruct (jobs1 !! id) as [j|] eqn:E; cbn [mbind option_bind snd].
  2: { intros Hr. destruct (decide (k = id)) as [->|Hne]; [congruence|]. by apply (H1 _ _ Hr). }
  assert (Hrest : jobs1 !! k = Some r -> k <> id -> sound_row r) by (intros Hr Hne; by apply (H1 _ _ Hr)).
  destruct (H1 _ _ E) as ([A1 _] & _).
  destruct (j_State j) eqn:Es; cbn [snd];
    first [intros Hr; destruct (decide (k = id)) as [->|Hne]; [eapply Hopen; [exact Hr|congruence|congruence]|auto]
          |destruct (decide (k = id)) as [->|Hne];
           [rewrite lookup_insert_eq; intros [= <-]; by split|rewrite lookup_insert_ne by done; auto]].
Qed.

Lemma terminal_sound fails now vw j poll status :
  (forall r, vw_jobs vw !! j_ID j = Some r -> j_spec r = j_spec j) ->
  sound (vw_jobs vw) -> sound (vw_jobs (terminal_tx NumericScan fails now vw j poll status (due_amount j status))).
Proof using.
  intros Hj Hu. unfold terminal_tx. destruct (fails "terminal transaction" _); [done|].
  pose proof (end_sound now status poll (j_ID j) _ Hu) as Hend.
  pose proof (fun k r => terminal_row now status poll (j_ID j) _ k r Hu) as Hrow.
  destruct (MarkVideoJobTerminal _ _ _ _ _) as [n1 jobs1]. cbn [snd] in *. destruct (n1 =? 0); [done|].
  case_bool_decide as Hc; [|by destruct (fails "commit" _)]. subst status.
  unfold SettleVideoJob, update_job. destruct (jobs1 !! j_ID j) as [r|] eqn:E; cbn [mbind option_bind]; [|done].
  destruct (Hrow _ _ E) as ([A1 _] & _ & r0 & Hr0 & Hsp & _).
  assert (Hn : sound (<[j_ID j := with_money r (mkMoney Settled (due_amount j StatusCompleted)
    (jm_HoldExpiresAt (j_money r)))]> jobs1)).
  { intros k x. destruct (decide (k = j_ID j)) as [->|Hne].
    - rewrite lookup_insert_eq. intros [= <-]. split; [done| |done]. cbn. unfold due_amount.
      by rewrite bool_decide_eq_true_2, Hsp, (Hj _ Hr0).
    - rewrite lookup_insert_ne by done. intros Hx. by apply (Hrow _ _ Hx). }
  destruct (j_State r); cbn [Z.eqb]; try done.
  all: case_bool_decide; [by destruct (fails "commit" _)|].
  all: destruct (SettleTx _ _); [|done]; by destruct (fails "commit" _).
Qed.

Lemma vstep_sound spent0 usage0 s s' :
  life_inv spent0 usage0 s -> vstep s s' -> sound (jobs_of s) -> sound (jobs_of s').
Proof using.
  intros I St Hu. destruct St as [| |s spec pin expires j jobs Hf Hc| | | |s q id Hq|s after id
    |s lease lim batch jobs Hc|s id j pin Hj Hpin|s fails j poll status Hin|s fails j code message Hin|s j Hin Hd];
    try exact Hu.
  - unfold CreateVideoJob in Hc. destruct (row_checks spec pin) eqn:Ek; [cbn [negb orb] in Hc|done].
    destruct (existsb _ _); [done|]. injection Hc as <- <-. by apply sound_insert.
  - by apply query_sound.
  - unfold jobs_of in *. cbn. unfold MarkVideoJobNotFound. destruct (_ !! _) as [j|] eqn:E; [|done].
    apply sound_insert; [|done]. by destruct (Hu _ _ E).
  - unfold jobs_of in *. cbn. unfold ClaimDueVideoJobs in Hc. injection Hc as <- <-.
    intros k r [[Hr Hid]|Hr]%claim_writes; [|by eapply Hu].
    apply list_elem_of_In, in_map_iff in Hr as (j & <- & Hj).
    apply list_elem_of_In, (sublist_subseteq _ _ (sublist_take _ _)) in Hj. rewrite SortFunc_perm in Hj.
    apply list_elem_of_In, filter_In in Hj as [Hj _]. apply list_elem_of_In in Hj.
    apply list_elem_of_fmap in Hj as ([id j'] & -> & Hj). apply elem_of_map_to_list in Hj. by destruct (Hu _ _ Hj).
  - apply sound_insert; [|done]. destruct (Hu _ _ Hj) as [A1 A2 A3]. split; [|exact A2|exact A3].
    destruct Hpin as (_ & _ & [P|P] & [Q|Q]); unfold row_checks in *; cbn; rewrite P, Q; try done;
      destruct (0 <=? _), (0 <? _); try done; cbn in *; by rewrite ?andb_false_r.
  - apply terminal_sound; [|exact Hu]. intros r Hr.
    assert (Hid : j_ID r = j_ID j) by exact (iv_key _ _ _ I _ _ Hr).
    apply (iv_spec _ _ _ I); [right|by left|by left]. change (jobs_of s !! j_ID r = Some r). by rewrite Hid.
  - unfold jobs_of in *. cbn. unfold fail_tx. destruct (fails "terminal transaction" _); [done|].
    pose proof (end_sound (vs_now s) StatusFailed (no_poll StatusFailed "" code message) (j_ID j) _ Hu) as He.
    destruct (MarkVideoJobTerminal _ _ _ _ _) as [n1 jobs1], (VoidVideoJob _ _) as [n2 jobs2] eqn:E2.
    by destruct (fails "commit" _).
  - intros k r. unfold jobs_of. cbn. unfold DeleteVideoJob. intros [_ Hk]%lookup_delete_Some. by eapply Hu.
Qed.

Lemma reachable_sound books now s : rtc vstep (opening books now) s -> sound (jobs_of s).
Proof using.
  intros Hr. assert (Hu : sound (jobs_of (opening books now))) by done.
  pose proof (opening_inv books now) as I.
  remember (opening books now) as s0 eqn:E. clear E. revert Hu I.
  induction Hr as [s|s1 s2 s3 Hs _ IH]; [done|]. intros Hu I.
  apply IH; [by eapply vstep_sound|by eapply vstep_inv].
Qed.
End life.
Arguments mkVState {B}.
Arguments vs_now {B}.
Arguments vs_world {B}.
Arguments vs_hand {B}.

(** ** Properties *)

(** C3: whatever order pollers, sweepers, submissions, cancellations and deletions
    run in, on whatever stale copies of a row, a job is charged at most once: the log
    holds at most one row that charges its request, for exactly the amount held and to
    the key that asked; the stored row says "settled" exactly when that row exists (or
    nothing was held); and no key's spend grows by more than the log charges it. *)
Theorem clip_charged_at_most_once `{SettlerLaws B} NumericScan (books : World B) now s :
  rtc (vstep NumericScan) (opening books now) s ->
  (forall j, known s j ->
     charges (request_of j) (usage_of s) = [] \/
     exists u, charges (request_of j) (usage_of s) = [u] /\
       ul_ChargedNano u = js_HoldNano (j_spec j) /\ ul_ApiKeyID u = js_ApiKeyID (j_spec j)) /\
  (forall id j, jobs_of s !! id = Some j ->
     (charges (request_of j) (usage_of s) = [] <-> j_State j <> Settled \/ js_HoldNano (j_spec j) = 0)) /\
  (forall k, spent (w_billing (vw_books (vs_world s))) k - spent (w_billing books) k
             <= charged_to k (usage_of s) - charged_to k (w_usage books)).
Proof.
  intros Hr%reachable_inv. split_and!; [apply (iv_once _ _ _ Hr)|apply (iv_settled _ _ _ Hr)|apply (iv_money _ _ _ Hr)].
Qed.

(** C8: no interleaving leaves a job ended with its reservation unresolved: the count
    the stuck-money alert reads is zero in every reachable state, and the reason is
    that every transaction which ends a job settles or voids it in the same commit. *)
Theorem no_money_left_behind `{SettlerLaws B} NumericScan (books : World B) now s :
  rtc (vstep NumericScan) (opening books now) s -> CountStuckMoneyJobs (jobs_of s) = 0.
Proof.
  intros Hr%reachable_sound. unfold CountStuckMoneyJobs.
  rewrite filter_none; [done|]. intros j ([id j'] & -> & Hj%elem_of_map_to_list)%list_elem_of_fmap. by apply (sd_unstuck _ (Hr id _ Hj)).
Qed.

(** Every stored row stays well formed: kept under its own identifier, passing the
    schema's checks on its hold, its ceiling and its one credential (also after a
    credential or a route is deleted under it), with an amount charged that is the
    amount held when it is settled and zero otherwise. *)
Theorem rows_stay_well_formed `{SettlerLaws B} NumericScan (books : World B) now s id j :
  rtc (vstep NumericScan) (opening books now) s -> jobs_of s !! id = Some j ->
  j_ID j = id /\ row_checks (j_spec j) (j_pin j) = true /\
  jm_ChargedNano (j_money j) = if bool_decide (j_State j = Settled) then js_HoldNano (j_spec j) else 0.
Proof.
  intros Hr Hj. pose proof (iv_key _ _ _ (reachable_inv _ _ _ _ Hr) _ _ Hj) as Hid.
  destruct (reachable_sound _ _ _ _ Hr _ _ Hj). by split_and!.
Qed.

(** Deleting a job strands nothing: the guard of the two deletions looks at a copy
    that may be old, yet whenever it lets a copy through, the row as it is stored now
    no longer has a reservation to resolve, however much later the statement runs. *)
Theorem deletion_strands_nothing `{SettlerLaws B} NumericScan (books : World B) now s j j' :
  rtc (vstep NumericScan) (opening books now) s ->
  j ∈ vs_hand s -> videoDeleteRefusal j = None -> jobs_of s !! j_ID j = Some j' ->
  j_State j' <> Held /\ j_State j' <> Protected.
Proof.
  intros Hr%reachable_inv Hin Hd Hj'. pose proof (iv_state _ _ _ Hr _ _ Hin Hj') as L.
  unfold videoDeleteRefusal in Hd. destruct (running _); [done|].
  destruct (j_State j), (j_State j'); cbn in L; split; intuition discriminate.
Qed.

(** ** Examples *)

Definition demo_spec : JobSpec :=
  mkSpec "vid-1" (Some "org-1"%string) (Some "key-1"%string) "req-1" "idem-1" "print-1" "acme/clip" false
    [mkUnitQuantity "second" 8] (Some "hold-1"%string) 800 "USD"
    (mkVideoSnapshot 1 800 500 10000 10000 10000 (lit "1") []) 900 "" 0 (30 * 24 * 3600 * Second).
Definition demo_pin : Pin := mkPin (Some "route-1"%string) (Some "prov-1"%string) (Some "pk-1"%string) None.
Definition demo_books : World Fake := mkWorld demo_fake [] [] [].
Abbreviation demo_scan_numeric := (fun b : bytes => Some b).
Abbreviation demo_done := (mkPoll StatusCompleted "succeeded" 100 "" "" false "https://cdn/film" "video/mp4").

(** A clip is created, the read copy goes stale while a poller ends the job, and the
    same copy tries to end it again. *)
Abbreviation demo_life_1 :=
  (match CreateVideoJob demo_spec demo_pin (1800 * Second) 0 ∅ with
   | Some (j, jobs) => mkVState 0 (with_jobs (mkVideo demo_books ∅ ∅) jobs) [j]
   | None => opening demo_books 0
   end).
Abbreviation demo_job := (created demo_spec demo_pin (1800 * Second) 0).
Abbreviation demo_end s :=
  (set_world s (terminal_tx demo_scan_numeric (fun _ _ => false) (vs_now s) (vs_world s) demo_job demo_done
                  StatusCompleted (due_amount demo_job StatusCompleted))).
Abbreviation demo_life_3 := (demo_end (demo_end demo_life_1)).

Lemma demo_life_steps : rtc (vstep demo_scan_numeric) (opening demo_books 0) demo_life_3.
Proof.
  eapply rtc_l; [|eapply rtc_l; [|eapply rtc_l; [|apply rtc_refl]]].
  - apply (v_create _ _ demo_spec demo_pin (1800 * Second)); [|reflexivity].
    split; [|reflexivity]. intros j [Hj|Hj]; [by apply not_elem_of_nil in Hj|done].
  - apply v_terminal. left.
  - apply v_terminal. left.
Qed.

Lemma clip_charged_at_most_once_witness :
  exists u, charges "req-1" (usage_of demo_life_3) = [u] /\ ul_ChargedNano u = 800 /\
    (charges (request_of demo_job) (usage_of demo_life_3) = [] \/
     exists u, charges (request_of demo_job) (usage_of demo_life_3) = [u] /\
       ul_ChargedNano u = js_HoldNano (j_spec demo_job) /\
       ul_ApiKeyID u = js_ApiKeyID (j_spec demo_job)).
Proof.
  eexists. split; [vm_compute; reflexivity|]. split; [reflexivity|].
  apply (proj1 (clip_charged_at_most_once _ _ _ _ demo_life_steps)). left. left.
Defined.

Lemma no_money_left_behind_witness :
  exists j, jobs_of demo_life_3 !! "vid-1"%string = Some j /\ j_Status j = StatusCompleted /\
    CountStuckMoneyJobs (jobs_of demo_life_3) = 0.
Proof.
  eexists. split; [vm_compute; reflexivity|]. split; [reflexivity|].
  exact (no_money_left_behind _ _ _ _ demo_life_steps).
Defined.

Lemma rows_stay_well_formed_witness :
  exists j, jobs_of demo_life_3 !! "vid-1"%string = Some j /\ j_State j = Settled /\
    row_checks (j_spec j) (j_pin j) = true /\
    jm_ChargedNano (j_money j) = if bool_decide (j_State j = Settled) then js_HoldNano (j_spec j) else 0.
Proof.
  eexists. split; [vm_compute; reflexivity|]. split; [reflexivity|].
  eapply (proj2 (rows_stay_well_formed _ _ _ _ "vid-1"%string _ demo_life_steps _)). Unshelve. vm_compute. reflexivity.
Defined.

(** The row is read back, and a deletion decided on it. *)
Abbreviation demo_row := (default demo_job (jobs_of demo_life_3 !! "vid-1"%string)).
Abbreviation demo_life_4 := (mkVState 0 (vs_world demo_life_3) (demo_row :: vs_hand demo_life_3)).

Lemma deletion_strands_nothing_witness :
  videoDeleteRefusal demo_row = None /\ j_State demo_row <> Held /\ j_State demo_row <> Protected.
Proof.
  split; [reflexivity|].
  apply (deletion_strands_nothing demo_scan_numeric demo_books 0 demo_life_4 demo_row demo_row);
    [|left|reflexivity|reflexivity].
  eapply rtc_r; [exact demo_life_steps|].
  refine (v_read demo_scan_numeric demo_life_3 "vid-1"%string demo_row _). reflexivity.
Defined.
