(* ===== verification/VideoRounds.v ===== *)
(** * The video handlers as runs of [VideoLife.vstep], and what each promises

    Every handler of [VideoWorker.v] is a sequence of the steps of [VideoLife.v], so
    what holds of every reachable state holds between any two of their statements.
    After that: the sweep ends what it lists, a foreign job looks like none, and
    where a credential goes. *)
From S2P Require Import Prelude GoStr BreakerStore Rational PriceTable Pricing UnitPricing Surfaces Usage.
From S2P Require Import Catalog Errors Guard Billing Rotation Ledger Credentials Settlement Envelope VideoJobs.
From S2P Require Import VideoWorker VideoLife.

Open Scope Z_scope.

Section rounds.
Context {B : Type} `{SettlerLaws B}.
Variable NumericScan : bytes -> option bytes.
Implicit Types (w : VideoWorld (B := B)) (j : Job) (now : Z).

(** [w'] is reached from [w] by steps anybody may interleave with, by a handler that
    holds the rows [hand]. *)
Definition runs now (hand : list Job) w w' : Prop :=
  forall hand0, hand ⊆ hand0 ->
  exists hand1, hand0 ⊆ hand1 /\ rtc (vstep NumericScan) (mkVState now w hand0) (mkVState now w' hand1).

Lemma runs_refl now hand w : runs now hand w w.
Proof using. intros h Hh. exists h. split; [done|apply rtc_refl]. Qed.

Lemma runs_trans now hand w1 w2 w3 : runs now hand w1 w2 -> runs now hand w2 w3 -> runs now hand w1 w3.
Proof using.
  intros H1 H2 h Hh. destruct (H1 h Hh) as (h1 & Hs1 & R1). destruct (H2 h1) as (h2 & Hs2 & R2).
  { set_solver. }
  exists h2. split; [set_solver|by etrans].
Qed.

Lemma runs_one now hand w w' :
  (forall h, hand ⊆ h -> vstep NumericScan (mkVState now w h) (mkVState now w' h)) -> runs now hand w w'.
Proof using. intros Hs h Hh. exists h. split; [done|]. by apply rtc_once, Hs. Qed.

Lemma runs_weaken now hand hand' w w' : hand ⊆ hand' -> runs now hand w w' -> runs now hand' w w'.
Proof using. intros Hs Hr h Hh. apply Hr. set_solver. Qed.

(** The rows a round lists are read before it works on them. *)
Lemma runs_read now hand rows w w' :
  (forall j, j ∈ rows -> exists id, vw_jobs w !! id = Some j) ->
  runs now (rows ++ hand) w w' -> runs now hand w w'.
Proof using.
  intros Hrows Hr h Hh.
  assert (Hread : exists h', h ⊆ h' /\ rows ⊆ h' /\
    rtc (vstep NumericScan) (mkVState now w h) (mkVState now w h')).
  { clear Hr. induction rows as [|j rows IH]; [exists h; split_and!; [done|set_solver|apply rtc_refl]|].
    destruct IH as (h' & H1 & H2 & H3); [intros r Hrr; apply Hrows; by right|].
    destruct (Hrows j) as [id Hj]; [left|]. exists (j :: h'). split_and!; [set_solver|set_solver|].
    eapply rtc_r; [exact H3|]. exact (v_read _ (mkVState now w h') id j Hj). }
  destruct Hread as (h' & H1 & H2 & H3). destruct (Hr h') as (h'' & H4 & H5); [set_solver|].
  exists h''. split; [set_solver|by etrans].
Qed.

(** A round of a handler over the rows it has. *)
Lemma runs_fold now (f : VideoWorld -> Job -> VideoWorld) rows hand w :
  (forall w j, j ∈ hand -> runs now hand w (f w j)) -> rows ⊆ hand -> runs now hand w (fold_left f rows w).
Proof using.
  intros Hf. revert w. induction rows as [|j rows IH]; intros w Hs; [apply runs_refl|]. cbn [fold_left].
  eapply runs_trans; [apply Hf|apply IH]; set_solver.
Qed.
(** ** Statements and money *)

Context {O R : Type}.
Variable MapperFor : string -> option (Mapper O R).
Variable Exchange : Target O -> result Error (Z * R).
Variable GetVideoJobRoute : uuid -> option JobRoute.
Variable GetOrgProviderKeySecret : uuid -> uuid -> option StoredSecret.
Variable GetVideoJobProviderKey : uuid -> option StoredSecret.
Variable fails : string -> string -> bool.
Variable Takes : bool.
Variable PutArtifact : Job -> R -> result string string.
Variable DeleteArtifact : string -> bool.
Variable body_size : R -> Z.
Variable order : list Job -> list Job.

Lemma runs_exec now hand stmt q w id : quiet_query q -> runs now hand w (exec fails stmt q w id).
Proof using.
  intros Hq. unfold exec. destruct (fails stmt id); [apply runs_refl|]. apply runs_one. intros h _.
  exact (v_query _ (mkVState now w h) q id Hq).
Qed.

Lemma runs_billing now hand w b :
  (forall k, spent b k = spent (w_billing (vw_books w)) k) ->
  runs now hand w (with_books w (with_billing (vw_books w) b)).
Proof using. intros Hb. apply runs_one. intros h _. exact (v_billing _ (mkVState now w h) b Hb). Qed.

Lemma runs_objects now hand w o : runs now hand w (with_objects w o).
Proof using. apply runs_one. intros h _. exact (v_objects _ (mkVState now w h) o). Qed.

Lemma runs_void_hold now hand w j : runs now hand w (void_hold w j).
Proof using. unfold void_hold, VoidHold. apply runs_billing. intros k. apply void_spent. Qed.

Lemma runs_terminal now hand w j poll status :
  j ∈ hand -> runs now hand w (terminateVideoJob NumericScan fails now w j poll status).
Proof using.
  intros Hj. unfold terminateVideoJob.
  assert (Ht : forall w, runs now hand w
    (terminal_tx NumericScan fails now w j poll status (due_amount j status))).
  { intros w0. apply runs_one. intros h Hh. apply (v_terminal _ (mkVState now w0 h)). by apply Hh. }
  unfold due_amount in Ht. case_bool_decide; [apply Ht|].
  eapply runs_trans; [apply runs_void_hold|apply Ht].
Qed.

Lemma runs_fail now hand w j code message :
  j ∈ hand -> runs now hand w (failVideoJob fails now w j code message).
Proof using.
  intros Hj. unfold failVideoJob. eapply runs_trans; [apply runs_void_hold|].
  apply runs_one. intros h Hh. apply (v_fail _ (mkVState now _ h)). by apply Hh.
Qed.

(** ** Polling *)

Lemma protect_pair (b : B) org r answer b' k : ProtectHold b org r = (answer, b') -> spent b' k = spent b k.
Proof using. intros E. by rewrite <- (protect_spent b org r k), E. Qed.

Lemma runs_keep now hand w j : runs now hand w (keepVideoHoldAlive fails now w j).
Proof using.
  unfold keepVideoHoldAlive. destruct (j_State j); try apply runs_refl.
  destruct (jm_HoldExpiresAt _); [|apply runs_refl]. destruct (_ <? _); [apply runs_refl|].
  destruct (ProtectHold _ _ _) as [[[|]|] b] eqn:E.
  all: assert (Hb : runs now hand w (with_books w (with_billing (vw_books w) b)))
    by (apply runs_billing; intros k; exact (protect_pair _ _ _ _ _ k E)).
  all: try exact Hb; (eapply runs_trans; [exact Hb|apply runs_exec; first [exact q_protect|exact q_orphan]]).
Qed.

Lemma runs_capture now hand w j cred mapper poll :
  runs now hand w (captureVideoArtifact Exchange fails Takes PutArtifact body_size w j cred mapper poll).
Proof using.
  unfold captureVideoArtifact. destruct Takes; [|apply runs_refl]. cbn [negb].
  destruct (fetchVideoArtifact _ _ _ _) as [[body art]|]; [|apply runs_refl].
  destruct (PutArtifact _ _); [|apply runs_refl].
  eapply runs_trans; [apply runs_objects|apply runs_exec; constructor].
Qed.

(** A normalised status is one a poll can report. *)
Hypothesis poll_statuses : forall vendor m status body poll,
  MapperFor vendor = Some m -> mp_PollResult m status body = Ok poll -> po_Status poll <> StatusExpired.

Lemma runs_observe now hand w j cred mapper poll :
  po_Status poll <> StatusExpired -> j ∈ hand ->
  runs now hand w (observe NumericScan Exchange fails Takes PutArtifact body_size now w j cred mapper poll).
Proof using.
  intros Hp Hj. unfold observe. destruct (po_NotFound poll).
  - destruct (fails "MarkVideoJobNotFound" _); [apply runs_refl|].
    destruct (MarkVideoJobNotFound _ _ _ _) as [n jobs] eqn:E.
    assert (Hn : runs now hand w (with_jobs w jobs)).
    { apply runs_one. intros h _. apply (f_equal snd) in E. cbn in E. rewrite <- E.
      exact (v_not_found _ (mkVState now w h) pollBaseInProgress (j_ID j)). }
    destruct n as [n|]; [|exact Hn]. destruct (_ <=? _); [|exact Hn].
    eapply runs_trans; [exact Hn|by apply runs_terminal].
  - destruct (negb (Terminal _)) eqn:Et.
    + eapply runs_trans; [apply runs_keep|]. apply runs_exec. constructor. by destruct (po_Status poll).
    + case_bool_decide; [|by apply runs_terminal].
      eapply runs_trans; [by apply runs_terminal|apply runs_capture].
Qed.

Lemma runs_poll now hand w j :
  j ∈ hand ->
  runs now hand w (pollVideoJob NumericScan MapperFor Exchange GetVideoJobRoute GetOrgProviderKeySecret
                     GetVideoJobProviderKey fails Takes PutArtifact body_size now w j).
Proof using poll_statuses.
  intros Hj. unfold pollVideoJob.
  destruct (videoRouteFor _ _ _ _ _) as [[[route cred] mapper]|] eqn:Er; [|by apply runs_fail].
  destruct (ask _ _ _ _ _) as [poll|] eqn:Ea; [|apply runs_refl].
  apply runs_observe; [|done]. unfold ask in Ea.
  destruct (mp_Poll _ _); [|done]. destruct (doVideoCall _ _ _ _) as [[status body]|]; [|done].
  destruct (mp_PollResult mapper status body) as [p|] eqn:Ep; [|done]. injection Ea as <-.
  unfold videoRouteFor in Er. destruct (jn_RouteID _); [|done].
  destruct (GetVideoJobRoute _) as [r|]; [|done]. destruct (MapperFor (jr_Vendor r)) as [m|] eqn:Em; [|done].
  destruct (negb _); [done|]. destruct (credentialOfJob _ _ _ _); [|done]. injection Er as -> -> ->.
  by eapply poll_statuses.
Qed.

(** ** Rounds *)

Abbreviation scan_work :=
  (ScanWork NumericScan MapperFor Exchange GetVideoJobRoute GetOrgProviderKeySecret GetVideoJobProviderKey
     fails Takes PutArtifact body_size).
Abbreviation sweep_work := (SweepWork NumericScan fails DeleteArtifact order).
Abbreviation cancel :=
  (Cancel NumericScan MapperFor Exchange GetVideoJobRoute GetOrgProviderKeySecret GetVideoJobProviderKey fails).

Lemma runs_claim now hand w lease lim batch jobs :
  ClaimDueVideoJobs now lease lim (vw_jobs w) = (batch, jobs) ->
  forall w', runs now (batch ++ hand) (with_jobs w jobs) w' -> runs now hand w w'.
Proof using.
  intros Hc w' Hr h Hh. destruct (Hr (batch ++ h)) as (h1 & H1 & H2).
  { intros x Hx. apply elem_of_app in Hx as [Hx|Hx]; apply elem_of_app; [by left|right; by apply Hh]. }
  exists h1. split; [intros x Hx; apply H1, elem_of_app; by right|].
  eapply rtc_l; [|exact H2]. exact (v_claim _ (mkVState now w h) lease lim batch jobs Hc).
Qed.

Lemma runs_scan now w : runs now [] w (scan_work now w).
Proof using poll_statuses.
  unfold ScanWork. destruct (fails "ClaimDueVideoJobs" _); [apply runs_refl|].
  destruct (ClaimDueVideoJobs _ _ _ _) as [batch jobs] eqn:E. eapply runs_claim; [exact E|].
  apply runs_fold; [intros; by apply runs_poll|]. intros x Hx. apply elem_of_app. by left.
Qed.

(** A listing only ever names stored rows. *)
Hypothesis order_lists : forall l, order l ⊆ l.

Lemma scan_stored p lim jobs j : j ∈ scan order p lim jobs -> p j = true /\ exists id, jobs !! id = Some j.
Proof using order_lists.
  intros Hj%(sublist_subseteq _ _ (sublist_take _ _))%order_lists.
  apply list_elem_of_In, filter_In in Hj as [Hj Hp]. split; [done|]. apply list_elem_of_In in Hj.
  apply list_elem_of_fmap in Hj as ([id j'] & -> & Hj). exists id. by apply elem_of_map_to_list.
Qed.

Lemma runs_listed now hand p lim w (f : VideoWorld -> Job -> VideoWorld) :
  (forall hand w j, j ∈ hand -> runs now hand w (f w j)) ->
  runs now hand w (fold_left f (scan order p lim (vw_jobs w)) w).
Proof using order_lists.
  intros Hf. eapply runs_read.
  - intros j Hj. by eapply scan_stored.
  - apply runs_fold; [apply Hf|]. intros x Hx. apply elem_of_app. by left.
Qed.

Lemma drop_with_objects w j w' :
  drop_object DeleteArtifact w j = Some w' -> exists o, w' = with_objects w o.
Proof using.
  unfold drop_object. case_bool_decide.
  - intros [= <-]. exists (vw_objects w). by destruct w.
  - destruct (DeleteArtifact _); [|done]. intros [= <-]. by eexists.
Qed.

Lemma runs_delete now hand w j :
  j ∈ hand -> videoDeleteRefusal j = None -> runs now hand w (with_jobs w (DeleteVideoJob (j_ID j) (vw_jobs w))).
Proof using.
  intros Hj Hd. apply runs_one. intros h Hh. apply (v_delete _ (mkVState now w h) j); [by apply Hh|done].
Qed.

Lemma runs_expired now hand w j :
  j ∈ hand -> runs now hand w (sweep_expired fails DeleteArtifact w j).
Proof using.
  intros Hj. unfold sweep_expired. destruct (drop_object _ _ _) as [w1|] eqn:E; [|apply runs_refl].
  apply drop_with_objects in E as [o ->]. eapply runs_trans; [apply (runs_objects _ _ _ o)|].
  destruct (videoDeleteRefusal j) eqn:Ed; [apply runs_exec; exact q_clear|].
  destruct (fails "DeleteVideoJob" _); [apply runs_refl|by apply runs_delete].
Qed.

Lemma runs_sweep now w : runs now [] w (sweep_work now w).
Proof using order_lists.
  unfold SweepWork. destruct (fails "ListUnsubmittedVideoJobs" _); [apply runs_refl|]. cbv zeta.
  eapply runs_trans; [apply runs_listed; intros; by apply runs_fail|].
  set (w1 := fold_left (fail_unsubmitted fails now) _ w).
  destruct (fails "ListStaleVideoJobs" _); [apply runs_refl|].
  eapply runs_trans; [apply runs_listed; intros; by apply runs_terminal|].
  set (w2 := fold_left (expire NumericScan fails now) _ w1).
  destruct (fails "ListExpiredVideoJobs" _); [apply runs_refl|].
  apply runs_listed. intros. by apply runs_expired.
Qed.

(** What a caller does starts from a row it reads. *)
Lemma get_stored w org id j : GetJob w org id = Ok j -> exists id, vw_jobs w !! id = Some j.
Proof using.
  unfold GetJob, GetVideoJob. destruct id as [id|]; [|done]. destruct (vw_jobs w !! id) as [j'|] eqn:E; [|done].
  destruct (same_org _ _); [|done]. intros [= <-]. by exists id.
Qed.

Lemma runs_cancel now w org id : runs now [] w (cancel now w org id).2.
Proof using.
  unfold Cancel. destruct (GetJob w org id) as [j|e] eqn:E; [|apply runs_refl].
  destruct (cancel_upstream _ _ _ _ _ _); [|apply runs_refl]. cbv zeta. cbn [snd].
  apply (runs_read _ _ [j]).
  - intros r ->%list_elem_of_singleton. by eapply get_stored.
  - apply runs_terminal. left.
Qed.

Lemma runs_deletion now w org id : runs now [] w (Delete fails DeleteArtifact w org id).2.
Proof using.
  unfold Delete. destruct (GetJob w org id) as [j|e] eqn:E; [|apply runs_refl].
  destruct (videoDeleteRefusal j) eqn:Ed; [apply runs_refl|].
  destruct (drop_object _ _ _) as [w1|] eqn:Eo; [|apply runs_refl].
  apply drop_with_objects in Eo as [o ->].
  apply (runs_read _ _ [j]).
  - intros r ->%list_elem_of_singleton. by eapply get_stored.
  - destruct (fails "DeleteVideoJob" _); [apply runs_objects|].
    eapply runs_trans; [apply (runs_objects _ _ _ o)|apply runs_delete; [left|done]].
Qed.
End rounds.

(** ** The sweep ends what is overdue *)

Definition no_faults : string -> string -> bool := fun _ _ => false.

Section healthy.
Context {B : Type} `{Settler B}.
Variable NumericScan : bytes -> option bytes.
Variable DeleteArtifact : string -> bool.
Variable order : list Job -> list Job.
Implicit Types (w : VideoWorld (B := B)) (j : Job).

(** A handler of one row that leaves the others alone and its own not running. *)
Definition ends (f : VideoWorld (B := B) -> Job -> VideoWorld (B := B)) : Prop :=
  forall w j k,
    (k <> j_ID j -> vw_jobs (f w j) !! k = vw_jobs w !! k) /\
    (forall r, vw_jobs (f w j) !! j_ID j = Some r -> running (j_Status r) = false).

Lemma update_other f id (jobs : Jobs) k : k <> id -> (update_job f id jobs).2 !! k = jobs !! k.
Proof using.
  intros Hk. unfold update_job. destruct (jobs !! id ≫= f); [|done]. cbn. by rewrite lookup_insert_ne.
Qed.

Lemma terminal_ends now status p id (jobs : Jobs) r :
  running status = false ->
  (MarkVideoJobTerminal now status p id jobs).2 !! id = Some r -> running (j_Status r) = false.
Proof using.
  intros Hs. unfold MarkVideoJobTerminal, update_job. destruct (jobs !! id) as [j|] eqn:E.
  2: { cbn. by rewrite E. }
  cbn [mbind option_bind]. destruct (running (j_Status j)) eqn:Er; cbn [snd].
  - rewrite lookup_insert_eq. by intros [= <-].
  - rewrite E. by intros [= <-].
Qed.

Lemma void_status id (jobs : Jobs) k r :
  (VoidVideoJob id jobs).2 !! k = Some r -> exists r0, jobs !! k = Some r0 /\ j_Status r = j_Status r0.
Proof using.
  unfold VoidVideoJob, update_job. destruct (jobs !! id) as [j|] eqn:E; cbn [mbind option_bind snd].
  2: { intros Hr. by exists r. }
  destruct (j_State j); cbn [snd]; try (intros Hr; by exists r).
  all: destruct (decide (k = id)) as [->|Hne];
    [rewrite lookup_insert_eq; intros [= <-]; by exists j|rewrite lookup_insert_ne by done; intros Hr; by exists r].
Qed.

(** What ending a row without charging it does to the table. *)
Lemma ended_row now status p id (jobs : Jobs) k :
  running status = false ->
  (k <> id -> (VoidVideoJob id (MarkVideoJobTerminal now status p id jobs).2).2 !! k = jobs !! k) /\
  (forall r, (VoidVideoJob id (MarkVideoJobTerminal now status p id jobs).2).2 !! id = Some r ->
     running (j_Status r) = false).
Proof using.
  intros Hs. split.
  - intros Hk. unfold VoidVideoJob at 1. rewrite update_other by done. unfold MarkVideoJobTerminal.
    by apply update_other.
  - intros r (r0 & Hr0 & ->)%void_status. by eapply terminal_ends.
Qed.

Lemma untouched_terminal now status p id (jobs : Jobs) :
  (MarkVideoJobTerminal now status p id jobs).1 = 0 -> (MarkVideoJobTerminal now status p id jobs).2 = jobs.
Proof using. unfold MarkVideoJobTerminal, update_job. by destruct (jobs !! id ≫= _). Qed.

Lemma fail_ends now : ends (fail_unsubmitted no_faults now).
Proof using.
  intros w j k. unfold fail_unsubmitted, failVideoJob, fail_tx, no_faults.
  pose proof (ended_row now StatusFailed
    (no_poll StatusFailed "" GatewayInternal "the job was never submitted upstream") (j_ID j)
    (vw_jobs (void_hold w j)) k eq_refl) as Hend.
  destruct (MarkVideoJobTerminal _ _ _ _ _) as [n1 jobs1]. cbn [snd] in Hend.
  destruct (VoidVideoJob _ _) as [n2 jobs2]. exact Hend.
Qed.

Lemma expire_ends now : ends (expire NumericScan no_faults now).
Proof using.
  intros w j k. unfold expire, terminateVideoJob. rewrite bool_decide_eq_false_2 by done.
  unfold terminal_tx, no_faults.
  match goal with |- context [MarkVideoJobTerminal now ?s ?p _ _] =>
    pose proof (ended_row now s p (j_ID j) (vw_jobs (void_hold w j)) k eq_refl) as Hend;
    pose proof (fun r => terminal_ends now s p (j_ID j) (vw_jobs (void_hold w j)) r eq_refl) as Hmark;
    pose proof (untouched_terminal now s p (j_ID j) (vw_jobs (void_hold w j))) as Hno
  end.
  destruct (MarkVideoJobTerminal _ _ _ _ _) as [n1 jobs1]. cbn [fst snd] in *.
  destruct (Z.eqb_spec n1 0) as [E|]; [|rewrite bool_decide_eq_false_2 by done; exact Hend].
  split; [done|]. intros r Hr. apply Hmark. by rewrite Hno.
Qed.

(** A round over listed rows: the listed ones are no longer running, the others as
    they were. *)
Lemma fold_ends f rows w k r :
  ends f -> vw_jobs (fold_left f rows w) !! k = Some r ->
  (k ∈ j_ID <$> rows -> running (j_Status r) = false) /\ (k ∉ j_ID <$> rows -> vw_jobs w !! k = Some r).
Proof using.
  intros Hf. revert w. induction rows as [|j rows IH]; intros w Hk; cbn [fold_left] in Hk.
  - split; [|done]. intros Hn. by apply not_elem_of_nil in Hn.
  - destruct (IH _ Hk) as [H1 H2]. destruct (Hf w j k) as [Ho Hs]. cbn [fmap list_fmap]. split.
    + intros Hin. destruct (decide (k ∈ j_ID <$> rows)) as [Hi|Hn]; [by apply H1|].
      apply elem_of_cons in Hin as [->|Hin]; [|done]. by apply Hs, H2.
    + intros [Hne Hn]%not_elem_of_cons. rewrite <- Ho by done. by apply H2.
Qed.

(** The listing has them all when they fit a batch. *)
Lemma scan_all (p : Job -> bool) (jobs : Jobs) id j :
  (forall l, order l ≡ₚ l) -> (length (List.filter p (map_to_list jobs).*2) <= videoClaimBatch)%nat ->
  jobs !! id = Some j -> p j = true -> j ∈ scan order p videoClaimBatch jobs.
Proof using.
  intros Ho Hn Hj Hp. unfold scan. rewrite firstn_all2 by (by rewrite Ho). rewrite Ho.
  apply list_elem_of_In, filter_In. split; [|done]. apply list_elem_of_In, list_elem_of_fmap.
  exists (id, j). split; [done|]. by apply elem_of_map_to_list.
Qed.

Definition keyed (jobs : Jobs) : Prop := forall id j, jobs !! id = Some j -> j_ID j = id.

(** One healthy phase clears its predicate, provided only running rows satisfy it. *)
Lemma phase_clears f p w id j :
  (forall l, order l ≡ₚ l) -> ends f -> (forall r, p r = true -> running (j_Status r) = true) ->
  keyed (vw_jobs w) -> (length (List.filter p (map_to_list (vw_jobs w)).*2) <= videoClaimBatch)%nat ->
  vw_jobs (fold_left f (scan order p videoClaimBatch (vw_jobs w)) w) !! id = Some j ->
  p j = false /\ (running (j_Status j) = true -> vw_jobs w !! id = Some j).
Proof using.
  intros Ho Hf Hp Hk Hn Hj. destruct (fold_ends _ _ _ _ _ Hf Hj) as [H1 H2].
  destruct (decide (id ∈ j_ID <$> scan order p videoClaimBatch (vw_jobs w))) as [Hi|Hi].
  - pose proof (H1 Hi) as Hr. split; [|by rewrite Hr]. destruct (p j) eqn:E; [|done].
    by rewrite (Hp _ E) in Hr.
  - pose proof (H2 Hi) as Hw. split; [|done]. destruct (p j) eqn:E; [|done]. exfalso. apply Hi.
    rewrite <- (Hk _ _ Hw). apply list_elem_of_fmap_2. by eapply scan_all.
Qed.

Lemma sweep_expired_status w j k r :
  vw_jobs (sweep_expired no_faults DeleteArtifact w j) !! k = Some r ->
  exists r0, vw_jobs w !! k = Some r0 /\ j_spec r = j_spec r0 /\ j_life r = j_life r0.
Proof using.
  unfold sweep_expired, exec, no_faults. destruct (drop_object _ _ _) as [w1|] eqn:E; [|intros Hr; by exists r].
  apply drop_with_objects in E as [o ->]. cbn [with_objects with_jobs vw_jobs].
  destruct (videoDeleteRefusal j).
  - unfold ClearVideoJobArtifact, update_job. cbn. destruct (vw_jobs w !! j_ID j) as [j0|] eqn:Ej; cbn.
    2: { intros Hr. by exists r. }
    destruct (decide (k = j_ID j)) as [->|Hne].
    + rewrite lookup_insert_eq. intros [= <-]. by exists j0.
    + rewrite lookup_insert_ne by done. intros Hr. by exists r.
  - intros Hr. change (delete (j_ID j) (vw_jobs w) !! k = Some r) in Hr.
    apply lookup_delete_Some in Hr as [_ Hr]. by exists r.
Qed.

Lemma fold_expired_status rows w k r :
  vw_jobs (fold_left (sweep_expired no_faults DeleteArtifact) rows w) !! k = Some r ->
  exists r0, vw_jobs w !! k = Some r0 /\ j_spec r = j_spec r0 /\ j_life r = j_life r0.
Proof using.
  revert w. induction rows as [|j rows IH]; intros w Hr; [by exists r|]. cbn [fold_left] in Hr.
  apply IH in Hr as (r1 & Hr1 & E1 & E2). apply sweep_expired_status in Hr1 as (r0 & Hr0 & E3 & E4).
  exists r0. split; [done|]. split; congruence.
Qed.

Lemma quiet_keyed (a b : Jobs) : quiet_jobs a b -> keyed a -> keyed b.
Proof using.
  intros Hq Hk id j (j0 & Hj0 & Hs & _)%Hq. unfold j_ID. rewrite Hs. by apply Hk.
Qed.

Lemma fold_fail_quiet now rows w :
  quiet_jobs (vw_jobs w) (vw_jobs (fold_left (fail_unsubmitted no_faults now) rows w)).
Proof using.
  revert w. induction rows as [|j rows IH]; intros w; [apply quiet_jobs_refl|]. cbn [fold_left].
  eapply quiet_jobs_trans; [|apply IH]. unfold fail_unsubmitted, failVideoJob.
  exact (proj2 (fail_quiet no_faults now (void_hold w j) j GatewayInternal _)).
Qed.

(** Rows that only left the predicate leave a shorter listing. *)
Lemma listing_shrinks (p : Job -> bool) (a b : Jobs) :
  keyed b -> (forall id j, b !! id = Some j -> p j = true -> a !! id = Some j) ->
  (length (List.filter p (map_to_list b).*2) <= length (List.filter p (map_to_list a).*2))%nat.
Proof using.
  intros Hk Hs. apply submseteq_length, NoDup_submseteq.
  - rewrite filter_is_filter. eapply sublist_NoDup; [|apply sublist_filter].
    eapply NoDup_fmap_1, (stored_ids b Hk).
  - intros j. rewrite !list_elem_of_In, !filter_In, <- !list_elem_of_In, !list_elem_of_fmap.
    intros [([id j'] & -> & Hj%elem_of_map_to_list) Hp]. split; [|done].
    exists (id, j'). split; [done|]. by apply elem_of_map_to_list, Hs.
Qed.
End healthy.

(** ** Properties *)

(** C15: one healthy sweep with no more overdue jobs than a batch leaves none: whatever
    the table held, a job still running afterwards is younger than twice its own
    ceiling, and if it never reached an upstream, younger than two minutes.  So a
    crashed submit and an upstream that never answers both end, and their holds are
    voided, within one round. *)
Theorem sweep_leaves_nothing_overdue `{Settler B} NumericScan DeleteArtifact order now
    (w : VideoWorld (B := B)) id j :
  (forall l, order l ≡ₚ l) -> keyed (vw_jobs w) ->
  (length (List.filter (unsubmitted now (2 * 60 * Second)) (map_to_list (vw_jobs w)).*2) <= videoClaimBatch)%nat ->
  (length (List.filter (stale now) (map_to_list (vw_jobs w)).*2) <= videoClaimBatch)%nat ->
  vw_jobs (SweepWork NumericScan no_faults DeleteArtifact order now w) !! id = Some j ->
  running (j_Status j) = true ->
  stale now j = false /\ unsubmitted now (2 * 60 * Second) j = false.
Proof.
  intros Ho Hk Hn1 Hn2 Hj Hr. unfold SweepWork, no_faults in Hj. fold no_faults in Hj. cbv zeta in Hj.
  apply fold_expired_status in Hj as (j2 & Hj2 & Es & El).
  set (w1 := fold_left (fail_unsubmitted no_faults now) _ w) in *.
  assert (Eq1 : stale now j = stale now j2) by (unfold stale, j_Status; by rewrite Es, El).
  assert (Eq2 : forall t, unsubmitted now t j = unsubmitted now t j2)
    by (intros t; unfold unsubmitted, j_Status; by rewrite Es, El).
  assert (Er : running (j_Status j2) = true) by (unfold j_Status in *; by rewrite <- El).
  assert (Hp1 : forall id r, vw_jobs w1 !! id = Some r ->
    unsubmitted now (2 * 60 * Second) r = false /\ (running (j_Status r) = true -> vw_jobs w !! id = Some r)).
  { intros k r Hkr. apply (phase_clears order (fail_unsubmitted no_faults now)); try done; [apply fail_ends|].
    intros x. unfold unsubmitted. case_bool_decide as E; [|done]. by rewrite E. }
  assert (Hk1 : keyed (vw_jobs w1)) by (eapply quiet_keyed; [apply fold_fail_quiet|exact Hk]).
  destruct (phase_clears order (expire NumericScan no_faults now) (stale now) w1 id j2) as [H1 H2]; try done.
  - apply expire_ends.
  - intros x. unfold stale. by destruct (running (j_Status x)).
  - etrans; [apply (listing_shrinks (stale now) (vw_jobs w) (vw_jobs w1) Hk1)|exact Hn2].
    intros k r Hkr Hs. apply (proj2 (Hp1 _ _ Hkr)). unfold stale in Hs. by destruct (running (j_Status r)).
  - rewrite Eq1, Eq2. split; [exact H1|]. apply (proj1 (Hp1 id j2 (H2 Er))).
Qed.

(** The tables [w] can follow [s] by steps of the plane, at the same instant. *)
Definition reaches `{SettlerLaws B} NumericScan (s : VState (B := B)) (w : VideoWorld (B := B)) : Prop :=
  exists hand, rtc (vstep NumericScan) s (mkVState (vs_now s) w hand).

(** C16: every round of the video plane refines the step relation: a poll round, a
    sweep, a cancellation and a deletion each take the tables from what they find to
    what they leave through steps of [vstep], started from any state and holding any
    rows read before.  Whatever is proved of every reachable state therefore holds
    between any two statements of any of them. *)
Theorem rounds_refine_steps `{SettlerLaws B} {O R : Type} NumericScan (MapperFor : string -> option (Mapper O R))
    Exchange GetVideoJobRoute GetOrgProviderKeySecret GetVideoJobProviderKey fails Takes PutArtifact
    DeleteArtifact body_size order (s : VState (B := B)) :
  (forall vendor m status body poll,
     MapperFor vendor = Some m -> mp_PollResult m status body = Ok poll -> po_Status poll <> StatusExpired) ->
  (forall l, order l ⊆ l) ->
  let leads := reaches NumericScan s in
  leads (ScanWork NumericScan MapperFor Exchange GetVideoJobRoute GetOrgProviderKeySecret
           GetVideoJobProviderKey fails Takes PutArtifact body_size (vs_now s) (vs_world s)) /\
  leads (SweepWork NumericScan fails DeleteArtifact order (vs_now s) (vs_world s)) /\
  forall org id,
    leads (Cancel NumericScan MapperFor Exchange GetVideoJobRoute GetOrgProviderKeySecret
             GetVideoJobProviderKey fails (vs_now s) (vs_world s) org id).2 /\
    leads (Delete fails DeleteArtifact (vs_world s) org id).2.
Proof.
  intros Hp Ho leads. destruct s as [now w hand]. cbn [vs_now vs_world] in *.
  assert (Hl : forall w', runs NumericScan now [] w w' -> leads w').
  { intros w' Hr. destruct (Hr hand) as (h & _ & Hs); [by intros x Hx%not_elem_of_nil|]. by exists h. }
  split_and!; [|apply Hl; by apply runs_sweep|intros org id; split; apply Hl].
  - apply Hl. by apply runs_scan.
  - apply runs_cancel.
  - apply runs_deletion.
Qed.

(** A job of another organization is indistinguishable from one that never was:
    reading, cancelling, deleting and downloading it give the answer a malformed
    identifier gets, and touch nothing. *)
Theorem foreign_job_looks_absent `{Settler B} {O R : Type} NumericScan (MapperFor : string -> option (Mapper O R))
    Exchange GetVideoJobRoute GetOrgProviderKeySecret GetVideoJobProviderKey fails DeleteArtifact
    OpenArtifact now (w : VideoWorld (B := B)) org id j :
  vw_jobs w !! id = Some j -> js_OrgID (j_spec j) <> org ->
  GetJob w org (Some id) = GetJob w org None /\
  Cancel NumericScan MapperFor Exchange GetVideoJobRoute GetOrgProviderKeySecret GetVideoJobProviderKey
    fails now w org (Some id) = (Err job_not_found, w) /\
  Delete fails DeleteArtifact w org (Some id) = (Err job_not_found, w) /\
  OpenContent MapperFor Exchange GetVideoJobRoute GetOrgProviderKeySecret GetVideoJobProviderKey OpenArtifact
    w org (Some id) = Err job_not_found.
Proof.
  intros Hj Hne.
  assert (Hg : GetJob w org (Some id) = Err job_not_found).
  { unfold GetJob, GetVideoJob. rewrite Hj. unfold same_org.
    destruct (js_OrgID (j_spec j)) as [a|], org as [b|]; try done. by rewrite bool_decide_eq_false_2 by congruence. }
  unfold Cancel, Delete, OpenContent. by rewrite !Hg.
Qed.

(** The credential only travels where the vendor's mapper says it is needed.  When
    neither the artifact nor what it resolves to needs one, what the two fetches learn
    cannot depend on any exchange that carried the secret: none was made. *)
Theorem presigned_links_get_no_secret {O R : Type} (Exchange Exchange' : Target O -> result Error (Z * R))
    cred (mapper : Mapper O R) poll :
  (forall t, tg_APIKey t = None -> Exchange t = Exchange' t) ->
  (forall art, mp_Artifact mapper poll = Ok art -> ar_NeedsUpstreamCredential art = false) ->
  (forall status body art, mp_ResolveArtifact mapper status body = Ok art -> ar_NeedsUpstreamCredential art = false) ->
  fetchVideoArtifact Exchange cred mapper poll = fetchVideoArtifact Exchange' cred mapper poll.
Proof.
  intros Ht Ha Hr. unfold fetchVideoArtifact, doVideoCall.
  destruct (mp_Artifact mapper poll) as [art|] eqn:E; [|done]. rewrite (Ha art eq_refl).
  rewrite Ht by done. destruct (Exchange' _) as [[status body]|]; [|done]. cbn [rbind].
  destruct (negb (okStatus status)); [done|]. destruct (negb (ar_Indirect art)); [done|].
  destruct (mp_ResolveArtifact mapper status body) as [r|] eqn:Er; [|done]. destruct (ar_Indirect r); [done|].
  by rewrite (Hr _ _ _ Er), Ht.
Qed.

Lemma climb_fuel status attempts :
  nextPollDelay status attempts = nextPollDelay status (Z.of_nat (Z.to_nat (Z.min attempts 20))).
Proof.
  unfold nextPollDelay. destruct (if bool_decide _ then _ else _) as [base growth].
  f_equal. lia.
Qed.

(** However long a job has been polled, the next poll is at least its status's base
    delay and at most two minutes away, later polls are never scheduled closer than
    earlier ones, and from the eighth attempt on the delay is the two minutes. *)
Theorem poll_delay_is_bounded status a b :
  let base := if bool_decide (status = StatusQueued) then pollBaseQueued else pollBaseInProgress in
  base <= nextPollDelay status a <= pollMax /\
  (a <= b -> nextPollDelay status a <= nextPollDelay status b) /\
  (8 <= a -> nextPollDelay status a = pollMax).
Proof.
  set (base := if bool_decide _ then _ else _).
  assert (Hall : forallb (fun n => forallb (fun m =>
      (base <=? nextPollDelay status (Z.of_nat n)) && (nextPollDelay status (Z.of_nat n) <=? pollMax) &&
      ((Z.of_nat m <? Z.of_nat n) || (nextPollDelay status (Z.of_nat n) <=? nextPollDelay status (Z.of_nat m))) &&
      ((n <? 8)%nat || (nextPollDelay status (Z.of_nat n) =? pollMax))) (seq 0 21)) (seq 0 21) = true)
    by (destruct status; vm_compute; reflexivity).
  assert (Hone : forall x y, base <= nextPollDelay status x <= pollMax /\
    (Z.min x 20 <= Z.min y 20 -> nextPollDelay status x <= nextPollDelay status y) /\
    (8 <= x -> nextPollDelay status x = pollMax)).
  { intros x y. rewrite (climb_fuel status x), (climb_fuel status y).
    set (n := Z.to_nat (Z.min x 20)). set (m := Z.to_nat (Z.min y 20)).
    rewrite forallb_forall in Hall. specialize (Hall n ltac:(apply in_seq; lia)).
    rewrite forallb_forall in Hall. specialize (Hall m ltac:(apply in_seq; lia)).
    rewrite !andb_true_iff, !orb_true_iff in Hall. rewrite Z.ltb_lt, Nat.ltb_lt, !Z.leb_le, Z.eqb_eq in Hall.
    lia. }
  destruct (Hone a b) as (H1 & H2 & H3). split_and!; [apply H1|apply H1| |exact H3]. intros Hab. apply H2. lia.
Qed.

Lemma updated f id (jobs : Jobs) j j' :
  jobs !! id = Some j -> f j = Some j' -> update_job f id jobs = (1, <[id := j']> jobs).
Proof. intros Hj Hf. unfold update_job. by rewrite Hj; cbn; rewrite Hf. Qed.

(** Failing a row whose money is held. *)
Lemma fail_row `{Settler B} fails now (w : VideoWorld (B := B)) j r code message :
  vw_jobs w !! j_ID j = Some r -> running (j_Status r) = true -> j_State r = Held ->
  fails "terminal transaction"%string (j_ID j) = false -> fails "commit"%string (j_ID j) = false ->
  exists k, vw_jobs (failVideoJob fails now w j code message) = <[j_ID j := k]> (vw_jobs w) /\
    j_spec k = j_spec r /\ j_State k = Voided /\ j_Status k = StatusFailed.
Proof.
  intros Hj Hr Hs Hf1 Hf2. unfold failVideoJob, fail_tx. rewrite Hf1, Hf2.
  unfold MarkVideoJobTerminal, VoidVideoJob. cbn [void_hold with_books vw_jobs].
  erewrite (updated _ _ (vw_jobs w)) by (first [exact Hj|by rewrite Hr]).
  erewrite updated by (first [apply lookup_insert_eq|unfold j_State; cbn; fold (j_State r); by rewrite Hs]).
  eexists. split_and!; [cbn; by rewrite insert_insert_eq|done|done|done].
Qed.

(** A submission recorded after the sweep found its row still unsubmitted. *)
Definition submitted_late `{Settler B} fails now now' after up (w : VideoWorld (B := B)) j :=
  let failed := fail_unsubmitted fails now w j in
  with_jobs failed (MarkVideoJobSubmitted now' up after (j_ID j) (vw_jobs failed)).2.

(** A submission that answers after the sweep gave up on it is never charged.
    [MarkVideoJobSubmitted] has no guard, so a row the sweep failed and whose hold it
    voided goes back to "in progress"; from then on a completed poll cannot end it:
    the terminal transaction finds a voided row, rolls back and leaves no charge and
    no log row, however often it is tried. *)
Theorem late_submission_strands_the_clip `{Settler B} NumericScan fails now now' after up
    (w : VideoWorld (B := B)) j poll :
  vw_jobs w !! j_ID j = Some j -> running (j_Status j) = true -> j_State j = Held ->
  fails "terminal transaction" (j_ID j) = false -> fails "commit" (j_ID j) = false ->
  let late := submitted_late fails now now' after up w j in
  exists revived,
    vw_jobs late !! j_ID j = Some revived /\ j_Status revived = StatusInProgress /\
    j_State revived = Voided /\
    terminateVideoJob NumericScan fails now' late revived poll StatusCompleted = late.
Proof.
  intros Hj Hr Hs Hf1 Hf2 late. set (failed := fail_unsubmitted fails now w j) in *.
  assert (Hfj : exists k, vw_jobs failed = <[j_ID j := k]> (vw_jobs w) /\ j_spec k = j_spec j /\
    j_State k = Voided /\ j_Status k = StatusFailed) by exact (fail_row _ _ _ _ _ _ _ Hj Hr Hs Hf1 Hf2).
  destruct Hfj as (k & Hk & Hsp & Hst & _).
  assert (Hlate : exists r, vw_jobs late = <[j_ID j := r]> (vw_jobs w) /\ j_spec r = j_spec j /\
                    j_State r = Voided /\ j_Status r = StatusInProgress).
  { unfold late, submitted_late, MarkVideoJobSubmitted. fold failed. rewrite Hk.
    erewrite updated by (first [apply lookup_insert_eq|reflexivity]).
    eexists. split_and!; [cbn; by rewrite insert_insert_eq|done..]. }
  destruct Hlate as (r & Hl & Hrs & Hrv & Hri). exists r. rewrite Hl, lookup_insert_eq. split_and!; try done.
  assert (Hid : j_ID r = j_ID j) by (unfold j_ID; by rewrite Hrs).
  unfold terminateVideoJob, terminal_tx. rewrite Hid, Hf1, bool_decide_eq_true_2 by done.
  unfold MarkVideoJobTerminal, SettleVideoJob. rewrite Hl.
  erewrite updated by (first [apply lookup_insert_eq|by rewrite Hri]).
  cbn [Z.eqb]. unfold update_job at 1. rewrite lookup_insert_eq. cbn [mbind option_bind].
  unfold j_State. cbn. fold (j_State r). by rewrite Hrv.
Qed.

(** ** Examples *)

(** A vendor whose one job is done, over strings; its clip lies behind a link. *)
Definition demo_mapper (status : JobStatus) : Mapper string string :=
  mkMapper string string
    (fun r model _ => Ok "submit"%string)
    (fun _ status body => if okStatus status then Ok body else Err "refused"%string)
    (fun upstream => Ok ("poll " ++ upstream)%string)
    (fun _ _ => Ok (mkPoll status "done" 100 "" "" false "https://cdn/film" "video/mp4"))
    (fun _ => Err "cannot cancel"%string)
    (fun poll => Ok (mkArtifact (po_ArtifactRef poll) false (po_ContentType poll) false))
    (fun _ _ => Err "no second hop"%string).
Abbreviation demo_mapper_for := (fun vendor : string =>
  if bool_decide (vendor = "acme"%string) then Some (demo_mapper StatusCompleted) else None).
Abbreviation demo_exchange := (fun t : Target string => Ok (200, ("answer to " ++ tg_Out t)%string) : result Error (Z * string)).
Abbreviation demo_route := (fun _ : uuid => Some (mkJobRoute "acme" "https://acme" true (Ok listed))).
Abbreviation demo_stored := (fun _ : uuid => Some (mkStored (Some "secret"%string) "")).
Abbreviation demo_clips := (mkVideo demo_books {["vid-1"%string := demo_job]} ∅ : VideoWorld (B := Fake)).

Lemma rounds_refine_steps_witness :
  exists hand,
    rtc (vstep demo_scan_numeric) (mkVState (10 * Second) demo_clips [])
      (mkVState (10 * Second)
        (ScanWork demo_scan_numeric demo_mapper_for demo_exchange demo_route (fun _ => demo_stored) demo_stored
           no_faults true (fun _ body => Ok body) (fun body => Z.of_nat (String.length body)) (10 * Second)
           demo_clips) hand).
Proof.
  refine (proj1 (rounds_refine_steps demo_scan_numeric demo_mapper_for demo_exchange demo_route
    (fun _ => demo_stored) demo_stored no_faults true (fun _ body => Ok body) (fun _ => true)
    (fun body => Z.of_nat (String.length body)) (fun l => l) (mkVState (10 * Second) demo_clips []) _ _)).
  - intros vendor m status body poll. case_bool_decide; [|done]. intros [= <-] [= <-]. discriminate.
  - done.
Defined.

Abbreviation demo_noon := (2 * 3600 * Second).
Abbreviation demo_young := (created (mkSpec "vid-2" (Some "org-1"%string) (Some "key-1"%string) "req-2" "idem-2"
  "print-2" "acme/clip" false [] None 800 "USD" (mkVideoSnapshot 1 800 500 10000 10000 10000 (lit "1") []) 900 ""
  demo_noon (9000 * Second)) demo_pin 0 demo_noon).
Abbreviation demo_two :=
  (mkVideo demo_books {["vid-1"%string := demo_job; "vid-2"%string := demo_young]} ∅ : VideoWorld (B := Fake)).

Lemma sweep_leaves_nothing_overdue_witness :
  unsubmitted demo_noon (2 * 60 * Second) demo_job = true /\
  exists j,
    vw_jobs (SweepWork demo_scan_numeric no_faults (fun _ => true) (fun l => l) demo_noon demo_two) !! "vid-2"%string
    = Some j /\ running (j_Status j) = true /\
    stale demo_noon j = false /\ unsubmitted demo_noon (2 * 60 * Second) j = false.
Proof.
  split; [reflexivity|]. eexists. split; [vm_compute; reflexivity|]. split; [reflexivity|].
  apply (sweep_leaves_nothing_overdue demo_scan_numeric (fun _ => true) (fun l => l) demo_noon demo_two "vid-2"%string).
  - done.
  - intros id j. cbn [vw_jobs]. intros [[<- <-]|[_ [<- <-]%lookup_singleton_Some]]%lookup_insert_Some; reflexivity.
  - apply Nat.leb_le. vm_compute. reflexivity.
  - apply Nat.leb_le. vm_compute. reflexivity.
  - vm_compute. reflexivity.
  - reflexivity.
Defined.

Lemma foreign_job_looks_absent_witness :
  vw_jobs demo_clips !! "vid-1"%string = Some demo_job /\
  Cancel demo_scan_numeric demo_mapper_for demo_exchange demo_route (fun _ => demo_stored) demo_stored no_faults
    0 demo_clips (Some "org-2"%string) (Some "vid-1"%string) = (Err job_not_found, demo_clips).
Proof.
  split; [reflexivity|].
  apply (foreign_job_looks_absent demo_scan_numeric demo_mapper_for demo_exchange demo_route
    (fun _ => demo_stored) demo_stored no_faults (fun _ => true) (fun key => Ok (Some key)) 0 demo_clips
    (Some "org-2"%string) "vid-1"%string demo_job); [reflexivity|discriminate].
Defined.

Lemma presigned_links_get_no_secret_witness :
  fetchVideoArtifact demo_exchange (mkCred None "secret" "https://acme" None) (demo_mapper StatusCompleted) demo_done
  = fetchVideoArtifact (fun t => match tg_APIKey t with
                                 | Some secret => Ok (200, secret)
                                 | None => demo_exchange t
                                 end)
      (mkCred None "secret" "https://acme" None) (demo_mapper StatusCompleted) demo_done.
Proof.
  apply presigned_links_get_no_secret.
  - intros t Ht. by rewrite Ht.
  - by intros art [= <-].
  - done.
Defined.

Lemma late_submission_strands_the_clip_witness :
  exists revived,
    vw_jobs (submitted_late no_faults (130 * Second) (131 * Second) (5 * Second) "up-1" demo_clips demo_job)
      !! "vid-1"%string
    = Some revived /\ j_Status revived = StatusInProgress /\ j_State revived = Voided.
Proof.
  destruct (late_submission_strands_the_clip demo_scan_numeric no_faults (130 * Second) (131 * Second)
    (5 * Second) "up-1" demo_clips demo_job demo_done) as (r & H1 & H2 & H3 & _);
    [reflexivity|reflexivity|reflexivity|reflexivity|reflexivity|].
  exists r. exact (conj H1 (conj H2 H3)).
Defined.

(** A clip whose reservation was reclaimed is logged twice.  The transaction that
    settles an orphaned job writes its usage row and queues the same row for the
    replay, which settles it and writes it again; nothing about the log is unique, so
    one clip of 800 shows as 1600 charged against one settlement of 800. *)
Theorem orphan_is_logged_twice :
  let orphan := with_money demo_job (mkMoney Orphaned 0 None) in
  let w := mkVideo demo_books {["vid-1"%string := orphan]} ∅ in
  let ended := terminateVideoJob demo_scan no_faults (60 * Second) w orphan demo_done StatusCompleted in
  let replayed := Work demo_scan (fun _ => Ledger.no_faults) (vw_books ended) in
  (jm_State ∘ j_money) <$> vw_jobs ended !! "vid-1"%string = Some Settled /\
  map ul_ChargedNano (w_usage (vw_books ended)) = [800] /\
  map ul_ChargedNano (w_usage replayed) = [800; 800] /\
  map si_ActualNano (fk_Settles (w_billing replayed)) = [800] /\
  charged_to "key-1" (w_usage replayed) = 1600.
Proof. vm_compute. split_and!; reflexivity. Qed.
