(* ===== verification/VideoSubmit.v ===== *)
(** * Submitting a video job: [video_submit.go] and [videos.go] of
    [internal/gateway/proxy]

    Everything that can refuse refuses first; then, per candidate, the credential is
    pinned, the exact charge quoted and held, the row written, and only then the
    upstream called.  The whole submission is read as one instant; what a
    concurrent one changes meanwhile is seen in which of its statements fail ([early],
    [late]). *)
From S2P Require Import Prelude GoStr BreakerStore Breaker RateLimit Rational Money PriceTable Pricing.
From S2P Require Import UnitPricing Surfaces Usage Catalog Errors Classify Guard Billing Routing.
From S2P Require Import Rotation Ledger Settlement KeyFormat Cache Settings Auth Credentials Attempt Admission Serve.
From S2P Require Import Envelope VideoJobs VideoWorker VideoLife VideoRounds.

Open Scope Z_scope.

Definition holdSlack : Z := 3.
Definition minVideoHoldTTL : Z := 30 * 60 * Second.
Definition maxVideoHoldTTL : Z := 6 * 3600 * Second.
Definition firstPollDelay : Z := 5 * Second.
Definition maxIdempotencyKeyLength : nat := 255.

(** How long the hold lives; the products are int64. *)
Definition videoHoldTTL (maxJobSeconds : Z) : Z :=
  Z.min (Z.max (wrap64 (wrap64 (maxJobSeconds * holdSlack) * Second)) minVideoHoldTTL) maxVideoHoldTTL.

(** [retryableVideoSubmit]. *)
Definition retryableVideoSubmit (e : Error) : bool :=
  negb (existsb (fun code => bool_decide (Code e = code))
          [GatewayInvalidRequest; GatewayVideoParamsUnsupported; GatewayInsufficientCredits; GatewayInternal]).

(** The key of a submission, as [handleVideoSubmit] reads its header. *)
Definition idempotencyKeyOf (header : bytes) : result Error string :=
  let key := trim_space header in
  if beq key []
  then Err (NewError GatewayInvalidRequest
              "Submitting a video job requires an Idempotency-Key header: a retry without one would be charged as a second job")
  else if (maxIdempotencyKeyLength <? length key)%nat
  then Err (NewError GatewayInvalidRequest "Idempotency-Key is too long")
  else Ok (string_of_list_ascii key).

(** [ErrOutsideEnvelope.Error]. *)
Definition outside_text (e : ErrOutsideEnvelope) : string :=
  let refused := ("this model does not support " ++ eo_Field e ++ "=" ++ eo_Got e)%string in
  match eo_Admissible e with
  | [] => refused
  | l => (refused ++ "; it accepts " ++ String.concat ", " l)%string
  end.

(** [unitsSnapshot], the columns a job reads back. *)
Definition unitsSnapshot (u : Units) : list unitRow :=
  map (fun kq => mkUnitQuantity (uk_Unit kq.1) kq.2) (map_to_list u).

(** [videoJobPayload]: what a caller sees of a job; neither the upstream's identifier
    nor the vendor is among it. *)
Record videoJobResponse := mkResponseOf {
  vr_ID : string;
  vr_JobModel : string;
  vr_Status : JobStatus;
  vr_Progress : Z;
  vr_CreatedAt : Z;
  vr_ExpiresAt : Z;
  vr_Error : option (string * string);
}.
Definition videoJobPayload (job : Job) : videoJobResponse :=
  let l := j_life job in
  mkResponseOf (j_ID job) (js_ModelSlug (j_spec job)) (j_Status job) (jl_Progress l)
    (js_CreatedAt (j_spec job) / Second) (js_ExpiresAt (j_spec job) / Second)
    (if bool_decide (jl_ErrorCode l = ""%string) && bool_decide (jl_ErrorMessage l = ""%string) then None
     else Some (jl_ErrorCode l, jl_ErrorMessage l)).

(** What a submission carries beside the request itself. *)
Record Submission := mkSubmission {
  sb_RequestID : string;
  sb_IdempotencyKey : string;
  sb_Fingerprint : string;
  sb_Request : VideoRequest;
}.

Section submit.
Context {B S C L raw T O R : Type} `{Settler B} `{StoreLaws S} `{CacheStore Identity C} `{Limiter L}.
Variable ValidateTransport : raw -> result string T.
Variable HashToken : bytes -> string.
Variable sha256hex : bytes -> string.
Variable keys_of : uuid -> result string (list ProviderKey).
Variable MapperFor : string -> option (Mapper O R).
Variable Exchange : Target O -> result Error (Z * R).
(** The stored envelope of a route, as it parses. *)
Variable VideoEnvelope : Route T -> result string Envelope.
Variable fails : string -> string -> bool.
(** The identifier the database mints. *)
Variable mint : Jobs -> string.
Variable now : Z.

Record SubmitState := mkSubmit {
  st_video : VideoWorld (B := B);
  st_adm : AdmState (C := C) (L := L) (T := T);
  st_pipe : Pipeline S L (Ext T);
}.
Implicit Types (s : SubmitState) (prep : prepared T) (route : Route T) (byok : byokChoices).
Implicit Types (ev : Env (raw := raw)) (sub : Submission) (cred : Credential).

Definition with_video s (w : VideoWorld (B := B)) : SubmitState := mkSubmit w (st_adm s) (st_pipe s).
Definition with_adm s (a : AdmState (C := C) (L := L) (T := T)) : SubmitState := mkSubmit (st_video s) a (st_pipe s).
Definition with_pipe s (p : Pipeline S L (Ext T)) : SubmitState := mkSubmit (st_video s) (st_adm s) p.
Definition jobs_in s : Jobs := vw_jobs (st_video s).
Definition books_in s : World B := vw_books (st_video s).

Definition BYOK cred : bool := bool_decide (is_Some (cr_OrgKeyID cred)).

(** [quoteOrRefuse], with the alert a missing rate raises. *)
Definition quote_or_alert (q : result unit_error Quote) prep s : result Error Quote * SubmitState :=
  match quoteOrRefuse q with
  | (q, None) => (Ok q, s)
  | (_, Some e) =>
      (Err e, if bool_decide (Code e = GatewayModelUnpriced)
              then with_adm s (alertUnpriced now (st_adm s) (pr_modelSlug prep)) else s)
  end.

Definition quoteVideoForCredential prep (units : Units) cred s : result Error Quote * SubmitState :=
  let '(list, cost) := billingUnitPrices prep in
  quote_or_alert
    (if BYOK cred then ComputeUnitsBYOK list units (pi_byokFeeBps (pr_pricing prep)) (pi_rates (pr_pricing prep))
     else ComputeUnits list cost units (pi_rates (pr_pricing prep))) prep s.

(** [videoUnits]: the billable vector, priced once to refuse an unpriced model. *)
Definition videoUnits prep (req : VideoRequest) (audioOn : bool) s : result Error Units * SubmitState :=
  match BillingUnit (pr_unitPriceTable prep) with
  | Err _ => (Err unpriced_error, with_adm s (alertUnpriced now (st_adm s) (pr_modelSlug prep)))
  | Ok unit =>
      let units := BillingUnits req audioOn unit in
      let '(list, cost) := billingUnitPrices prep in
      match quote_or_alert (ComputeUnits list cost units (pi_rates (pr_pricing prep))) prep s with
      | (Err e, s) => (Err e, s)
      | (Ok _, s) => (Ok units, s)
      end
  end.

(** [videoJobForKey] is read twice, at two moments: [early], before anything is spent,
    and [late], when the insert was refused.  Each read can fail by itself; a read that
    failed and one made before the row was there answer the same. *)
Definition early : string := "GetVideoJobByIdempotencyKey".
Definition late : string := "GetVideoJobByIdempotencyKey after CreateVideoJob".
Definition videoJobForKey (moment : string) s (orgID : uuid) (key : string) : option Job :=
  if fails moment key then None else GetVideoJobByIdempotencyKey orgID key (jobs_in s).

Definition job_spec prep sub (req : Request) (quote : Quote) (units : Units) cred (holdID : uuid)
    (maxJobSeconds retention : Z) (jobs : Jobs) : JobSpec :=
  let id := pr_id prep in
  mkSpec (mint jobs) (id_OrgID id) (id_KeyID id) (sb_RequestID sub) (sb_IdempotencyKey sub)
    (sb_Fingerprint sub) (pr_modelSlug prep) (BYOK cred) (unitsSnapshot units) holdID (ChargedNano quote)
    (id_WalletCurrency id)
    (mkVideoSnapshot usagePricingSchemaVersion (ChargedNano quote) (UpstreamUSDNano quote)
       (q_ModelMultiplierBps quote) (q_PlanMultiplierBps quote) (q_ProcurementMultiplierBps quote)
       (q_FXRate quote) (ut_Snapshot (pr_unitPriceTable prep)))
    (wrap32 maxJobSeconds) (in_EndUser req) now (now + retention).

Definition job_pin route cred : Pin := mkPin (r_ID route) (r_ProviderID route) (cr_KeyID cred) (cr_OrgKeyID cred).

(** [createVideoJobRow]: the row, and whether it was already there. *)
Definition createVideoJobRow prep sub (req : Request) (quote : Quote) (units : Units) route cred (holdID : uuid)
    (ttl maxJobSeconds retention : Z) s : result Error (Job * bool) * SubmitState :=
  let spec := job_spec prep sub req quote units cred holdID maxJobSeconds retention (jobs_in s) in
  let lost :=
    match videoJobForKey late s (id_OrgID (pr_id prep)) (sb_IdempotencyKey sub) with
    | Some won => (Ok (won, true), s)
    | None => (Err (NewError GatewayInternal "The job could not be created"), s)
    end in
  if fails "CreateVideoJob" (js_ID spec) then lost
  else match CreateVideoJob spec (job_pin route cred) (now + ttl) now (jobs_in s) with
       | None => lost
       | Some (job, jobs) => (Ok (job, false), with_video s (with_jobs (st_video s) jobs))
       end.

Definition callVideoUpstream (mapper : Mapper O R) route cred (req : VideoRequest) (audioOn : bool) :
    result Error string :=
  match mp_Submit mapper req (r_ProviderModelID route) audioOn with
  | Err why => Err (NewError GatewayInvalidRequest why)
  | Ok out =>
      try (status, body) <- doVideoCall Exchange cred out true;
      match mp_SubmitResult mapper req status body with
      | Err _ => Err (NewError GatewayAllProvidersFailed "The upstream refused the request")
      | Ok upstreamID => Ok upstreamID
      end
  end.

Definition submitted_copy (job : Job) (upstreamID : string) : Job :=
  let l := j_life job in
  with_life job (mkLife StatusInProgress upstreamID (jl_UpstreamStatus l) (jl_Progress l) (jl_ErrorCode l)
    (jl_ErrorMessage l) (jl_SubmittedAt l) (jl_TerminalAt l)).

Definition no_upstream : Error :=
  NewError GatewayAllProvidersFailed "No upstream is able to serve this model".

(** Once the row is there. *)
Definition deliver (mapper : Mapper O R) route cred (req : VideoRequest) (audioOn : bool) (job : Job) s :
    result Error Job * SubmitState :=
  match callVideoUpstream mapper route cred req audioOn with
  | Err e =>
      (Err e, with_video s (failVideoJob fails now (st_video s) job GatewayAllProvidersFailed (Message e)))
  | Ok upstreamID =>
      if fails "MarkVideoJobSubmitted" (j_ID job)
      then (Err (NewError GatewayInternal "The job could not be recorded"),
            with_video s (failVideoJob fails now (st_video s) job GatewayInternal "the job could not be recorded"))
      else (Ok (submitted_copy job upstreamID),
            with_video s (with_jobs (st_video s)
              (MarkVideoJobSubmitted now upstreamID firstPollDelay (j_ID job) (jobs_in s)).2))
  end.

Definition release prep sub s : SubmitState :=
  with_video s (with_books (st_video s) (VoidHold (books_in s) (id_OrgID (pr_id prep)) (sb_RequestID sub))).

(** [submitToRoute]. *)
Definition submitToRoute prep sub (req : Request) byok (audioOn : bool) (units : Units) (maxJobSeconds retention : Z)
    route s : result Error Job * SubmitState :=
  match MapperFor (r_ProviderVendor route) with
  | None => (Err no_upstream, s)
  | Some mapper =>
      let '(cred, p) := credentialFor keys_of (st_pipe s) route byok in
      let s := with_pipe s p in
      match cred with
      | Err e => (Err e, s)
      | Ok cred =>
          let '(quote, s) := quoteVideoForCredential prep units cred s in
          match quote with
          | Err e => (Err e, s)
          | Ok quote =>
              let ttl := videoHoldTTL maxJobSeconds in
              let '(hold, books) := ReserveFor (books_in s) (pr_id prep) (sb_RequestID sub) (ChargedNano quote) ttl in
              let s := with_video s (with_books (st_video s) books) in
              match hold with
              | Err e => (Err e, s)
              | Ok holdID =>
                  match createVideoJobRow prep sub req quote units route cred holdID ttl maxJobSeconds retention s with
                  | (Err e, s) => (Err e, release prep sub s)
                  | (Ok (job, true), s) => (Ok job, release prep sub s)
                  | (Ok (job, false), s) => deliver mapper route cred (sb_Request sub) audioOn job s
                  end
              end
          end
      end
  end.

(** [submitVideoJob]: the candidates in turn, until one answers or refuses for good. *)
Fixpoint submitVideoJob prep sub (req : Request) byok (audioOn : bool) (units : Units)
    (maxJobSeconds retention : Z) (lastErr : option Error) (routes : list (Route T)) s :
    result Error Job * SubmitState :=
  match routes with
  | [] => (Err (default no_upstream lastErr), s)
  | route :: routes =>
      match submitToRoute prep sub req byok audioOn units maxJobSeconds retention route s with
      | (Ok job, s) => (Ok job, s)
      | (Err e, s) =>
          if retryableVideoSubmit e
          then submitVideoJob prep sub req byok audioOn units maxJobSeconds retention (Some e) routes s
          else (Err e, s)
      end
  end.

(** [admitAndSubmitVideo]; [vendor] is empty on the gateway's own surface. *)
Definition video_candidates prep (vendor : string) : list (Route T) :=
  if bool_decide (vendor = ""%string) then res_Routes (pr_res prep)
  else routesOfVendor (res_Routes (pr_res prep)) vendor.

Definition admitAndSubmitVideo (f : Faults) ev (ic : Incoming) sub (vendor : string) (durationMs : Z) s :
    result Error (Job * bool) * SubmitState :=
  let req := sb_Request sub in
  let '(who, slug, a, adm) :=
    Prepare ValidateTransport HashToken sha256hex ev (lend_limiter (st_pipe s) (st_adm s)) ic in
  let s := mkSubmit (st_video s) adm (return_limiter adm (st_pipe s)) in
  let id := default zero_identity who in
  let refuse s e : result Error (Job * bool) * SubmitState :=
    (Err e, with_video s (with_books (st_video s)
       (RecordRejection (T := T) f (books_in s) id slug (ic_req ic) (sb_RequestID sub) e durationMs))) in
  match a with
  | Err e => refuse s e
  | Ok a =>
      let prep := am_prep a in
      let candidates := video_candidates prep vendor in
      if negb (bool_decide (vendor = ""%string)) && negb (nonempty candidates)
      then refuse s (NewError GatewayModelNotFound ("this model is not served by " ++ vendor ++ " on this gateway"))
      else
        let envelopes := map (fun rt => readEnvelope (VideoEnvelope rt)) candidates in
        let accepts := UnionOf envelopes in
        let audioOn := ResolveAudio accepts req in
        match ValidateEnvelope accepts req audioOn with
        | Some e => refuse s (NewError GatewayVideoParamsUnsupported (outside_text e))
        | None =>
            let candidates := coveringRoutes candidates envelopes req audioOn in
            if negb (nonempty candidates)
            then refuse s (NewError GatewayVideoParamsUnsupported
                   "no route for this model can serve that combination of parameters")
            else
              match videoUnits prep req audioOn s with
              | (Err e, s) => refuse s e
              | (Ok units, s) =>
                  match videoJobForKey early s (id_OrgID (pr_id prep)) (sb_IdempotencyKey sub) with
                  | Some existing =>
                      if bool_decide (js_RequestFingerprint (j_spec existing) = sb_Fingerprint sub)
                      then (Ok (existing, true), s)
                      else refuse s (NewError GatewayInvalidRequest
                             "This Idempotency-Key was already used for a different request")
                  | None =>
                      match submitVideoJob prep sub (ic_req ic) (am_byok a) audioOn units
                              (envelopeJobSeconds accepts) (VideoRetention (ev_int ev)) None candidates s with
                      | (Ok job, s) => (Ok (job, false), s)
                      | (Err e, s) => refuse s e
                      end
                  end
              end
        end
  end.

(** ** What each step leaves alone *)

Lemma quote_or_alert_video q prep s : st_video (quote_or_alert q prep s).2 = st_video s.
Proof using.
  unfold quote_or_alert. destruct (quoteOrRefuse q) as [quote [e|]]; [|done]. by destruct (bool_decide _).
Qed.

Lemma quote_video prep units cred s : st_video (quoteVideoForCredential prep units cred s).2 = st_video s.
Proof using. unfold quoteVideoForCredential. apply quote_or_alert_video. Qed.

Lemma videoUnits_video prep req audioOn s : st_video (videoUnits prep req audioOn s).2 = st_video s.
Proof using.
  unfold videoUnits. destruct (BillingUnit _) as [unit|]; [|done]. cbv zeta.
  destruct (billingUnitPrices prep) as [list cost].
  pose proof (quote_or_alert_video (ComputeUnits list cost (BillingUnits req audioOn unit)
    (pi_rates (pr_pricing prep))) prep s) as Hq.
  by destruct (quote_or_alert _ _ _) as [[q|e] s1].
Qed.

(** ** A key that was used *)

(** The row a key names conflicts with every row that would carry the key. *)
Lemma used_conflicts org key jobs won spec pin expires t :
  GetVideoJobByIdempotencyKey org key jobs = Some won ->
  js_OrgID spec = org -> js_IdempotencyKey spec = key -> CreateVideoJob spec pin expires t jobs = None.
Proof using.
  unfold GetVideoJobByIdempotencyKey, CreateVideoJob. intros Hf Ho Hk. apply find_some in Hf as [Hin Hc].
  assert (E : existsb (conflicts spec) (map_to_list jobs).*2 = true).
  { apply existsb_exists. exists won. split; [done|]. unfold conflicts. rewrite Ho, Hk, Hc. apply orb_true_r. }
  by rewrite E, orb_true_r.
Qed.

Lemma used_create prep sub req quote units route cred holdID ttl mjs retention s won :
  GetVideoJobByIdempotencyKey (id_OrgID (pr_id prep)) (sb_IdempotencyKey sub) (jobs_in s) = Some won ->
  createVideoJobRow prep sub req quote units route cred holdID ttl mjs retention s =
  (if fails late (sb_IdempotencyKey sub) then Err (NewError GatewayInternal "The job could not be created")
   else Ok (won, true), s).
Proof using.
  intros Hw. unfold createVideoJobRow, videoJobForKey. rewrite Hw. cbv zeta.
  rewrite (used_conflicts _ _ _ _ _ _ _ _ Hw) by done.
  by destruct (fails "CreateVideoJob" _), (fails late _).
Qed.

(** A candidate tried under a used key: the reservation is taken and given back. *)
Lemma used_route `{!SettlerLaws B} prep sub req byok audioOn units mjs retention route s won :
  GetVideoJobByIdempotencyKey (id_OrgID (pr_id prep)) (sb_IdempotencyKey sub) (jobs_in s) = Some won ->
  let '(a, s') := submitToRoute prep sub req byok audioOn units mjs retention route s in
  (a = Ok won \/ exists e, a = Err e) /\ jobs_in s' = jobs_in s /\ vw_objects (st_video s') = vw_objects (st_video s) /\
  moneyless (books_in s) (books_in s').
Proof using.
  intros Hw. unfold submitToRoute. destruct (MapperFor _) as [mapper|].
  2: { split_and!; [right; by eexists|done|done|apply moneyless_refl]. }
  destruct (credentialFor _ _ _ _) as [[cred|e] p].
  2: { split_and!; [right; by eexists|done|done|apply moneyless_refl]. }
  pose proof (quote_video prep units cred (with_pipe s p)) as Hq.
  destruct (quoteVideoForCredential _ _ _ _) as [[quote|e] s1]; cbn [snd] in Hq;
    assert (Ej : jobs_in s1 = jobs_in s) by (unfold jobs_in; by rewrite Hq);
    assert (Eb : books_in s1 = books_in s) by (unfold books_in; by rewrite Hq);
    assert (Eo : vw_objects (st_video s1) = vw_objects (st_video s)) by (by rewrite Hq).
  2: { split_and!; [right; by eexists|done|done|rewrite Eb; apply moneyless_refl]. }
  cbv zeta. pose proof (moneyless_hold (books_in s1) (pr_id prep) (sb_RequestID sub) (ChargedNano quote)
    (videoHoldTTL mjs)) as Hm.
  destruct (ReserveFor _ _ _ _ _) as [[holdID|e] books]; cbn [snd] in Hm; rewrite Eb in Hm.
  2: { split_and!; [right; by eexists|exact Ej|exact Eo|exact Hm]. }
  rewrite (used_create _ _ _ _ _ _ _ _ _ _ _ _ won).
  2: { change (jobs_in (with_video _ _)) with (jobs_in s1). by rewrite Ej. }
  assert (Hback : moneyless (books_in s) (VoidHold books (id_OrgID (pr_id prep)) (sb_RequestID sub))).
  { destruct Hm as (M1 & M2 & M3 & M4). split_and!; try done.
    intros k. change (spent (Void (w_billing books) (id_OrgID (pr_id prep)) (sb_RequestID sub)).2 k
      = spent (w_billing (books_in s)) k). by rewrite void_spent. }
  destruct (fails late _); (split_and!; [first [by left|right; by eexists]|exact Ej|exact Eo|exact Hback]).
Qed.

Lemma moneyless_trans (a b c : World B) `{!SettlerLaws B} : moneyless a b -> moneyless b c -> moneyless a c.
Proof using.
  intros (M1 & M2 & M3 & r1 & M4 & F1) (K1 & K2 & K3 & r2 & K4 & F2). split_and!; [|congruence|congruence|].
  - intros k. by rewrite K1.
  - exists (r1 ++ r2). split; [by rewrite K4, M4, app_assoc|by apply Forall_app].
Qed.

Lemma used_rotation `{!SettlerLaws B} prep sub req byok audioOn units mjs retention lastErr routes s won :
  GetVideoJobByIdempotencyKey (id_OrgID (pr_id prep)) (sb_IdempotencyKey sub) (jobs_in s) = Some won ->
  let '(a, s') := submitVideoJob prep sub req byok audioOn units mjs retention lastErr routes s in
  (a = Ok won \/ exists e, a = Err e) /\ jobs_in s' = jobs_in s /\ vw_objects (st_video s') = vw_objects (st_video s) /\
  moneyless (books_in s) (books_in s').
Proof using.
  revert lastErr s. induction routes as [|route routes IH]; intros lastErr s Hw; cbn [submitVideoJob].
  { split_and!; [right; by eexists|done|done|apply moneyless_refl]. }
  pose proof (used_route prep sub req byok audioOn units mjs retention route s won Hw) as Hr.
  destruct (submitToRoute _ _ _ _ _ _ _ _ _ _) as [[job|e] s1]; [exact Hr|].
  destruct Hr as (_ & Hj & Ho & Hm). destruct (retryableVideoSubmit e).
  2: { split_and!; [right; by eexists|done|done|done]. }
  specialize (IH (Some e) s1). destruct (submitVideoJob _ _ _ _ _ _ _ _ _ _ _) as [a s2].
  destruct IH as (Ha & Hj2 & Ho2 & Hm2).
  { by rewrite Hj. }
  split_and!; [done|by rewrite Hj2|by rewrite Ho2|]. by eapply moneyless_trans.
Qed.

(** ** A new row *)

Lemma created_row prep sub req quote units route cred holdID ttl mjs retention s job s' :
  createVideoJobRow prep sub req quote units route cred holdID ttl mjs retention s = (Ok (job, false), s') ->
  job = created (job_spec prep sub req quote units cred holdID mjs retention (jobs_in s)) (job_pin route cred)
          (now + ttl) now /\
  0 <= ChargedNano quote /\
  jobs_in s' = <[j_ID job := job]> (jobs_in s) /\ books_in s' = books_in s /\
  vw_objects (st_video s') = vw_objects (st_video s).
Proof using.
  unfold createVideoJobRow. cbv zeta. set (spec := job_spec _ _ _ _ _ _ _ _ _ _).
  assert (Hl : forall s0, match videoJobForKey late s (id_OrgID (pr_id prep)) (sb_IdempotencyKey sub) with
    | Some won => (Ok (won, true), s)
    | None => (Err (NewError GatewayInternal "The job could not be created"), s)
    end = (Ok (job, false), s0) -> False) by (intros s0; by destruct (videoJobForKey _ _ _ _)).
  destruct (fails "CreateVideoJob" _); [by intros ?%Hl|].
  unfold CreateVideoJob. destruct (negb (row_checks spec _) || _) eqn:E; [by intros ?%Hl|].
  intros [= <- <-]. split_and!; try done. apply orb_false_iff in E as [E _]. unfold row_checks in E.
  change (js_HoldNano spec) with (ChargedNano quote) in E. lia.
Qed.

Lemma no_new_row prep sub req quote units route cred holdID ttl mjs retention s a s' :
  createVideoJobRow prep sub req quote units route cred holdID ttl mjs retention s = (a, s') ->
  (forall job, a <> Ok (job, false)) -> s' = s.
Proof using.
  unfold createVideoJobRow. cbv zeta. intros E Hn.
  destruct (fails "CreateVideoJob" _).
  2: { destruct (CreateVideoJob _ _ _ _ _) as [[job jobs]|]; [injection E as <- <-; by destruct (Hn job)|]. revert E.
       by destruct (videoJobForKey _ _ _ _); intros [= <- <-]. }
  revert E. by destruct (videoJobForKey _ _ _ _); intros [= <- <-].
Qed.

(** What a submission that answers an error may have added: rows that failed, their
    money voided. *)
Definition only_failed (a b : Jobs) : Prop :=
  forall id j, b !! id = Some j -> a !! id = Some j \/ j_Status j = StatusFailed /\ j_State j = Voided.

Lemma only_failed_trans a b c : only_failed a b -> only_failed b c -> only_failed a c.
Proof using. intros P Q id j [Hj|Hj]%Q; [by apply P|by right]. Qed.

Lemma deliver_failed mapper route cred req audioOn job s e s' :
  (forall stmt, stmt <> "MarkVideoJobSubmitted"%string -> fails stmt (j_ID job) = false) ->
  jobs_in s !! j_ID job = Some job -> j_Status job = StatusQueued -> j_State job = Held ->
  deliver mapper route cred req audioOn job s = (Err e, s') ->
  exists k, jobs_in s' = <[j_ID job := k]> (jobs_in s) /\ j_Status k = StatusFailed /\ j_State k = Voided.
Proof using.
  intros Hf Hj Hq Hh.
  assert (Hrow : forall code message, exists k,
    vw_jobs (failVideoJob fails now (st_video s) job code message) = <[j_ID job := k]> (jobs_in s) /\
    j_Status k = StatusFailed /\ j_State k = Voided).
  { intros code message. destruct (fail_row fails now (st_video s) job job code message) as (k & Hk & _ & A1 & A2);
      [done|by rewrite Hq|done|by apply Hf|by apply Hf|]. by exists k. }
  unfold deliver. destruct (callVideoUpstream _ _ _ _ _).
  - destruct (fails "MarkVideoJobSubmitted" _); intros [= _ <-]. apply Hrow.
  - intros [= _ <-]. apply Hrow.
Qed.

Lemma failed_route prep sub req byok audioOn units mjs retention route s e s' :
  (forall stmt id, stmt <> "MarkVideoJobSubmitted"%string -> fails stmt id = false) ->
  submitToRoute prep sub req byok audioOn units mjs retention route s = (Err e, s') ->
  only_failed (jobs_in s) (jobs_in s').
Proof using.
  intros Hf. unfold submitToRoute. destruct (MapperFor _) as [mapper|]; [|intros [= _ <-]; by left].
  destruct (credentialFor _ _ _ _) as [[cred|e0] p]; [|intros [= _ <-]; by left].
  pose proof (quote_video prep units cred (with_pipe s p)) as Hq.
  destruct (quoteVideoForCredential _ _ _ _) as [[quote|e0] s1]; cbn [snd] in Hq;
    assert (Ej : jobs_in s1 = jobs_in s) by (unfold jobs_in; by rewrite Hq).
  2: { intros [= _ <-]. rewrite Ej. by left. }
  cbv zeta. destruct (ReserveFor _ _ _ _ _) as [[holdID|e0] books].
  2: { intros [= _ <-]. unfold jobs_in in *. cbn. rewrite Ej. by left. }
  set (s2 := with_video s1 _). assert (Ej2 : jobs_in s2 = jobs_in s) by exact Ej.
  destruct (createVideoJobRow _ _ _ _ _ _ _ _ _ _ _ _) as [[[job [|]]|e0] s3] eqn:Ec; [done| |].
  - intros Hd. apply created_row in Ec as (-> & _ & Hj3 & _ & _).
    apply deliver_failed in Hd as (k & Hk & K1 & K2); [|by intros; apply Hf|by rewrite Hj3, lookup_insert_eq|done|done].
    intros id j. rewrite Hk, Hj3, insert_insert_eq, Ej2. clear Hk Hj3.
    match goal with |- <[?i := k]> _ !! _ = _ -> _ => generalize i end. intros i.
    destruct (decide (id = i)) as [->|Hne]; [rewrite lookup_insert_eq; intros [= <-]; by right|].
    rewrite lookup_insert_ne by done. by left.
  - intros [= _ <-]. apply no_new_row in Ec as ->; [|done].
    change (only_failed (jobs_in s) (jobs_in s2)). rewrite Ej2. by left.
Qed.

(** No outcome of a candidate charges anybody. *)
Lemma route_moneyless `{!SettlerLaws B} prep sub req byok audioOn units mjs retention route s :
  moneyless (books_in s) (books_in (submitToRoute prep sub req byok audioOn units mjs retention route s).2).
Proof using.
  assert (Hvoid : forall books, moneyless books (VoidHold books (id_OrgID (pr_id prep)) (sb_RequestID sub))).
  { intros books. split_and!; [|done|done|exists []; by rewrite app_nil_r].
    intros k. change (spent (Void (w_billing books) (id_OrgID (pr_id prep)) (sb_RequestID sub)).2 k
      = spent (w_billing books) k). apply void_spent. }
  unfold submitToRoute. destruct (MapperFor _) as [mapper|]; [|apply moneyless_refl].
  destruct (credentialFor _ _ _ _) as [[cred|e] p]; [|apply moneyless_refl].
  pose proof (quote_video prep units cred (with_pipe s p)) as Hq.
  destruct (quoteVideoForCredential _ _ _ _) as [[quote|e] s1]; cbn [snd] in Hq;
    assert (Eb : books_in s1 = books_in s) by (unfold books_in; by rewrite Hq);
    [|cbn [snd]; rewrite Eb; apply moneyless_refl].
  cbv zeta. pose proof (moneyless_hold (books_in s1) (pr_id prep) (sb_RequestID sub) (ChargedNano quote)
    (videoHoldTTL mjs)) as Hm. rewrite <- Eb.
  destruct (ReserveFor _ _ _ _ _) as [[holdID|e] books]; cbn [snd] in *; [|exact Hm].
  set (s2 := with_video s1 _) in *.
  destruct (createVideoJobRow _ _ _ _ _ _ _ _ _ _ _ _) as [[[job [|]]|e] s3] eqn:Ec; cbn [snd].
  - apply no_new_row in Ec as ->; [|by intros ? [= -> ?]]. eapply moneyless_trans; [exact Hm|apply Hvoid].
  - apply created_row in Ec as (-> & _ & Hj3 & Hb3 & _).
    assert (Hm3 : moneyless (books_in s1) (books_in s3)) by (rewrite Hb3; exact Hm).
    assert (Hfail : forall j code message,
      moneyless (books_in s1) (vw_books (failVideoJob fails now (st_video s3) j code message))).
    { intros j code message. unfold failVideoJob.
      rewrite (proj1 (fail_quiet fails now (void_hold (st_video s3) j) j code message)).
      eapply moneyless_trans; [exact Hm3|]. unfold void_hold. cbn [with_books vw_books].
      split_and!; [|done|done|exists []; by rewrite app_nil_r].
      intros k. apply void_spent. }
    unfold deliver. destruct (callVideoUpstream _ _ _ _ _) as [up|]; [|apply Hfail].
    destruct (fails "MarkVideoJobSubmitted" _); [apply Hfail|exact Hm3].
  - apply no_new_row in Ec as ->; [|done]. eapply moneyless_trans; [exact Hm|apply Hvoid].
Qed.

(** ** A submission as steps of [VideoLife.vstep] *)

(** Rows survive an update. *)
Lemma update_keeps g id (jobs : Jobs) k r :
  (forall j j', g j = Some j' -> j_spec j' = j_spec j) -> jobs !! k = Some r ->
  exists r', (update_job g id jobs).2 !! k = Some r' /\ j_spec r' = j_spec r.
Proof using.
  intros Hg Hk. unfold update_job. destruct (jobs !! id) as [j|] eqn:E; [|by exists r]. cbn [mbind option_bind].
  destruct (g j) as [j'|] eqn:Eg; [|by exists r]. cbn [snd]. destruct (decide (k = id)) as [->|Hne].
  - rewrite lookup_insert_eq. exists j'. split; [done|]. rewrite (Hg _ _ Eg). congruence.
  - rewrite lookup_insert_ne by done. by exists r.
Qed.

(** A stored row already carries the request. *)
Definition taken (requestID : string) (jobs : Jobs) : Prop :=
  exists id j, jobs !! id = Some j /\ request_of j = requestID.

Lemma taken_update g id r (jobs : Jobs) :
  (forall j j', g j = Some j' -> j_spec j' = j_spec j) -> taken r jobs -> taken r (update_job g id jobs).2.
Proof using.
  intros Hg (k & j & Hj & Hr). destruct (update_keeps g id jobs k j Hg Hj) as (j' & Hj' & E).
  exists k, j'. split; [done|]. unfold request_of in *. by rewrite E.
Qed.

Ltac same_spec :=
  apply taken_update; [let E := fresh in intros ? ? E; repeat case_match; by simplify_eq|].

Lemma taken_fail r w j code message :
  taken r (vw_jobs w) -> taken r (vw_jobs (failVideoJob fails now w j code message)).
Proof using.
  intros Ht. unfold failVideoJob, fail_tx. destruct (fails "terminal transaction" _); [exact Ht|].
  destruct (MarkVideoJobTerminal _ _ _ _ _) as [n1 jobs1] eqn:E1. destruct (VoidVideoJob _ _) as [n2 jobs2] eqn:E2.
  destruct (fails "commit" _); [exact Ht|]. cbn [with_jobs vw_jobs].
  change jobs2 with (n2, jobs2).2. rewrite <- E2. unfold VoidVideoJob. same_spec.
  change jobs1 with (n1, jobs1).2. rewrite <- E1. unfold MarkVideoJobTerminal. by same_spec.
Qed.

Lemma taken_create spec pin expires t jobs : taken (js_RequestID spec) jobs -> CreateVideoJob spec pin expires t jobs = None.
Proof using.
  intros (id & j & Hj & Hr). unfold CreateVideoJob.
  assert (E : existsb (conflicts spec) (map_to_list jobs).*2 = true).
  { apply existsb_exists. exists j. split.
    - apply list_elem_of_In, list_elem_of_fmap. exists (id, j). split; [done|]. by apply elem_of_map_to_list.
    - unfold conflicts. by rewrite bool_decide_eq_true_2 by exact Hr. }
  by rewrite E, orb_true_r.
Qed.

(** Nothing known carries the request or the identifier about to be minted; or the row
    of this submission is stored. *)
Definition unclaimed sub s (hand : list Job) : Prop :=
  (forall j, known (mkVState now (st_video s) hand) j -> j_ID j <> mint (jobs_in s) /\ request_of j <> sb_RequestID sub) /\
  charges (sb_RequestID sub) (w_usage (books_in s)) = [].
Definition at_most_one_row sub s hand : Prop := unclaimed sub s hand \/ taken (sb_RequestID sub) (jobs_in s).

Lemma one_row_same sub s s' hand :
  jobs_in s' = jobs_in s -> w_usage (books_in s') = w_usage (books_in s) ->
  at_most_one_row sub s hand -> at_most_one_row sub s' hand.
Proof using.
  intros Ej Eu [[Hn Hc]|Ht]; [left|right; by rewrite Ej]. split; [|by rewrite Eu].
  intros j Hj. rewrite Ej. apply Hn. destruct Hj as [Hj|Hj]; [by left|right].
  unfold jobs_of in *. cbn in *. unfold jobs_in in Ej. by rewrite <- Ej.
Qed.

Section steps.
Context `{!SettlerLaws B}.
Variable NumericScan : bytes -> option bytes.
Variable sub : Submission.
Implicit Types hand : list Job.

Definition leads s hand s' : Prop :=
  at_most_one_row sub s hand ->
  exists hand', rtc (vstep NumericScan) (mkVState now (st_video s) hand) (mkVState now (st_video s') hand') /\
                at_most_one_row sub s' hand'.

Lemma leads_same s s' hand : st_video s' = st_video s -> leads s hand s'.
Proof using.
  intros E Hs. exists hand. split; [by rewrite E|].
  eapply one_row_same; [| |exact Hs]; unfold jobs_in, books_in; by rewrite E.
Qed.

Lemma leads_trans s1 s2 s3 hand : leads s1 hand s2 -> (forall hand', leads s2 hand' s3) -> leads s1 hand s3.
Proof using.
  intros L1 L2 Hs. destruct (L1 Hs) as (h & R1 & K1). destruct (L2 h K1) as (h' & R2 & K2).
  exists h'. split; [by etrans|done].
Qed.

Lemma leads_billing s hand b :
  (forall k, spent b k = spent (w_billing (books_in s)) k) ->
  leads s hand (with_video s (with_books (st_video s) (with_billing (books_in s) b))).
Proof using.
  intros Hb Hs. exists hand. split; [|by apply (one_row_same sub s)].
  apply rtc_once. exact (v_billing _ (mkVState now (st_video s) hand) b Hb).
Qed.

Lemma leads_reserve s hand prep amount ttl :
  leads s hand (with_video s (with_books (st_video s)
    (ReserveFor (books_in s) (pr_id prep) (sb_RequestID sub) amount ttl).2)).
Proof using.
  unfold ReserveFor.
  pose proof (hold_spent (w_billing (books_in s)) (mkHold (id_OrgID (pr_id prep)) (sb_RequestID sub) amount ttl)) as Hb.
  destruct (Hold _ _) as [[h|e] b]; cbn [snd] in *; by apply leads_billing.
Qed.

Lemma leads_release s hand prep : leads s hand (release prep sub s).
Proof using. apply leads_billing. intros k. apply void_spent. Qed.

(** Delivering a row that is stored and in hand. *)
Lemma deliver_leads mapper route cred req audioOn job s hand :
  job ∈ hand -> taken (sb_RequestID sub) (jobs_in s) ->
  exists hand',
    rtc (vstep NumericScan) (mkVState now (st_video s) hand)
      (mkVState now (st_video (deliver mapper route cred req audioOn job s).2) hand') /\
    taken (sb_RequestID sub) (jobs_in (deliver mapper route cred req audioOn job s).2).
Proof using SettlerLaws0.
  intros Hin Ht.
  assert (Hfail : forall code message, exists hand',
    rtc (vstep NumericScan) (mkVState now (st_video s) hand)
      (mkVState now (failVideoJob fails now (st_video s) job code message) hand') /\
    taken (sb_RequestID sub) (vw_jobs (failVideoJob fails now (st_video s) job code message))).
  { intros code message. destruct (runs_fail NumericScan fails now hand (st_video s) job code message Hin hand)
      as (h & _ & Hr); [by intros x|]. exists h. split; [exact Hr|by apply taken_fail]. }
  unfold deliver. destruct (callVideoUpstream _ _ _ _ _) as [up|e]; [|apply Hfail].
  destruct (fails "MarkVideoJobSubmitted" _); [apply Hfail|]. exists hand. cbn [snd]. split.
  - apply rtc_once.
    exact (v_query _ (mkVState now (st_video s) hand) _ (j_ID job) (q_submitted now up firstPollDelay)).
  - unfold MarkVideoJobSubmitted. change (taken (sb_RequestID sub)
      (update_job (fun j => Some (rescheduled (with_life j (mkLife StatusInProgress up "submitted"
         (jl_Progress (j_life j)) (jl_ErrorCode (j_life j)) (jl_ErrorMessage (j_life j)) (Some now)
         (jl_TerminalAt (j_life j)))) (Some (now + firstPollDelay)))) (j_ID job) (jobs_in s)).2).
    apply taken_update; [|exact Ht]. by intros j j' [= <-].
Qed.

Lemma route_leads prep req byok audioOn units mjs retention route s hand :
  leads s hand (submitToRoute prep sub req byok audioOn units mjs retention route s).2.
Proof using SettlerLaws0.
  unfold submitToRoute. destruct (MapperFor _) as [mapper|]; [|by apply leads_same].
  destruct (credentialFor _ _ _ _) as [[cred|e] p]; [|by apply leads_same].
  pose proof (quote_video prep units cred (with_pipe s p)) as Hq.
  destruct (quoteVideoForCredential _ _ _ _) as [[quote|e] s1]; cbn [snd] in *; [|by apply leads_same].
  cbv zeta. eapply leads_trans; [by apply (leads_same s s1)|]. intros h1.
  pose proof (fun h => leads_reserve s1 h prep (ChargedNano quote) (videoHoldTTL mjs)) as Hres.
  destruct (ReserveFor _ _ _ _ _) as [[holdID|e] books]; cbn [snd] in *; [|apply Hres].
  eapply leads_trans; [apply Hres|]. clear h1. intros h2. set (s2 := with_video s1 _).
  destruct (createVideoJobRow _ _ _ _ _ _ _ _ _ _ _ _) as [[[job [|]]|e] s3] eqn:Ec; cbn [snd].
  - apply no_new_row in Ec as ->; [apply leads_release|by intros ? [= -> ?]].
  - intros [[Hn Hc]|Ht].
    + pose proof Ec as Er. apply created_row in Er as (-> & _ & Hj3 & _).
      set (spec := job_spec _ _ _ _ _ _ _ _ _ _) in *. set (job := created _ _ _ _) in *.
      assert (St : vstep NumericScan (mkVState now (st_video s2) h2) (mkVState now (st_video s3) (job :: h2))).
      { unfold createVideoJobRow in Ec. cbv zeta in Ec. fold spec in Ec.
        destruct (fails "CreateVideoJob" _); [by destruct (videoJobForKey _ _ _ _)|].
        destruct (CreateVideoJob spec _ _ _ _) as [[j jobs]|] eqn:E; [|by destruct (videoJobForKey _ _ _ _)].
        injection Ec as -> <-. exact (v_create _ (mkVState now (st_video s2) h2) spec _ _ job jobs (conj Hn Hc) E). }
      destruct (deliver_leads mapper route cred (sb_Request sub) audioOn job s3 (job :: h2)) as (h & Hr & K).
      * by left.
      * exists (j_ID job), job. split; [by rewrite Hj3, lookup_insert_eq|done].
      * exists h. split; [by eapply rtc_l|by right].
    + exfalso. unfold createVideoJobRow in Ec. cbv zeta in Ec. set (spec := job_spec _ _ _ _ _ _ _ _ _ _) in *.
      destruct (fails "CreateVideoJob" _); [by destruct (videoJobForKey _ _ _ _)|].
      rewrite taken_create in Ec by exact Ht. by destruct (videoJobForKey _ _ _ _).
  - apply no_new_row in Ec as ->; [apply leads_release|done].
Qed.

Lemma rotation_leads prep req byok audioOn units mjs retention lastErr routes s hand :
  leads s hand (submitVideoJob prep sub req byok audioOn units mjs retention lastErr routes s).2.
Proof using SettlerLaws0.
  revert lastErr s hand. induction routes as [|route routes IH]; intros lastErr s hand; cbn [submitVideoJob].
  { by apply leads_same. }
  pose proof (route_leads prep req byok audioOn units mjs retention route s hand) as Hr.
  destruct (submitToRoute _ _ _ _ _ _ _ _ _ _) as [[job|e] s1]; [exact Hr|].
  destruct (retryableVideoSubmit e); [|exact Hr]. eapply leads_trans; [exact Hr|]. intros h. apply IH.
Qed.
End steps.

(** ** The row behind an answer *)

Lemma create_keyed spec pin expires t jobs job jobs' :
  CreateVideoJob spec pin expires t jobs = Some (job, jobs') -> keyed jobs -> keyed jobs'.
Proof using.
  unfold CreateVideoJob. destruct (_ || _); [done|]. intros [= <- <-] Hk id j.
  destruct (decide (id = js_ID spec)) as [->|Hne]; [rewrite lookup_insert_eq; by intros [= <-]|].
  rewrite lookup_insert_ne by done. apply Hk.
Qed.

Lemma deliver_quiet mapper route cred req audioOn job s :
  quiet_jobs (jobs_in s) (jobs_in (deliver mapper route cred req audioOn job s).2).
Proof using.
  assert (Hfail : forall code message, quiet_jobs (jobs_in s) (vw_jobs (failVideoJob fails now (st_video s) job code message)))
    by (intros; exact (proj2 (fail_quiet fails now (void_hold (st_video s) job) job code message))).
  unfold deliver. destruct (callVideoUpstream _ _ _ _ _) as [up|]; [|apply Hfail].
  destruct (fails "MarkVideoJobSubmitted" _); [apply Hfail|].
  exact (quiet_query_jobs _ (j_ID job) (jobs_in s) (q_submitted now up firstPollDelay)).
Qed.

(** A row of an organization and a key, with the columns of a job written at creation. *)
Definition stored_for (org : uuid) (key : string) (job : Job) (jobs : Jobs) : Prop :=
  exists k row, jobs !! k = Some row /\ j_spec row = j_spec job /\
    js_OrgID (j_spec row) = org /\ js_IdempotencyKey (j_spec row) = key.

Lemma found_is_stored org key jobs won : GetVideoJobByIdempotencyKey org key jobs = Some won -> stored_for org key won jobs.
Proof using.
  unfold GetVideoJobByIdempotencyKey. intros Hf. apply find_some in Hf as [Hin [Ho Hk]%andb_true_iff].
  apply list_elem_of_In, list_elem_of_fmap in Hin as ([k row] & -> & Hin). apply elem_of_map_to_list in Hin.
  exists k, row. split_and!; try done; [|by apply bool_decide_eq_true in Hk].
  unfold same_org in Ho. cbn [snd] in Ho. destruct (js_OrgID _), org; try done. apply bool_decide_eq_true in Ho. by rewrite Ho.
Qed.

Lemma key_is_stored moment s org key won : videoJobForKey moment s org key = Some won -> stored_for org key won (jobs_in s).
Proof using. unfold videoJobForKey. destruct (fails _ _); [done|]. apply found_is_stored. Qed.

Lemma create_row_answer prep sub req quote units route cred holdID ttl mjs retention s job b s' :
  createVideoJobRow prep sub req quote units route cred holdID ttl mjs retention s = (Ok (job, b), s') ->
  (keyed (jobs_in s) -> keyed (jobs_in s')) /\
  stored_for (id_OrgID (pr_id prep)) (sb_IdempotencyKey sub) job (jobs_in s').
Proof using.
  unfold createVideoJobRow. cbv zeta. set (spec := job_spec _ _ _ _ _ _ _ _ _ _).
  assert (Hl : match videoJobForKey late s (id_OrgID (pr_id prep)) (sb_IdempotencyKey sub) with
    | Some won => (Ok (won, true), s)
    | None => (Err (NewError GatewayInternal "The job could not be created"), s)
    end = (Ok (job, b), s') -> (keyed (jobs_in s) -> keyed (jobs_in s')) /\
      stored_for (id_OrgID (pr_id prep)) (sb_IdempotencyKey sub) job (jobs_in s')).
  { destruct (videoJobForKey _ _ _ _) as [won|] eqn:E; [|done]. intros [= <- <- <-]. split; [done|by eapply key_is_stored]. }
  destruct (fails "CreateVideoJob" _); [exact Hl|].
  destruct (CreateVideoJob spec _ _ _ _) as [[j jobs]|] eqn:E; [|exact Hl]. intros [= <- <- <-].
  split; [by apply (create_keyed _ _ _ _ _ _ _ E)|].
  unfold CreateVideoJob in E. destruct (_ || _); [done|]. injection E as <- <-.
  exists (js_ID spec), (created spec (job_pin route cred) (now + ttl) now). split_and!; try done.
  exact (lookup_insert_eq (jobs_in s) (js_ID spec) _).
Qed.

Lemma route_keyed prep sub req byok audioOn units mjs retention route s :
  keyed (jobs_in s) -> keyed (jobs_in (submitToRoute prep sub req byok audioOn units mjs retention route s).2).
Proof using.
  intros Hk. unfold submitToRoute. destruct (MapperFor _) as [mapper|]; [|exact Hk].
  destruct (credentialFor _ _ _ _) as [[cred|e0] p]; [|exact Hk].
  pose proof (quote_video prep units cred (with_pipe s p)) as Hq.
  destruct (quoteVideoForCredential _ _ _ _) as [[quote|e0] s1]; cbn [snd] in Hq;
    assert (Hk1 : keyed (jobs_in s1)) by (unfold jobs_in; by rewrite Hq); [|exact Hk1].
  cbv zeta. destruct (ReserveFor _ _ _ _ _) as [[holdID|e0] books]; [|exact Hk1].
  destruct (createVideoJobRow _ _ _ _ _ _ _ _ _ _ _ _) as [[[job [|]]|e0] s3] eqn:Ec; cbn [snd].
  - by apply (proj1 (create_row_answer _ _ _ _ _ _ _ _ _ _ _ _ _ _ _ Ec)).
  - eapply quiet_keyed; [apply deliver_quiet|]. by apply (proj1 (create_row_answer _ _ _ _ _ _ _ _ _ _ _ _ _ _ _ Ec)).
  - by apply no_new_row in Ec as ->.
Qed.

(** The row just stored is still there when the upstream accepted. *)
Lemma deliver_stored mapper route cred req audioOn job s org key job' s' :
  jobs_in s !! j_ID job = Some job -> js_OrgID (j_spec job) = org -> js_IdempotencyKey (j_spec job) = key ->
  deliver mapper route cred req audioOn job s = (Ok job', s') -> stored_for org key job' (jobs_in s').
Proof using.
  intros Hj Ho Hk. unfold deliver. destruct (callVideoUpstream _ _ _ _ _) as [up|]; [|done].
  destruct (fails "MarkVideoJobSubmitted" _); [done|]. intros [= <- <-].
  destruct (update_keeps (fun j => let l := j_life j in
      Some (rescheduled (with_life j (mkLife StatusInProgress up "submitted" (jl_Progress l) (jl_ErrorCode l)
        (jl_ErrorMessage l) (Some now) (jl_TerminalAt l))) (Some (now + firstPollDelay))))
    (j_ID job) (jobs_in s) (j_ID job) job) as (row & Hrow & Es); [by intros ? ? [= <-]|done|].
  exists (j_ID job), row. split_and!; [exact Hrow|exact Es|by rewrite Es|by rewrite Es].
Qed.

Lemma route_stored prep sub req byok audioOn units mjs retention route s job s' :
  submitToRoute prep sub req byok audioOn units mjs retention route s = (Ok job, s') ->
  stored_for (id_OrgID (pr_id prep)) (sb_IdempotencyKey sub) job (jobs_in s').
Proof using.
  unfold submitToRoute. destruct (MapperFor _) as [mapper|]; [|done].
  destruct (credentialFor _ _ _ _) as [[cred|e0] p]; [|done].
  destruct (quoteVideoForCredential _ _ _ _) as [[quote|e0] s1]; [|done].
  cbv zeta. destruct (ReserveFor _ _ _ _ _) as [[holdID|e0] books]; [|done].
  destruct (createVideoJobRow _ _ _ _ _ _ _ _ _ _ _ _) as [[[j [|]]|e0] s3] eqn:Ec; [| |done].
  - intros [= <- <-]. by apply (proj2 (create_row_answer _ _ _ _ _ _ _ _ _ _ _ _ _ _ _ Ec)).
  - apply created_row in Ec as (-> & _ & Hj & _). apply deliver_stored; [|done|done]. rewrite Hj. apply lookup_insert_eq.
Qed.

Lemma rotation_stored prep sub req byok audioOn units mjs retention lastErr routes s :
  let '(a, s') := submitVideoJob prep sub req byok audioOn units mjs retention lastErr routes s in
  (keyed (jobs_in s) -> keyed (jobs_in s')) /\
  forall job, a = Ok job -> stored_for (id_OrgID (pr_id prep)) (sb_IdempotencyKey sub) job (jobs_in s').
Proof using.
  revert lastErr s. induction routes as [|route routes IH]; intros lastErr s; cbn [submitVideoJob]; [done|].
  pose proof (route_keyed prep sub req byok audioOn units mjs retention route s) as Hk.
  pose proof (route_stored prep sub req byok audioOn units mjs retention route s) as Hs.
  destruct (submitToRoute _ _ _ _ _ _ _ _ _ _) as [[job|e] s1]; cbn [snd] in Hk.
  { split; [done|]. intros job' [= <-]. by apply Hs. }
  destruct (retryableVideoSubmit e); [|done]. specialize (IH (Some e) s1).
  destruct (submitVideoJob _ _ _ _ _ _ _ _ _ _ _) as [a s2]. destruct IH as [K1 K2]. split; [by auto|done].
Qed.

(** ** A submission at a glance *)

Abbreviation Prepare_ := (Prepare ValidateTransport HashToken sha256hex).

(** A submission under a key that was used reaches nobody's money and no table. *)
Lemma repeated_key_quiet `{!SettlerLaws B} f ev ic sub vendor ms s who slug a adm won :
  Prepare_ ev (lend_limiter (st_pipe s) (st_adm s)) ic = (who, slug, Ok a, adm) ->
  GetVideoJobByIdempotencyKey (id_OrgID (pr_id (am_prep a))) (sb_IdempotencyKey sub) (jobs_in s) = Some won ->
  let '(answer, s') := admitAndSubmitVideo f ev ic sub vendor ms s in
  jobs_in s' = jobs_in s /\ vw_objects (st_video s') = vw_objects (st_video s) /\
  moneyless (books_in s) (books_in s') /\
  match answer with
  | Ok (job, replayed) =>
      job = won /\
      (if replayed then js_RequestFingerprint (j_spec won) = sb_Fingerprint sub
       else fails early (sb_IdempotencyKey sub) = true)
  | Err _ => True
  end.
Proof using.
  intros Hp Hw. unfold admitAndSubmitVideo. rewrite Hp. cbv zeta.
  set (s1 := mkSubmit (st_video s) adm _).
  assert (Hrefuse : forall s2 e, st_video s2 = st_video s ->
    let s3 := with_video s2 (with_books (st_video s2)
      (RecordRejection (T := T) f (books_in s2) (default zero_identity who) slug (ic_req ic) (sb_RequestID sub) e ms)) in
    jobs_in s3 = jobs_in s /\ vw_objects (st_video s3) = vw_objects (st_video s) /\
    moneyless (books_in s) (books_in s3) /\ True).
  { intros s2 e E. unfold books_in, jobs_in. cbn [with_video st_video with_books vw_jobs vw_objects vw_books].
    rewrite E. split_and!; try done. apply moneyless_rejection. }
  destruct (negb (bool_decide (vendor = ""%string)) && _); [by apply Hrefuse|].
  destruct (ValidateEnvelope _ _ _); [by apply Hrefuse|].
  destruct (negb (nonempty _)); [by apply Hrefuse|].
  pose proof (videoUnits_video (am_prep a) (sb_Request sub)
    (ResolveAudio (UnionOf (map (fun rt => readEnvelope (VideoEnvelope rt)) (video_candidates (am_prep a) vendor)))
       (sb_Request sub)) s1) as Hv.
  destruct (videoUnits _ _ _ _) as [[units|e] s2]; cbn [snd] in Hv; [|by apply Hrefuse].
  assert (Hw2 : GetVideoJobByIdempotencyKey (id_OrgID (pr_id (am_prep a))) (sb_IdempotencyKey sub) (jobs_in s2) = Some won)
    by (unfold jobs_in; by rewrite Hv).
  destruct (fails early (sb_IdempotencyKey sub)) eqn:Ef; unfold videoJobForKey; rewrite Ef.
  - pose proof (fun m r l c => used_rotation (am_prep a) sub (ic_req ic) (am_byok a)
      (ResolveAudio (UnionOf (map (fun rt => readEnvelope (VideoEnvelope rt)) (video_candidates (am_prep a) vendor)))
         (sb_Request sub)) units m r l c s2 won Hw2) as Hu.
    match goal with |- context [submitVideoJob _ _ _ _ _ _ ?m ?r ?l ?c _] => specialize (Hu m r l c) end.
    destruct (submitVideoJob _ _ _ _ _ _ _ _ _ _ _) as [[job|e] s3]; destruct Hu as (Ha & Hj & Ho & Hm);
      assert (Ej : jobs_in s3 = jobs_in s) by (rewrite Hj; unfold jobs_in; by rewrite Hv);
      assert (Eo : vw_objects (st_video s3) = vw_objects (st_video s)) by (rewrite Ho; by rewrite Hv);
      assert (Em : moneyless (books_in s) (books_in s3)) by (change (books_in s) with (books_in s1); unfold books_in at 1; rewrite <- Hv; exact Hm).
    + split_and!; try done. destruct Ha as [[= ->]|[e [=]]]. done.
    + split_and!; try done. eapply moneyless_trans; [exact Em|apply moneyless_rejection].
  - rewrite Hw2. case_bool_decide; [|by apply Hrefuse]. unfold jobs_in, books_in. rewrite Hv.
    split_and!; try done. apply moneyless_refl.
Qed.

(** Its effect on the video plane is a run of [vstep]. *)
Lemma submission_runs `{!SettlerLaws B} NumericScan f ev ic sub vendor ms s hand :
  unclaimed sub s hand ->
  exists hand',
    rtc (vstep NumericScan) (mkVState now (st_video s) hand)
      (mkVState now (st_video (admitAndSubmitVideo f ev ic sub vendor ms s).2) hand').
Proof using H1.
  intros Hu. unfold admitAndSubmitVideo.
  destruct (Prepare_ ev (lend_limiter (st_pipe s) (st_adm s)) ic) as [[[who slug] a] adm]. cbv zeta.
  set (s1 := mkSubmit (st_video s) adm _).
  assert (Hrefuse : forall s2 e,
    (exists h, rtc (vstep NumericScan) (mkVState now (st_video s) hand) (mkVState now (st_video s2) h)) ->
    exists h, rtc (vstep NumericScan) (mkVState now (st_video s) hand)
      (mkVState now (with_books (st_video s2) (RecordRejection (T := T) f (books_in s2)
         (default zero_identity who) slug (ic_req ic) (sb_RequestID sub) e ms)) h)).
  { intros s2 e [h Hr]. exists h. unfold RecordRejection, logFailure, books_in.
    assert (Hsame : with_books (st_video s2) (vw_books (st_video s2)) = st_video s2) by by destruct (st_video s2).
    destruct (id_OrgID _); [|by rewrite Hsame]. destruct (f_insert f); [by rewrite Hsame|].
    eapply rtc_r; [exact Hr|]. refine (v_free_row _ (mkVState now (st_video s2) h) _ _). done. }
  assert (Hstay : forall s2, st_video s2 = st_video s ->
    exists h, rtc (vstep NumericScan) (mkVState now (st_video s) hand) (mkVState now (st_video s2) h)).
  { intros s2 E. exists hand. by rewrite E. }
  destruct a as [a|e]; [|by apply Hrefuse, Hstay].
  destruct (negb (bool_decide (vendor = ""%string)) && _); [by apply Hrefuse, Hstay|].
  destruct (ValidateEnvelope _ _ _); [by apply Hrefuse, Hstay|].
  destruct (negb (nonempty _)); [by apply Hrefuse, Hstay|].
  set (audioOn := ResolveAudio _ _).
  pose proof (videoUnits_video (am_prep a) (sb_Request sub) audioOn s1) as Hv.
  destruct (videoUnits _ _ _ _) as [[units|e] s2]; cbn [snd] in Hv; [|by apply Hrefuse, Hstay].
  destruct (videoJobForKey _ _ _ _) as [won|].
  { case_bool_decide; [by apply Hstay|by apply Hrefuse, Hstay]. }
  set (mjs := envelopeJobSeconds _). set (routes := coveringRoutes _ _ _ _).
  destruct (rotation_leads NumericScan sub (am_prep a) (ic_req ic) (am_byok a) audioOn units mjs
    (VideoRetention (ev_int ev)) None routes s2 hand) as (h & Hr & _).
  { apply (one_row_same sub s); [by unfold jobs_in; rewrite Hv|by unfold books_in; rewrite Hv|by left]. }
  change (st_video s1) with (st_video s) in Hv. rewrite Hv in Hr.
  destruct (submitVideoJob _ _ _ _ _ _ _ _ _ _ _) as [[job|e] s3]; [by exists h|]. apply Hrefuse. by exists h.
Qed.

(** Every answer of a submission is a row of the caller's organization under the key. *)
Lemma admitted_row f ev ic sub vendor ms s who slug a adm job replayed s' :
  Prepare_ ev (lend_limiter (st_pipe s) (st_adm s)) ic = (who, slug, Ok a, adm) ->
  admitAndSubmitVideo f ev ic sub vendor ms s = (Ok (job, replayed), s') ->
  (keyed (jobs_in s) -> keyed (jobs_in s')) /\
  stored_for (id_OrgID (pr_id (am_prep a))) (sb_IdempotencyKey sub) job (jobs_in s').
Proof using.
  intros Hp. unfold admitAndSubmitVideo. rewrite Hp. cbv zeta.
  destruct (negb (bool_decide (vendor = ""%string)) && _); [done|].
  destruct (ValidateEnvelope _ _ _); [done|]. destruct (negb (nonempty _)); [done|].
  set (audioOn := ResolveAudio _ _). set (s1 := mkSubmit (st_video s) adm _).
  pose proof (videoUnits_video (am_prep a) (sb_Request sub) audioOn s1) as Hv.
  destruct (videoUnits _ _ _ _) as [[units|e] s2]; cbn [snd] in Hv; [|done].
  assert (Ej : jobs_in s2 = jobs_in s) by (unfold jobs_in; by rewrite Hv).
  destruct (videoJobForKey _ _ _ _) as [won|] eqn:Ek.
  { case_bool_decide; [|done]. intros [= <- _ <-]. rewrite Ej. split; [done|]. rewrite <- Ej. by eapply key_is_stored. }
  pose proof (rotation_stored (am_prep a) sub (ic_req ic) (am_byok a) audioOn units
    (envelopeJobSeconds (UnionOf (map (fun rt => readEnvelope (VideoEnvelope rt)) (video_candidates (am_prep a) vendor))))
    (VideoRetention (ev_int ev)) None
    (coveringRoutes (video_candidates (am_prep a) vendor)
       (map (fun rt => readEnvelope (VideoEnvelope rt)) (video_candidates (am_prep a) vendor)) (sb_Request sub) audioOn) s2) as Hr.
  destruct (submitVideoJob _ _ _ _ _ _ _ _ _ _ _) as [[j|e] s3]; [|done]. intros [= <- _ <-].
  rewrite Ej in Hr. destruct Hr as [K1 K2]. split; [exact K1|by apply K2].
Qed.

(** ** Properties *)

(** C6: A key is paid for once.  When the caller's organization already has a job under
    the key, a submission that repeats it reaches nobody's money and no table: the job
    rows and stored films are as they were, no key's spend moves and nothing is
    queued, and the answer is that very job or a refusal.  It holds whatever the
    database refuses on the way, and whether the early check finds the job or, failed
    or too early to see it, leaves it to the insert.  A job the early check found is
    answered, as a replay, for the same body only; one the insert met is answered
    whatever its body was. *)
Theorem used_key_costs_nothing `{!SettlerLaws B} f ev ic sub vendor ms s who slug a adm won :
  Prepare_ ev (lend_limiter (st_pipe s) (st_adm s)) ic = (who, slug, Ok a, adm) ->
  GetVideoJobByIdempotencyKey (id_OrgID (pr_id (am_prep a))) (sb_IdempotencyKey sub) (jobs_in s) = Some won ->
  let '(answer, s') := admitAndSubmitVideo f ev ic sub vendor ms s in
  jobs_in s' = jobs_in s /\ vw_objects (st_video s') = vw_objects (st_video s) /\
  moneyless (books_in s) (books_in s') /\
  match answer with
  | Ok (job, replayed) =>
      job = won /\
      (if replayed then js_RequestFingerprint (j_spec won) = sb_Fingerprint sub
       else fails early (sb_IdempotencyKey sub) = true)
  | Err _ => True
  end.
Proof using. exact (repeated_key_quiet f ev ic sub vendor ms s who slug a adm won). Qed.

(** A submission that is refused keeps nothing.  However many candidates it went
    through and wherever it failed, nobody's spend has moved, and every job row it left
    is one that failed with its money voided; the rest of the table is as it was. *)
Theorem failed_submission_holds_nothing `{!SettlerLaws B} prep sub req byok audioOn units mjs retention lastErr
    routes s e s' :
  (forall stmt id, stmt <> "MarkVideoJobSubmitted"%string -> fails stmt id = false) ->
  submitVideoJob prep sub req byok audioOn units mjs retention lastErr routes s = (Err e, s') ->
  only_failed (jobs_in s) (jobs_in s') /\ moneyless (books_in s) (books_in s').
Proof using.
  intros Hf. revert lastErr s. induction routes as [|route routes IH]; intros lastErr s; cbn [submitVideoJob].
  { intros [= _ <-]. split; [by left|apply moneyless_refl]. }
  pose proof (route_moneyless prep sub req byok audioOn units mjs retention route s) as Hm.
  destruct (submitToRoute _ _ _ _ _ _ _ _ _ _) as [[job|e0] s1] eqn:Er; [done|]. cbn [snd] in Hm.
  apply failed_route in Er; [|done]. destruct (retryableVideoSubmit e0).
  - intros [P Q]%IH. split; [by eapply only_failed_trans|by eapply moneyless_trans].
  - by intros [= _ <-].
Qed.

(** C14: what is held is what will be charged, on the account that will do the work.  A
    candidate that accepts a new job was quoted on its own credential, exactly that
    amount was reserved, and the one row added carries it as its hold, pinned to that
    route and credential, in progress under the upstream's identifier, due for its
    first poll in five seconds, and covered for at least half an hour and at most
    six. *)
Theorem accepted_job_holds_its_charge prep sub req byok audioOn units mjs retention route s job s' :
  videoJobForKey late s (id_OrgID (pr_id prep)) (sb_IdempotencyKey sub) = None ->
  submitToRoute prep sub req byok audioOn units mjs retention route s = (Ok job, s') ->
  exists mapper cred p quote s1 holdID books upstreamID row,
    credentialFor keys_of (st_pipe s) route byok = (Ok cred, p) /\
    quoteVideoForCredential prep units cred (with_pipe s p) = (Ok quote, s1) /\
    ReserveFor (books_in s) (pr_id prep) (sb_RequestID sub) (ChargedNano quote) (videoHoldTTL mjs) = (Ok holdID, books) /\
    callVideoUpstream mapper route cred (sb_Request sub) audioOn = Ok upstreamID /\
    books_in s' = books /\ jobs_in s' = <[mint (jobs_in s) := row]> (jobs_in s) /\
    0 <= js_HoldNano (j_spec row) /\ js_HoldNano (j_spec row) = ChargedNano quote /\
    j_pin row = job_pin route cred /\ j_State row = Held /\ j_Status row = StatusInProgress /\
    jl_UpstreamID (j_life row) = upstreamID /\ jl_UpstreamID (j_life job) = upstreamID /\
    jp_NextPollAt (j_polls row) = Some (now + firstPollDelay) /\
    jm_HoldExpiresAt (j_money row) = Some (now + videoHoldTTL mjs) /\
    minVideoHoldTTL <= videoHoldTTL mjs <= maxVideoHoldTTL.
Proof using.
  intros Hk. unfold submitToRoute. destruct (MapperFor _) as [mapper|]; [|done].
  destruct (credentialFor _ _ _ _) as [[cred|e0] p]; [|done].
  pose proof (quote_video prep units cred (with_pipe s p)) as Hq.
  destruct (quoteVideoForCredential _ _ _ _) as [[quote|e0] s1] eqn:Eq; cbn [snd] in Hq; [|done].
  assert (Ej : jobs_in s1 = jobs_in s) by (unfold jobs_in; by rewrite Hq).
  assert (Eb : books_in s1 = books_in s) by (unfold books_in; by rewrite Hq).
  cbv zeta. rewrite Eb. destruct (ReserveFor _ _ _ _ _) as [[holdID|e0] books] eqn:Eh; [|done].
  set (s2 := with_video s1 _). assert (Ej2 : jobs_in s2 = jobs_in s) by exact Ej.
  destruct (createVideoJobRow _ _ _ _ _ _ _ _ _ _ _ _) as [[[j0 [|]]|e0] s3] eqn:Ec; [| |done].
  { exfalso. unfold createVideoJobRow in Ec. unfold videoJobForKey in Hk, Ec. rewrite Ej2, Hk in Ec. cbv zeta in Ec.
    destruct (fails "CreateVideoJob" _); [done|]. by destruct (CreateVideoJob _ _ _ _ _) as [[? ?]|]. }
  apply created_row in Ec as (-> & Hpos & Hj3 & Hb3 & _). rewrite Ej2 in *.
  unfold deliver. destruct (callVideoUpstream _ _ _ _ _) as [upstreamID|] eqn:Eu; [|done].
  destruct (fails "MarkVideoJobSubmitted" _); [done|]. intros [= <- <-].
  unfold MarkVideoJobSubmitted. rewrite Hj3. erewrite updated by (first [apply lookup_insert_eq|reflexivity]).
  exists mapper, cred, p, quote, s1, holdID, books, upstreamID. eexists.
  split_and!; try done; [unfold jobs_in; cbn; by rewrite insert_insert_eq|..].
  all: cbn; try done; try exact Hpos; unfold videoHoldTTL, minVideoHoldTTL, maxVideoHoldTTL, Second; lia.
Qed.

(** C18: the whole submission refines the step relation.  From any state in which nothing
    carries the request's identifier or the one about to be minted, the endpoint's effect
    on the video plane is a run of [vstep], whatever fails and however many candidates it
    tries, so the guarantees of every reachable state cover submissions running beside
    pollers, sweepers and callers. *)
Theorem submission_refines_steps `{!SettlerLaws B} NumericScan f ev ic sub vendor ms s hand :
  unclaimed sub s hand ->
  exists hand',
    rtc (vstep NumericScan) (mkVState now (st_video s) hand)
      (mkVState now (st_video (admitAndSubmitVideo f ev ic sub vendor ms s).2) hand').
Proof using H1. exact (submission_runs NumericScan f ev ic sub vendor ms s hand). Qed.
End submit.

(** ** Concrete submissions *)

#[local] Instance demo_cache : CacheStore Identity (gmap string (memEntry Identity)) :=
  Memory_cache keep_only.

(** Two routes to one model: behind the first, an upstream that refuses. *)
Definition demo_video_route (name baseURL : string) : Route nat :=
  mkRoute (Some name) (Some name) name "acme" 1 1 10000 0 false 0 0%nat (mkCapacity 0 0 4) baseURL "clip-1".
Abbreviation demo_down := (demo_video_route "down" "https://down").
Abbreviation demo_up := (demo_video_route "up" "https://up").
Definition demo_delivery (t : Target string) : result Error (Z * string) :=
  Ok (if bool_decide (tg_BaseURL t = "https://down"%string) then (500, "no"%string) else (202, "up-7"%string)).
Definition demo_mint (jobs : Jobs) : string := ("vid-" ++ show_int (length_z (map_to_list jobs)))%string.

Definition demo_video_prepared : prepared nat :=
  mkPrepared
    (mkIdentity (Some "key-1"%string) (Some "org-1"%string) (Some "tier"%string) "active" true [] 0 ""
       0 0 0 0 0 "USD" [] "" None)
    "acme/clip"
    (mkResolution (mkModel (Some "m"%string) "acme/clip" "public" 0)
       (mkSnapshot true "paid" FamilyUnits (mkPrice 0 0 0 0) 12000 None) [demo_down; demo_up])
    (mkPricingInputs (mkRates 12000 10000 10000 (lit "1")) 0 None false "fx") 0 0
    (NewPriceTable (mkPrice 0 0 0 0) [])
    (NewUnitPriceTable [mkUnitRow UnitSecond "" "" "" "" 40000000]) ∅.
Definition demo_submission : Submission := mkSubmission "req-1" "idem-1" "print-1" (demo_clip 8).
Definition demo_video_request : Request := mkRequest SurfaceVideo false "" [].
Definition demo_video_units : Units := BillingUnits (demo_clip 8) false UnitSecond.
Definition demo_submit_state (jobs : Jobs) :
    SubmitState (B := Fake) (S := Memory) (C := gmap string (memEntry Identity)) (L := Redis) (T := nat) :=
  mkSubmit (mkVideo demo_books jobs ∅) demo_adm demo_pipeline_.

Abbreviation demo_submit routes jobs :=
  (submitVideoJob demo_keys demo_mapper_for demo_delivery no_faults demo_mint 0 demo_video_prepared demo_submission
     demo_video_request ∅ false demo_video_units 600 (168 * Hour) None routes (demo_submit_state jobs)).

(** A candidate that refuses ends the rotation, and the caller is told it worked.
    The refused candidate's row keeps the key, so the next candidate's insert meets it
    and the failed job itself comes back as the one that won the race: an accepted answer
    carrying a job already failed, though the second route alone would have served it. *)
Theorem refused_candidate_ends_the_rotation :
  let '(both, s) := demo_submit [demo_down; demo_up] ∅ in
  let '(second, _) := demo_submit [demo_up] ∅ in
  match both, second with
  | Ok failed, Ok served =>
      j_Status failed = StatusFailed /\ j_State failed = Voided /\ jn_RouteID (j_pin failed) = r_ID demo_down /\
      j_Status served = StatusInProgress /\ jl_UpstreamID (j_life served) = "up-7"%string /\
      map (fun kj => j_Status kj.2) (map_to_list (jobs_in s)) = [StatusFailed]
  | _, _ => False
  end.
Proof. vm_compute. split_and!; reflexivity. Qed.


Lemma failed_submission_holds_nothing_witness :
  let '(a, s) := demo_submit [demo_down; demo_down] ∅ in
  map (fun kj => j_Status kj.2) (map_to_list (jobs_in (demo_submit [demo_down] ∅).2)) = [StatusFailed] /\
  only_failed ∅ (jobs_in (demo_submit [demo_down] ∅).2) /\
  moneyless demo_books (books_in (demo_submit [demo_down] ∅).2).
Proof.
  destruct (demo_submit [demo_down; demo_down] ∅) as [a s]. split; [vm_compute; reflexivity|].
  assert (W : (match (demo_submit [demo_down] ∅).1 with Err _ => true | Ok _ => false end) = true)
    by (vm_compute; reflexivity).
  destruct (demo_submit [demo_down] ∅) as [r s'] eqn:E. cbn [fst snd] in *. destruct r as [job|e]; [discriminate W|].
  exact (failed_submission_holds_nothing demo_keys demo_mapper_for demo_delivery no_faults demo_mint 0
    demo_video_prepared demo_submission demo_video_request ∅ false demo_video_units 600 (168 * Hour) None
    [demo_down] (demo_submit_state ∅) e s' (fun _ _ _ => eq_refl) E).
Defined.

Abbreviation demo_accept :=
  (submitToRoute demo_keys demo_mapper_for demo_delivery no_faults demo_mint 0 demo_video_prepared demo_submission
     demo_video_request ∅ false demo_video_units 600 (168 * Hour) demo_up (demo_submit_state ∅)).

Lemma accepted_job_holds_its_charge_witness :
  exists row,
    jobs_in demo_accept.2 = <["vid-0"%string := row]> ∅ /\ js_HoldNano (j_spec row) = 384000000 /\
    j_State row = Held /\ j_Status row = StatusInProgress /\
    jm_HoldExpiresAt (j_money row) = Some (0 + videoHoldTTL 600).
Proof.
  assert (K : videoJobForKey no_faults late (demo_submit_state ∅) (Some "org-1"%string) "idem-1" = None)
    by (vm_compute; reflexivity).
  assert (W : (match demo_accept.1 with Ok _ => true | Err _ => false end) = true /\
    (js_HoldNano ∘ j_spec) <$> jobs_in demo_accept.2 !! "vid-0"%string = Some 384000000)
    by (vm_compute; split; reflexivity).
  destruct demo_accept as [r s'] eqn:E. cbn [fst snd] in *. destruct W as [W1 W2].
  destruct r as [job|e]; [|discriminate W1].
  destruct (accepted_job_holds_its_charge demo_keys demo_mapper_for demo_delivery no_faults demo_mint 0
    demo_video_prepared demo_submission demo_video_request ∅ false demo_video_units 600 (168 * Hour) demo_up
    (demo_submit_state ∅) job s' K E) as
    (m & c & p & q & s1 & h & b & u & row & _ & _ & _ & _ & _ & Hj & _ & _ & _ & Hs & Ht & _ & _ & _ & He & _).
  exists row. rewrite Hj in W2. cbn [jobs_in] in *.
  split; [exact Hj|]. split; [|exact (conj Hs (conj Ht He))].
  change (demo_mint (jobs_in (demo_submit_state ∅))) with "vid-0"%string in W2. rewrite lookup_insert_eq in W2.
  cbn in W2. congruence.
Defined.

(** The gateway of the catalog's example, with a per-second model of one route. *)
Definition demo_video_queries : Queries (raw := bool) :=
  mkQueries (GetModelBySlug demo_queries) (fun _ _ => Ok (Some true))
    (fun _ => Ok (Some (mkPricingRow "paid" FamilyUnits (Some 0) (Some 0) (Some 0) (Some 0) 12000 None)))
    (ListRoutesForModel demo_queries) (GetRouteCostMultiplier demo_queries).
Definition demo_video_env : Env (raw := bool) :=
  let ev := demo_env false in
  mkEnv (ev_auth ev) (ev_int ev) (ev_bool ev) (ev_string ev) (ev_affinity ev) (ev_affinity_tx ev) (ev_byok ev)
    true true demo_video_queries
    (mkPriceQueries (ResolveUsagePricing demo_prices) (fun _ => Ok []) (fun _ => Ok [])
       (fun _ => Ok [mkUnitRow UnitSecond "" "" "" "" 40000000]))
    (ev_spend ev) (ev_today ev) (ev_clock ev) 5 6.
Definition demo_video_incoming : Incoming :=
  mkIncoming demo_video_request demo_key "video" "demo" (mkStateRef "" None) false demo_probes.
Definition demo_vendor_mapper (vendor : string) : option (Mapper string string) := Some (demo_mapper StatusCompleted).

Abbreviation demo_post sub s :=
  (admitAndSubmitVideo demo_validate demo_hash (fun _ => ""%string) demo_keys demo_vendor_mapper demo_delivery
     (fun _ => Ok listed) no_faults demo_mint 0 Ledger.no_faults demo_video_env demo_video_incoming sub "" 12 s).

Example demo_posted :
  let '(first, s) := demo_post demo_submission (demo_submit_state ∅) in
  let '(second, s') := demo_post demo_submission s in
  let '(third, _) := demo_post (mkSubmission "req-3" "idem-1" "print-9" (demo_clip 8)) s in
  match first, second, third with
  | Ok (_, false), Ok (job, true), Err e => j_ID job = "vid-0"%string /\ Code e = GatewayInvalidRequest
  | _, _, _ => False
  end.
Proof. vm_compute. split; reflexivity. Qed.

(** The table after the first of those posts. *)
Abbreviation demo_kept := (default demo_job (jobs_in (demo_post demo_submission (demo_submit_state ∅)).2 !! "vid-0"%string)).
Abbreviation demo_again := (demo_submit_state {["vid-0"%string := demo_kept]}).
Abbreviation demo_video_open := (Prepare demo_validate demo_hash (fun _ => ""%string) demo_video_env
  (lend_limiter (st_pipe demo_again) (st_adm demo_again)) demo_video_incoming).

Lemma used_key_costs_nothing_witness :
  js_RequestID (j_spec demo_kept) = "req-1"%string /\
  let '(answer, s') := demo_post demo_submission demo_again in
  jobs_in s' = jobs_in demo_again /\ moneyless (books_in demo_again) (books_in s').
Proof.
  split; [vm_compute; reflexivity|].
  assert (W : (match demo_video_open.1.2 with Ok a => GetVideoJobByIdempotencyKey (id_OrgID (pr_id (am_prep a)))
                  (sb_IdempotencyKey demo_submission) (jobs_in demo_again) | Err _ => None end) = Some demo_kept)
    by (vm_compute; reflexivity).
  destruct demo_video_open as [[[who slug] a] adm] eqn:E. cbn [fst snd] in W. destruct a as [a|e]; [|discriminate W].
  pose proof (used_key_costs_nothing demo_validate demo_hash (fun _ => ""%string) demo_keys demo_vendor_mapper
    demo_delivery (fun _ => Ok listed) no_faults demo_mint 0 Ledger.no_faults demo_video_env demo_video_incoming
    demo_submission "" 12 demo_again who slug a adm demo_kept E W) as K.
  destruct (demo_post demo_submission demo_again) as [answer s']. destruct K as (K1 & _ & K3 & _).
  exact (conj K1 K3).
Defined.

(** A key met by the insert is answered without a look at the body: with the early check
    failed, or made before the row was there, another request under the key is given
    the first one's job. *)
Theorem a_lost_race_skips_the_fingerprint :
  let missed moment (_ : string) := bool_decide (moment = early) in
  exists job s',
    admitAndSubmitVideo demo_validate demo_hash (fun _ => ""%string) demo_keys demo_vendor_mapper demo_delivery
      (fun _ => Ok listed) missed demo_mint 0 Ledger.no_faults demo_video_env demo_video_incoming
      (mkSubmission "req-3" "idem-1" "print-9" (demo_clip 8)) "" 12 demo_again = (Ok (job, false), s') /\
    js_RequestFingerprint (j_spec job) <> "print-9"%string.
Proof.
  cbv zeta. match goal with |- exists job s', ?t = _ /\ _ =>
    assert (W : (match t.1 with Ok (j, false) => negb (bool_decide (js_RequestFingerprint (j_spec j) = "print-9"%string))
                              | _ => false end) = true) by (vm_compute; reflexivity); destruct t as [[[j [|]]|e] s'] end;
    [discriminate W| |discriminate W].
  exists j, s'. split; [reflexivity|]. by apply negb_true_iff, bool_decide_eq_false in W.
Qed.

Lemma submission_refines_steps_witness :
  exists hand',
    rtc (vstep demo_scan_numeric) (mkVState 0 (mkVideo demo_books ∅ ∅) [])
      (mkVState 0 (st_video (demo_post demo_submission (demo_submit_state ∅)).2) hand').
Proof.
  apply (submission_refines_steps demo_validate demo_hash (fun _ => ""%string) demo_keys demo_vendor_mapper
    demo_delivery (fun _ => Ok listed) no_faults demo_mint 0 demo_scan_numeric Ledger.no_faults demo_video_env
    demo_video_incoming demo_submission "" 12 (demo_submit_state ∅) []).
  split; [|reflexivity]. intros j [Hj|Hj]; [by apply not_elem_of_nil in Hj|done].
Defined.
