(* ===== verification/Http.v ===== *)
(** * The HTTP and URL vocabulary of the outbound side

    The parts of Go's [net/http], [net/url] and [strings] that addressing an
    upstream uses: substring replacement, path escaping, header names with their
    canonical form, and the header map. *)
From S2P Require Import Prelude GoStr.

Open Scope Z_scope.

(** ** Substrings *)

(** [strings.ReplaceAll] for a non-empty [old]; [skip] counts the bytes of a match
    still to be passed over. *)
Fixpoint replace_from (skip : nat) (old new s : bytes) : bytes :=
  match s with
  | [] => []
  | c :: s' =>
      match skip with
      | S k => replace_from k old new s'
      | O => if has_prefix s old then new ++ replace_from (length old - 1) old new s'
             else c :: replace_from 0 old new s'
      end
  end.
Definition ReplaceAll (s old new : bytes) : bytes := replace_from 0 old new s.

(** [strings.Contains]. *)
Fixpoint Contains (s sub : bytes) : bool :=
  has_prefix s sub || match s with [] => false | _ :: s' => Contains s' sub end.

(** [strings.ContainsAny]. *)
Definition ContainsAny (s chars : bytes) : bool := existsb (fun c => bool_decide (c ∈ chars)) s.

(** [strings.TrimPrefix] and [strings.TrimSuffix]. *)
Definition TrimPrefix (s p : bytes) : bytes := if has_prefix s p then drop (length p) s else s.
Definition HasSuffix (s p : bytes) : bool := has_prefix (rev s) (rev p).
Definition TrimSuffix (s p : bytes) : bytes := if HasSuffix s p then take (length s - length p) s else s.

(** ASCII upper case; [strings.ToLower] on an ASCII string. *)
Definition upper (c : ascii) : ascii :=
  if (97 <=? ord c) && (ord c <=? 122) then byte_of (ord c - 32) else c.
Definition ToLower (s : bytes) : bytes := map lower s.

Lemma ReplaceAll_absent s old new : Contains s old = false -> ReplaceAll s old new = s.
Proof.
  unfold ReplaceAll. induction s as [|c s IH]; [done|]. cbn [Contains replace_from].
  intros [-> H2]%orb_false_iff. by rewrite IH.
Qed.

Lemma replace_from_elem k old new s c :
  c ∈ replace_from k old new s -> c ∈ s \/ c ∈ new.
Proof.
  revert k. induction s as [|d s IH]; intros k; cbn [replace_from]; [by intros ?%elem_of_nil|].
  rewrite elem_of_cons. destruct k as [|k]; [|by intros [?|?]%IH; auto].
  destruct (has_prefix (d :: s) old).
  - rewrite elem_of_app. intros [?|[?|?]%IH]; auto.
  - rewrite elem_of_cons. intros [?|[?|?]%IH]; auto.
Qed.

Lemma replace_head c s old new :
  has_prefix (c :: s) old = false -> exists s', ReplaceAll (c :: s) old new = c :: s'.
Proof. unfold ReplaceAll. cbn [replace_from]. intros ->. eauto. Qed.

Lemma ContainsAny_false s chars : ContainsAny s chars = false <-> forall c, c ∈ s -> c ∉ chars.
Proof.
  unfold ContainsAny. induction s as [|d s IH]; cbn [existsb].
  - split; [by intros _ c ?%elem_of_nil|done].
  - rewrite orb_false_iff, bool_decide_eq_false, IH. split.
    + intros [H1 H2] c [->|H]%elem_of_cons; auto.
    + intros H. split; [apply H; left|intros c Hc; apply H; by right].
Qed.

(** ** Path escaping *)

Definition is_alpha (c : ascii) : bool :=
  (65 <=? ord c) && (ord c <=? 90) || (97 <=? ord c) && (ord c <=? 122).

(** The bytes [url.PathEscape] leaves alone in one path segment. *)
Definition segment_byte (c : ascii) : bool :=
  is_alpha c || is_digit c || bool_decide (c ∈ lit "-_.~$&+:=@").

Definition hex_digit (d : Z) : ascii := if d <? 10 then byte_of (48 + d) else byte_of (55 + d).
Definition unhex (c : ascii) : option Z :=
  if is_digit c then Some (ord c - 48)
  else if (65 <=? ord c) && (ord c <=? 70) then Some (ord c - 55)
  else if (97 <=? ord c) && (ord c <=? 102) then Some (ord c - 87)
  else None.

Definition escape_byte (c : ascii) : bytes :=
  if segment_byte c then [c] else ["%"%char; hex_digit (ord c / 16); hex_digit (ord c mod 16)].
Definition PathEscape (s : bytes) : bytes := s ≫= escape_byte.

(** [url.PathUnescape]; [None] is its error. *)
Fixpoint PathUnescape (s : bytes) : option bytes :=
  match s with
  | [] => Some []
  | "%"%char :: a :: b :: s' =>
      match unhex a, unhex b with
      | Some x, Some y => cons (byte_of (16 * x + y)) <$> PathUnescape s'
      | _, _ => None
      end
  | c :: s' => if bool_decide (c = "%"%char) then None else cons c <$> PathUnescape s'
  end.

Lemma unhex_digit d : 0 <= d < 16 -> unhex (hex_digit d) = Some d.
Proof.
  intros Hd. assert (Hin : d ∈ (seqZ 0 16)) by (apply elem_of_seqZ; lia).
  vm_compute in Hin. repeat (apply elem_of_cons in Hin as [->|Hin]; [by vm_compute|]).
  by apply elem_of_nil in Hin.
Qed.

Lemma unescape_plain c s :
  c <> "%"%char -> PathUnescape (c :: s) = cons c <$> PathUnescape s.
Proof.
  intros Hc. cbn [PathUnescape].
  destruct (decide (c = "%"%char)) as [|_]; [done|]. rewrite bool_decide_eq_false_2 by done.
  destruct c as [[] [] [] [] [] [] [] []]; try reflexivity; done.
Qed.

Lemma unescape_escape s : PathUnescape (PathEscape s) = Some s.
Proof.
  unfold PathEscape. induction s as [|c s IH]; [done|]. cbn [mbind list_bind].
  unfold escape_byte at 1. destruct (segment_byte c) eqn:Ec.
  - cbn [app]. rewrite unescape_plain; [by rewrite IH|]. intros ->. by vm_compute in Ec.
  - cbn [app PathUnescape]. pose proof (ord_range c) as Hr.
    rewrite !unhex_digit by (first [apply Z.mod_pos_bound; lia|
      split; [apply Z.div_pos; lia|apply Z.div_lt_upper_bound; lia]]).
    rewrite IH. cbn [fmap option_fmap option_map].
    by rewrite <- Z.div_mod, byte_of_ord by lia.
Qed.

(** What an escaped segment is made of: never a separator of paths, queries or
    fragments, and never a brace. *)
Lemma escaped_bytes s c : c ∈ PathEscape s -> segment_byte c = true \/ c = "%"%char.
Proof.
  unfold PathEscape. rewrite list_elem_of_bind. intros (d & Hc & _). unfold escape_byte in Hc.
  destruct (segment_byte d) eqn:Ed; [by apply list_elem_of_singleton in Hc as ->; left|].
  assert (Hhex : forall x, 0 <= x < 16 -> segment_byte (hex_digit x) = true).
  { intros x Hx. assert (Hin : x ∈ (seqZ 0 16)) by (apply elem_of_seqZ; lia).
    vm_compute in Hin. repeat (apply elem_of_cons in Hin as [->|Hin]; [by vm_compute|]).
    by apply elem_of_nil in Hin. }
  pose proof (ord_range d) as Hr.
  apply elem_of_cons in Hc as [->|[->|[->|Hc]%elem_of_cons]%elem_of_cons]; [by right| | |by apply elem_of_nil in Hc];
    left; apply Hhex; first [apply Z.mod_pos_bound; lia|
      split; [apply Z.div_pos; lia|apply Z.div_lt_upper_bound; lia]].
Qed.

(** ** Header names *)

(** The bytes of a token. *)
Definition token_byte (c : ascii) : bool :=
  is_alpha c || is_digit c || bool_decide (c ∈ lit "!#$%&'*+-.^_`|~").

Fixpoint canon (up : bool) (s : bytes) : bytes :=
  match s with
  | [] => []
  | c :: s' => (if up then upper c else lower c) :: canon (bool_decide (c = "-"%char)) s'
  end.

(** [http.CanonicalHeaderKey]: anything that is no token is left as it is. *)
Definition CanonicalHeaderKey (s : bytes) : bytes :=
  if forallb token_byte s then canon true s else s.

Lemma upper_lower c : upper (lower c) = upper c.
Proof. by destruct c as [[] [] [] [] [] [] [] []]. Qed.
Lemma lower_upper c : lower (upper c) = lower c.
Proof. by destruct c as [[] [] [] [] [] [] [] []]. Qed.
Lemma lower_lower c : lower (lower c) = lower c.
Proof. by destruct c as [[] [] [] [] [] [] [] []]. Qed.
Lemma upper_upper c : upper (upper c) = upper c.
Proof. by destruct c as [[] [] [] [] [] [] [] []]. Qed.
Lemma token_upper c : token_byte (upper c) = token_byte c.
Proof. by destruct c as [[] [] [] [] [] [] [] []]. Qed.
Lemma token_lower c : token_byte (lower c) = token_byte c.
Proof. by destruct c as [[] [] [] [] [] [] [] []]. Qed.
Lemma dash_lower c : lower c = "-"%char <-> c = "-"%char.
Proof. split; [|by intros ->]. by destruct c as [[] [] [] [] [] [] [] []]. Qed.
Lemma dash_upper c : upper c = "-"%char <-> c = "-"%char.
Proof. split; [|by intros ->]. by destruct c as [[] [] [] [] [] [] [] []]. Qed.

Lemma canon_lower up s : canon up (ToLower s) = canon up s.
Proof.
  revert up. induction s as [|c s IH]; intros up; [done|]. cbn [ToLower map canon].
  rewrite (bool_decide_ext _ _ (dash_lower c)), upper_lower, lower_lower.
  f_equal. apply IH.
Qed.

Lemma lower_canon up s : ToLower (canon up s) = ToLower s.
Proof.
  unfold ToLower. revert up. induction s as [|c s IH]; intros up; [done|]. cbn [canon map].
  rewrite IH. f_equal. destruct up; [apply lower_upper|apply lower_lower].
Qed.

Lemma canon_canon up s : canon up (canon up s) = canon up s.
Proof. by rewrite <- canon_lower, lower_canon, canon_lower. Qed.

Lemma canon_token up s : forallb token_byte (canon up s) = forallb token_byte s.
Proof.
  revert up. induction s as [|c s IH]; intros up; [done|]. cbn [canon forallb]. rewrite IH.
  by destruct up; rewrite ?token_upper, ?token_lower.
Qed.

Lemma CanonicalHeaderKey_idem s : CanonicalHeaderKey (CanonicalHeaderKey s) = CanonicalHeaderKey s.
Proof.
  unfold CanonicalHeaderKey at 2 3. destruct (forallb token_byte s) eqn:E.
  - unfold CanonicalHeaderKey. by rewrite canon_token, E, canon_canon.
  - unfold CanonicalHeaderKey. by rewrite E.
Qed.

(** Two tokens name one header exactly when they differ in case only. *)
Lemma CanonicalHeaderKey_eq a b :
  forallb token_byte a = true -> forallb token_byte b = true ->
  CanonicalHeaderKey a = CanonicalHeaderKey b <-> ToLower a = ToLower b.
Proof.
  unfold CanonicalHeaderKey. intros -> ->. split; intros E.
  - by rewrite <- (lower_canon true a), E, lower_canon.
  - by rewrite <- (canon_lower true a), E, canon_lower.
Qed.

(** ** The header map: [http.Header] *)

Abbreviation Header := (gmap bytes (list bytes)).

Definition header_set (h : Header) (k v : bytes) : Header := <[CanonicalHeaderKey k := [v]]> h.
Definition header_del (h : Header) (k : bytes) : Header := delete (CanonicalHeaderKey k) h.
Definition header_get (h : Header) (k : bytes) : bytes :=
  default [] (h !! CanonicalHeaderKey k ≫= head).

(** ** Replacement keeps other placeholders

    Two words that open with the same byte, have it nowhere else, and do not begin
    one another cannot overlap, so replacing one leaves every occurrence of the
    other. *)
Lemma Contains_app a s sub : Contains s sub = true -> Contains (a ++ s) sub = true.
Proof.
  intros H. induction a as [|c a IH]; [done|]. cbn [app Contains]. rewrite IH. apply orb_true_r.
Qed.

Lemma Contains_prefix s sub : has_prefix s sub = true -> Contains s sub = true.
Proof. destruct s; cbn [Contains]; by intros ->. Qed.

Lemma eqb_absent c (d : ascii) w : c ∉ d :: w -> Ascii.eqb c d = false /\ c ∉ w.
Proof.
  intros [Hd Hw]%not_elem_of_cons. split; [by apply Ascii.eqb_neq|done].
Qed.

Lemma Contains_skip c sub w s : c ∉ w -> Contains (w ++ s) (c :: sub) = Contains s (c :: sub).
Proof.
  induction w as [|d w IH]; [done|]. intros [Hd Hw]%eqb_absent. cbn [app Contains has_prefix].
  rewrite Hd. by apply IH.
Qed.

Lemma replace_skip old new s k : replace_from k old new s = replace_from 0 old new (drop k s).
Proof. revert s. induction k as [|k IH]; intros [|d s]; try done. apply IH. Qed.

Lemma replace_plain c old new w s :
  c ∉ w -> replace_from 0 (c :: old) new (w ++ s) = w ++ replace_from 0 (c :: old) new s.
Proof.
  induction w as [|d w IH]; [done|]. intros [Hd Hw]%eqb_absent. cbn [app replace_from has_prefix].
  rewrite Hd. cbn [andb]. by rewrite IH.
Qed.

Section keeps.
Variables (c : ascii) (old sub new : bytes).
Hypothesis Hold : c ∉ old.
Hypothesis Hsub : c ∉ sub.
Hypothesis Hapart : forall s, has_prefix s (c :: sub) = true -> has_prefix s (c :: old) = false.

Lemma ReplaceAll_keeps s :
  Contains s (c :: sub) = true -> Contains (ReplaceAll s (c :: old) new) (c :: sub) = true.
Proof using Hold Hsub Hapart.
  unfold ReplaceAll. induction s as [s IH] using (well_founded_induction (well_founded_ltof _ length)). intros Hc.
  destruct (has_prefix s (c :: sub)) eqn:Ep.
  - apply Contains_prefix. pose proof (Hapart _ Ep) as Ho. apply has_prefix_inv in Ep as (r & ->).
    cbn [app replace_from] in Ho |- *. rewrite Ho, replace_plain by done.
    apply (has_prefix_app (c :: sub)).
  - destruct s as [|d s]; [done|]. cbn [Contains] in Hc. rewrite Ep in Hc. cbn [orb] in Hc.
    cbn [replace_from]. destruct (has_prefix (d :: s) (c :: old)) eqn:Eo.
    + apply has_prefix_inv in Eo as (r & [= -> ->]). rewrite Contains_skip in Hc by done.
      apply Contains_app. cbn [length]. rewrite Nat.sub_succ, Nat.sub_0_r, replace_skip, drop_app_length.
      apply (IH r); [|done]. unfold ltof. cbn [length]. rewrite length_app. lia.
    + cbn [Contains]. rewrite (IH s); [apply orb_true_r|unfold ltof; cbn [length]; lia|done].
Qed.
End keeps.
