(* ===== verification/Transport.v ===== *)
(** * The transport profile of a provider: [internal/gateway/catalog/transport.go]

    How an upstream is addressed: the header its credential travels in, the query
    and path it needs, the body framing.  The file holds the profile with its
    readers and the validation both writes and stored reads go through. *)
From S2P Require Import Prelude GoStr RateLimit Http Surfaces Catalog.

Open Scope Z_scope.

(** ** Names *)

Definition PathChat := lit "/v1/chat/completions".
Definition PathResponses := lit "/v1/responses".
Definition PathResponsesCompact := lit "/v1/responses/compact".
Definition PathResponsesInputTokens := lit "/v1/responses/input_tokens".
Definition PathResponsesResource := lit "/v1/responses/{resource}".
Definition PathResponsesCancel := lit "/v1/responses/{resource}/cancel".
Definition PathResponsesInputItems := lit "/v1/responses/{resource}/input_items".
Definition PathEmbeddings := lit "/v1/embeddings".
Definition PathMessages := lit "/v1/messages".
Definition PathMessagesCountTokens := lit "/v1/messages/count_tokens".
Definition PathModels := lit "/v1/models".
Definition PathImagesGenerate := lit "/v1/images/generations".
Definition PathImagesEdit := lit "/v1/images/edits".
Definition PathGenerateContent := lit "/v1beta/models/{model}:generateContent".
Definition PathStreamGenerateContent := lit "/v1beta/models/{model}:streamGenerateContent".
Definition PathGeminiModels := lit "/v1beta/models".
Definition PathGeminiCountTokens := lit "/v1beta/models/{model}:countTokens".
Definition PathGeminiEmbedContent := lit "/v1beta/models/{model}:embedContent".
Definition PathGeminiBatchEmbedContents := lit "/v1beta/models/{model}:batchEmbedContents".
Definition PathGeminiInteractions := lit "/v1beta/interactions".
Definition PathGeminiInteraction := lit "/v1beta/interactions/{resource}".
Definition PathGeminiInteractionCancel := lit "/v1beta/interactions/{resource}/cancel".
Definition modelPlaceholder := lit "{model}".
Definition resourcePlaceholder := lit "{resource}".
Definition maxConnectTimeoutMS : Z := 60000.
Definition minConnectTimeoutMS : Z := 50.

Definition UpstreamPaths : list bytes :=
  [PathChat; PathResponses; PathResponsesCompact; PathResponsesInputTokens;
   PathResponsesResource; PathResponsesCancel; PathResponsesInputItems;
   PathEmbeddings; PathMessages; PathMessagesCountTokens;
   PathModels; PathImagesGenerate; PathImagesEdit;
   PathGenerateContent; PathStreamGenerateContent; PathGeminiModels;
   PathGeminiCountTokens; PathGeminiEmbedContent; PathGeminiBatchEmbedContents;
   PathGeminiInteractions; PathGeminiInteraction; PathGeminiInteractionCancel].

Definition AuthBearer := lit "bearer".
Definition AuthAPIKey := lit "x-api-key".
Definition AuthGoogAPIKey := lit "x-goog-api-key".
Definition AuthHeaderPrefix := lit "header:".
Definition AuthAWSSigV4 := lit "aws_sigv4".
Definition AuthGCPServiceAccount := lit "gcp_service_account".
Definition AuthKlingJWT := lit "kling_jwt".

Definition EnvelopeNone : bytes := [].
Definition EnvelopeBedrock := lit "bedrock".
Definition EnvelopeVertex := lit "vertex".
Definition bedrockAnthropicVersion := lit "bedrock-2023-05-31".
Definition vertexAnthropicVersion := lit "vertex-2023-10-16".
Definition DefaultSigV4Service := lit "bedrock".

(** ** The profile *)

Record SigV4Profile := mkSigV4 { Region : bytes; Service : bytes }.

Record Transport := mkTransport {
  t_Auth : bytes;
  t_AnthropicVersion : bytes;
  t_Query : gmap bytes bytes;
  t_PathOverrides : gmap bytes bytes;
  t_StreamPathOverrides : gmap bytes bytes;
  t_Envelope : bytes;
  t_SigV4 : option SigV4Profile;
  t_ConnectTimeoutMS : Z;
}.
Definition no_transport : Transport := mkTransport [] [] ∅ ∅ ∅ [] None 0.

Definition named_modes : list bytes :=
  [AuthBearer; AuthAPIKey; AuthGoogAPIKey; AuthAWSSigV4; AuthGCPServiceAccount; AuthKlingJWT].

(** The mode that names a header of the operator's choosing, with that name. *)
Definition header_mode (auth : bytes) : option bytes :=
  if has_prefix auth AuthHeaderPrefix then Some (TrimPrefix auth AuthHeaderPrefix) else None.

Definition AuthMode (t : Transport) (proto : Protocol) : bytes :=
  if bool_decide (t_Auth t ∈ named_modes) then t_Auth t
  else if match header_mode (t_Auth t) with Some name => negb (beq name []) | None => false end
  then t_Auth t
  else match proto with
       | ProtocolAnthropic => AuthAPIKey
       | ProtocolGemini => AuthGoogAPIKey
       | _ => AuthBearer
       end.

Definition SigningRegion (t : Transport) : bytes :=
  match t_SigV4 t with Some s => Region s | None => [] end.
Definition SigningService (t : Transport) : bytes :=
  match t_SigV4 t with
  | Some s => if beq (Service s) [] then DefaultSigV4Service else Service s
  | None => DefaultSigV4Service
  end.

Definition BodyEnvelope (t : Transport) : bytes :=
  if bool_decide (t_Envelope t ∈ [EnvelopeBedrock; EnvelopeVertex]) then t_Envelope t else EnvelopeNone.

Definition EnvelopeAnthropicVersion (t : Transport) : bytes :=
  let env := BodyEnvelope t in
  if beq env EnvelopeNone then []
  else if negb (beq (t_AnthropicVersion t) []) then t_AnthropicVersion t
  else if beq env EnvelopeBedrock then bedrockAnthropicVersion
  else vertexAnthropicVersion.

(** A map read of Go: the zero value for a key that is not there. *)
Definition entry (m : gmap bytes bytes) (k : bytes) : bytes := default [] (m !! k).

Definition PathFor (t : Transport) (defaultPath upstreamModel : bytes) (stream : bool) : bytes :=
  let override := if stream then entry (t_StreamPathOverrides t) defaultPath else [] in
  let override := if beq override [] then entry (t_PathOverrides t) defaultPath else override in
  ReplaceAll (if beq override [] then defaultPath else override) modelPlaceholder upstreamModel.

Definition ConnectTimeout (t : Transport) : Z :=
  if t_ConnectTimeoutMS t <=? 0 then 0 else wrap64 (t_ConnectTimeoutMS t * Millisecond).

(** ** Validation *)

(** Why a profile is refused; the wording of the messages is not modelled. *)
Inductive profile_error :=
  | NotAnObject
  | UnknownSettings (keys : gset bytes)
  | Malformed
  | SigV4NotAnObject
  | UnknownSigV4Settings (keys : gset bytes)
  | NoSigningRegion
  | NamesNoHeader
  | ReservedHeader
  | UnknownAuth
  | SigV4Unused
  | UnknownEnvelope
  | EmptyQueryName
  | NotAnUpstreamPath (setting path : bytes)
  | RelativePath (setting path : bytes)
  | QueryInPath (setting path : bytes)
  | LosesResource (setting path : bytes)
  | TimeoutOutOfRange.

Definition known_settings : list bytes :=
  [lit "auth"; lit "anthropic_version"; lit "query"; lit "path_overrides";
   lit "stream_path_overrides"; lit "envelope"; lit "sigv4"; lit "connect_timeout_ms"].
Definition known_sigv4 : list bytes := [lit "region"; lit "service"].

Definition reservedOutboundHeader (name : bytes) : bool :=
  bool_decide (ToLower name ∈ [lit "content-type"; lit "accept"; lit "anthropic-version";
                               lit "user-agent"; lit "host"; lit "content-length"]).

(** One entry of an override map. *)
Definition checkPathOverride (setting k v : bytes) : option profile_error :=
  if bool_decide (k ∉ UpstreamPaths) then Some (NotAnUpstreamPath setting k)
  else if negb (has_prefix v (lit "/")) then Some (RelativePath setting k)
  else if ContainsAny v (lit "?#") then Some (QueryInPath setting k)
  else if Contains k resourcePlaceholder && negb (Contains v resourcePlaceholder)
  then Some (LosesResource setting k)
  else None.

(** The first error of a list of checks; Go visits a map in no fixed order, so which
    of several wrong entries is named is not determined. *)
Definition first_error {A E} (f : A -> option E) (l : list A) : option E :=
  fold_right (fun x rest => match f x with Some e => Some e | None => rest end) None l.

Definition checkPathOverrides (setting : bytes) (overrides : gmap bytes bytes) : option profile_error :=
  first_error (fun kv => checkPathOverride setting kv.1 kv.2) (map_to_list overrides).

Section validate.
(** Decoding: the members of a JSON object, and the profile they spell. *)
Variable ParseObject : bytes -> result string (gmap bytes bytes).
Variable DecodeTransport : bytes -> result string Transport.
(** [httpguts.ValidHeaderFieldName]. *)
Variable ValidHeaderFieldName : bytes -> bool.

Definition unknown_keys (probe : gmap bytes bytes) (known : list bytes) : gset bytes :=
  filter (fun k => k ∉ known) (dom probe).

Definition checkSigV4Keys (raw : bytes) : option profile_error :=
  match ParseObject raw with
  | Err _ => Some SigV4NotAnObject
  | Ok probe =>
      let unknown := unknown_keys probe known_sigv4 in
      if bool_decide (unknown = ∅) then None else Some (UnknownSigV4Settings unknown)
  end.

Definition checkAuth (t : Transport) : option profile_error :=
  let auth := t_Auth t in
  if bool_decide (auth ∈ [[]; AuthBearer; AuthAPIKey; AuthGoogAPIKey]) then None
  else if beq auth AuthAWSSigV4 then
    match t_SigV4 t with
    | Some s => if beq (trim_space (Region s)) [] then Some NoSigningRegion else None
    | None => Some NoSigningRegion
    end
  else if bool_decide (auth ∈ [AuthGCPServiceAccount; AuthKlingJWT]) then None
  else match header_mode auth with
       | Some name =>
           if beq name [] || negb (ValidHeaderFieldName name) then Some NamesNoHeader
           else if reservedOutboundHeader name then Some ReservedHeader
           else None
       | None => Some UnknownAuth
       end.

Definition sigv4_unused (t : Transport) : bool :=
  match t_SigV4 t with Some _ => negb (beq (t_Auth t) AuthAWSSigV4) | None => false end.

Definition checkTimeout (t : Transport) : option profile_error :=
  let ms := t_ConnectTimeoutMS t in
  if negb (ms =? 0) && ((ms <? minConnectTimeoutMS) || (maxConnectTimeoutMS <? ms))
  then Some TimeoutOutOfRange else None.

(** The checks on a decoded profile, in the order of the code. *)
Definition check_profile (t : Transport) : option profile_error :=
  match checkAuth t with
  | Some e => Some e
  | None =>
      if sigv4_unused t then Some SigV4Unused
      else if bool_decide (t_Envelope t ∉ [EnvelopeNone; EnvelopeBedrock; EnvelopeVertex])
      then Some UnknownEnvelope
      else if existsb (fun kv => beq (trim_space kv.1) []) (map_to_list (t_Query t))
      then Some EmptyQueryName
      else match checkPathOverrides (lit "path_overrides") (t_PathOverrides t) with
           | Some e => Some e
           | None =>
               match checkPathOverrides (lit "stream_path_overrides") (t_StreamPathOverrides t) with
               | Some e => Some e
               | None => checkTimeout t
               end
           end
  end.

Definition ValidateTransport (raw : bytes) : result profile_error Transport :=
  if beq raw [] then Ok no_transport
  else match ParseObject raw with
       | Err _ => Err NotAnObject
       | Ok probe =>
           let unknown := unknown_keys probe known_settings in
           if negb (bool_decide (unknown = ∅)) then Err (UnknownSettings unknown)
           else match DecodeTransport raw with
                | Err _ => Err Malformed
                | Ok t =>
                    match probe !! lit "sigv4" ≫= checkSigV4Keys with
                    | Some e => Err e
                    | None => match check_profile t with Some e => Err e | None => Ok t end
                    end
                end
       end.

Definition ParseTransport : bytes -> result profile_error Transport := ValidateTransport.

End validate.

(** ** What a valid profile is *)

(** The requirements validation enforces, stated once for the whole profile. *)
Record addressable (ValidHeaderFieldName : bytes -> bool) (t : Transport) : Prop := {
  ad_auth : t_Auth t ∈ [] :: named_modes \/
    exists name, header_mode (t_Auth t) = Some name /\ name <> [] /\
      ValidHeaderFieldName name = true /\ reservedOutboundHeader name = false;
  ad_region : t_Auth t = AuthAWSSigV4 -> trim_space (SigningRegion t) <> [];
  ad_sigv4 : is_Some (t_SigV4 t) -> t_Auth t = AuthAWSSigV4;
  ad_envelope : t_Envelope t ∈ [EnvelopeNone; EnvelopeBedrock; EnvelopeVertex];
  ad_query : forall k v, t_Query t !! k = Some v -> trim_space k <> [];
  ad_paths : forall k v, t_PathOverrides t !! k = Some v \/ t_StreamPathOverrides t !! k = Some v ->
    k ∈ UpstreamPaths /\ has_prefix v (lit "/") = true /\ ContainsAny v (lit "?#") = false /\
    (Contains k resourcePlaceholder = true -> Contains v resourcePlaceholder = true);
  ad_timeout : t_ConnectTimeoutMS t = 0 \/ minConnectTimeoutMS <= t_ConnectTimeoutMS t <= maxConnectTimeoutMS;
}.

Lemma first_error_none {A E} (f : A -> option E) l : first_error f l = None <-> forall x, x ∈ l -> f x = None.
Proof.
  induction l as [|x l IH]; cbn [first_error fold_right].
  - split; [by intros _ x ?%elem_of_nil|done].
  - split.
    + destruct (f x) eqn:Ef; [done|]. intros Hr y [->|Hy]%elem_of_cons; [done|]. by apply IH.
    + intros H. rewrite (H x) by left. apply IH. intros y Hy. apply H. by right.
Qed.

Lemma checkPathOverride_none setting k v :
  checkPathOverride setting k v = None <->
  k ∈ UpstreamPaths /\ has_prefix v (lit "/") = true /\ ContainsAny v (lit "?#") = false /\
  (Contains k resourcePlaceholder = true -> Contains v resourcePlaceholder = true).
Proof.
  unfold checkPathOverride. case_bool_decide as Hk; [by split; [|intros (? & _)]|].
  destruct (has_prefix v (lit "/")); cbn [negb]; [|by split; [|intros (_ & ? & _)]].
  destruct (ContainsAny v (lit "?#")); [by split; [|intros (_ & _ & ? & _)]|].
  destruct (Contains k resourcePlaceholder); cbn [andb]; [|by repeat split].
  destruct (Contains v resourcePlaceholder); cbn [negb]; [by repeat split|].
  split; [done|]. intros (_ & _ & _ & H). discriminate (H eq_refl).
Qed.

Lemma checkPathOverrides_none setting m :
  checkPathOverrides setting m = None <->
  forall k v, m !! k = Some v -> checkPathOverride setting k v = None.
Proof.
  unfold checkPathOverrides. rewrite first_error_none. split.
  - intros H k v Hkv. apply (H (k, v)). by apply elem_of_map_to_list.
  - intros H [k v] Hkv%elem_of_map_to_list. by apply H.
Qed.

Lemma beq_true a b : beq a b = true <-> a = b.
Proof. unfold beq. apply bool_decide_eq_true. Qed.
Lemma beq_false a b : beq a b = false <-> a <> b.
Proof. unfold beq. apply bool_decide_eq_false. Qed.

Lemma header_mode_named auth name : header_mode auth = Some name -> auth ∉ [] :: named_modes.
Proof.
  intros Hm Hin. unfold named_modes in Hin.
  repeat (apply elem_of_cons in Hin as [->|Hin]; [by vm_compute in Hm|]). by apply elem_of_nil in Hin.
Qed.

Section spec.
Variable ParseObject : bytes -> result string (gmap bytes bytes).
Variable DecodeTransport : bytes -> result string Transport.
Variable ValidHeaderFieldName : bytes -> bool.

Lemma checkAuth_none t :
  checkAuth ValidHeaderFieldName t = None <->
  (t_Auth t ∈ [] :: named_modes \/
    exists name, header_mode (t_Auth t) = Some name /\ name <> [] /\
      ValidHeaderFieldName name = true /\ reservedOutboundHeader name = false) /\
  (t_Auth t = AuthAWSSigV4 -> trim_space (SigningRegion t) <> []).
Proof using.
  unfold checkAuth, SigningRegion. case_bool_decide as Hc.
  { split; [intros _|done]. split.
    - left. revert Hc. unfold named_modes. set_solver.
    - intros E. rewrite E in Hc. pose proof (bool_decide_eq_true_2 _ Hc) as B. by vm_compute in B. }
  destruct (beq (t_Auth t) AuthAWSSigV4) eqn:Ea.
  - apply beq_true in Ea. rewrite Ea. destruct (t_SigV4 t) as [sp|].
    + destruct (beq (trim_space (Region sp)) []) eqn:Er.
      * apply beq_true in Er. split; [done|]. intros [_ H]. by destruct (H eq_refl).
      * apply beq_false in Er. split; [|done]. split; [left; by apply (bool_decide_eq_true_1 _)|done].
    + split; [done|]. intros [_ H]. by destruct (H eq_refl).
  - apply beq_false in Ea. case_bool_decide as Hg.
    { split; [|done]. split; [left|done]. revert Hg. unfold named_modes. set_solver. }
    assert (Hn : t_Auth t ∉ [] :: named_modes) by (unfold named_modes in *; set_solver).
    destruct (header_mode (t_Auth t)) as [name|] eqn:Em.
    + destruct (beq name []) eqn:En; cbn [orb].
      { apply beq_true in En. split; [done|]. intros [[?|(? & [= <-] & ? & _)] _]; done. }
      apply beq_false in En. destruct (ValidHeaderFieldName name) eqn:Ev; cbn [negb].
      * destruct (reservedOutboundHeader name) eqn:Er.
        -- split; [done|]. intros [[?|(? & [= <-] & _ & _ & ?)] _]; congruence.
        -- split; [|done]. split; [right; eauto|done].
      * split; [done|]. intros [[?|(? & [= <-] & _ & ? & _)] _]; congruence.
    + split; [done|]. intros [[?|(? & [=] & _)] _]; done.
Qed.

Lemma checkTimeout_none t :
  checkTimeout t = None <->
  t_ConnectTimeoutMS t = 0 \/ minConnectTimeoutMS <= t_ConnectTimeoutMS t <= maxConnectTimeoutMS.
Proof using.
  unfold checkTimeout. destruct (Z.eqb_spec (t_ConnectTimeoutMS t) 0) as [E|E]; cbn [negb andb]; [tauto|].
  destruct (Z.ltb_spec (t_ConnectTimeoutMS t) minConnectTimeoutMS); cbn [orb]; [by split; [|lia]|].
  destruct (Z.ltb_spec maxConnectTimeoutMS (t_ConnectTimeoutMS t)); [by split; [|lia]|].
  split; [|done]. lia.
Qed.

Lemma query_names_none t :
  existsb (fun kv => beq (trim_space kv.1) []) (map_to_list (t_Query t)) = false <->
  forall k v, t_Query t !! k = Some v -> trim_space k <> [].
Proof using.
  split.
  - intros H k v Hkv E. apply elem_of_map_to_list, list_elem_of_In in Hkv.
    apply not_true_iff_false in H. apply H. apply existsb_exists. exists (k, v). cbn [fst]. by rewrite E.
  - intros H. apply not_true_iff_false. intros ([k v] & Hkv & E)%existsb_exists.
    apply list_elem_of_In, elem_of_map_to_list in Hkv. by apply beq_true, (H _ _ Hkv) in E.
Qed.

Lemma check_profile_none t :
  check_profile ValidHeaderFieldName t = None <-> addressable ValidHeaderFieldName t.
Proof using.
  unfold check_profile. split.
  - destruct (checkAuth ValidHeaderFieldName t) eqn:Ea; [done|]. apply checkAuth_none in Ea as [Ha Hr].
    destruct (sigv4_unused t) eqn:Es; [done|]. case_bool_decide as He; [done|].
    destruct (existsb _ _) eqn:Eq; [done|].
    destruct (checkPathOverrides (lit "path_overrides") _) eqn:E1; [done|].
    destruct (checkPathOverrides (lit "stream_path_overrides") _) eqn:E2; [done|].
    intros Ht%checkTimeout_none. rewrite checkPathOverrides_none in E1, E2.
    split; try done.
    + intros [sp Hsp]. unfold sigv4_unused in Es. rewrite Hsp in Es. by apply negb_false_iff, beq_true in Es.
    + by apply query_names_none.
    + intros k v [Hkv|Hkv]; [by apply E1, checkPathOverride_none in Hkv|by apply E2, checkPathOverride_none in Hkv].
  - intros [Ha Hr Hs He Hq Hp Ht]. rewrite (proj2 (checkAuth_none t)) by done.
    assert (sigv4_unused t = false) as ->.
    { unfold sigv4_unused. destruct (t_SigV4 t); [|done]. apply negb_false_iff, beq_true, Hs. eauto. }
    rewrite bool_decide_eq_false_2 by (intros H; by apply H).
    rewrite (proj2 (query_names_none t)) by done.
    rewrite !(proj2 (checkPathOverrides_none _ _)), (proj2 (checkTimeout_none t)) by
      first [done|intros k v Hkv; apply checkPathOverride_none; eauto].
    done.
Qed.

Lemma addressable_none : addressable ValidHeaderFieldName no_transport.
Proof using.
  split; cbn [no_transport t_Auth t_SigV4 t_Envelope t_Query t_PathOverrides t_StreamPathOverrides t_ConnectTimeoutMS].
  - left. left.
  - done.
  - by intros [? ?].
  - left.
  - intros k v. by rewrite lookup_empty.
  - intros k v. rewrite !lookup_empty. by intros [?|?].
  - by left.
Qed.

Lemma ValidateTransport_addressable raw t :
  ValidateTransport ParseObject DecodeTransport ValidHeaderFieldName raw = Ok t ->
  addressable ValidHeaderFieldName t.
Proof using.
  unfold ValidateTransport. destruct (beq raw []); [intros [= <-]; apply addressable_none|].
  destruct (ParseObject raw); [|done]. destruct (negb _); [done|]. destruct (DecodeTransport raw); [|done].
  destruct (_ ≫= _); [done|]. destruct (check_profile _ _) eqn:E; [done|]. intros [= <-].
  by apply check_profile_none.
Qed.
End spec.

(** ** Theorems *)

Lemma AuthMode_named t proto VHF : addressable VHF t -> t_Auth t <> [] -> AuthMode t proto = t_Auth t.
Proof.
  intros Ha Hne. unfold AuthMode. case_bool_decide as Hn; [done|].
  destruct (ad_auth _ _ Ha) as [Hin|(name & -> & Hname & _)].
  { apply elem_of_cons in Hin as [?|?]; done. }
  by rewrite (proj2 (beq_false _ _) Hname).
Qed.

Lemma AuthMode_aws t proto : AuthMode t proto = AuthAWSSigV4 -> t_Auth t = AuthAWSSigV4.
Proof.
  unfold AuthMode. case_bool_decide; [done|].
  destruct (header_mode (t_Auth t)) as [name|]; [destruct (negb (beq name [])); [done|]|];
    by destruct proto; intros E; vm_compute in E.
Qed.

Lemma BodyEnvelope_valid t VHF : addressable VHF t -> BodyEnvelope t = t_Envelope t.
Proof.
  intros Ha. unfold BodyEnvelope. case_bool_decide as Hb; [done|].
  pose proof (ad_envelope _ _ Ha) as [E|E]%elem_of_cons; done.
Qed.

(** The template a path is built from: an override, or the path itself. *)
Lemma PathFor_template t path model stream :
  exists template,
    PathFor t path model stream = ReplaceAll template modelPlaceholder model /\
    (template = path \/
     t_PathOverrides t !! path = Some template \/ t_StreamPathOverrides t !! path = Some template).
Proof.
  assert (He : forall m, entry m path = [] \/ m !! path = Some (entry m path)).
  { intros m. unfold entry. destruct (m !! path); cbn [default]; auto. }
  unfold PathFor. eexists. split; [reflexivity|].
  set (s := if stream then entry (t_StreamPathOverrides t) path else []).
  destruct (beq s []) eqn:Es.
  - destruct (beq (entry (t_PathOverrides t) path) []) eqn:Ep; [by left|]. apply beq_false in Ep.
    right. left. destruct (He (t_PathOverrides t)); congruence.
  - apply beq_false in Es. rewrite (proj2 (beq_false _ _) Es). right. right. subst s.
    destruct stream; [|done]. destruct (He (t_StreamPathOverrides t)); congruence.
Qed.

Lemma upstream_path_shape path :
  path ∈ UpstreamPaths -> has_prefix path (lit "/") = true /\ ContainsAny path (lit "?#") = false.
Proof.
  assert (H : forallb (fun p => has_prefix p (lit "/") && negb (ContainsAny p (lit "?#"))) UpstreamPaths = true)
    by (vm_compute; reflexivity).
  rewrite forallb_forall in H. intros Hp%list_elem_of_In%H. bool_prop. done.
Qed.

Lemma template_shape VHF t path template :
  addressable VHF t -> path ∈ UpstreamPaths ->
  template = path \/ t_PathOverrides t !! path = Some template \/ t_StreamPathOverrides t !! path = Some template ->
  has_prefix template (lit "/") = true /\ ContainsAny template (lit "?#") = false /\
  (Contains path resourcePlaceholder = true -> Contains template resourcePlaceholder = true).
Proof.
  intros Ha Hp [->|Ht].
  - destruct (upstream_path_shape _ Hp). done.
  - destruct (ad_paths _ _ Ha _ _ Ht) as (_ & H1 & H2 & H3). done.
Qed.

(** Naming the model leaves the resource's place. *)
Lemma resource_kept template model :
  Contains template resourcePlaceholder = true ->
  Contains (ReplaceAll template modelPlaceholder model) resourcePlaceholder = true.
Proof.
  apply (ReplaceAll_keeps "{" (lit "model}") (lit "resource}")).
  - by apply (bool_decide_eq_false_1 _).
  - by apply (bool_decide_eq_false_1 _).
  - by intros s (r & ->)%has_prefix_inv.
Qed.

(** A profile that was accepted is honoured as it was typed: a credential mode is
    never replaced by the dialect's own, a declared framing never dropped, the
    connect bound is what was asked for, and every request goes to an absolute path
    that keeps the resource it is about and has no query or fragment but what the
    model's own name brings. *)
Theorem valid_profile_is_honoured ParseObject DecodeTransport ValidHeaderFieldName raw t :
  ValidateTransport ParseObject DecodeTransport ValidHeaderFieldName raw = Ok t ->
  (forall proto, t_Auth t <> [] -> AuthMode t proto = t_Auth t) /\
  (forall proto, AuthMode t proto = AuthAWSSigV4 -> SigningRegion t <> []) /\
  BodyEnvelope t = t_Envelope t /\
  ConnectTimeout t = t_ConnectTimeoutMS t * Millisecond /\
  forall path model stream, path ∈ UpstreamPaths ->
    let sent := PathFor t path model stream in
    (exists rest, sent = lit "/" ++ rest) /\
    (forall c, c ∈ sent -> c ∈ lit "?#" -> c ∈ model) /\
    (Contains path resourcePlaceholder = true -> Contains sent resourcePlaceholder = true).
Proof.
  intros Ha%ValidateTransport_addressable. split_and!.
  - intros proto. by apply (AuthMode_named _ _ ValidHeaderFieldName).
  - intros proto Hm%AuthMode_aws E. apply (ad_region _ _ Ha Hm). by rewrite E.
  - by apply (BodyEnvelope_valid _ ValidHeaderFieldName).
  - unfold ConnectTimeout. pose proof (ad_timeout _ _ Ha) as Ht. revert Ht.
    unfold minConnectTimeoutMS, maxConnectTimeoutMS, Millisecond. intros Ht.
    destruct (Z.leb_spec (t_ConnectTimeoutMS t) 0); [lia|]. apply wrap64_id. unfold min_int64, max_int64. lia.
  - intros path model stream Hp sent. unfold sent.
    destruct (PathFor_template t path model stream) as (template & -> & Ht).
    destruct (template_shape _ _ _ _ Ha Hp Ht) as (Hs & Hq & Hr). split_and!.
    + apply has_prefix_inv in Hs as (rest & ->).
      destruct (replace_head "/" rest modelPlaceholder model) as (r & Hrr); [done|]. by exists r.
    + intros c [Hc|Hc]%replace_from_elem Hcq; [|done]. exact (False_ind _ (proj1 (ContainsAny_false _ _) Hq c Hc Hcq)).
    + intros Hc%Hr. by apply resource_kept.
Qed.

(** ** Resolution *)

Section resolved.
Variable ParseObject : bytes -> result string (gmap bytes bytes).
Variable DecodeTransport : bytes -> result string Transport.
Variable ValidHeaderFieldName : bytes -> bool.
Abbreviation valid := (addressable ValidHeaderFieldName).

(** What [transportFor] of [Catalog.v] is given. *)
Definition stored_transport (raw : bytes) : result string Transport :=
  match ValidateTransport ParseObject DecodeTransport ValidHeaderFieldName raw with
  | Ok t => Ok t
  | Err _ => Err "the stored transport profile is refused"%string
  end.

Definition all_valid (kg : gmap string Transport) : Prop := forall id t, kg !! id = Some t -> valid t.

Lemma transportFor_valid kg id raw :
  all_valid kg ->
  all_valid (transportFor stored_transport kg id raw).2 /\
  forall t, (transportFor stored_transport kg id raw).1 = Ok t -> valid t.
Proof using.
  intros Hkg. unfold transportFor, stored_transport.
  destruct (ValidateTransport _ _ _ raw) as [t|e] eqn:E.
  - apply ValidateTransport_addressable in E. cbn [fst snd]. split; [|by intros ? [= <-]].
    intros k u. destruct id as [k'|]; cbn [rememberTransport]; [|apply Hkg].
    intros [[_ <-]|[_ Hk]]%lookup_insert_Some; [done|by eapply Hkg].
  - destruct (lastTransport kg id) as [t|] eqn:El; cbn [fst snd]; [|by split].
    split; [done|]. intros ? [= <-]. destruct id as [k|]; [|done]. by eapply Hkg.
Qed.

Lemma resolve_routes_valid q kg rows :
  all_valid kg ->
  all_valid (resolve_routes stored_transport q kg rows).2 /\
  forall rs, (resolve_routes stored_transport q kg rows).1 = Ok rs ->
    Forall (fun r => valid (r_Transport r)) rs.
Proof using.
  revert kg. induction rows as [|r rows IH]; intros kg Hkg; cbn [resolve_routes].
  { split; [done|]. by intros rs [= <-]. }
  destruct (transportFor_valid kg (rr_ProviderID r) (rr_Transport r) Hkg) as [Hkg1 Ht].
  destruct (transportFor _ _ _ _) as [[t|e] kg1]; [|by split].
  destruct (GetRouteCostMultiplier q (rr_ID r)) as [mult|]; [|by split].
  destruct (IH kg1 Hkg1) as [Hkg2 Hrs]. destruct (resolve_routes _ _ kg1 rows) as [[rs|e] kg2]; [|by split].
  split; [done|]. intros ? [= <-]. constructor; [by apply Ht|by apply Hrs].
Qed.
End resolved.

(** No request is addressed by a profile that was never valid.  Whatever a stored
    profile has become, every candidate a resolution returns carries one that
    passed validation, either as it stands or as it last stood, and the profiles
    remembered for that stay valid. *)
Theorem resolved_profiles_are_valid ParseObject DecodeTransport ValidHeaderFieldName q c kg slug surface tier vendors :
  all_valid ValidHeaderFieldName kg ->
  let '(res, _, kg') := ResolveFor (stored_transport ParseObject DecodeTransport ValidHeaderFieldName)
                          q c kg slug surface tier vendors in
  all_valid ValidHeaderFieldName kg' /\
  forall r, res = Ok r ->
    Forall (fun rt => addressable ValidHeaderFieldName (r_Transport rt)) (res_Routes r).
Proof.
  intros Hkg. unfold ResolveFor. destruct (protocol surface) as [proto|]; [|done].
  destruct (GetModelBySlug q slug) as [[m|]|]; [|done..]. destruct (negb _); [done|].
  destruct (currentModelPricing q c m) as [[pricing|] c']; [|done]. destruct (check_tier q tier m); [done|].
  destruct (checkPriced pricing surface); [done|].
  destruct (ListRoutesForModel _ _ _ _ _ _) as [rows|]; [|done]. destruct rows as [|r rows]; [done|].
  destruct (resolve_routes_valid ParseObject DecodeTransport ValidHeaderFieldName q kg (r :: rows) Hkg) as [H1 H2].
  destruct (resolve_routes _ q kg (r :: rows)) as [[rs|e] kg']; [|by split].
  split; [done|]. intros ? [= <-]. by apply H2.
Qed.

(** ** Examples *)

(** A hosted endpoint that signs its requests and puts the model in the path. *)
Definition demo_bedrock : Transport :=
  mkTransport AuthAWSSigV4 [] ∅
    {[PathMessages := lit "/model/{model}/invoke"]}
    {[PathMessages := lit "/model/{model}/invoke-with-response-stream"]}
    EnvelopeBedrock (Some (mkSigV4 (lit "us-east-1") [])) 2000.
Abbreviation demo_parse := (fun raw : bytes => Ok {[lit "auth" := raw]} : result string (gmap bytes bytes)).
Abbreviation demo_decode := (fun _ : bytes => Ok demo_bedrock : result string Transport).

Lemma valid_profile_is_honoured_witness :
  ValidateTransport demo_parse demo_decode (forallb token_byte) (lit "stored") = Ok demo_bedrock /\
  PathFor demo_bedrock PathMessages (lit "claude") true = lit "/model/claude/invoke-with-response-stream" /\
  BodyEnvelope demo_bedrock = EnvelopeBedrock.
Proof.
  assert (Hv : ValidateTransport demo_parse demo_decode (forallb token_byte) (lit "stored") = Ok demo_bedrock)
    by (vm_compute; reflexivity).
  destruct (valid_profile_is_honoured _ _ _ _ _ Hv) as (_ & _ & Henv & _).
  split_and!; [exact Hv|vm_compute; reflexivity|exact Henv].
Defined.

(** A candidate whose stored profile no longer parses is served by the one last seen
    valid. *)
Definition demo_hosted (stored : bytes) : Queries (raw := bytes) :=
  mkQueries (GetModelBySlug demo_queries) (TierAllowsModel demo_queries) (GetModelPricing demo_queries)
    (fun _ _ _ _ _ => Ok [mkRouteRow (Some "r1"%string) (Some "p1"%string) "hosted" "aws" 0 1 None false None
                            stored None None 4 "https://hosted" "claude"])
    (fun _ => Ok 10000).

Lemma resolved_profiles_are_valid_witness :
  exists res c' kg',
    ResolveFor (stored_transport demo_parse (fun _ => Err "truncated"%string) (forallb token_byte))
      (demo_hosted (lit "{")) (Some ∅) {["p1"%string := demo_bedrock]} "demo" SurfaceChat (Some "gold"%string) []
    = (Ok res, c', kg') /\
    map r_Transport (res_Routes res) = [demo_bedrock] /\
    Forall (fun rt => addressable (forallb token_byte) (r_Transport rt)) (res_Routes res).
Proof.
  assert (Hv : addressable (forallb token_byte) demo_bedrock).
  { apply (ValidateTransport_addressable demo_parse demo_decode _ (lit "stored")). vm_compute. reflexivity. }
  pose proof (resolved_profiles_are_valid demo_parse (fun _ => Err "truncated"%string) (forallb token_byte)
    (demo_hosted (lit "{")) (Some ∅) {["p1"%string := demo_bedrock]} "demo" SurfaceChat (Some "gold"%string) []) as H.
  destruct (ResolveFor _ _ _ _ _ _ _ _) as [[[res|e] c'] kg'] eqn:E.
  - exists res, c', kg'. split; [reflexivity|]. destruct H as [_ H].
    { intros id t [_ <-]%lookup_singleton_Some. exact Hv. }
    split; [|by apply H]. vm_compute in E. injection E as <- _ _. reflexivity.
  - vm_compute in E. discriminate.
Defined.
