(* ===== verification/Upstream.v ===== *)
(** * Credentials derived per request: [internal/gateway/upstream]

    Three ways of presenting a credential that is a document rather than a token:
    an AWS signature ([sigv4.go]), a service account exchanged for an access token
    ([gcp.go]) and a token minted from a key pair ([kling.go]).  The libraries they
    call - the signer, the token source and its bounded cache - are parameters, as
    are the hashes and the decoding of the stored documents. *)
From S2P Require Import Prelude GoStr RateLimit Http Transport.

Open Scope Z_scope.

(** ** Requests *)

(** The parts of an [http.Request] being built. *)
Record HTTPRequest := mkHTTPRequest {
  rq_Method : bytes;
  rq_URL : bytes;
  rq_Header : Header;
  rq_Body : bytes;
  rq_ConnectTimeout : Z;
}.
Definition with_header (r : HTTPRequest) (h : Header) : HTTPRequest :=
  mkHTTPRequest (rq_Method r) (rq_URL r) h (rq_Body r) (rq_ConnectTimeout r).

Definition hdrAuthorization := lit "Authorization".
Definition amzDateHeader := lit "X-Amz-Date".
Definition amzContentSHAHeader := lit "X-Amz-Content-Sha256".
Definition amzSecurityTokenHeader := lit "X-Amz-Security-Token".

(** ** The stored documents *)

Record awsCredential := mkAWS { AccessKeyID : bytes; SecretAccessKey : bytes; SessionToken : bytes }.
Record serviceAccountKey := mkAccount {
  sa_Type : bytes;
  ClientEmail : bytes;
  PrivateKey : bytes;
  PrivateKeyID : bytes;
  TokenURI : bytes;
}.
Record klingKeypair := mkKling { AccessKey : bytes; SecretKey : bytes }.

(** The fields of [jwt.Config] that are filled in. *)
Record jwtConfig := mkJWT {
  jc_Email : bytes;
  jc_PrivateKey : bytes;
  jc_PrivateKeyID : bytes;
  jc_TokenURL : bytes;
  jc_Scopes : list bytes;
}.
Definition cloudPlatformScope := lit "https://www.googleapis.com/auth/cloud-platform".
Definition defaultTokenURI := lit "https://oauth2.googleapis.com/token".
Definition klingTokenTTL : Z := 30 * 60 * 1000000000.
Definition klingNotBeforeSkew : Z := 5 * 1000000000.

(** Why a credential cannot be presented. *)
Inductive present_error :=
  | WrongShape            (** the document is not of the kind the mode needs *)
  | WrongKeyType (found : bytes)
  | StreamedBody
  | NoRegion
  | SigningFailed (why : string)
  | ExchangeFailed (why : string)
  | NotDerived (mode : bytes).

Definition Handles (mode : bytes) : bool :=
  bool_decide (mode ∈ [AuthAWSSigV4; AuthGCPServiceAccount; AuthKlingJWT]).

(** ** Base64, the URL alphabet without padding *)

Definition b64_char (n : Z) : ascii :=
  if n <? 26 then byte_of (65 + n) else if n <? 52 then byte_of (71 + n)
  else if n <? 62 then byte_of (n - 4) else if n =? 62 then "-"%char else "_"%char.

Fixpoint b64url (s : bytes) : bytes :=
  match s with
  | [] => []
  | [a] => [b64_char (ord a / 4); b64_char (ord a mod 4 * 16)]
  | [a; b] =>
      [b64_char (ord a / 4); b64_char (ord a mod 4 * 16 + ord b / 16); b64_char (ord b mod 16 * 4)]
  | a :: b :: c :: s' =>
      b64_char (ord a / 4) :: b64_char (ord a mod 4 * 16 + ord b / 16) ::
      b64_char (ord b mod 16 * 4 + ord c / 64) :: b64_char (ord c mod 64) :: b64url s'
  end.

Section present.
(** The JSON of the three documents, and of a string. *)
Variable DecodeAWS : bytes -> result string awsCredential.
Variable DecodeAccount : bytes -> result string serviceAccountKey.
Variable DecodeKling : bytes -> result string klingKeypair.
Variable json_string : bytes -> bytes.
(** Hex SHA-256 and HMAC-SHA-256. *)
Variable sha256hex : bytes -> bytes.
Variable hmac_sha256 : bytes -> bytes -> bytes.
(** [v4.Signer.SignHTTP]: credential, request, payload hash, service, region, time;
    the headers it leaves. *)
Variable SignHTTP : awsCredential -> HTTPRequest -> bytes -> bytes -> bytes -> Z -> result string Header.
(** [jwt.Config.TokenSource], what a source answers now (the value of the header
    [SetAuthHeader] writes), and the bounded cache of sources. *)
Variables TokenSource LRU : Type.
Variable NewSource : jwtConfig -> TokenSource.
Variable Token : TokenSource -> result string bytes.
Variable Get : LRU -> bytes -> option TokenSource * LRU.
Variable Add : LRU -> bytes -> TokenSource -> LRU.

Definition blank_text (s : bytes) : bool := beq (trim_space s) [].

Definition parseAWSCredential (secret : bytes) : result present_error awsCredential :=
  match DecodeAWS secret with
  | Err _ => Err WrongShape
  | Ok c => if blank_text (AccessKeyID c) || blank_text (SecretAccessKey c) then Err WrongShape else Ok c
  end.

Definition parseServiceAccountKey (secret : bytes) : result present_error jwtConfig :=
  match DecodeAccount secret with
  | Err _ => Err WrongShape
  | Ok k =>
      if negb (beq (sa_Type k) []) && negb (beq (sa_Type k) (lit "service_account"))
      then Err (WrongKeyType (sa_Type k))
      else if blank_text (ClientEmail k) || blank_text (PrivateKey k) then Err WrongShape
      else Ok (mkJWT (ClientEmail k) (PrivateKey k) (PrivateKeyID k)
                 (if beq (TokenURI k) [] then defaultTokenURI else TokenURI k) [cloudPlatformScope])
  end.

Definition parseKlingKeypair (secret : bytes) : result present_error klingKeypair :=
  match DecodeKling secret with
  | Err _ => Err WrongShape
  | Ok k => if blank_text (AccessKey k) || blank_text (SecretKey k) then Err WrongShape else Ok k
  end.

(** ** AWS *)

Definition signAWS (t : Transport) (secret payload : bytes) (readable : bool) (now : Z) (r : HTTPRequest) :
    result present_error Header :=
  if negb readable then Err StreamedBody
  else
    let region := SigningRegion t in
    if beq region [] then Err NoRegion
    else
      try cred <- parseAWSCredential secret;
      let hash := sha256hex payload in
      let r := with_header r (header_set (rq_Header r) amzContentSHAHeader hash) in
      match SignHTTP cred r hash (SigningService t) region now with
      | Err why => Err (SigningFailed why)
      | Ok h => Ok h
      end.

(** ** Service accounts *)

Definition tokenSourceFor (cache : LRU) (secret : bytes) : result present_error TokenSource * LRU :=
  let key := sha256hex secret in
  match Get cache key with
  | (Some ts, cache) => (Ok ts, cache)
  | (None, cache) =>
      match parseServiceAccountKey secret with
      | Err e => (Err e, cache)
      | Ok cfg => let ts := NewSource cfg in (Ok ts, Add cache key ts)
      end
  end.

Definition setGCPBearer (cache : LRU) (secret : bytes) (h : Header) : result present_error Header * LRU :=
  match tokenSourceFor cache secret with
  | (Err e, cache) => (Err e, cache)
  | (Ok ts, cache) =>
      match Token ts with
      | Err why => (Err (ExchangeFailed why), cache)
      | Ok value => (Ok (header_set h hdrAuthorization value), cache)
      end
  end.

(** ** Key pairs *)

Definition quoted (s : bytes) : bytes := byte_of 34 :: s ++ [byte_of 34].
(** [time.Time.Unix]. *)
Definition Unix (now : Z) : Z := now / 1000000000.

(** [json.Marshal] of a map writes its keys in order. *)
Definition jwt_header : bytes :=
  lit "{" ++ quoted (lit "alg") ++ lit ":" ++ quoted (lit "HS256") ++ lit "," ++
  quoted (lit "typ") ++ lit ":" ++ quoted (lit "JWT") ++ lit "}".
Definition jwt_claims (k : klingKeypair) (now : Z) : bytes :=
  lit "{" ++ quoted (lit "exp") ++ lit ":" ++ itoa (Unix (now + klingTokenTTL)) ++ lit "," ++
  quoted (lit "iss") ++ lit ":" ++ json_string (AccessKey k) ++ lit "," ++
  quoted (lit "nbf") ++ lit ":" ++ itoa (Unix (now - klingNotBeforeSkew)) ++ lit "}".

Definition signKlingJWT (k : klingKeypair) (now : Z) : bytes :=
  let signing := b64url jwt_header ++ lit "." ++ b64url (jwt_claims k now) in
  signing ++ lit "." ++ b64url (hmac_sha256 (SecretKey k) signing).

Definition setKlingBearer (secret : bytes) (now : Z) (h : Header) : result present_error Header :=
  try k <- parseKlingKeypair secret;
  Ok (header_set h hdrAuthorization (lit "Bearer " ++ signKlingJWT k now)).

(** ** The dispatch *)

Definition Present (cache : LRU) (mode : bytes) (t : Transport) (secret payload : bytes) (readable : bool)
    (now : Z) (r : HTTPRequest) : result present_error Header * LRU :=
  if beq mode AuthAWSSigV4 then (signAWS t secret payload readable now r, cache)
  else if beq mode AuthGCPServiceAccount then setGCPBearer cache secret (rq_Header r)
  else if beq mode AuthKlingJWT then (setKlingBearer secret now (rq_Header r), cache)
  else (Err (NotDerived mode), cache).

Definition ExtraHeaders (mode secret : bytes) : list bytes :=
  if beq mode AuthAWSSigV4 then
    [amzDateHeader; amzContentSHAHeader] ++
    match parseAWSCredential secret with
    | Ok c => if negb (beq (SessionToken c) []) then [amzSecurityTokenHeader] else []
    | Err _ => []
    end
  else [].
End present.

(** ** What presenting promises

    The request builder is proved against this interface: a derived credential
    touches the headers it announces and no other, and adds every one of them. *)
Definition derived_headers : list bytes :=
  [hdrAuthorization; amzDateHeader; amzContentSHAHeader; amzSecurityTokenHeader].

Class PresentLaws {Cache} (PresentWith : Cache -> bytes -> Transport -> bytes -> bytes -> bool -> Z -> HTTPRequest ->
                             result present_error Header * Cache)
    (Extra : bytes -> bytes -> list bytes) : Prop := {
  present_frame cache mode t secret payload readable now r h cache' k :
    PresentWith cache mode t secret payload readable now r = (Ok h, cache') ->
    k ∉ derived_headers -> h !! k = rq_Header r !! k;
  present_dom cache mode t secret payload readable now r h cache' :
    PresentWith cache mode t secret payload readable now r = (Ok h, cache') ->
    dom h = dom (rq_Header r) ∪ list_to_set (hdrAuthorization :: Extra mode secret);
  extra_plain mode secret : Handles mode = false -> Extra mode secret = [];
  extra_canonical mode secret : map CanonicalHeaderKey (Extra mode secret) = Extra mode secret;
}.

(** What the signer documents: a signature, a date, and the session token of a
    temporary credential. *)
Definition signed_headers (c : awsCredential) : list bytes :=
  [hdrAuthorization; amzDateHeader] ++ (if negb (beq (SessionToken c) []) then [amzSecurityTokenHeader] else []).

Definition signer_laws (SignHTTP : awsCredential -> HTTPRequest -> bytes -> bytes -> bytes -> Z -> result string Header) :
    Prop :=
  forall cred r hash service region now h,
    SignHTTP cred r hash service region now = Ok h ->
    dom h = dom (rq_Header r) ∪ list_to_set (signed_headers cred) /\
    forall k, k ∉ signed_headers cred -> h !! k = rq_Header r !! k.

Section laws.
Variable DecodeAWS : bytes -> result string awsCredential.
Variable DecodeAccount : bytes -> result string serviceAccountKey.
Variable DecodeKling : bytes -> result string klingKeypair.
Variable json_string : bytes -> bytes.
Variable sha256hex : bytes -> bytes.
Variable hmac_sha256 : bytes -> bytes -> bytes.
Variable SignHTTP : awsCredential -> HTTPRequest -> bytes -> bytes -> bytes -> Z -> result string Header.
Context {TokenSource LRU : Type}.
Variable NewSource : jwtConfig -> TokenSource.
Variable Token : TokenSource -> result string bytes.
Variable Get : LRU -> bytes -> option TokenSource * LRU.
Variable Add : LRU -> bytes -> TokenSource -> LRU.
Hypothesis Hsigner : signer_laws SignHTTP.

Abbreviation Present_ := (Present DecodeAWS DecodeAccount DecodeKling json_string sha256hex hmac_sha256 SignHTTP
  TokenSource LRU NewSource Token Get Add).

Lemma signAWS_spec t secret payload readable now r h :
  signAWS DecodeAWS sha256hex SignHTTP t secret payload readable now r = Ok h ->
  exists cred, parseAWSCredential DecodeAWS secret = Ok cred /\ readable = true /\ SigningRegion t <> [] /\
    dom h = dom (rq_Header r) ∪ list_to_set (amzContentSHAHeader :: signed_headers cred) /\
    h !! amzContentSHAHeader = Some [sha256hex payload] /\
    forall k, k ∉ amzContentSHAHeader :: signed_headers cred -> h !! k = rq_Header r !! k.
Proof using Hsigner.
  unfold signAWS. destruct readable; [|done]. destruct (beq (SigningRegion t) []) eqn:Er; [done|].
  apply beq_false in Er. cbn [negb]. intros (cred & Hc & Hs)%rbind_ok. exists cred.
  destruct (SignHTTP _ _ _ _ _ _) as [h'|] eqn:Esign; [|done]. injection Hs as ->.
  apply Hsigner in Esign as [Hd Hk]. split_and!; [done..| | |].
  - rewrite Hd. cbn [with_header rq_Header header_set]. unfold header_set. rewrite dom_insert_L.
    rewrite list_to_set_cons, (union_comm_L {[_]} (dom _)), union_assoc_L. done.
  - rewrite Hk; [by apply lookup_insert_eq|]. unfold signed_headers.
    destruct (negb (beq (SessionToken cred) [])); by apply (bool_decide_eq_false_1 _).
  - intros k [Hk1 Hk2]%not_elem_of_cons. rewrite Hk by done. cbn [with_header rq_Header].
    apply lookup_insert_ne. by intros E; apply Hk1.
Qed.

Lemma setGCPBearer_ok cache secret h h' cache' :
  setGCPBearer DecodeAccount sha256hex TokenSource LRU NewSource Token Get Add cache secret h = (Ok h', cache') ->
  exists value, h' = <[hdrAuthorization := [value]]> h.
Proof using.
  unfold setGCPBearer. destruct (tokenSourceFor _ _ _ _ _ _ _ _ _) as [[ts|] c]; [|done].
  destruct (Token ts) as [value|]; [|done]. intros [= <- <-]. by exists value.
Qed.

Lemma setKlingBearer_ok secret now h h' :
  setKlingBearer DecodeKling json_string hmac_sha256 secret now h = Ok h' ->
  exists value, h' = <[hdrAuthorization := [value]]> h.
Proof using.
  unfold setKlingBearer. intros (k & _ & [= <-])%rbind_ok. by eexists.
Qed.

Lemma bearer_laws (h h' : Header) value :
  h' = <[hdrAuthorization := [value]]> h ->
  (forall k, k ∉ derived_headers -> h' !! k = h !! k) /\ dom h' = dom h ∪ list_to_set [hdrAuthorization].
Proof using.
  intros ->. split; [|by rewrite dom_insert_L, list_to_set_cons, list_to_set_nil, union_empty_r_L, union_comm_L].
  intros k [Hk _]%not_elem_of_cons. apply lookup_insert_ne. by intros E; apply Hk.
Qed.

#[export] Instance Present_laws : PresentLaws Present_ (ExtraHeaders DecodeAWS).
Proof using Hsigner.
  split.
  - intros cache mode t secret payload readable now r h cache' k. unfold Present.
    destruct (beq mode AuthAWSSigV4); [intros [= Hs <-]|].
    { apply signAWS_spec in Hs as (cred & _ & _ & _ & _ & _ & Hk). intros Hd. apply Hk. intros Hin. apply Hd.
      revert Hin. unfold signed_headers, derived_headers. rewrite !elem_of_cons, elem_of_app.
      destruct (negb _); rewrite !elem_of_cons, ?elem_of_nil; tauto. }
    destruct (beq mode AuthGCPServiceAccount).
    { intros (value & Hv)%setGCPBearer_ok. by apply (bearer_laws _ _ value). }
    destruct (beq mode AuthKlingJWT); [intros [= Hs <-]|done].
    apply setKlingBearer_ok in Hs as (value & Hv). by apply (bearer_laws _ _ value).
  - intros cache mode t secret payload readable now r h cache'. unfold Present, ExtraHeaders.
    destruct (beq mode AuthAWSSigV4); [intros [= Hs <-]|].
    { apply signAWS_spec in Hs as (cred & -> & _ & _ & -> & _). f_equal. unfold signed_headers.
      destruct (negb _); cbn [app]; rewrite !list_to_set_cons; apply leibniz_equiv; intros x;
        rewrite !elem_of_union; tauto. }
    destruct (beq mode AuthGCPServiceAccount).
    { intros (value & Hv)%setGCPBearer_ok. by apply (bearer_laws _ _ value). }
    destruct (beq mode AuthKlingJWT); [intros [= Hs <-]|done].
    apply setKlingBearer_ok in Hs as (value & Hv). by apply (bearer_laws _ _ value).
  - intros mode secret Hm. unfold ExtraHeaders. destruct (beq mode AuthAWSSigV4) eqn:E; [|done].
    apply beq_true in E as ->. by vm_compute in Hm.
  - intros mode secret. unfold ExtraHeaders. destruct (beq mode AuthAWSSigV4); [|done].
    destruct (parseAWSCredential DecodeAWS secret) as [c|]; [|done]. by destruct (negb _).
Qed.
End laws.

(** ** A concrete platform

    A signer that writes what it was given, a token source that knows one answer, a
    cache that never evicts. *)
Definition demo_sign (c : awsCredential) (r : HTTPRequest) (hash service region : bytes) (now : Z) :
    result string Header :=
  let h := <[amzDateHeader := [itoa now]]> (rq_Header r) in
  let h := if negb (beq (SessionToken c) []) then <[amzSecurityTokenHeader := [SessionToken c]]> h else h in
  Ok (<[hdrAuthorization := [lit "signed by " ++ AccessKeyID c ++ lit " for " ++ service ++ lit "/" ++ region]]> h).

Lemma demo_sign_laws : signer_laws demo_sign.
Proof.
  intros cred r hash service region now h. unfold demo_sign, signed_headers. intros [= <-].
  destruct (negb (beq (SessionToken cred) [])); cbn [app]; split.
  - rewrite !dom_insert_L, !list_to_set_cons, list_to_set_nil. set_solver.
  - intros k Hk. rewrite !lookup_insert_ne; [done|..]; intros <-; apply Hk; set_solver.
  - rewrite !dom_insert_L, !list_to_set_cons, list_to_set_nil. set_solver.
  - intros k Hk. rewrite !lookup_insert_ne; [done|..]; intros <-; apply Hk; set_solver.
Qed.

Definition demo_key_pair (secret : bytes) : result string awsCredential :=
  let '(id, rest, found) := cut_byte "/" secret in
  let '(key, token, _) := cut_byte "/" rest in
  if found then Ok (mkAWS id key token) else Err "invalid character"%string.

Abbreviation demo_present := (Present demo_key_pair (fun _ => Err "not an account"%string)
  (fun s => Ok (mkKling s s)) quoted (fun s => s) (fun _ s => s) demo_sign bytes (gmap bytes bytes)
  jc_Email (fun ts => Ok (lit "Bearer " ++ ts)) (fun c k => (c !! k, c)) (fun c k ts => <[k := ts]> c)).

#[export] Instance demo_present_laws : PresentLaws demo_present (ExtraHeaders demo_key_pair).
Proof. apply Present_laws, demo_sign_laws. Qed.
