(* ===== verification/Outbound.v ===== *)
(** * Building the outbound request: [internal/gateway/proxy/outbound.go]

    The request an upstream receives: its address, its headers built up from
    nothing, and its credential.  Go ranges over a map in no fixed order, so the
    order in which a header mapping is applied is a parameter ([visit]). *)
From S2P Require Import Prelude GoStr Http Surfaces Transport Upstream.

Open Scope Z_scope.

Definition hdrContentType := lit "Content-Type".
Definition hdrAccept := lit "Accept".
Definition hdrAPIKey := lit "x-api-key".
Definition hdrGoogAPIKey := lit "x-goog-api-key".
Definition hdrAnthropicVer := lit "anthropic-version".
Definition defaultAnthropicAPIVersion := lit "2023-06-01".
Definition apiKeyPlaceholder := lit "${api_key}".
Definition EventStreamContentType := lit "application/vnd.amazon.eventstream".

Record Target := mkTarget {
  tg_Protocol : Protocol;
  tg_BaseURL : bytes;
  tg_APIKey : bytes;
  tg_Path : bytes;
  tg_Stream : bool;
  tg_Headers : gmap bytes bytes;
  tg_Transport : Transport;
  tg_UpstreamModel : bytes;
  tg_Resource : bytes;
  tg_Method : bytes;
  tg_ExtraQuery : gmap bytes bytes;
  tg_AbsoluteURL : bytes;
  tg_OmitCredential : bool;
}.
Definition with_key (t : Target) (key : bytes) : Target :=
  mkTarget (tg_Protocol t) (tg_BaseURL t) key (tg_Path t) (tg_Stream t) (tg_Headers t) (tg_Transport t)
    (tg_UpstreamModel t) (tg_Resource t) (tg_Method t) (tg_ExtraQuery t) (tg_AbsoluteURL t)
    (tg_OmitCredential t).

Definition methodOf (t : Target) : bytes := if beq (tg_Method t) [] then lit "POST" else tg_Method t.
Definition mode_of (t : Target) : bytes := AuthMode (tg_Transport t) (tg_Protocol t).

Definition authHeaderFor (t : Target) : bytes * bool :=
  let mode := mode_of t in
  if beq mode AuthAPIKey then (hdrAPIKey, false)
  else if beq mode AuthGoogAPIKey then (hdrGoogAPIKey, false)
  else if beq mode AuthBearer then (hdrAuthorization, true)
  else if Handles mode then (hdrAuthorization, false)
  else (CanonicalHeaderKey (TrimPrefix mode AuthHeaderPrefix), false).

(** Whether the dialect's version travels as a header. *)
Definition sends_version (t : Target) : bool :=
  bool_decide (tg_Protocol t = ProtocolAnthropic) && beq (BodyEnvelope (tg_Transport t)) EnvelopeNone.

Definition setAuth (h : Header) (t : Target) : Header :=
  if tg_OmitCredential t then h
  else
    let h :=
      if Handles (mode_of t) then h
      else let '(name, bearer) := authHeaderFor t in
           header_set h name (if bearer then lit "Bearer " ++ tg_APIKey t else tg_APIKey t) in
    if sends_version t then
      header_set h hdrAnthropicVer
        (if beq (t_AnthropicVersion (tg_Transport t)) [] then defaultAnthropicAPIVersion
         else t_AnthropicVersion (tg_Transport t))
    else h.

Definition acceptFor (t : Target) : bytes :=
  if tg_Stream t && beq (BodyEnvelope (tg_Transport t)) EnvelopeBedrock then EventStreamContentType
  else if tg_Stream t then lit "text/event-stream"
  else lit "application/json".

(** Why no request is built. *)
Inductive build_error :=
  | BadURL (why : string)
  | NotARequest (why : string)
  | CopiesDocument         (** a mapping would interpolate a derived credential *)
  | NotPresented (e : present_error).

Definition refuseCredentialInterpolation (t : Target) : option build_error :=
  if negb (Handles (mode_of t)) then None
  else if existsb (fun kv => Contains kv.2 apiKeyPlaceholder) (map_to_list (tg_Headers t))
  then Some CopiesDocument else None.

(** On a shared key the route wins. *)
Definition MergeHeaders (providerLevel routeLevel : gmap bytes bytes) : gmap bytes bytes :=
  routeLevel ∪ providerLevel.

Definition apply_one (apiKey : bytes) (h : Header) (kv : bytes * bytes) : Header :=
  if beq kv.2 [] then header_del h kv.1
  else header_set h kv.1 (ReplaceAll kv.2 apiKeyPlaceholder apiKey).
Definition applyHeaderMapping (h : Header) (mapping : list (bytes * bytes)) (apiKey : bytes) : Header :=
  fold_left (apply_one apiKey) mapping h.

Section outbound.
(** [url.JoinPath]; a parsed URL with its query, and its rendering with another one. *)
Variable JoinPath : bytes -> bytes -> result string bytes.
Variable URL : Type.
Variable ParseURL : bytes -> result string URL.
Variable Query : URL -> gmap bytes (list bytes).
Variable WithQuery : URL -> gmap bytes (list bytes) -> bytes.
(** What [http.NewRequestWithContext] refuses: a method that is no token, an address
    that does not parse. *)
Variable NewRequest : bytes -> bytes -> option string.
(** [upstream.Present]. *)
Variable Cache : Type.
Variable PresentWith : Cache -> bytes -> Transport -> bytes -> bytes -> bool -> Z -> HTTPRequest ->
                       result present_error Header * Cache.
(** The order the loop over a mapping visits it in; Go may take another on every call,
    so what compares two builds gives each its own. *)
Variable visit : gmap bytes bytes -> list (bytes * bytes).

Definition endpointURL (t : Target) : result build_error bytes :=
  if negb (beq (tg_AbsoluteURL t) []) then Ok (tg_AbsoluteURL t)
  else
    let path := PathFor (tg_Transport t) (tg_Path t) (tg_UpstreamModel t) (tg_Stream t) in
    let path := ReplaceAll path (lit "{resource}") (PathEscape (tg_Resource t)) in
    match JoinPath (trim_right "/" (tg_BaseURL t)) path with
    | Err why => Err (BadURL why)
    | Ok endpoint =>
        if bool_decide (t_Query (tg_Transport t) = ∅) && bool_decide (tg_ExtraQuery t = ∅)
        then Ok endpoint
        else match ParseURL endpoint with
             | Err why => Err (BadURL why)
             | Ok u =>
                 let q := ((fun v => [v]) <$> t_Query (tg_Transport t)) ∪ Query u in
                 let q := ((fun v => [v]) <$> tg_ExtraQuery t) ∪ q in
                 Ok (WithQuery u q)
             end
    end.

Definition presentCredential (cache : Cache) (t : Target) (payload : bytes) (readable : bool) (now : Z)
    (r : HTTPRequest) : result build_error Header * Cache :=
  if tg_OmitCredential t then (Ok (rq_Header r), cache)
  else if negb (Handles (mode_of t)) then (Ok (rq_Header r), cache)
  else match PresentWith cache (mode_of t) (tg_Transport t) (tg_APIKey t) payload readable now r with
       | (Ok h, cache) => (Ok h, cache)
       | (Err e, cache) => (Err (NotPresented e), cache)
       end.

(** The headers before the credential is presented. *)
Definition base_headers (t : Target) (contentType accept : bytes) : Header :=
  applyHeaderMapping
    (setAuth (header_set (header_set ∅ hdrContentType contentType) hdrAccept accept) t)
    (visit (tg_Headers t)) (tg_APIKey t).

(** The part the two builders share. *)
Definition build_with (cache : Cache) (t : Target) (contentType accept body payload : bytes) (readable : bool)
    (now : Z) : result build_error HTTPRequest * Cache :=
  match endpointURL t with
  | Err e => (Err e, cache)
  | Ok endpoint =>
      match NewRequest (methodOf t) endpoint with
      | Some why => (Err (NotARequest why), cache)
      | None =>
          match refuseCredentialInterpolation t with
          | Some e => (Err e, cache)
          | None =>
              let r := mkHTTPRequest (methodOf t) endpoint (base_headers t contentType accept) body
                         (ConnectTimeout (tg_Transport t)) in
              match presentCredential cache t payload readable now r with
              | (Err e, cache) => (Err e, cache)
              | (Ok h, cache) => (Ok (with_header r h), cache)
              end
          end
      end
  end.

Definition BuildRequest (cache : Cache) (t : Target) (body : bytes) (now : Z) :
    result build_error HTTPRequest * Cache :=
  build_with cache t (lit "application/json") (acceptFor t) body body true now.

(** A body that can be read once: [body] is what will be sent, and nothing of it is
    there to be signed. *)
Definition BuildRequestStream (cache : Cache) (t : Target) (body contentType : bytes) (now : Z) :
    result build_error HTTPRequest * Cache :=
  build_with cache t contentType (lit "application/json") body [] false now.

End outbound.

(** The header set of a request with no mapping; [Extra] is [upstream.ExtraHeaders]. *)
Definition OutboundAllowlist (Extra : bytes -> bytes -> list bytes) (t : Target) : list bytes :=
  map CanonicalHeaderKey
    ([hdrContentType; hdrAccept; (authHeaderFor t).1] ++
     (if sends_version t then [hdrAnthropicVer] else []) ++
     Extra (mode_of t) (tg_APIKey t)).

(** ** Applying a mapping *)

Lemma header_set_ne h k v n : n <> CanonicalHeaderKey k -> header_set h k v !! n = h !! n.
Proof. intros Hn. unfold header_set. apply lookup_insert_ne. congruence. Qed.

Lemma apply_one_ne apiKey h kv n : n <> CanonicalHeaderKey kv.1 -> apply_one apiKey h kv !! n = h !! n.
Proof.
  intros Hn. unfold apply_one. destruct (beq kv.2 []); [|by apply header_set_ne].
  unfold header_del. apply lookup_delete_ne. congruence.
Qed.

Lemma mapping_ne apiKey mapping h n :
  n ∉ map (CanonicalHeaderKey ∘ fst) mapping -> applyHeaderMapping h mapping apiKey !! n = h !! n.
Proof.
  revert h. induction mapping as [|kv mapping IH]; intros h; [done|].
  cbn [map]. intros [Hn Hm]%not_elem_of_cons. cbn [applyHeaderMapping fold_left].
  etrans; [by apply IH|]. by apply apply_one_ne.
Qed.

(** What a mapped value becomes. *)
Definition mapped_value (apiKey v : bytes) : option (list bytes) :=
  if beq v [] then None else Some [ReplaceAll v apiKeyPlaceholder apiKey].

Lemma mapping_eq apiKey mapping h k v :
  NoDup (map (CanonicalHeaderKey ∘ fst) mapping) -> (k, v) ∈ mapping ->
  applyHeaderMapping h mapping apiKey !! CanonicalHeaderKey k = mapped_value apiKey v.
Proof.
  revert h. induction mapping as [|kv mapping IH]; intros h; [by intros _ ?%elem_of_nil|].
  cbn [map]. intros [Hkv Hnd]%list.NoDup_cons [<-|Hin]%elem_of_cons.
  - cbn [applyHeaderMapping fold_left]. fold (applyHeaderMapping (apply_one apiKey h (k, v)) mapping apiKey).
    rewrite mapping_ne by exact Hkv. unfold apply_one, mapped_value. cbn [fst snd].
    destruct (beq v []); [apply lookup_delete_eq|apply lookup_insert_eq].
  - cbn [applyHeaderMapping fold_left]. by apply IH.
Qed.

(** A header some key names ends as one of the values written for it. *)
Lemma mapping_last apiKey mapping h n :
  n ∈ map (CanonicalHeaderKey ∘ fst) mapping ->
  exists k v, (k, v) ∈ mapping /\ CanonicalHeaderKey k = n /\
    applyHeaderMapping h mapping apiKey !! n = mapped_value apiKey v.
Proof.
  induction mapping as [|[k v] mapping IH] using rev_ind; [by intros ?%elem_of_nil|].
  rewrite map_app, elem_of_app. cbn [map]. intros Hn.
  unfold applyHeaderMapping. rewrite fold_left_app. fold (applyHeaderMapping h mapping apiKey). cbn [fold_left].
  destruct (decide (CanonicalHeaderKey k = n)) as [E|E].
  - exists k, v. split; [apply elem_of_app; right; by left|]. split; [done|]. rewrite <- E.
    unfold apply_one, mapped_value. cbn [fst snd].
    destruct (beq v []); [apply lookup_delete_eq|apply lookup_insert_eq].
  - destruct Hn as [Hn|Hn]; [|apply list_elem_of_singleton in Hn; by destruct E].
    destruct (IH Hn) as (k' & v' & Hin & Hk & Hv). exists k', v'.
    split; [apply elem_of_app; by left|]. split; [done|]. rewrite apply_one_ne; [done|]. cbn [fst]. congruence.
Qed.

(** ** The header set *)

Lemma setAuth_dom t h :
  tg_OmitCredential t = false ->
  dom (setAuth h t) =
  dom h ∪ (if Handles (mode_of t) then ∅ else {[CanonicalHeaderKey (authHeaderFor t).1]}) ∪
  (if sends_version t then {[CanonicalHeaderKey hdrAnthropicVer]} else ∅).
Proof.
  intros Ho. unfold setAuth, header_set. rewrite Ho. destruct (authHeaderFor t) as [name bearer]. cbn [fst].
  destruct (Handles (mode_of t)), (sends_version t); rewrite ?dom_insert_L, ?union_empty_r_L;
    apply leibniz_equiv; intros x; rewrite ?elem_of_union; tauto.
Qed.

Lemma derived_auth t : Handles (mode_of t) = true -> authHeaderFor t = (hdrAuthorization, false).
Proof.
  unfold authHeaderFor. intros Hm. rewrite Hm. unfold Handles in Hm. apply bool_decide_eq_true in Hm.
  repeat (apply elem_of_cons in Hm as [Hm|Hm]; [rewrite Hm; by vm_compute|]). by apply elem_of_nil in Hm.
Qed.

Section properties.
Variable JoinPath : bytes -> bytes -> result string bytes.
Variable URL : Type.
Variable ParseURL : bytes -> result string URL.
Variable Query : URL -> gmap bytes (list bytes).
Variable WithQuery : URL -> gmap bytes (list bytes) -> bytes.
Variable NewRequest : bytes -> bytes -> option string.
Context {Cache : Type} {PresentWith : Cache -> bytes -> Transport -> bytes -> bytes -> bool -> Z -> HTTPRequest ->
                       result present_error Header * Cache}
        {Extra : bytes -> bytes -> list bytes} `{!PresentLaws PresentWith Extra}.
Variable visit : gmap bytes bytes -> list (bytes * bytes).
Hypothesis Hvisit : forall m, visit m ≡ₚ map_to_list m.
Abbreviation build_ := (build_with JoinPath URL ParseURL Query WithQuery NewRequest Cache PresentWith visit).

Lemma build_with_ok cache t contentType accept body payload readable now r cache' :
  build_ cache t contentType accept body payload readable now = (Ok r, cache') ->
  exists endpoint h,
    endpointURL JoinPath URL ParseURL Query WithQuery t = Ok endpoint /\
    refuseCredentialInterpolation t = None /\
    presentCredential Cache PresentWith cache t payload readable now
      (mkHTTPRequest (methodOf t) endpoint (base_headers visit t contentType accept) body
         (ConnectTimeout (tg_Transport t))) = (Ok h, cache') /\
    r = mkHTTPRequest (methodOf t) endpoint h body (ConnectTimeout (tg_Transport t)).
Proof using.
  unfold build_with. destruct (endpointURL _ _ _ _ _ t) as [endpoint|]; [|done].
  destruct (NewRequest _ _); [done|]. destruct (refuseCredentialInterpolation t) eqn:Er; [done|].
  destruct (presentCredential _ _ _ _ _ _ _ _) as [[h|] c] eqn:Ep; [|done].
  intros [= <- <-]. exists endpoint, h. done.
Qed.
End properties.

(** With no mapping configured the upstream sees exactly the headers of the
    allowlist, whatever the dialect, the profile and the credential: content type,
    accept, the one header the credential travels in, the dialect's version where it
    travels as a header, and what a signature adds. *)
Theorem headers_are_the_allowlist `{PresentLaws Cache PresentWith Extra} JoinPath URL ParseURL Query WithQuery NewRequest
    visit cache t body now r cache' :
  (forall m : gmap bytes bytes, visit m ≡ₚ map_to_list m) ->
  tg_Headers t = ∅ -> tg_OmitCredential t = false ->
  BuildRequest JoinPath URL ParseURL Query WithQuery NewRequest Cache PresentWith visit cache t body now
    = (Ok r, cache') ->
  dom (rq_Header r) = list_to_set (OutboundAllowlist Extra t).
Proof.
  intros Hv Hh Ho (endpoint & h & _ & _ & Hp & ->)%build_with_ok. cbn [rq_Header].
  assert (Hbase : dom (base_headers visit t (lit "application/json") (acceptFor t)) =
    {[hdrAccept; hdrContentType]} ∪ (if Handles (mode_of t) then ∅ else {[CanonicalHeaderKey (authHeaderFor t).1]}) ∪
    (if sends_version t then {[CanonicalHeaderKey hdrAnthropicVer]} else ∅)).
  { unfold base_headers. specialize (Hv (tg_Headers t)). rewrite Hh in *. rewrite map_to_list_empty in Hv.
    apply Permutation_nil_r in Hv as ->. cbn [applyHeaderMapping fold_left]. rewrite setAuth_dom by done.
    unfold header_set. by rewrite !dom_insert_L, dom_empty_L, union_empty_r_L. }
  unfold presentCredential in Hp. rewrite Ho in Hp. unfold OutboundAllowlist.
  rewrite !map_app, !list_to_set_app_L, extra_canonical.
  destruct (Handles (mode_of t)) eqn:Em; cbn [negb] in Hp.
  - destruct (PresentWith _ _ _ _ _ _ _ _) as [[h'|e] c] eqn:Epr; [|done]. injection Hp as -> ->.
    apply present_dom in Epr. rewrite Epr. cbn [rq_Header]. rewrite Hbase, (derived_auth t Em).
    cbn [map fst]. rewrite !list_to_set_cons, list_to_set_nil.
    destruct (sends_version t); cbn [map]; rewrite ?list_to_set_cons, ?list_to_set_nil;
      apply leibniz_equiv; intros x; rewrite !elem_of_union, ?elem_of_empty; cbn; tauto.
  - cbn [rq_Header] in Hp.
    assert (h = base_headers visit t (lit "application/json") (acceptFor t)) as -> by congruence.
    rewrite Hbase, (extra_plain _ _ Em). cbn [map].
    rewrite !list_to_set_cons, list_to_set_nil.
    destruct (sends_version t); cbn [map]; rewrite ?list_to_set_cons, ?list_to_set_nil;
      apply leibniz_equiv; intros x; rewrite !elem_of_union, ?elem_of_empty; cbn; tauto.
Qed.

(** ** Where the secret goes *)

(** The headers that may depend on the credential: the one it travels in, those a
    derivation adds, and those a mapping asks for it in. *)
Definition secret_headers (t : Target) : list bytes :=
  (if tg_OmitCredential t then []
   else CanonicalHeaderKey (authHeaderFor t).1 :: (if Handles (mode_of t) then derived_headers else [])) ++
  map (CanonicalHeaderKey ∘ fst)
    (List.filter (fun kv => Contains kv.2 apiKeyPlaceholder) (map_to_list (tg_Headers t))).

Lemma setAuth_key t key1 key2 h n :
  n ∉ (if tg_OmitCredential t then [] else [CanonicalHeaderKey (authHeaderFor t).1]) ->
  setAuth h (with_key t key1) !! n = setAuth h (with_key t key2) !! n.
Proof.
  unfold setAuth, mode_of, sends_version, authHeaderFor, mode_of. cbn [with_key tg_OmitCredential tg_Transport
    tg_Protocol tg_APIKey]. destruct (tg_OmitCredential t); [done|].
  set (auth := if beq _ AuthAPIKey then _ else _). destruct auth as [name bearer]. cbn [fst].
  intros Hn%not_elem_of_cons. destruct Hn as [Hn _].
  destruct (Handles _); [done|]. unfold header_set.
  destruct (_ && _); [|by rewrite !lookup_insert_ne by congruence].
  destruct (decide (n = CanonicalHeaderKey hdrAnthropicVer)) as [->|Hv]; [by rewrite !lookup_insert_eq|].
  by rewrite !lookup_insert_ne by congruence.
Qed.

(** What a mapping that does not ask for the credential writes. *)
Definition written (v : bytes) : option (list bytes) := if beq v [] then None else Some [v].

(** At most one key of the mapping names the header. *)
Definition spelled_once (t : Target) (n : bytes) : Prop :=
  forall k1 v1 k2 v2, tg_Headers t !! k1 = Some v1 -> tg_Headers t !! k2 = Some v2 ->
    CanonicalHeaderKey k1 = n -> CanonicalHeaderKey k2 = n -> k1 = k2.

Definition named_by (t : Target) (n : bytes) : Prop :=
  exists k v, tg_Headers t !! k = Some v /\ CanonicalHeaderKey k = n.

Lemma visited_names visit t n :
  visit ≡ₚ map_to_list (tg_Headers t) -> n ∈ map (CanonicalHeaderKey ∘ fst) visit <-> named_by t n.
Proof.
  intros Hv. rewrite list_elem_of_fmap. split.
  - intros ([k v] & -> & Hkv). exists k, v. split; [|done]. rewrite Hv in Hkv. by apply elem_of_map_to_list.
  - intros (k & v & Hkv & <-). exists (k, v). split; [done|]. rewrite Hv. by apply elem_of_map_to_list.
Qed.

Lemma without_placeholder t key k v :
  CanonicalHeaderKey k ∉ secret_headers t -> tg_Headers t !! k = Some v -> mapped_value key v = written v.
Proof.
  intros Hn Hkv. unfold mapped_value, written. destruct (beq v []); [done|].
  destruct (Contains v apiKeyPlaceholder) eqn:Ec; [|by rewrite ReplaceAll_absent].
  destruct Hn. apply elem_of_app. right. apply (list_elem_of_fmap_2 (CanonicalHeaderKey ∘ fst) _ (k, v)).
  apply list_elem_of_In, filter_In. split; [|done]. apply list_elem_of_In. by apply elem_of_map_to_list.
Qed.

(** A mapped header that asks for no credential is one of the values written for it,
    in whatever order the mapping is visited. *)
Lemma base_named visit t key contentType accept n :
  visit ≡ₚ map_to_list (tg_Headers t) -> n ∉ secret_headers t -> named_by t n ->
  exists k v, tg_Headers t !! k = Some v /\ CanonicalHeaderKey k = n /\
    base_headers (fun _ => visit) (with_key t key) contentType accept !! n = written v.
Proof.
  intros Hv Hn Hnamed. unfold base_headers. cbn [with_key tg_Headers tg_APIKey].
  apply (visited_names _ _ _ Hv), (mapping_last key _
    (setAuth (header_set (header_set ∅ hdrContentType contentType) hdrAccept accept) (with_key t key)))
    in Hnamed as (k & v & Hkv & <- & Hlook).
  rewrite Hv in Hkv. apply elem_of_map_to_list in Hkv. exists k, v. split; [done|]. split; [done|].
  by rewrite Hlook, (without_placeholder t key k v).
Qed.

Lemma base_same visit1 visit2 t key1 key2 contentType accept n :
  visit1 ≡ₚ map_to_list (tg_Headers t) -> visit2 ≡ₚ map_to_list (tg_Headers t) ->
  n ∉ secret_headers t -> spelled_once t n ->
  base_headers (fun _ => visit1) (with_key t key1) contentType accept !! n =
  base_headers (fun _ => visit2) (with_key t key2) contentType accept !! n.
Proof.
  intros Hv1 Hv2 Hn Honce.
  destruct (decide (n ∈ map (CanonicalHeaderKey ∘ fst) visit1)) as [Hin|Hout].
  - apply (visited_names _ _ _ Hv1) in Hin.
    destruct (base_named visit1 t key1 contentType accept n Hv1 Hn Hin) as (k1 & w1 & H1 & E1 & ->).
    destruct (base_named visit2 t key2 contentType accept n Hv2 Hn Hin) as (k2 & w2 & H2 & E2 & ->).
    assert (k1 = k2) as -> by (by eapply Honce). congruence.
  - assert (Hout2 : n ∉ map (CanonicalHeaderKey ∘ fst) visit2).
    { intros H. apply Hout, (visited_names _ _ _ Hv1), (visited_names _ _ _ Hv2), H. }
    unfold base_headers. rewrite !mapping_ne by done. apply setAuth_key.
    unfold secret_headers in Hn. apply not_elem_of_app in Hn as [Ha _].
    destruct (tg_OmitCredential t); [done|]. apply not_elem_of_cons in Ha as [Ha _].
    apply not_elem_of_cons. split; [done|apply not_elem_of_nil].
Qed.

(** C23: the secret goes where the profile and the mapping say and nowhere else.  Two
    requests built for one target with two credentials, the header mapping visited in
    any order by each, have the same method, address, body and connect bound.
    Outside [secret_headers] (the headers the profile and the mapping put the
    credential in), they agree on every header no two keys of the mapping spell
    differently; and a header the mapping names carries, in either, a value written
    there as it is written.  A credential that is a document is copied by no mapping. *)
Theorem secret_goes_where_told `{PresentLaws Cache PresentWith Extra} JoinPath URL ParseURL Query WithQuery NewRequest
    visit1 visit2 cache1 cache2 t key1 key2 body now1 now2 r1 r2 cache1' cache2' :
  visit1 ≡ₚ map_to_list (tg_Headers t) -> visit2 ≡ₚ map_to_list (tg_Headers t) ->
  BuildRequest JoinPath URL ParseURL Query WithQuery NewRequest Cache PresentWith (fun _ => visit1) cache1
    (with_key t key1) body now1 = (Ok r1, cache1') ->
  BuildRequest JoinPath URL ParseURL Query WithQuery NewRequest Cache PresentWith (fun _ => visit2) cache2
    (with_key t key2) body now2 = (Ok r2, cache2') ->
  rq_Method r1 = rq_Method r2 /\ rq_URL r1 = rq_URL r2 /\ rq_Body r1 = rq_Body r2 /\
  rq_ConnectTimeout r1 = rq_ConnectTimeout r2 /\
  (forall n, n ∉ secret_headers t ->
     (spelled_once t n -> rq_Header r1 !! n = rq_Header r2 !! n) /\
     (named_by t n -> forall r, r = r1 \/ r = r2 ->
        exists k v, tg_Headers t !! k = Some v /\ CanonicalHeaderKey k = n /\ rq_Header r !! n = written v)) /\
  (Handles (mode_of t) = true ->
   forall k v, tg_Headers t !! k = Some v -> Contains v apiKeyPlaceholder = false).
Proof.
  intros Hv1 Hv2 (e1 & h1 & He1 & Hi & Hp1 & ->)%build_with_ok (e2 & h2 & He2 & _ & Hp2 & ->)%build_with_ok.
  cbn [rq_Method rq_URL rq_Body rq_ConnectTimeout rq_Header].
  assert (e1 = e2) as -> by (change (endpointURL JoinPath URL ParseURL Query WithQuery t = Ok e1) in He1;
    change (endpointURL JoinPath URL ParseURL Query WithQuery t = Ok e2) in He2; congruence).
  split_and!; [done..| |].
  - intros n Hn. pose proof Hn as Ha. unfold secret_headers in Ha. apply not_elem_of_app in Ha as [Ha _].
    assert (Hpres : forall cache key readable now r h cache',
      presentCredential Cache PresentWith cache (with_key t key) body readable now r = (Ok h, cache') ->
      h !! n = rq_Header r !! n).
    { intros cache key readable now r h cache'. unfold presentCredential, mode_of.
      cbn [with_key tg_OmitCredential tg_Transport tg_Protocol tg_APIKey].
      destruct (tg_OmitCredential t); [by intros [= <- _]|]. fold (mode_of t).
      destruct (Handles (mode_of t)) eqn:Em; cbn [negb]; [|by intros [= <- _]].
      destruct (PresentWith _ _ _ _ _ _ _ _) as [[h'|] c] eqn:Ep; [|done]. intros [= -> ->].
      eapply present_frame; [exact Ep|]. by apply not_elem_of_cons in Ha as [_ Ha]. }
    apply Hpres in Hp1, Hp2. cbn [rq_Header] in Hp1, Hp2. split.
    + intros Honce. rewrite Hp1, Hp2. by apply base_same.
    + intros Hnamed r [-> | ->]; cbn [with_header rq_Header]; [rewrite Hp1|rewrite Hp2]; by apply base_named.
  - intros Em k v Hkv. unfold refuseCredentialInterpolation in Hi.
    change (mode_of (with_key t key1)) with (mode_of t) in Hi. rewrite Em in Hi. cbn [negb] in Hi.
    destruct (existsb _ _) eqn:Ee in Hi; [done|]. apply not_true_iff_false. intros Hc.
    apply not_true_iff_false in Ee. apply Ee. apply existsb_exists. exists (k, v).
    split; [|done]. by apply list_elem_of_In, elem_of_map_to_list.
Qed.

(** ** The credential has a header of its own *)

Lemma reserved_apart name reserved :
  forallb token_byte name = true -> reservedOutboundHeader name = false ->
  forallb token_byte reserved = true -> reservedOutboundHeader reserved = true ->
  CanonicalHeaderKey reserved <> CanonicalHeaderKey name.
Proof.
  unfold reservedOutboundHeader. intros Hn Hf Hr Ht E%CanonicalHeaderKey_eq; [|done..].
  rewrite E, Hf in Ht. done.
Qed.

Lemma auth_header_apart VHF t reserved :
  (forall n, VHF n = true -> forallb token_byte n = true) ->
  addressable VHF (tg_Transport t) ->
  forallb token_byte reserved = true -> reservedOutboundHeader reserved = true ->
  CanonicalHeaderKey reserved <> CanonicalHeaderKey (authHeaderFor t).1.
Proof.
  intros Htok Ha Hr Ht.
  assert (Hstd : forall name, name ∈ [hdrAPIKey; hdrGoogAPIKey; hdrAuthorization] ->
    CanonicalHeaderKey reserved <> CanonicalHeaderKey name).
  { intros name Hn. apply reserved_apart; [| |done..];
      repeat (apply elem_of_cons in Hn as [->|Hn]; [by vm_compute|]); by apply elem_of_nil in Hn. }
  unfold authHeaderFor. destruct (beq (mode_of t) AuthAPIKey) eqn:E1; [apply Hstd; by left|].
  destruct (beq (mode_of t) AuthGoogAPIKey) eqn:E2; [apply Hstd; right; by left|].
  destruct (beq (mode_of t) AuthBearer) eqn:E3; [apply Hstd; do 2 right; by left|].
  destruct (Handles (mode_of t)) eqn:E4; [apply Hstd; do 2 right; by left|]. cbn [fst].
  rewrite CanonicalHeaderKey_idem. apply beq_false in E1, E2, E3.
  unfold Handles in E4. apply bool_decide_eq_false in E4.
  assert (Hnamed : mode_of t ∉ named_modes).
  { intros Hin. unfold named_modes in Hin. apply elem_of_cons in Hin as [?|Hin]; [done|].
    do 2 (apply elem_of_cons in Hin as [?|Hin]; [done|]). done. }
  unfold mode_of in *. destruct (decide (t_Auth (tg_Transport t) = [])) as [En|En].
  { exfalso. apply Hnamed. unfold AuthMode. rewrite En. unfold named_modes.
    by destruct (tg_Protocol t); apply (bool_decide_eq_true_1 _). }
  rewrite (AuthMode_named _ _ VHF Ha En) in Hnamed |- * .
  destruct (ad_auth _ _ Ha) as [Hin|(name & Hm & _ & Hv & Hres)].
  { apply elem_of_cons in Hin as [?|?]; done. }
  unfold header_mode in Hm. destruct (has_prefix _ _); [|done]. injection Hm as ->.
  apply reserved_apart; [by apply Htok|done..].
Qed.

(** A credential that is copied reaches the upstream in the header its profile names
    and displaces nothing: with a validated profile and no mapping the content type,
    what is accepted and the dialect's version go out as the protocol needs them,
    beside the credential. *)
Theorem credential_displaces_nothing `{PresentLaws Cache PresentWith Extra} JoinPath URL ParseURL Query WithQuery
    NewRequest visit cache t body now r cache' ValidHeaderFieldName :
  (forall m : gmap bytes bytes, visit m ≡ₚ map_to_list m) ->
  (forall n, ValidHeaderFieldName n = true -> forallb token_byte n = true) ->
  addressable ValidHeaderFieldName (tg_Transport t) ->
  tg_Headers t = ∅ -> tg_OmitCredential t = false -> Handles (mode_of t) = false ->
  BuildRequest JoinPath URL ParseURL Query WithQuery NewRequest Cache PresentWith visit cache t body now
    = (Ok r, cache') ->
  header_get (rq_Header r) hdrContentType = lit "application/json" /\
  header_get (rq_Header r) hdrAccept = acceptFor t /\
  header_get (rq_Header r) (authHeaderFor t).1
  = (if (authHeaderFor t).2 then lit "Bearer " ++ tg_APIKey t else tg_APIKey t) /\
  (sends_version t = true ->
   header_get (rq_Header r) hdrAnthropicVer
   = if beq (t_AnthropicVersion (tg_Transport t)) [] then defaultAnthropicAPIVersion
     else t_AnthropicVersion (tg_Transport t)).
Proof.
  intros Hv Htok Ha Hh Ho Hm (endpoint & h & _ & _ & Hp & ->)%build_with_ok. cbn [rq_Header].
  unfold presentCredential in Hp. rewrite Ho, Hm in Hp. cbn [negb rq_Header] in Hp.
  assert (h = base_headers visit t (lit "application/json") (acceptFor t)) as -> by congruence.
  unfold base_headers. specialize (Hv (tg_Headers t)). rewrite Hh in Hv |- * . rewrite map_to_list_empty in Hv.
  apply Permutation_nil_r in Hv as ->. cbn [applyHeaderMapping fold_left].
  unfold setAuth. rewrite Ho, Hm.
  pose proof (fun res => auth_header_apart ValidHeaderFieldName t res Htok Ha) as Hap.
  pose proof (Hap hdrContentType eq_refl eq_refl) as H1. pose proof (Hap hdrAccept eq_refl eq_refl) as H2.
  pose proof (Hap hdrAnthropicVer eq_refl eq_refl) as H3.
  destruct (authHeaderFor t) as [name bearer]. cbn [fst snd] in *. unfold header_get.
  assert (H4 : CanonicalHeaderKey hdrContentType <> CanonicalHeaderKey hdrAccept) by done.
  assert (H5 : CanonicalHeaderKey hdrContentType <> CanonicalHeaderKey hdrAnthropicVer) by done.
  assert (H6 : CanonicalHeaderKey hdrAccept <> CanonicalHeaderKey hdrAnthropicVer) by done.
  unfold header_set. destruct (sends_version t);
    split_and!; try done; intros; repeat rewrite lookup_insert_ne by congruence; by rewrite lookup_insert_eq.
Qed.

(** ** Mappings *)

(** Under distinct header names the order a mapping is applied in does not matter:
    a mapped header becomes its value with the credential in the placeholder's
    place, an empty value removes it, and every other header is untouched. *)
Theorem mapping_is_order_free visit h mapping apiKey n :
  visit ≡ₚ map_to_list mapping ->
  (forall k1 v1 k2 v2, mapping !! k1 = Some v1 -> mapping !! k2 = Some v2 ->
     CanonicalHeaderKey k1 = CanonicalHeaderKey k2 -> k1 = k2) ->
  (forall k v, mapping !! k = Some v -> n = CanonicalHeaderKey k ->
     applyHeaderMapping h visit apiKey !! n = mapped_value apiKey v) /\
  ((forall k v, mapping !! k = Some v -> n <> CanonicalHeaderKey k) ->
   applyHeaderMapping h visit apiKey !! n = h !! n).
Proof.
  intros Hp Hinj. split.
  - intros k v Hkv ->. apply mapping_eq; [|by rewrite Hp; apply elem_of_map_to_list].
    rewrite Hp. change (NoDup ((CanonicalHeaderKey ∘ fst) <$> map_to_list mapping)).
    rewrite list_fmap_compose. apply NoDup_fmap_2_strong; [|apply NoDup_fst_map_to_list].
    intros k1 k2 ((k1' & v1) & -> & H1)%list_elem_of_fmap ((k2' & v2) & -> & H2)%list_elem_of_fmap.
    apply elem_of_map_to_list in H1, H2. by eapply Hinj.
  - intros Hn. apply mapping_ne. intros ((k & v) & -> & Hkv)%list_elem_of_fmap.
    rewrite Hp in Hkv. apply elem_of_map_to_list in Hkv. by eapply Hn.
Qed.

(** A route's header wins over the provider's only when both spell it alike.  Two
    spellings are two keys of the merged map, which is then applied in whatever
    order Go visits it: one order sends the route's value, another the provider's. *)
Theorem spelling_decides_who_wins h k1 v1 k2 v2 apiKey :
  k1 <> k2 -> CanonicalHeaderKey k1 = CanonicalHeaderKey k2 ->
  let merged := MergeHeaders {[k1 := v1]} {[k2 := v2]} in
  exists visit1 visit2,
    visit1 ≡ₚ map_to_list merged /\ visit2 ≡ₚ map_to_list merged /\
    applyHeaderMapping h visit1 apiKey !! CanonicalHeaderKey k2 = mapped_value apiKey v1 /\
    applyHeaderMapping h visit2 apiKey !! CanonicalHeaderKey k2 = mapped_value apiKey v2.
Proof.
  intros Hne Hc merged. exists [(k2, v2); (k1, v1)], [(k1, v1); (k2, v2)].
  assert (Hl : [(k2, v2); (k1, v1)] ≡ₚ map_to_list merged).
  { unfold merged, MergeHeaders. rewrite <- insert_union_singleton_l.
    rewrite map_to_list_insert by by apply lookup_singleton_ne. by rewrite map_to_list_singleton. }
  assert (Hlast : forall a b, applyHeaderMapping h [a; b] apiKey !! CanonicalHeaderKey b.1 = mapped_value apiKey b.2).
  { intros a [k v]. cbn [applyHeaderMapping fold_left]. unfold apply_one at 1, mapped_value. cbn [fst snd].
    destruct (beq v []); [apply lookup_delete_eq|apply lookup_insert_eq]. }
  split_and!; [done|by rewrite <- Hl; apply perm_swap| |].
  - rewrite <- Hc. exact (Hlast (k2, v2) (k1, v1)).
  - exact (Hlast (k1, v1) (k2, v2)).
Qed.

(** ** Examples *)

Abbreviation demo_build := (BuildRequest (fun base path => Ok (base ++ path)) bytes (fun u => Ok u)
  (fun _ => ∅) (fun u _ => u) (fun _ _ => None) (gmap bytes bytes) demo_present map_to_list ∅).
Definition demo_hosted_target (key : bytes) : Target :=
  mkTarget ProtocolAnthropic (lit "https://bedrock.test/") key PathMessages true ∅ demo_bedrock (lit "claude") []
    [] ∅ [] false.
Definition demo_relay : Transport := mkTransport (lit "header:x-relay-key") [] ∅ ∅ ∅ [] None 0.
Definition demo_relay_target (headers : gmap bytes bytes) : Target :=
  mkTarget ProtocolAnthropic (lit "https://relay.test") (lit "sk-1") PathMessages false headers demo_relay
    (lit "claude") [] [] ∅ [] false.

Lemma headers_are_the_allowlist_witness :
  exists r c,
    demo_build (demo_hosted_target (lit "AK/SK/token")) (lit "{}") 7 = (Ok r, c) /\
    rq_URL r = lit "https://bedrock.test/model/claude/invoke-with-response-stream" /\
    dom (rq_Header r) =
    list_to_set (OutboundAllowlist (ExtraHeaders demo_key_pair) (demo_hosted_target (lit "AK/SK/token"))).
Proof.
  destruct (demo_build (demo_hosted_target (lit "AK/SK/token")) (lit "{}") 7) as [[r|] c] eqn:E;
    [|vm_compute in E; discriminate].
  exists r, c. split; [reflexivity|]. split; [vm_compute in E; injection E as <- _; reflexivity|].
  refine (headers_are_the_allowlist (fun base path => Ok (base ++ path)) bytes (fun u => Ok u) (fun _ => ∅)
    (fun u _ => u) (fun _ _ => None) map_to_list ∅ (demo_hosted_target (lit "AK/SK/token")) (lit "{}") 7 r c
    _ _ _ E); reflexivity.
Defined.

Definition demo_mapping : gmap bytes bytes :=
  {[lit "x-team" := lit "core"; lit "x-copy" := lit "key ${api_key}"]}.
Abbreviation demo_visit visit := (BuildRequest (fun base path => Ok (base ++ path)) bytes (fun u => Ok u)
  (fun _ => ∅) (fun u _ => u) (fun _ _ => None) (gmap bytes bytes) demo_present (fun _ => visit) ∅).

(** Two keys and two orders: the profile's header and the copying one differ, the
    other mapped one is as written. *)
Lemma secret_goes_where_told_witness :
  let t := demo_relay_target demo_mapping in
  exists r1 r2 c1 c2,
    demo_visit (map_to_list demo_mapping) (with_key t (lit "sk-1")) (lit "{}") 7 = (Ok r1, c1) /\
    demo_visit (rev (map_to_list demo_mapping)) (with_key t (lit "sk-2")) (lit "{}") 9 = (Ok r2, c2) /\
    header_get (rq_Header r1) (lit "X-Relay-Key") <> header_get (rq_Header r2) (lit "X-Relay-Key") /\
    header_get (rq_Header r1) (lit "x-copy") <> header_get (rq_Header r2) (lit "x-copy") /\
    rq_Header r1 !! lit "X-Team" = rq_Header r2 !! lit "X-Team" /\
    rq_Header r1 !! lit "X-Team" = Some [lit "core"].
Proof.
  cbv zeta. set (t := demo_relay_target demo_mapping).
  destruct (demo_visit (map_to_list demo_mapping) (with_key t (lit "sk-1")) (lit "{}") 7) as [[r1|] c1] eqn:E1;
    [|vm_compute in E1; discriminate].
  destruct (demo_visit (rev (map_to_list demo_mapping)) (with_key t (lit "sk-2")) (lit "{}") 9)
    as [[r2|] c2] eqn:E2; [|vm_compute in E2; discriminate].
  destruct (secret_goes_where_told (fun base path => Ok (base ++ path)) bytes (fun u => Ok u) (fun _ => ∅)
    (fun u _ => u) (fun _ _ => None) (map_to_list demo_mapping) (rev (map_to_list demo_mapping)) ∅ ∅ t
    (lit "sk-1") (lit "sk-2") (lit "{}") 7 9 r1 r2 c1 c2) as (_ & _ & _ & _ & Hh & _);
    [reflexivity|symmetry; apply Permutation_rev|exact E1|exact E2|].
  assert (Hs : secret_headers t = [lit "X-Relay-Key"; lit "X-Copy"]) by (vm_compute; reflexivity).
  destruct (Hh (lit "X-Team")) as [Hsame _].
  { rewrite Hs. intros [H|[H|[]%elem_of_nil]%elem_of_cons]%elem_of_cons; vm_compute in H; discriminate H. }
  exists r1, r2, c1, c2. split; [reflexivity|]. split; [reflexivity|].
  split; [vm_compute in E1, E2; injection E1 as <- _; injection E2 as <- _; vm_compute; discriminate|].
  split; [vm_compute in E1, E2; injection E1 as <- _; injection E2 as <- _; vm_compute; discriminate|].
  split; [|vm_compute in E1; injection E1 as <- _; vm_compute; reflexivity].
  apply Hsame.
  assert (Hk : forall k v, tg_Headers t !! k = Some v -> CanonicalHeaderKey k = lit "X-Team" -> k = lit "x-team").
  { intros k v. change (demo_mapping !! k = Some v -> CanonicalHeaderKey k = lit "X-Team" -> k = lit "x-team").
    unfold demo_mapping. intros [[<- _]|[_ [<- _]%lookup_singleton_Some]]%lookup_insert_Some E; [done|].
    vm_compute in E. discriminate E. }
  intros k1 v1 k2 v2 H1 H2 E1' E2'. rewrite (Hk k1 v1 H1 E1'). by rewrite (Hk k2 v2 H2 E2').
Defined.

Lemma credential_displaces_nothing_witness :
  exists r c,
    demo_build (demo_relay_target ∅) (lit "{}") 7 = (Ok r, c) /\
    header_get (rq_Header r) hdrContentType = lit "application/json" /\
    header_get (rq_Header r) hdrAnthropicVer = defaultAnthropicAPIVersion /\
    header_get (rq_Header r) (lit "x-relay-key") = lit "sk-1".
Proof.
  destruct (demo_build (demo_relay_target ∅) (lit "{}") 7) as [[r|] c] eqn:E; [|vm_compute in E; discriminate].
  exists r, c. split; [reflexivity|].
  destruct (credential_displaces_nothing (fun base path => Ok (base ++ path)) bytes (fun u => Ok u) (fun _ => ∅)
    (fun u _ => u) (fun _ _ => None) map_to_list ∅ (demo_relay_target ∅) (lit "{}") 7 r c (forallb token_byte))
    as (H1 & _ & H3 & H4).
  - reflexivity.
  - done.
  - apply check_profile_none. vm_compute. reflexivity.
  - reflexivity.
  - reflexivity.
  - reflexivity.
  - exact E.
  - split_and!; [exact H1|exact (H4 eq_refl)|exact H3].
Defined.

Lemma mapping_is_order_free_witness :
  let mapping := {[lit "x-team" := lit "key ${api_key}"; lit "Accept" := []]} in
  let h := applyHeaderMapping {[lit "Accept" := [lit "application/json"]]} (map_to_list mapping) (lit "sk-1") in
  h !! lit "X-Team" = Some [lit "key sk-1"] /\ h !! lit "Accept" = None.
Proof.
  intros mapping h.
  assert (Hinj : forall k1 v1 k2 v2, mapping !! k1 = Some v1 -> mapping !! k2 = Some v2 ->
    CanonicalHeaderKey k1 = CanonicalHeaderKey k2 -> k1 = k2).
  { intros k1 v1 k2 v2. unfold mapping.
    intros [[<- _]|[_ [<- _]%lookup_singleton_Some]]%lookup_insert_Some
      [[<- _]|[_ [<- _]%lookup_singleton_Some]]%lookup_insert_Some; try done; intros E; vm_compute in E; discriminate. }
  split.
  - refine (proj1 (mapping_is_order_free (map_to_list mapping) {[lit "Accept" := [lit "application/json"]]} mapping
      (lit "sk-1") (lit "X-Team") _ Hinj) (lit "x-team") (lit "key ${api_key}") _ _); reflexivity.
  - refine (proj1 (mapping_is_order_free (map_to_list mapping) {[lit "Accept" := [lit "application/json"]]} mapping
      (lit "sk-1") (lit "Accept") _ Hinj) (lit "Accept") [] _ _); reflexivity.
Defined.

Lemma spelling_decides_who_wins_witness :
  exists visit1 visit2,
    applyHeaderMapping ∅ visit1 [] !! lit "X-Team" = Some [lit "provider"] /\
    applyHeaderMapping ∅ visit2 [] !! lit "X-Team" = Some [lit "route"].
Proof.
  destruct (spelling_decides_who_wins ∅ (lit "x-team") (lit "provider") (lit "X-Team") (lit "route") [])
    as (v1 & v2 & _ & _ & H1 & H2); [discriminate|vm_compute; reflexivity|].
  exists v1, v2. exact (conj H1 H2).
Defined.
