(* ===== verification/Rewrite.v ===== *)
(** * Editing bodies: [RewriteRequest] and [AnnotateUsage] of [protocols.go]

    The only edits the gateway makes to a caller's request and to an upstream's
    answer.  A body is what its JSON decodes to; decoding and encoding are
    parameters.  A decoded number keeps its text ([UseNumber]). *)
From S2P Require Import Prelude GoStr Money Http Surfaces Transport.

Open Scope Z_scope.

(** ** Documents *)

Inductive value :=
  | VNull
  | VBool (b : bool)
  | VNumber (text : bytes)
  | VString (s : bytes)
  | VArray (elems : list value)
  | VObject (fields : list (bytes * value)).

(** A [map[string]any], by its entries; what matters of it is [field]. *)
Abbreviation object := (list (bytes * value)).

Fixpoint field (o : object) (k : bytes) : option value :=
  match o with
  | [] => None
  | (k', v) :: o' => if beq k' k then Some v else field o' k
  end.
Definition drop_field (o : object) (k : bytes) : object := List.filter (fun kv => negb (beq kv.1 k)) o.
Definition set_field (o : object) (k : bytes) (v : value) : object := (k, v) :: drop_field o k.

Lemma field_drop o k k' : field (drop_field o k) k' = if beq k k' then None else field o k'.
Proof.
  induction o as [|[a v] o IH]; cbn [drop_field List.filter field fst]; [by destruct (beq k k')|].
  fold (drop_field o k). destruct (beq a k) eqn:Ea; cbn [negb].
  - rewrite IH. apply beq_true in Ea as ->. by destruct (beq k k').
  - cbn [field]. rewrite IH. destruct (beq a k') eqn:Ek; [|done]. destruct (beq k k') eqn:E; [|done].
    apply beq_true in Ek, E. subst. by rewrite (proj2 (beq_true _ _) eq_refl) in Ea.
Qed.

Lemma field_set o k v k' : field (set_field o k v) k' = if beq k k' then Some v else field o k'.
Proof. unfold set_field. cbn [field]. rewrite field_drop. by destruct (beq k k'). Qed.

(** ** The request *)

(** A write to a nil map is a run-time panic. *)
Inductive rewrite_error :=
  | BadJSON (why : string)
  | NilMapWrite
  | BadEncoding (why : string).

Definition geminiPathModelSurface (s : Surface) : bool :=
  bool_decide (s ∈ [SurfaceGenerateContent; SurfaceGeminiCountTokens; SurfaceGeminiEmbedContent;
                    SurfaceGeminiBatchEmbedContents]).

Definition geminiModelName (model : bytes) : bytes :=
  if has_prefix model (lit "models/") then model else lit "models/" ++ model.

(** The children of a batch: each that is an object names the model. *)
Definition name_child (model : bytes) (child : value) : value :=
  match child with VObject o => VObject (set_field o (lit "model") (VString (geminiModelName model))) | _ => child end.
Definition name_children (model : bytes) (doc : object) : object :=
  match field doc (lit "requests") with
  | Some (VArray l) => set_field doc (lit "requests") (VArray (map (name_child model) l))
  | _ => doc
  end.

(** [None] is the nil map a body of [null] decodes to. *)
Definition applyEnvelope (doc : option object) (tp : Transport) (stream : bool) :
    result rewrite_error (option object) :=
  let env := BodyEnvelope tp in
  if beq env EnvelopeNone then Ok doc
  else match doc with
       | None => Err NilMapWrite
       | Some o =>
           let o := drop_field o (lit "model") in
           let o := set_field o (lit "anthropic_version") (VString (EnvelopeAnthropicVersion tp)) in
           if beq env EnvelopeBedrock then Ok (Some (drop_field o (lit "stream")))
           else Ok (Some (set_field o (lit "stream") (VBool stream)))
       end.

Definition name_model (surface : Surface) (upstreamModel : bytes) (doc : option object) :
    result rewrite_error (option object) :=
  if negb (geminiPathModelSurface surface) then
    match doc with
    | None => Err NilMapWrite
    | Some o => Ok (Some (set_field o (lit "model") (VString upstreamModel)))
    end
  else
    let doc := (fun o => drop_field o (lit "model")) <$> doc in
    if bool_decide (surface = SurfaceGeminiBatchEmbedContents)
    then Ok (name_children upstreamModel <$> doc) else Ok doc.

Definition include_usage : value := VObject [(lit "include_usage", VBool true)].
Definition force_usage (surface : Surface) (stream : bool) (doc : option object) : option object :=
  if bool_decide (surface = SurfaceChat) && stream
  then (fun o => set_field o (lit "stream_options") include_usage) <$> doc else doc.

(** The edits, on a decoded body. *)
Definition rewrite_doc (surface : Surface) (upstreamModel : bytes) (stream : bool) (tp : Transport)
    (doc : option object) : result rewrite_error (option object) :=
  try doc <- name_model surface upstreamModel doc;
  applyEnvelope (force_usage surface stream doc) tp stream.

Section bodies.
Variable Decode : bytes -> result string (option object).
Variable Marshal : option object -> result string bytes.

Definition RewriteRequest (surface : Surface) (body upstreamModel : bytes) (stream : bool) (tp : Transport) :
    result rewrite_error bytes :=
  match Decode body with
  | Err why => Err (BadJSON why)
  | Ok doc =>
      try doc <- rewrite_doc surface upstreamModel stream tp doc;
      match Marshal doc with Err why => Err (BadEncoding why) | Ok out => Ok out end
  end.

(** ** The answer *)

Definition annotation (estimated : bool) (costNano : Z) (currency : bytes) : value :=
  VObject [(lit "estimated", VBool estimated); (lit "cost", VString (FormatNanoExact costNano));
           (lit "currency", VString currency)].

Definition AnnotateUsage (body : bytes) (estimated : bool) (costNano : Z) (currency : bytes) : bytes :=
  match Decode body with
  | Err _ => body
  | Ok doc =>
      match doc ≫= (fun o => field o (lit "usage")) with
      | Some (VObject usage) =>
          let usage := set_field usage (lit "fairlb") (annotation estimated costNano currency) in
          match Marshal ((fun o => set_field o (lit "usage") (VObject usage)) <$> doc) with
          | Err _ => body
          | Ok out => out
          end
      | _ => body
      end
  end.
End bodies.

(** ** What a rewritten request is *)

(** The fields the gateway may write on a surface under a profile. *)
Definition edited (surface : Surface) (stream : bool) (tp : Transport) (k : bytes) : Prop :=
  k = lit "model" \/
  (surface = SurfaceGeminiBatchEmbedContents /\ k = lit "requests") \/
  (surface = SurfaceChat /\ stream = true /\ k = lit "stream_options") \/
  (BodyEnvelope tp <> EnvelopeNone /\ (k = lit "anthropic_version" \/ k = lit "stream")).

(** The model field the upstream reads, when it reads one. *)
Definition model_field (surface : Surface) (upstreamModel : bytes) (tp : Transport) : option value :=
  if geminiPathModelSurface surface || negb (beq (BodyEnvelope tp) EnvelopeNone) then None
  else Some (VString upstreamModel).

Lemma field_set_ne o k v k' : k' <> k -> field (set_field o k v) k' = field o k'.
Proof. intros Hk. rewrite field_set. by rewrite (proj2 (beq_false _ _)) by congruence. Qed.

Lemma field_drop_ne o k k' : k' <> k -> field (drop_field o k) k' = field o k'.
Proof. intros Hk. rewrite field_drop. by rewrite (proj2 (beq_false _ _)) by congruence. Qed.

Lemma field_name_children model o k :
  k <> lit "requests" -> field (name_children model o) k = field o k.
Proof.
  intros Hk. unfold name_children. destruct (field o (lit "requests")) as [[]|]; try done.
  by apply field_set_ne.
Qed.

Lemma name_model_some surface model o :
  exists o', name_model surface model (Some o) = Ok (Some o') /\
    field o' (lit "model") = (if geminiPathModelSurface surface then None else Some (VString model)) /\
    (forall k, k <> lit "model" -> ~ (surface = SurfaceGeminiBatchEmbedContents /\ k = lit "requests") ->
       field o' k = field o k) /\
    (surface = SurfaceGeminiBatchEmbedContents ->
     field o' (lit "requests") = field (name_children model o) (lit "requests")).
Proof.
  unfold name_model. destruct (geminiPathModelSurface surface) eqn:Eg; cbn [negb].
  - set (d := drop_field o (lit "model")). cbn [fmap option_fmap option_map]. fold d.
    assert (Hd : forall k, k <> lit "model" -> field d k = field o k) by (intros k; apply field_drop_ne).
    assert (Hm : field d (lit "model") = None) by (unfold d; by rewrite field_drop).
    case_bool_decide as Eb.
    + exists (name_children model d). split_and!; [done|by rewrite field_name_children| |].
      * intros k Hk Hr. rewrite field_name_children by tauto. by apply Hd.
      * intros _. unfold name_children. rewrite (Hd (lit "requests")) by done.
        destruct (field o (lit "requests")) as [[]|] eqn:Er; try (by rewrite Hd). done.
    + exists d. split_and!; [done|done| |done]. intros k Hk _. by apply Hd.
  - eexists. split_and!; [reflexivity|reflexivity| |].
    + intros k Hk _. by apply field_set_ne.
    + intros ->. done.
Qed.

Lemma force_usage_some surface stream o :
  exists o', force_usage surface stream (Some o) = Some o' /\
    (forall k, ~ (surface = SurfaceChat /\ stream = true /\ k = lit "stream_options") -> field o' k = field o k) /\
    (surface = SurfaceChat -> stream = true -> field o' (lit "stream_options") = Some include_usage).
Proof.
  unfold force_usage. case_bool_decide as Es; [destruct stream|]; cbn [andb].
  - eexists. split_and!; [reflexivity| |reflexivity]. intros k Hk. apply field_set_ne. tauto.
  - by exists o.
  - by exists o.
Qed.

Lemma applyEnvelope_some tp stream o :
  exists o', applyEnvelope (Some o) tp stream = Ok (Some o') /\
    (BodyEnvelope tp = EnvelopeNone -> o' = o) /\
    (forall k, k <> lit "model" -> k <> lit "anthropic_version" -> k <> lit "stream" -> field o' k = field o k) /\
    (BodyEnvelope tp <> EnvelopeNone ->
     field o' (lit "model") = None /\
     field o' (lit "anthropic_version") = Some (VString (EnvelopeAnthropicVersion tp)) /\
     field o' (lit "stream") = if beq (BodyEnvelope tp) EnvelopeBedrock then None else Some (VBool stream)).
Proof.
  unfold applyEnvelope. destruct (beq (BodyEnvelope tp) EnvelopeNone) eqn:Ee.
  { apply beq_true in Ee. by exists o. }
  apply beq_false in Ee. set (d := set_field _ (lit "anthropic_version") _).
  assert (Hd : forall k, k <> lit "model" -> k <> lit "anthropic_version" -> field d k = field o k).
  { intros k Hm Hv. unfold d. by rewrite field_set_ne, field_drop_ne. }
  assert (Hm : field d (lit "model") = None) by (unfold d; by rewrite field_set_ne, field_drop).
  destruct (beq (BodyEnvelope tp) EnvelopeBedrock); eexists; (split_and!; [reflexivity|done| |intros _; split_and!]).
  - intros k H1 H2 H3. rewrite field_drop_ne by done. by apply Hd.
  - by rewrite field_drop_ne.
  - by rewrite field_drop_ne.
  - by rewrite field_drop.
  - intros k H1 H2 H3. rewrite field_set_ne by done. by apply Hd.
  - by rewrite field_set_ne.
  - by rewrite field_set_ne.
  - by rewrite field_set.
Qed.

(** A child of a batch as it is sent: named by the model's resource name, every other
    field as the caller wrote it; what is not an object is left alone. *)
Definition child_named (upstreamModel : bytes) (child sent : value) : Prop :=
  match child with
  | VObject c =>
      exists c', sent = VObject c' /\ field c' (lit "model") = Some (VString (geminiModelName upstreamModel)) /\
        (forall k, k <> lit "model" -> field c' k = field c k)
  | _ => sent = child
  end.
Definition children_named (upstreamModel : bytes) (received sent : option value) : Prop :=
  match received with
  | Some (VArray l) => exists l', sent = Some (VArray l') /\ Forall2 (child_named upstreamModel) l l'
  | _ => sent = received
  end.

Lemma name_children_named model o :
  children_named model (field o (lit "requests")) (field (name_children model o) (lit "requests")).
Proof.
  unfold children_named, name_children. destruct (field o (lit "requests")) as [[| | | |l|]|] eqn:E; try done.
  rewrite field_set, (proj2 (beq_true _ _) eq_refl). eexists. split; [done|].
  clear E. induction l as [|x l IH]; [constructor|]. cbn [map]. constructor; [|done].
  destruct x; cbn [child_named name_child]; try done.
  eexists. split; [done|]. split; [by rewrite field_set, (proj2 (beq_true _ _) eq_refl)|].
  intros k Hk. by apply field_set_ne.
Qed.

(** C27: A request that is a JSON object is always rewritten, and nothing but the
    envelope of it changes.  Every field that is not [edited] travels as the caller
    wrote it; the model is named where the upstream reads it and nowhere else, in each
    child of a batch too, whose other fields stay; a streamed chat asks for its usage
    whatever the caller said; and a hosted platform gets its version field and its own
    way of asking for a stream. *)
Theorem only_the_envelope_is_edited surface model stream tp o :
  exists o',
    rewrite_doc surface model stream tp (Some o) = Ok (Some o') /\
    (forall k, ~ edited surface stream tp k -> field o' k = field o k) /\
    field o' (lit "model") = model_field surface model tp /\
    (surface = SurfaceGeminiBatchEmbedContents ->
     children_named model (field o (lit "requests")) (field o' (lit "requests"))) /\
    (surface = SurfaceChat -> stream = true -> field o' (lit "stream_options") = Some include_usage) /\
    (BodyEnvelope tp <> EnvelopeNone ->
     field o' (lit "anthropic_version") = Some (VString (EnvelopeAnthropicVersion tp)) /\
     field o' (lit "stream") = if beq (BodyEnvelope tp) EnvelopeBedrock then None else Some (VBool stream)).
Proof.
  destruct (name_model_some surface model o) as (o1 & Hn & Hm1 & Hk1 & Hc1).
  destruct (force_usage_some surface stream o1) as (o2 & Hf & Hk2 & Hu).
  destruct (applyEnvelope_some tp stream o2) as (o3 & He & Hno & Hk3 & Henv).
  exists o3. unfold rewrite_doc. rewrite Hn. cbn [rbind]. rewrite Hf. unfold edited, model_field. split_and!.
  - exact He.
  - intros k Hk. rewrite <- Hk1, <- Hk2 by tauto. destruct (decide (BodyEnvelope tp = EnvelopeNone)) as [E|E].
    + by rewrite (Hno E).
    + apply Hk3; tauto.
  - assert (Hm2 : field o2 (lit "model") = field o1 (lit "model")) by (apply Hk2; by intros (_ & _ & ?)).
    destruct (decide (BodyEnvelope tp = EnvelopeNone)) as [E|E].
    + rewrite (Hno E), Hm2, Hm1, E. by rewrite orb_false_r.
    + rewrite (proj2 (beq_false _ _) E), orb_true_r. by apply Henv.
  - intros Hs. pose proof (name_children_named model o) as Hc. rewrite <- (Hc1 Hs) in Hc.
    assert (field o3 (lit "requests") = field o1 (lit "requests")) as ->; [|done].
    assert (H2 : field o2 (lit "requests") = field o1 (lit "requests")) by (apply Hk2; by intros (_ & _ & ?)).
    destruct (decide (BodyEnvelope tp = EnvelopeNone)) as [E|E]; [by rewrite (Hno E)|]. by rewrite Hk3.
  - intros Hs Hst. destruct (decide (BodyEnvelope tp = EnvelopeNone)) as [E|E].
    + rewrite (Hno E). by apply Hu.
    + rewrite Hk3 by done. by apply Hu.
  - intros E. by apply Henv.
Qed.

(** The answer keeps everything the upstream said and gains the charge: where it has
    a usage object and re-encodes, the object gains one field, whose cost reads back
    as the very amount that was settled; everywhere else the bytes are the upstream's
    own. *)
Theorem annotation_states_the_charge Decode Marshal body estimated costNano currency o usage :
  (forall d out, Marshal d = Ok out -> Decode out = Ok d) ->
  min_int64 < costNano <= max_int64 ->
  Decode body = Ok (Some o) -> field o (lit "usage") = Some (VObject usage) ->
  let out := AnnotateUsage Decode Marshal body estimated costNano currency in
  out = body \/
  exists o' usage' note cost,
    Decode out = Ok (Some o') /\ (forall k, k <> lit "usage" -> field o' k = field o k) /\
    field o' (lit "usage") = Some (VObject usage') /\
    (forall k, k <> lit "fairlb" -> field usage' k = field usage k) /\
    field usage' (lit "fairlb") = Some (VObject note) /\ field note (lit "cost") = Some (VString cost) /\
    ParseDecimalNano cost = Ok costNano.
Proof.
  intros Hcodec Hc Hd Hu out. unfold out, AnnotateUsage. rewrite Hd. cbn [mbind option_bind].
  rewrite Hu. destruct (Marshal _) as [text|] eqn:Em; [|by left]. right.
  apply Hcodec in Em. rewrite Em. cbn [fmap option_fmap option_map].
  do 4 eexists. split_and!.
  - reflexivity.
  - intros k Hk. by apply field_set_ne.
  - by rewrite field_set.
  - intros k Hk. by apply field_set_ne.
  - by rewrite field_set.
  - reflexivity.
  - by apply parse_complete, format_exact_decimal.
Qed.

(** ** Examples *)

Definition demo_usage : object := [(lit "total_tokens", VNumber (lit "12"))].
Definition demo_answer : object := [(lit "id", VString (lit "r-1")); (lit "usage", VObject demo_usage)].
(** A codec that knows two documents. *)
Abbreviation demo_annotated :=
  (set_field demo_answer (lit "usage")
     (VObject (set_field demo_usage (lit "fairlb") (annotation false 1500000000 (lit "USD"))))).
Definition demo_decode_doc (s : bytes) : result string (option object) :=
  if beq s (lit "annotated") then Ok (Some demo_annotated) else Ok (Some demo_answer).
Fixpoint same_value (a b : value) : bool :=
  match a, b with
  | VNull, VNull => true
  | VBool x, VBool y => Bool.eqb x y
  | VNumber x, VNumber y => beq x y
  | VString x, VString y => beq x y
  | VObject x, VObject y =>
      (fix go x y := match x, y with
                     | [], [] => true
                     | (k, v) :: x, (k', v') :: y => beq k k' && same_value v v' && go x y
                     | _, _ => false
                     end) x y
  | _, _ => false
  end.
Definition demo_marshal (d : option object) : result string bytes :=
  match d with
  | Some o => if same_value (VObject o) (VObject demo_annotated) then Ok (lit "annotated") else Err "unknown"%string
  | None => Err "unknown"%string
  end.
Lemma same_value_sound : forall a b, same_value a b = true -> a = b.
Proof.
  fix IH 1. intros a b. destruct a as [|x|x|x|x|x], b as [|y|y|y|y|y]; cbn; try done.
  - by intros ->%Bool.eqb_prop.
  - by intros ->%beq_true.
  - by intros ->%beq_true.
  - intros H. f_equal. revert y H. induction x as [|[k v] x IHx]; intros [|[k' v'] y]; try done.
    intros [[->%beq_true Hv]%andb_true_iff H]%andb_true_iff. f_equal; [f_equal; by apply IH|by apply IHx].
Qed.

Lemma demo_codec d out : demo_marshal d = Ok out -> demo_decode_doc out = Ok d.
Proof.
  destruct d as [o|]; [|done]. unfold demo_marshal. destruct (same_value _ _) eqn:E; [|done].
  intros [= <-]. apply same_value_sound in E. injection E as ->. vm_compute. reflexivity.
Qed.

Lemma annotation_states_the_charge_witness :
  AnnotateUsage demo_decode_doc demo_marshal (lit "answer") false 1500000000 (lit "USD") = lit "annotated" /\
  exists o' usage' note cost,
    demo_decode_doc (lit "annotated") = Ok (Some o') /\ field o' (lit "usage") = Some (VObject usage') /\
    field usage' (lit "fairlb") = Some (VObject note) /\ field note (lit "cost") = Some (VString cost) /\
    ParseDecimalNano cost = Ok 1500000000.
Proof.
  assert (Ha : AnnotateUsage demo_decode_doc demo_marshal (lit "answer") false 1500000000 (lit "USD")
               = lit "annotated") by (vm_compute; reflexivity).
  split; [exact Ha|].
  destruct (annotation_states_the_charge demo_decode_doc demo_marshal (lit "answer") false 1500000000 (lit "USD")
    demo_answer demo_usage demo_codec) as [Hb|(o' & u & n & c & H1 & _ & H2 & _ & H3 & H4 & H5)].
  - unfold min_int64, max_int64. lia.
  - reflexivity.
  - reflexivity.
  - rewrite Ha in Hb. discriminate.
  - rewrite Ha in H1. exists o', u, n, c. exact (conj H1 (conj H2 (conj H3 (conj H4 H5)))).
Defined.
