(* ===== verification/Forward.v ===== *)
(** * An attempt with the requests it builds

    [Attempt.v] asks only whether rewriting and building a request succeed.  This
    file supplies the real ones: the target [attemptOnce] and the streaming attempt
    of [internal/gateway/proxy] assemble from the request, the candidate and its
    credential, rewritten by [Rewrite.v] and built by [Outbound.v]; and the target
    of a video call ([doVideoCall] of [video_submit.go]). *)
From S2P Require Import Prelude GoStr BreakerStore Breaker RateLimit Surfaces Errors Catalog Classify Guard Usage Stream.
From S2P Require Import Billing Routing Rotation Settlement Credentials Attempt Http Transport Upstream Outbound Rewrite.

Open Scope Z_scope.

(** What a request says about where it goes, and the configured mappings of a
    candidate. *)
Record Forward := mkForward {
  fw_Surface : Surface;
  fw_Protocol : Protocol;
  fw_UpstreamPath : bytes;
  fw_Method : bytes;
  fw_Resource : bytes;
  fw_UpstreamQuery : gmap bytes bytes;
  fw_Body : bytes;
  fw_ProviderHeaders : uuid -> gmap bytes bytes;
  fw_RouteHeaders : uuid -> gmap bytes bytes;
}.

Definition forward_target (f : Forward) (route : Route Transport) (cred : Credential) (stream : bool) : Target :=
  mkTarget (fw_Protocol f) (lit (cr_BaseURL cred)) (lit (cr_Secret cred)) (fw_UpstreamPath f) stream
    (MergeHeaders (fw_ProviderHeaders f (r_ProviderID route)) (fw_RouteHeaders f (r_ID route)))
    (r_Transport route) (lit (r_ProviderModelID route)) (fw_Resource f) (fw_Method f) (fw_UpstreamQuery f)
    [] false.

(** [mergeThree]: the mapper's headers over the two configured levels. *)
Definition mergeThree (providerLevel routeLevel mapperLevel : gmap bytes bytes) : gmap bytes bytes :=
  mapperLevel ∪ MergeHeaders providerLevel routeLevel.

(** [video.Outbound]. *)
Record VideoOutbound := mkVideoOutbound {
  vo_Method : bytes;
  vo_Path : bytes;
  vo_URL : bytes;
  vo_Query : gmap bytes bytes;
  vo_Headers : gmap bytes bytes;
  vo_Body : bytes;
}.

(** The target of [doVideoCall]; [baseURL] and [key] are the pinned credential's. *)
Definition video_target (providerHeaders routeHeaders : gmap bytes bytes) (tp : Transport)
    (providerModel baseURL key : bytes) (out : VideoOutbound) (withCredential : bool) : Target :=
  mkTarget ProtocolVideo baseURL (if withCredential then key else []) (vo_Path out) false
    (mergeThree providerHeaders routeHeaders (vo_Headers out)) tp providerModel [] (vo_Method out) (vo_Query out)
    (vo_URL out) (negb withCredential).

Section forward.
Variable Decode : bytes -> result string (option object).
Variable Marshal : option object -> result string bytes.
Variable JoinPath : bytes -> bytes -> result string bytes.
Variable URL : Type.
Variable ParseURL : bytes -> result string URL.
Variable Query : URL -> gmap bytes (list bytes).
Variable WithQuery : URL -> gmap bytes (list bytes) -> bytes.
Variable NewRequest : bytes -> bytes -> option string.
Variable visit : gmap bytes bytes -> list (bytes * bytes).
Variable DecodeAWS : bytes -> result string awsCredential.
Variable DecodeAccount : bytes -> result string serviceAccountKey.
Variable DecodeKling : bytes -> result string klingKeypair.
Variable json_string : bytes -> bytes.
Variable sha256hex : bytes -> bytes.
Variable hmac_sha256 : bytes -> bytes -> bytes.
Variable SignHTTP : awsCredential -> HTTPRequest -> bytes -> bytes -> bytes -> Z -> result string Header.
Variables TokenSource LRU : Type.
Variable NewSource : jwtConfig -> TokenSource.
Variable Token : TokenSource -> result string bytes.
Variable Get : LRU -> bytes -> option TokenSource * LRU.
Variable Add : LRU -> bytes -> TokenSource -> LRU.
(** The token sources held, the time, and the wording of an error. *)
Variable sources : LRU.
Variable time : Z.
Variable rewrite_message : rewrite_error -> string.
Variable build_message : build_error -> string.
Variable f : Forward.

Abbreviation Present_ := (Present DecodeAWS DecodeAccount DecodeKling json_string sha256hex hmac_sha256 SignHTTP
  TokenSource LRU NewSource Token Get Add).

(** A buffered request without a body is forwarded without one. *)
Definition forward_body (route : Route Transport) (stream : bool) : result rewrite_error bytes :=
  if negb stream && beq (fw_Body f) [] then Ok []
  else RewriteRequest Decode Marshal (fw_Surface f) (fw_Body f) (lit (r_ProviderModelID route)) stream
         (r_Transport route).

(** What [Attempt.v] asks of the two steps: why they refuse, if they do. *)
Definition rewrite_for (route : Route Transport) (stream : bool) : option string :=
  match forward_body route stream with Ok _ => None | Err e => Some (rewrite_message e) end.

Definition build_for (stream : bool) (route : Route Transport) (cred : Credential) : option string :=
  match forward_body route stream with
  | Err _ => None
  | Ok body =>
      match (BuildRequest JoinPath URL ParseURL Query WithQuery NewRequest LRU Present_ visit sources
               (forward_target f route cred stream) body time).1 with
      | Ok _ => None
      | Err e => Some (build_message e)
      end
  end.

Lemma signing_needs_a_key_pair route cred body why :
  AuthMode (r_Transport route) (fw_Protocol f) = AuthAWSSigV4 ->
  DecodeAWS (lit (cr_Secret cred)) = Err why ->
  exists e, (BuildRequest JoinPath URL ParseURL Query WithQuery NewRequest LRU Present_ visit sources
               (forward_target f route cred false) body time).1 = Err e.
Proof using.
  intros Hm Hd. unfold BuildRequest, build_with.
  destruct (endpointURL _ _ _ _ _ _) as [endpoint|e]; [|by exists e].
  destruct (NewRequest _ _) as [why'|]; [by eexists|].
  destruct (refuseCredentialInterpolation _) as [e|]; [by exists e|].
  unfold presentCredential, mode_of. cbn [forward_target tg_OmitCredential tg_Transport tg_Protocol tg_APIKey].
  rewrite Hm. change (Handles AuthAWSSigV4) with true. cbn [negb].
  unfold Present. change (beq AuthAWSSigV4 AuthAWSSigV4) with true. unfold signAWS, parseAWSCredential. cbn [negb].
  destruct (beq (SigningRegion _) []); [by eexists|]. rewrite Hd. by eexists.
Qed.

Context {S L : Type} `{StoreLaws S} `{Limiter L}.
Implicit Types p : Pipeline S L (Ext Transport).

(** A credential an organization mistyped counts against our provider.  Where
    requests are signed, an organization's secret that is not a key pair fails the
    attempt before anything is sent, and the failure is recorded as the provider's:
    the hop is the organization's own, nothing went out, and our circuit moves. *)
Theorem mistyped_credential_moves_our_circuit keys_of key_by_id org_key_by_id Do mark_ok call p route n choice why
    surface has_probe :
  forVendor (x_byok (p_ext p)) (r_ProviderVendor route) = Some choice ->
  pinned (ca_Pins call) = false ->
  AuthMode (r_Transport route) (fw_Protocol f) = AuthAWSSigV4 ->
  DecodeAWS (lit (bc_Secret choice)) = Err why ->
  rewrite_for route false = None ->
  let '(out, p') := buffered_attempt keys_of key_by_id org_key_by_id rewrite_for (build_for false) Do mark_ok
                      call p route n in
  o_byok out = true /\ x_sent (p_ext p') = x_sent (p_ext p) /\
  exists j, p_breaker (applyBreaker has_probe p' route surface (o_cls out) (o_byok out))
            = RecordProviderFailure (now p) j (p_breaker p) (r_ProviderID route).
Proof using.
  intros Hc Hp Hm Hd Hrw. unfold buffered_attempt, attemptOnce, hop_credential. cbv zeta.
  rewrite Hp. unfold credentialFor. rewrite Hc, Hrw.
  set (cred := mkCred None (bc_Secret choice) _ _).
  assert (Hb : exists e, build_for false route cred = Some e).
  { unfold build_for. unfold rewrite_for in Hrw. destruct (forward_body route false) as [body|]; [|done].
    destruct (signing_needs_a_key_pair route cred body why Hm Hd) as [e ->]. by eexists. }
  destruct Hb as [e ->]. split_and!; [done..|].
  unfold applyBreaker. cbn [o_cls Class_ CountsTowardHealth provider_class].
  destruct (next_jitter p) as [j p''] eqn:Ej. exists j. unfold next_jitter in Ej.
  by destruct (p_jitter p); injection Ej as <- <-.
Qed.
End forward.

(** ** What a presigned address is sent *)

(** A video artifact behind an address of its own is fetched without the credential,
    but not without the configured headers: whatever the provider, the route or the
    mapper maps is sent to that host as well, and a mapping that asks for the
    credential sends the words around it. *)
Theorem foreign_host_gets_the_mappings `{PresentLaws Cache PresentWith Extra} JoinPath URL ParseURL Query WithQuery
    NewRequest visit cache providerHeaders routeHeaders tp model baseURL key out body now r cache' k v :
  let t := video_target providerHeaders routeHeaders tp model baseURL key out false in
  (forall m : gmap bytes bytes, visit m ≡ₚ map_to_list m) ->
  vo_URL out <> [] ->
  NoDup (map (CanonicalHeaderKey ∘ fst) (map_to_list (tg_Headers t))) ->
  tg_Headers t !! k = Some v -> v <> [] ->
  BuildRequest JoinPath URL ParseURL Query WithQuery NewRequest Cache PresentWith visit cache t body now
    = (Ok r, cache') ->
  rq_URL r = vo_URL out /\ header_get (rq_Header r) k = ReplaceAll v apiKeyPlaceholder [].
Proof.
  intros t Hv Hu Hnd Hk Hne (endpoint & h & He & _ & Hp & ->)%build_with_ok. cbn [rq_URL rq_Header].
  unfold presentCredential in Hp. cbn [t video_target tg_OmitCredential negb rq_Header] in Hp.
  injection Hp as <- _. split.
  - unfold endpointURL in He. cbn [t video_target tg_AbsoluteURL] in He.
    rewrite (proj2 (beq_false _ _) Hu) in He. cbn [negb] in He. by injection He as <-.
  - unfold header_get, base_headers. rewrite (mapping_eq _ _ _ k v).
    + unfold mapped_value. by rewrite (proj2 (beq_false _ _) Hne).
    + by rewrite (Hv (tg_Headers t)).
    + rewrite (Hv (tg_Headers t)). by apply elem_of_map_to_list.
Qed.

(** ** Examples *)

(** A provider that signs, and an organization whose secret there is a bare token. *)
Definition demo_signed_route : Route Transport :=
  mkRoute (Some "r1"%string) (Some "p1"%string) "hosted" "aws" 0 1 10000 0 false 0 demo_bedrock
    (mkCapacity 0 0 0) "https://bedrock.test" "claude".
Definition demo_mistyped : Ext Transport :=
  mkExt {["aws"%string := mkChoice (Some "own"%string) "sk-pasted" "" false]} [] [] None (demo_outcome false)
    (None, None).
Definition demo_fleet : Pipeline Memory Redis (Ext Transport) :=
  mkPipeline (mkWorld (∅ : Memory) None) NewRetryBudget [] ∅ (Some (mkRedis ∅ true)) ∅ [] [] []
    (mkClock 0 0) demo_mistyped.
Definition demo_forward : Forward :=
  mkForward SurfaceMessages ProtocolAnthropic PathMessages [] [] ∅ (lit "{}") (fun _ => ∅) (fun _ => ∅).
Abbreviation demo_rewrite := (rewrite_for (fun _ => Ok (Some [])) (fun _ => Ok (lit "{}"))
  (fun _ => "rewrite"%string) demo_forward).
Abbreviation demo_build_for := (build_for (fun _ => Ok (Some [])) (fun _ => Ok (lit "{}"))
  (fun base path => Ok (base ++ path)) bytes (fun u => Ok u) (fun _ => ∅) (fun u _ => u) (fun _ _ => None)
  map_to_list demo_key_pair (fun _ => Err "not an account"%string) (fun s => Ok (mkKling s s)) quoted
  (fun s => s) (fun _ s => s) demo_sign bytes (gmap bytes bytes) jc_Email (fun ts => Ok (lit "Bearer " ++ ts))
  (fun c k => (c !! k, c)) (fun c k ts => <[k := ts]> c) ∅ 7 (fun _ => "build"%string) demo_forward false).
Abbreviation demo_silent := (fun p (_ : Route Transport) (_ : Credential) =>
  (BodyTooLarge, p) : exchange * Pipeline Memory Redis (Ext Transport)).
Abbreviation demo_shared := (fun _ : uuid => Err "none"%string : result string (list ProviderKey)).

(** One request of that organization, its verdict applied. *)
Definition demo_request (p : Pipeline Memory Redis (Ext Transport)) : Pipeline Memory Redis (Ext Transport) :=
  let '(out, p) := buffered_attempt demo_shared (fun _ => Ok None) (fun _ _ => Ok None) demo_rewrite demo_build_for
                     demo_silent true demo_call p demo_signed_route 1 in
  applyBreaker false p demo_signed_route SurfaceMessages (o_cls out) (o_byok out).

(** The fifth of them takes the provider away from everyone. *)
Lemma mistyped_credential_moves_our_circuit_witness :
  (exists j, p_breaker (demo_request demo_fleet)
             = RecordProviderFailure 0 j (p_breaker demo_fleet) (Some "p1"%string)) /\
  ProviderAvailable 0 (p_breaker (Nat.iter 4 demo_request demo_fleet)) (Some "p1"%string) = true /\
  ProviderAvailable 0 (p_breaker (Nat.iter 5 demo_request demo_fleet)) (Some "p1"%string) = false.
Proof.
  split; [|split; vm_compute; reflexivity].
  pose proof (mistyped_credential_moves_our_circuit (fun _ => Ok (Some [])) (fun _ => Ok (lit "{}"))
    (fun base path => Ok (base ++ path)) bytes (fun u => Ok u) (fun _ => ∅) (fun u _ => u) (fun _ _ => None)
    map_to_list demo_key_pair (fun _ => Err "not an account"%string) (fun s => Ok (mkKling s s)) quoted
    (fun s => s) (fun _ s => s) demo_sign bytes (gmap bytes bytes) jc_Email (fun ts => Ok (lit "Bearer " ++ ts))
    (fun c k => (c !! k, c)) (fun c k ts => <[k := ts]> c) ∅ 7 (fun _ => "rewrite"%string) (fun _ => "build"%string)
    demo_forward demo_shared (fun _ => Ok None) (fun _ _ => Ok None) demo_silent true demo_call demo_fleet
    demo_signed_route 1 (mkChoice (Some "own"%string) "sk-pasted" "" false) "invalid character"%string
    SurfaceMessages false eq_refl eq_refl eq_refl eq_refl eq_refl) as H.
  unfold demo_request.
  destruct (buffered_attempt demo_shared (fun _ => Ok None) (fun _ _ => Ok None) demo_rewrite demo_build_for
    demo_silent true demo_call demo_fleet demo_signed_route 1) as [out p'].
  destruct H as (_ & _ & j & Hj). exists j. exact Hj.
Defined.

Lemma foreign_host_gets_the_mappings_witness :
  let out := mkVideoOutbound (lit "GET") [] (lit "https://cdn.other/v.mp4") ∅ ∅ [] in
  let t := video_target {[lit "Authorization" := lit "Bearer ${api_key}"]} ∅ no_transport [] (lit "https://v.test")
             (lit "sk-1") out false in
  exists r c,
    demo_build t [] 7 = (Ok r, c) /\ rq_URL r = lit "https://cdn.other/v.mp4" /\
    header_get (rq_Header r) hdrAuthorization = lit "Bearer ".
Proof.
  intros out t. destruct (demo_build t [] 7) as [[r|] c] eqn:E; [|vm_compute in E; discriminate].
  exists r, c. split; [reflexivity|].
  destruct (foreign_host_gets_the_mappings (fun base path => Ok (base ++ path)) bytes (fun u => Ok u) (fun _ => ∅)
    (fun u _ => u) (fun _ _ => None) map_to_list ∅ {[lit "Authorization" := lit "Bearer ${api_key}"]} ∅ no_transport
    [] (lit "https://v.test") (lit "sk-1") out [] 7 r c hdrAuthorization (lit "Bearer ${api_key}")) as [H1 H2].
  - reflexivity.
  - discriminate.
  - apply (bool_decide_eq_true_1 _). vm_compute. reflexivity.
  - vm_compute. reflexivity.
  - discriminate.
  - exact E.
  - split; [exact H1|]. rewrite H2. vm_compute. reflexivity.
Defined.
