(* ===== verification/Reframe.v ===== *)
(** * Binary event frames as server-sent events:
    [internal/gateway/upstream/eventstream.go]

    One hosted platform streams its answers as binary frames.  The reader unwraps
    each into the event the direct endpoint would have written.  The frame decoder
    and the JSON of a payload are parameters. *)
From S2P Require Import Prelude GoStr Http Stream.

Open Scope Z_scope.

(** A decoded frame: the headers the reader looks at, empty when absent. *)
Record Message := mkMessage {
  ms_MessageType : bytes;
  ms_ExceptionType : bytes;
  ms_ErrorCode : bytes;
  ms_ErrorMessage : bytes;
  ms_Payload : bytes;
}.

Inductive reframe_error :=
  | SourceEnded (why : string)        (** what the decoder said: the end, or a broken frame *)
  | FrameTooLarge
  | StreamException (what : bytes).

Definition maxFramePayload : Z := 4 * 2 ^ 20.
Definition messageTypeException := lit "exception".
Definition messageTypeError := lit "error".

Record eventStreamReader := mkReader {
  rd_src : list Message;              (** the frames still to come *)
  rd_end : string;                    (** how the source ends *)
  rd_out : bytes;
  rd_err : option reframe_error;
}.

Definition return_byte : ascii := byte_of 13.
(** [bytes.ReplaceAll] of both line breaks by a space; a lone return stays. *)
Definition flatten (data : bytes) : bytes :=
  ReplaceAll (ReplaceAll data [return_byte; newline] (lit " ")) [newline] (lit " ").

Section reframe.
(** The bytes a payload wraps, its message, the type field of an event's data, and
    [json.Compact]. *)
Variable Unwrap : bytes -> option bytes.
Variable MessageOf : bytes -> bytes.
Variable TypeOf : bytes -> bytes.
Variable Compact : bytes -> option bytes.

Definition quotedMessage (payload : bytes) : bytes :=
  if beq (MessageOf payload) [] then [] else lit ": " ++ MessageOf payload.

Definition flat_data (data : bytes) : bytes :=
  if ContainsAny data [return_byte; newline] then default (flatten data) (Compact data) else data.

Definition event_line (data : bytes) : bytes :=
  if beq (TypeOf data) [] then [] else lit "event: " ++ TypeOf data ++ [newline].
Definition data_line (data : bytes) : bytes := lit "data: " ++ flat_data data ++ [newline].

(** [writeEvent]: what is appended to the buffer. *)
Definition event_text (data : bytes) : bytes := event_line data ++ data_line data ++ [newline].

(** What one frame is: a failure, nothing, or an event. *)
Definition frame_of (m : Message) : reframe_error + option bytes :=
  if maxFramePayload <? len (ms_Payload m) then inl FrameTooLarge
  else if beq (ms_MessageType m) messageTypeException
  then inl (StreamException (ms_ExceptionType m ++ quotedMessage (ms_Payload m)))
  else if beq (ms_MessageType m) messageTypeError
  then inl (StreamException (ms_ErrorCode m ++ lit " " ++ ms_ErrorMessage m))
  else match Unwrap (ms_Payload m) with
       | Some (c :: data) => inr (Some (c :: data))
       | _ => inr None
       end.

Definition fill (r : eventStreamReader) : eventStreamReader :=
  match rd_src r with
  | [] => mkReader [] (rd_end r) (rd_out r) (Some (SourceEnded (rd_end r)))
  | m :: src =>
      match frame_of m with
      | inl e => mkReader src (rd_end r) (rd_out r) (Some e)
      | inr None => mkReader src (rd_end r) (rd_out r) (rd_err r)
      | inr (Some data) => mkReader src (rd_end r) (rd_out r ++ event_text data) (rd_err r)
      end
  end.

(** The loop of [Read]: until something is buffered or the stream has failed. *)
Fixpoint fill_until (fuel : nat) (r : eventStreamReader) : eventStreamReader :=
  if negb (beq (rd_out r) []) then r
  else match rd_err r, fuel with
       | Some _, _ | None, O => r
       | None, S fuel => fill_until fuel (fill r)
       end.

(** [Read] into [n] bytes; [None] for the error would be a loop cut short. *)
Definition Read (n : nat) (r : eventStreamReader) : option (result reframe_error bytes) * eventStreamReader :=
  let r := fill_until (S (length (rd_src r))) r in
  if beq (rd_out r) [] then
    match rd_err r with
    | Some e => (Some (Err e), r)
    | None => (None, r)
    end
  else (Some (Ok (take n (rd_out r))), mkReader (rd_src r) (rd_end r) (drop n (rd_out r)) (rd_err r)).

Definition SSEFromEventStream (src : list Message) (ending : string) : eventStreamReader :=
  mkReader src ending [] None.

(** ** What a stream amounts to *)

(** The data of its events up to the first failure, and the failure. *)
Fixpoint events_of (src : list Message) (ending : string) : list bytes * reframe_error :=
  match src with
  | [] => ([], SourceEnded ending)
  | m :: src =>
      match frame_of m with
      | inl e => ([], e)
      | inr None => events_of src ending
      | inr (Some data) => let '(l, e) := events_of src ending in (data :: l, e)
      end
  end.

(** Reading to the end, in pieces of the given sizes. *)
Inductive drains : list nat -> eventStreamReader -> bytes -> reframe_error -> Prop :=
  | drains_end n r r' e : (0 < n)%nat -> Read n r = (Some (Err e), r') -> drains [n] r [] e
  | drains_more n sizes r r' b out e :
      (0 < n)%nat -> Read n r = (Some (Ok b), r') -> drains sizes r' out e -> drains (n :: sizes) r (b ++ out) e.

(** What is left to read of a reader: its buffer, then its events; a failure seen
    stops the source. *)
Definition remaining (r : eventStreamReader) : bytes * reframe_error :=
  match rd_err r with
  | Some e => (rd_out r, e)
  | None => let '(l, e) := events_of (rd_src r) (rd_end r) in (rd_out r ++ concat (map event_text l), e)
  end.

Lemma fill_remaining r : rd_err r = None -> remaining (fill r) = remaining r.
Proof using.
  intros He. unfold remaining, fill. rewrite He. destruct (rd_src r) as [|m src]; cbn [events_of].
  - cbn [rd_err rd_out map concat]. by rewrite app_nil_r.
  - destruct (frame_of m) as [e|[data|]]; cbn [rd_err rd_out rd_src rd_end].
    + cbn [map concat]. by rewrite app_nil_r.
    + destruct (events_of src (rd_end r)) as [l e].
      cbn [map concat]. by rewrite app_assoc.
    + done.
Qed.

Lemma fill_until_spec fuel r :
  (length (rd_src r) < fuel)%nat ->
  let r' := fill_until fuel r in
  remaining r' = remaining r /\ (rd_out r' <> [] \/ is_Some (rd_err r')).
Proof using.
  revert r. induction fuel as [|fuel IH]; intros r Hf; [lia|]. cbn [fill_until].
  destruct (beq (rd_out r) []) eqn:Eo; cbn [negb].
  - destruct (rd_err r) as [e|] eqn:Ee; [split; [done|right; rewrite Ee; by eexists]|].
    destruct (rd_src r) as [|m src] eqn:Es.
    + assert (Hfill : rd_err (fill r) = Some (SourceEnded (rd_end r))) by (unfold fill; by rewrite Es).
      destruct fuel; cbn [fill_until]; rewrite Hfill; destruct (beq (rd_out (fill r)) []); cbn [negb];
        (split; [by apply fill_remaining|right; rewrite Hfill; by eexists]).
    + cbn [length] in Hf. destruct (IH (fill r)) as [H1 H2].
      { unfold fill. rewrite Es. destruct (frame_of m) as [|[]]; cbn [rd_src]; lia. }
      split; [|done]. cbv zeta in H1. rewrite H1. by apply fill_remaining.
  - split; [done|]. left. unfold beq in Eo. by apply bool_decide_eq_false in Eo.
Qed.

Lemma Read_spec n r :
  (0 < n)%nat ->
  match Read n r with
  | (Some (Ok b), r') => b <> [] /\ remaining r = (b ++ (remaining r').1, (remaining r').2)
  | (Some (Err e), _) => remaining r = ([], e)
  | (None, _) => False
  end.
Proof using.
  intros Hn. unfold Read. destruct (fill_until_spec (S (length (rd_src r))) r) as [Hr Hd]; [lia|].
  set (r1 := fill_until _ r) in *. rewrite <- Hr. unfold beq. case_bool_decide as Eo.
  - destruct Hd as [?|[e He]]; [done|]. rewrite He. unfold remaining. by rewrite He, Eo.
  - split.
    + intros Ht. apply Eo. destruct (rd_out r1); [done|]. by destruct n; [lia|].
    + unfold remaining. cbn [rd_err rd_out rd_src rd_end]. destruct (rd_err r1); cbn [fst snd].
      * by rewrite take_drop.
      * destruct (events_of _ _) as [l e]. cbn [fst snd]. by rewrite app_assoc, take_drop.
Qed.

(** ** The frames of the text *)

Definition one_line (s : bytes) : Prop := newline ∉ s.

Lemma split_lines_line l s :
  one_line l -> split_lines (l ++ newline :: s) = ((l ++ [newline]) :: (split_lines s).1, (split_lines s).2).
Proof using.
  induction l as [|c l IH]; intros Hl; cbn [app split_lines].
  - by destruct (split_lines s).
  - apply not_elem_of_cons in Hl as [Hc Hl]. rewrite IH by done.
    rewrite (proj2 (Ascii.eqb_neq _ _)) by congruence. done.
Qed.

Lemma split_on_line l s :
  one_line l -> split_on newline (l ++ newline :: s) = l :: split_on newline s.
Proof using.
  induction l as [|c l IH]; intros Hl; cbn [app split_on]; [done|].
  apply not_elem_of_cons in Hl as [Hc Hl]. rewrite IH by done.
  by rewrite (proj2 (Ascii.eqb_neq _ _)) by congruence.
Qed.

(** What re-framing asks of an event: a label on one line, and a payload that is
    compact JSON, neither empty nor padded. *)
Record clean (data : bytes) : Prop := {
  cl_name : one_line (TypeOf data);
  cl_data : one_line (flat_data data);
  cl_return : return_byte ∉ flat_data data;
  cl_trim : trim_space (flat_data data) = flat_data data;
  cl_some : flat_data data <> [];
}.

Lemma isBlankLine_letter c l : (97 <=? ord c) && (ord c <=? 122) = true -> isBlankLine (c :: l) = false.
Proof using.
  intros Hc. unfold isBlankLine. apply bool_decide_eq_false. unfold trim_right_set. cbn [rev].
  intros E. apply (f_equal (@rev ascii)) in E. rewrite rev_involutive in E. cbn [rev] in E.
  revert E. generalize (rev l) as k. induction k as [|d k IH]; cbn [app].
  - case_bool_decide as Hin; [|done]. apply elem_of_cons in Hin as [->|Hin]; [done|]. by apply list_elem_of_singleton in Hin as ->.
  - case_bool_decide; [done|done].
Qed.

Lemma event_lines data rest :
  clean data ->
  split_lines (event_text data ++ rest) =
  ((if beq (TypeOf data) [] then [] else [event_line data]) ++ [data_line data; [newline]] ++ (split_lines rest).1,
   (split_lines rest).2).
Proof using.
  intros [Hn Hd _ _ _]. unfold event_text, event_line.
  assert (Hdata : forall s, split_lines (data_line data ++ s) =
                     (data_line data :: (split_lines s).1, (split_lines s).2)).
  { intros s. unfold data_line. rewrite !app_assoc, <- (app_assoc _ [newline]). apply split_lines_line.
    intros [Hx|Hx]%elem_of_app; [by apply (bool_decide_eq_true_2 _) in Hx|done]. }
  assert (Hblank : forall s, split_lines ([newline] ++ s) = ([newline] :: (split_lines s).1, (split_lines s).2)).
  { intros s. exact (split_lines_line [] s (not_elem_of_nil _)). }
  destruct (beq (TypeOf data) []).
  - cbn [app]. rewrite <- app_assoc, Hdata, Hblank. done.
  - rewrite <- !app_assoc.
    change (lit "event: " ++ TypeOf data ++ [newline] ++ data_line data ++ [newline] ++ rest)
      with (lit "event: " ++ TypeOf data ++ newline :: (data_line data ++ [newline] ++ rest)).
    rewrite app_assoc, split_lines_line, Hdata, Hblank; [by rewrite <- app_assoc|].
    intros [Hx|Hx]%elem_of_app; [by apply (bool_decide_eq_true_2 _) in Hx|done].
Qed.

Lemma event_groups data ls :
  clean data ->
  group_lines [] ((if beq (TypeOf data) [] then [] else [event_line data]) ++ [data_line data; [newline]] ++ ls) =
  (event_text data :: (group_lines [] ls).1, (group_lines [] ls).2).
Proof using.
  intros _. unfold event_text.
  assert (Hd : isBlankLine (data_line data) = false) by exact (isBlankLine_letter "d" _ eq_refl).
  assert (Hn : isBlankLine [newline] = true) by done.
  destruct (beq (TypeOf data) []) eqn:E.
  - replace (event_line data) with ([] : bytes) by (unfold event_line; by rewrite E).
    cbn [app group_lines]. rewrite Hd, Hn. by destruct (group_lines [] ls).
  - assert (He : isBlankLine (event_line data) = false).
    { unfold event_line. rewrite E. exact (isBlankLine_letter "e" _ eq_refl). }
    cbn [app group_lines]. rewrite He, Hd, Hn, <- app_assoc. by destruct (group_lines [] ls).
Qed.

Lemma readUpstream_events l : Forall clean l -> readUpstream (concat (map event_text l)) = map event_text l.
Proof using.
  intros Hl. unfold readUpstream.
  assert (Hs : (split_lines (concat (map event_text l))).2 = [] /\
               group_lines [] (split_lines (concat (map event_text l))).1 = (map event_text l, [])).
  { induction Hl as [|data l Hd _ [IH1 IH2]]; [done|]. cbn [map concat]. rewrite event_lines by done.
    cbn [fst snd]. split; [done|]. by rewrite event_groups, IH2. }
  destruct (split_lines _) as [ls last]. cbn [fst snd] in Hs. destruct Hs as [-> Hg]. rewrite Hg.
  rewrite bool_decide_eq_true_2 by done. rewrite bool_decide_eq_true_2 by done. by rewrite !app_nil_r.
Qed.

Lemma trim_left_absent c s : c ∉ s -> trim_left c s = s.
Proof using.
  destruct s as [|d s]; [done|]. intros [Hd _]%eqb_absent. cbn [trim_left].
  by rewrite Ascii.eqb_sym, Hd.
Qed.

Lemma trim_right_absent c s : c ∉ s -> trim_right c s = s.
Proof using.
  intros Hc. unfold trim_right. rewrite trim_left_absent; [apply rev_involutive|].
  intros H. apply Hc. apply list_elem_of_In, in_rev. by apply list_elem_of_In.
Qed.

Lemma data_payload_line data :
  clean data -> data_payload (lit "data: " ++ flat_data data) = Some (flat_data data).
Proof using.
  intros [_ _ Hr Ht Hs]. unfold data_payload. rewrite trim_right_absent.
  - change (has_prefix (lit "data: " ++ flat_data data) data_prefix) with true. cbv iota.
    change (trim_space (drop (length data_prefix) (lit "data: " ++ flat_data data)))
      with (trim_space (flat_data data)).
    rewrite Ht. by rewrite bool_decide_eq_false_2.
  - intros [Hx|Hx]%elem_of_app; [by apply (bool_decide_eq_true_2 _) in Hx|done].
Qed.

Lemma event_label_line name : data_payload (lit "event: " ++ name) = None.
Proof using.
  unfold data_payload, trim_right. rewrite rev_app_distr.
  assert (H : forall l, exists k, trim_left return_byte (l ++ rev (lit "event: ")) = k ++ rev (lit "event: ")).
  { induction l as [|c l [k Hk]]; [by exists []|]. cbn [app trim_left].
    destruct (Ascii.eqb c return_byte); [by exists k|by exists (c :: l)]. }
  destruct (H (rev name)) as [k Hk]. unfold return_byte in Hk. rewrite Hk, rev_app_distr, rev_involutive. done.
Qed.

Lemma sse_event data : clean data -> sseDataLines (event_text data) = [flat_data data].
Proof using.
  intros Hc. unfold sseDataLines, event_text.
  assert (Hdata : forall s, split_on newline (data_line data ++ s) = (lit "data: " ++ flat_data data) :: split_on newline s).
  { intros s. unfold data_line. rewrite app_assoc, <- (app_assoc _ [newline]). apply split_on_line.
    intros [Hx|Hx]%elem_of_app; [by apply (bool_decide_eq_true_2 _) in Hx|by apply (cl_data _ Hc)]. }
  unfold event_line. destruct (beq (TypeOf data) []); cbn [app].
  - rewrite Hdata. cbn [omap list_omap]. by rewrite data_payload_line.
  - rewrite <- !app_assoc. change (lit "event: " ++ TypeOf data ++ [newline] ++ data_line data ++ [newline])
      with (lit "event: " ++ TypeOf data ++ newline :: (data_line data ++ [newline])).
    rewrite app_assoc, split_on_line, Hdata.
    + cbn [omap list_omap]. by rewrite event_label_line, data_payload_line.
    + intros [Hx|Hx]%elem_of_app; [by apply (bool_decide_eq_true_2 _) in Hx|by apply (cl_name _ Hc)].
Qed.

Lemma drains_remaining sizes r out e : drains sizes r out e -> remaining r = (out, e).
Proof using.
  induction 1 as [n r r' e Hn Hr|n sizes r r' b out e Hn Hr _ IH]; pose proof (Read_spec n r Hn) as Hs;
    rewrite Hr in Hs; [done|]. destruct Hs as [_ ->]. by rewrite IH.
Qed.

Lemma drains_exist size r :
  (forall i, (0 < size i)%nat) -> exists k out e, drains (map size (seq 0 k)) r out e.
Proof using.
  remember (length (remaining r).1) as n eqn:Hn. revert size r Hn.
  induction n as [n IH] using lt_wf_ind. intros size r -> Hs.
  pose proof (Read_spec (size 0%nat) r (Hs _)) as Hr. destruct (Read (size 0%nat) r) as [[[b|e]|] r'] eqn:E; [| |done].
  - destruct Hr as [Hb Hr]. destruct (IH (length (remaining r').1)) with (size := size ∘ S) (r := r')
      as (k & out & e & Hd); [|done|by intros i; apply Hs|].
    { rewrite Hr. cbn [fst]. rewrite length_app. destruct b; [done|]. cbn [length]. lia. }
    exists (S k), (b ++ out), e. cbn [seq map]. rewrite <- seq_shift, map_map. by eapply drains_more.
  - exists 1%nat, [], e. by eapply drains_end.
Qed.
End reframe.

(** C28: the re-framed stream is the one the direct endpoint would have sent.  However the
    reader is called it delivers, before any failure, the events of the frames up to
    that failure, and every way of reading comes to that end.  And where each event
    is [clean] - its type fits on one line, and its data as written is one line,
    neither empty nor padded with space, and holds no carriage return - the text, cut
    as the pump cuts it, falls back into exactly one frame per event carrying that
    event's data.  The types are written as they come: one that holds a line break
    is not escaped, and nothing is claimed of its frames. *)
Theorem reframed_stream_is_the_direct_one Unwrap MessageOf TypeOf Compact src ending :
  let '(datas, failure) := events_of Unwrap MessageOf src ending in
  let reader := SSEFromEventStream src ending in
  (forall size, (forall i, (0 < size i)%nat) ->
     exists k out e, drains Unwrap MessageOf TypeOf Compact (map size (seq 0 k)) reader out e) /\
  forall sizes out e, drains Unwrap MessageOf TypeOf Compact sizes reader out e ->
    e = failure /\ out = concat (map (event_text TypeOf Compact) datas) /\
    (Forall (clean TypeOf Compact) datas ->
     readUpstream out = map (event_text TypeOf Compact) datas /\
     map sseDataLines (readUpstream out) = map (fun data => [flat_data Compact data]) datas).
Proof.
  destruct (events_of Unwrap MessageOf src ending) as [datas failure] eqn:E. split.
  - intros size. apply drains_exist.
  - intros sizes out e Hd%drains_remaining. unfold remaining, SSEFromEventStream in Hd.
    cbn [rd_err rd_src rd_end rd_out] in Hd. rewrite E in Hd. injection Hd as <- <-.
    split_and!; [done..|]. intros Hc. rewrite readUpstream_events by done. split; [done|].
    rewrite map_map. apply map_ext_in. intros data Hin. rewrite Forall_forall in Hc.
    by apply sse_event, Hc.
Qed.

(** ** Examples *)

(** Two events, a frame of another kind between them, then an exception. *)
Definition demo_frames : list Message :=
  [mkMessage (lit "event") [] [] [] (lit "one"); mkMessage (lit "event") [] [] [] [];
   mkMessage (lit "event") [] [] [] (lit "two");
   mkMessage (lit "exception") (lit "throttled") [] [] [];
   mkMessage (lit "event") [] [] [] (lit "late")].

Lemma reframed_stream_is_the_direct_one_witness :
  let text := lit "event: t" ++ [newline] ++ lit "data: one" ++ [newline; newline] ++
              lit "event: t" ++ [newline] ++ lit "data: two" ++ [newline; newline] in
  let reader := SSEFromEventStream demo_frames "end" in
  let unwrap := fun p => if beq p [] then None else Some p in
  (exists k out e, drains unwrap (fun _ => []) (fun _ => lit "t") (fun _ => None) (map (fun _ => 5%nat) (seq 0 k))
                     reader out e) /\
  forall sizes out e, drains unwrap (fun _ => []) (fun _ => lit "t") (fun _ => None) sizes reader out e ->
    out = text /\ e = StreamException (lit "throttled") /\
    map sseDataLines (readUpstream out) = [[lit "one"]; [lit "two"]].
Proof.
  intros text reader unwrap.
  pose proof (reframed_stream_is_the_direct_one unwrap (fun _ => []) (fun _ => lit "t") (fun _ => None) demo_frames
    "end"%string) as H.
  destruct (events_of unwrap (fun _ => []) demo_frames "end"%string) as [datas failure] eqn:E.
  vm_compute in E. injection E as <- <-. destruct H as [Hlive H]. split; [by apply Hlive; intros; lia|].
  intros sizes out e Hd. destruct (H sizes out e Hd) as (-> & Ho & Hc).
  split_and!; [rewrite Ho; reflexivity|reflexivity|]. destruct Hc as [_ ->]; [|reflexivity].
  assert (Hone : forall d, d ∈ [lit "one"; lit "two"] -> clean (fun _ => lit "t") (fun _ => None) d).
  { intros d Hd'. split; repeat (apply elem_of_cons in Hd' as [->|Hd'];
      [first [discriminate|reflexivity|by apply (bool_decide_eq_false_1 _)]|]); by apply elem_of_nil in Hd'. }
  apply Forall_forall. intros d Hin. apply Hone. by apply list_elem_of_In.
Defined.
