(* ===== verification/Probe.v ===== *)
(** * What a route serves: [internal/gateway/routeprobe] over [model_route_probes]

    One row per (route, endpoint) records the last verdict, who reached it, and
    whether a probe is on its way.  The statements on the table are definitions over
    a finite map, their [CASE] and [WHERE] conditions in SQL's three-valued logic;
    above them the service, the probe worker and the sweeper.

    One probe, the network under it and the clock are the variable [Run] and the
    outside world [W] it advances; River is [Insert], which answers whether the job
    was skipped as a duplicate.  [ProbeRun.v] says what one probe sends. *)
From S2P Require Import Prelude GoStr BreakerStore Surfaces.

Open Scope Z_scope.

(** ** Three-valued conditions *)

Definition and3 (a b : option bool) : option bool :=
  match a, b with
  | Some false, _ | _, Some false => Some false
  | Some true, x => x
  | None, _ => None
  end.
Definition not3 (a : option bool) : option bool := negb <$> a.
Definition or3 (a b : option bool) : option bool := not3 (and3 (not3 a) (not3 b)).
(** A [WHERE] keeps the rows its condition is true of; [CASE WHEN] takes a branch likewise. *)
Definition holds3 (a : option bool) : bool := match a with Some true => true | _ => false end.

(** ** The rows *)

Inductive ProbeStatus := StatusUnverified | StatusOK | StatusUnsupported | StatusFailed.
Inductive ProbeSource := SourceProbe | SourceOperator.

#[export] Instance ProbeStatus_eq_dec : EqDecision ProbeStatus.
Proof. solve_decision. Defined.
#[export] Instance ProbeSource_eq_dec : EqDecision ProbeSource.
Proof. solve_decision. Defined.

Record ProbeRow := mkProbeRow {
  pr_Protocol : Protocol;
  pr_ProbeMode : ProbeMode;
  pr_Status : ProbeStatus;
  pr_Source : ProbeSource;
  pr_CheckedAt : option Z;
  pr_LatencyMs : option Z;
  pr_StatusCode : option Z;
  pr_Error : string;
  pr_EnqueuedAt : option Z;
  pr_UpdatedAt : Z;
}.

(** (route, endpoint): the primary key. *)
Abbreviation probe_key := (string * string)%type.
Definition key_eq : EqDecision probe_key := prod_eq_dec.
Definition key_countable : Countable probe_key := prod_countable.
Abbreviation Rows := (@gmap probe_key key_eq key_countable ProbeRow).

(** ** Which endpoints can be probed *)

Definition probeable (ep : string) : bool :=
  match ProbeModeForEndpoint ep with Some m => negb (bool_decide (m = ProbeDerived)) | None => false end.
Definition autoProbeable (ep : string) : bool :=
  match ProbeModeForEndpoint ep with Some m => bool_decide (m = ProbeAuto) | None => false end.
Definition Probeable (all : list string) : list string := List.filter probeable all.
Definition AutoProbeable (all : list string) : list string := List.filter autoProbeable all.

(** The column constraints of the table. *)
Definition stored_endpoints : list string :=
  ["chat"; "messages"; "messages_count_tokens"; "responses"; "responses_compact"; "responses_input_tokens";
   "embeddings"; "images"; "images_edits"; "generate_content"; "gemini_count_tokens"; "gemini_embed_content";
   "gemini_batch_embed_contents"; "gemini_interactions"; "video"]%string.
Definition row_allowed (ep : string) (mode : ProbeMode) : bool :=
  bool_decide (ep ∈ stored_endpoints) && bool_decide (mode <> ProbeDerived).

(** ** One probe's outcome *)

Record ProbeResult := mkProbeResult {
  res_OK : bool; res_LatencyMs : option Z; res_StatusCode : option Z; res_Message : string;
}.

Definition is_missing (code : Z) : bool := (code =? 404) || (code =? 405).

Definition VerdictOf (res : ProbeResult) : ProbeStatus :=
  if res_OK res then StatusOK
  else if match res_StatusCode res with Some c => is_missing c | None => false end then StatusUnsupported
  else StatusFailed.

(** The narrowing to 32 bits wraps. *)
Definition int4FromPtr (v : option Z) : option Z := (fun z => (z + 2 ^ 31) mod 2 ^ 32 - 2 ^ 31) <$> v.

(** ** The statements *)

(** An [UPDATE] over the rows it selects. *)
Definition update_rows (sel : probe_key -> ProbeRow -> bool) (f : ProbeRow -> ProbeRow) (t : Rows) : Rows :=
  map_imap (fun k r => Some (if sel k r then f r else r)) t.

Definition enqueued (r : ProbeRow) : bool := bool_decide (is_Some (pr_EnqueuedAt r)).
Definition with_enqueued (at_ : option Z) (now : Z) (r : ProbeRow) : ProbeRow :=
  mkProbeRow (pr_Protocol r) (pr_ProbeMode r) (pr_Status r) (pr_Source r) (pr_CheckedAt r) (pr_LatencyMs r)
    (pr_StatusCode r) (pr_Error r) at_ now.
(** What both resets leave of a verdict. *)
Definition unverified (r : ProbeRow) (enq : option Z) (now : Z) : ProbeRow :=
  mkProbeRow (pr_Protocol r) (pr_ProbeMode r) StatusUnverified SourceProbe None None None "" enq now.

(** An [INSERT] checks the row's columns first, and then whether the key is taken. *)
Definition insert_checked (k : probe_key) (protocol : option Protocol) (mode : option ProbeMode) (t : Rows)
    (fresh : Protocol -> ProbeMode -> ProbeRow) (conflict : ProbeRow -> Rows) : option Rows :=
  match protocol, mode with
  | Some p, Some m =>
      if row_allowed k.2 m
      then Some match t !! k with Some r => conflict r | None => <[k := fresh p m]> t end
      else None
  | _, _ => None
  end.

Definition SeedRouteProbe (now : Z) (route ep : string) (protocol : option Protocol) (mode : option ProbeMode)
    (t : Rows) : option Rows :=
  insert_checked (route, ep) protocol mode t
    (fun p m => mkProbeRow p m StatusUnverified SourceProbe None None None "" None now) (fun _ => t).

Definition MarkRouteProbesEnqueued (now : Z) (route : string) (endpoints : list string) (t : Rows) : Rows :=
  update_rows (fun k r => bool_decide (k.1 = route) &&
      match endpoints with
      | [] => bool_decide (pr_ProbeMode r = ProbeAuto)
      | _ => bool_decide (k.2 ∈ endpoints)
      end) (with_enqueued (Some now) now) t.

Definition ClearRouteProbesEnqueued (now : Z) (route : string) (t : Rows) : Rows :=
  update_rows (fun k r => bool_decide (k.1 = route) && enqueued r) (with_enqueued None now) t.

Definition SweepStaleProbeEnqueued (now olderThan : Z) (t : Rows) : Rows :=
  update_rows (fun _ r => match pr_EnqueuedAt r with Some at_ => at_ <? olderThan | None => false end)
    (with_enqueued None now) t.

Definition ResetRouteProbes (now : Z) (route : string) (t : Rows) : Rows :=
  update_rows (fun k _ => bool_decide (k.1 = route)) (fun r => unverified r (pr_EnqueuedAt r) now) t.

Definition ClearRouteProbeOverride (now : Z) (route ep : string) (t : Rows) : Rows :=
  update_rows (fun k _ => bool_decide (k = (route, ep))) (fun r => unverified r None now) t.

Definition SetRouteProbeOverride (now : Z) (route ep : string) (protocol : option Protocol)
    (mode : option ProbeMode) (status : ProbeStatus) (t : Rows) : option Rows :=
  insert_checked (route, ep) protocol mode t
    (fun p m => mkProbeRow p m status SourceOperator (Some now) None None "" None now)
    (fun r => <[(route, ep) := mkProbeRow (pr_Protocol r) (pr_ProbeMode r) status SourceOperator (Some now) None None
                                 "" None now]> t).

Definition DeleteRouteProbesOutsideProtocols (of_provider : string -> bool) (protocols : list Protocol) (t : Rows) :
    Rows :=
  filter (fun kv => ~ (of_provider kv.1.1 = true /\ pr_Protocol kv.2 ∉ protocols)) t.

(** The status the upsert of [SaveRouteProbe] stores over a standing row. *)
Definition recent_miss (now : Z) (r : ProbeRow) : option bool :=
  and3 (is_missing <$> pr_StatusCode r) ((fun c => now - 60 * Minute <? c) <$> pr_CheckedAt r).
Definition settled (now : Z) (r : ProbeRow) (verdict : ProbeStatus) : ProbeStatus :=
  if bool_decide (verdict = StatusFailed) && bool_decide (pr_Status r = StatusOK) then StatusOK
  else if holds3 (and3 (Some (bool_decide (verdict = StatusUnsupported) && bool_decide (pr_Status r = StatusOK)))
                       (not3 (recent_miss now r))) then StatusOK
  else verdict.

(** The stored status, or no row when the operator's was left alone. *)
Definition SaveRouteProbe (now : Z) (route ep : string) (protocol : option Protocol) (mode : option ProbeMode)
    (verdict : ProbeStatus) (latency code : option Z) (error : string) (t : Rows) :
    option (option ProbeStatus * Rows) :=
  let row p m st := mkProbeRow p m st SourceProbe (Some now) latency code error None now in
  match t !! (route, ep) with
  | Some r =>
      match insert_checked (route, ep) protocol mode t (fun p m => row p m verdict) (fun _ => t) with
      | None => None
      | Some _ =>
          if bool_decide (pr_Source r = SourceOperator) then Some (None, t)
          else let st := settled now r verdict in
               Some (Some st, <[(route, ep) := mkProbeRow (pr_Protocol r) (pr_ProbeMode r) st (pr_Source r)
                                                 (Some now) latency code error None now]> t)
      end
  | None =>
      (fun t' => (Some verdict, t')) <$>
        insert_checked (route, ep) protocol mode t (fun p m => row p m verdict) (fun _ => t)
  end.

(** ** Readers of the verdicts *)

(** The candidate query keeps a route unless its endpoint was found unsupported, and
    wants a verdict where the endpoint is only probed on request. *)
Definition verdict_admits (requires_verdict byok_vendor : bool) (row : option ProbeRow) : bool :=
  negb (match row with Some r => bool_decide (pr_Status r = StatusUnsupported) | None => false end &&
        negb byok_vendor) &&
  (negb requires_verdict || match row with Some r => bool_decide (pr_Status r = StatusOK) | None => false end).

(** [model_published_endpoints], of one row of an enabled route on an enabled provider. *)
Definition published (spoken : list Protocol) (has_key : bool) (r : ProbeRow) : bool :=
  bool_decide (pr_Protocol r ∈ spoken) &&
  (bool_decide (pr_Status r = StatusOK) ||
   (bool_decide (pr_Status r = StatusUnverified) && bool_decide (pr_ProbeMode r = ProbeAuto) && negb has_key)).

(** ** Jobs *)

Record Args := mkArgs { ja_RouteID : string; ja_Endpoints : list string }.
Inductive InsertOpts := OptsNone | OptsDeduped (period : Z) | OptsScheduled (at_ : Z).

Definition requestWindow : Z := 10 * Minute.
Definition confirmAfter : Z := 5 * Minute.
Definition sweepInterval : Z := 60 * Minute.
Definition unverifiedGrace : Z := 10 * Minute.
Definition verdictTTL : Z := 24 * 60 * Minute.
Definition sweepBatch : nat := 500.
Definition inFlightTTL : Z := 2 * 60 * Minute.
Definition dedupedWithinWindow : InsertOpts := OptsDeduped requestWindow.

(** What the worker reads of a route, and of its provider's credentials. *)
Record ProbedRoute := mkProbedRoute {
  rp_ProviderModelID : bytes;
  rp_ProviderID : string;
  rp_Protocols : list Protocol;
  rp_Vendor : string;
  rp_BaseURL : bytes;
  rp_ProviderHeaders : option (gmap bytes bytes);   (** [None]: not an object of strings *)
  rp_ProviderTransport : bytes;
  rp_RouteHeaders : option (gmap bytes bytes);
}.

(** [routeprobe.Target]. *)
Record ProbeTarget := mkProbeTarget {
  pt_BaseURL : bytes; pt_Vendor : string; pt_Protocols : list Protocol;
  pt_Headers : option (gmap bytes bytes); pt_Transport : bytes;
}.

Definition target_of (r : ProbedRoute) : ProbeTarget :=
  mkProbeTarget (rp_BaseURL r) (rp_Vendor r) (rp_Protocols r) (rp_ProviderHeaders r) (rp_ProviderTransport r).

(** The endpoints one pass probes. *)
Definition pass_endpoints (protocols : list Protocol) (asked : list string) : list string :=
  let spoken := EndpointsForProtocols protocols in
  match asked with
  | [] => AutoProbeable spoken
  | _ => List.filter (fun ep => bool_decide (ep ∈ spoken)) (Probeable asked)
  end.

Section probing.
Context {Q W : Type}.
(** River: the queue after an insert, and whether the job was skipped as a duplicate. *)
Variable Insert : Q -> Args -> InsertOpts -> Z -> result string (Q * bool).
(** One probe on one endpoint, in the world outside. *)
Variable Run : W -> ProbeTarget -> bytes -> bytes -> string -> ProbeResult * W.
Variable clock : W -> Z.
(** Whether the next write of a verdict, or the last cleanup, is lost to the database. *)
Variable save_fails clear_fails : W -> bool.
(** The reads: a route under probe; a provider's active credentials; a sealed secret. *)
Variable RouteForProbe : string -> option ProbedRoute.
Variable GetProviderKeysForProvider : string -> option (list (string * string)).
Variable Open_ : string -> string -> result string bytes.

(** ** Seeding and asking: [Service] *)

Fixpoint seed_each (now : Z) (route : string) (eps : list string) (t : Rows) : option Rows :=
  match eps with
  | [] => Some t
  | ep :: eps =>
      match SeedRouteProbe now route ep (ProtocolForEndpoint ep) (ProbeModeForEndpoint ep) t with
      | Some t => seed_each now route eps t
      | None => None
      end
  end.
Definition Seed (now : Z) (route : string) (protocols : list Protocol) (t : Rows) : option Rows :=
  seed_each now route (Probeable (EndpointsForProtocols protocols)) t.

Definition SaveErr : string := "routeprobe: save probe verdict".
Definition SeedErr : string := "routeprobe: seed the initial probe row".
Definition EnqueueErr : string := "routeprobe: enqueue probe job".

Abbreviation State := (Rows * Q)%type.

(** Inside the caller's transaction; [None] for the queue of a degraded assembly. *)
Definition Enqueue (now : Z) (has_river : bool) (route : string) (protocols : list Protocol) (st : State) :
    result string State :=
  match Seed now route protocols st.1 with
  | None => Err SeedErr
  | Some t =>
      if negb has_river then Ok (t, st.2)
      else match AutoProbeable (EndpointsForProtocols protocols) with
           | [] => Ok (t, st.2)
           | _ =>
               match Insert st.2 (mkArgs route []) OptsNone now with
               | Err _ => Err EnqueueErr
               | Ok (q, _) => Ok (MarkRouteProbesEnqueued now route [] t, q)
               end
           end
  end.

(** Its own transaction: a failure leaves the table as it was. *)
Definition Reprobe (now : Z) (has_river : bool) (route : string) (st : State) : State :=
  match RouteForProbe route with
  | None => st
  | Some r =>
      match Enqueue now has_river route (rp_Protocols r) (ResetRouteProbes now route st.1, st.2) with
      | Ok st' => st'
      | Err _ => st
      end
  end.

Fixpoint enqueue_each (now : Z) (has_river : bool) (protocols : list Protocol) (routes : list string) (st : State) :
    result string State :=
  match routes with
  | [] => Ok st
  | r :: routes =>
      match Enqueue now has_river r protocols st with
      | Ok st => enqueue_each now has_river protocols routes st
      | Err e => Err e
      end
  end.
Definition ReseedProvider (now : Z) (has_river : bool) (routes : list string) (protocols : list Protocol) (st : State) :
    result string State :=
  enqueue_each now has_river protocols routes
    (DeleteRouteProbesOutsideProtocols (fun r => bool_decide (r ∈ routes)) protocols st.1, st.2).

(** An insert followed by the mark, the shape every ask outside a transaction has. *)
Definition ask (now : Z) (route : string) (endpoints : list string) (opts : InsertOpts) (st : State) :
    result string State :=
  match Insert st.2 (mkArgs route endpoints) opts now with
  | Err e => Err e
  | Ok (q, _) => Ok (MarkRouteProbesEnqueued now route endpoints st.1, q)
  end.

Definition EnqueueProviderRoutes (now : Z) (has_river : bool) (routes : option (list string)) (st : State) : State :=
  match routes with
  | Some routes =>
      if negb has_river then st
      else fold_left (fun st route => match ask now route [] OptsNone st with Ok st => st | Err _ => st end) routes st
  | None => st
  end.

Definition Request (now : Z) (has_river : bool) (route ep : string) (st : State) : State :=
  if negb has_river || negb (autoProbeable ep) then st
  else match ask now route [ep] dedupedWithinWindow st with Ok st => st | Err _ => st end.

Definition Probe (now : Z) (has_river : bool) (route : string) (endpoints : list string) (st : State) :
    result string State :=
  if negb has_river then Err "routeprobe: no job queue to run the probe on"%string
  else ask now route endpoints OptsNone st.

Definition Override (now : Z) (route ep : string) (status : ProbeStatus) (t : Rows) : result string Rows :=
  match ProtocolForEndpoint ep with
  | None => Err "routeprobe: unknown endpoint"%string
  | Some p =>
      match SetRouteProbeOverride now route ep (Some p) (ProbeModeForEndpoint ep) status t with
      | None => Err "routeprobe: write the operator's verdict"%string
      | Some t => Ok t
      end
  end.

Definition ClearOverride (now : Z) (has_river : bool) (route ep : string) (st : State) : result string State :=
  let st := (ClearRouteProbeOverride now route ep st.1, st.2) in
  if negb has_river || negb (autoProbeable ep) then Ok st
  else ask now route [ep] OptsNone st.

(** ** The operator's hand: [catalogadmin/route_probes.go] *)

Inductive admin_error := ErrNotFound | Invalid (detail : string) | Failed (e : string).

(** The protocols of the route's provider, when the route is under that model. *)
Variable RouteUnderModel : string -> string -> option (list Protocol).

Fixpoint endpoints_allowed (protocols : list Protocol) (eps : list string) : result admin_error unit :=
  match eps with
  | [] => Ok ()
  | ep :: eps =>
      match ProtocolForEndpoint ep with
      | None => Err (Invalid "Unknown endpoint")
      | Some p => if bool_decide (p ∈ protocols) then endpoints_allowed protocols eps
                  else Err (Invalid "no request for it would ever reach this route")
      end
  end.
Definition routeEndpointsAllowed (model route : string) (eps : list string) : result admin_error unit :=
  match RouteUnderModel route model with
  | None => Err ErrNotFound
  | Some protocols => endpoints_allowed protocols eps
  end.

(** [Verdict]: a missing row reads as unverified. *)
Definition Verdict (t : Rows) (route ep : string) : option ProbeMode * ProbeStatus * ProbeSource * option Z :=
  match t !! (route, ep) with
  | Some r => (Some (pr_ProbeMode r), pr_Status r, pr_Source r, pr_EnqueuedAt r)
  | None => (ProbeModeForEndpoint ep, StatusUnverified, SourceProbe, None)
  end.

Definition OverrideRouteProbe (now : Z) (has_river : bool) (model route ep : string) (status : ProbeStatus)
    (st : State) : result admin_error State :=
  match routeEndpointsAllowed model route [ep] with
  | Err e => Err e
  | Ok _ =>
      match status with
      | StatusOK | StatusUnsupported =>
          match Override now route ep status st.1 with Ok t => Ok (t, st.2) | Err e => Err (Failed e) end
      | StatusUnverified =>
          match ClearOverride now has_river route ep st with Ok st => Ok st | Err e => Err (Failed e) end
      | StatusFailed => Err (Invalid "status must be ok, unsupported or unverified")
      end
  end.

Definition ProbeRoute (now : Z) (has_river : bool) (model route : string) (eps : list string) (st : State) :
    result admin_error State :=
  match routeEndpointsAllowed model route eps with
  | Err e => Err e
  | Ok _ => match Probe now has_river route eps st with Ok st => Ok st | Err e => Err (Failed e) end
  end.

(** ** The worker *)

(** The loop of [Work]: what it stored, the endpoints to look at again, and the error
    that ended it early. *)
Fixpoint probe_each (target : ProbeTarget) (key model : bytes) (route : string) (eps confirm : list string) (t : Rows) (w : W) :
    result string (list string) * Rows * W :=
  match eps with
  | [] => (Ok confirm, t, w)
  | ep :: eps =>
      let '(res, w) := Run w target key model ep in
      let verdict := VerdictOf res in
      if save_fails w then (Err SaveErr, t, w)
      else match SaveRouteProbe (clock w) route ep (ProtocolForEndpoint ep) (ProbeModeForEndpoint ep) verdict
                   (int4FromPtr (res_LatencyMs res)) (int4FromPtr (res_StatusCode res)) (res_Message res) t with
           | None => (Err SaveErr, t, w)
           | Some (None, t) => probe_each target key model route eps confirm t w
           | Some (Some stored, t) =>
               let confirm := if bool_decide (verdict = StatusUnsupported) && bool_decide (stored = StatusOK)
                              then confirm ++ [ep] else confirm in
               probe_each target key model route eps confirm t w
           end
  end.

Definition confirm_later (has_river : bool) (now : Z) (route : string) (confirm : list string) (q : Q) :
    result string Q :=
  match confirm with
  | [] => Ok q
  | _ => if negb has_river then Ok q
         else match Insert q (mkArgs route confirm) (OptsScheduled (now + confirmAfter)) now with
              | Ok (q, _) => Ok q
              | Err _ => Err "routeprobe: schedule the confirming probe"%string
              end
  end.

(** The body of [Work], before the deferred cleanup. *)
Definition work_body (has_river : bool) (job : Args) (st : State) (w : W) : result string unit * State * W :=
  match RouteForProbe (ja_RouteID job) with
  | None => (Ok (), st, w)
  | Some r =>
      match GetProviderKeysForProvider (rp_ProviderID r) with
      | None | Some [] => (Ok (), st, w)
      | Some ((kid, enc) :: _) =>
          match Open_ enc kid with
          | Err _ => (Err "routeprobe: decrypt the key for probing"%string, st, w)
          | Ok plain =>
              match probe_each (target_of r) plain (rp_ProviderModelID r) (ja_RouteID job)
                      (pass_endpoints (rp_Protocols r) (ja_Endpoints job)) [] st.1 w with
              | (Err e, t, w) => (Err e, (t, st.2), w)
              | (Ok confirm, t, w) =>
                  match confirm_later has_river (clock w) (ja_RouteID job) confirm st.2 with
                  | Ok q => (Ok (), (t, q), w)
                  | Err e => (Err e, (t, st.2), w)
                  end
              end
          end
      end
  end.

Definition Work (has_river : bool) (job : Args) (st : State) (w : W) : result string unit * State * W :=
  let '(res, st, w) := work_body has_river job st w in
  (res, (if clear_fails w then st.1 else ClearRouteProbesEnqueued (clock w) (ja_RouteID job) st.1, st.2), w).

(** ** The sweeper *)

(** What the join of the work list reads of a route. *)
Variable sweepable : string -> option (list Protocol).
  (** an enabled route of an enabled provider with an active credential, and what it speaks *)

Definition due (now : Z) (k : probe_key) (r : ProbeRow) : bool :=
  negb (bool_decide (pr_Source r = SourceOperator)) && bool_decide (pr_ProbeMode r = ProbeAuto) &&
  match sweepable k.1 with
  | None => false
  | Some protocols => bool_decide (pr_Protocol r ∈ protocols)
  end &&
  holds3 (or3 (Some (bool_decide (pr_Status r = StatusUnverified) && (pr_UpdatedAt r <? now - unverifiedGrace)))
              (and3 (Some (bool_decide (pr_Status r ∈ [StatusFailed; StatusUnsupported])))
                    ((fun c => c <? now - verdictTTL) <$> pr_CheckedAt r))).

Definition due_order (a b : probe_key * ProbeRow) : comparison :=
  cmp_Or [default (pr_UpdatedAt a.2) (pr_CheckedAt a.2) ?= default (pr_UpdatedAt b.2) (pr_CheckedAt b.2);
          String.compare a.1.1 b.1.1; String.compare a.1.2 b.1.2].

Definition ListRouteProbesDueForReprobe (now : Z) (t : Rows) : list probe_key :=
  take sweepBatch (map fst (SortFunc due_order (List.filter (fun kv => due now kv.1 kv.2) (map_to_list t)))).

(** The rows grouped by route, in the order the routes were first met. *)
Fixpoint group_rows (rows : list probe_key) (acc : list (string * list string)) : list (string * list string) :=
  match rows with
  | [] => acc
  | (route, ep) :: rows =>
      group_rows rows
        (if bool_decide (route ∈ map fst acc)
         then map (fun g => if bool_decide (g.1 = route) then (g.1, g.2 ++ [ep]) else g) acc
         else acc ++ [(route, [ep])])
  end.

Fixpoint insert_each (now : Z) (groups : list (string * list string)) (q : Q) : result string unit * Q :=
  match groups with
  | [] => (Ok (), q)
  | (route, eps) :: groups =>
      match Insert q (mkArgs route eps) dedupedWithinWindow now with
      | Ok (q, _) => insert_each now groups q
      | Err _ => (Err "routeprobe: enqueue a sweep probe"%string, q)
      end
  end.

Definition SweepWork (now : Z) (st : State) : result string unit * State :=
  match insert_each now (group_rows (ListRouteProbesDueForReprobe now st.1) []) st.2 with
  | (Err e, q) => (Err e, (st.1, q))
  | (Ok _, q) => (Ok (), (SweepStaleProbeEnqueued now (now - inFlightTTL) st.1, q))
  end.
End probing.

(** ** Reading the statements *)

Lemma lookup_update_rows sel f t k :
  update_rows sel f t !! k = (fun r => if sel k r then f r else r) <$> t !! k.
Proof. unfold update_rows. rewrite map_lookup_imap. by destruct (t !! k). Qed.

Lemma insert_checked_some k p m t fresh conflict t' :
  insert_checked k p m t fresh conflict = Some t' ->
  exists p0 m0, p = Some p0 /\ m = Some m0 /\ row_allowed k.2 m0 = true /\
    t' = match t !! k with Some r => conflict r | None => <[k := fresh p0 m0]> t end.
Proof.
  unfold insert_checked. destruct p as [p0|], m as [m0|]; try done.
  destruct (row_allowed k.2 m0) eqn:E; [|done]. intros [= <-]. eauto 6.
Qed.

Lemma save_some now route ep p m v lat code e t res :
  SaveRouteProbe now route ep p m v lat code e t = Some res ->
  exists p0 m0, p = Some p0 /\ m = Some m0 /\ row_allowed ep m0 = true /\
    res = match t !! (route, ep) with
          | Some r => if bool_decide (pr_Source r = SourceOperator) then (None, t)
                      else (Some (settled now r v),
                            <[(route, ep) := mkProbeRow (pr_Protocol r) (pr_ProbeMode r) (settled now r v) (pr_Source r)
                                               (Some now) lat code e None now]> t)
          | None => (Some v, <[(route, ep) := mkProbeRow p0 m0 v SourceProbe (Some now) lat code e None now]> t)
          end.
Proof.
  unfold SaveRouteProbe. destruct (t !! (route, ep)) as [r|] eqn:Er.
  - destruct (insert_checked _ _ _ _ _ _) as [t0|] eqn:E; [|done].
    apply insert_checked_some in E as (p0 & m0 & -> & -> & Ha & _).
    intros H. exists p0, m0. repeat split; [done|]. destruct (bool_decide _); by injection H.
  - intros H. apply fmap_Some in H as (t0 & E & ->).
    apply insert_checked_some in E as (p0 & m0 & -> & -> & Ha & ->). rewrite Er. eauto 6.
Qed.

(** What it takes for the upsert to withdraw a verified verdict. *)
Lemma settled_withdraws now r v :
  pr_Status r = StatusOK -> settled now r v <> StatusOK ->
  settled now r v = v /\ v <> StatusFailed /\ (v = StatusUnsupported -> recent_miss now r <> Some false).
Proof.
  intros Hok. unfold settled. rewrite !Hok, !(bool_decide_eq_true_2 (StatusOK = StatusOK)) by done.
  rewrite !andb_true_r. repeat case_bool_decide; subst; simpl; try done;
    destruct (recent_miss now r) as [[]|]; simpl; done.
Qed.

Lemma verdict_known res : VerdictOf res <> StatusUnverified.
Proof. unfold VerdictOf. repeat step_case; done. Qed.

Lemma settled_known now r v : v <> StatusUnverified -> settled now r v <> StatusUnverified.
Proof. intros Hv. unfold settled. repeat step_case; done. Qed.

(** ** The loop of a pass *)

Section pass.
Context {Q W : Type}.
Variable Run : W -> ProbeTarget -> bytes -> bytes -> string -> ProbeResult * W.
Variable clock : W -> Z.
Variable save_fails : W -> bool.

Abbreviation each := (probe_each Run clock save_fails).

(** A relation between a row before a pass and after it that one write keeps. *)
Lemma each_rows (R : ProbeRow -> ProbeRow -> Prop) target key model route eps confirm t w res t' w' :
  (forall r, R r r) -> (forall a b c, R a b -> R b c -> R a c) ->
  (forall now r v lat code e, pr_Source r <> SourceOperator -> v <> StatusUnverified ->
     R r (mkProbeRow (pr_Protocol r) (pr_ProbeMode r) (settled now r v) (pr_Source r) (Some now) lat code e None now)) ->
  each target key model route eps confirm t w = (res, t', w') ->
  forall k r, t !! k = Some r -> exists r', t' !! k = Some r' /\ R r r' /\ (r' = r \/ (k.1 = route /\ k.2 ∈ eps)).
Proof.
  intros Hrefl Htrans Hone. revert confirm t w.
  induction eps as [|ep eps IH]; cbn [probe_each]; intros confirm t w H k r Hr.
  { injection H as <- <- <-. eauto. }
  destruct (Run w target key model ep) as [ans w1] eqn:Erun.
  destruct (save_fails w1). { injection H as <- <- <-. eauto. }
  destruct (SaveRouteProbe _ _ _ _ _ _ _ _ _ t) as [[stored t1]|] eqn:Es; [|injection H as <- <- <-; eauto].
  apply save_some in Es as (p0 & m0 & _ & _ & _ & Hres).
  assert (H1 : exists r1, t1 !! k = Some r1 /\ R r r1 /\ (r1 = r \/ k = (route, ep))).
  { destruct (t !! (route, ep)) as [r0|] eqn:E0.
    - destruct (bool_decide (pr_Source r0 = SourceOperator)) eqn:Eo; injection Hres as -> ->; [eauto|].
      destruct (decide (k = (route, ep))) as [->|Hne].
      + rewrite lookup_insert_eq. replace r0 with r in * by congruence. bool_prop.
        eexists; split; [done|]. split; [|by right]. apply Hone; [done|apply verdict_known].
      + rewrite lookup_insert_ne by done. eauto.
    - injection Hres as -> ->. destruct (decide (k = (route, ep))) as [->|Hne]; [congruence|].
      rewrite lookup_insert_ne by done. eauto. }
  destruct H1 as (r1 & Hr1 & HR1 & Hk1).
  assert (H2 : exists r', t' !! k = Some r' /\ R r1 r' /\ (r' = r1 \/ (k.1 = route /\ k.2 ∈ eps))).
  { destruct stored as [st|]; eapply IH; eauto. }
  destruct H2 as (r' & Hr' & HR2 & Hk2). exists r'. split; [done|]. split; [by eapply Htrans|].
  destruct Hk1 as [->| ->]; destruct Hk2 as [->|[? ?]]; eauto; right; simpl; split; try done; by left || by right.
Qed.
End pass.

(** ** The endpoints of a pass *)

Lemma omap_nodup {A B} (f : A -> option B) l :
  (forall x y z, f x = Some z -> f y = Some z -> x = y) -> NoDup l -> NoDup (omap f l).
Proof.
  intros Hinj. induction 1 as [|x l Hx _ IH]; simpl; [constructor|].
  destruct (f x) as [z|] eqn:Ez; [|done]. constructor; [|done].
  rewrite list_elem_of_omap. intros (y & Hy & Ey). by rewrite (Hinj _ _ _ Ez Ey) in Hx.
Qed.

Lemma filter_nodup {A} (p : A -> bool) l : NoDup l -> NoDup (List.filter p l).
Proof. rewrite !NoDup_ListNoDup. apply List.NoDup_filter. Qed.

Lemma endpoints_nodup ps : NoDup (EndpointsForProtocols ps).
Proof.
  apply omap_nodup.
  - intros s1 s2 ep. destruct (protocol s1) as [p1|], (protocol s2) as [p2|]; try done.
    repeat case_bool_decide; try done. apply endpoint_inj.
  - apply (bool_decide_eq_true_1 (NoDup allSurfaces)). by vm_compute.
Qed.

Lemma pass_nodup ps asked : NoDup asked -> NoDup (pass_endpoints ps asked).
Proof.
  intros H. unfold pass_endpoints, AutoProbeable, Probeable.
  destruct asked; repeat apply filter_nodup; done || apply endpoints_nodup.
Qed.

Lemma in_filter {A} (p : A -> bool) l x : x ∈ List.filter p l <-> x ∈ l /\ p x = true.
Proof. rewrite !list_elem_of_In. apply List.filter_In. Qed.

Lemma auto_probeable ep : autoProbeable ep = true -> probeable ep = true.
Proof. unfold autoProbeable, probeable. destruct (ProbeModeForEndpoint ep) as [[]|]; done. Qed.

Lemma pass_probes_spoken ps asked ep :
  ep ∈ pass_endpoints ps asked -> ep ∈ EndpointsForProtocols ps /\ probeable ep = true.
Proof.
  unfold pass_endpoints, AutoProbeable, Probeable. destruct asked; rewrite ?in_filter.
  - intros [? ?]. eauto using auto_probeable.
  - intros [[_ ?] ?]. by bool_prop.
Qed.

(** ** One pass of the worker *)

(** What clearing the markers of a route leaves of a row. *)
Definition cleared (now : Z) (route : string) (k : probe_key) (r : ProbeRow) : ProbeRow :=
  if bool_decide (k.1 = route) && enqueued r then with_enqueued None now r else r.

(** The row lost its verified verdict to this pass: the worker's, on the second of two
    answers, the first of which was a 404 or 405 within the hour, or none at all. *)
Definition withdrawn_by_probe (job : Args) (k : probe_key) (r r' : ProbeRow) : Prop :=
  pr_Source r <> SourceOperator /\ k.1 = ja_RouteID job /\ pr_Status r' = StatusUnsupported /\
  is_missing <$> pr_StatusCode r' = Some true /\
  exists now, pr_CheckedAt r' = Some now /\ recent_miss now r <> Some false.

Lemma unsupported_code res :
  VerdictOf res = StatusUnsupported -> is_missing <$> int4FromPtr (res_StatusCode res) = Some true.
Proof.
  unfold VerdictOf, int4FromPtr. destruct (res_OK res); [done|]. destruct (res_StatusCode res) as [c|]; [|done]. simpl.
  destruct (is_missing c) eqn:E; [|done]. intros _. f_equal. unfold is_missing in E.
  apply orb_true_iff in E as [E|E]; apply Z.eqb_eq in E as ->; done.
Qed.

Section work.
Context {Q W : Type}.
Variable Insert : Q -> Args -> InsertOpts -> Z -> result string (Q * bool).
Variable Run : W -> ProbeTarget -> bytes -> bytes -> string -> ProbeResult * W.
Variable clock : W -> Z.
Variable save_fails clear_fails : W -> bool.
Variable RouteForProbe : string -> option ProbedRoute.
Variable GetProviderKeysForProvider : string -> option (list (string * string)).
Variable Open_ : string -> string -> result string bytes.

Abbreviation each := (probe_each Run clock save_fails).
Abbreviation body := (work_body Insert Run clock save_fails RouteForProbe GetProviderKeysForProvider Open_).
Abbreviation work := (Work Insert Run clock save_fails clear_fails RouteForProbe GetProviderKeysForProvider Open_).

Lemma body_rows (P : Rows -> Rows -> Prop) has_river job st w res st' w' :
  (forall t, P t t) ->
  (forall r key res t w', RouteForProbe (ja_RouteID job) = Some r ->
     each (target_of r) key (rp_ProviderModelID r) (ja_RouteID job) (pass_endpoints (rp_Protocols r) (ja_Endpoints job))
       [] st.1 w = (res, t, w') -> P st.1 t) ->
  body has_river job st w = (res, st', w') -> P st.1 st'.1.
Proof.
  intros Hrefl Heach. unfold work_body.
  destruct (RouteForProbe _) as [r|] eqn:Er; [|by intros [= <- <- <-]].
  destruct (GetProviderKeysForProvider _) as [[|[kid enc] keys]|]; try by intros [= <- <- <-].
  destruct (Open_ _ _) as [plain|]; [|by intros [= <- <- <-]].
  destruct (each _ _ _ _ _ _ _ _) as [[[confirm|e] t] w1] eqn:Ee; [|intros [= <- <- <-]; by eapply Heach].
  destruct (confirm_later _ _ _ _ _ _); intros [= <- <- <-]; by eapply Heach.
Qed.

Lemma work_lookup has_river job st w res st' w' :
  work has_river job st w = (res, st', w') ->
  exists st1, body has_river job st w = (res, st1, w') /\ st'.2 = st1.2 /\
    forall k, st'.1 !! k = (if clear_fails w' then id else cleared (clock w') (ja_RouteID job) k) <$> st1.1 !! k.
Proof.
  unfold Work. destruct (body _ _ _ _) as [[res1 st1] w1]. intros [= <- <- <-]. exists st1. split; [done|].
  split; [done|]. intros k. cbn [fst]. destruct (clear_fails w1).
  - by destruct (st1.1 !! k).
  - unfold ClearRouteProbesEnqueued. by rewrite lookup_update_rows.
Qed.

Lemma cleared_keeps now route k r :
  pr_Status (cleared now route k r) = pr_Status r /\ pr_Source (cleared now route k r) = pr_Source r /\
  pr_CheckedAt (cleared now route k r) = pr_CheckedAt r /\ pr_StatusCode (cleared now route k r) = pr_StatusCode r /\
  pr_Protocol (cleared now route k r) = pr_Protocol r /\ pr_ProbeMode (cleared now route k r) = pr_ProbeMode r.
Proof. unfold cleared. by case_match. Qed.

Lemma each_withdraws target key model job eps confirm t w res t' w' :
  NoDup eps -> each target key model (ja_RouteID job) eps confirm t w = (res, t', w') ->
  forall k r, t !! k = Some r -> pr_Status r = StatusOK ->
  exists r', t' !! k = Some r' /\ (pr_Status r' = StatusOK \/ withdrawn_by_probe job k r r').
Proof.
  intros Hnd. revert confirm t w. induction Hnd as [|ep eps Hep Hnd IH]; cbn [probe_each]; intros confirm t w H k r Hr Hok.
  { injection H as <- <- <-. eauto. }
  destruct (Run w target key model ep) as [ans w1].
  destruct (save_fails w1). { injection H as <- <- <-. eauto. }
  destruct (SaveRouteProbe _ _ _ _ _ _ _ _ _ t) as [[stored t1]|] eqn:Es; [|injection H as <- <- <-; eauto].
  apply save_some in Es as (p0 & m0 & _ & _ & _ & Hres).
  assert (Hrest : exists confirm', each target key model (ja_RouteID job) eps confirm' t1 w1 = (res, t', w')).
  { destruct stored; eauto. }
  destruct Hrest as [confirm' Hrest].
  destruct (decide (k = (ja_RouteID job, ep))) as [->|Hne].
  2:{ eapply IH; eauto. destruct (t !! (_, ep)) as [r0|].
      - destruct (bool_decide _); injection Hres as -> ->; [done|]. by rewrite lookup_insert_ne.
      - injection Hres as -> ->. by rewrite lookup_insert_ne. }
  rewrite Hr in Hres. destruct (bool_decide (pr_Source r = SourceOperator)) eqn:Eo; injection Hres as -> ->.
  { eapply IH; eauto. }
  edestruct (each_rows Run clock save_fails (fun _ _ => True)) as (r' & Hr' & _ & Hsame);
    [done|done|done|exact Hrest|apply lookup_insert_eq|].
  exists r'. split; [done|]. destruct Hsame as [->|[_ ?]]; [|done]. simpl.
  destruct (decide (settled (clock w1) r (VerdictOf ans) = StatusOK)) as [|Hw]; [by left|right].
  destruct (settled_withdraws _ _ _ Hok Hw) as (Hs & Hf & Hmiss). rewrite Hs in Hw |- *. bool_prop.
  assert (Hv : VerdictOf ans = StatusUnsupported).
  { pose proof (verdict_known ans). by destruct (VerdictOf ans). }
  unfold withdrawn_by_probe. cbn [pr_Status pr_StatusCode pr_CheckedAt fst]. rewrite Hv.
  repeat split; try done; [by apply unsupported_code|]. exists (clock w1). eauto.
Qed.
End work.

(** ** The invariant of the table *)

(** A row is filed under its endpoint's own protocol and mode, can be probed, is
    unverified exactly until somebody has looked, and an operator only says yes or no. *)
Definition row_ok (k : probe_key) (r : ProbeRow) : Prop :=
  ProtocolForEndpoint k.2 = Some (pr_Protocol r) /\ ProbeModeForEndpoint k.2 = Some (pr_ProbeMode r) /\
  probeable k.2 = true /\
  (pr_Status r = StatusUnverified <-> pr_CheckedAt r = None) /\
  (pr_CheckedAt r = None ->
     pr_Source r = SourceProbe /\ pr_LatencyMs r = None /\ pr_StatusCode r = None /\ pr_Error r = ""%string) /\
  (pr_Source r = SourceOperator -> (pr_Status r = StatusOK \/ pr_Status r = StatusUnsupported) /\
     pr_LatencyMs r = None /\ pr_StatusCode r = None).
Definition Wf (t : Rows) : Prop := map_Forall row_ok t.

Lemma wf_update sel f t : (forall k r, row_ok k r -> row_ok k (f r)) -> Wf t -> Wf (update_rows sel f t).
Proof.
  intros Hf Ht k r. rewrite lookup_update_rows. intros (r0 & Hr & ->)%fmap_Some.
  apply Ht in Hr. destruct (sel k r0); auto.
Qed.

Lemma enqueued_ok k r e now : row_ok k r -> row_ok k (with_enqueued e now r).
Proof. done. Qed.
Lemma unverified_ok k r e now : row_ok k r -> row_ok k (unverified r e now).
Proof. unfold row_ok. simpl. intuition done. Qed.

Lemma wf_mark now route eps t : Wf t -> Wf (MarkRouteProbesEnqueued now route eps t).
Proof. by apply wf_update. Qed.
Lemma wf_clear now route t : Wf t -> Wf (ClearRouteProbesEnqueued now route t).
Proof. by apply wf_update. Qed.
Lemma wf_sweep now older t : Wf t -> Wf (SweepStaleProbeEnqueued now older t).
Proof. by apply wf_update. Qed.
Lemma wf_reset now route t : Wf t -> Wf (ResetRouteProbes now route t).
Proof. apply wf_update. eauto using unverified_ok. Qed.
Lemma wf_clear_override now route ep t : Wf t -> Wf (ClearRouteProbeOverride now route ep t).
Proof. apply wf_update. eauto using unverified_ok. Qed.
Lemma wf_delete p ps t : Wf t -> Wf (DeleteRouteProbesOutsideProtocols p ps t).
Proof. intros Ht k r [Hr _]%map_lookup_filter_Some. by apply Ht. Qed.

#[local] Hint Resolve wf_mark wf_clear wf_sweep wf_reset wf_clear_override wf_delete : fairlb.

Lemma allowed_probeable ep m : ProbeModeForEndpoint ep = Some m -> row_allowed ep m = true -> probeable ep = true.
Proof. unfold row_allowed, probeable. intros -> H. bool_prop. by destruct m. Qed.

Lemma wf_insert_checked k t fresh conflict t' :
  insert_checked k (ProtocolForEndpoint k.2) (ProbeModeForEndpoint k.2) t fresh conflict = Some t' -> Wf t ->
  (forall p m, ProtocolForEndpoint k.2 = Some p -> ProbeModeForEndpoint k.2 = Some m -> probeable k.2 = true ->
     row_ok k (fresh p m)) ->
  (forall r, row_ok k r -> Wf (conflict r)) -> Wf t'.
Proof.
  intros (p & m & Hp & Hm & Ha & ->)%insert_checked_some Ht Hfresh Hconf.
  destruct (t !! k) as [r|] eqn:E; [by apply Hconf, Ht|].
  apply map_Forall_insert_2; [|done]. eauto using allowed_probeable.
Qed.

Lemma wf_seed now route ps t t' : Seed now route ps t = Some t' -> Wf t -> Wf t'.
Proof.
  unfold Seed. revert t. induction (Probeable _) as [|ep eps IH]; simpl; intros t H Ht; [by injection H as <-|].
  destruct (SeedRouteProbe _ _ _ _ _ _) as [t1|] eqn:E; [|done]. eapply IH; [exact H|].
  eapply (wf_insert_checked (route, ep)); [exact E|done| |done].
  intros p m Hp Hm Hok. unfold row_ok. simpl. intuition done.
Qed.

Lemma wf_override now route ep status t t' :
  Override now route ep status t = Ok t' -> status = StatusOK \/ status = StatusUnsupported -> Wf t -> Wf t'.
Proof.
  unfold Override. destruct (ProtocolForEndpoint ep) as [p|] eqn:Ep; [|done].
  destruct (SetRouteProbeOverride _ _ _ _ _ _ _) as [t1|] eqn:E; [|done]. intros [= <-] Hs Ht. rewrite <- Ep in E.
  eapply (wf_insert_checked (route, ep)); [exact E|done| |].
  - intros p0 m Hp Hm Hok. unfold row_ok. simpl. destruct Hs as [-> | ->]; intuition done.
  - intros r (H1 & H2 & H3 & _). apply map_Forall_insert_2; [|done]. unfold row_ok. simpl.
    destruct Hs as [-> | ->]; intuition done.
Qed.

Lemma wf_save now route ep v lat code e t st t' :
  SaveRouteProbe now route ep (ProtocolForEndpoint ep) (ProbeModeForEndpoint ep) v lat code e t = Some (st, t') ->
  v <> StatusUnverified -> Wf t -> Wf t'.
Proof.
  intros (p & m & Hp & Hm & Ha & Hres)%save_some Hv Ht. pose proof (allowed_probeable _ _ Hm Ha) as Hpr.
  destruct (t !! (route, ep)) as [r|] eqn:Er.
  - destruct (bool_decide _) eqn:Eo; injection Hres as -> ->; [done|]. bool_prop.
    apply map_Forall_insert_2; [|done]. destruct (Ht _ _ Er) as (H1 & H2 & _).
    pose proof (settled_known now r v Hv). unfold row_ok. simpl. intuition done.
  - injection Hres as -> ->. apply map_Forall_insert_2; [|done]. unfold row_ok. simpl. intuition done.
Qed.

Lemma wf_each {W} Run (clock : W -> Z) save_fails target key model route eps confirm t w res t' w' :
  probe_each Run clock save_fails target key model route eps confirm t w = (res, t', w') -> Wf t -> Wf t'.
Proof.
  revert confirm t w. induction eps as [|ep eps IH]; cbn [probe_each]; intros confirm t w H Ht.
  { by injection H as _ <- _. }
  destruct (Run w target key model ep) as [ans w1]. destruct (save_fails w1); [by injection H as _ <- _|].
  destruct (SaveRouteProbe _ _ _ _ _ _ _ _ _ t) as [[stored t1]|] eqn:Es; [|by injection H as _ <- _].
  apply wf_save in Es; [|apply verdict_known|done]. destruct stored; eauto.
Qed.

Section steps.
Context {Q W : Type}.
Variable Insert : Q -> Args -> InsertOpts -> Z -> result string (Q * bool).
Variable Run : W -> ProbeTarget -> bytes -> bytes -> string -> ProbeResult * W.
Variable clock : W -> Z.
Variable save_fails clear_fails : W -> bool.
Variable RouteForProbe : string -> option ProbedRoute.
Variable GetProviderKeysForProvider : string -> option (list (string * string)).
Variable Open_ : string -> string -> result string bytes.
Variable RouteUnderModel : string -> string -> option (list Protocol).
Variable sweepable : string -> option (list Protocol).

Abbreviation State := (Rows * Q)%type.

(** Everything that writes the table. *)
Inductive touches : State -> State -> Prop :=
  | touch_enqueue now river route ps st st' : Enqueue Insert now river route ps st = Ok st' -> touches st st'
  | touch_reprobe now river route st : touches st (Reprobe Insert RouteForProbe now river route st)
  | touch_reseed now river routes ps st st' : ReseedProvider Insert now river routes ps st = Ok st' -> touches st st'
  | touch_first_key now river routes st : touches st (EnqueueProviderRoutes Insert now river routes st)
  | touch_request now river route ep st : touches st (Request Insert now river route ep st)
  | touch_override now river model route ep status st st' :
      OverrideRouteProbe Insert RouteUnderModel now river model route ep status st = Ok st' -> touches st st'
  | touch_probe now river model route eps st st' :
      ProbeRoute Insert RouteUnderModel now river model route eps st = Ok st' -> touches st st'
  | touch_work river job st w res st' w' :
      Work Insert Run clock save_fails clear_fails RouteForProbe GetProviderKeysForProvider Open_ river job st w
        = (res, st', w') -> touches st st'
  | touch_sweep now st res st' : SweepWork Insert sweepable now st = (res, st') -> touches st st'.

Lemma wf_ask (now : Z) (route : string) (eps : list string) (opts : InsertOpts) (st st' : State) :
  ask Insert now route eps opts st = Ok st' -> Wf st.1 -> Wf st'.1.
Proof. unfold ask. destruct (Insert _ _ _ _) as [[q b]|]; [|done]. intros [= <-]. simpl. auto with fairlb. Qed.

Lemma wf_enqueue (now : Z) (river : bool) (route : string) (ps : list Protocol) (st st' : State) :
  Enqueue Insert now river route ps st = Ok st' -> Wf st.1 -> Wf st'.1.
Proof.
  unfold Enqueue. destruct (Seed _ _ _ _) as [t|] eqn:Es; [|done]. intros H Ht. apply (wf_seed _ _ _ _ _ Es) in Ht.
  destruct river; simpl in H; [|by injection H as <-]. destruct (AutoProbeable _); [by injection H as <-|].
  destruct (Insert _ _ _ _) as [[q b]|]; [|done]. injection H as <-. simpl. auto with fairlb.
Qed.

Lemma wf_enqueue_each (now : Z) (river : bool) (ps : list Protocol) (routes : list string) (st st' : State) :
  enqueue_each Insert now river ps routes st = Ok st' -> Wf st.1 -> Wf st'.1.
Proof.
  revert st. induction routes as [|r routes IH]; simpl; intros st H; [by injection H as <-|].
  destruct (Enqueue _ _ _ _ _ _) as [st1|] eqn:E; [|done]. eauto using wf_enqueue.
Qed.

Lemma wf_override_route (now : Z) (river : bool) (model route ep : string) (status : ProbeStatus) (st st' : State) :
  OverrideRouteProbe Insert RouteUnderModel now river model route ep status st = Ok st' -> Wf st.1 -> Wf st'.1.
Proof.
  unfold OverrideRouteProbe. destruct (routeEndpointsAllowed _ _ _ _); [|done]. destruct status; try done.
  - unfold ClearOverride. case_match eqn:E; intros [= <-] Ht. revert E.
    destruct (negb river || _); [intros [= <-]; simpl; auto with fairlb|].
    intros E%wf_ask; [done|]. simpl. auto with fairlb.
  - case_match eqn:E; intros [= <-] Ht. simpl. eapply wf_override; eauto.
  - case_match eqn:E; intros [= <-] Ht. simpl. eapply wf_override; eauto.
Qed.

Lemma wf_first_key (now : Z) (river : bool) (routes : option (list string)) (st : State) :
  Wf st.1 -> Wf (EnqueueProviderRoutes Insert now river routes st).1.
Proof.
  unfold EnqueueProviderRoutes. destruct routes as [routes|]; [|done]. destruct (negb river); [done|].
  revert st. induction routes as [|r routes IH]; simpl; intros st Ht; [done|]. apply IH.
  case_match eqn:E; [|done]. by eapply wf_ask.
Qed.

Lemma touches_wf (st st' : State) : touches st st' -> Wf st.1 -> Wf st'.1.
Proof.
  destruct 1; intros Ht; eauto using wf_enqueue, wf_override_route, wf_first_key.
  - unfold Reprobe. case_match; [|done]. case_match eqn:E; [|done]. apply wf_enqueue in E; simpl; auto with fairlb.
  - unfold ReseedProvider in H. apply wf_enqueue_each in H; simpl; auto with fairlb.
  - unfold Request. destruct (negb river || _); [done|]. case_match eqn:E; [|done]. by eapply wf_ask.
  - unfold ProbeRoute in H. destruct (routeEndpointsAllowed _ _ _ _); [|done].
    destruct (Probe _ _ _ _ _ _) as [st1|] eqn:E; [|done]. injection H as <-. unfold Probe in E.
    destruct (negb river); [done|]. by eapply wf_ask.
  - unfold Work in H. destruct (work_body _ _ _ _ _ _ _ _ _ _ _) as [[res1 st1] w1] eqn:E.
    assert (Hb : Wf st1.1).
    { eapply (body_rows _ _ _ _ _ _ _ (fun t t' => Wf t -> Wf t')); [done| |exact E|done]. eauto using wf_each. }
    injection H as <- <- <-. simpl. destruct (clear_fails w1); auto with fairlb.
  - unfold SweepWork in H. destruct (insert_each _ _ _ _) as [[?|?] q]; injection H as <- <-; simpl; auto with fairlb.
Qed.
End steps.

(** ** Properties *)

(** C21: whatever is done to the table, from empty: every row is filed under its
    endpoint's own protocol and probe mode, only endpoints that can be probed have
    rows, a row is unverified exactly until a verdict has landed on it, and an
    operator's row says [ok] or [unsupported] and carries no sample. *)
Theorem verdict_rows_stay_well_formed {Q W} Insert Run (clock : W -> Z) save_fails clear_fails RouteForProbe Keys
    Open_ RouteUnderModel sweepable (q : Q) st :
  rtc (touches Insert Run clock save_fails clear_fails RouteForProbe Keys Open_ RouteUnderModel sweepable) (∅, q) st ->
  Wf st.1.
Proof.
  intros H. assert (Hall : forall a b, rtc (touches Insert Run clock save_fails clear_fails RouteForProbe Keys Open_
                                             RouteUnderModel sweepable) a b -> Wf a.1 -> Wf b.1).
  { induction 1; eauto using touches_wf. }
  apply (Hall _ _ H). apply map_Forall_empty.
Qed.

(** A pass of the worker takes a verified endpoint's verdict away only with a second
    sample: the row is its own route's and not the operator's, the answer now is a
    404 or 405, and the answer before it, within the hour, was one too or was no
    answer at all.  In every other case the verdict stands. *)
Theorem withdrawal_needs_a_recent_miss {Q W} Insert Run (clock : W -> Z) save_fails clear_fails RouteForProbe Keys
    (Open_ : string -> string -> result string bytes)
    (has_river : bool) (job : Args) (st st' : Rows * Q) (w w' : W) (res : result string unit) (k : probe_key)
    (r : ProbeRow) :
  Work Insert Run clock save_fails clear_fails RouteForProbe Keys Open_ has_river job st w = (res, st', w') ->
  NoDup (ja_Endpoints job) -> st.1 !! k = Some r -> pr_Status r = StatusOK ->
  exists r', st'.1 !! k = Some r' /\ (pr_Status r' = StatusOK \/ withdrawn_by_probe job k r r').
Proof.
  intros (st1 & Hbody & _ & Hclear)%work_lookup Hnd Hr Hok.
  assert (Hmid : exists r', st1.1 !! k = Some r' /\ (pr_Status r' = StatusOK \/ withdrawn_by_probe job k r r')).
  { revert Hr. refine (body_rows _ _ _ _ _ _ _ (fun t t' => t !! k = Some r ->
      exists r', t' !! k = Some r' /\ (pr_Status r' = StatusOK \/ withdrawn_by_probe job k r r')) _ _ _ _ _ _ _ _ _ Hbody).
    - eauto.
    - cbv beta. intros r0 key res0 t w0 _ He Hr. eapply each_withdraws; [|exact He|exact Hr|exact Hok].
      by apply pass_nodup. }
  destruct Hmid as (r1 & Hr1 & H1).
  rewrite Hclear, Hr1. eexists. split; [done|]. destruct (clear_fails w'); [done|]. unfold withdrawn_by_probe in *.
  destruct (cleared_keeps (clock w') (ja_RouteID job) k r1) as (-> & _ & -> & -> & _). done.
Qed.

(** ... and no answer at all counts: over any verified row that is the worker's own, a
    probe that reached nobody leaves the verdict but stores no code, and one 404
    within the hour after it, the first, withdraws the verdict. *)
Theorem silence_counts_as_a_miss now1 now2 route ep p m lat1 e1 lat2 e2 code t r :
  t !! (route, ep) = Some r -> pr_Status r = StatusOK -> pr_Source r = SourceProbe -> row_allowed ep m = true ->
  is_missing code = true -> now2 < now1 + 60 * Minute ->
  exists t1 t2,
    SaveRouteProbe now1 route ep (Some p) (Some m) StatusFailed lat1 None e1 t = Some (Some StatusOK, t1) /\
    SaveRouteProbe now2 route ep (Some p) (Some m) StatusUnsupported lat2 (Some code) e2 t1
      = Some (Some StatusUnsupported, t2).
Proof.
  intros Hr Hok Hsrc Ha Hc Hnow. unfold SaveRouteProbe. rewrite Hr. cbn [insert_checked snd]. rewrite Ha, Hsrc.
  cbn [bool_decide]. unfold settled at 1 2. rewrite Hok. simpl.
  eexists _, _. split; [done|]. rewrite lookup_insert_eq. simpl. unfold settled, recent_miss. simpl.
  assert (now2 - 60 * Minute <? now1 = true) as -> by (apply Z.ltb_lt; lia). done.
Qed.

(** ** What a pass leaves, and what the sweeper asks for *)

Definition answered (r : ProbeRow) : Prop := exists c, pr_CheckedAt r = Some c /\ pr_Status r <> StatusUnverified.

Lemma answered_now r st now lat code e : st <> StatusUnverified ->
  answered (mkProbeRow (pr_Protocol r) (pr_ProbeMode r) st (pr_Source r) (Some now) lat code e None now).
Proof. intros Hs. by exists now. Qed.

Lemma each_answers {W} Run (clock : W -> Z) save_fails target key model route eps confirm t w confirm' t' w' :
  probe_each Run clock save_fails target key model route eps confirm t w = (Ok confirm', t', w') ->
  forall ep r, ep ∈ eps -> t !! (route, ep) = Some r -> pr_Source r <> SourceOperator ->
  exists r' c, t' !! (route, ep) = Some r' /\ pr_CheckedAt r' = Some c /\ pr_Status r' <> StatusUnverified.
Proof.
  revert confirm t w. induction eps as [|ep eps IH]; cbn [probe_each]; intros confirm t w H ep0 r Hin Hr Hsrc.
  { by apply elem_of_nil in Hin. }
  destruct (Run w target key model ep) as [ans w1]. destruct (save_fails w1); [done|].
  destruct (SaveRouteProbe _ _ _ _ _ _ _ _ _ t) as [[stored t1]|] eqn:Es; [|done].
  apply save_some in Es as (p0 & m0 & _ & _ & _ & Hres).
  assert (Hrest : exists confirm1, probe_each Run clock save_fails target key model route eps confirm1 t1 w1
                                   = (Ok confirm', t', w')).
  { destruct stored; eauto. }
  destruct Hrest as [confirm1 Hrest].
  destruct (decide (ep0 = ep)) as [->|Hne].
  - rewrite Hr, bool_decide_eq_false_2 in Hres by done. injection Hres as _ ->.
    edestruct (each_rows Run clock save_fails (fun a b => answered a -> answered b)) as (r' & Hr' & HR & _);
      [done|auto| |exact Hrest|apply lookup_insert_eq|]; cbv beta.
    + intros now r0 v lat code e _ Hv _. by apply answered_now, settled_known.
    + destruct HR as (c & Hc & Hs); [|by exists r', c]. apply answered_now, settled_known, verdict_known.
  - apply (IH _ _ _ Hrest _ r); [by apply elem_of_cons in Hin as [->|]| |done].
    destruct (t !! (route, ep)) as [r0|].
    + destruct (bool_decide _); injection Hres as _ ->; [done|]. rewrite lookup_insert_ne by congruence. done.
    + injection Hres as _ ->. rewrite lookup_insert_ne by congruence. done.
Qed.

(** A verdict that has just landed is not due again for the sweeper's whole period. *)
Lemma fresh_is_not_due sweepable now k r c :
  pr_CheckedAt r = Some c -> pr_Status r <> StatusUnverified -> now <= c + verdictTTL -> due sweepable now k r = false.
Proof.
  intros Hc Hs Hnow. unfold due. rewrite Hc, (bool_decide_eq_false_2 (_ = StatusUnverified)) by done. simpl.
  assert (c <? now - verdictTTL = false) as -> by (apply Z.ltb_ge; lia).
  by repeat (case_bool_decide; simpl; rewrite ?andb_false_r); repeat step_case.
Qed.

(** A pass that ran through answers everything it was asked: every endpoint of its list
    whose row is the worker's has a verdict, freshly dated, and the sweeper leaves it
    alone for a day. *)
Theorem a_pass_answers_what_it_was_asked {Q W} Insert Run (clock : W -> Z) save_fails clear_fails RouteForProbe Keys Open_
    sweepable has_river (job : Args) (st st' : Rows * Q) (w w' : W) pr kid enc keys plain ep (r : ProbeRow) :
  Work Insert Run clock save_fails clear_fails RouteForProbe Keys Open_ has_river job st w = (Ok (), st', w') ->
  RouteForProbe (ja_RouteID job) = Some pr -> Keys (rp_ProviderID pr) = Some ((kid, enc) :: keys) ->
  Open_ enc kid = Ok plain ->
  ep ∈ pass_endpoints (rp_Protocols pr) (ja_Endpoints job) ->
  st.1 !! (ja_RouteID job, ep) = Some r -> pr_Source r <> SourceOperator ->
  exists r' c, st'.1 !! (ja_RouteID job, ep) = Some r' /\ pr_CheckedAt r' = Some c /\
    pr_Status r' <> StatusUnverified /\
    forall now, now <= c + verdictTTL -> due sweepable now (ja_RouteID job, ep) r' = false.
Proof.
  intros (st1 & Hbody & _ & Hclear)%work_lookup Hroute Hkeys Hopen Hin Hr Hsrc. unfold work_body in Hbody.
  rewrite Hroute, Hkeys, Hopen in Hbody.
  destruct (probe_each _ _ _ _ _ _ _ _ _ _ _) as [[[confirm|e] t] w1] eqn:Ee; [|done].
  destruct (each_answers _ _ _ _ _ _ _ _ _ _ _ _ _ _ Ee _ _ Hin Hr Hsrc) as (r1 & c & Hr1 & Hc & Hs).
  assert (st1.1 = t) as Ht by (destruct (confirm_later _ _ _ _ _ _); [by injection Hbody as <- _|done]).
  rewrite Hclear, Ht, Hr1. set (r2 := (if clear_fails w' then id else cleared (clock w') (ja_RouteID job) (ja_RouteID job, ep)) r1).
  assert (H2 : pr_CheckedAt r2 = Some c /\ pr_Status r2 <> StatusUnverified).
  { unfold r2. destruct (clear_fails w'); [done|].
    destruct (cleared_keeps (clock w') (ja_RouteID job) (ja_RouteID job, ep) r1) as (-> & _ & -> & _). done. }
  destruct H2 as [Hc2 Hs2]. exists r2, c. repeat split; try done. intros now Hnow. by eapply fresh_is_not_due.
Qed.

Lemma group_rows_elem rows acc route eps ep :
  NoDup (map fst acc) -> (route, eps) ∈ group_rows rows acc -> ep ∈ eps ->
  (route, ep) ∈ rows \/ exists eps0, (route, eps0) ∈ acc /\ ep ∈ eps0.
Proof.
  revert acc. induction rows as [|[route1 ep1] rows IH]; simpl; intros acc Hnd Hin Hep; [eauto|].
  apply IH in Hin; [|case_bool_decide|done].
  - destruct Hin as [Hin|(eps0 & Hin & Hep0)]; [left; by right|]. case_bool_decide as Hr.
    + apply list_elem_of_fmap in Hin as ([r0 e0] & Heq & Hin). simpl in Heq. case_bool_decide; simplify_eq; [|eauto].
      apply elem_of_app in Hep0 as [Hep0| ->%list_elem_of_singleton]; [eauto|left; by left].
    + apply elem_of_app in Hin as [Hin|Hin%list_elem_of_singleton]; [eauto|]. injection Hin as -> ->.
      apply list_elem_of_singleton in Hep0 as ->. left. by left.
  - rewrite map_map. erewrite map_ext; [exact Hnd|]. intros [r0 e0]. simpl. by case_bool_decide.
  - rewrite map_app. apply list.NoDup_app. split; [done|]. split; [|apply list.NoDup_singleton]. simpl.
    by intros x Hx ->%list_elem_of_singleton.
Qed.

Lemma in_take {A} n (l : list A) x : x ∈ take n l -> x ∈ l.
Proof. intros H. rewrite <- (take_drop n l). apply elem_of_app. by left. Qed.

Lemma listed_is_due sweepable now t k :
  k ∈ ListRouteProbesDueForReprobe sweepable now t -> exists r, t !! k = Some r /\ due sweepable now k r = true.
Proof.
  intros ([k0 r] & -> & Hin)%in_take%list_elem_of_fmap. rewrite SortFunc_perm in Hin.
  apply in_filter in Hin as [Hin Hdue]. apply elem_of_map_to_list in Hin. eauto.
Qed.

(** The sweeper's list is what the worker can advance, and nothing else: a row it asks
    about is not the operator's, holds no verified verdict, belongs to a route that can
    be probed, and its endpoint is among those the worker's pass on that very job
    probes.  So the bounded batch is never held by rows no pass would answer, and a
    verified endpoint is never looked at again on the sweeper's account. *)
Theorem sweep_asks_what_a_pass_probes sweepable now (t : Rows) route eps ep :
  Wf t -> (route, eps) ∈ group_rows (ListRouteProbesDueForReprobe sweepable now t) [] -> ep ∈ eps ->
  exists r ps, t !! (route, ep) = Some r /\ pr_Source r = SourceProbe /\ pr_Status r <> StatusOK /\
    sweepable route = Some ps /\ ep ∈ pass_endpoints ps eps.
Proof.
  intros Ht Hg Hep. destruct (group_rows_elem _ _ _ _ _ (base.NoDup_nil_2 : NoDup (map fst [])) Hg Hep) as [Hin|(? & Hin & _)];
    [|by apply elem_of_nil in Hin].
  apply listed_is_due in Hin as (r & Hr & Hdue). destruct (Ht _ _ Hr) as (Hp & Hm & Hpr & _).
  unfold due in Hdue. cbn [fst snd] in *. destruct (sweepable route) as [ps|]; [|by rewrite andb_false_r in Hdue].
  apply andb_true_iff in Hdue as [Hdue Hage]. bool_prop. exists r, ps.
  split; [done|]. split; [by destruct (pr_Source r)|]. split.
  { intros Hok. rewrite Hok in Hage. simpl in Hage. by destruct (pr_CheckedAt r). }
  split; [done|]. unfold pass_endpoints. destruct eps as [|e eps]; [by apply elem_of_nil in Hep|].
  apply in_filter. split; [by apply in_filter|]. apply bool_decide_eq_true_2.
  unfold EndpointsForProtocols. apply endpoints_where_spec. unfold ProtocolForEndpoint in Hp.
  destruct (List.find _ _) as [s|] eqn:Es; [|done]. apply List.find_some in Es as [_ Es].
  unfold has_endpoint in Es. exists s, (pr_Protocol r). destruct (endpoint s) as [e0|] eqn:Ee; [|done]. bool_prop.
  subst e0. repeat split; try done. by apply bool_decide_eq_true_2.
Qed.

(** Whatever the catalogue publishes of an enabled route is a candidate of the request
    it invites: a published endpoint is never one the candidate query turns away. *)
Theorem published_routes_are_candidates k (r : ProbeRow) spoken has_key byok_vendor :
  row_ok k r -> published spoken has_key r = true ->
  verdict_admits (bool_decide (ProbeModeForEndpoint k.2 = Some ProbeManual)) byok_vendor (Some r) = true.
Proof.
  intros (_ & -> & _) H. unfold published in H. unfold verdict_admits. bool_prop.
  apply orb_true_iff in H0 as [H0|H0]; bool_prop; rewrite H0.
  - by destruct (pr_ProbeMode r).
  - rewrite H2. done.
Qed.

(** No row of the route holds a verdict, nor is anybody's. *)
Definition blank (route : string) (t : Rows) : Prop :=
  forall ep r, t !! (route, ep) = Some r ->
    pr_Status r = StatusUnverified /\ pr_Source r = SourceProbe /\ pr_CheckedAt r = None.

(** A change of upstream model name starts every endpoint of the route over, the
    operator's own verdicts included: whenever the re-probe commits, no row of the
    route holds a verdict. *)
Theorem a_renamed_route_starts_over {Q} Insert RouteForProbe now has_river route (st : Rows * Q) pr :
  RouteForProbe route = Some pr ->
  let st' := Reprobe Insert RouteForProbe now has_river route st in
  st' = st \/ blank route st'.1.
Proof.
  intros Hroute. unfold Reprobe. rewrite Hroute.
  destruct (Enqueue _ _ _ _ _ _) as [st1|] eqn:E; [|by left]. right.
  assert (Hseed : forall eps t t', seed_each now route eps t = Some t' ->
    blank route t ->
    blank route t').
  { induction eps as [|e eps IH]; simpl; intros t t' H Ht; [by injection H as <-|].
    destruct (SeedRouteProbe _ _ _ _ _ _) as [t1|] eqn:Es; [|done]. apply (IH _ _ H). intros ep r Hr.
    apply insert_checked_some in Es as (p0 & m0 & _ & _ & _ & ->).
    destruct (t !! (route, e)) eqn:Ee; [by eapply Ht|]. apply lookup_insert_Some in Hr as [[_ <-]|[_ Hr]]; [done|].
    by eapply Ht. }
  unfold Enqueue, Seed in E. cbn [fst snd] in E. destruct (seed_each _ _ _ _) as [t|] eqn:Es; [|done].
  assert (Ht : blank route t).
  { eapply Hseed; [exact Es|]. intros ep r. unfold ResetRouteProbes. rewrite lookup_update_rows.
    intros (r0 & Hr0 & ->)%fmap_Some. cbn [fst]. by rewrite bool_decide_eq_true_2. }
  destruct has_river; simpl in E; [|injection E as <-; exact Ht]. destruct (AutoProbeable _); [injection E as <-; exact Ht|].
  destruct (Insert _ _ _ _) as [[q b]|]; [|done]. injection E as <-. intros ep r. simpl.
  unfold MarkRouteProbesEnqueued. rewrite lookup_update_rows. intros (r0 & Hr0 & ->)%fmap_Some. apply Ht in Hr0.
  by case_match.
Qed.

(** ** Markers *)

(** When a pass ends and its cleanup is written, no row of the route is marked in
    flight: not those it answered, and not those another job, still queued, was to
    answer. *)
Theorem a_finished_pass_clears_every_marker {Q W} Insert Run (clock : W -> Z) save_fails clear_fails RouteForProbe Keys
    Open_ has_river (job : Args) (st st' : Rows * Q) (w w' : W) res ep (r : ProbeRow) :
  Work Insert Run clock save_fails clear_fails RouteForProbe Keys Open_ has_river job st w = (res, st', w') ->
  clear_fails w' = false ->
  st'.1 !! (ja_RouteID job, ep) = Some r -> pr_EnqueuedAt r = None.
Proof.
  intros (st1 & _ & _ & Hclear)%work_lookup Hc Hr. rewrite Hclear, Hc in Hr.
  apply fmap_Some in Hr as (r1 & _ & ->). unfold cleared, enqueued. cbn [fst].
  rewrite (bool_decide_eq_true_2 (ja_RouteID job = ja_RouteID job)) by done. simpl.
  case_bool_decide as H; simpl; [done|]. by apply eq_None_not_Some.
Qed.

(** An ask that River drops as a duplicate still marks its row: the queue is what it
    was, the row is in flight, and it stays so through every sweep of the two hours
    after the last such ask. *)
Theorem a_dropped_ask_marks_an_idle_row {Q} Insert now route ep (t : Rows) (q : Q) r :
  Insert q (mkArgs route [ep]) dedupedWithinWindow now = Ok (q, true) ->
  autoProbeable ep = true -> t !! (route, ep) = Some r ->
  exists t' r', Request Insert now true route ep (t, q) = (t', q) /\
    t' !! (route, ep) = Some r' /\ pr_EnqueuedAt r' = Some now /\ pr_Status r' = pr_Status r /\
    forall later, later <= now + inFlightTTL ->
      SweepStaleProbeEnqueued later (later - inFlightTTL) t' !! (route, ep) = Some r'.
Proof.
  intros Hins Hauto Hr. unfold Request, ask. rewrite Hauto. cbn [negb orb fst snd]. rewrite Hins.
  eexists _, (with_enqueued (Some now) now r). split; [done|].
  assert (Hm : MarkRouteProbesEnqueued now route [ep] t !! (route, ep) = Some (with_enqueued (Some now) now r)).
  { unfold MarkRouteProbesEnqueued. rewrite lookup_update_rows, Hr. cbn [fst snd fmap option_fmap option_map].
    rewrite !bool_decide_eq_true_2; [done|by left|done]. }
  repeat split; [done|]. intros later Hl. unfold SweepStaleProbeEnqueued. rewrite lookup_update_rows, Hm. simpl.
  assert (now <? later - inFlightTTL = false) as -> by (apply Z.ltb_ge; lia). done.
Qed.

(** The one endpoint with nothing to send is accepted by name and then goes nowhere: a
    verdict for it is refused by the table itself, as a failure of the server, and a
    probe of it is queued, to probe nothing. *)
Theorem derived_endpoint_is_accepted_and_lost {Q} Insert RouteUnderModel now model route status (st : Rows * Q) ps :
  RouteUnderModel route model = Some ps -> ProtocolOpenAI ∈ ps -> status = StatusOK \/ status = StatusUnsupported ->
  (exists e, OverrideRouteProbe Insert RouteUnderModel now true model route "responses_resources" status st
             = Err (Failed e)) /\
  (forall st', ProbeRoute Insert RouteUnderModel now true model route ["responses_resources"%string] st = Ok st' ->
     exists q b, Insert st.2 (mkArgs route ["responses_resources"%string]) OptsNone now = Ok (q, b) /\ st'.2 = q) /\
  pass_endpoints ps ["responses_resources"%string] = [].
Proof.
  intros Hu Hp Hs. split; [|split].
  - unfold OverrideRouteProbe, routeEndpointsAllowed. rewrite Hu. cbn [endpoints_allowed].
    assert (ProtocolForEndpoint "responses_resources" = Some ProtocolOpenAI) as Hpr by done.
    rewrite Hpr, bool_decide_eq_true_2 by done. unfold Override. rewrite Hpr.
    destruct Hs as [-> | ->]; simpl; eauto.
  - unfold ProbeRoute. destruct (routeEndpointsAllowed _ _ _ _); [|done]. unfold Probe, ask. simpl. intros st'.
    destruct (Insert _ _ _ _) as [[q b]|]; [|done]. intros [= <-]. eauto.
  - done.
Qed.

(** ** A small world *)

Definition demo_queue := list (Args * Z).
Definition demo_Insert (q : demo_queue) (a : Args) (o : InsertOpts) (now : Z) : result string (demo_queue * bool) :=
  let same (x : Args * Z) := bool_decide (ja_RouteID x.1 = ja_RouteID a) && bool_decide (ja_Endpoints x.1 = ja_Endpoints a) in
  match o with
  | OptsDeduped period => if existsb (fun x => same x && (now - period <? x.2)) q then Ok (q, true)
                          else Ok (q ++ [(a, now)], false)
  | _ => Ok (q ++ [(a, now)], false)
  end.

(** The answers to come and the clock. *)
Definition demo_outside := (list ProbeResult * Z)%type.
Definition demo_Run (w : demo_outside) (_ : ProbeTarget) (_ _ : bytes) (_ : string) : ProbeResult * demo_outside :=
  match w.1 with
  | a :: l => (a, (l, w.2 + Second))
  | [] => (mkProbeResult false None None "", w)
  end.
Definition demo_route : ProbedRoute :=
  mkProbedRoute (lit "gpt-x") "prov" [ProtocolAnthropic] "relay" (lit "https://relay") (Some ∅) (lit "{}") (Some ∅).
Definition demo_Work (job : Args) (st : Rows * demo_queue) (w : demo_outside) :=
  Work demo_Insert demo_Run snd (fun _ => false) (fun _ => false)
    (fun r => if bool_decide (r = "r1"%string) then Some demo_route else None)
    (fun _ => Some [("k1", "sealed")]%string) (fun _ _ => Ok (lit "sk-1")) true job st w.
Definition demo_row (st : ProbeStatus) (src : ProbeSource) (checked code enq : option Z) : ProbeRow :=
  mkProbeRow ProtocolAnthropic ProbeAuto st src checked None code "" enq 0.
Definition miss : ProbeResult := mkProbeResult false (Some 12) (Some 404) "".
Definition messages_row (r : ProbeRow) : Rows := {[("r1", "messages")%string := r]}.

Lemma withdrawal_needs_a_recent_miss_witness :
  let st := (messages_row (demo_row StatusOK SourceProbe (Some 0) (Some 404) None), [] : demo_queue) in
  exists r', (demo_Work (mkArgs "r1" []) st ([miss; miss], Minute)).1.2.1 !! ("r1", "messages")%string = Some r' /\
             pr_Status r' = StatusUnsupported.
Proof.
  intros st. destruct (demo_Work (mkArgs "r1" []) st ([miss; miss], Minute)) as [[res st'] w'] eqn:E.
  destruct (withdrawal_needs_a_recent_miss demo_Insert demo_Run snd (fun _ => false) (fun _ => false) _ _ _ true
              (mkArgs "r1" []) st st' _ _ _ ("r1", "messages")%string
              (demo_row StatusOK SourceProbe (Some 0) (Some 404) None) E) as (r' & Hr' & _);
    [constructor|done|done|].
  exists r'. split; [done|].
  assert (Hs : pr_Status <$> (demo_Work (mkArgs "r1" []) st ([miss; miss], Minute)).1.2.1 !! ("r1", "messages")%string
               = Some StatusUnsupported) by (by vm_compute).
  rewrite E in Hs. cbn [fst snd] in Hs. rewrite Hr' in Hs. by injection Hs.
Defined.

Lemma silence_counts_as_a_miss_witness :
  exists t1 t2, SaveRouteProbe 0 "r1" "messages" (Some ProtocolAnthropic) (Some ProbeAuto) StatusFailed None None "timeout"
    (messages_row (demo_row StatusOK SourceProbe (Some 0) (Some 200) None)) = Some (Some StatusOK, t1) /\
  SaveRouteProbe Minute "r1" "messages" (Some ProtocolAnthropic) (Some ProbeAuto) StatusUnsupported (Some 3) (Some 404) ""
    t1 = Some (Some StatusUnsupported, t2).
Proof. by eapply silence_counts_as_a_miss. Defined.

Lemma verdict_rows_stay_well_formed_witness :
  exists st : Rows * demo_queue, Wf st.1 /\ size st.1 = 2%nat.
Proof.
  assert (Hn : match Enqueue demo_Insert 0 true "r1" [ProtocolAnthropic] (∅, [] : demo_queue) with
               | Ok st => size st.1 | Err _ => 0%nat end = 2%nat) by (by vm_compute).
  destruct (Enqueue demo_Insert 0 true "r1" [ProtocolAnthropic] (∅, [] : demo_queue)) as [st|] eqn:E; [|done].
  exists st. split; [|done].
  apply (verdict_rows_stay_well_formed demo_Insert demo_Run snd (fun _ => false) (fun _ => false) (fun _ => None)
           (fun _ => None) (fun _ _ => Ok []) (fun _ _ => None) (fun _ => None) []).
  apply rtc_once. by eapply touch_enqueue.
Defined.

Lemma a_pass_answers_what_it_was_asked_witness :
  let st := (messages_row (demo_row StatusUnverified SourceProbe None None (Some 0)), [] : demo_queue) in
  let out := demo_Work (mkArgs "r1" ["messages"]%string) st ([miss], Minute) in
  out.1.1 = Ok () /\ exists r' c, out.1.2.1 !! ("r1", "messages")%string = Some r' /\ pr_CheckedAt r' = Some c.
Proof.
  intros st out. assert (Hok : out.1.1 = Ok ()) by (by vm_compute). split; [done|].
  destruct out as [[res st'] w'] eqn:E. simpl in Hok. subst res.
  destruct (a_pass_answers_what_it_was_asked demo_Insert demo_Run snd (fun _ => false) (fun _ => false) _ _ _
              (fun _ => None) true (mkArgs "r1" ["messages"]%string) st st' _ _ demo_route "k1" "sealed" [] (lit "sk-1") "messages"
              (demo_row StatusUnverified SourceProbe None None (Some 0)) E) as (r' & c & Hr' & Hc & _); try done.
  - apply list_elem_of_In. vm_compute. by left.
  - by exists r', c.
Defined.

Lemma sweep_asks_what_a_pass_probes_witness :
  exists r ps, messages_row (demo_row StatusFailed SourceProbe (Some 0) (Some 500) None) !! ("r1", "messages")%string = Some r /\
    pr_Status r <> StatusOK /\ "messages"%string ∈ pass_endpoints ps ["messages"]%string.
Proof.
  destruct (sweep_asks_what_a_pass_probes (fun _ => Some [ProtocolAnthropic]) (25 * 60 * Minute)
              (messages_row (demo_row StatusFailed SourceProbe (Some 0) (Some 500) None)) "r1" ["messages"]%string "messages")
    as (r & ps & Hr & _ & Hs & _ & Hin).
  - apply map_Forall_singleton. unfold row_ok. simpl. intuition done.
  - apply list_elem_of_In. vm_compute. by left.
  - by left.
  - by exists r, ps.
Defined.

Lemma published_routes_are_candidates_witness :
  verdict_admits false false (Some (demo_row StatusUnverified SourceProbe None None None)) = true.
Proof.
  apply (published_routes_are_candidates ("r1", "messages")%string _ [ProtocolAnthropic] false); [|by vm_compute].
  unfold row_ok. simpl. intuition done.
Defined.

Lemma a_renamed_route_starts_over_witness :
  let st := (messages_row (demo_row StatusUnsupported SourceOperator (Some 0) None None), [] : demo_queue) in
  let st' := Reprobe demo_Insert (fun _ => Some demo_route) Minute true "r1" st in
  forall r, st'.1 !! ("r1", "messages")%string = Some r -> pr_Status r = StatusUnverified.
Proof.
  intros st st'. destruct (a_renamed_route_starts_over demo_Insert (fun _ => Some demo_route) Minute true "r1" st demo_route
                             eq_refl) as [H|H].
  - exfalso. assert (length st'.2 = 1%nat) as Hl by (by vm_compute). fold st' in H. by rewrite H in Hl.
  - intros r Hr. by apply H in Hr as [-> _].
Defined.

(** A paid generation the operator asked for is waiting; the pass over the text
    endpoints ends, and the page offers to buy it again. *)
Definition images_pending : Rows :=
  {[("r1", "images")%string := mkProbeRow ProtocolOpenAI ProbeManual StatusUnverified SourceProbe None None None "" (Some 5) 5]}.

Lemma a_finished_pass_clears_every_marker_witness :
  let q := [(mkArgs "r1" ["images"]%string, 5)] in
  let out := demo_Work (mkArgs "r1" []) (images_pending, q) ([], Minute) in
  out.1.2.2 = q /\ forall r, out.1.2.1 !! ("r1", "images")%string = Some r -> pr_EnqueuedAt r = None.
Proof.
  intros q out. split; [by vm_compute|]. intros r Hr. destruct out as [[res st'] w'] eqn:E.
  eapply (a_finished_pass_clears_every_marker demo_Insert demo_Run snd (fun _ => false) (fun _ => false) _ _ _ true
            (mkArgs "r1" []) _ st' _ _ _ "images" r E); done.
Defined.

Lemma a_dropped_ask_marks_an_idle_row_witness :
  let q := [(mkArgs "r1" ["messages"]%string, 0)] in
  exists t' r', Request demo_Insert Minute true "r1" "messages"
      (messages_row (demo_row StatusFailed SourceProbe (Some 0) (Some 500) None), q) = (t', q) /\
    t' !! ("r1", "messages")%string = Some r' /\ pr_EnqueuedAt r' = Some Minute.
Proof.
  intros q. destruct (a_dropped_ask_marks_an_idle_row demo_Insert Minute "r1" "messages"
    (messages_row (demo_row StatusFailed SourceProbe (Some 0) (Some 500) None)) q
    (demo_row StatusFailed SourceProbe (Some 0) (Some 500) None)) as (t' & r' & H1 & H2 & H3 & _);
    [by vm_compute|by vm_compute|reflexivity|].
  exists t', r'. split; [exact H1|]. split; [exact H2|exact H3].
Defined.

Lemma derived_endpoint_is_accepted_and_lost_witness :
  exists e, OverrideRouteProbe demo_Insert (fun _ _ => Some [ProtocolOpenAI]) 0 true "m1" "r1" "responses_resources" StatusOK
    (∅, []) = Err (Failed e).
Proof.
  apply (derived_endpoint_is_accepted_and_lost demo_Insert (fun _ _ => Some [ProtocolOpenAI]) 0 "m1" "r1" StatusOK (∅, [])
           [ProtocolOpenAI]); [done|by left|by left].
Defined.
