(* ===== verification/Idempotency.v ===== *)
(** * Idempotency keys: [foundation/httpx/idempotency.go], [idempotency_store.go] and
    [idempotency_reaper.go]

    The middleware in front of the administration and console APIs: which requests it
    covers, what they are keyed and fingerprinted by, the statements over
    [idempotency_keys], and one attempt as the statements it makes, so that attempts on
    one key may interleave anywhere. *)
From S2P Require Import Prelude GoStr BreakerStore Http.

Open Scope Z_scope.

(** ** Constants *)

Definition idempotencyTTL : Z := 24 * 3600 * Second.
Definition inFlightTimeout : Z := 60 * Second.
Definition maxCapturedBody : Z := 2 ^ 20.
Definition maxKeyLength : Z := 255.

Definition CommonValidation : string := "common.validation".
Definition CommonPayloadTooLarge : string := "common.payload_too_large".
Definition CommonInternal : string := "common.internal".
Definition CommonIdempotencyMismatch : string := "common.idempotency_mismatch".
Definition CommonIdempotencyInFlight : string := "common.idempotency_in_flight".

(** ** What a handler answers, captured *)

(** [captureWriter], by its fields; [cw_sent] is what reached the caller. *)
Record captureWriter := mkCapture { cw_code : Z; cw_buf : bytes; cw_overflow : bool; cw_sent : bytes }.
Definition fresh_capture : captureWriter := mkCapture 0 [] false [].

Definition WriteHeader (w : captureWriter) (code : Z) : captureWriter :=
  mkCapture (if cw_code w =? 0 then code else cw_code w) (cw_buf w) (cw_overflow w) (cw_sent w).
Definition Write (w : captureWriter) (b : bytes) : captureWriter :=
  let code := if cw_code w =? 0 then 200 else cw_code w in
  let sent := cw_sent w ++ b in
  if cw_overflow w then mkCapture code (cw_buf w) true sent
  else if maxCapturedBody <? len (cw_buf w) + len b then mkCapture code [] true sent
  else mkCapture code (cw_buf w ++ b) false sent.
Definition status (w : captureWriter) : Z := if cw_code w =? 0 then 200 else cw_code w.

(** A handler's calls, in order. *)
Inductive Call := CallHeader (code : Z) | CallWrite (b : bytes).
Definition call (w : captureWriter) (c : Call) : captureWriter :=
  match c with CallHeader code => WriteHeader w code | CallWrite b => Write w b end.
Definition captured (calls : list Call) : captureWriter := fold_left call calls fresh_capture.

Definition replayHeaderBlocklist : list bytes :=
  [lit "Set-Cookie"; lit "X-Request-Id"; lit "X-Ratelimit-Limit"; lit "X-Ratelimit-Remaining"; lit "X-Ratelimit-Reset"].
Definition storableHeaders (h : Header) : Header :=
  filter (fun kv => CanonicalHeaderKey kv.1 ∉ replayHeaderBlocklist) h.

(** One handler's answer: its header map and its calls. *)
Record Response := mkResponse { rs_Header : Header; rs_Calls : list Call }.
Definition rs_status (r : Response) : Z := status (captured (rs_Calls r)).

(** What the row keeps. *)
Record Stored := mkStoredResponse { st_Status : Z; st_Headers : Header; st_Body : bytes }.
Definition stored_of (r : Response) : Stored :=
  mkStoredResponse (rs_status r) (storableHeaders (rs_Header r)) (cw_buf (captured (rs_Calls r))).
(** Which outcomes are kept at all. *)
Definition worth_keeping (r : Response) : bool :=
  negb (cw_overflow (captured (rs_Calls r))) && negb ((500 <=? rs_status r) || (rs_status r =? 429)).

(** [writeReplay], over the headers the outer middleware has set already. *)
Definition writeReplay (outer : Header) (s : Stored) : Header * Z * bytes :=
  (header_set (union_with (fun a b => Some (a ++ b)) outer (st_Headers s)) (lit "Idempotency-Replayed") (lit "true"),
   st_Status s, st_Body s).

(** ** What a request is keyed by *)

Record Request := mkRequest {
  rq_Method : bytes; rq_Path : bytes; rq_Query : bytes;          (** the query as [Values.Encode] writes it *)
  rq_ContentType : bytes; rq_Key : bytes;
  rq_Body : result bool bytes;               (** an error that is the plane's limit, or another *)
  rq_Scope : bytes; rq_Subject : bytes; rq_ClientIP : bytes;
}.

Definition NUL : ascii := Ascii.zero.
(** What [requestHash] feeds to the hash. *)
Definition fingerprint (r : Request) (body : bytes) : bytes :=
  concat (map (fun part => part ++ [NUL]) [rq_Method r; rq_Path r; rq_Query r; rq_ContentType r]) ++ body.
Definition scopeOf (r : Request) : bytes :=
  rq_Scope r ++ (if beq (rq_Subject r) [] then lit ":ip:" ++ rq_ClientIP r else lit ":" ++ rq_Subject r).

(** ** The table *)

Inductive RowStatus := InFlight | Completed (s : Stored).
Record Row := mkRow { w_RequestHash : bytes; w_Status : RowStatus; w_ExpiresAt : Z; w_UpdatedAt : Z }.
Abbreviation KeyID := (bytes * bytes)%type.
Abbreviation Table := (gmap (bytes * bytes) Row).

Definition in_flight (w : Row) : bool := match w_Status w with InFlight => true | Completed _ => false end.

(** [claim]; both answer whether a row came back. *)
Definition claim (now : Z) (k : KeyID) (hash : bytes) (expiresAt : Z) (tbl : Table) : bool * Table :=
  match tbl !! k with
  | Some _ => (false, tbl)
  | None => (true, <[k := mkRow hash InFlight expiresAt now]> tbl)
  end.
Definition matches (hash : bytes) (w : Row) : bool := beq (w_RequestHash w) hash && in_flight w.
Definition takeOver (now : Z) (k : KeyID) (hash : bytes) (expiresAt staleBefore : Z) (tbl : Table) : bool * Table :=
  match tbl !! k with
  | Some w => if matches hash w && (w_UpdatedAt w <? staleBefore)
              then (true, <[k := mkRow hash InFlight expiresAt now]> tbl) else (false, tbl)
  | None => (false, tbl)
  end.
Definition complete (now : Z) (k : KeyID) (hash : bytes) (s : Stored) (tbl : Table) : Table :=
  match tbl !! k with
  | Some w => if matches hash w then <[k := mkRow hash (Completed s) (w_ExpiresAt w) now]> tbl else tbl
  | None => tbl
  end.
Definition vacate (k : KeyID) (hash : bytes) (tbl : Table) : Table :=
  match tbl !! k with Some w => if matches hash w then delete k tbl else tbl | None => tbl end.
(** [IdempotencyReapWorker.Work]. *)
Definition deleteExpired (now : Z) (tbl : Table) : Table := filter (fun kv => now <= w_ExpiresAt kv.2) tbl.

(** ** One attempt *)

Inductive Answer :=
  | Own (r : Response)        (** the handler's, as it was written *)
  | Replayed (s : Stored)
  | Refused (code : string).

(** Where an attempt is: before which statement, inside the handler, or done. *)
Inductive Stage :=
  | Claiming | Reading | Reclaiming | TakingOver
  | Executing
  | Storing (r : Response)
  | Done (a : Answer).

Record Attempt := mkAttempt {
  at_Key : KeyID; at_Hash : bytes;
  at_Born : Z;               (** when it computed [expiresAt] *)
  at_Stage : Stage;
}.
Definition with_stage (a : Attempt) (s : Stage) : Attempt := mkAttempt (at_Key a) (at_Hash a) (at_Born a) s.

(** What happens next at instant [now]: a failing statement, or the handler returning. *)
Definition advance (now : Z) (fails : bool) (resp : Response) (a : Attempt) (tbl : Table) : Stage * Table :=
  let k := at_Key a in
  let hash := at_Hash a in
  match at_Stage a with
  | Claiming =>
      if fails then (Done (Refused CommonInternal), tbl)
      else let '(ok, tbl) := claim now k hash (at_Born a + idempotencyTTL) tbl in
           (if ok then Executing else Reading, tbl)
  | Reading =>
      if fails then (Done (Refused CommonInternal), tbl)
      else match tbl !! k with
           | None => (Reclaiming, tbl)
           | Some w =>
               if negb (beq (w_RequestHash w) hash) then (Done (Refused CommonIdempotencyMismatch), tbl)
               else match w_Status w with
                    | Completed s => (Done (Replayed s), tbl)
                    | InFlight => (TakingOver, tbl)
                    end
           end
  | Reclaiming =>
      if fails then (Done (Refused CommonInternal), tbl)
      else let '(ok, tbl) := claim now k hash (at_Born a + idempotencyTTL) tbl in
           (if ok then Executing else Done (Refused CommonInternal), tbl)
  | TakingOver =>
      if fails then (Done (Refused CommonInternal), tbl)
      else let '(ok, tbl) := takeOver now k hash (now + idempotencyTTL) (now - inFlightTimeout) tbl in
           (if ok then Executing else Done (Refused CommonIdempotencyInFlight), tbl)
  | Executing => (Storing resp, tbl)
  | Storing r =>
      (Done (Own r),
       if fails then tbl
       else if worth_keeping r then complete now k hash (stored_of r) tbl else vacate k hash tbl)
  | Done x => (Done x, tbl)
  end.

(** The middleware before its first statement: pass the request by, refuse it, or begin. *)
Inductive Entry := Bypass | Refuse (code : string) | Begin (a : Attempt).
Definition Idempotency (sha256hex : bytes -> bytes) (now : Z) (r : Request) : Entry :=
  if negb (beq (rq_Method r) (lit "POST")) || beq (rq_Key r) [] then Bypass
  else if maxKeyLength <? len (rq_Key r) then Refuse CommonValidation
  else match rq_Body r with
       | Err limit => Refuse (if limit then CommonPayloadTooLarge else CommonValidation)
       | Ok body =>
           if maxCapturedBody <? len body then Refuse CommonPayloadTooLarge
           else Begin (mkAttempt (scopeOf r, rq_Key r) (sha256hex (fingerprint r body)) now Claiming)
       end.

(** An attempt run alone, no statement failing; five moves at most. *)
Fixpoint run (fuel : nat) (now : Z) (resp : Response) (a : Attempt) (tbl : Table) : Stage * Table :=
  match fuel with
  | O => (at_Stage a, tbl)
  | S n => match at_Stage a with
           | Done x => (Done x, tbl)
           | _ => let '(s, tbl) := advance now false resp a tbl in run n now resp (with_stage a s) tbl
           end
  end.
Definition serve (now : Z) (resp : Response) (a : Attempt) (tbl : Table) : Stage * Table := run 5 now resp a tbl.

(** The document's table of what a key answers. *)
Definition contract (now : Z) (resp : Response) (a : Attempt) (tbl : Table) : Answer * option Row :=
  let executes expiresAt :=
    (Own resp, if worth_keeping resp then Some (mkRow (at_Hash a) (Completed (stored_of resp)) expiresAt now) else None) in
  match tbl !! at_Key a with
  | None => executes (at_Born a + idempotencyTTL)
  | Some w =>
      if negb (beq (w_RequestHash w) (at_Hash a)) then (Refused CommonIdempotencyMismatch, Some w)
      else match w_Status w with
           | Completed s => (Replayed s, Some w)
           | InFlight => if w_UpdatedAt w <? now - inFlightTimeout then executes (now + idempotencyTTL)
                         else (Refused CommonIdempotencyInFlight, Some w)
           end
  end.

(** ** Attempts together *)

Record System := mkSystem { sy_Now : Z; sy_Table : Table; sy_Attempts : list Attempt }.

Inductive step : System -> System -> Prop :=
  | s_tick now now' tbl l : now <= now' -> step (mkSystem now tbl l) (mkSystem now' tbl l)
  | s_arrive now tbl l k hash :
      step (mkSystem now tbl l) (mkSystem now tbl (l ++ [mkAttempt k hash now Claiming]))
  | s_move now tbl l1 a l2 fails resp :
      step (mkSystem now tbl (l1 ++ a :: l2))
        (let '(s, tbl') := advance now fails resp a tbl in mkSystem now tbl' (l1 ++ with_stage a s :: l2))
  | s_crash now tbl l1 a l2 : step (mkSystem now tbl (l1 ++ a :: l2)) (mkSystem now tbl (l1 ++ l2))
  | s_reap now tbl l : step (mkSystem now tbl l) (mkSystem now (deleteExpired now tbl) l).

(** Inside the handler, or about to store what it answered. *)
Definition holds_slot (a : Attempt) : bool := match at_Stage a with Executing | Storing _ => true | _ => false end.
Definition finished (a : Attempt) : bool := match at_Stage a with Done _ => true | _ => false end.
(** Every attempt that is not over is within the minute a first attempt is given. *)
Definition prompt (s : System) : Prop :=
  Forall (fun a => finished a = false -> at_Born a <= sy_Now s <= at_Born a + inFlightTimeout) (sy_Attempts s).
Definition prompt_step (s s' : System) : Prop := step s s' /\ prompt s'.

(** ** Helpers *)

Lemma claim_spec now k hash e tbl :
  claim now k hash e tbl =
  match tbl !! k with Some _ => (false, tbl) | None => (true, <[k := mkRow hash InFlight e now]> tbl) end.
Proof. done. Qed.

Lemma matches_spec hash w : matches hash w = true <-> w_RequestHash w = hash /\ in_flight w = true.
Proof. unfold matches. by rewrite andb_true_iff, beq_spec. Qed.

(** A move touches its own key only. *)
Lemma advance_other now fails resp a tbl k :
  k <> at_Key a -> (advance now fails resp a tbl).2 !! k = tbl !! k.
Proof.
  intros Hk. unfold advance, claim, takeOver, complete, vacate.
  destruct (at_Stage a) as [| | | | |r|x]; destruct fails; try done; destruct (tbl !! at_Key a) as [w|] eqn:E; cbn [snd];
    try done; try by rewrite lookup_insert_ne.
  - destruct (negb _); [done|]. by destruct (w_Status w).
  - destruct (_ && _); cbn [snd]; [by rewrite lookup_insert_ne|done].
  - destruct (worth_keeping r), (matches _ _); try done; by rewrite ?lookup_insert_ne, ?lookup_delete_ne.
  - by destruct (worth_keeping r).
Qed.

(** Leaving a stage outside the handler for the handler takes the slot. *)
Lemma advance_takes now fails resp a tbl s tbl' :
  advance now fails resp a tbl = (s, tbl') -> holds_slot a = false -> holds_slot (with_stage a s) = true ->
  (tbl !! at_Key a = None /\ tbl' !! at_Key a = Some (mkRow (at_Hash a) InFlight (at_Born a + idempotencyTTL) now)) \/
  (exists w, tbl !! at_Key a = Some w /\ matches (at_Hash a) w = true /\ w_UpdatedAt w < now - inFlightTimeout /\
     tbl' !! at_Key a = Some (mkRow (at_Hash a) InFlight (now + idempotencyTTL) now)).
Proof.
  unfold advance, claim, takeOver, holds_slot, with_stage. cbn [at_Stage].
  destruct (at_Stage a) as [| | | | |r|x]; try done; destruct fails; try by intros [= <- <-].
  - destruct (tbl !! at_Key a) eqn:E; intros [= <- <-] _ H; [done|]. left. by rewrite lookup_insert_eq.
  - destruct (tbl !! at_Key a) as [w|] eqn:E; [|by intros [= <- <-]].
    destruct (negb _); [by intros [= <- <-]|]. by destruct (w_Status w); intros [= <- <-].
  - destruct (tbl !! at_Key a) eqn:E; intros [= <- <-] _ H; [done|]. left. by rewrite lookup_insert_eq.
  - destruct (tbl !! at_Key a) as [w|] eqn:E; [|by intros [= <- <-]].
    destruct (matches _ _ && _) eqn:Em; [|by intros [= <- <-]]. intros [= <- <-] _ _. right. exists w.
    bool_prop. rewrite lookup_insert_eq. split_and!; [done|tauto|lia|done].
Qed.

(** A move that does not take the slot, of an attempt that does not hold it, changes nothing. *)
Lemma advance_idle now fails resp a tbl s tbl' :
  advance now fails resp a tbl = (s, tbl') -> holds_slot a = false -> holds_slot (with_stage a s) = false -> tbl' = tbl.
Proof.
  unfold advance, claim, takeOver, holds_slot, with_stage. cbn [at_Stage].
  destruct (at_Stage a) as [| | | | |r|x]; try done; destruct fails; try by intros [= <- <-].
  - by destruct (tbl !! at_Key a); intros [= <- <-].
  - destruct (tbl !! at_Key a) as [w|] eqn:E; [|by intros [= <- <-]].
    destruct (negb _); [by intros [= <- <-]|]. by destruct (w_Status w); intros [= <- <-].
  - by destruct (tbl !! at_Key a); intros [= <- <-].
  - destruct (tbl !! at_Key a) as [w|] eqn:E; [|by intros [= <- <-]].
    by destruct (matches _ _ && _); intros [= <- <-].
Qed.

(** A completed row is only ever removed by the reaper, after its time. *)
Lemma advance_keeps_completed now fails resp a tbl k w st :
  tbl !! k = Some w -> w_Status w = Completed st -> (advance now fails resp a tbl).2 !! k = Some w.
Proof.
  intros Hw Hs. destruct (decide (k = at_Key a)) as [->|Hne]; [|by rewrite advance_other].
  assert (Hm : matches (at_Hash a) w = false) by (unfold matches, in_flight; by rewrite Hs, andb_false_r).
  unfold advance, claim, takeOver, complete, vacate.
  destruct (at_Stage a) as [| | | | |r|x]; destruct fails; try done; rewrite Hw, ?Hm, ?Hs; cbn [andb snd]; try done.
  - by destruct (negb _).
  - by destruct (worth_keeping r).
Qed.

(** The slot invariant: whoever is inside the handler has the row to itself, younger
    than itself and with its day ahead of it. *)
Definition slot_of (tbl : Table) (a : Attempt) : Prop :=
  exists w, tbl !! at_Key a = Some w /\ in_flight w = true /\
    at_Born a <= w_UpdatedAt w /\ at_Born a + idempotencyTTL <= w_ExpiresAt w.
Definition holders (l : list Attempt) : list Attempt := List.filter holds_slot l.
Definition slotted (tbl : Table) (l : list Attempt) : Prop := NoDup (map at_Key l) /\ Forall (slot_of tbl) l.
Definition slots (s : System) : Prop := slotted (sy_Table s) (holders (sy_Attempts s)).

Lemma holders_app l1 l2 : holders (l1 ++ l2) = holders l1 ++ holders l2.
Proof. apply List.filter_app. Qed.

Lemma slotted_perm tbl l l' : l ≡ₚ l' -> slotted tbl l -> slotted tbl l'.
Proof.
  intros Hp [H1 H2]. split.
  - eapply (NoDup_Permutation_proper _ (map at_Key l)); [|exact H1]. symmetry. by apply Permutation.Permutation_map.
  - rewrite list.Forall_forall in *. intros b Hb. apply H2. by rewrite Hp.
Qed.

Lemma slotted_mid tbl l1 a l2 :
  slotted tbl (holders (l1 ++ a :: l2)) <->
  slotted tbl ((if holds_slot a then [a] else []) ++ holders (l1 ++ l2)).
Proof.
  assert (Hp : holders (l1 ++ a :: l2) ≡ₚ (if holds_slot a then [a] else []) ++ holders (l1 ++ l2)).
  { rewrite !holders_app. unfold holders at 2. cbn [List.filter].
    destruct (holds_slot a); cbn [app]; [|done]. symmetry. apply Permutation.Permutation_middle. }
  split; apply slotted_perm; [done|by symmetry].
Qed.

Lemma slots_drop now tbl l1 a l2 : slots (mkSystem now tbl (l1 ++ a :: l2)) -> slots (mkSystem now tbl (l1 ++ l2)).
Proof.
  unfold slots. cbn [sy_Attempts sy_Table]. rewrite slotted_mid. destruct (holds_slot a); [|done].
  unfold slotted. cbn [app map]. rewrite list.NoDup_cons, list.Forall_cons. tauto.
Qed.

Lemma at_key_with_stage a s : at_Key (with_stage a s) = at_Key a.
Proof. done. Qed.

Lemma slots_others (tbl tbl' : Table) k (l : list Attempt) :
  (forall k', k' <> k -> tbl' !! k' = tbl !! k') -> k ∉ map at_Key l ->
  Forall (slot_of tbl) l -> Forall (slot_of tbl') l.
Proof.
  intros Ht Hk H. induction H as [|b l (w & Hw & Hr) H IH]; [done|]. cbn [map] in Hk.
  apply not_elem_of_cons in Hk as [Hne Hk]. constructor; [|by apply IH]. exists w. by rewrite Ht.
Qed.

Lemma holder_in l b : b ∈ holders l -> b ∈ l /\ finished b = false.
Proof.
  unfold holders. intros Hb. apply list_elem_of_In, List.filter_In in Hb as [Hb Hh].
  apply list_elem_of_In in Hb. split; [done|]. unfold holds_slot in Hh. unfold finished. by destruct (at_Stage b).
Qed.

(** While every attempt is prompt, a slot somebody holds is not taken. *)
Lemma slot_is_not_taken now fails resp tbl l1 a l2 s tbl' :
  Forall (slot_of tbl) (holders (l1 ++ l2)) -> prompt (mkSystem now tbl (l1 ++ a :: l2)) ->
  advance now fails resp a tbl = (s, tbl') -> holds_slot a = false -> holds_slot (with_stage a s) = true ->
  at_Key a ∉ map at_Key (holders (l1 ++ l2)).
Proof.
  unfold prompt. cbn [sy_Attempts sy_Now]. rewrite !list.Forall_forall. intros Hs Hp Ha Eh Eh' Hin.
  apply list_elem_of_fmap in Hin as (b & Hk & Hb). destruct (Hs b Hb) as (w & Hw & _ & Hu & _).
  apply holder_in in Hb as [Hb Hf]. rewrite <- Hk in Hw.
  specialize (Hp b ltac:(apply elem_of_app in Hb as [?|?]; apply elem_of_app; rewrite ?elem_of_cons; auto) Hf).
  destruct (advance_takes _ _ _ _ _ _ _ Ha Eh Eh') as [[Hn _]|(w' & Hw' & _ & Hst & _)]; [congruence|].
  rewrite Hw in Hw'. injection Hw' as <-. lia.
Qed.

(** Taking a slot gives one. *)
Lemma slot_taken now fails resp tbl l1 a l2 s tbl' :
  prompt (mkSystem now tbl (l1 ++ a :: l2)) -> advance now fails resp a tbl = (s, tbl') ->
  holds_slot a = false -> holds_slot (with_stage a s) = true -> slot_of tbl' (with_stage a s).
Proof.
  unfold prompt. cbn [sy_Attempts sy_Now]. rewrite list.Forall_forall. intros Hp Ha Eh Eh'.
  assert (Hf : finished a = false).
  { unfold finished, advance in *. destruct (at_Stage a); try done. by injection Ha as <- <-. }
  specialize (Hp a ltac:(apply elem_of_app; right; apply elem_of_cons; by left) Hf).
  unfold slot_of. rewrite at_key_with_stage.
  destruct (advance_takes _ _ _ _ _ _ _ Ha Eh Eh') as [[_ Hw]|(w' & _ & _ & _ & Hw)];
    rewrite Hw; eexists; split_and!; try reflexivity;
    cbn [at_Born with_stage w_UpdatedAt w_ExpiresAt]; lia.
Qed.

(** Leaving the handler for the store changes nothing. *)
Lemma advance_inside now fails resp a tbl s tbl' :
  advance now fails resp a tbl = (s, tbl') -> holds_slot a = true -> holds_slot (with_stage a s) = true -> tbl' = tbl.
Proof.
  unfold advance, holds_slot, with_stage. cbn [at_Stage].
  destruct (at_Stage a); try done; intros [= <- <-]; done.
Qed.

Lemma slots_move now fails resp tbl l1 a l2 s tbl' :
  slots (mkSystem now tbl (l1 ++ a :: l2)) -> prompt (mkSystem now tbl (l1 ++ a :: l2)) ->
  advance now fails resp a tbl = (s, tbl') ->
  slots (mkSystem now tbl' (l1 ++ with_stage a s :: l2)).
Proof.
  intros Hs Hp Ha. unfold slots in Hs |- *. cbn [sy_Attempts sy_Table] in Hs |- *.
  assert (Hoth : forall k', k' <> at_Key a -> tbl' !! k' = tbl !! k').
  { intros k' Hk. pose proof (advance_other now fails resp a tbl k' Hk) as H. by rewrite Ha in H. }
  rewrite slotted_mid in Hs |- *. unfold slotted in *.
  destruct (holds_slot a) eqn:Eh; destruct (holds_slot (with_stage a s)) eqn:Eh'; cbn [app map] in *.
  - rewrite (advance_inside _ _ _ _ _ _ _ Ha Eh Eh'). destruct Hs as [Hnd Hall]. split; [exact Hnd|].
    apply list.Forall_cons in Hall. by apply list.Forall_cons.
  - destruct Hs as [[Hni Hnd]%list.NoDup_cons [_ Hrest]%list.Forall_cons]. split; [done|]. by eapply slots_others.
  - destruct Hs as [Hnd Hrest]. pose proof (slot_is_not_taken _ _ _ _ _ _ _ _ _ Hrest Hp Ha Eh Eh') as Hni.
    split; [by apply list.NoDup_cons|]. apply list.Forall_cons. split; [by eapply slot_taken|by eapply slots_others].
  - by rewrite (advance_idle _ _ _ _ _ _ _ Ha Eh Eh').
Qed.

Lemma slots_step s s' : slots s -> prompt s -> step s s' -> slots s'.
Proof.
  intros Hs Hp Hst. destruct Hst as [| now tbl l k hash | now tbl l1 a l2 fails resp | now tbl l1 a l2 | now tbl l].
  - done.
  - unfold slots in *. cbn [sy_Attempts sy_Table] in *. rewrite holders_app. cbn. by rewrite app_nil_r.
  - destruct (advance now fails resp a tbl) as [st tbl'] eqn:Ha. by eapply slots_move.
  - by eapply slots_drop.
  - destruct Hs as [Hnd Hsl]. split; [done|]. cbn [sy_Attempts sy_Table] in *. rewrite list.Forall_forall in *.
    intros a Ha. destruct (Hsl a Ha) as (w & Hw & Hf & Hu & He). exists w. split; [|done].
    unfold deleteExpired. apply map_lookup_filter_Some. split; [done|]. cbn [snd].
    unfold prompt in Hp. cbn [sy_Attempts sy_Now] in Hp. rewrite list.Forall_forall in Hp.
    apply holder_in in Ha as [Ha Hfin]. specialize (Hp a Ha Hfin).
    assert (inFlightTimeout <= idempotencyTTL) by (vm_compute; discriminate). lia.
Qed.

Lemma slots_run s s' : rtc prompt_step s s' -> slots s -> prompt s -> slots s'.
Proof.
  intros Hr. induction Hr as [|x y z [Hxy Hy] Hr IH]; [done|]. intros Hs Hp.
  apply IH; [by eapply slots_step|done].
Qed.

(** ** Properties *)

(** C7: while no attempt outlives the minute it is given, one key is one execution: from no
    attempts at all and whatever rows a crash left behind, at every point of every
    interleaving — statements of any number of attempts on any keys, failing statements,
    crashes, the reaper — no two attempts on one key are inside the handler, and the one
    that is has its row in flight. *)
Theorem one_execution_at_a_time now tbl s a b :
  rtc prompt_step (mkSystem now tbl []) s ->
  forall l1 l2 l3, sy_Attempts s = l1 ++ a :: l2 ++ b :: l3 ->
  holds_slot a = true ->
  (at_Key a = at_Key b -> holds_slot b = false) /\ in_flight <$> sy_Table s !! at_Key a = Some true.
Proof.
  intros Hr. assert (Hs : slots s) by (eapply slots_run; [exact Hr|split|]; constructor).
  intros l1 l2 l3 El Ha. destruct Hs as [Hnd Hsl]. rewrite El in Hnd, Hsl. split.
  - intros Ek. destruct (holds_slot b) eqn:Hb; [exfalso|done].
    rewrite holders_app in Hnd. unfold holders at 2 in Hnd. cbn [List.filter] in Hnd. rewrite Ha in Hnd.
    fold (holders (l2 ++ b :: l3)) in Hnd. rewrite map_app in Hnd. apply list.NoDup_app in Hnd as (_ & _ & Hnd).
    cbn [map] in Hnd. apply list.NoDup_cons in Hnd as [Hni _]. apply Hni. rewrite Ek.
    apply list_elem_of_fmap_2. unfold holders. apply list_elem_of_In, List.filter_In. split; [|done].
    apply in_app_iff. right. by left.
  - rewrite list.Forall_forall in Hsl. destruct (Hsl a) as (w & Hw & Hf & _); [|by rewrite Hw; cbn; rewrite Hf].
    unfold holders. apply list_elem_of_In, List.filter_In. split; [|done]. apply in_app_iff. right. by left.
Qed.

(** C10: an attempt that meets nobody answers as the design document's table says: a new key
    executes and keeps what is worth keeping, a finished one replays, a different
    request is a mismatch, a running one is in flight, and one silent for over a minute
    is taken over — on every response, and leaving every other key alone. *)
Theorem a_key_answers_its_contract now resp a tbl :
  at_Stage a = Claiming ->
  exists tbl', serve now resp a tbl = (Done (contract now resp a tbl).1, tbl') /\
    tbl' !! at_Key a = (contract now resp a tbl).2 /\
    forall k, k <> at_Key a -> tbl' !! k = tbl !! k.
Proof.
  intros Hst. destruct a as [k hash born st]. cbn [at_Stage] in Hst. subst st.
  unfold serve, contract. cbn [at_Key at_Hash at_Born].
  assert (Hstore : forall (tb : Table) w, tb !! k = Some w -> matches hash w = true -> w_RequestHash w = hash ->
    (forall k', k' <> k -> tb !! k' = tbl !! k') ->
    exists tbl', (Done (Own resp),
       if worth_keeping resp then complete now k hash (stored_of resp) tb else vacate k hash tb) = (Done (Own resp), tbl') /\
      tbl' !! k = (if worth_keeping resp then Some (mkRow hash (Completed (stored_of resp)) (w_ExpiresAt w) now) else None) /\
      forall k', k' <> k -> tbl' !! k' = tbl !! k').
  { intros tb w Hw Hm Hh Hk. eexists. split; [reflexivity|]. unfold complete, vacate. rewrite Hw, Hm.
    destruct (worth_keeping resp); split; rewrite ?lookup_insert_eq, ?lookup_delete_eq; try done;
      intros k' Hne; rewrite ?lookup_insert_ne, ?lookup_delete_ne by done; auto. }
  destruct (tbl !! k) as [w|] eqn:Hw; cbn [fst snd run].
  - unfold advance. cbn [with_stage at_Stage at_Key at_Hash at_Born]. unfold claim. rewrite Hw. cbn.
    rewrite Hw. destruct (beq (w_RequestHash w) hash) eqn:Eh; cbn [negb];
      [|by eexists; split_and!; [reflexivity|done|done]].
    destruct (w_Status w) eqn:Es; [|by eexists; split_and!; [reflexivity|done|done]].
    unfold takeOver. rewrite Hw. assert (Hm : matches hash w = true) by (unfold matches, in_flight; by rewrite Eh, Es).
    rewrite Hm. cbn [andb]. destruct (w_UpdatedAt w <? now - inFlightTimeout);
      [|by eexists; split_and!; [reflexivity|done|done]].
    apply (Hstore _ (mkRow hash InFlight (now + idempotencyTTL) now)); [by rewrite lookup_insert_eq| |done|].
    + apply matches_spec. done.
    + intros k' Hne. by rewrite lookup_insert_ne.
  - unfold advance. cbn [with_stage at_Stage at_Key at_Hash at_Born]. unfold claim. rewrite Hw. cbn.
    apply (Hstore _ (mkRow hash InFlight (born + idempotencyTTL) now)); [by rewrite lookup_insert_eq| |done|].
    + apply matches_spec. done.
    + intros k' Hne. by rewrite lookup_insert_ne.
Qed.

Lemma step_keeps_completed s s' k w st :
  step s s' -> sy_Table s !! k = Some w -> w_Status w = Completed st ->
  sy_Now s <= sy_Now s' /\ (sy_Table s' !! k = Some w \/ w_ExpiresAt w < sy_Now s').
Proof.
  intros Hst Hw Hs. destruct Hst as [| | now tbl l1 a l2 fails resp | |]; cbn [sy_Now sy_Table] in *.
  - split; [lia|by left].
  - split; [lia|by left].
  - pose proof (advance_keeps_completed now fails resp a tbl k w st Hw Hs) as H.
    destruct (advance now fails resp a tbl) as [st' tbl']. split; [cbn; lia|by left].
  - split; [lia|by left].
  - split; [lia|]. unfold deleteExpired. destruct (decide (now <= w_ExpiresAt w)) as [He|He]; [|right; lia].
    left. apply map_lookup_filter_Some. done.
Qed.

(** An outcome that was stored stands: until its expiry nothing changes it — no attempt,
    no crash, no late completion, no takeover, no failure — and every attempt that meets
    it is answered from it or told its request is another one. *)
Theorem a_stored_outcome_stands s s' k w st :
  rtc step s s' -> sy_Table s !! k = Some w -> w_Status w = Completed st -> sy_Now s' <= w_ExpiresAt w ->
  sy_Table s' !! k = Some w /\
  forall now resp a, at_Key a = k -> at_Stage a = Claiming ->
    (serve now resp a (sy_Table s')).1 =
    Done (if beq (w_RequestHash w) (at_Hash a) then Replayed st else Refused CommonIdempotencyMismatch).
Proof.
  intros Hr Hw Hs Hn. assert (Hk : sy_Table s' !! k = Some w).
  { revert Hw Hn. induction Hr as [|s s1 s' Hst Hr IH]; [done|]. intros Hw Hn.
    assert (Hmono : sy_Now s1 <= sy_Now s').
    { clear -Hr. induction Hr as [|x y z Hxy Hr IH]; [lia|]. enough (sy_Now x <= sy_Now y) by lia.
      destruct Hxy as [| | ? ? ? ? ? ? ? | |]; cbn [sy_Now]; try lia. by destruct (advance _ _ _ _ _). }
    destruct (step_keeps_completed _ _ _ _ _ Hst Hw Hs) as [_ [H|H]]; [by apply IH|lia]. }
  split; [done|]. intros now resp a <- Ha. unfold serve. destruct a as [k hash born stg]. cbn in Ha, Hk |- *. subst stg.
  unfold advance. cbn [with_stage at_Stage at_Key at_Hash at_Born]. unfold claim. rewrite Hk. cbn.
  rewrite Hk. destruct (beq (w_RequestHash w) hash); cbn [negb]; [|done]. by rewrite Hs.
Qed.

(** C38: the release of a slot is not the holder's own.  When an attempt that was taken over
    fails after all, it deletes the row of the attempt that replaced it, and the next
    retry of the same request executes beside that attempt, however short a time it has
    been running. *)
Theorem a_late_failure_frees_the_slot now tbl l1 a l2 r k hash born w :
  at_Key a = k -> at_Hash a = hash -> at_Stage a = Storing r -> worth_keeping r = false ->
  tbl !! k = Some w -> matches hash w = true ->
  In (mkAttempt k hash born Executing) (l1 ++ l2) ->
  exists l, rtc step (mkSystem now tbl (l1 ++ a :: l2)) (mkSystem now (<[k := mkRow hash InFlight (now + idempotencyTTL) now]> (delete k tbl))
              (l ++ [mkAttempt k hash now Executing])) /\
    In (mkAttempt k hash born Executing) l.
Proof.
  intros Hk Hh Ha Hr Hw Hm Hin.
  exists (l1 ++ with_stage a (Done (Own r)) :: l2). split.
  - eapply rtc_l; [apply (s_move now tbl l1 a l2 false r)|]. unfold advance at 1. rewrite Ha, Hr.
    unfold vacate. rewrite Hk, Hh, Hw, Hm.
    eapply rtc_l; [apply (s_arrive _ _ _ k hash)|]. apply rtc_once.
    pose proof (s_move now (delete k tbl) (l1 ++ with_stage a (Done (Own r)) :: l2) (mkAttempt k hash now Claiming) []
      false r) as H.
    unfold advance, claim in H. cbn [at_Stage at_Key at_Hash at_Born] in H. rewrite lookup_delete_eq in H. exact H.
  - apply in_app_iff in Hin. apply in_app_iff. destruct Hin as [?|?]; [by left|right; by right].
Qed.

(** The outcome is stored by a statement on the caller's own connection.  If that
    statement fails — the caller hung up as the answer was written — the work was done
    and nothing says so: a retry within the minute is told the first is running, and a
    retry after it runs the work again. *)
Theorem a_lost_caller_runs_it_again now tbl a r w now' resp a' :
  at_Stage a = Storing r -> tbl !! at_Key a = Some w -> matches (at_Hash a) w = true ->
  at_Stage a' = Claiming -> at_Key a' = at_Key a -> at_Hash a' = at_Hash a ->
  let left := (advance now true r a tbl).2 in
  (serve now' resp a' left).1 =
  Done (if w_UpdatedAt w <? now' - inFlightTimeout then Own resp else Refused CommonIdempotencyInFlight).
Proof.
  intros Ha Hw Hm Hs Hk Hh. unfold advance at 1. rewrite Ha. cbn [snd].
  apply matches_spec in Hm as Hm2. destruct Hm2 as [Hwh Hf]. unfold in_flight in Hf.
  destruct (w_Status w) eqn:Es; [|done].
  unfold serve. destruct a' as [k hash born stg]. cbn [at_Stage at_Key at_Hash] in *. subst k hash stg.
  cbn [run at_Stage]. unfold advance. cbn [with_stage at_Stage at_Key at_Hash at_Born]. unfold claim. rewrite Hw. cbn.
  rewrite Hw, Hwh, (proj2 (beq_spec _ _) eq_refl). cbn [negb]. rewrite Es. unfold takeOver. rewrite Hw, Hm. cbn [andb].
  by destruct (w_UpdatedAt w <? now' - inFlightTimeout).
Qed.

(** The bytes a handler writes, in order. *)
Definition written (calls : list Call) : bytes := calls ≫= (fun c => match c with CallWrite b => b | CallHeader _ => [] end).

Lemma captured_overflow calls w :
  cw_overflow w = true -> cw_overflow (fold_left call calls w) = true /\ cw_buf (fold_left call calls w) = cw_buf w.
Proof.
  revert w. induction calls as [|c calls IH]; intros w Hw; [done|]. cbn [fold_left].
  destruct c as [code|b]; cbn [call].
  - by apply (IH (WriteHeader w code)).
  - destruct (IH (Write w b)) as [H1 H2]; unfold Write in *; rewrite Hw in *; [done|]. by rewrite H2.
Qed.

Lemma captured_sent calls w : cw_sent (fold_left call calls w) = cw_sent w ++ written calls.
Proof.
  revert w. induction calls as [|c calls IH]; intros w; [by rewrite app_nil_r|]. cbn [fold_left]. rewrite IH.
  destruct c as [code|b]; [done|]. cbn [call]. unfold Write, written. cbn [mbind list_bind].
  by destruct (cw_overflow w), (maxCapturedBody <? len (cw_buf w) + len b); cbn [cw_sent]; rewrite <- app_assoc.
Qed.

Lemma captured_buf calls w :
  cw_overflow w = false -> len (cw_buf w) <= maxCapturedBody ->
  (if maxCapturedBody <? len (cw_buf w ++ written calls)
   then cw_overflow (fold_left call calls w) = true /\ cw_buf (fold_left call calls w) = []
   else cw_overflow (fold_left call calls w) = false /\ cw_buf (fold_left call calls w) = cw_buf w ++ written calls).
Proof.
  revert w. induction calls as [|c calls IH]; intros w Hw Hl.
  - unfold written. cbn. rewrite app_nil_r. by rewrite (proj2 (Z.ltb_ge _ _)).
  - destruct c as [code|b]; [by apply (IH (WriteHeader w code))|]. cbn [fold_left call].
    change (written (CallWrite b :: calls)) with (b ++ written calls). unfold Write. rewrite Hw.
    destruct (maxCapturedBody <? len (cw_buf w) + len b) eqn:E.
    + assert (H : maxCapturedBody <? len (cw_buf w ++ b ++ written calls) = true).
      { rewrite !len_app. bool_prop. unfold len in *. apply Z.ltb_lt. lia. }
      rewrite H. by apply captured_overflow.
    + specialize (IH (mkCapture (if cw_code w =? 0 then 200 else cw_code w) (cw_buf w ++ b)
        false (cw_sent w ++ b)) eq_refl). cbn [cw_buf] in IH. rewrite <- app_assoc in IH. apply IH.
      rewrite len_app. bool_prop. lia.
Qed.

(** The caller always gets what the handler wrote; what may be stored is all of it or
    none of it, at exactly a mebibyte — never a prefix. *)
Theorem capture_is_whole_or_nothing calls :
  cw_sent (captured calls) = written calls /\
  (len (written calls) <= maxCapturedBody ->
     cw_overflow (captured calls) = false /\ cw_buf (captured calls) = written calls) /\
  (maxCapturedBody < len (written calls) -> cw_overflow (captured calls) = true /\ cw_buf (captured calls) = []).
Proof.
  split; [apply captured_sent|]. pose proof (captured_buf calls fresh_capture eq_refl ltac:(done)) as H.
  cbn [fresh_capture cw_buf app] in H. split; intros Hl.
  - by rewrite (proj2 (Z.ltb_ge _ _)) in H.
  - by rewrite (proj2 (Z.ltb_lt _ _)) in H.
Qed.

(** No session credential and no statement about the first request survives into a
    replay, however the handler spelled the header; every other header does. *)
Theorem a_replay_resurrects_no_credential outer r name :
  let '(h, code, body) := writeReplay outer (stored_of r) in
  name <> lit "Idempotency-Replayed" ->
  h !! name = (if bool_decide (CanonicalHeaderKey name ∈ replayHeaderBlocklist) then outer !! name
               else union_with (fun a b => Some (a ++ b)) (outer !! name) (rs_Header r !! name)).
Proof.
  unfold writeReplay. intros Hne. cbn [stored_of st_Headers]. unfold header_set. change (CanonicalHeaderKey (lit "Idempotency-Replayed")) with (lit "Idempotency-Replayed").
  rewrite lookup_insert_ne by (intros E; by apply Hne). rewrite lookup_union_with. unfold storableHeaders.
  case_bool_decide as Hb.
  - assert (E : (filter (fun kv : bytes * list bytes => CanonicalHeaderKey kv.1 ∉ replayHeaderBlocklist) (rs_Header r)) !! name = None).
    { apply map_lookup_filter_None. right. intros x _ Hx. by apply Hx. }
    rewrite E. by destruct (outer !! name).
  - f_equal. destruct (rs_Header r !! name) as [v|] eqn:Ev.
    + by apply map_lookup_filter_Some.
    + apply map_lookup_filter_None. by left.
Qed.

Lemma part_inj (a b s t : bytes) : NUL ∉ a -> NUL ∉ b -> a ++ NUL :: s = b ++ NUL :: t -> a = b /\ s = t.
Proof.
  intros Ha Hb E. pose proof (cut_byte_app NUL a s Ha) as H1. rewrite E, cut_byte_app in H1 by done.
  by injection H1 as -> ->.
Qed.

(** Two requests share a fingerprint only if they are one request: method, path, query,
    content type and body — as long as no part holds a NUL, which of the four only a
    path with [%00] in it can. *)
Theorem fingerprint_separates_requests r1 r2 b1 b2 :
  (forall r, r ∈ [r1; r2] -> NUL ∉ rq_Method r /\ NUL ∉ rq_Path r /\ NUL ∉ rq_Query r /\ NUL ∉ rq_ContentType r) ->
  fingerprint r1 b1 = fingerprint r2 b2 ->
  rq_Method r1 = rq_Method r2 /\ rq_Path r1 = rq_Path r2 /\ rq_Query r1 = rq_Query r2 /\
  rq_ContentType r1 = rq_ContentType r2 /\ b1 = b2.
Proof.
  intros Hn. destruct (Hn r1) as (A1 & A2 & A3 & A4); [by left|]. destruct (Hn r2) as (B1 & B2 & B3 & B4); [by right; left|].
  unfold fingerprint. cbn [map concat]. rewrite app_nil_r, <- !app_assoc. cbn [app].
  intros [E1 H]%part_inj; [|done|done]. apply part_inj in H as [E2 H]; [|done|done].
  apply part_inj in H as [E3 H]; [|done|done]. apply part_inj in H as [E4 H]; [|done|done]. done.
Qed.

(** Two callers never share a keyspace: scopes have no colon, subjects are identifiers. *)
Theorem scopes_separate_callers r1 r2 :
  ":"%char ∉ rq_Scope r1 -> ":"%char ∉ rq_Scope r2 ->
  (forall r, r ∈ [r1; r2] -> has_prefix (rq_Subject r) (lit "ip:") = false) ->
  scopeOf r1 = scopeOf r2 ->
  rq_Scope r1 = rq_Scope r2 /\ rq_Subject r1 = rq_Subject r2 /\
  (rq_Subject r1 = [] -> rq_ClientIP r1 = rq_ClientIP r2).
Proof.
  intros H1 H2 Hp. pose proof (Hp r1 ltac:(by left)) as P1. pose proof (Hp r2 ltac:(by right; left)) as P2.
  unfold scopeOf. intros E.
  assert (Hcut : forall r, ":"%char ∉ rq_Scope r -> exists rest,
    rq_Scope r ++ (if beq (rq_Subject r) [] then lit ":ip:" ++ rq_ClientIP r else lit ":" ++ rq_Subject r) =
    rq_Scope r ++ ":"%char :: rest /\
    rest = if beq (rq_Subject r) [] then lit "ip:" ++ rq_ClientIP r else rq_Subject r)
    by (intros r _; destruct (beq (rq_Subject r) []); eexists; split; reflexivity).
  destruct (Hcut r1 H1) as (t1 & E1 & T1). destruct (Hcut r2 H2) as (t2 & E2 & T2). rewrite E1, E2 in E.
  pose proof (cut_byte_app _ _ t1 H1) as C. rewrite E, cut_byte_app in C by done. injection C as Es Et.
  split; [by symmetry in Es|]. subst t1 t2.
  destruct (beq (rq_Subject r1) []) eqn:S1; destruct (beq (rq_Subject r2) []) eqn:S2.
  - apply beq_spec in S1, S2. rewrite S1, S2. split; [done|]. intros _. by injection Et.
  - rewrite Et, has_prefix_app in P2. done.
  - rewrite <- Et, has_prefix_app in P1. done.
  - split; [by symmetry in Et|]. intros E0. by rewrite E0 in S1.
Qed.

(** ** Witnesses *)

Abbreviation demo_key := (lit "admin:u-1", lit "k-1").
Abbreviation demo_created := (mkResponse {[lit "Location" := [lit "/things/42"]]} [CallHeader 201; CallWrite (lit "{}")]).
Abbreviation demo_failed := (mkResponse ∅ [CallHeader 503]).
Abbreviation demo_attempt := (mkAttempt demo_key (lit "h") 0 Claiming).
Abbreviation demo_request := (mkRequest (lit "POST") (lit "/things") [] (lit "application/json") (lit "k-1")
  (Ok (lit "{}")) (lit "admin") (lit "u-1") (lit "10.0.0.1")).

(** Two attempts on one key: the second finds the first running. *)
Lemma one_execution_at_a_time_witness :
  exists tbl, rtc prompt_step (mkSystem 0 ∅ [])
    (mkSystem 0 tbl [mkAttempt demo_key (lit "h") 0 Executing; mkAttempt demo_key (lit "h") 0 TakingOver]) /\
    in_flight <$> tbl !! demo_key = Some true.
Proof.
  assert (Hp : forall tbl l, Forall (fun a => at_Born a = 0) l -> prompt (mkSystem 0 tbl l)).
  { intros tbl l H. unfold prompt. cbn [sy_Attempts sy_Now]. eapply list.Forall_impl; [exact H|].
    intros a E _. rewrite E. split; [done|vm_compute; discriminate]. }
  set (tbl := <[demo_key := mkRow (lit "h") InFlight (0 + idempotencyTTL) 0]> ∅ : Table).
  assert (Hr : rtc prompt_step (mkSystem 0 ∅ [])
    (mkSystem 0 tbl [mkAttempt demo_key (lit "h") 0 Executing; mkAttempt demo_key (lit "h") 0 TakingOver])).
  { eapply rtc_l; [split; [exact (s_arrive 0 ∅ [] demo_key (lit "h"))|by apply Hp; repeat constructor]|].
    eapply rtc_l; [split; [exact (s_arrive 0 ∅ [demo_attempt] demo_key (lit "h"))|by apply Hp; repeat constructor]|].
    eapply rtc_l; [split; [exact (s_move 0 ∅ [] demo_attempt [demo_attempt] false demo_created)|
                           by apply Hp; repeat constructor]|].
    eapply rtc_l; [split; [exact (s_move 0 tbl [with_stage demo_attempt Executing] demo_attempt [] false demo_created)|
                           by apply Hp; repeat constructor]|].
    eapply rtc_l; [split; [exact (s_move 0 tbl [with_stage demo_attempt Executing] (with_stage demo_attempt Reading) []
                                    false demo_created)|by apply Hp; repeat constructor]|].
    apply rtc_refl. }
  exists tbl. split; [exact Hr|].
  exact (proj2 (one_execution_at_a_time 0 ∅ _ _ _ Hr [] [] [] eq_refl eq_refl)).
Defined.

Lemma a_key_answers_its_contract_witness :
  exists tbl', serve 0 demo_created demo_attempt ∅ = (Done (Own demo_created), tbl') /\
    w_Status <$> tbl' !! demo_key = Some (Completed (stored_of demo_created)).
Proof.
  destruct (a_key_answers_its_contract 0 demo_created demo_attempt ∅ eq_refl) as (tbl' & H1 & H2 & _).
  exists tbl'. split; [exact H1|]. exact (f_equal (fmap w_Status) H2).
Defined.

Abbreviation demo_done_table :=
  ({[demo_key := mkRow (lit "h") (Completed (stored_of demo_created)) idempotencyTTL 0]} : Table).
Lemma a_stored_outcome_stands_witness :
  sy_Table (mkSystem 7 demo_done_table []) !! demo_key =
    Some (mkRow (lit "h") (Completed (stored_of demo_created)) idempotencyTTL 0) /\
  (serve 7 demo_failed (mkAttempt demo_key (lit "h") 7 Claiming) demo_done_table).1 =
    Done (Replayed (stored_of demo_created)).
Proof.
  destruct (a_stored_outcome_stands (mkSystem 0 demo_done_table []) (mkSystem 7 demo_done_table []) demo_key
    (mkRow (lit "h") (Completed (stored_of demo_created)) idempotencyTTL 0) (stored_of demo_created)
    (rtc_once _ _ (s_tick 0 7 demo_done_table [] ltac:(lia))) (lookup_singleton_eq _ _) eq_refl
    ltac:(vm_compute; discriminate)) as [H1 H2].
  split; [exact H1|]. exact (H2 7 demo_failed (mkAttempt demo_key (lit "h") 7 Claiming) eq_refl eq_refl).
Defined.

Abbreviation demo_taken := ({[demo_key := mkRow (lit "h") InFlight (2 * idempotencyTTL) (61 * Second)]} : Table).
Lemma a_late_failure_frees_the_slot_witness :
  exists l, rtc step
      (mkSystem (63 * Second) demo_taken
         ([] ++ mkAttempt demo_key (lit "h") 0 (Storing demo_failed) :: [mkAttempt demo_key (lit "h") (61 * Second) Executing]))
      (mkSystem (63 * Second) (<[demo_key := mkRow (lit "h") InFlight (63 * Second + idempotencyTTL) (63 * Second)]>
         (delete demo_key demo_taken)) (l ++ [mkAttempt demo_key (lit "h") (63 * Second) Executing])) /\
    In (mkAttempt demo_key (lit "h") (61 * Second) Executing) l.
Proof.
  apply (a_late_failure_frees_the_slot (63 * Second) demo_taken [] (mkAttempt demo_key (lit "h") 0 (Storing demo_failed))
    [mkAttempt demo_key (lit "h") (61 * Second) Executing] demo_failed demo_key (lit "h") (61 * Second)
    (mkRow (lit "h") InFlight (2 * idempotencyTTL) (61 * Second)));
    [reflexivity|reflexivity|reflexivity|reflexivity|apply lookup_singleton_eq|reflexivity|by left].
Defined.

Lemma a_lost_caller_runs_it_again_witness :
  (serve (90 * Second) demo_created (mkAttempt demo_key (lit "h") (90 * Second) Claiming)
     (advance (5 * Second) true demo_created (mkAttempt demo_key (lit "h") 0 (Storing demo_created))
        {[demo_key := mkRow (lit "h") InFlight idempotencyTTL 0]}).2).1 = Done (Own demo_created).
Proof.
  exact (a_lost_caller_runs_it_again (5 * Second) {[demo_key := mkRow (lit "h") InFlight idempotencyTTL 0]}
    (mkAttempt demo_key (lit "h") 0 (Storing demo_created)) demo_created (mkRow (lit "h") InFlight idempotencyTTL 0)
    (90 * Second) demo_created (mkAttempt demo_key (lit "h") (90 * Second) Claiming)
    eq_refl (lookup_singleton_eq _ _) eq_refl eq_refl eq_refl eq_refl).
Defined.

Lemma a_replay_resurrects_no_credential_witness :
  let '(h, code, body) := writeReplay ∅ (stored_of (mkResponse {[lit "set-cookie" := [lit "s=1"]]} [])) in
  h !! lit "set-cookie" = None.
Proof.
  exact (a_replay_resurrects_no_credential ∅ (mkResponse {[lit "set-cookie" := [lit "s=1"]]} []) (lit "set-cookie")
    ltac:(discriminate)).
Defined.

Lemma fingerprint_separates_requests_witness :
  rq_Path demo_request = rq_Path demo_request /\ lit "{}" = lit "{}".
Proof.
  destruct (fingerprint_separates_requests demo_request demo_request (lit "{}") (lit "{}")) as (_ & H & _ & _ & H');
    [|reflexivity|by split].
  assert (Hn : forall s, forallb (fun c => negb (Ascii.eqb c NUL)) s = true -> NUL ∉ s).
  { intros s H Hin. rewrite forallb_forall in H. apply list_elem_of_In in Hin. specialize (H _ Hin). by rewrite Ascii.eqb_refl in H. }
  intros r Hr. assert (E : r = demo_request) by (apply elem_of_cons in Hr as [?|[?|?%elem_of_nil]%elem_of_cons]; done).
  rewrite E. split_and!; by apply Hn.
Defined.

Lemma scopes_separate_callers_witness :
  scopeOf demo_request = lit "admin:u-1" /\ rq_Subject demo_request = rq_Subject demo_request.
Proof.
  split; [reflexivity|].
  destruct (scopes_separate_callers demo_request demo_request) as (_ & H & _); [| | |reflexivity|exact H].
  - intros H. apply list_elem_of_In in H. by repeat (destruct H as [H|H]; [discriminate|]).
  - intros H. apply list_elem_of_In in H. by repeat (destruct H as [H|H]; [discriminate|]).
  - intros r Hr. apply elem_of_cons in Hr as [->|[->|?%elem_of_nil]%elem_of_cons]; [reflexivity|reflexivity|done].
Defined.
