(* ===== verification/Base64.v ===== *)
(** * Base64 without padding: [encoding/base64]

    Decoding as Go's [DecodeString] does it: line breaks are skipped, the bits left
    over at the end are not looked at, and a lone last character is refused.
    Encoding is [Upstream.b64url]. *)
From S2P Require Import Prelude GoStr Http Surfaces Transport Upstream.

Open Scope Z_scope.

(** The position of a character in an alphabet given by its 64 characters. *)
Definition sextet (alphabet : Z -> ascii) (c : ascii) : option Z :=
  List.find (fun n => Ascii.eqb (alphabet n) c) (map Z.of_nat (seq 0 64)).

Definition std_char (n : Z) : ascii :=
  if n =? 62 then "+"%char else if n =? 63 then "/"%char else b64_char n.

Fixpoint sextets (alphabet : Z -> ascii) (s : bytes) : option (list Z) :=
  match s with
  | [] => Some []
  | c :: s => n ← sextet alphabet c; ns ← sextets alphabet s; Some (n :: ns)
  end.

Fixpoint octets (ns : list Z) : option bytes :=
  match ns with
  | [] => Some []
  | [_] => None
  | [a; b] => Some [byte_of (a * 4 + b / 16)]
  | [a; b; c] => Some [byte_of (a * 4 + b / 16); byte_of (b mod 16 * 16 + c / 4)]
  | a :: b :: c :: d :: ns =>
      (fun out => byte_of (a * 4 + b / 16) :: byte_of (b mod 16 * 16 + c / 4) :: byte_of (c mod 4 * 64 + d) :: out)
        <$> octets ns
  end.

Definition skipped (c : ascii) : bool := (ord c =? 10) || (ord c =? 13).
Definition DecodeString (alphabet : Z -> ascii) (s : bytes) : option bytes :=
  sextets alphabet (List.filter (fun c => negb (skipped c)) s) ≫= octets.

Definition RawURLDecode : bytes -> option bytes := DecodeString b64_char.

(** ** Decoding undoes encoding *)

Lemma sextet_char n : 0 <= n < 64 -> sextet b64_char (b64_char n) = Some n /\ skipped (b64_char n) = false.
Proof.
  intros Hn.
  assert (H : forallb (fun m => bool_decide (sextet b64_char (b64_char m) = Some m) && negb (skipped (b64_char m)))
                (map Z.of_nat (seq 0 64)) = true) by (by vm_compute).
  assert (Hin : In n (map Z.of_nat (seq 0 64))).
  { apply List.in_map_iff. exists (Z.to_nat n). split; [lia|]. apply List.in_seq. lia. }
  apply (proj1 (List.forallb_forall _ _) H) in Hin. by bool_prop.
Qed.

Lemma octet_bounds c : 0 <= ord c / 4 < 64 /\ 0 <= ord c mod 4 < 4 /\ 0 <= ord c / 16 < 16 /\ 0 <= ord c mod 16 < 16 /\
  0 <= ord c / 64 < 4 /\ 0 <= ord c mod 64 < 64.
Proof. pose proof (ord_range c). repeat split; try apply Z.mod_pos_bound; try apply Z.div_pos; try apply Z.div_lt_upper_bound; lia. Qed.

Lemma filter_encoded n s :
  0 <= n < 64 ->
  List.filter (fun c => negb (skipped c)) (b64_char n :: s) = b64_char n :: List.filter (fun c => negb (skipped c)) s.
Proof. intros Hn. simpl. by rewrite (proj2 (sextet_char n Hn)). Qed.

Lemma sextets_cons n s :
  0 <= n < 64 -> sextets b64_char (b64_char n :: s) = (cons n) <$> sextets b64_char s.
Proof. intros Hn. cbn [sextets]. rewrite (proj1 (sextet_char n Hn)). simpl. by destruct (sextets b64_char s). Qed.

(** Three octets at a time. *)
Lemma by_threes (P : bytes -> Prop) :
  P [] -> (forall a, P [a]) -> (forall a b, P [a; b]) -> (forall a b c s, P s -> P (a :: b :: c :: s)) -> forall s, P s.
Proof. intros H0 H1 H2 H3. fix IH 1. intros [|a [|b [|c s]]]; [exact H0|apply H1|apply H2|apply H3, IH]. Qed.

Lemma join_pair a k : 0 < k -> byte_of (ord a / k * k + ord a mod k) = a.
Proof. intros Hk. pose proof (Z.div_mod (ord a) k). replace (_ + _) with (ord a) by lia. apply byte_of_ord. Qed.

(** A sextet split where its two halves were joined. *)
Lemma high x y k : 0 <= y < k -> (x * k + y) / k = x.
Proof. intros Hy. rewrite Z.div_add_l, (Z.div_small y) by lia. lia. Qed.
Lemma low x y k : 0 <= y < k -> (x * k + y) mod k = y.
Proof. intros Hy. rewrite Z.add_comm, Z.mod_add, Z.mod_small by lia. done. Qed.

Lemma decode_encode s : RawURLDecode (b64url s) = Some s.
Proof.
  unfold RawURLDecode, DecodeString. induction s as [|a|a b|a b c s IH] using by_threes; [done|..].
  all: try pose proof (octet_bounds a); try pose proof (octet_bounds b); try pose proof (octet_bounds c).
  all: cbn [b64url].
  all: repeat (rewrite filter_encoded by lia); repeat (rewrite sextets_cons by lia).
  - simpl. rewrite Z.div_mul by lia. by rewrite (join_pair a 4).
  - simpl. rewrite !high, low, Z.div_mul, (join_pair a 4) by lia. by rewrite (join_pair b 16).
  - destruct (sextets b64_char _) as [ns|] eqn:E; [|done]. simpl in *. rewrite IH. simpl.
    rewrite !high, !low, (join_pair a 4) by lia. by rewrite (join_pair b 16), (join_pair c 64).
Qed.
