(* ===== verification/Cursor.v ===== *)
(** * Cursor pagination: [foundation/cursorpage] and [foundation/httpx/pagination.go]

    The opaque cursors of the paginated lists, the clamp and the probe for a last page,
    and the walk a client makes by handing every page's cursor back. *)
From S2P Require Import Prelude GoStr Http Surfaces Transport Upstream Base64.

Open Scope Z_scope.

(** [int32(x)]. *)
Definition to_int32 (z : Z) : Z := (z + 2 ^ 31) mod 2 ^ 32 - 2 ^ 31.

(** ** Time cursors *)

Definition Encode (createdAt : Z) (id : bytes) : bytes := b64url (itoa createdAt ++ lit ":" ++ id).

(** Every refusal is [ErrInvalid]. *)
Definition Decode (s : bytes) : option (Z * bytes) :=
  match RawURLDecode s with
  | None => None
  | Some raw =>
      let '(micros, rest, ok) := cut_byte ":"%char raw in
      if negb ok || beq rest [] then None
      else match atoi micros with Some us => Some (us, rest) | None => None end
  end.

Definition Clamp (limit def max : Z) : Z := if limit <=? 0 then def else if max <? limit then max else limit.

Definition Trim {A} (rows : list A) (limit : Z) : list A * bool :=
  if limit <? Z.of_nat (length rows) then (take (Z.to_nat limit) rows, true) else (rows, false).

Record Page := mkPage { pg_Cursor : option (Z * Z); pg_Limit : Z }.
Definition ProbeLimit (limit : Z) : Z := to_int32 (limit + 1).

Section parse.
(** [pgtype.UUID.Scan]. *)
Variable Scan : bytes -> option Z.

Definition Parse (cursor : option bytes) (limit : option Z) (def max : Z) : option Page :=
  let lim := to_int32 (Clamp (default 0 limit) def max) in
  match cursor with
  | None | Some [] => Some (mkPage None lim)
  | Some c =>
      match Decode c with
      | None => None
      | Some (at_, rawID) =>
          match Scan rawID with Some id => Some (mkPage (Some (at_, id)) lim) | None => None end
      end
  end.
End parse.

(** ** Keyed cursors *)

Definition NUL : ascii := "000".

(** [strings.Join] and [strings.Split] on a one-byte separator. *)
Fixpoint JoinOn (sep : ascii) (parts : list bytes) : bytes :=
  match parts with
  | [] => []
  | [p] => p
  | p :: parts => p ++ sep :: JoinOn sep parts
  end.
Fixpoint SplitOn (sep : ascii) (s : bytes) : list bytes :=
  match s with
  | [] => [[]]
  | c :: s =>
      let parts := SplitOn sep s in
      if Ascii.eqb c sep then [] :: parts
      else match parts with [] => [[c]] | p :: parts => (c :: p) :: parts end
  end.

Definition EncodeKey (parts : list bytes) : bytes := b64url (JoinOn NUL parts).
Definition DecodeKey (s : bytes) (want : nat) : option (list bytes) :=
  match RawURLDecode s with
  | None => None
  | Some raw => let parts := SplitOn NUL raw in if bool_decide (length parts = want) then Some parts else None
  end.

Record KeyPage := mkKeyPage { kp_Key : list bytes; kp_Limit : Z }.
Definition At (p : KeyPage) (i : nat) : bytes := default [] (kp_Key p !! i).
Definition HasKey (p : KeyPage) : bool := negb (bool_decide (kp_Key p = [])).
Definition BoolAt (p : KeyPage) (i : nat) : option bool :=
  if negb (HasKey p) then Some false
  else if beq (At p i) (lit "t") then Some true
  else if beq (At p i) (lit "f") then Some false
  else None.
Definition boolKey (b : bool) : bytes := if b then lit "t" else lit "f".

Definition ParseKeyPage (cursor : option bytes) (limit : option Z) (want : nat) (def max : Z) : option KeyPage :=
  let lim := to_int32 (Clamp (default 0 limit) def max) in
  match cursor with
  | None | Some [] => Some (mkKeyPage [] lim)
  | Some c => match DecodeKey c want with Some parts => Some (mkKeyPage parts lim) | None => None end
  end.

(** ** A listing

    What the handlers share: the query with the probe limit, the trim, and the cursor of
    the last row kept.  [after c r] is the [WHERE] of the query for the cursor [c]. *)
Section listing.
Context {A K : Type}.
Variable after : K -> A -> bool.
Variable cursor_of : A -> bytes.

Definition query (table : list A) (cursor : option K) (lim : Z) : list A :=
  take (Z.to_nat lim) (match cursor with None => table | Some k => List.filter (after k) table end).

(** A page as a handler answers it, with the cursor of the next one. *)
Definition list_page (table : list A) (cursor : option K) (limit : Z) : list A * option bytes :=
  let '(kept, more) := Trim (query table cursor (ProbeLimit limit)) limit in
  (kept, if more then match rev kept with r :: _ => Some (cursor_of r) | [] => None end else None).

(** A client that follows the cursors; [read] is the parse of the next request. *)
Variable read : bytes -> option K.

Fixpoint walk (fuel : nat) (table : list A) (cursor : option K) (limit : Z) : option (list A) :=
  match fuel with
  | O => None
  | S fuel =>
      let '(kept, next) := list_page table cursor limit in
      match next with
      | None => Some kept
      | Some c => match read c with
                  | None => None
                  | Some k => (fun rest => kept ++ rest) <$> walk fuel table (Some k) limit
                  end
      end
  end.
End listing.

(** ** Round trips *)

Lemma split_plain sep p : sep ∉ p -> SplitOn sep p = [p].
Proof.
  induction p as [|c p IH]; [done|]. intros [Hc Hp]%not_elem_of_cons. cbn [SplitOn]. rewrite IH by done.
  destruct (Ascii.eqb_spec c sep); [congruence|done].
Qed.

Lemma split_app sep p s : sep ∉ p -> SplitOn sep (p ++ sep :: s) = p :: SplitOn sep s.
Proof.
  induction p as [|c p IH].
  - intros _. cbn [app SplitOn]. by rewrite Ascii.eqb_refl.
  - intros [Hc Hp]%not_elem_of_cons. cbn [app SplitOn]. rewrite IH by done.
    destruct (Ascii.eqb_spec c sep); [congruence|done].
Qed.

Lemma split_join sep parts : parts <> [] -> Forall (fun p => sep ∉ p) parts -> SplitOn sep (JoinOn sep parts) = parts.
Proof.
  intros Hne H. induction H as [|p parts Hp H IH]; [done|]. destruct parts as [|p2 parts].
  - by apply split_plain.
  - change (JoinOn sep (p :: p2 :: parts)) with (p ++ sep :: JoinOn sep (p2 :: parts)).
    rewrite split_app by done. by rewrite IH.
Qed.

Lemma split_none sep s : Forall (fun p => sep ∉ p) (SplitOn sep s).
Proof.
  induction s as [|c s IH]; cbn [SplitOn]; [repeat constructor; apply not_elem_of_nil|].
  destruct (Ascii.eqb_spec c sep) as [|Hc]; [constructor; [apply not_elem_of_nil|done]|].
  destruct IH as [|p parts Hp IH]; repeat constructor; try done; apply not_elem_of_cons; split; try congruence; try done.
  apply not_elem_of_nil.
Qed.

Lemma split_nonempty sep s : SplitOn sep s <> [].
Proof. destruct s as [|c s]; cbn [SplitOn]; [done|]. by repeat case_match. Qed.

Lemma join_split sep s : JoinOn sep (SplitOn sep s) = s.
Proof.
  induction s as [|c s IH]; [done|]. cbn [SplitOn]. pose proof (split_nonempty sep s) as Hne.
  destruct (SplitOn sep s) as [|p parts]; [done|]. destruct (Ascii.eqb_spec c sep) as [->|].
  - change (JoinOn sep ([] :: p :: parts)) with (sep :: JoinOn sep (p :: parts)). by rewrite IH.
  - rewrite <- IH. by destruct parts.
Qed.

Lemma clean_itoa n : ":"%char ∉ itoa n.
Proof.
  unfold itoa. destruct (n <? 0) eqn:E; bool_prop.
  - apply not_elem_of_cons. split; [done|]. apply digit_not_in; [done|]. apply digits_spec. lia.
  - apply digit_not_in; [done|]. apply digits_spec. lia.
Qed.

Lemma atoi_range s n : atoi s = Some n -> int64_range n.
Proof.
  unfold atoi. destruct (match s with [] => _ | _ => _ end) as [neg ds]. destruct (_ || _); [done|].
  destruct (is_int64 _) eqn:E; [|done]. intros [= <-]. by apply is_int64_spec.
Qed.

Lemma decode_minted us id : int64_range us -> id <> [] -> Decode (Encode us id) = Some (us, id).
Proof.
  intros Hus Hid. unfold Decode, Encode. rewrite decode_encode.
  change (lit ":" ++ id) with (":"%char :: id). rewrite cut_byte_app by apply clean_itoa.
  destruct id as [|c id]; [done|]. cbn [negb orb beq]. by rewrite atoi_itoa.
Qed.

(** A cursor minted for a row reads back as that row's time and id, for every instant a
    64-bit count of microseconds holds and whatever the id is spelled like; and nothing
    reads back but such an instant and a nonempty id. *)
Theorem time_cursor_roundtrip us id :
  int64_range us -> id <> [] ->
  Decode (Encode us id) = Some (us, id) /\
  forall s us' id', Decode s = Some (us', id') -> int64_range us' /\ id' <> [].
Proof.
  intros Hus Hid. split; [by apply decode_minted|]. intros s us' id'. unfold Decode.
  destruct (RawURLDecode s) as [raw|]; [|done]. destruct (cut_byte _ raw) as [[micros rest] ok].
  destruct (negb ok || beq rest []) eqn:Er; [done|]. destruct (atoi micros) as [n|] eqn:Ea; [|done].
  intros [= <- <-]. apply orb_false_iff in Er as [_ Er]. split; [by eapply atoi_range|]. by intros ->.
Qed.

(** A keyed cursor reads back as its components on the endpoint that minted it, and as
    nothing at all on one of another arity; what does read back holds no NUL, and
    joined again is what was read. *)
Theorem key_cursor_roundtrip parts want :
  parts <> [] -> Forall (fun p => NUL ∉ p) parts ->
  DecodeKey (EncodeKey parts) want = (if bool_decide (length parts = want) then Some parts else None) /\
  forall s got, DecodeKey s want = Some got ->
    length got = want /\ Forall (fun p => NUL ∉ p) got /\ RawURLDecode s = Some (JoinOn NUL got).
Proof.
  intros Hne Hp. split.
  - unfold DecodeKey, EncodeKey. by rewrite decode_encode, split_join.
  - intros s got. unfold DecodeKey. destruct (RawURLDecode s) as [raw|]; [|done]. case_bool_decide; [|done].
    intros [= <-]. by rewrite join_split; auto using split_none.
Qed.

(** Whatever is asked for, and whatever is not, a page holds between one row and the
    endpoint's most, and asks the database for one more. *)
Theorem page_size_is_bounded Scan cursor limit def max p :
  1 <= def <= max -> max < 2 ^ 31 - 1 -> Parse Scan cursor limit def max = Some p ->
  1 <= pg_Limit p <= max /\ ProbeLimit (pg_Limit p) = pg_Limit p + 1.
Proof.
  intros Hd Hm H. assert (Hl : pg_Limit p = to_int32 (Clamp (default 0 limit) def max)).
  { unfold Parse in H. destruct cursor as [[|c s]|]; try (by injection H as <-).
    destruct (Decode _) as [[at_ rawID]|]; [|done]. destruct (Scan rawID); [by injection H as <-|done]. }
  assert (Hc : 1 <= Clamp (default 0 limit) def max <= max).
  { unfold Clamp. repeat step_case; bool_prop; lia. }
  assert (Hw : forall z, 0 <= z < 2 ^ 31 -> to_int32 z = z).
  { intros z Hz. unfold to_int32. rewrite Z.mod_small; lia. }
  unfold ProbeLimit. rewrite Hl, !Hw by (rewrite ?Hw; lia). lia.
Qed.

(** ** The walk *)

(** What an endpoint owes its clients: the cursor it mints for a row it lists is one its
    next request reads back as that row's place in the order. *)
Class CursorLaws {A K} (listed : A -> Prop) (key : A -> K) (cursor_of : A -> bytes) (read : bytes -> option K) : Prop := {
  read_minted : forall r, listed r -> read (cursor_of r) = Some (key r);
}.

(** The table in the order of the listing: what comes after a row's place is exactly
    the rows behind it. *)
Definition ordered {A K} (after : K -> A -> bool) (key : A -> K) (table : list A) : Prop :=
  forall l1 r l2, table = l1 ++ r :: l2 ->
    after (key r) r = false /\ Forall (fun x => after (key r) x = false) l1 /\ Forall (fun x => after (key r) x = true) l2.

Lemma filter_id {A} (p : A -> bool) l : Forall (fun x => p x = true) l -> List.filter p l = l.
Proof. induction 1 as [|x l Hx _ IH]; cbn [List.filter]; [done|]. by rewrite Hx, IH. Qed.

Lemma ordered_after {A K} (after : K -> A -> bool) key l1 r l2 :
  ordered after key (l1 ++ r :: l2) -> List.filter (after (key r)) (l1 ++ r :: l2) = l2.
Proof.
  intros H. destruct (H l1 r l2 eq_refl) as (Hr & H1 & H2). rewrite List.filter_app. cbn [List.filter]. rewrite Hr.
  rewrite filter_none by (by apply list.Forall_forall). cbn [app].
  by apply filter_id.
Qed.

Section walking.
Context {A K : Type} (listed : A -> Prop) (key : A -> K) (cursor_of : A -> bytes) (read : bytes -> option K)
        `{!CursorLaws listed key cursor_of read}.
Variable after : K -> A -> bool.
Variable limit : Z.
Hypothesis limit_ok : 1 <= limit < 2 ^ 31 - 1.

Lemma probe_limit : ProbeLimit limit = limit + 1.
Proof using limit_ok. unfold ProbeLimit, to_int32. rewrite Z.mod_small; lia. Qed.

(** One page over the rows still to come. *)
Lemma page_of table cursor rows :
  match cursor with None => table | Some k => List.filter (after k) table end = rows ->
  list_page after cursor_of table cursor limit = (rows, None) /\ (length rows <= Z.to_nat limit)%nat \/
  exists l r rest, rows = l ++ r :: rest /\ rest <> [] /\
    list_page after cursor_of table cursor limit = (l ++ [r], Some (cursor_of r)).
Proof using limit_ok.
  intros Hrows. unfold list_page, query, Trim. rewrite Hrows, probe_limit, length_take.
  destruct (Z.ltb_spec limit (Z.of_nat (Nat.min (Z.to_nat (limit + 1)) (length rows)))) as [Hl|Hl].
  - right. set (n := Z.to_nat limit). assert (Hn : (n < length rows)%nat) by lia.
    rewrite take_take. replace (Nat.min n (Z.to_nat (limit + 1))) with n by lia.
    destruct (take n rows) as [|x kept] eqn:Et using rev_ind; [apply (f_equal length) in Et; rewrite length_take in Et; simpl in Et; lia|].
    clear IHkept. exists kept, x, (drop n rows). rewrite rev_app_distr. cbn [rev app].
    split; [by rewrite <- (take_drop n rows) at 1; rewrite Et, <- app_assoc|]. split; [|done].
    intros Hd. apply (f_equal length) in Hd. rewrite length_drop in Hd. simpl in Hd. lia.
  - left. rewrite take_ge by lia. split; [done|lia].
Qed.

Lemma walk_from fuel table cursor rows before :
  ordered after key table -> Forall listed table -> table = before ++ rows ->
  match cursor with None => table | Some k => List.filter (after k) table end = rows ->
  (length rows < fuel)%nat -> walk after cursor_of read fuel table cursor limit = Some rows.
Proof using All.
  intros Ho Hlist. revert cursor rows before. induction fuel as [|fuel IH]; intros cursor rows before Ht Hrows Hf; [lia|].
  cbn [walk]. destruct (page_of table cursor rows Hrows) as [[-> _]|(l & r & rest & Hsplit & Hne & ->)]; [done|].
  rewrite read_minted.
  2:{ apply (proj1 (list.Forall_forall _ _) Hlist). rewrite Ht, Hsplit, !elem_of_app. right. right. by left. }
  rewrite (IH _ rest (before ++ l ++ [r])).
  - simpl. by rewrite Hsplit, <- app_assoc.
  - by rewrite Ht, Hsplit, <- !app_assoc.
  - rewrite Ht, Hsplit, app_assoc. apply ordered_after. by rewrite <- app_assoc, <- Hsplit, <- Ht.
  - rewrite Hsplit, length_app in Hf. simpl in Hf. lia.
Qed.
End walking.

(** C37: A client that follows the cursors of an unchanging listing until there is none left
    sees every row, once, in order, whatever the page size; and gets there, with a
    page to spare. *)
Theorem walking_the_cursors_lists_the_table {A K} (listed : A -> Prop) (key : A -> K) cursor_of read
    `{!CursorLaws listed key cursor_of read} after limit table :
  1 <= limit < 2 ^ 31 - 1 -> ordered after key table -> Forall listed table ->
  walk after cursor_of read (S (length table)) table None limit = Some table.
Proof. intros Hl Ho Hlist. apply (walk_from listed key cursor_of read after limit Hl _ _ _ _ []); auto with lia. Qed.

(** ** The two kinds of listing *)

(** Feeds, newest first: [(created_at, id) < cursor]. *)
Definition feed_after (k row : Z * Z) : bool := (row.1 <? k.1) || ((row.1 =? k.1) && (row.2 <? k.2)).

Section feeds.
Variable Scan : bytes -> option Z.
Variable uuid_text : Z -> bytes.
Definition is_uuid (id : Z) : Prop := 0 <= id < 2 ^ 128.
Hypothesis scan_text : forall id, is_uuid id -> Scan (uuid_text id) = Some id /\ uuid_text id <> [].

Definition feed_cursor (row : Z * Z) : bytes := Encode row.1 (uuid_text row.2).
Definition feed_read (c : bytes) : option (Z * Z) :=
  p ← Parse Scan (Some c) None 50 200; pg_Cursor p.

Lemma feed_laws : CursorLaws (fun row => int64_range row.1 /\ is_uuid row.2) id feed_cursor feed_read.
Proof using scan_text.
  constructor. intros [us i] [Hus Hi]. destruct (scan_text i Hi) as [Hscan Hne]. unfold feed_read, Parse, feed_cursor. cbn [fst snd] in *.
  assert (He : Decode (Encode us (uuid_text i)) = Some (us, uuid_text i)).
  { by apply decode_minted. }
  destruct (Encode us (uuid_text i)) as [|c s]; [by vm_compute in He|]. by rewrite He, Hscan.
Qed.
End feeds.

(** Configuration lists, by a unique slug. *)
Definition slug_after (k : list bytes) (slug : bytes) : bool :=
  match k with
  | [c] => match String.compare (string_of_list_ascii c) (string_of_list_ascii slug) with Lt => true | _ => false end
  | _ => false
  end.
Definition slug_read (c : bytes) : option (list bytes) :=
  p ← ParseKeyPage (Some c) None 1 50 200; if HasKey p then Some (kp_Key p) else None.

Lemma slug_laws : CursorLaws (fun slug => NUL ∉ slug /\ slug <> []) (fun slug => [slug]) (fun slug => EncodeKey [slug]) slug_read.
Proof.
  constructor. intros slug [Hn Hne]. unfold slug_read, ParseKeyPage.
  assert (He : DecodeKey (EncodeKey [slug]) 1 = Some [slug]).
  { unfold DecodeKey, EncodeKey. rewrite decode_encode, split_join; [done|done|by repeat constructor]. }
  destruct (EncodeKey [slug]) as [|c s] eqn:Ek.
  - unfold EncodeKey in Ek. cbn [JoinOn] in Ek. destruct slug as [|a [|b [|c s]]]; done.
  - by rewrite He.
Qed.

(** ** Examples *)

Lemma ordered_sorted {A K} (after : K -> A -> bool) key table :
  (forall a, a ∈ table -> after (key a) a = false) ->
  StronglySorted (fun a b => after (key a) b = true /\ after (key b) a = false) table -> ordered after key table.
Proof.
  intros Hirr Hs l1 r l2 ->. split; [apply Hirr, elem_of_app; right; by left|]. revert Hs. clear Hirr.
  induction l1 as [|x l1 IH]; cbn [app]; intros Hs; inversion_clear Hs as [|? ? Hs' Hx].
  - split; [constructor|]. eapply Forall_impl; [|exact Hx]. by intros y [? _].
  - destruct (IH Hs') as [H1 H2]. split; [|done]. constructor; [|done].
    apply (proj1 (list.Forall_forall _ _) Hx). apply elem_of_app. right. by left.
Qed.

Definition demo_text (id : Z) : bytes := digits id.
Definition demo_scan (s : bytes) : option Z :=
  if bool_decide (s = []) || negb (forallb is_digit s) then None else Some (dec_value s).
Lemma demo_scan_text id : is_uuid id -> demo_scan (demo_text id) = Some id /\ demo_text id <> [].
Proof.
  intros Hi. destruct (digits_spec id) as (Hd & Hv & Hne); [unfold is_uuid in Hi; lia|].
  unfold demo_scan, demo_text. rewrite bool_decide_eq_false_2, Hd, Hv by done. done.
Qed.

Lemma time_cursor_roundtrip_witness :
  Decode (Encode (-1) (lit "0190")) = Some (-1, lit "0190") /\ Encode (-1) (lit "0190") = lit "LTE6MDE5MA".
Proof. split; [apply time_cursor_roundtrip; [by vm_compute|done]|by vm_compute]. Defined.

Lemma key_cursor_roundtrip_witness :
  DecodeKey (EncodeKey [lit "eu:prod"; lit "k"]) 2 = Some [lit "eu:prod"; lit "k"] /\
  DecodeKey (EncodeKey [lit "eu:prod"; lit "k"]) 1 = None.
Proof.
  assert (Hp : Forall (fun p => NUL ∉ p) [lit "eu:prod"; lit "k"]).
  { apply (bool_decide_eq_true_1 (Forall (fun p => NUL ∉ p) [lit "eu:prod"; lit "k"])). by vm_compute. }
  split.
  - rewrite (proj1 (key_cursor_roundtrip [lit "eu:prod"; lit "k"] 2 ltac:(done) Hp)). reflexivity.
  - rewrite (proj1 (key_cursor_roundtrip [lit "eu:prod"; lit "k"] 1 ltac:(done) Hp)). reflexivity.
Defined.

Lemma page_size_is_bounded_witness :
  exists p, Parse demo_scan None (Some 5000) 50 200 = Some p /\ 1 <= pg_Limit p <= 200.
Proof.
  exists (mkPage None 200). split; [reflexivity|].
  apply (page_size_is_bounded demo_scan None (Some 5000) 50 200 (mkPage None 200)); [lia|lia|reflexivity].
Defined.

(** Two rows of one microsecond, and a page boundary between them. *)
Definition demo_feed : list (Z * Z) := [(1700, 9); (1700, 4); (1600, 7); (1600, 3); (12, 1)].

Lemma walking_the_cursors_lists_the_table_witness :
  let read := feed_read demo_scan in
  let cursor_of := feed_cursor demo_text in
  list_page feed_after cursor_of demo_feed None 1 = ([(1700, 9)], Some (cursor_of (1700, 9))) /\
  walk feed_after cursor_of read 6 demo_feed None 1 = Some demo_feed /\
  walk feed_after cursor_of read 6 demo_feed None 2 = Some demo_feed.
Proof.
  intros read cursor_of. split; [by vm_compute|].
  pose proof (feed_laws demo_scan demo_text demo_scan_text) as Hlaws.
  assert (Ho : ordered feed_after id demo_feed).
  { apply ordered_sorted.
    - intros a Ha. apply (proj1 (list.Forall_forall (fun a => feed_after (id a) a = false) demo_feed)); [|done].
      by repeat constructor.
    - by repeat constructor. }
  assert (Hlist : Forall (fun row : Z * Z => int64_range row.1 /\ is_uuid row.2) demo_feed).
  { by repeat constructor. }
  split; apply (walking_the_cursors_lists_the_table (fun row : Z * Z => int64_range row.1 /\ is_uuid row.2) id cursor_of read
                  feed_after _ demo_feed); done.
Defined.
