(* ===== verification/Vendors.v ===== *)
(** * The video vendors: [internal/gateway/video/vendor_*.go] and the shared half of
    [mapper.go]

    Five mappers: the body each sends for a normalised request, and how each vendor's
    answers become a job identifier, a status and something to fetch.  A body is a
    document of [Rewrite.v]; an answer is what its JSON decodes to, as the struct the
    mapper declares, and the text of an error leaves out what it quotes of the answer. *)
From S2P Require Import Prelude GoStr BreakerStore Surfaces UnitPricing Catalog Errors Guard Billing Rotation Ledger.
From S2P Require Import Envelope VideoJobs VideoWorker Http Transport Upstream Outbound Rewrite Forward.

Open Scope Z_scope.

(** ** Parameters that belong to one vendor *)

(** [mergePassthrough]: a key the mapper wrote stands, except that an object under it is
    completed by an object. *)
Fixpoint merge_value (v e : value) {struct v} : value :=
  match v, e with
  | VObject doc, VObject extra =>
      VObject (map (fun '(k, x) => (k, match field extra k with Some y => merge_value x y | None => x end)) doc ++
               List.filter (fun kv => match field doc kv.1 with Some _ => false | None => true end) extra)
  | _, _ => v
  end.
Definition mergePassthrough (doc extra : object) : object :=
  match merge_value (VObject doc) (VObject extra) with VObject o => o | _ => doc end.

(** A field written only where nothing stands. *)
Definition default_field (o : object) (k : bytes) (v : value) : object :=
  match field o k with Some _ => o | None => set_field o k v end.
Definition put_if (b : bool) (k : string) (v : value) : object := if b then [(lit k, v)] else [].
Definition str (s : string) : value := VString (lit s).
Definition num (z : Z) : value := VNumber (itoa z).
Definition nonempty_string (s : string) : bool := negb (bool_decide (s = ""%string)).
Definition orDefault (v fallback : string) : string := if bool_decide (v = ""%string) then fallback else v.

(** ** What the vendors answer *)

Record wanOutput := mkWanOutput { wo_TaskID : string; wo_TaskStatus : string; wo_VideoURL : string; wo_Message : string }.
Record wanTask := mkWanTask { wt_Code : string; wt_Message : string; wt_Output : option wanOutput }.

Record veoStatus := mkVeoStatus { ve_Code : Z; ve_Message : string; ve_Status : string }.
Record veoSample := mkVeoSample { vs_URI : string; vs_MIMEType : string }.
(** [generateVideoResponse], where the response has one. *)
Record veoGenerated := mkVeoGenerated { vg_Samples : list veoSample; vg_FilteredReasons : list string }.
Record veoOperation := mkVeoOperation {
  vo_Name : string; vo_Done : bool; vo_Error : option veoStatus; vo_Response : option (option veoGenerated);
}.

Record klingData := mkKlingData {
  kd_TaskID : string; kd_TaskStatus : string; kd_TaskMsg : string; kd_Videos : option (list string);
}.
Record klingEnvelope := mkKlingEnvelope { kl_Code : Z; kl_Message : string; kl_Data : option klingData }.

(** An identifier spelled as a string, as a number, or as something else. *)
Inductive looseID := IDString (s : string) | IDNumber (n : Z) | IDOther.
Record minimaxResp := mkMinimaxResp {
  mr_TaskID : string; mr_Status : string; mr_FileID : looseID; mr_Base : option (Z * string);
}.
Record minimaxFile := mkMinimaxFile { mf_DownloadURL : option string; mf_Base : option (Z * string) }.

Record volcTask := mkVolcTask {
  vt_ID : string; vt_Status : string; vt_Error : option string; vt_VideoURL : option string;
}.

(** [float64] to [int64]: what [minimaxID] renders. *)
Definition minimaxID (v : looseID) : string :=
  match v with IDString s => s | IDNumber n => show_int n | IDOther => "" end.
Definition minimaxSensitiveContent : Z := 1026.

(** ** Envelopes *)

Definition wanIsImageToVideo (ToLower : string -> string) (model : string) : bool :=
  Contains (lit (ToLower model)) (lit "i2v").
Definition wanDurations : list Z := map Z.of_nat (seq 2 14).

Definition alibaba_envelope (i2v : bool) : Envelope :=
  mkEnvelope wanDurations ["720p"; "1080p"] (if i2v then [] else ["16:9"; "9:16"; "1:1"; "4:3"; "3:4"])
    AudioNever 1 true true 0 true 0 CancelNever 1800.
Definition google_envelope (model : string) : Envelope :=
  mkEnvelope [4; 6; 8] (["720p"; "1080p"] ++ if Contains (lit model) (lit "4k") then ["4k"] else []) ["16:9"; "9:16"]
    AudioAlways 1 true true 3 false 0 CancelNever 900.
Definition kuaishou_envelope : Envelope :=
  mkEnvelope [5; 10] ["720p"; "1080p"] ["16:9"; "9:16"; "1:1"] AudioNever 1 true true 0 true 2500 CancelNever 1800.
Definition minimax_envelope (fast : bool) : Envelope :=
  mkEnvelope [6; 10] (if fast then ["512p"; "768p"] else ["512p"; "768p"; "1080p"]) [] AudioNever 1 true false 0 false
    2000 CancelNever 1800.
Definition volcengine_envelope : Envelope :=
  mkEnvelope [4; 8; 12] ["480p"; "720p"; "1080p"] ["16:9"; "9:16"; "1:1"; "4:3"; "3:4"; "21:9"] AudioOptional 1 true
    false 0 false 2000 CancelNever 1800.

Inductive Vendor := Alibaba | Google | Kuaishou | Minimax | Volcengine.

(** The registry. *)
Definition vendor_slug (v : Vendor) : string :=
  match v with
  | Alibaba => "alibaba" | Google => "google" | Kuaishou => "kuaishou" | Minimax => "minimax"
  | Volcengine => "volcengine"
  end.
Definition registered : list Vendor := [Alibaba; Google; Kuaishou; Minimax; Volcengine].
Definition VendorFor (slug : string) : option Vendor :=
  List.find (fun v => bool_decide (vendor_slug v = slug)) registered.

(** ** Submitting *)

Definition isNotFound (status : Z) : bool := status =? 404.

(** A kling quality mode; and which of its two collections a request belongs to. *)
Definition modeFor (resolution : string) : string :=
  if bool_decide (resolution = "1080p"%string) || bool_decide (resolution = "4k"%string) then "pro" else "std".
Definition klingCollection : string := "/v1/videos/".
Definition klingVariant (r : VideoRequest) : string :=
  if nonempty_string (vr_Image r) then "image2video" else "text2video".

(** [splitDataURL], [veoImageOf]: bytes or a bucket, and nothing else. *)
Definition splitDataURL (s : bytes) : option (bytes * bytes) :=
  if negb (has_prefix s (lit "data:")) then None
  else let '(head, body, found) := cut_byte ","%char (drop 5 s) in
       if found then let '(mime, _, _) := cut_byte ";"%char head in Some (mime, body) else None.
Definition put_nonempty (k : string) (s : bytes) : object := if beq s [] then [] else [(lit k, VString s)].
Definition veoImageOf (ref : string) : result string value :=
  let s := lit ref in
  if has_prefix s (lit "gs://") then Ok (VObject (put_nonempty "gcsUri" s))
  else if has_prefix s (lit "data:") then
    match splitDataURL s with
    | None => Err "video: google: malformed data URL"%string
    | Some (mime, payload) =>
        Ok (VObject (put_nonempty "bytesBase64Encoded" payload ++ put_nonempty "mimeType" mime))
    end
  else Err "video: google: image references must be a data URL or a gs:// URI"%string.

Definition veo_optional (k : string) (ref : string) : result string object :=
  if nonempty_string ref then try v <- veoImageOf ref; Ok [(lit k, v)] else Ok [].
Fixpoint veo_references (refs : list ReferenceImage) : result string (list value) :=
  match refs with
  | [] => Ok []
  | ref :: refs =>
      try img <- veoImageOf (ri_URL ref);
      try rest <- veo_references refs;
      let kind := if bool_decide (ri_Type ref = ReferenceStyle) then "style"%string else "asset"%string in
      Ok (VObject [(lit "image", img); (lit "referenceType", str kind)] :: rest)
  end.
Definition veo_instance (r : VideoRequest) : result string object :=
  try image <- veo_optional "image" (vr_Image r);
  try last <- veo_optional "lastFrame" (vr_LastFrame r);
  try refs <- veo_references (vr_ReferenceImages r);
  Ok (put_if (nonempty_string (vr_Prompt r)) "prompt" (str (vr_Prompt r)) ++ image ++ last ++
      match refs with [] => [] | _ => [(lit "referenceImages", VArray refs)] end).
(** The typed block and its map render alike: an empty value is left out of both. *)
Definition veo_parameters (seed : option Z) (r : VideoRequest) : object :=
  put_if (nonempty_string (vr_AspectRatio r)) "aspectRatio" (str (vr_AspectRatio r)) ++
  put_if (nonempty_string (vr_Resolution r)) "resolution" (str (vr_Resolution r)) ++
  [(lit "durationSeconds", str (show_int (vr_DurationSeconds r)))] ++
  put_if (nonempty_string (vr_NegativePrompt r)) "negativePrompt" (str (vr_NegativePrompt r)) ++
  put_if (negb (vr_N r =? 0)) "numberOfVideos" (num (vr_N r)) ++
  match seed with Some n => [(lit "seed", num n)] | None => [] end.

(** [promptCommands]. *)
Definition promptCommands (seed : option Z) (r : VideoRequest) (audioOn : bool) : string :=
  (vr_Prompt r ++
   (if nonempty_string (vr_Resolution r) then " --resolution " ++ vr_Resolution r else "") ++
   (if (0 <? vr_DurationSeconds r)%Z then " --duration " ++ show_int (vr_DurationSeconds r) else "") ++
   (if nonempty_string (vr_AspectRatio r) then " --ratio " ++ vr_AspectRatio r else "") ++
   (if audioOn then " --audio true" else "") ++
   match seed with Some n => " --seed " ++ show_int n | None => "" end)%string.

Section vendors.
(** [strings.ToLower], [strings.ToUpper]. *)
Variables ToLower ToUpper : string -> string.

Definition upper_resolution (r : string) : string := if nonempty_string r then ToUpper r else "".

Definition wan_media (r : VideoRequest) : list value :=
  (if nonempty_string (vr_Image r)
   then [VObject [(lit "type", str "first_frame"); (lit "url", str (vr_Image r))]] else []) ++
  (if nonempty_string (vr_LastFrame r)
   then [VObject [(lit "type", str "last_frame"); (lit "url", str (vr_LastFrame r))]] else []).
Definition wan_input (r : VideoRequest) : object :=
  put_if (nonempty_string (vr_Prompt r)) "prompt" (str (vr_Prompt r)) ++
  put_if (nonempty_string (vr_NegativePrompt r)) "negative_prompt" (str (vr_NegativePrompt r)) ++
  match wan_media r with [] => [] | media => [(lit "media", VArray media)] end.
Definition wan_parameters (seed : option Z) (model : string) (r : VideoRequest) : object :=
  put_if (nonempty_string (upper_resolution (vr_Resolution r))) "resolution" (str (upper_resolution (vr_Resolution r))) ++
  put_if (0 <? vr_DurationSeconds r) "duration" (num (vr_DurationSeconds r)) ++
  put_if (nonempty_string (vr_AspectRatio r) && negb (wanIsImageToVideo ToLower model)) "ratio" (str (vr_AspectRatio r)) ++
  match seed with Some n => [(lit "seed", num n)] | None => [] end.

Definition alibaba_doc (seed : option Z) (r : VideoRequest) (model : string) : object :=
  [(lit "model", str model); (lit "input", VObject (wan_input r)); (lit "parameters", VObject (wan_parameters seed model r))].
Definition google_doc (seed : option Z) (r : VideoRequest) : result string object :=
  try inst <- veo_instance r;
  Ok [(lit "instances", VArray [VObject inst]); (lit "parameters", VObject (veo_parameters seed r))].
Definition kuaishou_doc (r : VideoRequest) (model : string) : result string object :=
  if nonempty_string (vr_LastFrame r) && negb (bool_decide (modeFor (vr_Resolution r) = "pro"%string))
  then Err "video: kuaishou: an end frame requires 1080p on this model (it is a pro-mode feature)"%string
  else Ok ([(lit "model_name", str model); (lit "prompt", str (vr_Prompt r));
            (lit "mode", str (modeFor (vr_Resolution r)));
            (lit "duration", str (show_int (vr_DurationSeconds r)))] ++
           put_if (nonempty_string (vr_NegativePrompt r)) "negative_prompt" (str (vr_NegativePrompt r)) ++
           put_if (nonempty_string (vr_AspectRatio r)) "aspect_ratio" (str (vr_AspectRatio r)) ++
           put_if (nonempty_string (vr_Image r)) "image" (str (vr_Image r)) ++
           put_if (nonempty_string (vr_LastFrame r)) "image_tail" (str (vr_LastFrame r))).
Definition minimax_doc (r : VideoRequest) (model : string) : object :=
  [(lit "model", str model)] ++
  put_if (nonempty_string (vr_Prompt r)) "prompt" (str (vr_Prompt r)) ++
  put_if (0 <? vr_DurationSeconds r) "duration" (num (vr_DurationSeconds r)) ++
  put_if (nonempty_string (upper_resolution (vr_Resolution r))) "resolution"
    (str (upper_resolution (vr_Resolution r))) ++
  put_if (nonempty_string (vr_Image r)) "first_frame_image" (str (vr_Image r)).
Definition volcengine_doc (seed : option Z) (r : VideoRequest) (model : string) (audioOn : bool) : object :=
  [(lit "model", str model);
   (lit "content", VArray
      (VObject [(lit "type", str "text"); (lit "text", str (promptCommands seed r audioOn))] ::
       if nonempty_string (vr_Image r)
       then [VObject [(lit "type", str "image_url");
                      (lit "image_url", VObject [(lit "url", str (vr_Image r))])]] else []))].

(** What the mapper writes of its own: [Submit] up to the merge of the caller's
    parameters.  [submit_doc] is what is sent, that merge and the defaults included. *)
Definition own_doc (v : Vendor) (seed : option Z) (r : VideoRequest) (model : string) (audioOn : bool) :
    result string object :=
  match v with
  | Alibaba => Ok (alibaba_doc seed r model)
  | Google => google_doc seed r
  | Kuaishou => kuaishou_doc r model
  | Minimax => Ok (minimax_doc r model)
  | Volcengine => Ok (volcengine_doc seed r model audioOn)
  end.

(** What two of them default once the caller has had their say. *)
Definition finish_doc (v : Vendor) (doc : object) : object :=
  match v with
  | Alibaba => match field doc (lit "parameters") with
               | Some (VObject params) =>
                   set_field doc (lit "parameters") (VObject (default_field params (lit "watermark") (VBool false)))
               | _ => doc
               end
  | Minimax => default_field doc (lit "prompt_optimizer") (VBool false)
  | _ => doc
  end.

Definition submit_doc (v : Vendor) (seed : option Z) (passthrough : object) (r : VideoRequest) (model : string)
    (audioOn : bool) : result string object :=
  try doc <- own_doc v seed r model audioOn;
  Ok (finish_doc v (mergePassthrough doc passthrough)).

Definition submit_path (v : Vendor) (r : VideoRequest) (model : string) : string :=
  match v with
  | Alibaba => "/api/v1/services/aigc/video-generation/video-synthesis"
  | Google => "/v1beta/models/" ++ model ++ ":predictLongRunning"
  | Kuaishou => klingCollection ++ klingVariant r
  | Minimax => "/v1/video_generation"
  | Volcengine => "/api/v3/contents/generations/tasks"
  end%string.
Definition submit_headers (v : Vendor) : gmap bytes bytes :=
  match v with Alibaba => {[lit "X-DashScope-Async" := lit "enable"]} | _ => ∅ end.

Definition get (path : string) : VideoOutbound := mkVideoOutbound (lit "GET") (lit path) [] ∅ ∅ [].
Definition get_url (url : string) : VideoOutbound := mkVideoOutbound (lit "GET") [] (lit url) ∅ ∅ [].
Definition get_query (path key v : string) : VideoOutbound :=
  mkVideoOutbound (lit "GET") (lit path) [] {[lit key := lit v]} ∅ [].

Variable Marshal : option object -> result string bytes.

Definition Submit (v : Vendor) (seed : option Z) (passthrough : object) (r : VideoRequest) (model : string)
    (audioOn : bool) : result string VideoOutbound :=
  try doc <- submit_doc v seed passthrough r model audioOn;
  match Marshal (Some doc) with
  | Err _ => Err ("video: " ++ vendor_slug v ++ ": encode request")%string
  | Ok body => Ok (mkVideoOutbound (lit "POST") (lit (submit_path v r model)) [] ∅ (submit_headers v) body)
  end.

(** ** Reading the answers *)

Variable decodeWan : bytes -> result string wanTask.
Variable decodeVeo : bytes -> result string veoOperation.
Variable decodeKling : bytes -> result string klingEnvelope.
Variable decodeMinimax : bytes -> result string minimaxResp.
Variable decodeMinimaxFile : bytes -> result string minimaxFile.
Variable decodeVolc : bytes -> result string volcTask.

Definition nonzero_base (b : option (Z * string)) : bool :=
  match b with Some (c, _) => negb (c =? 0) | None => false end.

Definition alibaba_submitted (body : bytes) : result string string :=
  try task <- decodeWan body;
  if nonempty_string (wt_Code task) then Err "submit refused"%string
  else match wt_Output task with
       | Some o => if nonempty_string (wo_TaskID o) then Ok (wo_TaskID o) else Err "no task id"%string
       | None => Err "no task id"%string
       end.
Definition google_submitted (body : bytes) : result string string :=
  try op <- decodeVeo body;
  if nonempty_string (vo_Name op) then Ok (vo_Name op) else Err "no operation name"%string.
Definition kuaishou_submitted (r : VideoRequest) (body : bytes) : result string string :=
  try env <- decodeKling body;
  match kl_Data env with
  | Some d => if negb (kl_Code env =? 0) || negb (nonempty_string (kd_TaskID d))
              then Err ("submit refused: " ++ kl_Message env)%string
              else Ok (klingVariant r ++ "/" ++ kd_TaskID d)%string
  | None => Err ("submit refused: " ++ kl_Message env)%string
  end.
Definition minimax_submitted (body : bytes) : result string string :=
  try resp <- decodeMinimax body;
  if nonzero_base (mr_Base resp) then Err "submit refused"%string
  else if nonempty_string (mr_TaskID resp) then Ok (mr_TaskID resp) else Err "no task id"%string.
Definition volcengine_submitted (body : bytes) : result string string :=
  try task <- decodeVolc body;
  if nonempty_string (vt_ID task) then Ok (vt_ID task) else Err "no task id"%string.

Definition SubmitResult (v : Vendor) (r : VideoRequest) (status : Z) (body : bytes) : result string string :=
  if negb (okStatus status) then Err "submit returned a refusal"%string
  else match v with
       | Alibaba => alibaba_submitted body
       | Google => google_submitted body
       | Kuaishou => kuaishou_submitted r body
       | Minimax => minimax_submitted body
       | Volcengine => volcengine_submitted body
       end.

(** [checkKlingID]. *)
Definition checkKlingID (upstreamID : string) : bool :=
  let '(variant, id, ok) := cut_byte "/"%char (lit upstreamID) in
  ok && negb (beq id []) && (beq variant (lit "text2video") || beq variant (lit "image2video")).

Definition kuaishou_poll_call (upstreamID : string) : result string VideoOutbound :=
  if checkKlingID upstreamID then Ok (get (klingCollection ++ upstreamID))
  else Err "the task id does not name a task type"%string.
Definition google_poll_call (upstreamID : string) : VideoOutbound :=
  mkVideoOutbound (lit "GET") (lit "/v1beta/" ++ TrimPrefix (lit upstreamID) (lit "/")) [] ∅ ∅ [].

Definition PollCall (v : Vendor) (upstreamID : string) : result string VideoOutbound :=
  match v with
  | Kuaishou => kuaishou_poll_call upstreamID
  | _ =>
      if negb (nonempty_string upstreamID) then Err "nothing to poll"%string
      else match v with
           | Alibaba => Ok (get ("/api/v1/tasks/" ++ upstreamID))
           | Google => Ok (google_poll_call upstreamID)
           | Minimax => Ok (get_query "/v1/query/video_generation" "task_id" upstreamID)
           | _ => Ok (get ("/api/v3/contents/generations/tasks/" ++ upstreamID))
           end
  end%string.

Definition rejected (upstreamStatus message : string) : Poll :=
  no_poll StatusFailed upstreamStatus GatewayVideoContentRejected message.
Definition without_a_video (upstreamStatus contentType : string) : Poll :=
  mkPoll StatusFailed upstreamStatus 100 GatewayVideoContentRejected
    "the upstream reported success without producing a video" false "" contentType.
(** Success, with what to fetch. *)
Definition finished (upstreamStatus ref : string) : Poll :=
  if nonempty_string ref then mkPoll StatusCompleted upstreamStatus 100 "" "" false ref "video/mp4"
  else without_a_video upstreamStatus "video/mp4".
Definition going (s : JobStatus) (upstreamStatus : string) : Poll := no_poll s upstreamStatus "" "".
Definition forgotten (upstreamStatus : string) : Poll := mkPoll StatusFailed upstreamStatus 0 "" "" true "" "".

Definition alibaba_poll (task : wanTask) : Poll :=
  match wt_Output task with
  | None => rejected "unknown" (orDefault (wt_Message task) "the upstream returned no task")
  | Some o =>
      let w := ToUpper (wo_TaskStatus o) in
      if bool_decide (w = "PENDING"%string) then going StatusQueued (wo_TaskStatus o)
      else if bool_decide (w = "RUNNING"%string) then going StatusInProgress (wo_TaskStatus o)
      else if bool_decide (w = "SUCCEEDED"%string) then finished (wo_TaskStatus o) (wo_VideoURL o)
      else if bool_decide (w ∈ ["CANCELED"; "CANCELLED"]%string) then going StatusCanceled (wo_TaskStatus o)
      else if bool_decide (w = "UNKNOWN"%string) then forgotten (wo_TaskStatus o)
      else rejected (wo_TaskStatus o) (orDefault (wo_Message o) "the upstream refused this request")
  end.

Definition google_outcome (response : option (option veoGenerated)) : Poll :=
  match response with
  | Some (Some (mkVeoGenerated (s :: _) _)) =>
      mkPoll StatusCompleted "DONE" 100 "" "" false (vs_URI s) (orDefault (vs_MIMEType s) "video/mp4")
  | Some (Some (mkVeoGenerated [] (x :: l))) => rejected "DONE_EMPTY" (String.concat "; " (x :: l))
  | _ => rejected "DONE_EMPTY" "the upstream produced no video and gave no reason"
  end.
Definition google_poll (op : veoOperation) : Poll :=
  if negb (vo_Done op) then going StatusInProgress "RUNNING"
  else match vo_Error op with
       | Some e => if negb (ve_Code e =? 0) || nonempty_string (ve_Message e)
                   then rejected (ve_Status e) (ve_Message e)
                   else google_outcome (vo_Response op)
       | None => google_outcome (vo_Response op)
       end.

Definition kuaishou_poll (env : klingEnvelope) : Poll :=
  match kl_Data env with
  | None => rejected "unknown" (kl_Message env)
  | Some d =>
      let w := ToLower (kd_TaskStatus d) in
      if bool_decide (w = "submitted"%string) then going StatusQueued (kd_TaskStatus d)
      else if bool_decide (w = "processing"%string) then going StatusInProgress (kd_TaskStatus d)
      else if bool_decide (w = "succeed"%string)
      then finished (kd_TaskStatus d) (match kd_Videos d with Some (url :: _) => url | _ => "" end)
      else rejected (kd_TaskStatus d) (orDefault (kd_TaskMsg d) (kl_Message env))
  end.

Definition minimax_progress (resp : minimaxResp) : Poll :=
  let w := ToLower (mr_Status resp) in
  if bool_decide (w ∈ ["preparing"; "queueing"]%string) then going StatusQueued (mr_Status resp)
  else if bool_decide (w = "processing"%string) then going StatusInProgress (mr_Status resp)
  else if bool_decide (w = "success"%string) then finished (mr_Status resp) (minimaxID (mr_FileID resp))
  else rejected (mr_Status resp) "the upstream refused this request".
Definition minimax_poll (resp : minimaxResp) : result string Poll :=
  match mr_Base resp with
  | Some (c, msg) =>
      if c =? 0 then Ok (minimax_progress resp)
      else if c =? minimaxSensitiveContent then Ok (rejected "content_rejected" msg)
      else Err "poll returned a code"%string
  | None => Ok (minimax_progress resp)
  end.

Definition volcengine_poll (task : volcTask) : Poll :=
  let w := ToLower (vt_Status task) in
  if bool_decide (w ∈ ["queued"; "pending"]%string) then going StatusQueued (vt_Status task)
  else if bool_decide (w ∈ ["running"; "in_progress"; "processing"]%string) then going StatusInProgress (vt_Status task)
  else if bool_decide (w ∈ ["succeeded"; "success"; "done"]%string)
  then finished (vt_Status task) (default "" (vt_VideoURL task))
  else if bool_decide (w ∈ ["cancelled"; "canceled"]%string) then going StatusCanceled (vt_Status task)
  else rejected (vt_Status task) (default "the upstream refused this request" (vt_Error task)).

Definition PollResult (v : Vendor) (status : Z) (body : bytes) : result string Poll :=
  if isNotFound status
  then Ok (forgotten (match v with Google => "NOT_FOUND" | _ => "not_found" end))
  else if negb (okStatus status) then Err "poll returned a refusal"%string
  else match v with
       | Alibaba => try task <- decodeWan body; Ok (alibaba_poll task)
       | Google => try op <- decodeVeo body; Ok (google_poll op)
       | Kuaishou => try env <- decodeKling body; Ok (kuaishou_poll env)
       | Minimax => try resp <- decodeMinimax body; minimax_poll resp
       | Volcengine => try task <- decodeVolc body; Ok (volcengine_poll task)
       end.

(** None of the five can stop a job. *)
Definition CancelMode (v : Vendor) : string := CancelNever.
Definition CancelCall (v : Vendor) (upstreamID : string) : result string VideoOutbound :=
  Err ("video: " ++ vendor_slug v ++ ": " ++
       match v with
       | Kuaishou => "this vendor publishes no cancel; a job cannot be stopped once submitted"
       | _ => "this model cannot be cancelled once submitted"
       end)%string.

(** ** The bytes *)

Definition minimax_artifact (ref contentType : string) : Artifact VideoOutbound :=
  mkArtifact (get_query "/v1/files/retrieve" "file_id" ref) true contentType true.
Definition google_artifact (ref contentType : string) : Artifact VideoOutbound :=
  mkArtifact (get_url ref) true contentType false.
Definition presigned (ref contentType : string) : Artifact VideoOutbound :=
  mkArtifact (get_url ref) false contentType false.

Definition ArtifactCall (v : Vendor) (p : Poll) : result string (Artifact VideoOutbound) :=
  if negb (nonempty_string (po_ArtifactRef p)) then Err "ErrNoArtifact"%string
  else Ok (match v with
           | Minimax => minimax_artifact
           | Google => google_artifact
           | _ => presigned
           end (po_ArtifactRef p) (orDefault (po_ContentType p) "video/mp4")).

Definition minimax_resolved (status : Z) (body : bytes) : result string (Artifact VideoOutbound) :=
  if negb (okStatus status) then Err "retrieving the file returned a refusal"%string
  else try file <- decodeMinimaxFile body;
       if nonzero_base (mf_Base file) then Err "retrieving the file refused"%string
       else match mf_DownloadURL file with
            | Some url => if nonempty_string url then Ok (presigned url "video/mp4") else Err "ErrNoArtifact"%string
            | None => Err "ErrNoArtifact"%string
            end.
Definition ResolveArtifact (v : Vendor) (status : Z) (body : bytes) : result string (Artifact VideoOutbound) :=
  match v with Minimax => minimax_resolved status body | _ => Err "ErrArtifactIsDirect"%string end.

(** The registry's answer, as the interface the worker is written against. *)
Definition mapper_of (v : Vendor) (seed : option Z) (passthrough : object) : Mapper VideoOutbound bytes :=
  mkMapper VideoOutbound bytes (Submit v seed passthrough) (SubmitResult v) (PollCall v) (PollResult v) (CancelCall v)
    (ArtifactCall v) (ResolveArtifact v).
Definition MapperFor (seed : option Z) (passthrough : object) (slug : string) : option (Mapper VideoOutbound bytes) :=
  (fun v => mapper_of v seed passthrough) <$> VendorFor slug.

Definition EnvelopeFor (v : Vendor) (model : string) : Envelope :=
  match v with
  | Alibaba => alibaba_envelope (wanIsImageToVideo ToLower model)
  | Google => google_envelope model
  | Kuaishou => kuaishou_envelope
  | Minimax => minimax_envelope (Contains (lit (ToLower model)) (lit "fast"))
  | Volcengine => volcengine_envelope
  end.
End vendors.

(** ** Helpers *)

Lemma lit_app a b : lit (a ++ b)%string = lit a ++ lit b.
Proof. unfold lit. induction a as [|c a IH]; [done|]. by apply (f_equal (cons c)). Qed.

Lemma nonempty_string_spec s : nonempty_string s = true <-> s <> ""%string.
Proof. unfold nonempty_string. rewrite negb_true_iff, bool_decide_eq_false. done. Qed.

(** A field of a merged object: the mapper's, completed, or else the caller's. *)
Definition merged_field (mine theirs : option value) : option value :=
  match mine with
  | Some x => Some (match theirs with Some y => merge_value x y | None => x end)
  | None => theirs
  end.

Lemma field_map_merge doc extra k :
  field (map (fun '(k, x) => (k, match field extra k with Some y => merge_value x y | None => x end)) doc) k =
  (fun x => match field extra k with Some y => merge_value x y | None => x end) <$> field doc k.
Proof.
  induction doc as [|[k' x] doc IH]; [done|]. cbn [map field].
  destruct (beq k' k) eqn:E; [|exact IH]. by apply beq_true in E as ->.
Qed.

Lemma field_app a b k : field (a ++ b) k = match field a k with Some x => Some x | None => field b k end.
Proof. induction a as [|[k' x] a IH]; [done|]. cbn [app field]. by destruct (beq k' k). Qed.

Lemma field_filter_absent doc extra k :
  field doc k = None ->
  field (List.filter (fun kv => match field doc kv.1 with Some _ => false | None => true end) extra) k = field extra k.
Proof.
  intros Hk. induction extra as [|[k' x] extra IH]; [done|]. cbn [List.filter field fst].
  destruct (beq k' k) eqn:E.
  - apply beq_true in E as ->. rewrite Hk. cbn [field]. by rewrite (proj2 (beq_true _ _) eq_refl).
  - destruct (field doc k'); [exact IH|]. cbn [field]. by rewrite E.
Qed.

Lemma field_merge doc extra k :
  field (mergePassthrough doc extra) k = merged_field (field doc k) (field extra k).
Proof.
  unfold mergePassthrough, merged_field. cbn [merge_value]. rewrite field_app, field_map_merge.
  destruct (field doc k) eqn:E; cbn [fmap option_fmap option_map]; [done|]. by apply field_filter_absent.
Qed.

(** The value at a path of object keys; what is not an object is a setting. *)
Fixpoint at_path (p : list bytes) (v : value) : option value :=
  match p with
  | [] => Some v
  | k :: p => match v with VObject o => match field o k with Some x => at_path p x | None => None end | _ => None end
  end.
Definition is_object (v : value) : bool := match v with VObject _ => true | _ => false end.

Lemma merge_keeps p v e x : at_path p v = Some x -> is_object x = false -> at_path p (merge_value v e) = Some x.
Proof.
  revert v e. induction p as [|k p IH]; intros v e Hp Hx; [injection Hp as ->; by destruct x|].
  destruct v as [| | | | |doc]; try done. destruct e as [| | | | |extra]; try done. cbn [at_path] in Hp |- *.
  change (merge_value (VObject doc) (VObject extra)) with (VObject (mergePassthrough doc extra)). cbn [at_path].
  rewrite field_merge. destruct (field doc k) as [v|]; [|done]. cbn [merged_field].
  destruct (field extra k); [by apply IH|done].
Qed.

Lemma default_field_keeps o k v k' x : field o k' = Some x -> field (default_field o k v) k' = Some x.
Proof.
  intros H. unfold default_field. destruct (field o k) eqn:E; [done|]. rewrite field_set.
  destruct (beq k k') eqn:Ek; [|done]. apply beq_true in Ek as ->. congruence.
Qed.

Lemma finish_keeps v o p x :
  is_object x = false -> at_path p (VObject o) = Some x -> at_path p (VObject (finish_doc v o)) = Some x.
Proof.
  intros Hx Hp. destruct p as [|k p]; [by injection Hp as <-|]. cbn [at_path] in Hp |- *.
  destruct (field o k) as [y|] eqn:Ey; [|done].
  destruct v; cbn [finish_doc]; try by rewrite Ey.
  - destruct (field o (lit "parameters")) as [[]|] eqn:Ep; rewrite ?Ey; try done. rewrite field_set.
    destruct (beq (lit "parameters") k) eqn:E; [|by rewrite Ey]. apply beq_true in E as <-.
    rewrite Ep in Ey. injection Ey as <-.
    destruct p as [|k' p]; [by injection Hp as <-|]. cbn [at_path] in Hp |- *.
    destruct (field fields k') as [z|] eqn:Ez; [|done]. by rewrite (default_field_keeps _ _ _ _ _ Ez).
  - by rewrite (default_field_keeps _ _ _ _ _ Ey).
Qed.

Lemma finished_completed w ref :
  po_Status (finished w ref) = StatusCompleted -> nonempty_string (po_ArtifactRef (finished w ref)) = true.
Proof. unfold finished. by destruct (nonempty_string ref) eqn:E. Qed.

Lemma finished_ends w ref : Terminal (po_Status (finished w ref)) = true.
Proof. unfold finished. by destruct (nonempty_string ref). Qed.

Lemma kling_variant_plain r : "/"%char ∉ lit (klingVariant r).
Proof. unfold klingVariant. destruct (nonempty_string _); vm_compute; intros H; by repeat (apply elem_of_cons in H as [H|H]; [discriminate|]); apply elem_of_nil in H. Qed.

(** What a poll may answer, for a vendor whose answers [fetchable] judges. *)
Definition sound_poll (fetchable : bool) (p : Poll) : Prop :=
  running (po_Status p) || Terminal (po_Status p) = true /\
  (fetchable = true -> po_Status p = StatusCompleted -> nonempty_string (po_ArtifactRef p) = true).

Lemma sound_finished b w ref : sound_poll b (finished w ref).
Proof. split; [by rewrite finished_ends, orb_true_r|]. intros _. apply finished_completed. Qed.
Lemma sound_going b s w : s = StatusQueued \/ s = StatusInProgress \/ s = StatusCanceled -> sound_poll b (going s w).
Proof. by intros [-> | [-> | ->]]. Qed.
Lemma sound_rejected b w m : sound_poll b (rejected w m).
Proof. done. Qed.
Lemma sound_forgotten b w : sound_poll b (forgotten w).
Proof. done. Qed.
Create HintDb polls.
#[export] Hint Resolve sound_finished sound_rejected sound_forgotten : polls.
#[export] Hint Extern 2 (sound_poll _ (going _ _)) => apply sound_going; auto : polls.
Ltac each_word := repeat (case_bool_decide; [by auto with polls|]); by auto with polls.

(** A reference Google's API cannot be given. *)
Definition unsendable (ref : string) : Prop :=
  has_prefix (lit ref) (lit "gs://") = false /\
  (has_prefix (lit ref) (lit "data:") = true -> splitDataURL (lit ref) = None).

Lemma veo_image_refuses ref e : veoImageOf ref = Err e -> unsendable ref.
Proof.
  unfold veoImageOf, unsendable. cbv zeta. destruct (has_prefix _ (lit "gs://")); [done|].
  destruct (has_prefix _ (lit "data:")); [|done]. by destruct (splitDataURL _) as [[]|].
Qed.

Lemma veo_optional_refuses k ref e : veo_optional k ref = Err e -> unsendable ref.
Proof.
  unfold veo_optional. destruct (nonempty_string ref); [|done].
  intros [H|(v & _ & H)]%rbind_err; [by apply veo_image_refuses in H|done].
Qed.

Lemma veo_references_refuse refs e : veo_references refs = Err e -> exists ref, ref ∈ map ri_URL refs /\ unsendable ref.
Proof.
  induction refs as [|r refs IH]; cbn [veo_references map]; [done|].
  intros [H|(v & _ & [H|(l & _ & H)]%rbind_err)]%rbind_err; [| |done].
  - exists (ri_URL r). split; [apply elem_of_cons; by left|by apply veo_image_refuses in H].
  - destruct (IH H) as (ref & Hr & Hu). exists ref. split; [apply elem_of_cons; by right|done].
Qed.

Lemma veo_instance_refuses r e :
  veo_instance r = Err e ->
  exists ref, (ref = vr_Image r \/ ref = vr_LastFrame r \/ ref ∈ map ri_URL (vr_ReferenceImages r)) /\ unsendable ref.
Proof.
  unfold veo_instance.
  intros [H|(? & _ & [H|(? & _ & [H|(? & _ & H)]%rbind_err)]%rbind_err)]%rbind_err; [| | |done].
  - apply veo_optional_refuses in H. eauto.
  - apply veo_optional_refuses in H. eauto.
  - apply veo_references_refuse in H as (ref & ? & ?). eauto.
Qed.

Section vendor_properties.
Variables ToLower ToUpper : string -> string.
Variable decodeWan : bytes -> result string wanTask.
Variable decodeVeo : bytes -> result string veoOperation.
Variable decodeKling : bytes -> result string klingEnvelope.
Variable decodeMinimax : bytes -> result string minimaxResp.
Variable decodeVolc : bytes -> result string volcTask.
Abbreviation poll_result := (PollResult ToLower ToUpper decodeWan decodeVeo decodeKling decodeMinimax decodeVolc).
Abbreviation submit_result := (SubmitResult decodeWan decodeVeo decodeKling decodeMinimax decodeVolc).

Lemma alibaba_sound task : sound_poll true (alibaba_poll ToUpper task).
Proof. unfold alibaba_poll. destruct (wt_Output task); [|by auto with polls]. cbv zeta. each_word. Qed.
Lemma google_outcome_sound r : sound_poll false (google_outcome r).
Proof. by destruct r as [[[[|s l] [|x m]]|]|]. Qed.
Lemma google_sound op : sound_poll false (google_poll op).
Proof.
  unfold google_poll. destruct (negb _); [by auto with polls|]. destruct (vo_Error op); [|apply google_outcome_sound].
  by destruct (_ || _); [|apply google_outcome_sound].
Qed.
Lemma kuaishou_sound env : sound_poll true (kuaishou_poll ToLower env).
Proof. unfold kuaishou_poll. destruct (kl_Data env); [|by auto with polls]. cbv zeta. each_word. Qed.
Lemma volcengine_sound task : sound_poll true (volcengine_poll ToLower task).
Proof. unfold volcengine_poll. cbv zeta. each_word. Qed.
Lemma minimax_sound resp p : minimax_poll ToLower resp = Ok p -> sound_poll true p.
Proof.
  assert (Hp : sound_poll true (minimax_progress ToLower resp)) by (unfold minimax_progress; cbv zeta; each_word).
  unfold minimax_poll. destruct (mr_Base resp) as [[c msg]|]; [|by intros [= <-]].
  destruct (c =? 0); [by intros [= <-]|]. by destruct (c =? _); intros [= <-].
Qed.

Lemma poll_result_sound v status body p :
  poll_result v status body = Ok p -> sound_poll (negb (match v with Google => true | _ => false end)) p.
Proof.
  unfold PollResult. destruct (isNotFound status); [intros [= <-]; by auto with polls|].
  destruct (negb (okStatus status)); [done|]. destruct v; intros (d & _ & H)%rbind_ok; cbn [negb].
  - injection H as <-. apply alibaba_sound.
  - injection H as <-. apply google_sound.
  - injection H as <-. apply kuaishou_sound.
  - by apply minimax_sound in H.
  - injection H as <-. apply volcengine_sound.
Qed.

(** C17: whatever bytes a vendor answers a poll with, the mapper's reading is one of the five
    statuses of the plane, never [expired] — which only the ceiling and the two strikes
    decide — and, for every vendor but Google, a reading of [completed] carries a
    reference that the artifact call accepts: a success with nothing to fetch was turned
    into a failure, so that it is not charged. *)
Theorem a_completed_poll_can_be_fetched v status body p :
  poll_result v status body = Ok p ->
  po_Status p <> StatusExpired /\
  (v <> Google -> po_Status p = StatusCompleted -> exists art, ArtifactCall v p = Ok art).
Proof.
  intros [H1 H2]%poll_result_sound. split; [intros E; by rewrite E in H1|].
  intros Hv Hc. specialize (H2 ltac:(by destruct v) Hc). unfold ArtifactCall. rewrite H2. cbn [negb].
  by eexists.
Qed.

(** What the interface promises of every mapper does not hold of Google's: an operation
    that is done, without an error, whose first sample names no file is read as
    completed — the status that settles the hold — and there is nothing to fetch. *)
Theorem google_completes_without_a_clip name e sample samples reasons mime body status :
  okStatus status = true ->
  decodeVeo body = Ok (mkVeoOperation name true e (Some (Some (mkVeoGenerated (sample :: samples) reasons)))) ->
  (e = None \/ e = Some (mkVeoStatus 0 "" mime)) -> vs_URI sample = ""%string ->
  exists p, poll_result Google status body = Ok p /\ po_Status p = StatusCompleted /\
            ArtifactCall Google p = Err "ErrNoArtifact"%string.
Proof.
  intros Hs Hd He Hu. unfold PollResult.
  assert (Hn : isNotFound status = false).
  { unfold isNotFound, okStatus in *. apply Z.eqb_neq. bool_prop. lia. }
  rewrite Hn, Hs, Hd. cbn [negb rbind]. eexists. split; [reflexivity|].
  unfold google_poll. cbn [vo_Done negb vo_Error vo_Response].
  destruct He as [-> | ->]; cbn [ve_Code ve_Message Z.eqb negb orb nonempty_string google_outcome];
    unfold ArtifactCall; cbn [po_Status po_ArtifactRef]; rewrite Hu; done.
Qed.

(** C24: an upstream secret leaves only towards the account's own host.  A link a vendor
    handed out is fetched without it, through one hop or two, and with an empty key in
    the request that is built; the one vendor whose own links carry it is Google. *)
Theorem a_link_carries_no_credential (decodeMinimaxFile : bytes -> result string minimaxFile) v p status body art
    providerHeaders routeHeaders tp model base key :
  ArtifactCall v p = Ok art \/ ResolveArtifact decodeMinimaxFile v status body = Ok art ->
  v <> Google -> vo_URL (ar_Request art) <> [] ->
  ar_NeedsUpstreamCredential art = false /\
  video_target providerHeaders routeHeaders tp model base key (ar_Request art) (ar_NeedsUpstreamCredential art) =
  video_target providerHeaders routeHeaders tp model base [] (ar_Request art) (ar_NeedsUpstreamCredential art).
Proof.
  intros H Hv Hu. assert (Hn : ar_NeedsUpstreamCredential art = false); [|by rewrite Hn].
  destruct H as [H|H].
  - unfold ArtifactCall in H. destruct (negb _); [done|]. injection H as <-. by destruct v.
  - unfold ResolveArtifact, minimax_resolved in H. destruct v; try done. destruct (negb (okStatus status)); [done|].
    apply rbind_ok in H as (f & _ & H). destruct (nonzero_base _); [done|].
    destruct (mf_DownloadURL f) as [url|]; [|done]. by destruct (nonempty_string url); [injection H as <-|].
Qed.

Lemma kling_id_roundtrip r task :
  nonempty_string task = true ->
  checkKlingID (klingVariant r ++ "/" ++ task) = true.
Proof.
  intros Ht. unfold checkKlingID. rewrite lit_app.
  change (lit ("/" ++ task)%string) with ("/"%char :: lit task). rewrite cut_byte_app by apply kling_variant_plain.
  assert (E : beq (lit task) [] = false).
  { apply beq_false. intros E. apply nonempty_string_spec in Ht. apply Ht. by destruct task. }
  rewrite E. cbn [andb negb]. unfold klingVariant. by destruct (nonempty_string (vr_Image r)).
Qed.

(** Whatever identifier a vendor's submission yields, the poll accepts it and is a bare
    GET under the account's own base address.  For Kling, whose query path is per task
    type, it is the path the job was created at with the vendor's task identifier
    joined on. *)
Theorem a_submitted_job_can_be_polled v r status body id :
  submit_result v r status body = Ok id ->
  exists out, PollCall v id = Ok out /\ vo_Method out = lit "GET" /\ vo_URL out = [] /\ vo_Body out = [] /\
    (v = Kuaishou -> forall model, exists env d,
       decodeKling body = Ok env /\ kl_Data env = Some d /\ kd_TaskID d <> ""%string /\
       vo_Path out = lit (submit_path v r model) ++ lit "/" ++ lit (kd_TaskID d)).
Proof.
  unfold SubmitResult. destruct (negb (okStatus status)); [done|].
  destruct v; unfold alibaba_submitted, google_submitted, kuaishou_submitted, minimax_submitted, volcengine_submitted;
    intros (d & Hd & H)%rbind_ok.
  - destruct (nonempty_string (wt_Code d)); [done|]. destruct (wt_Output d) as [o|]; [|done].
    destruct (nonempty_string (wo_TaskID o)) eqn:E; [|done]. injection H as <-. unfold PollCall. rewrite E.
    by eexists.
  - destruct (nonempty_string (vo_Name d)) eqn:E; [|done]. injection H as <-. unfold PollCall. rewrite E. by eexists.
  - destruct (kl_Data d) as [k|] eqn:Ek; [|done]. destruct (negb (kl_Code d =? 0)); [done|]. cbn [orb] in H.
    destruct (nonempty_string (kd_TaskID k)) eqn:E; [|done]. injection H as <-. unfold PollCall, kuaishou_poll_call.
    rewrite kling_id_roundtrip by done. eexists. split_and!; try reflexivity. intros _ model. exists d, k.
    split_and!; [done|done|by apply nonempty_string_spec|]. cbn [get vo_Path submit_path]. by rewrite !lit_app, <- app_assoc.
  - destruct (nonzero_base _); [done|]. destruct (nonempty_string (mr_TaskID d)) eqn:E; [|done].
    injection H as <-. unfold PollCall. rewrite E. by eexists.
  - destruct (nonempty_string (vt_ID d)) eqn:E; [|done]. injection H as <-. unfold PollCall. rewrite E. by eexists.
Qed.

(** A compatibility surface's own parameters complete the document and never change it:
    every setting the mapper wrote, at any depth of object, stands; and a parameter the
    mapper has no field for arrives as the caller wrote it, defaults included — the
    prompt optimiser and the watermark are only set where the caller said nothing. *)
Theorem passthrough_completes_the_body v seed passthrough r model on doc out :
  own_doc ToLower ToUpper v seed r model on = Ok doc ->
  submit_doc ToLower ToUpper v seed passthrough r model on = Ok out ->
  (forall p x, at_path p (VObject doc) = Some x -> is_object x = false -> at_path p (VObject out) = Some x) /\
  (forall k x, field doc k = None -> field passthrough k = Some x -> field out k = Some x).
Proof.
  intros Hd. unfold submit_doc. rewrite Hd. cbn [rbind]. intros [= <-]. split.
  - intros p x Hp Hx. apply finish_keeps; [done|].
    change (VObject (mergePassthrough doc passthrough)) with (merge_value (VObject doc) (VObject passthrough)).
    by apply merge_keeps.
  - intros k x Hk Hx. assert (Hm : field (mergePassthrough doc passthrough) k = Some x) by (by rewrite field_merge, Hk).
    destruct v; cbn [finish_doc]; try done.
    + destruct (field _ (lit "parameters")) as [[]|] eqn:Ep; try done. rewrite field_set.
      destruct (beq _ k) eqn:E; [|done]. apply beq_true in E as <-.
      cbn [own_doc] in Hd. injection Hd as <-. discriminate Hk.
    + by apply default_field_keeps.
Qed.

(** The request for [n] clips. *)
Definition with_n (r : VideoRequest) (n : Z) : VideoRequest :=
  mkVideoRequest (vr_Model r) (vr_Prompt r) (vr_NegativePrompt r) (vr_DurationSeconds r) (vr_Resolution r)
    (vr_AspectRatio r) (vr_Audio r) (vr_Image r) (vr_LastFrame r) (vr_ReferenceImages r) n.

(** How many clips a request is for is a billed quantity that reaches one vendor: a job
    for [n] clips on any vendor but Google is charged [n] times and the body sent is the
    body of a job for one. *)
Theorem clips_are_billed_and_not_asked_for v seed passthrough r model on n unit :
  v <> Google -> unit <> UnitSecond -> 1 < n ->
  submit_doc ToLower ToUpper v seed passthrough (with_n r n) model on =
    submit_doc ToLower ToUpper v seed passthrough (with_n r 1) model on /\
  exists key, BillingUnits (with_n r n) on unit = {[key := n]} /\ BillingUnits (with_n r 1) on unit = {[key := 1]}.
Proof.
  intros Hv Hu Hn. split; [by destruct v|]. unfold BillingUnits. cbn [with_n vr_N vr_Resolution].
  rewrite bool_decide_eq_false_2 by done. rewrite (proj2 (Z.ltb_ge n 1)) by lia. by eexists.
Qed.

(** What the envelope of a vendor cannot express: the two ways a request it admits is
    refused by the mapper.  Kling's end frame needs the dearer tier; Google fetches no
    link, so every image is bytes or a bucket.  Everything else is submitted. *)
Theorem a_mapper_refuses_only_frames (Marshal : option object -> result string bytes) v seed passthrough r model on e :
  (forall doc, exists b, Marshal (Some doc) = Ok b) ->
  Submit ToLower ToUpper Marshal v seed passthrough r model on = Err e ->
  (v = Kuaishou /\ vr_LastFrame r <> ""%string /\ vr_Resolution r <> "1080p"%string /\ vr_Resolution r <> "4k"%string) \/
  (v = Google /\ exists ref, (ref = vr_Image r \/ ref = vr_LastFrame r \/ ref ∈ map ri_URL (vr_ReferenceImages r)) /\
     unsendable ref).
Proof.
  intros HM H. unfold Submit in H.
  destruct (submit_doc _ _ _ _ _ _ _ _) as [doc|e'] eqn:Ed; cbn [rbind] in H;
    [destruct (HM doc) as [b Hb]; by rewrite Hb in H|]. clear H HM.
  unfold submit_doc in Ed. destruct (own_doc _ _ _ _ _ _ _) as [d|e2] eqn:Eo; [done|]. clear Ed.
  destruct v; try done; [right|left]; (split; [done|]); cbn [own_doc] in Eo; unfold google_doc, kuaishou_doc in Eo.
  2: { destruct (nonempty_string (vr_LastFrame r) && _) eqn:E; [|done]. apply andb_true_iff in E as [E1 E2].
       split; [by apply nonempty_string_spec|]. unfold modeFor in E2.
       destruct (bool_decide (vr_Resolution r = "1080p"%string)) eqn:E3; [done|].
       destruct (bool_decide (vr_Resolution r = "4k"%string)) eqn:E4; [done|].
       by apply bool_decide_eq_false in E3, E4. }
  apply rbind_err in Eo as [Eo|(inst & _ & Eo)]; [|done]. by apply veo_instance_refuses in Eo.
Qed.
End vendor_properties.

(** ** Witnesses *)

Abbreviation demo_request := (mkVideoRequest "veo" "a cat --duration 12" "" 4 "1080p" "" None "" "" [] 1).
Abbreviation demo_wan := (fun _ : bytes => Ok (mkWanTask "" "" (Some (mkWanOutput "t-1" "SUCCEEDED" "https://cdn/1.mp4" "")))).
Abbreviation demo_veo := (fun _ : bytes =>
  Ok (mkVeoOperation "operations/1" true None (Some (Some (mkVeoGenerated [mkVeoSample "" ""] []))))).
Abbreviation demo_kling := (fun _ : bytes => Ok (mkKlingEnvelope 0 "" (Some (mkKlingData "77" "submitted" "" None)))).
Abbreviation demo_minimax := (fun _ : bytes => Ok (mkMinimaxResp "9" "Success" (IDNumber 205) (Some (0, ""%string)))).
Abbreviation demo_file := (fun _ : bytes => Ok (mkMinimaxFile (Some "https://cdn/9.mp4"%string) None)).
Abbreviation demo_volc := (fun _ : bytes => Ok (mkVolcTask "cgt-1" "queued" None None)).
Abbreviation same := (fun s : string => s).

(** The prompt travels as it was written: a command in it reaches this vendor before the
    gateway's own. *)
Example a_prompt_keeps_its_commands :
  promptCommands None demo_request false = "a cat --duration 12 --resolution 1080p --duration 4"%string.
Proof. reflexivity. Qed.

Lemma a_completed_poll_can_be_fetched_witness :
  exists p, PollResult same same demo_wan demo_veo demo_kling demo_minimax demo_volc Alibaba 200 [] = Ok p /\
    po_Status p = StatusCompleted /\ po_Status p <> StatusExpired /\
    exists art, ArtifactCall Alibaba p = Ok art.
Proof.
  eexists. split; [reflexivity|]. split; [reflexivity|].
  destruct (a_completed_poll_can_be_fetched same same demo_wan demo_veo demo_kling demo_minimax demo_volc
    Alibaba 200 [] _ eq_refl) as [H1 H2].
  split; [exact H1|]. apply H2; [discriminate|reflexivity].
Defined.

Lemma google_completes_without_a_clip_witness :
  exists p, PollResult same same demo_wan demo_veo demo_kling demo_minimax demo_volc Google 200 [] = Ok p /\
    po_Status p = StatusCompleted /\ ArtifactCall Google p = Err "ErrNoArtifact"%string.
Proof.
  apply (google_completes_without_a_clip same same demo_wan demo_veo demo_kling demo_minimax demo_volc
    "operations/1" None (mkVeoSample "" "") [] [] "" [] 200); [reflexivity|reflexivity|by left|reflexivity].
Defined.

Lemma a_link_carries_no_credential_witness :
  exists art, ResolveArtifact demo_file Minimax 200 [] = Ok art /\ ar_NeedsUpstreamCredential art = false.
Proof.
  eexists. split; [reflexivity|].
  apply (a_link_carries_no_credential demo_file Minimax (no_poll StatusCompleted "" "" "") 200 [] _ ∅ ∅
    no_transport [] [] (lit "sk")); [by right|discriminate|discriminate].
Defined.

Lemma a_submitted_job_can_be_polled_witness :
  exists out, PollCall Kuaishou "text2video/77" = Ok out /\ vo_Path out = lit "/v1/videos/text2video/77".
Proof.
  destruct (a_submitted_job_can_be_polled demo_wan demo_veo demo_kling demo_minimax demo_volc Kuaishou demo_request
    200 [] "text2video/77" eq_refl) as (out & H & _ & _ & _ & Hk). exists out. split; [exact H|].
  destruct (Hk eq_refl ""%string) as (env & d & [= <-] & [= <-] & _ & Hp). exact Hp.
Defined.

Lemma passthrough_completes_the_body_witness :
  exists out, submit_doc same same Minimax None [(lit "duration", num 10); (lit "prompt_optimizer", VBool true)]
      demo_request "hailuo" false = Ok out /\
    field out (lit "duration") = Some (num 4) /\ field out (lit "prompt_optimizer") = Some (VBool true).
Proof.
  eexists. split; [reflexivity|].
  destruct (passthrough_completes_the_body same same Minimax None
    [(lit "duration", num 10); (lit "prompt_optimizer", VBool true)] demo_request "hailuo" false _ _
    eq_refl eq_refl) as [H1 H2].
  split; [exact (H1 [lit "duration"] (num 4) eq_refl eq_refl)|exact (H2 (lit "prompt_optimizer") _ eq_refl eq_refl)].
Defined.

Lemma clips_are_billed_and_not_asked_for_witness :
  submit_doc same same Kuaishou None [] (with_n demo_request 4) "kling" false =
  submit_doc same same Kuaishou None [] (with_n demo_request 1) "kling" false.
Proof.
  apply (clips_are_billed_and_not_asked_for same same Kuaishou None [] demo_request "kling" false 4 "clip");
    [discriminate|discriminate|lia].
Defined.

Lemma a_mapper_refuses_only_frames_witness :
  unsendable "https://x/1.png" /\ exists e,
    Submit same same (fun _ => Ok []) Google None [] (mkVideoRequest "veo" "" "" 4 "" "" None "https://x/1.png" "" [] 1)
      "veo-3" false = Err e.
Proof.
  split; [|eexists; reflexivity].
  destruct (a_mapper_refuses_only_frames same same (fun _ => Ok []) Google None []
    (mkVideoRequest "veo" "" "" 4 "" "" None "https://x/1.png" "" [] 1) "veo-3" false
    "video: google: image references must be a data URL or a gs:// URI") as [(H & _)|(_ & ref & H & Hu)];
    [by exists []|reflexivity|discriminate|].
  destruct H as [->|[->|H]]; [exact Hu| |by apply elem_of_nil in H].
  split; [reflexivity|discriminate].
Defined.
