(* ===== verification/Json.v ===== *)
(** * Decoding into structs: what [encoding/json] does with a Go type

    [Rewrite.v] keeps a document as its values.  Here is how [json.Unmarshal] fills the
    fields of a struct from them: a key finds its field by its spelling, or failing that
    with the case folded; of several the last counts; a [null] leaves the field as it is;
    another type is an error that decoding ends with.  An [object] is the entries of the
    document in the order written, of equal keys the last.  Folding is that of ASCII: the
    Kelvin sign and the long s, which fold into it, are left out. *)
From S2P Require Import Prelude GoStr Http Transport Outbound Rewrite.

Open Scope Z_scope.

Definition mistyped : string := "json: cannot unmarshal value into Go struct field".

(** The entries that name a field, in order. *)
Definition names (name k : bytes) : bool := beq (map lower k) (map lower name).
Definition members (o : object) (name : string) : list value :=
  map snd (List.filter (fun kv => names (lit name) kv.1) o).

Fixpoint read_all {A} (dec : A -> value -> result string A) (z : A) (vs : list value) : result string A :=
  match vs with
  | [] => Ok z
  | v :: vs => try z <- dec z v; read_all dec z vs
  end.
Definition read {A} (dec : A -> value -> result string A) (z : A) (o : object) (name : string) : result string A :=
  read_all dec z (members o name).

Definition dec_string (z : string) (v : value) : result string string :=
  match v with VString s => Ok (string_of_list_ascii s) | VNull => Ok z | _ => Err mistyped end.
Definition dec_bool (z : bool) (v : value) : result string bool :=
  match v with VBool b => Ok b | VNull => Ok z | _ => Err mistyped end.
(** [int], [int64]: a number that is an integer of 64 bits as it is written. *)
Definition dec_int (z : Z) (v : value) : result string Z :=
  match v with
  | VNumber t => match atoi t with Some n => Ok n | None => Err mistyped end
  | VNull => Ok z
  | _ => Err mistyped
  end.
(** A pointer: [null] makes it nil, anything else decodes into what it points to. *)
Definition dec_ptr {A} (zero : A) (dec : A -> value -> result string A) (z : option A) (v : value) :
    result string (option A) :=
  match v with VNull => Ok None | _ => try x <- dec (default zero z) v; Ok (Some x) end.
(** A struct, by the entries that are decoded into it; so too a map, whose later entries
    replace its earlier ones. *)
Definition dec_struct (z : object) (v : value) : result string object :=
  match v with VObject o => Ok (z ++ o) | VNull => Ok z | _ => Err mistyped end.
Definition dec_map (z : object) (v : value) : result string object :=
  match v with VObject o => Ok (o ++ z) | VNull => Ok [] | _ => Err mistyped end.
Fixpoint read_list {A} (dec : value -> result string A) (vs : list value) : result string (list A) :=
  match vs with
  | [] => Ok []
  | v :: vs => try x <- dec v; try xs <- read_list dec vs; Ok (x :: xs)
  end.
Definition dec_slice {A} (dec : value -> result string A) (z : list A) (v : value) : result string (list A) :=
  match v with VArray l => read_list dec l | VNull => Ok [] | _ => Err mistyped end.
(** A [json.RawMessage] takes any value, [null] too. *)
Definition dec_raw (z : option value) (v : value) : result string (option value) := Ok (Some v).

Definition get_string (o : object) (name : string) : result string string := read dec_string ""%string o name.
Definition get_int (o : object) (name : string) : result string Z := read dec_int 0 o name.

(** Deleting keys, each as it is spelled. *)
Definition delete_keys (keys : list string) (o : object) : object :=
  List.filter (fun kv => negb (existsb (fun k => beq kv.1 (lit k)) keys)) o.

(** ** Lemmas *)

Lemma names_self name : names name name = true.
Proof. by apply beq_spec. Qed.

Lemma members_app a b name : members (a ++ b) name = members a name ++ members b name.
Proof. unfold members. by rewrite List.filter_app, map_app. Qed.

Lemma members_cons k v o name :
  members ((k, v) :: o) name = (if names (lit name) k then [v] else []) ++ members o name.
Proof. unfold members. cbn [List.filter fst]. by destruct (names _ _). Qed.

Lemma field_delete keys o k :
  field (delete_keys keys o) k = if existsb (fun k' => beq k (lit k')) keys then None else field o k.
Proof.
  induction o as [|[k' v] o IH]; cbn [delete_keys List.filter field fst]; [by destruct (existsb _ _)|].
  fold (delete_keys keys o). destruct (existsb (fun x => beq k' (lit x)) keys) eqn:E; cbn [negb field].
  - rewrite IH. destruct (beq k' k) eqn:Ek; [|done]. apply beq_true in Ek as ->. by rewrite E.
  - destruct (beq k' k) eqn:Ek; [|exact IH]. apply beq_true in Ek as ->. by rewrite E.
Qed.
