(* ===== verification/Natives.v ===== *)
(** * The vendors' own surfaces: [internal/gateway/video/native.go] and
    [native_{alibaba,google,kuaishou,minimax,volcengine}.go]

    The gateway answering in a vendor's shape: a request body read into the normalised
    request and what is left of it, a job written back, a refusal written back.
    [Vendors.v] is the other direction, and the two meet in the theorems.  Case and the
    reading of a number as a [float64] are parameters. *)
From S2P Require Import Prelude GoStr BreakerStore Surfaces UnitPricing Catalog Errors Guard Billing Rotation Ledger.
From S2P Require Import Envelope VideoJobs VideoWorker Http Transport Upstream Outbound Rewrite Forward Json Vendors.

Open Scope Z_scope.

(** ** The interface *)

Inductive NativeKind := NativeSubmit | NativePoll | NativeList | NativeCancel | NativeDelete | NativeArtifact.
Definition NativeIDInPath : string := "path".
Definition NativeIDInQuery : string := "query".
Definition NativeIDInPathTail : string := "path_tail".

Record NativeRoute := mkNativeRoute {
  nt_Method : string; nt_Path : string; nt_Kind : NativeKind; nt_Variant : string;
  nt_IDIn : string; nt_IDName : string; nt_IDAlias : bool;
}.
Record NativeRequest := mkNativeRequest {
  nq_Route : NativeRoute; nq_Body : bytes; nq_Path : gmap bytes bytes; nq_Query : gmap bytes bytes;
}.

(** What follows the last slash, or everything. *)
Fixpoint path_tail (s : bytes) : bytes :=
  match s with
  | [] => []
  | c :: s' => if existsb (Ascii.eqb "/") s' then path_tail s' else if Ascii.eqb "/" c then s' else s
  end.
Definition IDFrom (r : NativeRoute) (q : NativeRequest) : bytes :=
  if bool_decide (nt_IDName r = ""%string) then []
  else if bool_decide (nt_IDIn r = NativeIDInQuery) then default [] (nq_Query q !! lit (nt_IDName r))
  else if bool_decide (nt_IDIn r = NativeIDInPathTail) then path_tail (default [] (nq_Path q !! lit (nt_IDName r)))
  else default [] (nq_Path q !! lit (nt_IDName r)).

Record NativeJob := mkNativeJob {
  nj_ID : string; nj_Alias : Z; nj_Model : string; nj_Status : JobStatus; nj_UpstreamStatus : string; nj_Progress : Z;
  nj_ErrorCode : string; nj_ErrorMessage : string; nj_ContentURL : string; nj_DurationSeconds : Z;
  nj_Resolution : string; nj_CreatedAt : Z; nj_UpdatedAt : Z;     (** nanoseconds *)
}.

(** What a surface reads: the request, the seed, and the vendor's own parameters. *)
Record NativeRead := mkNativeRead { nr_Request : VideoRequest; nr_Seed : option Z; nr_Passthrough : object }.

Definition submit_route (path variant : string) : NativeRoute := mkNativeRoute "POST" path NativeSubmit variant "" "" false.
Definition task_route (path variant : string) : NativeRoute := mkNativeRoute "GET" path NativePoll variant "" "task_id" false.

Definition alibaba_routes : list NativeRoute :=
  [submit_route "/api/v1/services/aigc/video-generation/video-synthesis" ""; task_route "/api/v1/tasks/{task_id}" ""].
Definition google_routes : list NativeRoute :=
  [submit_route "/v1beta/models/*" ""; mkNativeRoute "GET" "/v1beta/models/*" NativePoll "" NativeIDInPathTail "*" false].
Definition kuaishou_routes : list NativeRoute :=
  [submit_route "/v1/videos/text2video" "text2video"; submit_route "/v1/videos/image2video" "image2video";
   task_route "/v1/videos/text2video/{task_id}" "text2video"; task_route "/v1/videos/image2video/{task_id}" "image2video"].
Definition minimax_routes : list NativeRoute :=
  [submit_route "/v1/video_generation" "";
   mkNativeRoute "GET" "/v1/query/video_generation" NativePoll "" NativeIDInQuery "task_id" false;
   mkNativeRoute "GET" "/v1/files/retrieve" NativeArtifact "" NativeIDInQuery "file_id" true].
Definition volcengine_routes : list NativeRoute :=
  [submit_route "/api/v3/contents/generations/tasks" ""; task_route "/api/v3/contents/generations/tasks/{task_id}" ""].
Definition Routes (v : Vendor) : list NativeRoute :=
  match v with
  | Alibaba => alibaba_routes
  | Google => google_routes
  | Kuaishou => kuaishou_routes
  | Minimax => minimax_routes
  | Volcengine => volcengine_routes
  end.

(** ** What is priced, in each vendor's spelling *)

Definition klingPriced : list string :=
  ["model_name"; "prompt"; "negative_prompt"; "mode"; "duration"; "aspect_ratio"; "image"; "image_tail"].
Definition hailuoPriced : list string := ["model"; "prompt"; "first_frame_image"; "duration"; "resolution"].
Definition arkPriced : list string := ["model"; "content"; "resolution"; "ratio"; "duration"; "seed"].
Definition wanPricedParameters : list string := ["resolution"; "ratio"; "duration"; "seed"].
Definition wanPricedInput : list string := ["prompt"; "negative_prompt"; "media"; "img_url"].
Definition veoInstanceFields : list string := ["prompt"; "image"; "lastFrame"; "referenceImages"].
Definition veoPricedParameters : list string :=
  ["aspectRatio"; "resolution"; "durationSeconds"; "negativePrompt"; "numberOfVideos"; "seed"].

(** One sub-object without its priced keys, or nothing when nothing is left of it. *)
Definition strip_sub (key : string) (priced : list string) (top : object) : object :=
  match field top (lit key) with
  | Some (VObject sub) =>
      match delete_keys priced sub with
      | [] => drop_field top (lit key)
      | rest => set_field top (lit key) (VObject rest)
      end
  | Some VNull => drop_field top (lit key)
  | _ => top
  end.
Definition wanPassthrough (doc : object) : object :=
  strip_sub "parameters" wanPricedParameters (strip_sub "input" wanPricedInput (drop_field doc (lit "model"))).

Section natives.
Variables ToLower ToUpper : string -> string.
(** [int(f)] of the [float64] a number reads as, if one holds it. *)
Variable Float : bytes -> option Z.

(** Decoding into an [any] fails on a number no [float64] holds. *)
Fixpoint floats (v : value) : bool :=
  match v with
  | VNumber t => match Float t with Some _ => true | None => false end
  | VArray l => forallb floats l
  | VObject o => forallb (fun kv => floats kv.2) o
  | _ => true
  end.
Definition dec_any_map (z : object) (v : value) : result string object :=
  if floats v then dec_map z v else Err mistyped.

(** [veoNumber]. *)
Definition veoNumber (v : option value) : Z :=
  match v with
  | Some (VNumber t) => default 0 (Float t)
  | Some (VString s) => default 0 (atoi (trim_space s))
  | _ => 0
  end.
Definition any_string (v : option value) : option string :=
  match v with Some (VString s) => Some (string_of_list_ascii s) | _ => None end.
Definition nonzero (n : Z) : option Z := if n =? 0 then None else Some n.

(** *** Alibaba *)

Record wanInbound := mkWanInbound {
  wi_Model : string; wi_Prompt : string; wi_NegativePrompt : string; wi_Media : list (string * string);
  wi_ImgURL : string; wi_Parameters : object;
}.
Definition dec_media (v : value) : result string (string * string) :=
  try m <- dec_struct [] v;
  try type <- get_string m "type";
  try url <- get_string m "url";
  Ok (type, url).
Definition wan_inbound (doc : object) : result string wanInbound :=
  try model <- get_string doc "model";
  try input <- read dec_struct [] doc "input";
  try prompt <- get_string input "prompt";
  try negative <- get_string input "negative_prompt";
  try media <- read (dec_slice dec_media) [] input "media";
  try img <- get_string input "img_url";
  try parameters <- read dec_any_map [] doc "parameters";
  Ok (mkWanInbound model prompt negative media img parameters).

(** The frames a media list names; of several of one kind the last. *)
Definition wan_frames (img : string) (media : list (string * string)) : string * string :=
  fold_left (fun '(first, last) '(type, url) =>
    if bool_decide (type = "first_frame"%string) then (url, last)
    else if bool_decide (type = "last_frame"%string) then (first, url) else (first, last)) media (img, ""%string).
Definition alibaba_decode (doc : object) : result string NativeRead :=
  try d <- wan_inbound doc;
  let params := wi_Parameters d in
  let '(first, last) := wan_frames (wi_ImgURL d) (wi_Media d) in
  Ok (mkNativeRead
        (mkVideoRequest (wi_Model d) (wi_Prompt d) (wi_NegativePrompt d) (veoNumber (field params (lit "duration")))
           (match any_string (field params (lit "resolution")) with Some s => ToLower s | None => "" end)
           (default ""%string (any_string (field params (lit "ratio")))) None first last [] 1)
        (nonzero (veoNumber (field params (lit "seed")))) (wanPassthrough doc)).

(** *** Google *)

Definition veoInboundRef (img : option object) : result string string :=
  match img with
  | None => Ok ""%string
  | Some o =>
      try data <- get_string o "bytesBase64Encoded";
      try gcs <- get_string o "gcsUri";
      try mime <- get_string o "mimeType";
      Ok (if nonempty_string gcs then gcs
          else if nonempty_string data then "data:" ++ orDefault mime "image/png" ++ ";base64," ++ data
          else "")%string
  end.
Definition dec_veo_reference (v : value) : result string (string * string) :=
  try ref <- dec_struct [] v;
  try image <- read dec_struct [] ref "image";
  try url <- veoInboundRef (Some image);
  try type <- get_string ref "referenceType";
  Ok (url, type).
(** An instance: the prompt, the two frames, the references with their spelled types. *)
Definition dec_veo_instance (v : value) :
    result string (string * string * string * list (string * string)) :=
  try inst <- dec_struct [] v;
  try prompt <- get_string inst "prompt";
  try image <- read (dec_ptr [] dec_struct) None inst "image";
  try image <- veoInboundRef image;
  try last <- read (dec_ptr [] dec_struct) None inst "lastFrame";
  try last <- veoInboundRef last;
  try refs <- read (dec_slice dec_veo_reference) [] inst "referenceImages";
  Ok (prompt, image, last, refs).

Definition known_instance (v : value) : bool :=
  match v with
  | VObject inst => forallb (fun kv => existsb (fun k => beq kv.1 (lit k)) veoInstanceFields) inst
  | _ => true
  end.
Definition veoPassthrough (doc : object) : result string object :=
  try instances <- match field doc (lit "instances") with
                   | Some (VArray l) =>
                       if forallb (fun v => match v with VObject _ | VNull => true | _ => false end) l then Ok l
                       else Err "instances must be a list of objects"%string
                   | Some VNull | None => Ok []
                   | Some _ => Err "instances must be a list of objects"%string
                   end;
  if negb (forallb known_instance instances) then Err "this gateway does not understand the instance field"%string
  else
    let top := drop_field doc (lit "instances") in
    match field top (lit "parameters") with
    | Some (VObject _) | Some VNull | None => Ok (strip_sub "parameters" veoPricedParameters top)
    | Some _ => Err "parameters must be an object"%string
    end.

Definition veo_reference (ref : string * string) : list ReferenceImage :=
  if nonempty_string ref.1
  then [mkRef ref.1 (if names (lit "style") (lit ref.2) then ReferenceStyle else ReferenceAsset)] else [].
(** The model is in the path, its action after a colon. *)
Definition veo_model (tail : bytes) : result string string :=
  let '(model, action, found) := cut_byte ":" tail in
  if negb found || negb (beq action (lit "predictLongRunning"))
  then Err ("this gateway does not offer models/" ++ string_of_list_ascii tail)%string
  else Ok (string_of_list_ascii model).
Definition google_decode (model : string) (doc : object) : result string NativeRead :=
  try instances <- read (dec_slice dec_veo_instance) [] doc "instances";
  try params <- read dec_any_map [] doc "parameters";
  match instances with
  | [] => Err "the request carries no instance to generate from"%string
  | _ :: _ :: _ => Err "this gateway takes one instance per request; send them as separate calls"%string
  | [(prompt, image, last, refs)] =>
      try passthrough <- veoPassthrough doc;
      let n := veoNumber (field params (lit "numberOfVideos")) in
      Ok (mkNativeRead
            (mkVideoRequest model prompt
               (default ""%string (any_string (field params (lit "negativePrompt"))))
               (veoNumber (field params (lit "durationSeconds")))
               (match any_string (field params (lit "resolution")) with Some s => ToLower s | None => "" end)
               (default ""%string (any_string (field params (lit "aspectRatio"))))
               None image last (refs ≫= veo_reference) (if 0 <? n then n else 1))
            (nonzero (veoNumber (field params (lit "seed")))) passthrough)
  end.

(** *** Kling *)

Record klingRequest := mkKlingRequest {
  kr_ModelName : string; kr_Prompt : string; kr_NegativePrompt : string; kr_Mode : string;
  kr_Duration : option value; kr_AspectRatio : string; kr_Image : string; kr_ImageTail : string;
}.
Definition kling_request (doc : object) : result string klingRequest :=
  try model <- get_string doc "model_name";
  try prompt <- get_string doc "prompt";
  try negative <- get_string doc "negative_prompt";
  try mode <- get_string doc "mode";
  try duration <- read dec_raw None doc "duration";
  try ratio <- get_string doc "aspect_ratio";
  try image <- get_string doc "image";
  try tail <- get_string doc "image_tail";
  Ok (mkKlingRequest model prompt negative mode duration ratio image tail).

(** A string, a number, or nothing; a [null] reads as the empty string. *)
Definition klingDuration (raw : option value) : result string Z :=
  match raw with
  | None => Ok 0
  | Some (VString s) =>
      match atoi (trim_space s) with Some n => Ok n | None => Err "duration is not a number of seconds"%string end
  | Some VNull => Err "duration is not a number of seconds"%string
  | Some v => match dec_int 0 v with Ok n => Ok n | Err _ => Err "duration must be a number of seconds"%string end
  end.
Definition klingResolutionOf (mode : string) : string :=
  if names (lit "pro") (trim_space (lit mode)) then "1080p" else "720p".

Definition kuaishou_decode (variant : string) (doc : object) : result string NativeRead :=
  try d <- kling_request doc;
  try seconds <- klingDuration (kr_Duration d);
  if bool_decide (variant = "image2video"%string) && negb (nonempty_string (kr_Image d))
  then Err "image-to-video requires an image"%string
  else Ok (mkNativeRead
             (mkVideoRequest (kr_ModelName d) (kr_Prompt d) (kr_NegativePrompt d) seconds (klingResolutionOf (kr_Mode d))
                (kr_AspectRatio d) None (kr_Image d) (kr_ImageTail d) [] 1)
             None (delete_keys klingPriced doc)).

(** *** Hailuo *)

Definition minimax_decode (doc : object) : result string NativeRead :=
  try model <- get_string doc "model";
  try prompt <- get_string doc "prompt";
  try image <- get_string doc "first_frame_image";
  try duration <- get_int doc "duration";
  try resolution <- get_string doc "resolution";
  Ok (mkNativeRead
        (mkVideoRequest model prompt "" duration (ToLower resolution) "" None image "" [] 1)
        None (delete_keys hailuoPriced doc)).

(** *** Ark: the commands of a prompt *)

(** The classes of [arkCommand], and the longest run of one. *)
Definition is_space (c : ascii) : bool := existsb (Ascii.eqb c) (map byte_of [9; 10; 12; 13; 32]).
Definition is_name (c : ascii) : bool := between 97 122 c || Ascii.eqb c "_".
Fixpoint span (p : ascii -> bool) (s : bytes) : bytes * bytes :=
  match s with
  | [] => ([], [])
  | c :: s' => if p c then let '(a, b) := span p s' in (c :: a, b) else ([], s)
  end.
(** A match at the head of the text: the name, the value, and what follows.  The three
    classes share no byte, so the longest runs are the only ones that can match. *)
Definition match_command (s : bytes) : option (bytes * bytes * bytes) :=
  if negb (has_prefix s (lit "--")) then None
  else let '(name, s) := span is_name (drop 2 s) in
       let '(gap, s) := span is_space s in
       let '(arg, s) := span (fun c => negb (is_space c)) s in
       if beq name [] || beq gap [] || beq arg [] then None else Some (name, arg, s).

Definition arkReadCommands : list string := ["resolution"; "ratio"; "duration"; "seed"; "audio"].

(** [ReplaceAllStringFunc]: what is left of the text, and the commands taken out of it in
    order.  A match that is not taken out is passed over whole. *)
Fixpoint replace_commands (fuel : nat) (s : bytes) : bytes * list (bytes * bytes) :=
  match fuel, s with
  | S n, c :: s' =>
      match match_command s with
      | Some (name, arg, rest) =>
          let '(out, cmds) := replace_commands n rest in
          if existsb (fun k => beq name (lit k)) arkReadCommands then (out, (name, arg) :: cmds)
          else (take (length s - length rest) s ++ out, cmds)
      | None => let '(out, cmds) := replace_commands n s' in (c :: out, cmds)
      end
  | _, _ => ([], [])
  end.

(** [strings.Fields], and [strings.Join] of them with a space. *)
Fixpoint fields_loop (fuel : nat) (s cur : bytes) : list bytes :=
  let flush := if beq cur [] then [] else [rev cur] in
  match fuel, s with
  | S n, c :: s' =>
      match List.find (fun p => has_prefix s p) spaces with
      | Some p => flush ++ fields_loop n (drop (length p) s) []
      | None => fields_loop n s' (c :: cur)
      end
  | _, _ => flush
  end.
Definition Fields (s : bytes) : list bytes := fields_loop (S (length s)) s [].
Fixpoint join_space (l : list bytes) : bytes :=
  match l with [] => [] | [a] => a | a :: l => a ++ " "%char :: join_space l end.

Definition splitArkCommands (text : string) : string * list (bytes * bytes) :=
  let '(prompt, cmds) := replace_commands (length (lit text)) (lit text) in
  (string_of_list_ascii (join_space (Fields prompt)), cmds).

(** The commands as the map they are kept in: of one name the last. *)
Definition command (cmds : list (bytes * bytes)) (name : string) : option bytes :=
  snd <$> List.find (fun kv => beq kv.1 (lit name)) (rev cmds).

(** What is read of the request so far; the content's items and the scalars write to it. *)
Record arkState := mkArk {
  ak_Prompt : string; ak_Resolution : string; ak_AspectRatio : string; ak_DurationSeconds : Z; ak_Seed : option Z;
  ak_Audio : option bool; ak_Image : string; ak_LastFrame : string; ak_References : list ReferenceImage;
}.
Definition applyArkCommands (r : arkState) (cmds : list (bytes * bytes)) : arkState :=
  mkArk (ak_Prompt r)
    (match command cmds "resolution" with Some v => ToLower (string_of_list_ascii v) | None => ak_Resolution r end)
    (match command cmds "ratio" with Some v => string_of_list_ascii v | None => ak_AspectRatio r end)
    (match command cmds "duration" with Some v => default (ak_DurationSeconds r) (atoi v) | None => ak_DurationSeconds r end)
    (match command cmds "seed" with Some v => match atoi v with Some n => Some n | None => ak_Seed r end | None => ak_Seed r end)
    (match command cmds "audio" with Some v => Some (beq v (lit "true")) | None => ak_Audio r end)
    (ak_Image r) (ak_LastFrame r) (ak_References r).
Definition with_prompt (r : arkState) (p : string) : arkState :=
  mkArk p (ak_Resolution r) (ak_AspectRatio r) (ak_DurationSeconds r) (ak_Seed r) (ak_Audio r) (ak_Image r)
    (ak_LastFrame r) (ak_References r).
Definition with_images (r : arkState) (image last : string) (refs : list ReferenceImage) : arkState :=
  mkArk (ak_Prompt r) (ak_Resolution r) (ak_AspectRatio r) (ak_DurationSeconds r) (ak_Seed r) (ak_Audio r) image last refs.

Record arkItem := mkArkItem { ai_Type : string; ai_Text : string; ai_Role : string; ai_ImageURL : option string }.
Definition dec_image_url (z : option string) (v : value) : result string (option string) :=
  dec_ptr ""%string (fun z v => try o <- dec_struct [] v; read dec_string z o "url") z v.
Definition dec_ark_item (v : value) : result string arkItem :=
  try it <- dec_struct [] v;
  try type <- get_string it "type";
  try text <- get_string it "text";
  try role <- get_string it "role";
  try url <- read dec_image_url None it "image_url";
  Ok (mkArkItem type text role url).
Definition ark_item (r : arkState) (it : arkItem) : result string arkState :=
  if bool_decide (ai_Type it = "text"%string) then
    let '(prompt, cmds) := splitArkCommands (ai_Text it) in Ok (applyArkCommands (with_prompt r prompt) cmds)
  else if bool_decide (ai_Type it = "image_url"%string) then
    match ai_ImageURL it with
    | None => Ok r
    | Some url =>
        if bool_decide (ai_Role it ∈ ["first_frame"; ""]%string)
        then Ok (with_images r url (ak_LastFrame r) (ak_References r))
        else if bool_decide (ai_Role it = "last_frame"%string)
        then Ok (with_images r (ak_Image r) url (ak_References r))
        else if bool_decide (ai_Role it = "reference_image"%string)
        then Ok (with_images r (ak_Image r) (ak_LastFrame r) (ak_References r ++ [mkRef url ReferenceAsset]))
        else Err "this gateway does not understand the image role"%string
    end
  else Ok r.
Fixpoint ark_items (r : arkState) (items : list arkItem) : result string arkState :=
  match items with [] => Ok r | it :: items => try r <- ark_item r it; ark_items r items end.

Definition volcengine_decode (doc : object) : result string NativeRead :=
  try model <- get_string doc "model";
  try content <- read (dec_slice dec_ark_item) [] doc "content";
  try resolution <- get_string doc "resolution";
  try ratio <- get_string doc "ratio";
  try duration <- read (dec_ptr 0 dec_int) None doc "duration";
  try seed <- read (dec_ptr 0 dec_int) None doc "seed";
  try r <- ark_items (mkArk "" "" "" 0 None None "" "" []) content;
  Ok (mkNativeRead
        (mkVideoRequest model (ak_Prompt r) ""
           (default (ak_DurationSeconds r) duration)
           (if nonempty_string resolution then ToLower resolution else ak_Resolution r)
           (if nonempty_string ratio then ratio else ak_AspectRatio r)
           (ak_Audio r) (ak_Image r) (ak_LastFrame r) (ak_References r) 1)
        (match seed with Some n => Some n | None => ak_Seed r end) (delete_keys arkPriced doc)).

(** *** All five *)

Variable Unmarshal : bytes -> result string (option object).

Definition path_model (v : Vendor) (q : NativeRequest) : result string string :=
  match v with Google => veo_model (default [] (nq_Path q !! lit "*")) | _ => Ok ""%string end.
Definition decode_doc (v : Vendor) (variant model : string) (doc : object) : result string NativeRead :=
  match v with
  | Alibaba => alibaba_decode doc
  | Google => google_decode model doc
  | Kuaishou => kuaishou_decode variant doc
  | Minimax => minimax_decode doc
  | Volcengine => volcengine_decode doc
  end.
Definition Decode (v : Vendor) (q : NativeRequest) : result string NativeRead :=
  try model <- path_model v q;
  match Unmarshal (nq_Body q) with
  | Err e => Err ("the request body is not valid JSON: " ++ e)%string
  | Ok doc => decode_doc v (nt_Variant (nq_Route q)) model (default [] doc)
  end.
End natives.

(** ** Writing back *)

Definition wanStatusOf (s : JobStatus) : string :=
  match s with
  | StatusQueued => "PENDING" | StatusInProgress => "RUNNING" | StatusCompleted => "SUCCEEDED"
  | StatusCanceled => "CANCELED" | _ => "FAILED"
  end.
Definition klingStatusOf (s : JobStatus) : string :=
  match s with
  | StatusQueued => "submitted" | StatusInProgress => "processing" | StatusCompleted => "succeed" | _ => "failed"
  end.
Definition hailuoStatusOf (s : JobStatus) : string :=
  match s with
  | StatusQueued => "Queueing" | StatusInProgress => "Processing" | StatusCompleted => "Success" | _ => "Fail"
  end.
Definition arkStatusOf (s : JobStatus) : string :=
  match s with
  | StatusQueued => "queued" | StatusInProgress => "running" | StatusCompleted => "succeeded"
  | StatusCanceled => "cancelled" | _ => "failed"
  end.

(** The operation's name carries the name half of the slug. *)
Definition veoOperationName (job : NativeJob) : string :=
  let '(_, name, found) := cut_byte "/" (lit (nj_Model job)) in
  let model := if found then string_of_list_ascii name else nj_Model job in
  ("models/" ++ orDefault model "video" ++ "/operations/" ++ nj_ID job)%string.

Definition unix (ns : Z) : Z := ns / Second.
Definition unix_milli (ns : Z) : Z := ns / 1000000.
Definition has_content (job : NativeJob) : bool :=
  bool_decide (nj_Status job = StatusCompleted) && nonempty_string (nj_ContentURL job).

Definition alibaba_render (job : NativeJob) : object :=
  [(lit "output", VObject
      ([(lit "task_id", str (nj_ID job)); (lit "task_status", str (wanStatusOf (nj_Status job)))] ++
       put_if (has_content job) "video_url" (str (nj_ContentURL job)) ++
       put_if (nonempty_string (nj_ErrorMessage job)) "code" (str (orDefault (nj_ErrorCode job) "InvalidParameter")) ++
       put_if (nonempty_string (nj_ErrorMessage job)) "message" (str (nj_ErrorMessage job))));
   (lit "request_id", str (nj_ID job))].

Definition veo_response (url : string) : value :=
  VObject [(lit "@type", str "type.googleapis.com/google.ai.generativelanguage.v1beta.PredictLongRunningResponse");
           (lit "generateVideoResponse", VObject [(lit "generatedSamples", VArray
              [VObject [(lit "video", VObject [(lit "uri", str url); (lit "mimeType", str "video/mp4")])]])])].
Definition google_render (job : NativeJob) : object :=
  (lit "name", str (veoOperationName job)) ::
  (if negb (Terminal (nj_Status job)) then [(lit "done", VBool false)]
   else if has_content job then [(lit "done", VBool true); (lit "response", veo_response (nj_ContentURL job))]
   else [(lit "done", VBool true);
         (lit "error", VObject [(lit "code", num 3); (lit "status", str "INVALID_ARGUMENT");
                                (lit "message", str (orDefault (nj_ErrorMessage job) "the upstream produced no video"))])]).

Definition kuaishou_render (job : NativeJob) : object :=
  [(lit "code", num 0); (lit "message", str "SUCCEED"); (lit "request_id", str (nj_ID job));
   (lit "data", VObject
      ([(lit "task_id", str (nj_ID job)); (lit "task_status", str (klingStatusOf (nj_Status job)));
        (lit "task_status_msg", str (nj_ErrorMessage job)); (lit "created_at", num (unix_milli (nj_CreatedAt job)));
        (lit "updated_at", num (unix_milli (nj_UpdatedAt job)))] ++
       put_if (has_content job) "task_result"
         (VObject [(lit "videos", VArray [VObject [(lit "id", str (nj_ID job)); (lit "url", str (nj_ContentURL job));
                                                   (lit "duration", str (show_int (nj_DurationSeconds job)))]])])))].

Definition hailuoOK : value := VObject [(lit "status_code", num 0); (lit "status_msg", str "success")].
Definition ErrNativeNoArtifact : string := "this job has not produced a video".
Definition minimax_file (job : NativeJob) : object :=
  [(lit "file", VObject
      [(lit "file_id", num (nj_Alias job)); (lit "filename", str (nj_ID job ++ ".mp4"));
       (lit "purpose", str "video_generation"); (lit "created_at", num (unix (nj_CreatedAt job)));
       (lit "download_url", str (nj_ContentURL job))]);
   (lit "base_resp", hailuoOK)].
Definition minimax_task (job : NativeJob) : object :=
  [(lit "task_id", str (nj_ID job)); (lit "status", str (hailuoStatusOf (nj_Status job))); (lit "base_resp", hailuoOK)] ++
  put_if (bool_decide (nj_Status job = StatusCompleted)) "file_id" (num (nj_Alias job)).

Definition volcengine_render (job : NativeJob) : object :=
  [(lit "id", str (nj_ID job)); (lit "model", str (nj_Model job)); (lit "status", str (arkStatusOf (nj_Status job)));
   (lit "created_at", num (unix (nj_CreatedAt job))); (lit "updated_at", num (unix (nj_UpdatedAt job)))] ++
  put_if (has_content job) "content" (VObject [(lit "video_url", str (nj_ContentURL job))]) ++
  put_if (nonempty_string (nj_ErrorMessage job)) "error"
    (VObject [(lit "code", str (nj_ErrorCode job)); (lit "message", str (nj_ErrorMessage job))]).

Definition render_doc (v : Vendor) (route : NativeRoute) (job : NativeJob) : result string object :=
  match v with
  | Alibaba => Ok (alibaba_render job)
  | Google => Ok (google_render job)
  | Kuaishou => Ok (kuaishou_render job)
  | Minimax =>
      match nt_Kind route with
      | NativeArtifact => if has_content job then Ok (minimax_file job) else Err ErrNativeNoArtifact
      | _ => Ok (minimax_task job)
      end
  | Volcengine => Ok (volcengine_render job)
  end.

(** *** Refusals *)

Definition wanCodeOf (status : Z) : string :=
  if status =? 401 then "InvalidApiKey"
  else if (status =? 402) || (status =? 403) then "Forbidden.Unpurchased"
  else if status =? 404 then "InvalidParameter"
  else if status =? 429 then "Throttling.RateQuota"
  else if (status =? 400) || (status =? 422) then "InvalidParameter" else "InternalError".
Definition veoStatusName (status : Z) : string :=
  if status =? 400 then "INVALID_ARGUMENT"
  else if status =? 401 then "UNAUTHENTICATED"
  else if (status =? 402) || (status =? 403) then "PERMISSION_DENIED"
  else if status =? 404 then "NOT_FOUND"
  else if status =? 429 then "RESOURCE_EXHAUSTED"
  else if status =? 503 then "UNAVAILABLE" else "INTERNAL".
Definition klingCodeOf (status : Z) : Z :=
  if (status =? 401) || (status =? 403) then 1000
  else if status =? 402 then 1101
  else if status =? 429 then 1302
  else if (400 <=? status) && (status <? 500) then 1200 else 5000.
Definition hailuoCodeOf (status : Z) : Z :=
  if (status =? 401) || (status =? 403) then 1004
  else if status =? 402 then 1008
  else if status =? 404 then 2013
  else if status =? 429 then 1002
  else if (status =? 400) || (status =? 422) then 2013 else 1000.

Definition alibaba_error (status : Z) (code message : string) : object :=
  [(lit "code", str (wanCodeOf status)); (lit "message", str message); (lit "request_id", str "");
   (lit "fairlb_error_code", str code)].
Definition google_error (status : Z) (code message : string) : object :=
  [(lit "error", VObject
      [(lit "code", num status); (lit "message", str message); (lit "status", str (veoStatusName status));
       (lit "details", VArray [VObject [(lit "reason", str code)]])])].
Definition kuaishou_error (status : Z) (code message : string) : object :=
  [(lit "code", num (klingCodeOf status)); (lit "message", str message); (lit "request_id", str "");
   (lit "data", VObject [(lit "fairlb_error_code", str code)])].
Definition minimax_error (status : Z) (code message : string) : object :=
  [(lit "base_resp", VObject [(lit "status_code", num (hailuoCodeOf status)); (lit "status_msg", str message)]);
   (lit "fairlb_error_code", str code)].
Definition volcengine_error (status : Z) (code message : string) : object :=
  [(lit "error", VObject [(lit "code", str code); (lit "message", str message)])].
Definition error_doc (v : Vendor) : Z -> string -> string -> object :=
  match v with
  | Alibaba => alibaba_error
  | Google => google_error
  | Kuaishou => kuaishou_error
  | Minimax => minimax_error
  | Volcengine => volcengine_error
  end.

Section render.
Variable Marshal : option object -> result string bytes.

(** A body that cannot be encoded at all is answered with a fixed one. *)
Definition fixed_error (v : Vendor) : object :=
  match v with
  | Alibaba => [(lit "code", str "InternalError"); (lit "message", str "internal error")]
  | Google => [(lit "error", VObject [(lit "code", num 500); (lit "message", str "internal error"); (lit "status", str "INTERNAL")])]
  | Kuaishou => [(lit "code", num 5000); (lit "message", str "internal error")]
  | Minimax => [(lit "base_resp", VObject [(lit "status_code", num 1000); (lit "status_msg", str "internal error")])]
  | Volcengine => [(lit "error", VObject [(lit "code", str "InternalServiceError"); (lit "message", str "internal error")])]
  end.
(** The text of a fixed body, as it stands in the source. *)
Variable literal : object -> bytes.

Definition Render (v : Vendor) (route : NativeRoute) (job : NativeJob) : result string (Z * bytes) :=
  try doc <- render_doc v route job;
  try body <- Marshal (Some doc);
  Ok (200, body).
Definition RenderError (v : Vendor) (status : Z) (code message : string) : Z * bytes :=
  match Marshal (Some (error_doc v status code message)) with
  | Ok body => (status, body)
  | Err _ => (status, literal (fixed_error v))
  end.
End render.

(** ** Reading a vendor's answers: the struct tags of [vendor_*.go] *)

Section answers.
Variable Float : bytes -> option Z.

(** A pointer to a struct, by its entries. *)
Definition get_struct (o : object) (name : string) : result string (option object) :=
  read (dec_ptr [] dec_struct) None o name.
Definition on_struct {A} (dec : object -> result string A) (o : option object) : result string (option A) :=
  match o with None => Ok None | Some o => try x <- dec o; Ok (Some x) end.

Definition wan_output (o : object) : result string wanOutput :=
  try id <- get_string o "task_id"; try status <- get_string o "task_status";
  try url <- get_string o "video_url"; try message <- get_string o "message";
  Ok (mkWanOutput id status url message).
Definition wan_task (doc : object) : result string wanTask :=
  try code <- get_string doc "code"; try message <- get_string doc "message";
  try output <- get_struct doc "output"; try output <- on_struct wan_output output;
  Ok (mkWanTask code message output).

Definition veo_status (o : object) : result string veoStatus :=
  try code <- get_int o "code"; try message <- get_string o "message"; try status <- get_string o "status";
  Ok (mkVeoStatus code message status).
Definition veo_sample (v : value) : result string veoSample :=
  try o <- dec_struct [] v; try video <- read dec_struct [] o "video";
  try uri <- get_string video "uri"; try mime <- get_string video "mimeType"; Ok (mkVeoSample uri mime).
Definition veo_generated (o : object) : result string veoGenerated :=
  try samples <- read (dec_slice veo_sample) [] o "generatedSamples";
  try reasons <- read (dec_slice (dec_string "")) [] o "raiMediaFilteredReasons"; Ok (mkVeoGenerated samples reasons).
Definition veo_outcome (o : object) : result string (option veoGenerated) :=
  try g <- get_struct o "generateVideoResponse"; on_struct veo_generated g.
Definition veo_operation (doc : object) : result string veoOperation :=
  try name <- get_string doc "name"; try done_ <- read dec_bool false doc "done";
  try e <- get_struct doc "error"; try e <- on_struct veo_status e;
  try response <- get_struct doc "response"; try response <- on_struct veo_outcome response;
  Ok (mkVeoOperation name done_ e response).

Definition kling_video (v : value) : result string string := try o <- dec_struct [] v; get_string o "url".
Definition kling_videos (o : object) : result string (list string) := read (dec_slice kling_video) [] o "videos".
Definition kling_data (o : object) : result string klingData :=
  try id <- get_string o "task_id"; try status <- get_string o "task_status"; try msg <- get_string o "task_status_msg";
  try res <- get_struct o "task_result"; try videos <- on_struct kling_videos res; Ok (mkKlingData id status msg videos).
Definition kling_envelope (doc : object) : result string klingEnvelope :=
  try code <- get_int doc "code"; try message <- get_string doc "message";
  try data <- get_struct doc "data"; try data <- on_struct kling_data data; Ok (mkKlingEnvelope code message data).

Definition loose_id (v : option value) : result string looseID :=
  match v with
  | Some (VString s) => Ok (IDString (string_of_list_ascii s))
  | Some (VNumber t) => match Float t with Some n => Ok (IDNumber n) | None => Err mistyped end
  | _ => Ok IDOther
  end.
Definition minimax_base (o : object) : result string (Z * string) :=
  try code <- get_int o "status_code"; try msg <- get_string o "status_msg"; Ok (code, msg).
Definition minimax_resp (doc : object) : result string minimaxResp :=
  try id <- get_string doc "task_id"; try status <- get_string doc "status";
  try file <- read dec_raw None doc "file_id"; try file <- loose_id file;
  try base <- get_struct doc "base_resp"; try base <- on_struct minimax_base base; Ok (mkMinimaxResp id status file base).
Definition minimax_file_url (o : object) : result string string :=
  try file <- read dec_raw None o "file_id"; try _ <- loose_id file; get_string o "download_url".
Definition minimax_file_record (doc : object) : result string minimaxFile :=
  try file <- get_struct doc "file"; try url <- on_struct minimax_file_url file;
  try base <- get_struct doc "base_resp"; try base <- on_struct minimax_base base; Ok (mkMinimaxFile url base).

Definition volc_error (o : object) : result string string := try _ <- get_string o "code"; get_string o "message".
Definition volc_task (doc : object) : result string volcTask :=
  try id <- get_string doc "id"; try status <- get_string doc "status";
  try e <- get_struct doc "error"; try e <- on_struct volc_error e;
  try content <- get_struct doc "content"; try url <- on_struct (fun o => get_string o "video_url") content;
  Ok (mkVolcTask id status e url).
End answers.

(** ** Reading what was rendered *)

Lemma text_lit s : string_of_list_ascii (lit s) = s.
Proof. apply string_of_list_ascii_of_string. Qed.

Lemma read_one {A} (dec : A -> value -> result string A) z o name v :
  members o name = [v] -> read dec z o name = dec z v.
Proof. intros H. unfold read. rewrite H. cbn [read_all]. by destruct (dec z v). Qed.
Lemma read_none {A} (dec : A -> value -> result string A) z o name : members o name = [] -> read dec z o name = Ok z.
Proof. intros H. unfold read. by rewrite H. Qed.

Lemma get_string_str o name s : members o name = [str s] -> get_string o name = Ok s.
Proof. intros H. unfold get_string. rewrite (read_one _ _ _ _ _ H). cbn. by rewrite text_lit. Qed.
Lemma get_string_none o name : members o name = [] -> get_string o name = Ok ""%string.
Proof. apply read_none. Qed.
Lemma get_int_num o name n : int64_range n -> members o name = [num n] -> get_int o name = Ok n.
Proof. intros Hn H. unfold get_int. rewrite (read_one _ _ _ _ _ H). cbn. by rewrite atoi_itoa. Qed.
Lemma get_int_none o name : members o name = [] -> get_int o name = Ok 0.
Proof. apply read_none. Qed.
Lemma get_struct_object o name s : members o name = [VObject s] -> get_struct o name = Ok (Some s).
Proof. intros H. unfold get_struct. by rewrite (read_one _ _ _ _ _ H). Qed.
Lemma get_struct_none o name : members o name = [] -> get_struct o name = Ok None.
Proof. apply read_none. Qed.

(** Reads every field of a document whose keys are known. *)
Ltac read_fields :=
  repeat match goal with
  | |- context [get_string ?o ?n] => first [rewrite (get_string_none o n eq_refl) | erewrite (get_string_str o n) by reflexivity]
  | |- context [get_struct ?o ?n] => first [rewrite (get_struct_none o n eq_refl) | erewrite (get_struct_object o n) by reflexivity]
  | |- context [get_int ?o ?n] => first [rewrite (get_int_none o n eq_refl) | erewrite (get_int_num o n) by (done || reflexivity)]
  | |- context [read ?d ?z ?o ?n] => first [rewrite (read_none d z o n eq_refl) | erewrite (read_one d z o n) by reflexivity]
  | |- _ => progress cbn [rbind on_struct dec_slice read_list dec_struct dec_bool dec_raw app snd]
  end.

Definition url_of (job : NativeJob) : string := if has_content job then nj_ContentURL job else "".

Lemma nonempty_string_false s : nonempty_string s = false -> s = ""%string.
Proof. unfold nonempty_string. intros H. by apply negb_false_iff, bool_decide_eq_true in H. Qed.

Lemma wan_task_render job :
  wan_task (alibaba_render job) =
  Ok (mkWanTask "" "" (Some (mkWanOutput (nj_ID job) (wanStatusOf (nj_Status job)) (url_of job) (nj_ErrorMessage job)))).
Proof.
  unfold wan_task, alibaba_render, url_of, wan_output. destruct (has_content job);
    (destruct (nonempty_string (nj_ErrorMessage job)) eqn:Em; cbn [put_if app]; read_fields; [done|]);
    by rewrite (nonempty_string_false _ Em).
Qed.

Lemma veo_operation_render job :
  veo_operation (google_render job) =
  Ok (mkVeoOperation (veoOperationName job) (Terminal (nj_Status job))
        (if Terminal (nj_Status job) && negb (has_content job)
         then Some (mkVeoStatus 3 (orDefault (nj_ErrorMessage job) "the upstream produced no video") "INVALID_ARGUMENT") else None)
        (if Terminal (nj_Status job) && has_content job
         then Some (Some (mkVeoGenerated [mkVeoSample (nj_ContentURL job) "video/mp4"] [])) else None)).
Proof.
  unfold veo_operation, google_render. destruct (Terminal (nj_Status job)) eqn:Et; cbn [negb andb].
  - destruct (has_content job) eqn:Eh; cbn [negb]; read_fields.
    + unfold veo_outcome, veo_response, veo_generated. read_fields. unfold veo_generated. read_fields.
      unfold veo_sample at 1. by read_fields.
    + unfold veo_status. by read_fields.
  - by read_fields.
Qed.

Lemma kling_envelope_render job :
  kling_envelope (kuaishou_render job) =
  Ok (mkKlingEnvelope 0 "SUCCEED"
        (Some (mkKlingData (nj_ID job) (klingStatusOf (nj_Status job)) (nj_ErrorMessage job)
                 (if has_content job then Some [nj_ContentURL job] else None)))).
Proof.
  unfold kling_envelope, kuaishou_render. destruct (has_content job); cbn [put_if app]; read_fields; unfold kling_data; read_fields.
  - unfold kling_videos. read_fields. unfold kling_video. by read_fields.
  - done.
Qed.

Lemma minimax_resp_render Float job :
  Float (itoa (nj_Alias job)) = Some (nj_Alias job) ->
  minimax_resp Float (minimax_task job) =
  Ok (mkMinimaxResp (nj_ID job) (hailuoStatusOf (nj_Status job))
        (if bool_decide (nj_Status job = StatusCompleted) then IDNumber (nj_Alias job) else IDOther) (Some (0, "success"%string))).
Proof.
  intros Hf. unfold minimax_resp, minimax_task. destruct (bool_decide _); cbn [put_if app]; read_fields;
    cbn [loose_id]; unfold num; rewrite ?Hf; cbn [rbind]; unfold hailuoOK, minimax_base; by read_fields.
Qed.

Lemma minimax_file_render Float job :
  Float (itoa (nj_Alias job)) = Some (nj_Alias job) ->
  minimax_file_record Float (minimax_file job) = Ok (mkMinimaxFile (Some (nj_ContentURL job)) (Some (0, "success"%string))).
Proof.
  intros Hf. unfold minimax_file_record, minimax_file. read_fields. unfold minimax_file_url. read_fields.
  unfold loose_id, num. rewrite Hf. read_fields. unfold hailuoOK, minimax_base. by read_fields.
Qed.

Lemma volc_task_render job :
  volc_task (volcengine_render job) =
  Ok (mkVolcTask (nj_ID job) (arkStatusOf (nj_Status job))
        (if nonempty_string (nj_ErrorMessage job) then Some (nj_ErrorMessage job) else None)
        (if has_content job then Some (nj_ContentURL job) else None)).
Proof.
  unfold volc_task, volcengine_render.
  destruct (has_content job), (nonempty_string (nj_ErrorMessage job)); cbn [put_if app]; read_fields;
    unfold volc_error; by read_fields.
Qed.

(** ** What a client of the vendor sees of a job *)

(** The case functions on ASCII text. *)
Definition ascii_case (ToLower ToUpper : string -> string) : Prop :=
  forall s, forallb (fun c => ord c <? 128) (lit s) = true ->
    ToLower s = string_of_list_ascii (map lower (lit s)) /\ ToUpper s = string_of_list_ascii (map upper (lit s)).

(** The document a vendor's own client decodes, poll by poll. *)
Definition answers (Float : bytes -> option Z) (decodeWan : bytes -> result string wanTask)
    (decodeVeo : bytes -> result string veoOperation) (decodeKling : bytes -> result string klingEnvelope)
    (decodeMinimax : bytes -> result string minimaxResp) (decodeVolc : bytes -> result string volcTask)
    (body : bytes) (doc : object) : Prop :=
  decodeWan body = wan_task doc /\ decodeVeo body = veo_operation doc /\ decodeKling body = kling_envelope doc /\
  decodeMinimax body = minimax_resp Float doc /\ decodeVolc body = volc_task doc.

(** What the word a vendor has for a status is read back as. *)
Definition as_polled (v : Vendor) (s : JobStatus) : JobStatus :=
  match v, s with
  | Google, StatusQueued | Google, StatusExpired => StatusInProgress
  | Google, StatusCanceled => StatusFailed
  | (Kuaishou | Minimax), StatusCanceled => StatusFailed
  | (Alibaba | Kuaishou | Minimax | Volcengine), StatusExpired => StatusFailed
  | _, s => s
  end.
(** What a finished job's bytes are addressed by. *)
Definition reference_of (v : Vendor) (job : NativeJob) : string :=
  match v with Minimax => show_int (nj_Alias job) | _ => nj_ContentURL job end.

Lemma show_int_nonempty n : nonempty_string (show_int n) = true.
Proof.
  unfold show_int, itoa. destruct (Z.ltb_spec n 0) as [H|H]; [done|]. apply nonempty_string_spec.
  destruct (digits_spec n H) as (_ & _ & Hd). by destruct (digits n).
Qed.

Section polled.
Variables ToLower ToUpper : string -> string.
Hypothesis case : ascii_case ToLower ToUpper.
Variable Float : bytes -> option Z.
Variable decodeWan : bytes -> result string wanTask.
Variable decodeVeo : bytes -> result string veoOperation.
Variable decodeKling : bytes -> result string klingEnvelope.
Variable decodeMinimax : bytes -> result string minimaxResp.
Variable decodeVolc : bytes -> result string volcTask.
Abbreviation poll_result := (PollResult ToLower ToUpper decodeWan decodeVeo decodeKling decodeMinimax decodeVolc).

Lemma lower_word s w : forallb (fun c => ord c <? 128) (lit s) = true ->
  string_of_list_ascii (map lower (lit s)) = w -> ToLower s = w.
Proof using case. intros H <-. apply (case s H). Qed.
Lemma upper_word s w : forallb (fun c => ord c <? 128) (lit s) = true ->
  string_of_list_ascii (map upper (lit s)) = w -> ToUpper s = w.
Proof using case. intros H <-. apply (case s H). Qed.

(** What a poll of a rendered job must be. *)
Definition polled (v : Vendor) (job : NativeJob) (p : Poll) : Prop :=
  po_Status p = as_polled v (nj_Status job) /\ po_NotFound p = false /\
  (po_Status p = StatusCompleted -> po_ArtifactRef p = reference_of v job /\ nonempty_string (po_ArtifactRef p) = true).

Section one.
Variable job : NativeJob.
Hypothesis content : nj_Status job = StatusCompleted -> nj_ContentURL job <> ""%string.

Lemma content_of : has_content job = bool_decide (nj_Status job = StatusCompleted).
Proof using content.
  unfold has_content. case_bool_decide as E; [|done]. cbn [andb]. by apply nonempty_string_spec, content.
Qed.

Lemma finished_polled v s ref : nj_Status job = StatusCompleted -> as_polled v StatusCompleted = StatusCompleted ->
  nonempty_string ref = true -> ref = reference_of v job -> polled v job (finished s ref).
Proof using. intros Hs Ha Hn Hr. unfold finished, polled. rewrite Hn, Hs. cbn. by rewrite Ha. Qed.

Ltac words lem := erewrite lem by reflexivity.
Ltac finished_job v :=
  apply (finished_polled v); [done|done|by apply nonempty_string_spec, content|done].

Lemma alibaba_polled : forall task, wan_task (alibaba_render job) = Ok task -> polled Alibaba job (alibaba_poll ToUpper task).
Proof using case content.
  intros task. rewrite wan_task_render. intros [= <-]. unfold alibaba_poll, url_of. cbn [wt_Output wo_TaskStatus wo_VideoURL wo_Message].
  rewrite content_of. destruct (nj_Status job) eqn:Es; cbn [wanStatusOf]; words upper_word; try (unfold polled; rewrite Es; done).
  finished_job Alibaba.
Qed.
Lemma google_polled : forall op, veo_operation (google_render job) = Ok op -> polled Google job (google_poll op).
Proof using content.
  intros op. rewrite veo_operation_render. intros [= <-]. unfold google_poll. cbn [vo_Done vo_Error vo_Response]. rewrite content_of.
  destruct (nj_Status job) eqn:Es; unfold polled; rewrite Es; cbn; try done.
  split_and!; try done. intros _. by split; [|apply nonempty_string_spec, content].
Qed.
Lemma kuaishou_polled : forall env, kling_envelope (kuaishou_render job) = Ok env -> polled Kuaishou job (kuaishou_poll ToLower env).
Proof using case content.
  intros env. rewrite kling_envelope_render. intros [= <-]. unfold kuaishou_poll. cbn [kl_Data kd_TaskStatus kd_Videos kd_TaskMsg].
  rewrite content_of. destruct (nj_Status job) eqn:Es; cbn [klingStatusOf]; words lower_word; try (unfold polled; rewrite Es; done).
  finished_job Kuaishou.
Qed.
Lemma minimax_polled : Float (itoa (nj_Alias job)) = Some (nj_Alias job) ->
  forall resp, minimax_resp Float (minimax_task job) = Ok resp -> exists p, minimax_poll ToLower resp = Ok p /\ polled Minimax job p.
Proof using case content.
  intros Hf resp. rewrite minimax_resp_render by done. intros [= <-]. unfold minimax_poll, minimax_progress. cbn [mr_Base mr_Status mr_FileID Z.eqb].
  eexists. split; [reflexivity|].
  destruct (nj_Status job) eqn:Es; cbn [hailuoStatusOf]; words lower_word; try (unfold polled; rewrite Es; done).
  apply (finished_polled Minimax); [done|done|apply show_int_nonempty|done].
Qed.
Lemma volcengine_polled : forall task, volc_task (volcengine_render job) = Ok task -> polled Volcengine job (volcengine_poll ToLower task).
Proof using case content.
  intros task. rewrite volc_task_render. intros [= <-]. unfold volcengine_poll. cbn [vt_Status vt_VideoURL vt_Error].
  rewrite content_of. destruct (nj_Status job) eqn:Es; cbn [arkStatusOf]; words lower_word; try (unfold polled; rewrite Es; done).
  finished_job Volcengine.
Qed.
End one.

(** A job written back in a vendor's shape and read by a client of that vendor — this
    gateway's own mapper among them — is what it was: running while it runs, completed
    exactly when it completed, with something to fetch, and failed or canceled when it
    is over without a clip; except that Google's surface reports an expired job as
    running. *)
Theorem a_rendered_job_polls_as_itself v route job doc body :
  nt_Kind route <> NativeArtifact -> render_doc v route job = Ok doc ->
  answers Float decodeWan decodeVeo decodeKling decodeMinimax decodeVolc body doc ->
  (nj_Status job = StatusCompleted -> nj_ContentURL job <> ""%string) ->
  Float (itoa (nj_Alias job)) = Some (nj_Alias job) ->
  exists p, poll_result v 200 body = Ok p /\ po_Status p = as_polled v (nj_Status job) /\ po_NotFound p = false /\
    (po_Status p = StatusCompleted ->
       po_ArtifactRef p = reference_of v job /\ exists art, ArtifactCall v p = Ok art).
Proof using case.
  intros Hk Hr (Hw & Hg & Hq & Hm & Hv) Hc Hf.
  assert (Hp : exists p, poll_result v 200 body = Ok p /\ polled v job p).
  { unfold PollResult. change (isNotFound 200) with false. change (okStatus 200) with true. cbn [negb].
    assert (Hm' : v = Minimax -> doc = minimax_task job) by (intros ->; cbn in Hr; destruct (nt_Kind route); by try injection Hr).
    destruct v; cbn [render_doc] in Hr; try (injection Hr as <-); [..|rewrite (Hm' eq_refl) in Hm|].
    - rewrite Hw, wan_task_render. eexists. split; [reflexivity|]. eapply alibaba_polled; [done|apply wan_task_render].
    - rewrite Hg, veo_operation_render. eexists. split; [reflexivity|]. eapply google_polled; [done|apply veo_operation_render].
    - rewrite Hq, kling_envelope_render. eexists. split; [reflexivity|]. eapply kuaishou_polled; [done|apply kling_envelope_render].
    - rewrite Hm, minimax_resp_render by done. eapply minimax_polled; [done|done|by apply minimax_resp_render].
    - rewrite Hv, volc_task_render. eexists. split; [reflexivity|]. eapply volcengine_polled; [done|apply volc_task_render]. }
  destruct Hp as (p & Hp & Hs & Hn & Ha). exists p. split_and!; [done..|]. intros Hd. destruct (Ha Hd) as [Hr' Hne].
  split; [done|]. unfold ArtifactCall. rewrite Hne. by eexists.
Qed.

(** What that exception costs: a client of Google's surface waits for a job that is over
    for as long as it is willing to ask. *)
Theorem an_expired_job_never_ends route job body :
  nj_Status job = StatusExpired ->
  exists doc, render_doc Google route job = Ok doc /\
    (answers Float decodeWan decodeVeo decodeKling decodeMinimax decodeVolc body doc ->
     exists p, poll_result Google 200 body = Ok p /\ running (po_Status p) = true).
Proof using.
  intros Hs. eexists. split; [reflexivity|]. intros (_ & Hg & _). unfold PollResult.
  change (isNotFound 200) with false. change (okStatus 200) with true. cbn [negb].
  rewrite Hg, veo_operation_render. eexists. split; [reflexivity|]. unfold google_poll. cbn [vo_Done]. by rewrite Hs.
Qed.
End polled.

(** ** Nothing that is priced is passed on *)

(** The places a vendor's own API reads something that decides the charge or what is
    made, as it documents them: the model, what is to be shown, and the axes a clip is
    priced by.  Everything the mapper itself writes is at one of them
    ([own_is_priced]); beside those stand the places a caller could use instead. *)
Definition priced_paths (v : Vendor) : list (list string) :=
  match v with
  | Alibaba => [["model"]; ["input"; "prompt"]; ["input"; "negative_prompt"]; ["input"; "media"]; ["input"; "img_url"];
                ["parameters"; "resolution"]; ["parameters"; "ratio"]; ["parameters"; "duration"]; ["parameters"; "seed"]]
  | Google => [["instances"]; ["parameters"; "aspectRatio"]; ["parameters"; "resolution"]; ["parameters"; "durationSeconds"];
               ["parameters"; "negativePrompt"]; ["parameters"; "numberOfVideos"]; ["parameters"; "seed"]]
  | Kuaishou => [["model_name"]; ["prompt"]; ["negative_prompt"]; ["mode"]; ["duration"]; ["aspect_ratio"]; ["image"]; ["image_tail"]]
  | Minimax => [["model"]; ["prompt"]; ["first_frame_image"]; ["duration"]; ["resolution"]]
  | Volcengine => [["model"]; ["content"]; ["resolution"]; ["ratio"]; ["duration"]; ["seed"]]
  end%string.

Lemma merge_absent p x y : at_path p y = None -> at_path p (merge_value x y) = at_path p x.
Proof.
  revert x y. induction p as [|k p IH]; intros x y Hy; [done|].
  destruct x as [| | | | |a]; try done. destruct y as [| | | | |b]; try done.
  assert (Hm : exists o, merge_value (VObject a) (VObject b) = VObject o /\ forall k, field o k = merged_field (field a k) (field b k)).
  { eexists. split; [reflexivity|]. intros k'. apply (field_merge a b k'). }
  destruct Hm as (o & -> & Ho). cbn [at_path] in *. rewrite Ho. unfold merged_field.
  destruct (field a k) as [x|], (field b k) as [y|]; try done. by apply IH.
Qed.

Lemma field_strip key priced top k :
  lit key <> k -> field (strip_sub key priced top) k = field top k.
Proof.
  intros Hk. unfold strip_sub. pose proof (proj2 (beq_false (lit key) k) Hk) as E.
  destruct (field top (lit key)) as [[| | | | |o]|]; try done; [by rewrite field_drop, E|].
  destruct (delete_keys priced o); [by rewrite field_drop, E|by rewrite field_set, E].
Qed.
Lemma strip_absent key priced top k :
  existsb (fun k' => beq (lit k) (lit k')) priced = true ->
  at_path (map lit [key; k]) (VObject (strip_sub key priced top)) = None.
Proof.
  intros Hk. cbn [map at_path]. unfold strip_sub. destruct (field top (lit key)) as [[| | | | |o]|] eqn:E;
    try by rewrite E.
  - by rewrite field_drop, (proj2 (beq_true _ _) eq_refl).
  - destruct (delete_keys priced o) eqn:Ed; [by rewrite field_drop, (proj2 (beq_true _ _) eq_refl)|].
    rewrite field_set, (proj2 (beq_true _ _) eq_refl), <- Ed. cbn [at_path]. by rewrite field_delete, Hk.
Qed.
Lemma delete_absent priced doc k :
  existsb (fun k' => beq (lit k) (lit k')) priced = true ->
  at_path (map lit [k]) (VObject (delete_keys priced doc)) = None.
Proof. intros Hk. cbn [map at_path]. by rewrite field_delete, Hk. Qed.

(** Each of a list of known keys. *)
Ltac each_key H := repeat (apply elem_of_cons in H as [->|H]); [..|by apply elem_of_nil in H].

Lemma wan_passthrough_absent doc p : p ∈ priced_paths Alibaba -> at_path (map lit p) (VObject (wanPassthrough doc)) = None.
Proof.
  unfold wanPassthrough. intros H. cbn [priced_paths] in H.
  each_key H; try (by apply strip_absent).
  - cbn [map at_path]. rewrite !field_strip by done. rewrite field_drop. done.
  - cbn [map at_path]. rewrite field_strip by done. by apply (strip_absent "input" wanPricedInput).
  - cbn [map at_path]. rewrite field_strip by done. by apply (strip_absent "input" wanPricedInput).
  - cbn [map at_path]. rewrite field_strip by done. by apply (strip_absent "input" wanPricedInput).
  - cbn [map at_path]. rewrite field_strip by done. by apply (strip_absent "input" wanPricedInput).
Qed.
Lemma veo_passthrough_absent doc pass p :
  veoPassthrough doc = Ok pass -> p ∈ priced_paths Google -> at_path (map lit p) (VObject pass) = None.
Proof.
  unfold veoPassthrough. intros (l & _ & H)%rbind_ok. destruct (negb (forallb known_instance l)); [done|].
  assert (pass = strip_sub "parameters" veoPricedParameters (drop_field doc (lit "instances"))) as ->
    by (destruct (field _ (lit "parameters")) as [[]|]; try done; by injection H).
  clear H. intros H. cbn [priced_paths] in H.
  each_key H; try (by apply strip_absent). cbn [map at_path]. rewrite field_strip by done. by rewrite field_drop.
Qed.

Lemma passthrough_absent ToLower Float v variant model doc rd p :
  decode_doc ToLower Float v variant model doc = Ok rd -> p ∈ priced_paths v ->
  at_path (map lit p) (VObject (nr_Passthrough rd)) = None.
Proof.
  destruct v; cbn [decode_doc]; intros H Hp.
  - unfold alibaba_decode in H. apply rbind_ok in H as (d & _ & H). destruct (wan_frames _ _). injection H as <-.
    by apply wan_passthrough_absent.
  - unfold google_decode in H. apply rbind_ok in H as (insts & _ & H). apply rbind_ok in H as (params & _ & H).
    destruct insts as [|[[[prompt image] last] refs] [|]]; try done. apply rbind_ok in H as (pass & Hpass & H). injection H as <-.
    by eapply veo_passthrough_absent.
  - unfold kuaishou_decode in H. apply rbind_ok in H as (d & _ & H). apply rbind_ok in H as (n & _ & H).
    destruct (_ && _); [done|]. injection H as <-. cbn [priced_paths] in Hp. each_key Hp; by apply delete_absent.
  - unfold minimax_decode in H. do 5 apply rbind_ok in H as (? & _ & H). injection H as <-.
    cbn [priced_paths] in Hp. each_key Hp; by apply delete_absent.
  - unfold volcengine_decode in H. do 7 apply rbind_ok in H as (? & _ & H). injection H as <-.
    cbn [priced_paths] in Hp. each_key Hp; by apply delete_absent.
Qed.

Lemma finish_priced v doc p : p ∈ priced_paths v -> at_path (map lit p) (VObject (finish_doc v doc)) = at_path (map lit p) (VObject doc).
Proof.
  intros H. destruct v; try done; cbn [finish_doc].
  - destruct (field doc (lit "parameters")) as [[| | | | |params]|] eqn:E; try done.
    cbn [priced_paths] in H.
    assert (Hd : forall k, lit "watermark" <> k -> field (default_field params (lit "watermark") (VBool false)) k = field params k).
    { intros k Hk. unfold default_field. destruct (field params (lit "watermark")); [done|].
      by rewrite field_set, (proj2 (beq_false _ _) Hk). }
    each_key H; cbn [map at_path]; rewrite field_set; try done;
      (change (beq (lit "parameters") (lit "parameters")) with true; cbn [at_path]; by rewrite E, Hd).
  - cbn [priced_paths] in H. unfold default_field. destruct (field doc (lit "prompt_optimizer")); [done|].
    each_key H; cbn [map at_path]; by rewrite field_set.
Qed.

(** An object of settings at some of the given keys. *)
Definition only_at (keys : list string) (o : object) : bool :=
  forallb (fun kv => existsb (fun k => beq kv.1 (lit k)) keys && negb (is_object kv.2)) o.

Lemma only_at_put keys b k v : only_at keys [(lit k, v)] = true -> only_at keys (put_if b k v) = true.
Proof. intros H. unfold put_if. by destruct b. Qed.
Lemma only_at_app keys a b : only_at keys (a ++ b) = only_at keys a && only_at keys b.
Proof. apply forallb_app. Qed.

Lemma setting_at v p x : is_object v = false -> at_path p v = Some x -> p = [].
Proof. by destruct p as [|k p], v. Qed.

Lemma only_at_spec keys o p x :
  only_at keys o = true -> at_path p (VObject o) = Some x -> is_object x = false ->
  exists k, k ∈ keys /\ p = [lit k].
Proof.
  destruct p as [|k p]; [by intros _ [= <-]|]. cbn [at_path]. intros H Hx _.
  induction o as [|[k' v] o IH]; [done|]. cbn [only_at forallb] in H. apply andb_true_iff in H as [Hk H].
  cbn [field] in Hx. destruct (beq k' k) eqn:E; [|by apply IH]. apply beq_true in E as ->. cbn [fst snd] in Hk.
  apply andb_true_iff in Hk as [(q & Hq & E)%existsb_exists Hv%negb_true_iff]. apply beq_true in E as ->.
  exists q. split; [by apply list_elem_of_In|]. by rewrite (setting_at _ _ _ Hv Hx).
Qed.

(** The mapper writes at priced places alone. *)
Lemma own_is_priced ToLower ToUpper v seed r model on mine p x :
  own_doc ToLower ToUpper v seed r model on = Ok mine ->
  at_path p (VObject mine) = Some x -> is_object x = false ->
  exists q, q ∈ priced_paths v /\ p = map lit q.
Proof.
  assert (Hflat : forall keys o, only_at keys o = true -> (forall k, k ∈ keys -> [k] ∈ priced_paths v) ->
    at_path p (VObject o) = Some x -> is_object x = false -> exists q, q ∈ priced_paths v /\ p = map lit q).
  { intros keys o Ho Hk Hp Hx. destruct (only_at_spec keys o p x Ho Hp Hx) as (k & Hin & ->). exists [k]. auto. }
  intros Hm Hp Hx. destruct v; cbn [own_doc] in Hm.
  - injection Hm as <-. destruct p as [|k p]; [injection Hp as <-; discriminate Hx|]. unfold alibaba_doc in Hp.
    cbn [at_path field] in Hp. destruct (beq (lit "model") k) eqn:E1; [|destruct (beq (lit "input") k) eqn:E2;
      [|destruct (beq (lit "parameters") k) eqn:E3; [|done]]].
    + apply beq_true in E1 as <-. rewrite (setting_at _ _ _ (eq_refl : is_object (str model) = false) Hp).
      exists ["model"%string]. split; [|done]. by left.
    + apply beq_true in E2 as <-.
      destruct (only_at_spec ["prompt"; "negative_prompt"; "media"]%string (wan_input r) p x) as (q & Hq & ->); try done.
      { unfold wan_input. rewrite !only_at_app, !only_at_put by done. by destruct (wan_media r). }
      exists ["input"%string; q]. split; [|done]. cbn [priced_paths].
      each_key Hq; repeat first [by left | right].
    + apply beq_true in E3 as <-.
      destruct (only_at_spec wanPricedParameters (wan_parameters ToLower ToUpper seed model r) p x) as (q & Hq & ->); try done.
      { unfold wan_parameters. rewrite !only_at_app, !only_at_put by done. by destruct seed. }
      exists ["parameters"%string; q]. split; [|done]. cbn [priced_paths]. unfold wanPricedParameters in Hq.
      each_key Hq; repeat first [by left | right].
  - unfold google_doc in Hm. apply rbind_ok in Hm as (inst & _ & Hm).
    assert (mine = [(lit "instances", VArray [VObject inst]); (lit "parameters", VObject (veo_parameters seed r))]) as -> by congruence.
    destruct p as [|k p]; [injection Hp as <-; discriminate Hx|].
    cbn [at_path field] in Hp.
    destruct (beq (lit "instances") k) eqn:E1; [|destruct (beq (lit "parameters") k) eqn:E2; [|done]].
    + apply beq_true in E1 as <-. rewrite (setting_at _ _ _ (eq_refl : is_object (VArray _) = false) Hp).
      exists ["instances"%string]. split; [|done]. by left.
    + apply beq_true in E2 as <-.
      destruct (only_at_spec veoPricedParameters (veo_parameters seed r) p x) as (q & Hq & ->); try done.
      { unfold veo_parameters. rewrite !only_at_app, !only_at_put by done. by destruct seed. }
      exists ["parameters"%string; q]. split; [|done]. cbn [priced_paths]. unfold veoPricedParameters in Hq.
      each_key Hq; repeat first [by left | right].
  - unfold kuaishou_doc in Hm. destruct (_ && _); [done|]. injection Hm as <-.
    refine (Hflat ["model_name"; "prompt"; "mode"; "duration"; "negative_prompt"; "aspect_ratio"; "image"; "image_tail"]%string
      _ _ _ Hp Hx).
    { unfold put_if. by destruct (nonempty_string (vr_NegativePrompt r)), (nonempty_string (vr_AspectRatio r)),
        (nonempty_string (vr_Image r)), (nonempty_string (vr_LastFrame r)). }
    intros k Hk. cbn [priced_paths]. each_key Hk; repeat first [by left | right].
  - injection Hm as <-. unfold minimax_doc in Hp.
    refine (Hflat ["model"; "prompt"; "duration"; "resolution"; "first_frame_image"]%string _ _ _ Hp Hx);
      [by rewrite !only_at_app, !only_at_put by done|].
    intros k Hk. cbn [priced_paths]. each_key Hk; repeat first [by left | right].
  - injection Hm as <-. unfold volcengine_doc in Hp.
    refine (Hflat ["model"; "content"]%string _ _ _ Hp Hx); [done|].
    intros k Hk. cbn [priced_paths]. each_key Hk; repeat first [by left | right].
Qed.

(** C25: A vendor's own surface passes on what it did not read and nothing it did.  Whatever
    the caller's body holds, every setting the mapper wrote from the priced request is
    sent as it wrote it, each at one of [priced_paths], the places the vendor documents
    for what is billed or shown; and at any of those places the mapper left empty
    nothing is sent.  The places are keys as the vendor spells them: a key in another
    case is priced and passed on ([another_case_is_priced_and_passed_on]), and Ark's
    text commands travel inside the prompt ([a_flag_hides_a_command]). *)
Theorem nothing_priced_is_passed_on ToLower ToUpper Float v variant path doc rd seed r model on mine out :
  decode_doc ToLower Float v variant path doc = Ok rd ->
  own_doc ToLower ToUpper v seed r model on = Ok mine ->
  submit_doc ToLower ToUpper v seed (nr_Passthrough rd) r model on = Ok out ->
  (forall p x, at_path p (VObject mine) = Some x -> is_object x = false ->
     at_path p (VObject out) = Some x /\ exists q, q ∈ priced_paths v /\ p = map lit q) /\
  (forall p, p ∈ priced_paths v -> at_path (map lit p) (VObject out) = at_path (map lit p) (VObject mine)).
Proof.
  intros Hd Hm Ho. split.
  - intros p x Hp Hx. split; [|by eapply own_is_priced].
    unfold submit_doc in Ho. rewrite Hm in Ho. cbn [rbind] in Ho. injection Ho as <-.
    apply finish_keeps; [done|].
    change (VObject (mergePassthrough mine (nr_Passthrough rd))) with (merge_value (VObject mine) (VObject (nr_Passthrough rd))).
    by apply merge_keeps.
  - intros p Hp. unfold submit_doc in Ho. rewrite Hm in Ho. cbn [rbind] in Ho. injection Ho as <-.
    rewrite finish_priced by done.
    change (VObject (mergePassthrough mine (nr_Passthrough rd))) with (merge_value (VObject mine) (VObject (nr_Passthrough rd))).
    apply merge_absent. by eapply passthrough_absent.
Qed.

(** ** The identifier a surface hands out leads back to its job *)

Lemma no_slash_exists s : "/"%char ∉ s -> existsb (Ascii.eqb "/") s = false.
Proof.
  intros H. apply not_true_is_false. intros (c & Hc & E)%existsb_exists. apply Ascii.eqb_eq in E as <-.
  by apply H, list_elem_of_In.
Qed.
Lemma path_tail_app a id : "/"%char ∉ id -> path_tail (a ++ "/"%char :: id) = id.
Proof.
  intros H. induction a as [|c a IH]; cbn [app path_tail].
  - by rewrite no_slash_exists.
  - assert (existsb (Ascii.eqb "/") (a ++ "/"%char :: id) = true) as ->; [|exact IH].
    apply existsb_exists. exists "/"%char. split; [apply in_app_iff; right; by left|done].
Qed.

(** A part of a pattern that stands for itself. *)
Definition literal_char (c : ascii) : bool := negb (Ascii.eqb c "{") && negb (Ascii.eqb c "*").
Definition literal_path (p : bytes) : Prop := forallb literal_char p = true.

Section named.
Variable decodeWan : bytes -> result string wanTask.
Variable decodeVeo : bytes -> result string veoOperation.
Variable decodeKling : bytes -> result string klingEnvelope.
Variable decodeMinimax : bytes -> result string minimaxResp.
Variable decodeVolc : bytes -> result string volcTask.
Variable Float : bytes -> option Z.
(** The router: what it binds when a path matches a route's pattern.  A parameter takes a
    segment, a wildcard the rest of the path. *)
Variable Match : NativeRoute -> bytes -> option (gmap bytes bytes).
Hypothesis match_literal : forall route, literal_path (lit (nt_Path route)) -> Match route (lit (nt_Path route)) = Some ∅.
Hypothesis match_param : forall route prefix name tail, literal_path (lit prefix) ->
  nt_Path route = (prefix ++ "{" ++ name ++ "}")%string ->
  tail <> [] -> "/"%char ∉ tail -> Match route (lit prefix ++ tail) = Some {[lit name := tail]}.
Hypothesis match_wildcard : forall route prefix tail, literal_path (lit prefix) ->
  nt_Path route = (prefix ++ "*")%string -> Match route (lit prefix ++ tail) = Some {[lit "*" := tail]}.

(** A client that submits through a vendor's surface and asks for what it was handed, the
    way that vendor is asked, asks at a path the surface publishes, and the identifier
    read there is the job's own: for Kling with the kind of task before it, for Google
    at the end of an operation's name. *)
Theorem a_rendered_name_leads_back v r route job doc body :
  nt_Kind route = NativeSubmit -> render_doc v route job = Ok doc ->
  answers Float decodeWan decodeVeo decodeKling decodeMinimax decodeVolc body doc ->
  Float (itoa (nj_Alias job)) = Some (nj_Alias job) ->
  nj_ID job <> ""%string -> "/"%char ∉ lit (nj_ID job) ->
  exists id out read params,
    SubmitResult decodeWan decodeVeo decodeKling decodeMinimax decodeVolc v r 200 body = Ok id /\
    PollCall v id = Ok out /\ read ∈ Routes v /\ nt_Kind read = NativePoll /\ lit (nt_Method read) = vo_Method out /\
    Match read (vo_Path out) = Some params /\
    IDFrom read (mkNativeRequest read [] params (vo_Query out)) = lit (nj_ID job).
Proof using match_literal match_param match_wildcard.
  intros Hk Hr (Hw & Hg & Hq & Hm & Hv) Hf Hid Hslash.
  assert (Hne : nonempty_string (nj_ID job) = true) by by apply nonempty_string_spec.
  assert (Hlit : lit (nj_ID job) <> []) by (intros E; apply Hid; by destruct (nj_ID job)).
  unfold SubmitResult. change (okStatus 200) with true. cbn [negb].
  destruct v; cbn [render_doc] in Hr; rewrite ?Hk in Hr; injection Hr as <-.
  - unfold alibaba_submitted. rewrite Hw, wan_task_render. cbn [rbind wt_Code wt_Output wo_TaskID].
    change (nonempty_string "") with false. cbn iota. rewrite Hne.
    exists (nj_ID job). unfold PollCall. rewrite Hne. cbn [negb].
    eexists. exists (task_route "/api/v1/tasks/{task_id}" ""), {[lit "task_id" := lit (nj_ID job)]}.
    split_and!; try reflexivity; [by right; left|].
    cbn [get vo_Path]. rewrite lit_app. by apply (match_param _ "/api/v1/tasks/" "task_id").
  - unfold google_submitted. rewrite Hg, veo_operation_render. cbn [rbind vo_Name].
    pose (model := orDefault (let '(_, name, found) := cut_byte "/" (lit (nj_Model job)) in
                              if found then string_of_list_ascii name else nj_Model job) "video").
    assert (Hn : veoOperationName job = ("models/" ++ model ++ "/operations/" ++ nj_ID job)%string)
      by (unfold veoOperationName, model; by destruct (cut_byte _ _) as [[? ?] []]).
    rewrite Hn. exists ("models/" ++ model ++ "/operations/" ++ nj_ID job)%string. unfold PollCall.
    change (nonempty_string ("models/" ++ model ++ "/operations/" ++ nj_ID job)) with true. cbn [negb].
    eexists. exists (mkNativeRoute "GET" "/v1beta/models/*" NativePoll "" NativeIDInPathTail "*" false),
      {[lit "*" := lit model ++ lit "/operations/" ++ lit (nj_ID job)]}.
    split_and!; try reflexivity; [by right; left| |].
    + unfold google_poll_call. cbn [vo_Path]. rewrite !lit_app.
      change (TrimPrefix (lit "models/" ++ lit model ++ lit "/operations/" ++ lit (nj_ID job)) (lit "/"))
        with (lit "models/" ++ lit model ++ lit "/operations/" ++ lit (nj_ID job)).
      rewrite app_assoc. change (lit "/v1beta/" ++ lit "models/") with (lit "/v1beta/models/"). by apply (match_wildcard _ "/v1beta/models/").
    + unfold IDFrom. cbn [nt_IDName nt_IDIn nq_Path]. change (bool_decide ("*"%string = ""%string)) with false.
      change (bool_decide (NativeIDInPathTail = NativeIDInQuery)) with false.
      change (bool_decide (NativeIDInPathTail = NativeIDInPathTail)) with true. cbn iota.
      rewrite lookup_singleton_eq. cbn [default from_option id].
      change (lit "/operations/") with (lit "/operations" ++ ["/"%char]). rewrite <- app_assoc, (app_assoc (lit model)).
      by apply path_tail_app.
  - unfold kuaishou_submitted. rewrite Hq, kling_envelope_render. cbn [rbind kl_Data kl_Code Z.eqb negb kd_TaskID orb]. rewrite Hne.
    cbn [negb]. exists (klingVariant r ++ "/" ++ nj_ID job)%string. unfold PollCall, kuaishou_poll_call.
    rewrite kling_id_roundtrip by done.
    eexists. exists (task_route ("/v1/videos/" ++ klingVariant r ++ "/{task_id}") (klingVariant r)), {[lit "task_id" := lit (nj_ID job)]}.
    split_and!; try reflexivity.
    + unfold klingVariant. cbn [Routes]. destruct (nonempty_string (vr_Image r)); [by right; right; right; left|by right; right; left].
    + cbn [get vo_Path]. unfold klingVariant. destruct (nonempty_string (vr_Image r)).
      * by refine (match_param _ "/v1/videos/image2video/" "task_id" (lit (nj_ID job)) eq_refl _ _ _).
      * by refine (match_param _ "/v1/videos/text2video/" "task_id" (lit (nj_ID job)) eq_refl _ _ _).
  - unfold minimax_submitted. rewrite Hm, minimax_resp_render by done. cbn [rbind mr_Base mr_TaskID].
    change (nonzero_base (Some (0, "success"%string))) with false. cbn iota. rewrite Hne. exists (nj_ID job).
    unfold PollCall. rewrite Hne. cbn [negb]. eexists.
    exists (mkNativeRoute "GET" "/v1/query/video_generation" NativePoll "" NativeIDInQuery "task_id" false), ∅.
    split_and!; try reflexivity; [by right; left|].
    by apply match_literal.
  - unfold volcengine_submitted. rewrite Hv, volc_task_render. cbn [rbind vt_ID]. rewrite Hne. exists (nj_ID job).
    unfold PollCall. rewrite Hne. cbn [negb]. eexists.
    exists (task_route "/api/v3/contents/generations/tasks/{task_id}" ""), {[lit "task_id" := lit (nj_ID job)]}.
    split_and!; try reflexivity; [by right; left|].
    cbn [get vo_Path]. rewrite lit_app. by apply (match_param _ "/api/v3/contents/generations/tasks/" "task_id").
Qed.
End named.

(** ** The commands of a prompt *)

Lemma span_all p a b : forallb p a = true -> match b with [] => true | c :: _ => negb (p c) end = true -> span p (a ++ b) = (a, b).
Proof.
  intros Ha Hb. induction a as [|c a IH]; cbn [app span].
  - destruct b as [|c b]; [done|]. cbn [span]. by apply negb_true_iff in Hb as ->.
  - cbn [forallb] in Ha. apply andb_true_iff in Ha as [-> Ha]. by rewrite IH.
Qed.

(** Bytes that are of no white space, and begin none. *)
Definition plain (c : ascii) : bool := is_name c || is_digit c || Ascii.eqb c "-".
Lemma plain_no_space c s : plain c = true -> List.find (fun p => has_prefix (c :: s) p) spaces = None.
Proof. destruct c as [[] [] [] [] [] [] [] []]; intros H; try discriminate H; reflexivity. Qed.
Lemma plain_black c : plain c = true -> is_space c = false.
Proof. destruct c as [[] [] [] [] [] [] [] []]; intros H; try discriminate H; reflexivity. Qed.
Lemma plain_word (p : ascii -> bool) s : (forall c, p c = true -> plain c = true) -> forallb p s = true -> forallb plain s = true.
Proof. intros Hp. induction s as [|c s IH]; [done|]. cbn [forallb]. intros [H1 H2]%andb_true_iff. by rewrite Hp, IH. Qed.

Lemma black_word s : forallb plain s = true -> forallb (fun c => negb (is_space c)) s = true.
Proof. induction s as [|c s IH]; [done|]. cbn [forallb]. intros [Hc Hs]%andb_true_iff. by rewrite plain_black, IH. Qed.

Lemma fields_word w s cur fuel : forallb plain w = true ->
  fields_loop (length w + fuel) (w ++ s) cur = fields_loop fuel s (rev w ++ cur).
Proof.
  revert cur. induction w as [|c w IH]; intros cur; [done|]. cbn [forallb]. intros [Hc Hw]%andb_true_iff.
  cbn [length Nat.add app fields_loop]. change (c :: w ++ s) with (c :: (w ++ s)). rewrite plain_no_space by done.
  rewrite IH by done. cbn [rev]. by rewrite <- app_assoc.
Qed.
Lemma fields_space fuel s cur : cur <> [] -> fields_loop (S fuel) (" "%char :: s) cur = rev cur :: fields_loop fuel s [].
Proof. intros H. cbn [fields_loop]. rewrite (proj2 (beq_false _ _) H). reflexivity. Qed.
Lemma fields_end fuel cur : cur <> [] -> fields_loop fuel [] cur = [rev cur].
Proof. intros H. destruct fuel; cbn [fields_loop]; by rewrite (proj2 (beq_false _ _) H). Qed.

Lemma Fields_three a b c : forallb plain a = true -> forallb plain b = true -> forallb plain c = true ->
  a <> [] -> b <> [] -> c <> [] -> Fields (a ++ " "%char :: b ++ " "%char :: c) = [a; b; c].
Proof.
  intros Ha Hb Hc Na Nb Nc.
  assert (Hr : forall w : bytes, w <> [] -> rev w ++ [] <> []).
  { intros w Hw E. apply Hw. rewrite app_nil_r in E. by rewrite <- (rev_involutive w), E. }
  unfold Fields. rewrite !length_app. cbn [length]. rewrite !length_app. cbn [length].
  replace (S (length a + S (length b + S (length c)))) with (length a + S (length b + S (length c + 1)))%nat by lia.
  rewrite fields_word, fields_space, fields_word, fields_space by auto.
  rewrite <- (app_nil_r c) at 2. rewrite fields_word, fields_end by auto.
  by rewrite !app_nil_r, !rev_involutive.
Qed.

Lemma replace_nothing fuel s : (length s <= fuel)%nat -> "-"%char ∉ s -> replace_commands fuel s = (s, []).
Proof.
  revert s. induction fuel as [|fuel IH]; intros s Hl Hs; [destruct s; [done|simpl in Hl; lia]|].
  destruct s as [|c s]; [done|]. cbn [replace_commands]. apply not_elem_of_cons in Hs as [Hc Hs].
  unfold match_command. assert (has_prefix (c :: s) (lit "--") = false) as ->.
  { cbn [lit list_ascii_of_string has_prefix]. by destruct (Ascii.eqb_spec "-"%char c) as [<-|]. }
  cbn [negb]. rewrite IH; [done|simpl in Hl; lia|done].
Qed.

Lemma text_assoc a b c : ((a ++ b) ++ c)%string = (a ++ (b ++ c))%string.
Proof. induction a as [|x a IH]; [done|]. exact (f_equal (String x) IH). Qed.

(** The commands of a prompt are read in pairs, each a name and a value, so a flag that
    takes none swallows the command after it: a duration written behind one is neither
    read, nor priced, nor taken out of the prompt, where it reaches the vendor before the
    gateway's own. *)
Theorem a_flag_hides_a_command ToLower flag key arg r :
  forallb is_name flag = true -> flag <> [] -> flag ∉ map lit arkReadCommands ->
  forallb is_name key = true -> key <> [] -> forallb is_digit arg = true -> arg <> [] ->
  let text := string_of_list_ascii (lit "--" ++ flag ++ " "%char :: lit "--" ++ key ++ " "%char :: arg) in
  ark_item ToLower r (mkArkItem "text" text "" None) = Ok (with_prompt r text) /\
  forall seed req on rest, vr_Prompt req = (text ++ rest)%string ->
    exists rest', promptCommands seed req on = (text ++ rest')%string.
Proof.
  intros Hf Nf Hu Hk Nk Ha Na text.
  assert (Hpf : forallb plain flag = true) by (eapply plain_word; [|done]; intros c Hc; unfold plain; by rewrite Hc).
  assert (Hpk : forallb plain key = true) by (eapply plain_word; [|done]; intros c Hc; unfold plain; by rewrite Hc).
  assert (Hpa : forallb plain arg = true) by (eapply plain_word; [|done]; intros c Hc; unfold plain; by rewrite Hc, orb_true_r).
  split.
  2: { intros seed req on rest Hp. unfold promptCommands. rewrite Hp. eexists. rewrite text_assoc. reflexivity. }
  set (s := lit "--" ++ flag ++ " "%char :: lit "--" ++ key ++ " "%char :: arg) in text.
  assert (Hm : match_command s = Some (flag, lit "--" ++ key, " "%char :: arg)).
  { unfold match_command, s. change (has_prefix (lit "--" ++ _) (lit "--")) with true. cbn [negb].
    change (drop 2 (lit "--" ++ flag ++ " "%char :: lit "--" ++ key ++ " "%char :: arg)) with
      (flag ++ " "%char :: lit "--" ++ key ++ " "%char :: arg).
    rewrite span_all by done. change (" "%char :: lit "--" ++ key ++ " "%char :: arg) with ([" "%char] ++ lit "--" ++ key ++ " "%char :: arg).
    rewrite span_all by done. rewrite app_assoc, span_all; [|by apply black_word, forallb_app_true|done].
    by rewrite (proj2 (beq_false _ _) Nf). }
  assert (Hs : replace_commands (length s) s = (s, [])).
  { assert (Hl : length s = (2 + (length flag + S (2 + (length key + S (length arg)))))%nat).
    { unfold s. rewrite !length_app. change (length (lit "--")) with 2%nat. cbn [length]. rewrite !length_app.
      change (length (lit "--")) with 2%nat. by cbn [length]. }
    assert (Hn : length s = S (length s - 1)) by lia. rewrite Hn.
    change s with ("-"%char :: drop 1 s) at 2. cbn [replace_commands]. change ("-"%char :: drop 1 s) with s.
    rewrite Hm, replace_nothing; [|cbn [length]; lia|].
    - assert (existsb (fun k => beq flag (lit k)) arkReadCommands = false) as ->.
      { apply not_true_is_false. intros (k & Hk' & E)%existsb_exists. apply beq_true in E as ->.
        apply Hu, list_elem_of_fmap_2, list_elem_of_In, Hk'. }
      f_equal. assert (Ht : s = (lit "--" ++ flag ++ " "%char :: lit "--" ++ key) ++ " "%char :: arg)
        by (unfold s; by rewrite <- !app_assoc).
      rewrite Ht at 2. rewrite take_app_length'; [done|]. rewrite Hl. cbn [length].
      rewrite !length_app. change (length (lit "--")) with 2%nat. cbn [length]. rewrite length_app. change (length (lit "--")) with 2%nat. lia.
    - intros [E|E]%elem_of_cons; [done|]. rewrite forallb_forall in Ha. apply list_elem_of_In, Ha in E. done. }
  assert (Hsplit : splitArkCommands text = (text, [])).
  { unfold splitArkCommands, text. unfold lit at 1 2. rewrite !list_ascii_of_string_of_list_ascii, Hs. f_equal. f_equal.
    assert (Ht : s = (lit "--" ++ flag) ++ " "%char :: (lit "--" ++ key) ++ " "%char :: arg)
      by (unfold s; by rewrite <- !app_assoc).
    rewrite Ht, Fields_three; [by cbn [join_space]; rewrite <- ?app_assoc|..]; try done; by apply forallb_app_true. }
  unfold ark_item. cbn [ai_Type ai_Text]. change (bool_decide ("text"%string = "text"%string)) with true. cbn iota.
  rewrite Hsplit. by destruct r.
Qed.

(** A key is read whatever its case and deleted as it is spelled: a duration written
    [Duration] is the one the job is priced by, and is sent on as well, beside the one the
    mapper writes. *)
Theorem another_case_is_priced_and_passed_on ToLower ToUpper Float k n doc variant path seed r model on out rd :
  names (lit "duration") k = true -> k <> lit "duration" -> int64_range n ->
  members doc "duration" = [num n] -> field doc k = Some (num n) ->
  decode_doc ToLower Float Minimax variant path doc = Ok rd ->
  submit_doc ToLower ToUpper Minimax seed (nr_Passthrough rd) r model on = Ok out ->
  vr_DurationSeconds (nr_Request rd) = n /\ field out k = Some (num n) /\
  (0 < vr_DurationSeconds r -> field out (lit "duration") = Some (num (vr_DurationSeconds r))).
Proof.
  intros Hk Hne Hn Hm Hf Hd Ho. cbn [decode_doc] in Hd. unfold minimax_decode in Hd.
  apply rbind_ok in Hd as (m & _ & Hd). apply rbind_ok in Hd as (p & _ & Hd). apply rbind_ok in Hd as (i & _ & Hd).
  rewrite (get_int_num _ _ _ Hn Hm) in Hd. cbn [rbind] in Hd. apply rbind_ok in Hd as (res & _ & Hd). injection Hd as <-.
  cbn [nr_Request vr_DurationSeconds nr_Passthrough] in *. split; [done|].
  unfold submit_doc in Ho. cbn [own_doc rbind finish_doc] in Ho. injection Ho as <-.
  assert (Hother : forall k', names (lit "duration") (lit k') = false -> beq (lit k') k = false).
  { intros k' Hn'. apply beq_false. intros E. rewrite E, Hk in Hn'. done. }
  assert (Hpass : field (delete_keys hailuoPriced doc) k = Some (num n)).
  { rewrite field_delete, Hf. assert (existsb (fun k' => beq k (lit k')) hailuoPriced = false) as ->; [|done].
    apply not_true_is_false. intros (k' & Hin & E)%existsb_exists. apply beq_true in E as ->.
    apply list_elem_of_In in Hin. cbn [hailuoPriced] in Hin. each_key Hin; try done; by vm_compute in Hk. }
  assert (Hmine : field (minimax_doc ToUpper r model) k = None).
  { unfold minimax_doc, put_if.
    repeat match goal with |- context [if ?b then [_] else _] => destruct b end; cbn [app field];
      rewrite ?(Hother "model"%string), ?(Hother "prompt"%string), ?(Hother "resolution"%string),
        ?(Hother "first_frame_image"%string), ?(proj2 (beq_false (lit "duration") k)) by (done || congruence); done. }
  split.
  - apply default_field_keeps. rewrite field_merge, Hmine. exact Hpass.
  - intros Hpos. apply default_field_keeps. rewrite field_merge, field_delete. change (existsb _ hailuoPriced) with true. cbn iota.
    unfold merged_field, minimax_doc, put_if. rewrite (proj2 (Z.ltb_lt 0 _) Hpos).
    by destruct (nonempty_string (vr_Prompt r)), (nonempty_string _), (nonempty_string _).
Qed.

(** ** A gateway in front of a gateway *)

Lemma plain_no_space_rev c s : plain c = true -> List.find (fun p => has_prefix (c :: s) p) (map (@rev ascii) spaces) = None.
Proof. destruct c as [[] [] [] [] [] [] [] []]; intros H; try discriminate H; reflexivity. Qed.
Lemma trim_plain s : forallb plain s = true -> trim_space s = s.
Proof.
  intros H. unfold trim_space.
  assert (E : strip_any spaces (length s) s = s).
  { destruct s as [|c s]; [done|]. cbn [length strip_any]. cbn [forallb] in H. apply andb_true_iff in H as [Hc _].
    by rewrite plain_no_space. }
  rewrite E. clear E. assert (E : strip_any (map (@rev ascii) spaces) (length s) (rev s) = rev s).
  { assert (Hr : forallb plain (rev s) = true).
    { apply forallb_forall. intros c Hc. rewrite forallb_forall in H. by apply H, in_rev. }
    destruct (rev s) as [|c t] eqn:Er; [by destruct (length s)|]. destruct (length s); [done|].
    cbn [forallb] in Hr. apply andb_true_iff in Hr as [Hc _]. cbn [strip_any]. by rewrite plain_no_space_rev. }
  rewrite E. apply rev_involutive.
Qed.
Lemma itoa_plain n : forallb plain (itoa n) = true.
Proof.
  assert (Hd : forall m, 0 <= m -> forallb plain (digits m) = true).
  { intros m Hm. destruct (digits_spec m Hm) as (Hd & _). eapply plain_word; [|exact Hd].
    intros c Hc. unfold plain. by rewrite Hc, orb_true_r. }
  unfold itoa. destruct (Z.ltb_spec n 0); [|by apply Hd]. cbn [forallb]. apply (Hd (- n)). lia.
Qed.

Lemma members_put b k v name : members (put_if b k v) name = if b && names (lit name) (lit k) then [v] else [].
Proof. unfold put_if. destruct b; [|done]. rewrite members_cons. by destruct (names _ _). Qed.
Lemma field_put b k v name : field (put_if b k v) name = if b && beq (lit k) name then Some v else None.
Proof. unfold put_if. destruct b; [|done]. cbn [field]. by destruct (beq _ _). Qed.
Lemma get_string_put o name s :
  members o name = (if nonempty_string s then [str s] else []) -> get_string o name = Ok s.
Proof.
  destruct (nonempty_string s) eqn:E; [apply get_string_str|].
  intros H. rewrite (get_string_none _ _ H). by rewrite (nonempty_string_false _ E).
Qed.

(** Of a document that is a concatenation of optional fields, the members of one name. *)
Ltac known_names :=
  repeat first [rewrite members_app | rewrite members_put | rewrite members_cons];
  repeat match goal with
  | |- context [names ?a ?b] => let x := eval vm_compute in (names a b) in change (names a b) with x
  end; rewrite ?andb_true_r, ?andb_false_r; cbn [app]; rewrite ?app_nil_r.

(** Of a document with known keys, its fields. *)
Ltac known_keys :=
  repeat match goal with
  | |- context [beq ?a ?b] => let x := eval vm_compute in (beq a b) in change (beq a b) with x
  end.

(** What a vendor's dialect has words for: the request fits it, and survives its spelling.
    All three ask for a length; Alibaba's image models have no word for an aspect
    ratio, Kling's two modes are two resolutions, and Hailuo has neither an aspect
    ratio, a negative prompt nor a last frame. *)
Definition fits_dialect (ToLower ToUpper : string -> string) (Float : bytes -> option Z) (v : Vendor) (seed : option Z)
    (r : VideoRequest) (model : string) : Prop :=
  0 < vr_DurationSeconds r /\ int64_range (vr_DurationSeconds r) /\
  match v with
  | Alibaba => ToLower (upper_resolution ToUpper (vr_Resolution r)) = vr_Resolution r /\
      (wanIsImageToVideo ToLower model = true -> vr_AspectRatio r = ""%string) /\
      Float (itoa (vr_DurationSeconds r)) = Some (vr_DurationSeconds r) /\
      match seed with Some n => n <> 0 /\ Float (itoa n) = Some n | None => True end
  | Kuaishou => vr_Resolution r = "720p"%string \/ vr_Resolution r = "1080p"%string
  | Minimax => ToLower (upper_resolution ToUpper (vr_Resolution r)) = vr_Resolution r /\
      vr_AspectRatio r = ""%string /\ vr_NegativePrompt r = ""%string /\ vr_LastFrame r = ""%string
  | _ => False
  end.
(** What a mapper writes beside the request, where the caller did not. *)
Definition own_default (v : Vendor) : object :=
  match v with
  | Alibaba => [(lit "parameters", VObject [(lit "watermark", VBool false)])]
  | Minimax => [(lit "prompt_optimizer", VBool false)]
  | _ => []
  end.

(** The request as the next gateway reads it: the audio switch and the reference images
    no dialect of the three spells are gone, and a seed only Alibaba's keeps. *)
Definition reread (v : Vendor) (seed : option Z) (r : VideoRequest) (model : string) : NativeRead :=
  mkNativeRead (mkVideoRequest model (vr_Prompt r) (vr_NegativePrompt r) (vr_DurationSeconds r) (vr_Resolution r)
                  (vr_AspectRatio r) None (vr_Image r) (vr_LastFrame r) [] 1)
    (match v with Alibaba => seed | _ => None end) (own_default v).

Lemma kuaishou_reread r model doc :
  (vr_Resolution r = "720p"%string \/ vr_Resolution r = "1080p"%string) -> int64_range (vr_DurationSeconds r) ->
  kuaishou_doc r model = Ok doc ->
  kuaishou_decode (klingVariant r) doc = Ok (reread Kuaishou None r model).
Proof.
  intros Hres Hdur Hd. unfold kuaishou_doc in Hd. destruct (_ && _); [done|]. injection Hd as <-.
  unfold kuaishou_decode, kling_request.
  rewrite (get_string_str _ _ model) by by known_names.
  rewrite (get_string_str _ _ (vr_Prompt r)) by by known_names.
  rewrite (get_string_put _ _ (vr_NegativePrompt r)) by by known_names.
  rewrite (get_string_str _ _ (modeFor (vr_Resolution r))) by by known_names.
  rewrite (read_one _ _ _ _ (str (show_int (vr_DurationSeconds r)))) by by known_names.
  rewrite (get_string_put _ _ (vr_AspectRatio r)) by by known_names.
  rewrite (get_string_put _ _ (vr_Image r)) by by known_names.
  rewrite (get_string_put _ _ (vr_LastFrame r)) by by known_names.
  cbn [rbind dec_raw kr_Duration klingDuration str kr_Image kr_Mode kr_ModelName kr_Prompt kr_NegativePrompt kr_AspectRatio kr_ImageTail].
  unfold show_int, lit at 1. rewrite list_ascii_of_string_of_list_ascii, trim_plain, atoi_itoa by (done || apply itoa_plain).
  cbn [rbind]. assert (Hv : bool_decide (klingVariant r = "image2video"%string) && negb (nonempty_string (vr_Image r)) = false)
    by (unfold klingVariant; by destruct (nonempty_string (vr_Image r))).
  rewrite Hv. unfold reread. do 2 f_equal.
  - f_equal. by destruct Hres as [-> | ->].
  - unfold put_if. by destruct (nonempty_string (vr_NegativePrompt r)), (nonempty_string (vr_AspectRatio r)),
      (nonempty_string (vr_Image r)), (nonempty_string (vr_LastFrame r)).
Qed.

Lemma merge_nothing doc : mergePassthrough doc [] = doc.
Proof.
  unfold mergePassthrough. cbn [merge_value List.filter]. rewrite app_nil_r. rewrite <- (map_id doc) at 2.
  apply map_ext. by intros [k x].
Qed.

Lemma minimax_sent ToLower ToUpper seed r model on doc :
  submit_doc ToLower ToUpper Minimax seed [] r model on = Ok doc ->
  doc = (lit "prompt_optimizer", VBool false) :: minimax_doc ToUpper r model.
Proof.
  unfold submit_doc. cbn [own_doc rbind finish_doc]. unfold minimax_doc, put_if. intros [= <-].
  by destruct (nonempty_string (vr_Prompt r)), (0 <? vr_DurationSeconds r), (nonempty_string (upper_resolution _ _)),
    (nonempty_string (vr_Image r)).
Qed.

Lemma minimax_reread ToLower ToUpper Float r model :
  fits_dialect ToLower ToUpper Float Minimax None r model ->
  minimax_decode ToLower ((lit "prompt_optimizer", VBool false) :: minimax_doc ToUpper r model)
  = Ok (reread Minimax None r model).
Proof.
  intros (Hpos & Hdur & Hres & Ha & Hn & Hl). unfold minimax_decode, minimax_doc.
  rewrite (get_string_str _ _ model) by by known_names.
  rewrite (get_string_put _ _ (vr_Prompt r)) by by known_names.
  rewrite (get_string_put _ _ (vr_Image r)) by by known_names.
  rewrite (proj2 (Z.ltb_lt 0 _) Hpos).
  rewrite (get_int_num _ _ _ Hdur) by by known_names.
  rewrite (get_string_put _ _ (upper_resolution ToUpper (vr_Resolution r))) by by known_names.
  cbn [rbind]. unfold reread. rewrite Hres, Ha, Hn, Hl. do 2 f_equal. unfold put_if.
  by destruct (nonempty_string (vr_Prompt r)), (nonempty_string (vr_Image r)), (nonempty_string (upper_resolution _ _)).
Qed.

Lemma wan_media_read r :
  exists media, read (dec_slice dec_media) [] (wan_input r) "media" = Ok media /\
    wan_frames "" media = (vr_Image r, vr_LastFrame r).
Proof.
  unfold wan_input, wan_media.
  destruct (nonempty_string (vr_Image r)) eqn:Ei, (nonempty_string (vr_LastFrame r)) eqn:El; cbn [app];
    rewrite ?(nonempty_string_false _ Ei), ?(nonempty_string_false _ El); eexists;
    (split; [first [rewrite (read_none _ _ _ _) by (by known_names); reflexivity
                   |erewrite (read_one _ _ _ _ _) by (by known_names); cbn [dec_slice read_list]; unfold dec_media; read_fields; reflexivity]
            |reflexivity]).
Qed.

(** The parameters as they are sent. *)
Definition wan_sent ToLower ToUpper (seed : option Z) (r : VideoRequest) (model : string) : object :=
  (lit "watermark", VBool false) :: wan_parameters ToLower ToUpper seed model r.

Lemma wan_parameters_read ToLower ToUpper Float seed r model :
  fits_dialect ToLower ToUpper Float Alibaba seed r model -> ToLower ""%string = ""%string ->
  let ps := wan_sent ToLower ToUpper seed r model in
  floats Float (VObject ps) = true /\
  veoNumber Float (field ps (lit "duration")) = vr_DurationSeconds r /\
  match any_string (field ps (lit "resolution")) with Some s => ToLower s | None => "" end = vr_Resolution r /\
  default ""%string (any_string (field ps (lit "ratio"))) = vr_AspectRatio r /\
  nonzero (veoNumber Float (field ps (lit "seed"))) = seed.
Proof.
  intros (Hpos & Hdur & Hres & Hi & Hf & Hseed) Hl. cbv zeta. unfold wan_sent, wan_parameters. rewrite (proj2 (Z.ltb_lt 0 _) Hpos).
  assert (Hn : forall n, n <> 0 -> nonzero n = Some n) by (intros n H; unfold nonzero; by rewrite (proj2 (Z.eqb_neq n 0) H)).
  destruct (nonempty_string (upper_resolution ToUpper (vr_Resolution r))) eqn:Er;
    [|rewrite (nonempty_string_false _ Er), Hl in Hres];
    (destruct (nonempty_string (vr_AspectRatio r)) eqn:Ea; [|apply nonempty_string_false in Ea as Ea']);
    (destruct (wanIsImageToVideo ToLower model) eqn:Ei; [rewrite (Hi eq_refl) in *; try discriminate Ea|]);
    destruct seed as [n|]; try destruct Hseed as [H0 Hs]; cbn; known_keys; unfold num; cbn;
    rewrite ?Hf, ?text_lit, ?Hres, ?Ea'; cbn; rewrite ?Hs; cbn; split_and!; try done; by apply Hn.
Qed.

Lemma delete_every keys o :
  forallb (fun kv => existsb (fun k => beq kv.1 (lit k)) keys) o = true -> delete_keys keys o = [].
Proof.
  induction o as [|kv o IH]; [done|]. cbn [forallb delete_keys List.filter]. intros [-> H]%andb_true_iff. by apply IH.
Qed.
Lemma forallb_put (p : bytes * value -> bool) b k v : p (lit k, v) = true -> forallb p (put_if b k v) = true.
Proof. intros H. unfold put_if. destruct b; [|done]. cbn [forallb]. by rewrite H. Qed.
Lemma strip_every key priced top sub : field top (lit key) = Some (VObject sub) -> delete_keys priced sub = [] ->
  strip_sub key priced top = drop_field top (lit key).
Proof. intros H Hd. unfold strip_sub. by rewrite H, Hd. Qed.

Definition alibaba_sent_doc ToLower ToUpper (seed : option Z) (r : VideoRequest) (model : string) : object :=
  [(lit "parameters", VObject (wan_sent ToLower ToUpper seed r model)); (lit "model", str model);
   (lit "input", VObject (wan_input r))].

Lemma alibaba_sent ToLower ToUpper seed r model on doc :
  submit_doc ToLower ToUpper Alibaba seed [] r model on = Ok doc -> doc = alibaba_sent_doc ToLower ToUpper seed r model.
Proof.
  assert (Hw : field (wan_parameters ToLower ToUpper seed model r) (lit "watermark") = None).
  { unfold wan_parameters, put_if. by destruct (nonempty_string (upper_resolution _ _)), (0 <? vr_DurationSeconds r),
      (_ && _), seed. }
  assert (Hd : default_field (wan_parameters ToLower ToUpper seed model r) (lit "watermark") (VBool false) =
               wan_sent ToLower ToUpper seed r model).
  { unfold default_field. rewrite Hw. unfold wan_sent, set_field. f_equal. unfold wan_parameters, put_if.
    by destruct (nonempty_string (upper_resolution _ _)), (0 <? vr_DurationSeconds r), (_ && _), seed. }
  unfold submit_doc. cbn [own_doc rbind]. intros [= <-].
  change (mergePassthrough (alibaba_doc ToLower ToUpper seed r model) []) with (alibaba_doc ToLower ToUpper seed r model).
  unfold alibaba_doc. cbn [finish_doc]. known_keys.
  change (set_field [(lit "model", str model); (lit "input", VObject (wan_input r));
     (lit "parameters", VObject (wan_parameters ToLower ToUpper seed model r))] (lit "parameters")
    (VObject (default_field (wan_parameters ToLower ToUpper seed model r) (lit "watermark") (VBool false))) =
    alibaba_sent_doc ToLower ToUpper seed r model). rewrite Hd. reflexivity.
Qed.

Lemma wan_default_left ToLower ToUpper seed r model :
  wanPassthrough (alibaba_sent_doc ToLower ToUpper seed r model) = own_default Alibaba.
Proof.
  unfold wanPassthrough. rewrite (strip_every "input" _ _ (wan_input r)); [|done|].
  - change (strip_sub "parameters" wanPricedParameters [(lit "parameters", VObject (wan_sent ToLower ToUpper seed r model))]
      = own_default Alibaba).
    assert (Hd : delete_keys wanPricedParameters (wan_sent ToLower ToUpper seed r model) = [(lit "watermark", VBool false)]).
    { change (delete_keys wanPricedParameters (wan_sent ToLower ToUpper seed r model))
        with ((lit "watermark", VBool false) :: delete_keys wanPricedParameters (wan_parameters ToLower ToUpper seed model r)).
      f_equal. apply delete_every. unfold wan_parameters. rewrite !forallb_app, !forallb_put by done. by destruct seed. }
    unfold strip_sub. cbn [field]. known_keys. cbv beta iota. by rewrite Hd.
  - apply delete_every. unfold wan_input. rewrite !forallb_app, !forallb_put by done. by destruct (wan_media r).
Qed.

Lemma alibaba_reread ToLower ToUpper Float seed r model :
  ToLower ""%string = ""%string ->
  fits_dialect ToLower ToUpper Float Alibaba seed r model ->
  alibaba_decode ToLower Float (alibaba_sent_doc ToLower ToUpper seed r model) = Ok (reread Alibaba seed r model).
Proof.
  intros Hl Hfit. destruct (wan_parameters_read _ _ _ _ _ _ Hfit Hl) as (Hfl & Hd & Hr & Ha & Hs).
  destruct (wan_media_read r) as (media & Hm & Hframes).
  unfold alibaba_decode, wan_inbound, alibaba_sent_doc.
  rewrite (get_string_str _ _ model) by by known_names.
  rewrite (read_one _ _ _ _ (VObject (wan_input r))) by by known_names. cbn [rbind dec_struct app]. rewrite Hm.
  unfold wan_input.
  rewrite (get_string_put _ _ (vr_Prompt r)) by (destruct (wan_media r); by known_names).
  rewrite (get_string_put _ _ (vr_NegativePrompt r)) by (destruct (wan_media r); by known_names).
  rewrite (get_string_none _ "img_url") by (destruct (wan_media r); by known_names).
  rewrite (read_one _ _ _ _ (VObject (wan_sent ToLower ToUpper seed r model))) by by known_names.
  cbn [rbind]. unfold dec_any_map. rewrite Hfl. cbn [dec_map rbind wi_ImgURL wi_Media wi_Parameters]. rewrite app_nil_r, Hframes, Hd, Hr, Ha, Hs.
  unfold reread. do 2 f_equal. exact (wan_default_left ToLower ToUpper seed r model).
Qed.


(** ** At concrete inputs *)

Definition ascii_lower (s : string) : string := string_of_list_ascii (map lower (lit s)).
Definition ascii_upper (s : string) : string := string_of_list_ascii (map upper (lit s)).
Lemma ascii_cases : ascii_case ascii_lower ascii_upper.
Proof. done. Qed.

(** A router for patterns of one placeholder. *)
Definition route_match (route : NativeRoute) (path : bytes) : option (gmap bytes bytes) :=
  let '(prefix, pattern) := span literal_char (lit (nt_Path route)) in
  let tail := drop (length prefix) path in
  match pattern with
  | [] => if beq path prefix then Some ∅ else None
  | c :: name =>
      if negb (has_prefix path prefix) then None
      else if Ascii.eqb c "*" then Some {[lit "*" := tail]}
      else if beq tail [] || existsb (Ascii.eqb "/") tail then None else Some {[removelast name := tail]}
  end.
Lemma span_literal prefix rest : literal_path prefix ->
  match rest with [] => true | c :: _ => negb (literal_char c) end = true -> span literal_char (prefix ++ rest) = (prefix, rest).
Proof. apply span_all. Qed.
Lemma route_literal route : literal_path (lit (nt_Path route)) -> route_match route (lit (nt_Path route)) = Some ∅.
Proof.
  intros H. unfold route_match. rewrite <- (app_nil_r (lit (nt_Path route))) at 1. rewrite span_literal by done.
  by rewrite (proj2 (beq_true _ _) eq_refl).
Qed.
Lemma route_param route prefix name tail : literal_path (lit prefix) ->
  nt_Path route = (prefix ++ "{" ++ name ++ "}")%string ->
  tail <> [] -> "/"%char ∉ tail -> route_match route (lit prefix ++ tail) = Some {[lit name := tail]}.
Proof.
  intros H Hp Ht Hs. unfold route_match. rewrite Hp, !lit_app.
  rewrite span_literal by done. change (lit "{" ++ lit name ++ lit "}") with ("{"%char :: lit name ++ ["}"%char]). cbn iota.
  rewrite has_prefix_app, drop_app_length, no_slash_exists, (proj2 (beq_false _ _) Ht) by done.
  by rewrite removelast_last.
Qed.
Lemma route_wildcard route prefix tail : literal_path (lit prefix) ->
  nt_Path route = (prefix ++ "*")%string -> route_match route (lit prefix ++ tail) = Some {[lit "*" := tail]}.
Proof.
  intros H Hp. unfold route_match. rewrite Hp, lit_app, span_literal by done.
  change (lit "*") with ["*"%char]. by rewrite has_prefix_app, drop_app_length.
Qed.

Abbreviation demo_native s url := (mkNativeJob "vid_1" 7 "google/veo" s "" 0 "" "" url 4 "720p" 0 0).
Abbreviation demo_submit := (submit_route "/v1/video_generation" "").
Abbreviation demo_poll := (mkNativeRoute "GET" "/v1/query/video_generation" NativePoll "" NativeIDInQuery "task_id" false).

Lemma a_rendered_job_polls_as_itself_witness :
  let doc := minimax_task (demo_native StatusCompleted "https://gw/v1/videos/vid_1/content") in
  exists p, PollResult ascii_lower ascii_upper (fun _ => wan_task doc) (fun _ => veo_operation doc)
      (fun _ => kling_envelope doc) (fun _ => minimax_resp atoi doc) (fun _ => volc_task doc) Minimax 200 [] = Ok p /\
    po_Status p = StatusCompleted /\ po_ArtifactRef p = "7"%string.
Proof.
  intros doc.
  destruct (a_rendered_job_polls_as_itself ascii_lower ascii_upper ascii_cases atoi (fun _ => wan_task doc)
    (fun _ => veo_operation doc) (fun _ => kling_envelope doc) (fun _ => minimax_resp atoi doc) (fun _ => volc_task doc)
    Minimax demo_poll (demo_native StatusCompleted "https://gw/v1/videos/vid_1/content") doc [])
    as (p & H & Hs & _ & Ha); [discriminate|reflexivity|by split_and!|discriminate|reflexivity|].
  exists p. split; [exact H|]. split; [exact Hs|]. apply (Ha Hs).
Defined.

Lemma an_expired_job_never_ends_witness :
  let doc := google_render (demo_native StatusExpired "") in
  exists p, PollResult ascii_lower ascii_upper (fun _ => wan_task doc) (fun _ => veo_operation doc)
      (fun _ => kling_envelope doc) (fun _ => minimax_resp atoi doc) (fun _ => volc_task doc) Google 200 [] = Ok p /\
    running (po_Status p) = true.
Proof.
  intros doc.
  destruct (an_expired_job_never_ends ascii_lower ascii_upper atoi (fun _ => wan_task doc)
    (fun _ => veo_operation doc) (fun _ => kling_envelope doc) (fun _ => minimax_resp atoi doc) (fun _ => volc_task doc)
    demo_submit (demo_native StatusExpired "") [] eq_refl) as (doc' & [= <-] & H).
  apply H. by split_and!.
Defined.

(** A Kling body with a priced key in two spellings, and one of the vendor's own. *)
Abbreviation demo_body := [(lit "model_name", str "kling"); (lit "prompt", str "a cat"); (lit "mode", str "pro");
  (lit "duration", str "5"); (lit "cfg_scale", num 1)].

Lemma nothing_priced_is_passed_on_witness :
  exists rd out, decode_doc ascii_lower atoi Kuaishou "text2video" "" demo_body = Ok rd /\
    submit_doc ascii_lower ascii_upper Kuaishou None (nr_Passthrough rd)
      (mkVideoRequest "kling" "a cat" "" 5 "720p" "" None "" "" [] 1) "kling-v2" false = Ok out /\
    field out (lit "mode") = Some (str "std") /\ field out (lit "image") = None /\
    field out (lit "cfg_scale") = Some (num 1).
Proof.
  eexists _, _. split; [reflexivity|]. split; [reflexivity|].
  destruct (nothing_priced_is_passed_on ascii_lower ascii_upper atoi Kuaishou "text2video" "" demo_body _ None
    (mkVideoRequest "kling" "a cat" "" 5 "720p" "" None "" "" [] 1) "kling-v2" false _ _
    eq_refl eq_refl eq_refl) as [H1 H2].
  split; [|split; [|reflexivity]].
  - exact (proj1 (H1 [lit "mode"] (str "std") eq_refl eq_refl)).
  - exact (H2 ["image"%string] ltac:(do 6 right; left)).
Defined.

Lemma a_rendered_name_leads_back_witness :
  let doc := google_render (demo_native StatusQueued "") in
  exists id out, SubmitResult (fun _ => wan_task doc) (fun _ => veo_operation doc)
      (fun _ => kling_envelope doc) (fun _ => minimax_resp atoi doc) (fun _ => volc_task doc) Google
      (mkVideoRequest "google/veo" "a cat" "" 4 "720p" "" None "" "" [] 1) 200 [] = Ok id /\
    PollCall Google id = Ok out /\
    exists read params, read ∈ Routes Google /\ route_match read (vo_Path out) = Some params /\
      IDFrom read (mkNativeRequest read [] params (vo_Query out)) = lit "vid_1".
Proof.
  intros doc.
  destruct (a_rendered_name_leads_back (fun _ => wan_task doc) (fun _ => veo_operation doc) (fun _ => kling_envelope doc)
    (fun _ => minimax_resp atoi doc) (fun _ => volc_task doc) atoi route_match route_literal route_param route_wildcard
    Google (mkVideoRequest "google/veo" "a cat" "" 4 "720p" "" None "" "" [] 1) (submit_route "/v1beta/models/*" "")
    (demo_native StatusQueued "") doc [])
    as (id & out & read & params & H1 & H2 & H3 & _ & _ & H4 & H5);
    [reflexivity|reflexivity|by split_and!|reflexivity|discriminate|refine (bool_decide_unpack _ _); vm_compute; reflexivity|].
  exists id, out. split; [exact H1|]. split; [exact H2|]. exists read, params. split; [exact H3|]. by split.
Defined.

Lemma a_flag_hides_a_command_witness :
  splitArkCommands "--hd --duration 10" = ("--hd --duration 10"%string, []) /\
  ark_item ascii_lower (mkArk "" "" "" 0 None None "" "" []) (mkArkItem "text" "--hd --duration 10" "" None) =
  Ok (mkArk "--hd --duration 10" "" "" 0 None None "" "" []).
Proof.
  split; [reflexivity|].
  apply (a_flag_hides_a_command ascii_lower (lit "hd") (lit "duration") (lit "10") (mkArk "" "" "" 0 None None "" "" []));
    try reflexivity; try discriminate. refine (bool_decide_unpack _ _); vm_compute; reflexivity.
Defined.

Lemma another_case_is_priced_and_passed_on_witness :
  exists rd out, decode_doc ascii_lower atoi Minimax "" "" [(lit "model", str "hailuo"); (lit "Duration", num 6)] = Ok rd /\
    submit_doc ascii_lower ascii_upper Minimax None (nr_Passthrough rd)
      (mkVideoRequest "hailuo" "" "" 6 "" "" None "" "" [] 1) "hailuo-2" false = Ok out /\
    field out (lit "Duration") = Some (num 6) /\ field out (lit "duration") = Some (num 6).
Proof.
  eexists _, _. split; [reflexivity|]. split; [reflexivity|].
  destruct (another_case_is_priced_and_passed_on ascii_lower ascii_upper atoi (lit "Duration") 6
    [(lit "model", str "hailuo"); (lit "Duration", num 6)] "" "" None
    (mkVideoRequest "hailuo" "" "" 6 "" "" None "" "" [] 1) "hailuo-2" false _ _
    eq_refl ltac:(discriminate) ltac:(split; vm_compute; discriminate) eq_refl eq_refl eq_refl eq_refl) as (_ & H & H').
  split; [exact H|]. by apply H'.
Defined.

