(* ===== verification/NativeServe.v ===== *)
(** * The vendors' surfaces served: [internal/gateway/proxy/videos_native.go]

    What stands between a vendor's own path and the two things the gateway has behind it,
    the submission of [VideoSubmit.v] and the job rows: who calls, what is read, which
    model is meant, under which key, and how the answer is written.  [Natives.v] is the
    reading and the writing.

    A handler takes the state and the clock as arguments.  The parsing of an identifier
    as a UUID and the table's integer aliases are parameters, as is the [params] column,
    which [VideoJobs.v] leaves out of the row. *)
From S2P Require Import Prelude GoStr BreakerStore Breaker RateLimit Rational Money PriceTable Pricing.
From S2P Require Import UnitPricing Surfaces Usage Catalog Errors Classify Guard Billing Routing.
From S2P Require Import Rotation Ledger Settlement KeyFormat Cache Settings Auth Credentials Attempt Admission Serve.
From S2P Require Import Envelope VideoJobs VideoWorker VideoLife VideoRounds VideoSubmit.
From S2P Require Import Http Transport Upstream Outbound Rewrite Forward Vendors Json Natives.

Open Scope Z_scope.

Definition nativeIdempotencyWindow : Z := 60 * Second.
Definition maxVideoRequestBody : Z := 16 * 1048576.

(** A request at a vendor's path, as the router leaves it: what it bound, in order, the
    query's values, and the body as far as it could be read. *)
Inductive body_failure := TooBig | Dropped.
Record NativeHTTP := mkNativeHTTP {
  nh_Path : bytes; nh_Bound : list (bytes * bytes); nh_Query : gmap bytes (list bytes);
  nh_Header : string -> bytes; nh_Body : result body_failure bytes; nh_Host : string; nh_TLS : bool;
}.

(** [chiParams]: of a key bound twice the last value. *)
Definition chiParams (h : NativeHTTP) : gmap bytes bytes := list_to_map (rev (nh_Bound h)).
Definition flatQuery (h : NativeHTTP) : gmap bytes bytes := omap head (nh_Query h).

Definition readNativeBody (h : NativeHTTP) : result Error bytes :=
  match nh_Body h with
  | Ok body => Ok body
  | Err TooBig => Err (NewError GatewayRequestTooLarge "Request body is too large")
  | Err Dropped => Err (NewError GatewayInvalidRequest "Failed to read the request body")
  end.

Definition newline_ : ascii := byte_of 10.
Definition lines (parts : list bytes) : bytes :=
  match parts with [] => [] | p :: ps => p ++ concat (map (cons newline_) ps) end.

(** [Truncate] is relative to the year 1, a whole number of minutes before 1970. *)
Definition window_bucket (now : Z) : Z := now / nativeIdempotencyWindow * 60.
Definition native_key_text (v : Vendor) (path endUser : bytes) (fingerprint : string) (now : Z) : bytes :=
  lines [lit (vendor_slug v); path; endUser; lit fingerprint; itoa (window_bucket now)].

Definition with_model (r : VideoRequest) (slug : string) : VideoRequest :=
  mkVideoRequest slug (vr_Prompt r) (vr_NegativePrompt r) (vr_DurationSeconds r) (vr_Resolution r) (vr_AspectRatio r)
    (vr_Audio r) (vr_Image r) (vr_LastFrame r) (vr_ReferenceImages r) (vr_N r).

Section model.
(** [ResolveModelsByUpstreamID]: the slugs of the enabled models that this vendor's routes
    wire an upstream name to, in order. *)
Variable ResolveModelsByUpstreamID : string -> string -> result string (list string).

Definition resolveNativeModel (v : Vendor) (name : string) : result Error string :=
  let name := string_of_list_ascii (trim_space (lit name)) in
  if bool_decide (name = ""%string) then Err (NewError GatewayInvalidRequest "the request names no model")
  else
    match ResolveModelsByUpstreamID (vendor_slug v) name with
    | Err _ => Err (NewError GatewayInternal "The model could not be resolved")
    | Ok [] =>
        if existsb (Ascii.eqb "/") (lit name) then Ok name
        else Err (NewError GatewayModelNotFound
                    ("no model on this gateway is wired to " ++ name ++ " on " ++ vendor_slug v))
    | Ok [slug] => Ok slug
    | Ok slugs =>
        Err (NewError GatewayInvalidRequest
               ("more than one model here is wired to " ++ name ++ " on " ++ vendor_slug v ++ " (" ++
                String.concat ", " slugs ++ "); name the one you mean"))
    end.
End model.

Section rows.
Context {B : Type} `{Settler B}.
(** [uuidString], and the identifier [pgtype] reads a text as. *)
Variable uuidString : string -> string.
Variable Scan : bytes -> option string.
(** The alias the table gave a row, and what its [params] column decodes to. *)
Variable native_alias : Job -> Z.
Variable Detail : Job -> Z * string.

Definition VideoJobID (job : Job) : string := "vid_" ++ uuidString (j_ID job).
Definition parseVideoJobID (raw : bytes) : option string :=
  Scan (if (4 <? length raw)%nat && beq (firstn 4 raw) (lit "vid_") then skipn 4 raw else raw).

Definition GetVideoJobByAlias (alias : Z) (orgID : uuid) (jobs : Jobs) : option Job :=
  List.find (fun j => bool_decide (native_alias j = alias) && same_org (js_OrgID (j_spec j)) orgID)
    (map_to_list jobs).*2.

(** [nativeJobFor]; [fails] is the reading of the alias. *)
Definition nativeJobFor (fails : bool) (w : VideoWorld (B := B)) (orgID : uuid) (route : NativeRoute) (raw : bytes) :
    result Error Job :=
  let raw := trim_space raw in
  if beq raw [] then Err (NewError GatewayInvalidRequest "the request names no task")
  else if negb (nt_IDAlias route) then GetJob w orgID (parseVideoJobID raw)
  else
    match atoi raw with
    | None => Err job_not_found
    | Some alias =>
        if fails then Err job_not_found
        else match GetVideoJobByAlias alias orgID (vw_jobs w) with Some job => Ok job | None => Err job_not_found end
    end.

Definition videoContentURL (h : NativeHTTP) (job : Job) : string :=
  let forwarded := string_of_list_ascii (nh_Header h "X-Forwarded-Proto") in
  let scheme := if nonempty_string forwarded then forwarded else if nh_TLS h then "https" else "http" in
  (scheme ++ "://" ++ nh_Host h ++ "/v1/videos/" ++ VideoJobID job ++ "/content")%string.

Variable UpdatedAt : Job -> Z.
Definition nativeJobOf (h : NativeHTTP) (job : Job) : NativeJob :=
  let l := j_life job in
  let '(seconds, resolution) := Detail job in
  mkNativeJob (VideoJobID job) (native_alias job) (js_ModelSlug (j_spec job)) (j_Status job) (jl_UpstreamStatus l)
    (jl_Progress l) (jl_ErrorCode l) (jl_ErrorMessage l)
    (if bool_decide (j_Status job = StatusCompleted) then videoContentURL h job else "")
    seconds resolution (js_CreatedAt (j_spec job)) (UpdatedAt job).

(** ** Answers *)

Variable Marshal : option object -> result string bytes.
Variable literal : object -> bytes.

Definition writeNativeError (v : Vendor) (e : Error) : Z * bytes :=
  RenderError Marshal literal v (statusOf (Code e)) (Code e) (Message e).
Definition writeNativeJob (v : Vendor) (route : NativeRoute) (h : NativeHTTP) (job : Job) : Z * bytes :=
  match Render Marshal v route (nativeJobOf h job) with
  | Ok answer => answer
  | Err why =>
      writeNativeError v
        (if bool_decide (why = ErrNativeNoArtifact) then NewError GatewayJobNotReady "This job has not produced a video"
         else NewError GatewayInternal "The job could not be rendered")
  end.
Definition handleNativeUnsupported (v : Vendor) (h : NativeHTTP) : Z * bytes :=
  RenderError Marshal literal v 404 GatewayResourceNotFound
    ("this gateway does not offer " ++ string_of_list_ascii (nh_Path h) ++
     "; the same models are reachable on POST /v1/videos").
End rows.

(** ** Keys *)

Lemma first_line a b x y : newline_ ∉ a -> newline_ ∉ b -> a ++ newline_ :: x = b ++ newline_ :: y -> a = b /\ x = y.
Proof.
  intros Ha Hb E. apply (f_equal (cut_byte newline_)) in E. rewrite !cut_byte_app in E by done. by injection E.
Qed.
Lemma last_line a b x y : newline_ ∉ a -> newline_ ∉ b -> x ++ newline_ :: a = y ++ newline_ :: b -> a = b /\ x = y.
Proof.
  intros Ha Hb E. apply (f_equal (@rev ascii)) in E. rewrite !rev_app_distr in E. cbn [rev] in E.
  rewrite <- !app_assoc in E. cbn [app] in E.
  assert (Hr : forall l : bytes, newline_ ∉ l -> newline_ ∉ rev l).
  { intros l H Hin. apply H. apply list_elem_of_In, in_rev. by apply list_elem_of_In. }
  destruct (first_line (rev a) (rev b) (rev x) (rev y)) as [E1 E2]; [by apply Hr|by apply Hr|exact E|].
  by rewrite <- (rev_involutive a), E1, rev_involutive, <- (rev_involutive x), E2, rev_involutive.
Qed.
Lemma itoa_line n : newline_ ∉ itoa n.
Proof.
  intros H. pose proof (itoa_plain n) as Hp. rewrite forallb_forall in Hp. by apply list_elem_of_In, Hp in H.
Qed.
Lemma itoa_inj a b : int64_range a -> int64_range b -> itoa a = itoa b -> a = b.
Proof. intros Ha Hb E. apply (f_equal atoi) in E. rewrite !atoi_itoa in E by done. by injection E. Qed.

Lemma key_text_inj v v' path path' e e' f f' now now' :
  newline_ ∉ e -> newline_ ∉ e' -> newline_ ∉ lit f -> newline_ ∉ lit f' -> int64_range now -> int64_range now' ->
  native_key_text v path e f now = native_key_text v' path' e' f' now' ->
  v = v' /\ path = path' /\ e = e' /\ f = f' /\ now / nativeIdempotencyWindow = now' / nativeIdempotencyWindow.
Proof.
  intros He He' Hf Hf' Hn Hn'. unfold native_key_text. cbn [lines map concat]. rewrite !app_nil_r. intros E.
  assert (Hv : forall u, newline_ ∉ lit (vendor_slug u)) by (intros []; refine (bool_decide_unpack _ _); vm_compute; reflexivity).
  apply first_line in E as [Ev E]; [|done..].
  assert (Hl : forall p d g b : bytes, p ++ newline_ :: d ++ (newline_ :: g) ++ newline_ :: b =
    ((p ++ newline_ :: d) ++ newline_ :: g) ++ newline_ :: b) by (intros; by rewrite <- !app_assoc).
  cbn [app] in E, Hl. rewrite !Hl in E. apply last_line in E as [Eb E]; [|apply itoa_line..].
  apply last_line in E as [Ef E]; [|done..]. apply last_line in E as [Ee E]; [|done..].
  assert (Hr : forall n, int64_range n -> int64_range (window_bucket n)).
  { intros n Hr. pose proof (Z.mul_div_le n nativeIdempotencyWindow). pose proof (Z.mul_succ_div_gt n nativeIdempotencyWindow).
    unfold window_bucket. change nativeIdempotencyWindow with 60000000000 in *. unfold min_int64, max_int64 in *. lia. }
  apply itoa_inj in Eb; [|by apply Hr..]. unfold window_bucket in Eb.
  split_and!; [by destruct v, v'|done|done| |lia].
  by rewrite <- (text_lit f), Ef, text_lit.
Qed.

(** ** The handlers *)

(** No refusal is a success. *)
Lemma assoc_in {A} k (l : list (string * A)) v : assoc k l = Some v -> (k, v) ∈ l.
Proof.
  induction l as [|[k' v'] l IH]; [done|]. cbn [assoc]. case_bool_decide as E; [|intros H; right; by apply IH].
  intros [= <-]. subst. by left.
Qed.
Lemma statusOf_refusal code : 400 <= statusOf code.
Proof.
  unfold statusOf. destruct (assoc code registry) as [n|] eqn:E; [|by vm_compute].
  apply assoc_in in E. cbn [default from_option id].
  assert (Hall : forallb (fun kv => 400 <=? kv.2) registry = true) by (vm_compute; reflexivity).
  rewrite forallb_forall in Hall. apply list_elem_of_In, Hall in E. cbn in E. lia.
Qed.

Lemma write_error_status Marshal literal v e : (writeNativeError Marshal literal v e).1 = statusOf (Code e).
Proof. unfold writeNativeError, RenderError. by destruct (Marshal _). Qed.

Section serve.
Context {B S C L raw T : Type} `{Settler B} `{StoreLaws S} `{CacheStore Identity C} `{Limiter L}.
(** What admission and submission take. *)
Variable ValidateTransport : raw -> result string T.
Variable HashToken : bytes -> string.
Variable sha256hex : bytes -> string.
Variable keys_of : uuid -> result string (list ProviderKey).
Variable Exchange : VideoWorker.Target VideoOutbound -> result Error (Z * bytes).
Variable VideoEnvelope : Route T -> result string Envelope.
Variable fails : string -> string -> bool.
Variable mint : Jobs -> string.
(** What reading and writing the vendors' documents takes. *)
Variables ToLower ToUpper : string -> string.
Variable Float : bytes -> option Z.
Variable Unmarshal : bytes -> result string (option object).
Variable Marshal : option object -> result string bytes.
Variable literal : object -> bytes.
Variable decodeWan : bytes -> result string wanTask.
Variable decodeVeo : bytes -> result string veoOperation.
Variable decodeKling : bytes -> result string klingEnvelope.
Variable decodeMinimax : bytes -> result string minimaxResp.
Variable decodeMinimaxFile : bytes -> result string minimaxFile.
Variable decodeVolc : bytes -> result string volcTask.
(** What the rows take. *)
Variable ResolveModelsByUpstreamID : string -> string -> result string (list string).
Variable uuidString : string -> string.
Variable Scan : bytes -> option string.
Variable native_alias : Job -> Z.
Variable Detail : Job -> Z * string.
Variable UpdatedAt : Job -> Z.
(** What admission probes a body for, on a surface that names its model itself. *)
Variable probes : bytes -> Probes.

Abbreviation State := (SubmitState (B := B) (S := S) (C := C) (L := L) (T := T)).
Implicit Types (s : State) (ev : Env (raw := raw)) (h : NativeHTTP) (v : Vendor) (route : NativeRoute).

Definition mapper_for (rd : NativeRead) : string -> option (Mapper VideoOutbound bytes) :=
  MapperFor ToLower ToUpper Marshal decodeWan decodeVeo decodeKling decodeMinimax decodeMinimaxFile decodeVolc
    (nr_Seed rd) (nr_Passthrough rd).

(** [videoCaller]: the key cache may fill, and a last use be recorded. *)
Definition videoCaller ev h s : result Error Identity * State :=
  let '(who, c, used) := Authenticate HashToken (ev_auth ev) (ev_now ev) (ev_later ev) (ad_cache (st_adm s))
                           (CredentialOf (nh_Header h)) in
  let a := st_adm s in
  (match who with
   | Err e => Err e
   | Ok id => match RequireScope id "inference" with Some e => Err e | None => Ok id end
   end,
   with_adm s (mkAdm c (ad_used a ++ used) (ad_known a) (ad_limiter a) (ad_seen a) (ad_alerts a))).

Definition end_user h : bytes := nh_Header h "X-End-User-Id".
Definition requestFingerprint (body : bytes) : string := sha256hex body.
Definition nativeIdempotencyKey v (path endUser : bytes) (fingerprint : string) (now : Z) : string :=
  "native-" ++ sha256hex (native_key_text v path endUser fingerprint now).

Definition native_incoming h (body : bytes) (slug : string) : Incoming :=
  mkIncoming (mkRequest SurfaceVideo false (string_of_list_ascii (end_user h)) body) (CredentialOf (nh_Header h))
    "video" slug (mkStateRef "" None) false (probes body).
Definition native_submission v h (body : bytes) (rd : NativeRead) (slug requestID : string) (now : Z) : Submission :=
  mkSubmission requestID (nativeIdempotencyKey v (nh_Path h) (end_user h) (requestFingerprint body) now)
    (requestFingerprint body) (with_model (nr_Request rd) slug).

Abbreviation write_error := (writeNativeError Marshal literal).
Abbreviation write_job := (writeNativeJob uuidString native_alias Detail UpdatedAt Marshal literal).
Abbreviation admit_and_submit := (admitAndSubmitVideo ValidateTransport HashToken sha256hex keys_of).

(** A body read as a submission, and the model it means; no state is involved. *)
Definition native_read v route h : result Error (bytes * NativeRead * string) :=
  try body <- readNativeBody h;
  match Decode ToLower Float Unmarshal v (mkNativeRequest route body (chiParams h) (flatQuery h)) with
  | Err why => Err (NewError GatewayInvalidRequest why)
  | Ok rd =>
      try slug <- resolveNativeModel ResolveModelsByUpstreamID v (vr_Model (nr_Request rd));
      Ok (body, rd, slug)
  end.

Definition handleNativeSubmit (f : Faults) ev v route h (requestID : string) (now ms : Z) s : (Z * bytes) * State :=
  match videoCaller ev h s with
  | (Err e, s) => (write_error v e, s)
  | (Ok _, s) =>
      match native_read v route h with
      | Err e => (write_error v e, s)
      | Ok (body, rd, slug) =>
          match admit_and_submit (mapper_for rd) Exchange VideoEnvelope fails mint now f ev (native_incoming h body slug)
                  (native_submission v h body rd slug requestID now) (vendor_slug v) ms s with
          | (Err e, s) => (write_error v e, s)
          | (Ok (job, _), s) => (write_job v route h job, s)
          end
      end
  end.

Definition handleNativeRead ev v route h s : (Z * bytes) * State :=
  match videoCaller ev h s with
  | (Err e, s) => (write_error v e, s)
  | (Ok id, s) =>
      let q := mkNativeRequest route [] (chiParams h) (flatQuery h) in
      (match nativeJobFor Scan native_alias (fails "GetVideoJobByAlias" "") (st_video s) (id_OrgID id) route (IDFrom route q) with
       | Err e => write_error v e
       | Ok job => write_job v route h job
       end, s)
  end.

Definition handleNative (f : Faults) ev v route h (requestID : string) (now ms : Z) s : (Z * bytes) * State :=
  match nt_Kind route with
  | NativeSubmit => handleNativeSubmit f ev v route h requestID now ms s
  | NativePoll | NativeArtifact => handleNativeRead ev v route h s
  | _ => (handleNativeUnsupported Marshal literal v h, s)
  end.


(** ** What a submission does *)

Lemma caller_video ev h s : st_video (videoCaller ev h s).2 = st_video s.
Proof using. unfold videoCaller. by destruct (Authenticate _ _ _ _ _ _) as [[[]] ?]. Qed.

(** C26: two submissions share a key exactly when they are the same request: the same body at
    the same path of the same vendor for the same end user, within the same minute of the
    clock.  What two end users of one organization send in one minute is kept apart, and
    a path that holds a line break cannot pass for another's end user; short of a
    collision of the hash, nothing else makes two requests one. *)
Theorem one_key_per_request_and_minute v v' path path' e e' body body' now now' :
  (forall b, newline_ ∉ lit (sha256hex b)) -> newline_ ∉ e -> newline_ ∉ e' -> int64_range now -> int64_range now' ->
  let key := nativeIdempotencyKey v path e (requestFingerprint body) now in
  let key' := nativeIdempotencyKey v' path' e' (requestFingerprint body') now' in
  let same := v = v' /\ path = path' /\ e = e' /\ body = body' /\
              now / nativeIdempotencyWindow = now' / nativeIdempotencyWindow in
  (same -> key = key') /\ (key = key' -> same \/ exists x y, x <> y /\ sha256hex x = sha256hex y).
Proof using.
  intros Hs He He' Hn Hn'. cbv zeta. split.
  - intros (-> & -> & -> & -> & E). unfold nativeIdempotencyKey, native_key_text, window_bucket. by rewrite E.
  - unfold nativeIdempotencyKey. intros E. apply (inj (String.append "native-")) in E.
    destruct (decide (native_key_text v path e (requestFingerprint body) now
                      = native_key_text v' path' e' (requestFingerprint body') now')) as [Et|Hne]; [|right; by eexists _, _].
    apply key_text_inj in Et as (Hv & Hp & Hu & Hf & Hb); [|auto..].
    destruct (decide (body = body')) as [Hbody|Hne]; [left; by split_and!|right; by exists body, body'].
Qed.

(** A client that retries within the minute pays once: when the first attempt left a job
    under its key, the retry moves no money and adds no row, and is answered with that
    job or a refusal. *)
Theorem a_retry_in_the_minute_costs_nothing `{!SettlerLaws B} f ev v route h requestID before now ms s id s1 body rd slug
    who slug' a adm won :
  videoCaller ev h s = (Ok id, s1) -> native_read v route h = Ok (body, rd, slug) ->
  Prepare ValidateTransport HashToken sha256hex ev (lend_limiter (st_pipe s1) (st_adm s1)) (native_incoming h body slug)
    = (who, slug', Ok a, adm) ->
  before / nativeIdempotencyWindow = now / nativeIdempotencyWindow ->
  let key := nativeIdempotencyKey v (nh_Path h) (end_user h) (requestFingerprint body) before in
  GetVideoJobByIdempotencyKey (id_OrgID (pr_id (am_prep a))) key (jobs_in s) = Some won ->
  let '(answer, s') := handleNativeSubmit f ev v route h requestID now ms s in
  jobs_in s' = jobs_in s /\ vw_objects (st_video s') = vw_objects (st_video s) /\ moneyless (books_in s) (books_in s') /\
  (answer = write_job v route h won \/ exists e, answer = write_error v e).
Proof using.
  intros Hc Hr Hp Hm. cbv zeta. intros Hw. unfold handleNativeSubmit. rewrite Hc, Hr.
  assert (Ev : st_video s1 = st_video s) by (pose proof (caller_video ev h s) as E; by rewrite Hc in E).
  assert (Ek : sb_IdempotencyKey (native_submission v h body rd slug requestID now) =
               nativeIdempotencyKey v (nh_Path h) (end_user h) (requestFingerprint body) before)
    by (unfold native_submission, nativeIdempotencyKey, native_key_text, window_bucket; cbn; by rewrite Hm).
  pose proof (repeated_key_quiet ValidateTransport HashToken sha256hex keys_of (mapper_for rd) Exchange VideoEnvelope fails
    mint now f ev (native_incoming h body slug) (native_submission v h body rd slug requestID now) (vendor_slug v) ms s1
    who slug' a adm won Hp) as Hq.
  rewrite Ek in Hq. unfold jobs_in, books_in in *. rewrite Ev in Hq. specialize (Hq Hw).
  destruct (admit_and_submit _ _ _ _ _ _ _ _ _ _ _ _ _) as [[[job replayed]|e] s2]; destruct Hq as (Q1 & Q2 & Q3 & Q4);
    split_and!; try done; [left; by destruct Q4 as [-> _]|right; by exists e].
Qed.

(** A submission at a vendor's path is, on the video plane, a run of the same steps as one
    at the gateway's own. *)
Theorem native_submission_refines_steps `{!SettlerLaws B} NumericScan f ev v route h requestID now ms s hand :
  (forall sub, sb_RequestID sub = requestID -> unclaimed mint now sub s hand) ->
  exists hand',
    rtc (vstep NumericScan) (mkVState now (st_video s) hand)
      (mkVState now (st_video (handleNative f ev v route h requestID now ms s).2) hand').
Proof using H1.
  intros Hu. pose proof (caller_video ev h s) as Hv. unfold handleNative, handleNativeSubmit, handleNativeRead.
  destruct (videoCaller ev h s) as [[id|e] s1]; cbn [snd] in Hv;
    [|exists hand; by destruct (nt_Kind route); cbn [snd]; rewrite ?Hv].
  destruct (nt_Kind route); try (exists hand; cbn [snd]; by rewrite ?Hv).
  destruct (native_read v route h) as [[[body rd] slug]|e]; [|exists hand; cbn [snd]; by rewrite Hv].
  destruct (submission_runs ValidateTransport HashToken sha256hex keys_of (mapper_for rd) Exchange VideoEnvelope fails
    mint now NumericScan f ev (native_incoming h body slug) (native_submission v h body rd slug requestID now)
    (vendor_slug v) ms s1 hand) as (hand' & Hr).
  { destruct (Hu (native_submission v h body rd slug requestID now) eq_refl) as [U1 U2].
    unfold unclaimed, jobs_in, books_in in *. by rewrite Hv. }
  exists hand'. rewrite Hv in Hr. by destruct (admit_and_submit _ _ _ _ _ _ _ _ _ _ _ _ _) as [[[job replayed]|e] s2].
Qed.

(** ** Whose jobs are seen *)

(** Two tables hold the same rows of one organization. *)
Definition own_rows (org : uuid) (a b : Jobs) : Prop :=
  forall k j, same_org (js_OrgID (j_spec j)) org = true -> a !! k = Some j <-> b !! k = Some j.
(** The column is unique. *)
Definition unique_alias (jobs : Jobs) : Prop :=
  forall k k' j j', jobs !! k = Some j -> jobs !! k' = Some j' -> native_alias j = native_alias j' -> j = j'.

Lemma alias_found alias org jobs j :
  GetVideoJobByAlias native_alias alias org jobs = Some j ->
  same_org (js_OrgID (j_spec j)) org = true /\ native_alias j = alias /\ exists k, jobs !! k = Some j.
Proof using.
  unfold GetVideoJobByAlias. intros [Hin [Ha Ho]%andb_true_iff]%find_some.
  apply list_elem_of_In, list_elem_of_fmap in Hin as ([k r] & -> & Hin%elem_of_map_to_list).
  split_and!; [done|by apply bool_decide_eq_true in Ha|by exists k].
Qed.
Lemma alias_finds org jobs k j :
  unique_alias jobs -> jobs !! k = Some j -> same_org (js_OrgID (j_spec j)) org = true ->
  GetVideoJobByAlias native_alias (native_alias j) org jobs = Some j.
Proof using.
  intros Hu Hk Ho. destruct (GetVideoJobByAlias native_alias (native_alias j) org jobs) as [j'|] eqn:E.
  - apply alias_found in E as (_ & Ha & k' & Hk'). f_equal. by apply (Hu k' k).
  - unfold GetVideoJobByAlias in E. eapply find_none in E.
    2: { apply list_elem_of_In, list_elem_of_fmap. exists (k, j). split; [reflexivity|by apply elem_of_map_to_list]. }
    cbn [snd] in E. by rewrite Ho, bool_decide_true in E.
Qed.
Lemma alias_alike alias org a b : own_rows org a b -> unique_alias b ->
  forall j, GetVideoJobByAlias native_alias alias org a = Some j -> GetVideoJobByAlias native_alias alias org b = Some j.
Proof using.
  intros Hr Hu j (Ho & <- & k & Hk)%alias_found. apply (alias_finds _ _ k); [done|by apply (Hr k j Ho)|done].
Qed.

(** C20: another organization's job cannot be told from one that never was.  What a caller is
    answered at a read path is a function of its own organization's rows alone: with the
    rest of the table replaced by anything else, it reads the same bytes under the same
    status, by either kind of identifier, however it was guessed. *)
Theorem another_organizations_jobs_do_not_exist ev v route h s (w : VideoWorld (B := B)) :
  (forall id s1, videoCaller ev h s = (Ok id, s1) -> own_rows (id_OrgID id) (jobs_in s) (vw_jobs w)) ->
  unique_alias (jobs_in s) -> unique_alias (vw_jobs w) ->
  (handleNativeRead ev v route h (with_video s w)).1 = (handleNativeRead ev v route h s).1.
Proof using.
  intros Hr Hu Hu'. unfold handleNativeRead. unfold videoCaller in *. cbn [with_video st_adm].
  destruct (Authenticate _ _ _ _ _ _) as [[[id|e] c] used]; [|done].
  destruct (RequireScope id "inference"); [done|]. cbn [fst]. specialize (Hr id _ eq_refl).
  match goal with |- match ?x with _ => _ end = match ?y with _ => _ end => assert (E : x = y); [|by rewrite E] end.
  unfold nativeJobFor. destruct (beq _ []); [done|]. cbn [with_video with_adm st_video].
  destruct (nt_IDAlias route); cbn [negb].
  - destruct (atoi _) as [alias|]; [|done]. destruct (fails _ _); [done|]. unfold jobs_in in *.
    destruct (GetVideoJobByAlias native_alias alias (id_OrgID id) (vw_jobs (st_video s))) as [j|] eqn:E1.
    + by rewrite (alias_alike _ _ _ _ Hr Hu' _ E1).
    + destruct (GetVideoJobByAlias native_alias alias (id_OrgID id) (vw_jobs w)) as [j|] eqn:E2; [|done].
      rewrite (alias_alike alias (id_OrgID id) _ _ (fun k j Ho => iff_sym (Hr k j Ho)) Hu _ E2) in E1. done.
  - unfold GetJob. destruct (parseVideoJobID Scan _) as [k|]; [|done]. unfold GetVideoJob, jobs_in in *.
    destruct (vw_jobs w !! k) as [j|] eqn:E1, (vw_jobs (st_video s) !! k) as [j'|] eqn:E2; try done.
    + destruct (same_org (js_OrgID (j_spec j)) (id_OrgID id)) eqn:Eo.
      * apply (Hr k j Eo) in E1. rewrite E1 in E2. injection E2 as <-. by rewrite Eo.
      * destruct (same_org (js_OrgID (j_spec j')) (id_OrgID id)) eqn:Eo'; [|done].
        apply (Hr k j' Eo') in E2. rewrite E2 in E1. injection E1 as <-. by rewrite Eo' in Eo.
    + destruct (same_org (js_OrgID (j_spec j)) (id_OrgID id)) eqn:Eo; [|done]. apply (Hr k j Eo) in E1. by rewrite E1 in E2.
    + destruct (same_org (js_OrgID (j_spec j')) (id_OrgID id)) eqn:Eo; [|done]. apply (Hr k j' Eo) in E2. by rewrite E2 in E1.
Qed.

(** What a surface passes on reaches its own vendor only: whichever routes the model has,
    every candidate of the submission is one of this vendor's, spoken to by its mapper. *)
Theorem passthrough_reaches_its_vendor_only v rd (prep : prepared T) rt :
  rt ∈ video_candidates prep (vendor_slug v) ->
  mapper_for rd (r_ProviderVendor rt) =
  Some (mapper_of ToLower ToUpper Marshal decodeWan decodeVeo decodeKling decodeMinimax decodeMinimaxFile decodeVolc
          v (nr_Seed rd) (nr_Passthrough rd)).
Proof using.
  unfold video_candidates. rewrite bool_decide_false by by destruct v. unfold routesOfVendor.
  intros [Hv _]%list_elem_of_In%filter_In%and_comm. apply bool_decide_eq_true in Hv. unfold mapper_for, MapperFor. rewrite Hv.
  by destruct v.
Qed.

(** ** A client follows its job *)

(** The text of an identifier is hexadecimal with dashes, and is read back. *)
Hypothesis uuid_text : forall k, uuidString k <> ""%string /\ forallb plain (lit (uuidString k)) = true /\
  Scan (lit (uuidString k)) = Some k.
(** The vendors' clients decode what was marshalled. *)
Hypothesis answered : forall doc body, Marshal (Some doc) = Ok body ->
  answers Float decodeWan decodeVeo decodeKling decodeMinimax decodeVolc body doc.
(** The aliases the table gives are integers a [float64] holds. *)
Hypothesis alias_float : forall job, Float (itoa (native_alias job)) = Some (native_alias job) /\ int64_range (native_alias job).

Lemma job_id_plain job : forallb plain (lit (VideoJobID uuidString job)) = true.
Proof using uuid_text. unfold VideoJobID. rewrite lit_app, forallb_app. by rewrite (proj1 (proj2 (uuid_text (j_ID job)))). Qed.
Lemma parse_job_id job : parseVideoJobID Scan (lit (VideoJobID uuidString job)) = Some (j_ID job).
Proof using uuid_text.
  destruct (uuid_text (j_ID job)) as (Hne & _ & Hs). unfold parseVideoJobID, VideoJobID. rewrite lit_app.
  assert (Hl : (4 <? length (lit "vid_" ++ lit (uuidString (j_ID job))))%nat = true).
  { apply Nat.ltb_lt. rewrite length_app. change (length (lit "vid_")) with 4%nat.
    destruct (uuidString (j_ID job)); [done|]. cbn [lit list_ascii_of_string length]. lia. }
  rewrite Hl. exact Hs.
Qed.
Lemma plain_slash b : forallb plain b = true -> "/"%char ∉ b.
Proof using. intros Hp Hin. rewrite forallb_forall in Hp. by apply list_elem_of_In, Hp in Hin. Qed.

Lemma same_org_refl org : is_Some org -> same_org org org = true.
Proof using. intros [o ->]. by apply bool_decide_eq_true. Qed.

(** Asking for a job by its own name answers it, to its own organization. *)
Lemma asked_by_name failing (w : VideoWorld (B := B)) org route k row :
  nt_IDAlias route = false -> vw_jobs w !! k = Some row -> j_ID row = k -> js_OrgID (j_spec row) = org -> is_Some org ->
  nativeJobFor Scan native_alias failing w org route (lit (VideoJobID uuidString row)) = Ok row.
Proof using uuid_text.
  intros Ha Hk Hid Ho Hs. unfold nativeJobFor. rewrite trim_plain by apply job_id_plain.
  assert (Hne : beq (lit (VideoJobID uuidString row)) [] = false) by done.
  rewrite Hne, Ha. cbn [negb]. rewrite parse_job_id. unfold GetJob, GetVideoJob. rewrite Hid, Hk, Ho.
  by rewrite same_org_refl.
Qed.

(** So does asking by the alias, where that is what the vendor hands out. *)
Lemma asked_by_alias (w : VideoWorld (B := B)) org route k row :
  nt_IDAlias route = true -> vw_jobs w !! k = Some row -> unique_alias (vw_jobs w) ->
  js_OrgID (j_spec row) = org -> is_Some org ->
  nativeJobFor Scan native_alias false w org route (lit (show_int (native_alias row))) = Ok row.
Proof using alias_float.
  intros Ha Hk Hu Ho Hs. unfold nativeJobFor, show_int, lit.
  rewrite list_ascii_of_string_of_list_ascii, trim_plain by apply itoa_plain.
  assert (Hne : beq (itoa (native_alias row)) [] = false).
  { pose proof (show_int_nonempty (native_alias row)) as Hn. unfold show_int in Hn. apply beq_false. intros E. by rewrite E in Hn. }
  rewrite Hne, Ha, atoi_itoa by apply alias_float. cbn [negb]. rewrite (alias_finds _ _ k row); [done|done|done|].
  rewrite Ho. by apply same_org_refl.
Qed.

Lemma read_alike route p p' q q' :
  p !! lit (nt_IDName route) = p' !! lit (nt_IDName route) -> q !! lit (nt_IDName route) = q' !! lit (nt_IDName route) ->
  IDFrom route (mkNativeRequest route [] p q) = IDFrom route (mkNativeRequest route [] p' q').
Proof using. intros Hp Hq. unfold IDFrom. cbn [nq_Path nq_Query]. by rewrite Hp, Hq. Qed.

Section router.
Variable Match : NativeRoute -> bytes -> option (gmap bytes bytes).
Hypothesis match_literal : forall route, literal_path (lit (nt_Path route)) -> Match route (lit (nt_Path route)) = Some ∅.
Hypothesis match_param : forall route prefix name tail, literal_path (lit prefix) ->
  nt_Path route = (prefix ++ "{" ++ name ++ "}")%string ->
  tail <> [] -> "/"%char ∉ tail -> Match route (lit prefix ++ tail) = Some {[lit name := tail]}.
Hypothesis match_wildcard : forall route prefix tail, literal_path (lit prefix) ->
  nt_Path route = (prefix ++ "*")%string -> Match route (lit prefix ++ tail) = Some {[lit "*" := tail]}.

(** C19: A client written against a vendor follows its job here.  Every submission through a
    vendor's surface is refused or answered 200 with a body from which that vendor's own
    client - this gateway's mapper is one - takes an identifier; the address it then polls
    is one the surface publishes, and whatever has happened to the job since, asking there
    answers the row of that very job, under the key of the submission, as long as it is
    kept and the organization is the same. *)
Theorem a_submitter_follows_its_own_job f ev v route h requestID now ms s r :
  nt_Kind route = NativeSubmit -> keyed (jobs_in s) ->
  (forall doc, exists body, Marshal (Some doc) = Ok body) ->
  let '((status, body), s') := handleNativeSubmit f ev v route h requestID now ms s in
  400 <= status /\ (exists e, (status, body) = write_error v e) \/
  status = 200 /\
  exists k row id out read params,
    jobs_in s' !! k = Some row /\
    SubmitResult decodeWan decodeVeo decodeKling decodeMinimax decodeVolc v r status body = Ok id /\
    PollCall v id = Ok out /\ read ∈ Routes v /\ nt_Kind read = NativePoll /\ lit (nt_Method read) = vo_Method out /\
    Match read (vo_Path out) = Some params /\
    (exists endpoint, js_IdempotencyKey (j_spec row) =
       nativeIdempotencyKey v (nh_Path h) (end_user h) (requestFingerprint endpoint) now) /\
    forall h' (w : VideoWorld (B := B)) row',
      chiParams h' !! lit (nt_IDName read) = params !! lit (nt_IDName read) ->
      flatQuery h' !! lit (nt_IDName read) = vo_Query out !! lit (nt_IDName read) ->
      vw_jobs w !! k = Some row' -> j_spec row' = j_spec row -> is_Some (js_OrgID (j_spec row)) ->
      nativeJobFor Scan native_alias false w (js_OrgID (j_spec row)) read
        (IDFrom read (mkNativeRequest read [] (chiParams h') (flatQuery h'))) = Ok row'.
Proof using uuid_text answered alias_float match_literal match_param match_wildcard.
  intros Hk Hkey Hm. unfold handleNativeSubmit. pose proof (caller_video ev h s) as Hv.
  assert (Herr : forall e, let '(status, body) := write_error v e in
    400 <= status /\ exists e', (status, body) = write_error v e').
  { intros e. pose proof (write_error_status Marshal literal v e) as Es. destruct (write_error v e) eqn:E. cbn [fst] in Es.
    split; [rewrite Es; apply statusOf_refusal|by exists e]. }
  destruct (videoCaller ev h s) as [[id|e] s1]; cbn [snd] in Hv;
    [|specialize (Herr e); destruct (write_error v e); by left].
  destruct (native_read v route h) as [[[body rd] slug]|e];
    [|specialize (Herr e); destruct (write_error v e); by left].
  set (sub := native_submission v h body rd slug requestID now).
  destruct (admit_and_submit _ _ _ _ _ _ _ _ _ _ _ _ _) as [[[job replayed]|e] s2] eqn:Ea;
    [|specialize (Herr e); destruct (write_error v e); by left].
  destruct (Prepare ValidateTransport HashToken sha256hex ev (lend_limiter (st_pipe s1) (st_adm s1))
    (native_incoming h body slug)) as [[[who slug'] [a|e]] adm] eqn:Ep.
  2: { unfold admitAndSubmitVideo in Ea. by rewrite Ep in Ea. }
  destruct (admitted_row _ _ _ _ _ _ _ _ _ _ _ _ _ _ _ _ _ _ _ _ _ _ _ _ Ep Ea) as (Hkeys & k & row & Hrow & Hspec & Horg & Hk2).
  assert (Hk2' : keyed (jobs_in s2)) by (apply Hkeys; unfold jobs_in; by rewrite Hv).
  destruct (render_doc v route (nativeJobOf uuidString native_alias Detail UpdatedAt h job)) as [doc|] eqn:Ed;
    [|by destruct v; cbn [render_doc] in Ed; rewrite ?Hk in Ed].
  destruct (Hm doc) as [out_body Hb].
  assert (Hw : write_job v route h job = (200, out_body)) by (unfold writeNativeJob, Render; by rewrite Ed; cbn [rbind]; rewrite Hb).
  rewrite Hw. right. split; [done|].
  assert (Hj : nj_ID (nativeJobOf uuidString native_alias Detail UpdatedAt h job) = VideoJobID uuidString job)
    by (unfold nativeJobOf; by destruct (Detail job)).
  assert (Hal : nj_Alias (nativeJobOf uuidString native_alias Detail UpdatedAt h job) = native_alias job)
    by (unfold nativeJobOf; by destruct (Detail job)).
  destruct (a_rendered_name_leads_back decodeWan decodeVeo decodeKling decodeMinimax decodeVolc Float Match match_literal
    match_param match_wildcard v r route _ doc out_body Hk Ed (answered _ _ Hb)) as
    (id' & out & read & params & H1' & H2' & H3' & H4' & H5' & H6' & H7').
  { rewrite Hal. by apply alias_float. }
  { by rewrite Hj. }
  { rewrite Hj. by apply plain_slash, job_id_plain. }
  exists k, row, id', out, read, params. split_and!; try done; [by exists body|].
  intros h' w row' Hc Hq Hrow' Hspec' Horg'. rewrite (read_alike read _ _ _ _ Hc Hq), H7', Hj.
  assert (Hid : VideoJobID uuidString job = VideoJobID uuidString row') by (unfold VideoJobID, j_ID; congruence).
  rewrite Hid. apply (asked_by_name _ _ _ _ k); try done; [| |congruence].
  - by destruct v; cbn [Routes] in H3'; repeat (apply elem_of_cons in H3' as [->|H3']); try done; apply elem_of_nil in H3'.
  - unfold j_ID. rewrite Hspec'. by apply (Hk2' k).
Qed.

(** The second hop of the vendor that has one.  A client that saw a completed job asks for
    the file under the integer it was given; the record it is answered names this
    gateway's own address for the film of that job, and asks for no credential. *)
Theorem a_file_record_leads_to_the_film route h job_body row k org (w : VideoWorld (B := B)) :
  ascii_case ToLower ToUpper -> nt_Kind route = NativePoll ->
  (forall doc body, Marshal (Some doc) = Ok body -> decodeMinimaxFile body = minimax_file_record Float doc) ->
  (forall doc, exists body, Marshal (Some doc) = Ok body) ->
  j_Status row = StatusCompleted -> vw_jobs w !! k = Some row -> unique_alias (vw_jobs w) ->
  js_OrgID (j_spec row) = org -> is_Some org ->
  writeNativeJob uuidString native_alias Detail UpdatedAt Marshal literal Minimax route h row = (200, job_body) ->
  exists p art read params,
    PollResult ToLower ToUpper decodeWan decodeVeo decodeKling decodeMinimax decodeVolc Minimax 200 job_body = Ok p /\
    ArtifactCall Minimax p = Ok art /\ ar_Indirect art = true /\ read ∈ Routes Minimax /\ nt_Kind read = NativeArtifact /\
    Match read (vo_Path (ar_Request art)) = Some params /\
    forall h', flatQuery h' !! lit (nt_IDName read) = vo_Query (ar_Request art) !! lit (nt_IDName read) ->
      nativeJobFor Scan native_alias false w org read (IDFrom read (mkNativeRequest read [] (chiParams h') (flatQuery h')))
        = Ok row /\
      exists file_body, writeNativeJob uuidString native_alias Detail UpdatedAt Marshal literal Minimax read h' row = (200, file_body) /\
        ResolveArtifact decodeMinimaxFile Minimax 200 file_body =
        Ok (presigned (videoContentURL uuidString h' row) "video/mp4").
Proof using answered alias_float match_literal.
  intros Hcase Hk Hfile Hm Hs Hrow Hu Ho Hsome Hw. destruct (alias_float row) as [Haf Hrange].
  assert (Hjob : forall g, nj_Alias (nativeJobOf uuidString native_alias Detail UpdatedAt g row) = native_alias row /\
    nj_Status (nativeJobOf uuidString native_alias Detail UpdatedAt g row) = StatusCompleted /\
    nj_ContentURL (nativeJobOf uuidString native_alias Detail UpdatedAt g row) = videoContentURL uuidString g row)
    by (intros g; unfold nativeJobOf; rewrite Hs; by destruct (Detail row)).
  assert (Hurl : forall g, videoContentURL uuidString g row <> ""%string).
  { intros g. unfold videoContentURL. cbv zeta. destruct (nonempty_string _) eqn:E; [|by destruct (nh_TLS g)].
    destruct (string_of_list_ascii _); [done|discriminate]. }
  destruct (Hjob h) as (Ja & Js & Jc). set (nj := nativeJobOf _ _ _ _ h row) in *.
  destruct (Hm (minimax_task nj)) as [body Hb].
  assert (Eb : body = job_body).
  { unfold writeNativeJob, Render in Hw. fold nj in Hw. cbn [render_doc] in Hw. rewrite Hk in Hw. cbn [rbind] in Hw.
    rewrite Hb in Hw. by injection Hw. }
  subst job_body.
  destruct (a_rendered_job_polls_as_itself ToLower ToUpper Hcase Float decodeWan decodeVeo decodeKling decodeMinimax decodeVolc
    Minimax route nj (minimax_task nj) body) as (p & Hp & Hps & _ & Hpa).
  { by rewrite Hk. } { cbn [render_doc]. by rewrite Hk. } { by apply answered. } { intros _. by rewrite Jc. } { by rewrite Ja. }
  rewrite Js in Hps. destruct (Hpa Hps) as [Href [art Hart]].
  exists p, art, (mkNativeRoute "GET" "/v1/files/retrieve" NativeArtifact "" NativeIDInQuery "file_id" true), ∅.
  unfold ArtifactCall in Hart. destruct (negb _); [done|]. injection Hart as <-. cbn [reference_of] in Href. rewrite Ja in Href.
  unfold ArtifactCall. rewrite Href, show_int_nonempty. cbn [negb].
  split_and!; try done; [by right; right; left|by apply match_literal|].
  intros h' Hq. unfold IDFrom. cbn [nt_IDName nt_IDIn nq_Query] in *. change (bool_decide ("file_id"%string = ""%string)) with false.
  change (bool_decide (NativeIDInQuery = NativeIDInQuery)) with true. cbn iota. rewrite Hq.
  cbn [minimax_artifact get_query ar_Request vo_Query]. rewrite lookup_singleton_eq. cbn [default from_option id]. split.
  - by apply (asked_by_alias _ _ _ k).
  - destruct (Hjob h') as (Ja' & Js' & Jc'). set (nj' := nativeJobOf _ _ _ _ h' row) in *.
    destruct (Hm (minimax_file nj')) as [file_body Hfb]. exists file_body. split.
    + unfold writeNativeJob, Render. fold nj'. cbn [render_doc nt_Kind]. unfold has_content. rewrite Js', Jc'.
      rewrite (proj2 (nonempty_string_spec _)) by done. rewrite bool_decide_true by done. cbn [andb rbind]. by rewrite Hfb.
    + unfold ResolveArtifact, minimax_resolved. change (okStatus 200) with true. cbn [negb].
      rewrite (Hfile _ _ Hfb), minimax_file_render by by rewrite Ja'. cbn [rbind mf_Base mf_DownloadURL].
      change (nonzero_base (Some (0, "success"%string))) with false. cbn iota. rewrite Jc'.
      by rewrite (proj2 (nonempty_string_spec _)).
Qed.
End router.
End serve.

(** ** Concrete surfaces *)

(** A codec for documents: their trees, counted, the number written in binary. *)
Fixpoint to_tree (v : value) : gen_tree bytes :=
  match v with
  | VNull => GenNode 0 []
  | VBool b => GenNode (if b then 1 else 2) []
  | VNumber t => GenNode 3 [GenLeaf t]
  | VString s => GenNode 4 [GenLeaf s]
  | VArray l => GenNode 5 (map to_tree l)
  | VObject o => GenNode 6 (map (fun kv => GenNode 7 [GenLeaf kv.1; to_tree kv.2]) o)
  end.
Fixpoint of_tree (t : gen_tree bytes) : value :=
  match t with
  | GenNode 1 _ => VBool true
  | GenNode 2 _ => VBool false
  | GenNode 3 [GenLeaf t] => VNumber t
  | GenNode 4 [GenLeaf s] => VString s
  | GenNode 5 l => VArray (map of_tree l)
  | GenNode 6 l => VObject (map (fun t => match t with GenNode 7 [GenLeaf k; t] => (k, of_tree t) | _ => ([], VNull) end) l)
  | _ => VNull
  end.
Fixpoint of_to_tree (v : value) : of_tree (to_tree v) = v.
Proof.
  destruct v as [|[]|t|s|l|o]; try reflexivity; cbn [to_tree of_tree]; f_equal.
  - induction l as [|v l IH]; [reflexivity|]. cbn [map]. rewrite of_to_tree, IH. reflexivity.
  - induction o as [|[k v] o IH]; [reflexivity|]. cbn [map fst snd]. rewrite of_to_tree, IH. reflexivity.
Qed.
Fixpoint bits (p : positive) : bytes :=
  match p with xH => [] | xO p => "0"%char :: bits p | xI p => "1"%char :: bits p end.
Fixpoint unbits (b : bytes) : positive :=
  match b with [] => xH | c :: b => if Ascii.eqb c "0" then xO (unbits b) else xI (unbits b) end.
Lemma unbits_bits p : unbits (bits p) = p.
Proof. induction p as [p IH|p IH|]; cbn; by rewrite ?IH. Qed.
Lemma bits_plain p : forallb plain (bits p) = true.
Proof. induction p as [p IH|p IH|]; [exact IH|exact IH|reflexivity]. Qed.

Definition demo_Marshal (doc : option object) : result string bytes := Ok (bits (encode (to_tree (VObject (default [] doc))))).
Definition demo_Unmarshal (b : bytes) : result string (option object) :=
  match of_tree <$> decode (unbits b) with Some (VObject o) => Ok (Some o) | _ => Err "invalid character"%string end.
Definition demo_doc (b : bytes) : object := match demo_Unmarshal b with Ok (Some o) => o | _ => [] end.
Lemma demo_doc_marshal doc body : demo_Marshal (Some doc) = Ok body -> demo_doc body = doc.
Proof.
  intros Hb. change (@Ok string bytes (bits (encode (to_tree (VObject doc)))) = Ok body) in Hb.
  assert (body = bits (encode (to_tree (VObject doc)))) as -> by congruence.
  unfold demo_doc, demo_Unmarshal.
  assert (E : of_tree <$> decode (unbits (bits (encode (to_tree (VObject doc))))) = Some (VObject doc))
    by (rewrite unbits_bits, decode_encode; exact (f_equal Some (of_to_tree (VObject doc)))).
  by rewrite E.
Qed.
Lemma demo_marshals doc : exists body, demo_Marshal (Some doc) = Ok body.
Proof. by eexists. Qed.
Lemma demo_answered doc body : demo_Marshal (Some doc) = Ok body ->
  answers atoi (fun b => wan_task (demo_doc b)) (fun b => veo_operation (demo_doc b)) (fun b => kling_envelope (demo_doc b))
    (fun b => minimax_resp atoi (demo_doc b)) (fun b => volc_task (demo_doc b)) body doc.
Proof. intros Hb. unfold answers. by rewrite (demo_doc_marshal _ _ Hb). Qed.

Definition demo_hex (b : bytes) : string := string_of_list_ascii (bits (encode b)).
Definition demo_uuid (k : string) : string := String "u" (string_of_list_ascii (bits (encode k))).
Definition demo_scan_uuid (b : bytes) : option string := match b with [] => None | _ :: b => decode (unbits b) end.
Lemma demo_uuid_text k : demo_uuid k <> ""%string /\ forallb plain (lit (demo_uuid k)) = true /\
  demo_scan_uuid (lit (demo_uuid k)) = Some k.
Proof.
  split; [done|]. unfold demo_uuid, lit. cbn [list_ascii_of_string]. rewrite list_ascii_of_string_of_list_ascii.
  split; [exact (bits_plain _)|]. cbn [demo_scan_uuid]. by rewrite unbits_bits, decode_encode.
Qed.
Lemma demo_hex_line b : newline_ ∉ lit (demo_hex b).
Proof.
  unfold demo_hex, lit. rewrite list_ascii_of_string_of_list_ascii. intros Hn.
  pose proof (bits_plain (encode b)) as Hp. rewrite forallb_forall in Hp. by apply list_elem_of_In, Hp in Hn.
Qed.
Lemma demo_hex_inj x y : demo_hex x = demo_hex y -> x = y.
Proof.
  unfold demo_hex. intros E. apply (f_equal list_ascii_of_string) in E. rewrite !list_ascii_of_string_of_list_ascii in E.
  apply (f_equal unbits) in E. rewrite !unbits_bits in E. by apply (inj encode) in E.
Qed.

(** Two end users, one prompt, one minute. *)
Lemma one_key_per_request_and_minute_witness :
  nativeIdempotencyKey demo_hex Kuaishou (lit "/v1/videos/text2video") (lit "alice") (requestFingerprint demo_hex (lit "{}")) 5 <>
  nativeIdempotencyKey demo_hex Kuaishou (lit "/v1/videos/text2video") (lit "bob") (requestFingerprint demo_hex (lit "{}")) 5.
Proof.
  intros E. destruct (one_key_per_request_and_minute demo_hex Kuaishou Kuaishou (lit "/v1/videos/text2video")
    (lit "/v1/videos/text2video") (lit "alice") (lit "bob") (lit "{}") (lit "{}") 5 5 demo_hex_line) as [_ H];
    [refine (bool_decide_unpack _ _); vm_compute; reflexivity..|].
  destruct (H E) as [(_ & _ & He & _)|(x & y & Hne & Hxy)]; [discriminate He|exact (Hne (demo_hex_inj _ _ Hxy))].
Defined.

(** A checksum of little strength. *)
Definition demo_sum (b : bytes) : string := show_int (length_z b).

(** The gateway of the submission's example, its one route at Minimax. *)
Definition demo_native_env : Env (raw := bool) :=
  let ev := demo_video_env in let q := ev_catalog ev in
  mkEnv (ev_auth ev) (ev_int ev) (ev_bool ev) (ev_string ev) (ev_affinity ev) (ev_affinity_tx ev) (ev_byok ev)
    true true
    (mkQueries (GetModelBySlug q) (TierAllowsModel q) (GetModelPricing q)
       (fun _ _ _ _ _ => Ok [mkRouteRow (Some "r1"%string) (Some "p1"%string) "hailuo" "minimax" 1 10 (Some 8192) false None true
                                (Some 60) None 64 "https://hailuo" "T2V-01"])
       (GetRouteCostMultiplier q))
    (ev_prices ev) (ev_spend ev) (ev_today ev) (ev_clock ev) 5 6.
Definition demo_wired (vendor name : string) : result string (list string) :=
  Ok (if bool_decide (vendor = "minimax"%string) && bool_decide (name = "T2V-01"%string) then ["demo"%string] else []).
Definition demo_written (o : object) : bytes := bits (encode (to_tree (VObject o))).
Definition demo_native_body : bytes :=
  demo_written [(lit "model", str "T2V-01"); (lit "prompt", str "a cat"); (lit "duration", num 8); (lit "resolution", str "720P")].
Definition demo_vendor_upstream (t : VideoWorker.Target VideoOutbound) : result Error (Z * bytes) :=
  Ok (200, demo_written [(lit "task_id", str "up-9"); (lit "status", str "Queueing"); (lit "base_resp", hailuoOK)]).
Definition demo_header (name : string) : bytes :=
  if bool_decide (name = "Authorization"%string) then lit "Bearer " ++ demo_key else [].
Definition demo_native_http (q : gmap bytes (list bytes)) : NativeHTTP :=
  mkNativeHTTP (lit "/v1/video_generation") [] q demo_header (Ok demo_native_body) "gw.example" true.

#[local] Instance demo_cache : CacheStore Identity (gmap string (memEntry Identity)) :=
  Memory_cache keep_only.

Abbreviation demo_Submit now s :=
  (handleNativeSubmit demo_validate demo_hash demo_sum demo_keys demo_vendor_upstream (fun _ => Ok listed) no_faults
     demo_mint ascii_lower ascii_upper atoi demo_Unmarshal demo_Marshal demo_written
     (fun b => wan_task (demo_doc b)) (fun b => veo_operation (demo_doc b)) (fun b => kling_envelope (demo_doc b))
     (fun b => minimax_resp atoi (demo_doc b)) (fun b => minimax_file_record atoi (demo_doc b)) (fun b => volc_task (demo_doc b))
     demo_wired demo_uuid (fun _ => 7) (fun _ => (8, "720p"%string)) (fun _ => 0) (fun _ => demo_probes)
     Ledger.no_faults demo_native_env Minimax (submit_route "/v1/video_generation" "") (demo_native_http ∅) "req-1" now 12 s).

(** The row of that first submission, and the table with it alone. *)
Abbreviation demo_native_row :=
  (default demo_job (jobs_in (demo_Submit 0 (demo_submit_state ∅)).2 !! "vid-0"%string)).
Abbreviation demo_native_again := (demo_submit_state {["vid-0"%string := demo_native_row]}).
Abbreviation demo_native_caller s := (videoCaller (B := Fake) (S := Memory) (L := Redis) (T := nat) demo_hash demo_native_env (demo_native_http ∅) s).
Abbreviation demo_decoded := (native_read ascii_lower atoi demo_Unmarshal demo_wired Minimax
  (submit_route "/v1/video_generation" "") (demo_native_http ∅)).
Abbreviation demo_native_open s body slug := (Prepare demo_validate demo_hash demo_sum demo_native_env
  (lend_limiter (st_pipe s) (st_adm s)) (native_incoming (fun _ => demo_probes) (demo_native_http ∅) body slug)).

Lemma a_retry_in_the_minute_costs_nothing_witness :
  let '(answer, s') := demo_Submit (59 * Second) demo_native_again in
  answer.1 = 200 /\ jobs_in s' = jobs_in demo_native_again /\ moneyless (books_in demo_native_again) (books_in s').
Proof.
  assert (W : (match (demo_native_caller demo_native_again).1, demo_decoded with
               | Ok _, Ok (body, rd, slug) =>
                   match (demo_native_open (demo_native_caller demo_native_again).2 body slug).1.2 with
                   | Ok a => GetVideoJobByIdempotencyKey (id_OrgID (pr_id (am_prep a)))
                       (nativeIdempotencyKey demo_sum Minimax (nh_Path (demo_native_http ∅)) (end_user (demo_native_http ∅))
                          (requestFingerprint demo_sum body) 0) (jobs_in demo_native_again)
                   | Err _ => None
                   end
               | _, _ => None
               end) = Some demo_native_row /\ (demo_Submit (59 * Second) demo_native_again).1.1 = 200)
    by (vm_compute; split; reflexivity).
  destruct W as [W W2].
  destruct (demo_native_caller demo_native_again) as [[id|e] s1] eqn:Ec; cbn [fst snd] in W; [|discriminate W].
  destruct demo_decoded as [[[body rd] slug]|e] eqn:Er; [|discriminate W].
  destruct (demo_native_open s1 body slug) as [[[who slug'] [a|e]] adm] eqn:Ep; cbn [fst snd] in W; [|discriminate W].
  pose proof (a_retry_in_the_minute_costs_nothing demo_validate demo_hash demo_sum demo_keys demo_vendor_upstream
    (fun _ => Ok listed) no_faults demo_mint ascii_lower ascii_upper atoi demo_Unmarshal demo_Marshal demo_written
    (fun b => wan_task (demo_doc b)) (fun b => veo_operation (demo_doc b)) (fun b => kling_envelope (demo_doc b))
    (fun b => minimax_resp atoi (demo_doc b)) (fun b => minimax_file_record atoi (demo_doc b)) (fun b => volc_task (demo_doc b))
    demo_wired demo_uuid (fun _ => 7) (fun _ => (8, "720p"%string)) (fun _ => 0) (fun _ => demo_probes)
    Ledger.no_faults demo_native_env Minimax (submit_route "/v1/video_generation" "") (demo_native_http ∅) "req-1" 0
    (59 * Second) 12 demo_native_again id s1 body rd slug who slug' a adm demo_native_row Ec Er Ep eq_refl W) as K.
  destruct (demo_Submit (59 * Second) demo_native_again) as [answer s']. cbn [fst] in W2.
  destruct K as (K1 & _ & K3 & _). exact (conj W2 (conj K1 K3)).
Defined.

Lemma native_submission_refines_steps_witness :
  exists hand',
    rtc (vstep demo_scan_numeric) (mkVState 0 (mkVideo demo_books ∅ ∅) [])
      (mkVState 0 (st_video (handleNative demo_validate demo_hash demo_sum demo_keys demo_vendor_upstream
    (fun _ => Ok listed) no_faults demo_mint ascii_lower ascii_upper atoi demo_Unmarshal demo_Marshal demo_written
    (fun b => wan_task (demo_doc b)) (fun b => veo_operation (demo_doc b)) (fun b => kling_envelope (demo_doc b))
    (fun b => minimax_resp atoi (demo_doc b)) (fun b => minimax_file_record atoi (demo_doc b)) (fun b => volc_task (demo_doc b))
    demo_wired demo_uuid demo_scan_uuid (fun _ => 7) (fun _ => (8, "720p"%string)) (fun _ => 0) (fun _ => demo_probes)
    Ledger.no_faults demo_native_env Minimax (submit_route "/v1/video_generation" "") (demo_native_http ∅)
    "req-1" 0 12 (demo_submit_state ∅)).2) hand').
Proof.
  apply (native_submission_refines_steps demo_validate demo_hash demo_sum demo_keys demo_vendor_upstream
    (fun _ => Ok listed) no_faults demo_mint ascii_lower ascii_upper atoi demo_Unmarshal demo_Marshal demo_written
    (fun b => wan_task (demo_doc b)) (fun b => veo_operation (demo_doc b)) (fun b => kling_envelope (demo_doc b))
    (fun b => minimax_resp atoi (demo_doc b)) (fun b => minimax_file_record atoi (demo_doc b)) (fun b => volc_task (demo_doc b))
    demo_wired demo_uuid demo_scan_uuid (fun _ => 7) (fun _ => (8, "720p"%string)) (fun _ => 0) (fun _ => demo_probes)
    demo_scan_numeric Ledger.no_faults demo_native_env Minimax (submit_route "/v1/video_generation" "") (demo_native_http ∅)
    "req-1" 0 12 (demo_submit_state ∅) []).
  intros sub _. split; [|reflexivity]. intros j [Hj|Hj]; [by apply not_elem_of_nil in Hj|done].
Defined.

(** A table with another organization's job, and none. *)
Abbreviation demo_poll_route := (mkNativeRoute "GET" "/v1/query/video_generation" NativePoll "" NativeIDInQuery "task_id" false).
Definition demo_foreign : Job :=
  let sp := demo_spec in
  created (mkSpec "vid-9" (Some "org-2"%string) (js_ApiKeyID sp) "req-9" "idem-9" "print-9" (js_ModelSlug sp) (js_Byok sp)
    (js_BillingUnits sp) (js_HoldID sp) (js_HoldNano sp) (js_ChargedCurrency sp) (js_PricingSnapshot sp) (js_MaxJobSeconds sp)
    "" 0 (js_ExpiresAt sp)) demo_pin 0 0.
Abbreviation demo_ask s := (handleNativeRead (B := Fake) (S := Memory) (L := Redis) (T := nat) demo_hash no_faults demo_Marshal
  demo_written demo_uuid demo_scan_uuid (fun _ => 7) (fun _ => (8, "720p"%string)) (fun _ => 0) demo_native_env Minimax demo_poll_route
  (demo_native_http {[lit "task_id" := [lit (VideoJobID demo_uuid demo_foreign)]]}) s).

Lemma another_organizations_jobs_do_not_exist_witness :
  (demo_ask (demo_submit_state {["vid-9"%string := demo_foreign]})).1 = (demo_ask (demo_submit_state ∅)).1 /\
  (demo_ask (demo_submit_state ∅)).1.1 = 404.
Proof.
  split; [|vm_compute; reflexivity].
  apply (another_organizations_jobs_do_not_exist demo_hash no_faults demo_Marshal demo_written demo_uuid demo_scan_uuid (fun _ => 7)
    (fun _ => (8, "720p"%string)) (fun _ => 0) demo_native_env Minimax demo_poll_route
    (demo_native_http {[lit "task_id" := [lit (VideoJobID demo_uuid demo_foreign)]]}) (demo_submit_state ∅)
    (mkVideo demo_books {["vid-9"%string := demo_foreign]} ∅)).
  - intros id s1 Hc. assert (W : (match (demo_native_caller (demo_submit_state ∅)).1 with Ok id => id_OrgID id | Err _ => None end)
      = Some "o1"%string) by (vm_compute; reflexivity).
    unfold videoCaller in Hc. cbn [demo_native_http nh_Header] in Hc.
    unfold videoCaller in W. cbn [demo_native_http nh_Header] in W.
    destruct (Authenticate _ _ _ _ _ _) as [[[who|e] c] used]; [|discriminate Hc]. cbn [fst] in W.
    destruct (RequireScope who "inference"); [discriminate Hc|]. injection Hc as <- _. rewrite W.
    intros k j Ho. split; [done|]. cbn [vw_jobs]. intros [_ <-]%lookup_singleton_Some. discriminate Ho.
  - intros k k' j j' Hj. done.
  - intros k k' j j'. cbn [vw_jobs]. intros [_ <-]%lookup_singleton_Some [_ <-]%lookup_singleton_Some _. reflexivity.
Defined.

Lemma passthrough_reaches_its_vendor_only_witness :
  exists (rt : Route nat) mapper, r_ProviderVendor rt = "minimax"%string /\
    mapper_for ascii_lower ascii_upper demo_Marshal (fun b => wan_task (demo_doc b)) (fun b => veo_operation (demo_doc b))
      (fun b => kling_envelope (demo_doc b)) (fun b => minimax_resp atoi (demo_doc b))
      (fun b => minimax_file_record atoi (demo_doc b)) (fun b => volc_task (demo_doc b))
      (mkNativeRead (demo_clip 8) None [(lit "callback_url", str "https://cb")]) (r_ProviderVendor rt) = Some mapper.
Proof.
  pose (rt := mkRoute (T := nat) (Some "r"%string) (Some "p"%string) "hailuo" "minimax" 1 1 10000 0 false 0 0%nat (mkCapacity 0 0 4)
                "https://hailuo" "T2V-01").
  exists rt. eexists. split; [reflexivity|].
  apply (passthrough_reaches_its_vendor_only ascii_lower ascii_upper demo_Marshal (fun b => wan_task (demo_doc b))
    (fun b => veo_operation (demo_doc b)) (fun b => kling_envelope (demo_doc b)) (fun b => minimax_resp atoi (demo_doc b))
    (fun b => minimax_file_record atoi (demo_doc b)) (fun b => volc_task (demo_doc b)) Minimax
    (mkNativeRead (demo_clip 8) None [(lit "callback_url", str "https://cb")])
    (mkPrepared (pr_id demo_video_prepared) "m" (mkResolution (res_Model (pr_res demo_video_prepared))
       (res_ModelPricing (pr_res demo_video_prepared)) [demo_up; rt]) (pr_pricing demo_video_prepared) 0 0
       (pr_priceTable demo_video_prepared) (pr_unitPriceTable demo_video_prepared) ∅) rt).
  by left.
Defined.

Lemma demo_alias (job : Job) : atoi (itoa 7) = Some 7 /\ int64_range 7.
Proof. split; [reflexivity|split; vm_compute; discriminate]. Qed.

Lemma a_submitter_follows_its_own_job_witness :
  let '((status, body), s') := demo_Submit 0 (demo_submit_state ∅) in
  status = 200 /\ exists k row id out,
    jobs_in s' !! k = Some row /\
    SubmitResult (fun b => wan_task (demo_doc b)) (fun b => veo_operation (demo_doc b)) (fun b => kling_envelope (demo_doc b))
      (fun b => minimax_resp atoi (demo_doc b)) (fun b => volc_task (demo_doc b)) Minimax (demo_clip 8) status body = Ok id /\
    PollCall Minimax id = Ok out.
Proof.
  assert (W : (demo_Submit 0 (demo_submit_state ∅)).1.1 = 200) by (vm_compute; reflexivity).
  pose proof (a_submitter_follows_its_own_job demo_validate demo_hash demo_sum demo_keys demo_vendor_upstream
    (fun _ => Ok listed) no_faults demo_mint ascii_lower ascii_upper atoi demo_Unmarshal demo_Marshal demo_written
    (fun b => wan_task (demo_doc b)) (fun b => veo_operation (demo_doc b)) (fun b => kling_envelope (demo_doc b))
    (fun b => minimax_resp atoi (demo_doc b)) (fun b => minimax_file_record atoi (demo_doc b)) (fun b => volc_task (demo_doc b))
    demo_wired demo_uuid demo_scan_uuid (fun _ => 7) (fun _ => (8, "720p"%string)) (fun _ => 0) (fun _ => demo_probes)
    demo_uuid_text demo_answered demo_alias
    route_match route_literal route_param route_wildcard
    Ledger.no_faults demo_native_env Minimax (submit_route "/v1/video_generation" "") (demo_native_http ∅) "req-1" 0
    12 (demo_submit_state ∅) (demo_clip 8) eq_refl (fun k j Hj => False_ind _ (lookup_empty_Some k j Hj)) demo_marshals) as K.
  destruct (demo_Submit 0 (demo_submit_state ∅)) as [[status body] s']. cbn [fst] in W. split; [exact W|].
  destruct K as [[K _]|(_ & k & row & id & out & read & params & K1 & K2 & K3 & _)].
  - exfalso. lia.
  - exists k, row, id, out. by split_and!.
Defined.

Lemma a_file_record_leads_to_the_film_witness :
  let row := with_life demo_native_row (mkLife StatusCompleted "up-9" "Success" 100 "" "" None None) in
  exists file_body, writeNativeJob demo_uuid (fun _ => 7) (fun _ => (8, "720p"%string)) (fun _ => 0) demo_Marshal demo_written Minimax
      (mkNativeRoute "GET" "/v1/files/retrieve" NativeArtifact "" NativeIDInQuery "file_id" true) (demo_native_http {[lit "file_id" := [lit "7"]]}) row
      = (200, file_body) /\
    ResolveArtifact (fun b => minimax_file_record atoi (demo_doc b)) Minimax 200 file_body =
      Ok (presigned (videoContentURL demo_uuid (demo_native_http {[lit "file_id" := [lit "7"]]}) row) "video/mp4").
Proof.
  intros row.
  assert (Ho : js_OrgID (j_spec row) = Some "o1"%string) by (vm_compute; reflexivity).
  destruct (a_file_record_leads_to_the_film ascii_lower ascii_upper atoi demo_Marshal demo_written
    (fun b => wan_task (demo_doc b)) (fun b => veo_operation (demo_doc b)) (fun b => kling_envelope (demo_doc b))
    (fun b => minimax_resp atoi (demo_doc b)) (fun b => minimax_file_record atoi (demo_doc b)) (fun b => volc_task (demo_doc b))
    demo_uuid demo_scan_uuid (fun _ => 7) (fun _ => (8, "720p"%string)) (fun _ => 0) demo_answered
    demo_alias route_match route_literal demo_poll_route (demo_native_http ∅)
    (default [] (Some (writeNativeJob demo_uuid (fun _ => 7) (fun _ => (8, "720p"%string)) (fun _ => 0) demo_Marshal demo_written Minimax
       demo_poll_route (demo_native_http ∅) row).2)) row "vid-0" (Some "o1"%string)
    (mkVideo demo_books {["vid-0"%string := row]} ∅) ascii_cases eq_refl) as
    (p & art & read & params & Hp & Ha & _ & Hin & Hk & _ & Hf).
  - intros doc body Hb. by rewrite (demo_doc_marshal _ _ Hb).
  - exact demo_marshals.
  - reflexivity.
  - exact (lookup_singleton_eq _ _).
  - intros k k' j j'. cbn [vw_jobs]. intros [_ <-]%lookup_singleton_Some [_ <-]%lookup_singleton_Some _. reflexivity.
  - exact Ho.
  - by eexists.
  - vm_compute. reflexivity.
  - assert (Hp' : p = mkPoll StatusCompleted "Success" 100 "" "" false "7" "video/mp4").
    { match type of Hp with ?x = _ => assert (E : x = Ok (mkPoll StatusCompleted "Success" 100 "" "" false "7" "video/mp4"))
        by (vm_compute; reflexivity) end. rewrite E in Hp. by injection Hp. }
    subst p. unfold ArtifactCall in Ha. cbn [po_ArtifactRef po_ContentType] in Ha.
    change (negb (nonempty_string "7")) with false in Ha. injection Ha as <-.
    assert (Hread : read = mkNativeRoute "GET" "/v1/files/retrieve" NativeArtifact "" NativeIDInQuery "file_id" true).
    { clear - Hin Hk. unfold Routes, minimax_routes in Hin. rewrite !elem_of_cons in Hin.
      destruct Hin as [->|[->|[->|Hin]]]; [discriminate Hk|discriminate Hk|reflexivity|by apply elem_of_nil in Hin]. }
    subst read.
    destruct (Hf (demo_native_http {[lit "file_id" := [lit "7"]]})) as (_ & file_body & H1 & H2);
      [|exists file_body; exact (conj H1 H2)].
    unfold flatQuery. cbn [demo_native_http nh_Query nt_IDName minimax_artifact get_query ar_Request vo_Query].
    by rewrite lookup_omap, !lookup_singleton_eq.
Defined.
