(* ===== verification/ProbeRun.v ===== *)
(** * What one probe sends: [internal/gateway/upstreamprobe/probe.go] and
    [routeprobe.Run]

    The smallest request per endpoint, the request it becomes, and the verdict its
    answer is.  [Probe.v] has the table the verdicts are kept in and takes one probe as a
    parameter; here is that parameter, over the request building of [Rewrite.v] and
    [Outbound.v] and the vendor mappers of [Vendors.v].  The captured trace a console asks
    for is not modelled. *)
From S2P Require Import Prelude GoStr BreakerStore Surfaces UnitPricing Catalog Errors Guard Billing Rotation Ledger.
From S2P Require Import Envelope VideoJobs VideoWorker Credentials Attempt Http Transport Upstream Base64 Outbound Rewrite Forward.
From S2P Require Import Vendors Probe.

Open Scope Z_scope.

(** ** The smallest request *)

Record Spec := mkSpec {
  sp_Protocol : Protocol; sp_Surface : Surface; sp_Path : bytes; sp_Body : bytes;
  sp_ContentType : bytes;   (** empty for a JSON body *)
}.

Definition text_hi : value := VObject [(lit "parts", VArray [VObject [(lit "text", str "hi")]])].
Definition user_hi : value := VArray [VObject [(lit "role", str "user"); (lit "content", str "hi")]].

(** The path and the document of the endpoints whose body is plain JSON. *)
Definition json_spec (ep : string) (model : bytes) : option (bytes * object) :=
  let named rest := (lit "model", VString model) :: rest in
  match ep with
  | "chat" => Some (PathChat, named [(lit "max_tokens", num 1); (lit "messages", user_hi)])
  | "messages" => Some (PathMessages, named [(lit "max_tokens", num 1); (lit "messages", user_hi)])
  | "messages_count_tokens" => Some (PathMessagesCountTokens, named [(lit "messages", user_hi)])
  | "responses" => Some (PathResponses, named [(lit "input", str "hi"); (lit "max_output_tokens", num 16)])
  | "responses_compact" => Some (PathResponsesCompact, named [(lit "input", str "hi")])
  | "responses_input_tokens" => Some (PathResponsesInputTokens, named [(lit "input", str "hi")])
  | "embeddings" => Some (PathEmbeddings, named [(lit "input", str "hi")])
  | "generate_content" =>
      Some (PathGenerateContent, [(lit "contents", VArray [text_hi]);
                                  (lit "generationConfig", VObject [(lit "maxOutputTokens", num 1)])])
  | "gemini_count_tokens" => Some (PathGeminiCountTokens, [(lit "contents", VArray [text_hi])])
  | "gemini_embed_content" => Some (PathGeminiEmbedContent, [(lit "content", text_hi)])
  | "gemini_batch_embed_contents" =>
      Some (PathGeminiBatchEmbedContents,
            [(lit "requests", VArray [VObject [(lit "model", VString (lit "models/" ++ model)); (lit "content", text_hi)]])])
  | "gemini_interactions" => Some (PathGeminiInteractions, named [(lit "input", str "hi")])
  | "images" =>
      Some (PathImagesGenerate, named [(lit "prompt", str "a dot"); (lit "n", num 1); (lit "size", str "1024x1024")])
  | _ => None
  end%string.

Definition DefaultEndpoint (p : option Protocol) : string :=
  match p with Some ProtocolAnthropic => "messages" | Some ProtocolGemini => "generate_content" | _ => "chat" end.

(** *** The multipart upload *)

Definition crlf : bytes := [byte_of 13; byte_of 10].
Definition dquoted (s : string) : bytes := byte_of 34 :: lit s ++ [byte_of 34].
Record Part := mkPart { pa_Name : string; pa_File : option string; pa_Data : bytes }.

(** One part as [multipart.Writer] writes it, its headers in the order of their names. *)
Definition part_header (p : Part) : bytes :=
  lit "Content-Disposition: form-data; name=" ++ dquoted (pa_Name p) ++
  match pa_File p with
  | Some file => lit "; filename=" ++ dquoted file ++ crlf ++ lit "Content-Type: application/octet-stream"
  | None => []
  end ++ crlf ++ crlf.
Fixpoint form_parts (boundary : bytes) (first : bool) (parts : list Part) : bytes :=
  match parts with
  | [] => crlf ++ lit "--" ++ boundary ++ lit "--" ++ crlf
  | p :: parts =>
      (if first then [] else crlf) ++ lit "--" ++ boundary ++ crlf ++ part_header p ++ pa_Data p ++
      form_parts boundary false parts
  end.

Definition probePNG : bytes :=
  lit "iVBORw0KGgoAAAANSUhEUgAAAAEAAAABCAYAAAAfFcSJAAAADUlEQVR42mP8z8BQDwAEhQGAhKmMIQAAAABJRU5ErkJggg==".
(** [StdEncoding.DecodeString], of a text in whole quanta without line breaks. *)
Definition StdDecode (s : bytes) : option bytes :=
  if negb (len s mod 4 =? 0) then None else DecodeString std_char (TrimSuffix (TrimSuffix s (lit "=")) (lit "=")).

Definition image_form (model png : bytes) : list Part :=
  [mkPart "model" None model; mkPart "prompt" None (lit "a dot"); mkPart "image" (Some "probe.png"%string) png].

(** *** The video clip *)

(** [slices.Min], of a list known not to be empty. *)
Definition Min (d : Z) (l : list Z) : Z := fold_left Z.min l d.

Section specs.
Variables ToLower ToUpper : string -> string.
Variable Marshal : option object -> result string bytes.
(** The boundary a multipart writer draws. *)
Variable boundary : bytes.

Definition imagesEditSpec (protocol : Protocol) (surface : Surface) (model : bytes) : option Spec :=
  match StdDecode probePNG with
  | None => None
  | Some png =>
      Some (mkSpec protocol surface PathImagesEdit (form_parts boundary true (image_form model png))
              (lit "multipart/form-data; boundary=" ++ boundary))
  end.

Definition smallest_clip (e : Envelope) : VideoRequest :=
  mkVideoRequest "" "a dot" ""
    (match en_DurationsSeconds e with [] => 0 | d :: ds => Min d ds end)
    (match en_Resolutions e with [] => "" | r :: _ => r end)
    (match en_AspectRatios e with [] => "" | a :: _ => a end)
    None "" "" [] 1.

Definition videoSpec (model vendor : string) : option Spec :=
  match VendorFor vendor with
  | None => None
  | Some v =>
      let e := EnvelopeFor ToLower v model in
      let r := smallest_clip e in
      match Submit ToLower ToUpper Marshal v None [] r model (ResolveAudio e r) with
      | Err _ => None
      | Ok out => Some (mkSpec ProtocolVideo SurfaceVideo (vo_Path out) (vo_Body out) [])
      end
  end.

Definition SpecForEndpoint (ep : string) (model vendor : string) : option Spec :=
  match ProtocolForEndpoint ep, SurfaceForEndpoint ep with
  | Some protocol, Some surface =>
      if bool_decide (ep = "video"%string) then videoSpec model vendor
      else if bool_decide (ep = "images_edits"%string) then imagesEditSpec protocol surface (lit model)
      else match json_spec ep (lit model) with
           | None => None
           | Some (path, doc) =>
               match Marshal (Some doc) with
               | Err _ => None
               | Ok raw => Some (mkSpec protocol surface path raw [])
               end
           end
  | _, _ => None
  end.
Definition SpecForProtocol (p : option Protocol) (model : string) : option Spec :=
  SpecForEndpoint (DefaultEndpoint p) model "".
End specs.

(** ** One probe *)

Record Input := mkInput {
  in_Spec : Spec; in_BaseURL : bytes; in_APIKey : bytes; in_Model : bytes;
  in_Headers : gmap bytes bytes; in_Transport : Transport;
}.
Definition probe_target (i : Input) : Target :=
  mkTarget (sp_Protocol (in_Spec i)) (in_BaseURL i) (in_APIKey i) (sp_Path (in_Spec i)) false (in_Headers i)
    (in_Transport i) (in_Model i) [] [] ∅ [] false.

Definition maxErrorBody : nat := 2048.

Section run.
Variables ToLower ToUpper : string -> string.
Variable Decode : bytes -> result string (option object).
Variable Marshal : option object -> result string bytes.
Variable boundary : bytes.
Variable JoinPath : bytes -> bytes -> result string bytes.
Variable URL : Type.
Variable ParseURL : bytes -> result string URL.
Variable Query : URL -> gmap bytes (list bytes).
Variable WithQuery : URL -> gmap bytes (list bytes) -> bytes.
Variable NewRequest : bytes -> bytes -> option string.
Variable Cache : Type.
Variable PresentWith : Cache -> bytes -> Transport -> bytes -> bytes -> bool -> Z -> HTTPRequest ->
                       result present_error Header * Cache.
Variable visit : gmap bytes bytes -> list (bytes * bytes).
(** The stored profile's parse, the wording of an error, and the network with its clock:
    a status and a body, or no answer. *)
Variable ParseTransport : bytes -> result profile_error Transport.
Variable rewrite_message : rewrite_error -> string.
Variable build_message : build_error -> string.
Variable profile_message : profile_error -> string.
Variable W : Type.
Variable clock : W -> Z.
Variable Do : W -> HTTPRequest -> result string (Z * bytes) * W.

Definition probe_body (i : Input) : result rewrite_error bytes :=
  if beq (sp_ContentType (in_Spec i)) []
  then RewriteRequest Decode Marshal (sp_Surface (in_Spec i)) (sp_Body (in_Spec i)) (in_Model i) false (in_Transport i)
  else Ok (sp_Body (in_Spec i)).

Definition build_probe (c : Cache) (i : Input) (body : bytes) (now : Z) : result build_error HTTPRequest * Cache :=
  if beq (sp_ContentType (in_Spec i)) []
  then BuildRequest JoinPath URL ParseURL Query WithQuery NewRequest Cache PresentWith visit c (probe_target i) body now
  else BuildRequestStream JoinPath URL ParseURL Query WithQuery NewRequest Cache PresentWith visit c (probe_target i) body
         (sp_ContentType (in_Spec i)) now.

Definition no_exchange (message : string) : ProbeResult := mkProbeResult false None None message.

(** [upstreamprobe.Run]. *)
Definition RunProbe (w : Cache * W) (i : Input) : ProbeResult * (Cache * W) :=
  match probe_body i with
  | Err e => (no_exchange ("Could not build the probe body: " ++ rewrite_message e), w)
  | Ok body =>
      match build_probe w.1 i body (clock w.2) with
      | (Err e, c) => (no_exchange ("Could not build the request: " ++ build_message e), (c, w.2))
      | (Ok req, c) =>
          match Do w.2 req with
          | (Err why, net) => (no_exchange ("Could not reach the upstream: " ++ why), (c, net))
          | (Ok (status, answer), net) =>
              let latency := Some (Z.quot (clock net - clock w.2) 1000000) in
              (if (status <? 400)%Z then mkProbeResult true latency (Some status) ""
               else mkProbeResult false latency (Some status)
                      ("The upstream returned " ++ show_int status ++ ": " ++
                       string_of_list_ascii (trim_space (take maxErrorBody answer))), (c, net))
          end
      end
  end%string.

Definition input_of (t : ProbeTarget) (key model : bytes) (tp : Transport) (spec : Spec) : Input :=
  mkInput spec (pt_BaseURL t) key model (default ∅ (pt_Headers t)) tp.

(** [routeprobe.Run]. *)
Definition Run (w : Cache * W) (t : ProbeTarget) (key model : bytes) (ep : string) : ProbeResult * (Cache * W) :=
  match SpecForEndpoint ToLower ToUpper Marshal boundary ep (string_of_list_ascii model) (pt_Vendor t) with
  | None => (no_exchange ("Unknown probe endpoint: " ++ ep), w)
  | Some spec =>
      match ParseTransport (pt_Transport t) with
      | Err e => (no_exchange ("The provider's transport profile could not be read: " ++ profile_message e), w)
      | Ok tp => RunProbe w (input_of t key model tp spec)
      end
  end%string.
End run.

(** ** Helpers *)

Lemma vendor_registered slug v : VendorFor slug = Some v -> vendor_slug v = slug.
Proof. intros H. apply List.find_some in H as [_ H]. by bool_prop. Qed.

Lemma Min_spec d l : Min d l <= d /\ Forall (fun x => Min d l <= x) l /\ Min d l ∈ d :: l.
Proof.
  unfold Min. revert d. induction l as [|x l IH]; intros d; cbn [fold_left].
  - split; [lia|]. split; [constructor|by left].
  - destruct (IH (Z.min d x)) as (H1 & H2 & H3). split; [lia|]. split; [constructor; [lia|done]|].
    apply elem_of_cons in H3 as [->|H3]; [|by right; right].
    destruct (Z.min_spec d x) as [[_ ->]|[_ ->]]; [by left|right; by left].
Qed.

(** The clip a probe asks for, of any vendor: admissible by the vendor's own envelope, and
    no longer than any clip it admits. *)
Lemma smallest_clip_covered ToLower v model :
  let e := EnvelopeFor ToLower v model in
  Covers e (smallest_clip e) (ResolveAudio e (smallest_clip e)) = true /\
  Forall (fun d => vr_DurationSeconds (smallest_clip e) <= d) (en_DurationsSeconds e).
Proof.
  destruct v; cbn [EnvelopeFor]; unfold alibaba_envelope, google_envelope, minimax_envelope.
  - destruct (wanIsImageToVideo ToLower model); split; by vm_compute; repeat constructor.
  - destruct (Contains (lit model) (lit "4k")); split; by vm_compute; repeat constructor.
  - split; by vm_compute; repeat constructor.
  - destruct (Contains (lit (ToLower model)) (lit "fast")); split; by vm_compute; repeat constructor.
  - split; by vm_compute; repeat constructor.
Qed.

(** The shortest request the vendor's own envelope admits never fails to become a body. *)
Lemma smallest_clip_submits ToLower ToUpper (Marshal : option object -> result string bytes) v model on :
  (forall doc, exists b, Marshal (Some doc) = Ok b) ->
  exists out doc, Submit ToLower ToUpper Marshal v None [] (smallest_clip (EnvelopeFor ToLower v model)) model on = Ok out /\
    own_doc ToLower ToUpper v None (smallest_clip (EnvelopeFor ToLower v model)) model on = Ok doc /\
    Marshal (Some (finish_doc v (mergePassthrough doc []))) = Ok (vo_Body out) /\
    vo_Path out = lit (submit_path v (smallest_clip (EnvelopeFor ToLower v model)) model) /\
    vo_Headers out = submit_headers v.
Proof.
  intros HM. unfold Submit, submit_doc. set (r := smallest_clip _).
  assert (Hd : exists doc, own_doc ToLower ToUpper v None r model on = Ok doc) by (destruct v; eexists; reflexivity).
  destruct Hd as [doc Hd]. rewrite Hd. cbn [rbind]. destruct (HM (finish_doc v (mergePassthrough doc []))) as [b Hb].
  rewrite Hb. by do 2 eexists.
Qed.

Lemma json_spec_known ep model : ep ∈ stored_endpoints -> ep <> "video"%string -> ep <> "images_edits"%string ->
  is_Some (json_spec ep model).
Proof.
  intros H H1 H2. unfold stored_endpoints in H.
  repeat (apply elem_of_cons in H as [->|H]; [first [done | by eexists]|]). by apply elem_of_nil in H.
Qed.

Section probe_properties.
Context {URL Cache W : Type}.
Variables ToLower ToUpper : string -> string.
Variable Decode : bytes -> result string (option object).
Variable Marshal : option object -> result string bytes.
Variable boundary : bytes.

(** Whatever a route can have a row for can be probed: every endpoint the table stores
    has its smallest request, on the surface and the dialect of that endpoint and for any
    model — the video endpoint for exactly the vendors a mapper is registered for, with a
    clip the vendor's own envelope admits and none shorter. *)
Theorem every_stored_endpoint_can_be_probed ep model vendor :
  (forall doc, exists b, Marshal (Some doc) = Ok b) -> ep ∈ stored_endpoints ->
  (ep <> "video"%string ->
     exists spec, SpecForEndpoint ToLower ToUpper Marshal boundary ep model vendor = Some spec /\
       ProtocolForEndpoint ep = Some (sp_Protocol spec) /\ SurfaceForEndpoint ep = Some (sp_Surface spec)) /\
  (is_Some (SpecForEndpoint ToLower ToUpper Marshal boundary "video" model vendor) <-> is_Some (VendorFor vendor)) /\
  (forall v, VendorFor vendor = Some v ->
     let e := EnvelopeFor ToLower v model in
     Covers e (smallest_clip e) (ResolveAudio e (smallest_clip e)) = true /\
     Forall (fun d => vr_DurationSeconds (smallest_clip e) <= d) (en_DurationsSeconds e)).
Proof using.
  intros HM Hep. split_and!.
  - intros Hv. unfold SpecForEndpoint.
    assert (Hs : exists p s, ProtocolForEndpoint ep = Some p /\ SurfaceForEndpoint ep = Some s).
    { unfold stored_endpoints in Hep. repeat (apply elem_of_cons in Hep as [->|Hep]; [do 2 eexists; split; reflexivity|]).
      by apply elem_of_nil in Hep. }
    destruct Hs as (p & s & -> & ->). rewrite bool_decide_eq_false_2 by done.
    case_bool_decide as He; [subst; by eexists|].
    destruct (json_spec_known ep (lit model) Hep Hv He) as [[path doc] ->]. destruct (HM doc) as [b ->].
    eexists. split; [reflexivity|done].
  - change (SpecForEndpoint ToLower ToUpper Marshal boundary "video" model vendor) with
      (videoSpec ToLower ToUpper Marshal model vendor).
    unfold videoSpec. destruct (VendorFor vendor) as [v|]; [|split; by intros []].
    destruct (smallest_clip_submits ToLower ToUpper Marshal v model
      (ResolveAudio (EnvelopeFor ToLower v model) (smallest_clip (EnvelopeFor ToLower v model))) HM) as (out & doc & -> & _).
    split; by eexists.
  - intros v _. apply smallest_clip_covered.
Qed.

Variable JoinPath : bytes -> bytes -> result string bytes.
Variable ParseURL : bytes -> result string URL.
Variable Query : URL -> gmap bytes (list bytes).
Variable WithQuery : URL -> gmap bytes (list bytes) -> bytes.
Variable NewRequest : bytes -> bytes -> option string.
Variable PresentWith : Cache -> bytes -> Transport -> bytes -> bytes -> bool -> Z -> HTTPRequest ->
                       result present_error Header * Cache.
Variable visit : gmap bytes bytes -> list (bytes * bytes).
Variable ParseTransport : bytes -> result profile_error Transport.
Variable rewrite_message : rewrite_error -> string.
Variable build_message : build_error -> string.
Variable profile_message : profile_error -> string.
Variable clock : W -> Z.
Variable Do : W -> HTTPRequest -> result string (Z * bytes) * W.
Abbreviation build_probe_ := (build_probe JoinPath URL ParseURL Query WithQuery NewRequest Cache PresentWith visit).

(** A probe is a request.  On a dialect endpoint, what the probe of a route sends is, byte
    for byte, what the data plane sends when a caller asks that endpoint for the same
    document through that route with the same key: same rewriting, same address, same
    headers, same credential — as long as the route has no header mapping of its own. *)
Theorem a_probe_is_a_request ep vendor route cred ph doc path f c now :
  json_spec ep (lit (r_ProviderModelID route)) = Some (path, doc) ->
  ep <> "video"%string -> ep <> "images_edits"%string ->
  (forall b, Marshal (Some doc) = Ok b -> b <> []) ->
  fw_UpstreamPath f = path -> Marshal (Some doc) = Ok (fw_Body f) ->
  ProtocolForEndpoint ep = Some (fw_Protocol f) -> SurfaceForEndpoint ep = Some (fw_Surface f) ->
  fw_Method f = [] -> fw_Resource f = [] -> fw_UpstreamQuery f = ∅ ->
  fw_ProviderHeaders f (r_ProviderID route) = ph -> fw_RouteHeaders f (r_ID route) = ∅ ->
  exists spec, SpecForEndpoint ToLower ToUpper Marshal boundary ep (r_ProviderModelID route) vendor = Some spec /\
    let i := mkInput spec (lit (cr_BaseURL cred)) (lit (cr_Secret cred)) (lit (r_ProviderModelID route)) ph
               (r_Transport route) in
    probe_body Decode Marshal i = forward_body Decode Marshal f route false /\
    probe_target i = forward_target f route cred false /\
    forall body, build_probe_ c i body now =
      BuildRequest JoinPath URL ParseURL Query WithQuery NewRequest Cache PresentWith visit c
        (forward_target f route cred false) body now.
Proof using.
  intros Hj Hv He Hne Hp HM Hpr Hs Hm Hr Hq Hph Hrh.
  unfold SpecForEndpoint. rewrite Hpr, Hs, !bool_decide_eq_false_2 by done. rewrite Hj, HM.
  eexists. split; [reflexivity|]. cbv zeta.
  assert (Ht : probe_target (mkInput (mkSpec (fw_Protocol f) (fw_Surface f) path (fw_Body f) []) (lit (cr_BaseURL cred))
    (lit (cr_Secret cred)) (lit (r_ProviderModelID route)) ph (r_Transport route)) = forward_target f route cred false).
  { unfold probe_target, forward_target, MergeHeaders. cbn. rewrite Hm, Hr, Hq, Hp, Hrh, Hph. f_equal. symmetry. apply map_empty_union. }
  split_and!; [|exact Ht|].
  - unfold probe_body, forward_body. cbn. by rewrite (proj2 (beq_false _ _) (Hne _ HM)).
  - intros body. unfold build_probe. cbn [in_Spec sp_ContentType]. by rewrite Ht.
Qed.

(** An endpoint is only ever found missing by an upstream that said so: a verdict of
    unsupported means a request was built and sent, and answered 404 or 405.  A body that
    cannot be built, an unreadable profile, a refused credential and an upstream out of
    reach are failures, and anything below 400 is a success. *)
Theorem only_an_answer_finds_an_endpoint_missing (w : Cache * W) t key model ep :
  let '(res, w') := Run ToLower ToUpper Decode Marshal boundary JoinPath URL ParseURL Query WithQuery NewRequest Cache
                      PresentWith visit ParseTransport rewrite_message build_message profile_message W clock Do
                      w t key model ep in
  (VerdictOf res = StatusUnsupported ->
     exists i body req c status answer net,
       build_probe_ w.1 i body (clock w.2) = (Ok req, c) /\ Do w.2 req = (Ok (status, answer), net) /\
       (status = 404 \/ status = 405)) /\
  (VerdictOf res = StatusOK ->
     exists i body req c status answer net,
       build_probe_ w.1 i body (clock w.2) = (Ok req, c) /\ Do w.2 req = (Ok (status, answer), net) /\ status < 400).
Proof using.
  unfold Run, RunProbe.
  destruct (SpecForEndpoint _ _ _ _ ep _ _) as [spec|]; [|done].
  destruct (ParseTransport _) as [tp|e]; [|done]. set (i := input_of t key model tp spec).
  destruct (probe_body Decode Marshal i) as [body|e]; [|done].
  destruct (build_probe_ w.1 i body (clock w.2)) as [[req|e] c] eqn:Eb; [|done].
  destruct (Do w.2 req) as [[[status answer]|why] net] eqn:Ed; [|done].
  destruct (status <? 400) eqn:Es; bool_prop.
  - split; [done|]. intros _. exists i, body, req, c, status, answer, net. done.
  - split; [|unfold VerdictOf; cbn [res_OK res_StatusCode]; by destruct (is_missing status)].
    unfold VerdictOf. cbn [res_OK res_StatusCode]. destruct (is_missing status) eqn:Em; [|done]. intros _.
    exists i, body, req, c, status, answer, net. split_and!; [done|done|].
    unfold is_missing in Em. apply orb_true_iff in Em as [Em|Em]; bool_prop; auto.
Qed.

(** What a probe leaves out.  A route's own header mapping is part of every request
    through the route and of no probe of it: where the mapping sets a header, the two
    targets differ at that name. *)
Theorem a_probe_leaves_out_the_routes_headers f (route : Route Transport) cred spec key base model t k v :
  fw_RouteHeaders f (r_ID route) !! k = Some v -> default ∅ (pt_Headers t) !! k <> Some v ->
  tg_Headers (forward_target f route cred false) !! k = Some v /\
  tg_Headers (probe_target (input_of t key model (r_Transport route) spec)) !! k <> Some v /\
  tg_Headers (probe_target (mkInput spec base key model (default ∅ (pt_Headers t)) (r_Transport route))) =
    default ∅ (pt_Headers t).
Proof using.
  intros Hk Hne. split_and!; [|exact Hne|done]. cbn. unfold MergeHeaders. by rewrite (lookup_union_Some_l _ _ _ _ Hk).
Qed.

(** The video probe is not the submission it stands for.  The mapper's headers do not
    travel with it — Alibaba's request for an asynchronous job among them — and a body
    that has no model, as Google's and Kling's have none, is sent with one added. *)
Theorem the_video_probe_is_not_the_submission v model out doc ph rh tp base key :
  let r := smallest_clip (EnvelopeFor ToLower v model) in
  Submit ToLower ToUpper Marshal v None [] r model (ResolveAudio (EnvelopeFor ToLower v model) r) = Ok out ->
  own_doc ToLower ToUpper v None r model (ResolveAudio (EnvelopeFor ToLower v model) r) = Ok doc ->
  VendorFor (vendor_slug v) = Some v /\
  exists spec, videoSpec ToLower ToUpper Marshal model (vendor_slug v) = Some spec /\
    let probe := probe_target (mkInput spec base key (lit model) ph tp) in
    (v = Alibaba -> tg_Headers (video_target ph rh tp (lit model) base key out true) !! lit "X-DashScope-Async" =
                      Some (lit "enable") /\ tg_Headers probe = ph) /\
    (v = Google \/ v = Kuaishou -> BodyEnvelope tp = EnvelopeNone ->
       field doc (lit "model") = None /\
       exists sent, rewrite_doc SurfaceVideo (lit model) false tp (Some doc) = Ok (Some sent) /\
         field sent (lit "model") = Some (VString (lit model))).
Proof using.
  intros r Hs Hd. split; [by destruct v|]. unfold videoSpec.
  assert (Hv : VendorFor (vendor_slug v) = Some v) by (by destruct v). rewrite Hv. cbv zeta. fold r. rewrite Hs.
  eexists. split; [reflexivity|]. split.
  - intros ->. split; [|done]. unfold Submit in Hs. unfold submit_doc in Hs. rewrite Hd in Hs. cbn [rbind] in Hs.
    destruct (Marshal _) as [b|]; [|done]. injection Hs as <-. cbn [video_target tg_Headers vo_Headers]. unfold mergeThree.
    apply lookup_union_Some_l. apply lookup_singleton_eq.
  - intros Hgk Henv. split.
    + destruct Hgk as [-> | ->]; cbn [own_doc] in Hd.
      * unfold google_doc in Hd. apply rbind_ok in Hd as (inst & _ & Hd). by injection Hd as <-.
      * unfold kuaishou_doc in Hd. destruct (_ && _); [done|]. injection Hd as <-. unfold r, smallest_clip. by vm_compute.
    + unfold rewrite_doc, name_model. cbn [geminiPathModelSurface negb rbind]. unfold applyEnvelope. rewrite Henv.
      eexists. split; [reflexivity|]. unfold force_usage. cbn. done.
Qed.
End probe_properties.

(** ** Witnesses *)

Abbreviation demo_marshal := (fun _ : option object => Ok (lit "{}") : result string bytes).
Abbreviation demo_decode := (fun _ : bytes => Ok (Some []) : result string (option object)).
Definition demo_chat_route : Route Transport :=
  mkRoute (Some "r1"%string) (Some "p1"%string) "hosted" "openai" 0 1 10000 0 false 0 no_transport
    (mkCapacity 0 0 0) "https://api.test" "gpt".
Definition demo_chat : Forward :=
  mkForward SurfaceChat ProtocolOpenAI PathChat [] [] ∅ (lit "{}") (fun _ => ∅) (fun _ => ∅).
Definition demo_mapped : Forward :=
  mkForward SurfaceChat ProtocolOpenAI PathChat [] [] ∅ (lit "{}") (fun _ => ∅) (fun _ => {[lit "X-Org" := lit "acme"]}).
Abbreviation demo_cred := (mkCred None "sk-1" "https://api.test" None).
Abbreviation demo_upper := (fun s : string => s).
Abbreviation demo_never := (fun (c : unit) (_ : bytes) (_ : Transport) (_ _ : bytes) (_ : bool) (_ : Z) (r : HTTPRequest) =>
  (Ok (rq_Header r), c) : result present_error Header * unit).
(** An upstream that has no such path. *)
Abbreviation demo_run := (Run demo_upper demo_upper demo_decode demo_marshal (lit "b0")
  (fun base path => Ok (base ++ path)) bytes (fun u => Ok u) (fun _ => ∅) (fun u _ => u) (fun _ _ => None)
  unit demo_never map_to_list (fun _ => Ok no_transport) (fun _ => "rewrite"%string) (fun _ => "build"%string)
  (fun _ => "profile"%string) Z (fun w => w) (fun w _ => (Ok (404, lit "no route"), w + 3000000))).

Example the_edit_probe_is_a_form :
  (fun spec => (len (sp_Body spec), sp_ContentType spec)) <$>
    SpecForEndpoint demo_upper demo_upper demo_marshal (lit "b0") "images_edits" "gpt-image" "openai" =
  Some (323, lit "multipart/form-data; boundary=b0").
Proof. vm_compute. reflexivity. Qed.

Lemma every_stored_endpoint_can_be_probed_witness :
  exists spec, SpecForEndpoint demo_upper demo_upper demo_marshal (lit "b0") "gemini_embed_content" "m" "google" = Some spec /\
    ProtocolForEndpoint "gemini_embed_content" = Some (sp_Protocol spec).
Proof.
  destruct (every_stored_endpoint_can_be_probed demo_upper demo_upper demo_marshal (lit "b0") "gemini_embed_content" "m"
    "google") as [H _].
  - intros doc. exists (lit "{}"). reflexivity.
  - apply (bool_decide_eq_true_1 _). vm_compute. reflexivity.
  - destruct H as (spec & H1 & H2 & _); [discriminate|]. exists spec. split; [exact H1|exact H2].
Defined.

Lemma a_probe_is_a_request_witness :
  exists spec, SpecForEndpoint demo_upper demo_upper demo_marshal (lit "b0") "chat" "gpt" "openai" = Some spec /\
    probe_target (mkInput spec (lit "https://api.test") (lit "sk-1") (lit "gpt") ∅ no_transport) =
    forward_target demo_chat demo_chat_route demo_cred false.
Proof.
  destruct (a_probe_is_a_request demo_upper demo_upper demo_decode demo_marshal (lit "b0")
    (fun base path => Ok (base ++ path)) (fun u : bytes => Ok u) (fun _ => ∅) (fun u _ => u) (fun _ _ => None)
    demo_never map_to_list "chat" "openai" demo_chat_route demo_cred ∅
    [(lit "model", VString (lit "gpt")); (lit "max_tokens", num 1); (lit "messages", user_hi)] PathChat demo_chat tt 0)
    as (spec & H1 & _ & H2 & _); try reflexivity; try discriminate.
  - intros b [= <-]. discriminate.
  - exists spec. split; [exact H1|exact H2].
Defined.

Lemma only_an_answer_finds_an_endpoint_missing_witness :
  VerdictOf (demo_run (tt, 0) (mkProbeTarget (lit "https://api.test") "openai" [ProtocolOpenAI] None []) (lit "sk-1")
               (lit "gpt") "chat").1 = StatusUnsupported /\
  exists status : Z, status = 404 \/ status = 405.
Proof.
  split; [vm_compute; reflexivity|].
  pose proof (only_an_answer_finds_an_endpoint_missing demo_upper demo_upper demo_decode demo_marshal (lit "b0")
    (fun base path => Ok (base ++ path)) (fun u : bytes => Ok u) (fun _ => ∅) (fun u _ => u) (fun _ _ => None)
    demo_never map_to_list (fun _ => Ok no_transport) (fun _ => "rewrite"%string) (fun _ => "build"%string)
    (fun _ => "profile"%string) (fun w : Z => w) (fun w _ => (Ok (404, lit "no route"), w + 3000000)) (tt, 0)
    (mkProbeTarget (lit "https://api.test") "openai" [ProtocolOpenAI] None []) (lit "sk-1") (lit "gpt") "chat") as H.
  destruct (demo_run _ _ _ _ _) as [res w'] eqn:E. destruct H as [H _].
  destruct H as (i & body & req & c & status & answer & net & _ & _ & Hs); [|exists status; exact Hs].
  injection E as <- _. vm_compute. reflexivity.
Defined.

Lemma a_probe_leaves_out_the_routes_headers_witness :
  tg_Headers (forward_target demo_mapped demo_chat_route demo_cred false) !! lit "X-Org" = Some (lit "acme").
Proof.
  apply (a_probe_leaves_out_the_routes_headers demo_mapped demo_chat_route demo_cred
    (mkSpec ProtocolOpenAI SurfaceChat PathChat (lit "{}") []) (lit "sk-1") (lit "https://api.test") (lit "gpt")
    (mkProbeTarget (lit "https://api.test") "openai" [ProtocolOpenAI] None []) (lit "X-Org") (lit "acme"));
    [reflexivity|discriminate].
Defined.

Lemma the_video_probe_is_not_the_submission_witness :
  exists spec, videoSpec demo_upper demo_upper demo_marshal "kling-v2" "kuaishou" = Some spec.
Proof.
  destruct (the_video_probe_is_not_the_submission demo_upper demo_upper demo_marshal Kuaishou "kling-v2"
    (mkVideoOutbound (lit "POST") (lit "/v1/videos/text2video") [] ∅ ∅ (lit "{}"))
    [(lit "model_name", str "kling-v2"); (lit "prompt", str "a dot"); (lit "mode", str "std"); (lit "duration", str "5");
     (lit "aspect_ratio", str "16:9")] ∅ ∅ no_transport (lit "https://api.test") (lit "sk-1") eq_refl eq_refl)
    as (_ & spec & H & _).
  exists spec. exact H.
Defined.
